(* ===== verification/_CoqProject ===== *)
-Q . S2P
Prelude.v
Zdp.v
ZdprReceiver.v
ZdprSender.v
ZdprSenderProps.v
ZdprSenderThms.v
MgmtCore.v
Dispatch.v
ZdprSettles.v
ZdprLink.v
DispatchProps.v
MgmtCoreProps.v
PacketBuf.v
NetDefs.v
Classifier.v
ClassifierProps.v
Compress.v
CompressProps.v
Tc.v
TcProps.v
TxnMgr.v
AdapterTables.v
AdapterTablesProps.v
Tlv.v
TlvProps.v
AddressPool.v
Slab.v
ForwardingTables.v
Auth.v
LinkTypes.v
PeerTable.v
PeerTableProps.v
VisaTable.v
VisaTableProps.v
Assembly.v
NodeBind.v
NodeBindInv.v
NodeBindProps.v
NodeBindThms.v
NodeBindExample.v
LinkFsm.v
LinkTasks.v
LinkInv.v
LinkDrop.v
LinkProtocol.v
LinkHandlers.v
LinkRun.v
LinkThms.v
LinkExample.v
Pkt.v
Queues.v
QueueWake.v
LinkCrypt.v
LinkCryptProps.v
Fastpath.v
FastpathProps.v
FastpathFates.v
FastpathIo.v
FastpathIoProps.v
FastpathThms.v
FastpathPath.v
FastpathTether.v
FastpathExample.v
Steering.v
KmNoise.v
KmNoiseProps.v
KmLink.v
KeyManager.v
KeyManagerProps.v
KmExample.v
Requests.v
Handlers.v
HandlersProps.v
HandlersThms.v
HandlersSafe.v
HandlersExample.v
VsConn.v
VsWorker.v
Vss.v
VsExample.v
