(* ===== verification/Prelude.v ===== *)
(** * ZPR packet handler: a verification library

    ** The program

    The ZPR packet handler ([adapter/ph]) carries IP traffic between adapters and
    nodes of a ZPR network.  Packets live in buffers that hold their own metadata
    ([packet.rs]).  A packet from an endpoint is classified by its headers
    ([classifier.rs]) into a five-tuple ([defs.rs]); the adapter looks the
    five-tuple up in its endpoint lookup table ([adapter_tables.rs]), asks the node
    for a tether when there is none ([adapter_manager_worker.rs],
    [mgmt/adapter.rs]) under a transaction identifier ([mgmt/txn_mgr.rs]), and
    compresses the headers the tether's traffic classifier ([tc.rs]) makes
    redundant ([compress.rs]).  Adapter and node configure each other with
    management packets (headers in [zdp.rs], values in [tlv.rs]), sent through
    futures ([mgmt/core.rs]), made reliable by ZDPR ([zdpr.rs], retries in
    [zdpr_worker.rs]) and taken apart on arrival ([mgmt/dispatch.rs]).

    Both sides keep their peers in a table ([peer_table.rs]); each peer has a link
    with a state machine ([link_state.rs]) that takes it from keying through hello and
    authentication ([auth.rs]) to an active link with keep-alives and renewals, and
    through closing and resetting to its removal.  Its handlers run over the shared
    state of the program ([assembly.rs]), send packets, and spawn tasks that come back
    with events: packets acknowledged, answers of the visa service ([visa_mgmt.rs],
    [vss_worker.rs]), credentials of a user, keys established ([km_multiplexor.rs]).
    A node hands out authentication addresses from a pool ([address_pool.rs]), keeps
    the visas it was granted ([visa_table.rs]), and binds flows ([mgmt/node.rs]): a
    bind request of an adapter finds or fetches a visa, binds the next hop, and ends in
    routes in the forwarding tables of the two peers ([forwarding_tables.rs]) that are
    recorded with the visa, so that revoking it withdraws them.

    Packets of flows take the fast path ([fastpath.rs]): workers take them from the
    sockets and the TUN device ([fastpath_io.rs], [fastpath_worker.rs]), protect them
    with the link's security association or undo that, forward or deliver them, and
    pass management packets on through queues ([queues.rs], [packet_queue.rs],
    [two_way_queue.rs]); the system is told which worker's socket a packet is for
    ([packet_steering.rs]).  The associations come from a key manager for each link
    ([km.rs], [km_multiplexor.rs]) that runs a Noise handshake in which the ends
    exchange keys and certificates ([km_noise.rs], [km_cert_exchange.rs]).

    A node talks to the visa service in both directions.  Its calls go as commands over
    a channel to a run loop that owns the connection, pings it and dials again when it
    is lost ([libnode2/src/vsconn.rs]); a worker follows the loop's lifecycle and keeps
    the node connected and registered ([vs_worker.rs]).  The visa service's calls are
    taken by the visa support service ([libnode2/src/vss.rs]) and served by a worker
    ([vss_worker.rs]).

    ** The files

    - [Prelude]: outcomes (a value or a panic), machine integers, big- and
      little-endian bytes, slices; lemmas and tactics the other files share.
    - [Zdp]: packet types and headers of [zdp.rs].
    - [ZdprReceiver], module [Rx]: [Receiver] of [zdpr.rs] (the 64-bit window),
      an abstract receiver that remembers every sequence number, and the
      refinement between them.
    - [ZdprSender], module [Tx]: [Sender] of [zdpr.rs] (sent and waiting queues,
      cancellation, retries).  [ZdprSenderProps]: its invariant, kept by every
      operation.  [ZdprSenderThms]: runs of operations, with what holds of every
      run.  [ZdprSettles]: which operations settle a packet.
    - [Dispatch]: [mgmt/dispatch.rs] and the retry loop of [zdpr_worker.rs];
      [DispatchProps]: which packets make it panic.
    - [ZdprLink], module [Link]: two peers and a network that loses, duplicates and
      reorders, as a transition system over the two files above.
    - [MgmtCore]: the futures of [mgmt/core.rs]; [MgmtCoreProps]: what they report.
    - [PacketBuf]: packet buffers of [packet.rs] on raw bytes, with a
      representation predicate for their four sections.
    - [NetDefs]: the five-tuple, and the class of protocol numbers, addresses and
      checksums that come from other crates.
    - [Classifier], [ClassifierProps]: [classifier.rs].
    - [Compress], [CompressProps]: [compress.rs].  [Tc], [TcProps]: [tc.rs] and the
      way of a packet through a tether.
    - [TxnMgr]: [mgmt/txn_mgr.rs] with the tasks around its mutex.
    - [AdapterTables], [AdapterTablesProps]: the endpoint lookup table and the
      set-up of tethers, over [TxnMgr].
    - [Tlv], [TlvProps]: [tlv.rs].
    - [AddressPool]: [address_pool.rs].
    - [Slab]: the class of the [cslab] crate, with a first-fit instance.
      [ForwardingTables]: the peer forwarding table and the dock lookup table over it.
    - [Auth]: challenges, blobs and their encodings of [auth.rs], over the class
      [Crypto] of base64, JSON, hashes and signatures.
    - [LinkTypes]: state and data of a link ([link_state.rs], [sample_ring.rs]).
    - [PeerTable], [PeerTableProps]: [peer_table.rs].  [VisaTable], [VisaTableProps]:
      [visa_table.rs].
    - [Assembly], module [Asm]: the shared state as a record, computations over it
      that may panic, the messages sent and tasks spawned as lists, the operations of
      [assembly.rs] and [visa_mgmt.rs]; weakest preconditions.
    - [NodeBind]: [mgmt/node.rs] and the handlers that call it.  [NodeBindInv],
      [NodeBindProps], [NodeBindThms]: the invariant between the tables, who keeps it,
      what it gives.  [NodeBindExample]: a node with two adapters.
    - [LinkFsm]: every event handler of [link_state.rs].  [LinkTasks]: what the tasks
      do when their wait is over, and the callers in [assembly.rs], [visa_mgmt.rs],
      [vss_worker.rs] and [km_multiplexor.rs].
    - [LinkInv]: rules to run handlers symbolically.  [LinkDrop]: removing a peer.
      [LinkProtocol]: the state machine as a table.  [LinkHandlers]: each handler keeps
      to it.  [LinkRun]: the start of the program, its runs, and their invariant.
      [LinkThms]: the theorems.  [LinkExample]: runs in which an adapter is let in and
      waits for its user.

    - [Pkt]: packets as metadata, headroom, body and tailroom, related to [PacketBuf].
    - [Queues]: the queues and the capture pool.  [QueueWake]: the return path of a
      two-way queue as a transition system over its notifications.
    - [LinkCrypt], [LinkCryptProps]: protection of packets on a link and the codecs,
      over the class [Ciphers].
    - [Fastpath]: [fastpath.rs] as computations over a worker, against the tables it
      reads.  [FastpathIo]: [fastpath_io.rs] and the loop of [fastpath_worker.rs].
      [FastpathProps]: rules for traces of computations.  [FastpathFates]: where each
      packet goes and the listed ways to panic.  [FastpathIoProps]: batches.
      [FastpathThms]: the theorems.  [FastpathPath]: from one end of a link to the
      other.  [FastpathTether]: from adapter over a node to adapter.
      [FastpathExample]: these three with concrete tables.
    - [Steering]: [packet_steering.rs] over a class of filter machines.
    - [KmNoise], [KmNoiseProps]: the Noise key manager, over the classes [Snow] and
      [Pki].  [KmLink]: the two ends of a handshake and the link they secure.
    - [Requests]: [mgmt/requests.rs] and [mgmt/helpers.rs], the packet of every
      message, over the class [Wire].  [Handlers]: [mgmt/handlers.rs], the adapter's
      part of [mgmt/adapter.rs] and the loop of [mgmt_processor_worker.rs], over the
      shared state and the class [AdapterFlows].  [HandlersProps]: reading back what was
      written.  [HandlersThms]: messages and their meaning.  [HandlersSafe]: handlers
      together with the packets they write ([Requests.with_packets]).  [HandlersExample]:
      messages and packets at a node with a session.
    - [KeyManager], [KeyManagerProps]: the loop of a key manager, over a class of state
      machines with laws, and the signal worker.  [KmExample]: a handshake.
    - [VsConn]: the run loop of [vsconn.rs] as a labelled transition system, its
      commands and calls; its theorems in module [VsConnProps].  [VsWorker]:
      [vs_worker.rs] together with the run loop and the channels between them; its
      theorem in module [VsWorkerProps].  [Vss]:
      [vss.rs] against the interface [VssHandler], and [launch] of [vss_worker.rs] as
      its instance.  [VsExample]: a session lost and made again.

    ** How code is translated

    A function that may panic ([assert!], [unwrap], [expect], [unreachable!],
    out-of-range index or slice) returns an [outcome]; a [Result] is a sum and an
    [Option] an option.  Fields keep their names, methods on [&mut self] take and
    return the record.  Unsigned integers are [Z] with wrap-around written out:
    release builds switch overflow checks off and abort on a panic.  Time and
    randomness are arguments.  Wakers are values that are returned when the code
    wakes them.  Logging is left out; statistics and counters are kept where the
    code returns them or counts by them.  Code of other crates is a class
    ([NetDefs], [Layout], [Slab], [Crypto], [VisaEnv] for visas and their lookup
    table, [TunCtl] for the TUN device, [FlowTables]) or an argument ([iter],
    [read_visa], [derive_key], ...), with its documented behaviour as laws or
    hypotheses; witnesses instantiate them ([iana], [FirstFit], [toy_crypto],
    [toy_visas], [toy_tun], [toy_flows], [toy_ciphers], [toy_snow], [toy_pki],
    [demo_wire], [map_adapter]).  Handlers that share the program's state are
    computations in the monad [Asm.M]; what an asynchronous task does after it has
    waited is a separate definition, run when the wait is over, in any order.  A task's
    first packet counts as sent when the task is spawned.  Locks are held for the
    length of a handler.

    ** What the theorems show

    - Reliable delivery ([ZdprReceiver], [ZdprLink]): the window agrees with the
      abstract receiver, each packet is processed at most once over a run, exactly
      once when the sender saw it acknowledged, and a packet the sender still waits
      for is never ignored: a retry sends it again, every copy that arrives is
      answered, and an answer settles it; every packet that can be on the wire is
      handled without a panic.
    - The sender ([ZdprSenderThms]): no operation panics in a run of well-formed
      calls, packets leave in order, none is lost or duplicated, the window is
      respected, retries follow the limit, waiters are woken.
    - Futures and dispatch ([MgmtCoreProps], [DispatchProps]): a packet sent is the
      packet dispatched, futures report the status, dropped futures leave nothing
      behind, and exactly the truncated packets crash dispatch.
    - Packet buffers: every operation on the four sections, round trips.
    - Classification, compression, tethers: exactly which headers crash the
      classifier; a packet that matches a tether's classifier comes out of the
      other end byte for byte; classifiers round-trip on the wire; the tables, their
      index and the reference counts stay consistent, so no consistency check
      fails, and transaction identifiers are never shared nor wake-ups lost.
    - TLV: what is written is parsed, strings cut to 255 bytes, unknown types skipped,
      parsing is total; only a visa too long for its TLV panics.
    - Address pool: probing ends, addresses are fresh, releasing undoes getting.
    - Tables of a node: lookups by link, address and special name agree, but for a
      name that was given to a link after its removal ([PeerTableProps]); revoking
      withdraws exactly the routes recorded with a visa and expiry takes exactly the
      expired ones, and they panic exactly on a record whose route is gone
      ([VisaTableProps]).
    - Binding flows ([NodeBindThms]): in runs of requests, answers, new and removed
      peers the requests, their back links, handles and transactions stay consistent,
      and a step panics only on a packet that the classifier panics on or a stale
      record of a route; an answer of the next hop installs the route and ends the
      request.
    - Links ([LinkThms], [HandlersSafe]): handlers, with the packets they send, keep to
      the table of the protocol and panic only for listed reasons; over all runs from
      the program's start, the listed waits of links have a timeout or a task, and a
      session is
      active only after its blobs were verified and an address granted; timeouts never
      reach into another state; keep-alives close after three misses; the device
      handshake works across adapter and node; renewals are sent on exactly when they
      check out.

    - The fast path ([FastpathThms]): every packet that comes in meets one fate and is
      counted once, buffers are neither lost nor duplicated over a turn of the loop,
      unsent management packets stay queued in order and nothing else does, what is
      accepted on a secured link was protected by its peer, and a node, its internal
      links included, panics on ingress only for a packet to its own actor that
      delivery panics on.  What one end of a link sends the other takes
      in as it was ([FastpathPath]); an IPv6 packet crosses two adapters and a node
      and comes out with its hop limit lowered ([FastpathTether]).  No wake-up of a
      return queue is lost, in any interleaving ([QueueWake]).
    - Management messages ([HandlersThms], [HandlersSafe]): every message with values in
      range fits its packet and is, at the peer, the operation it stands for with its
      values; a packet outside flows stops the program only in the listed ways, the
      messages that do not fit their packets included.
    - Key management: the Noise machine never panics, transports only with a verified
      certificate where one is required, and an undisturbed handshake gives the two
      ends mirrored associations, which are what the fast path asks for
      ([KmNoiseProps], [KmLink]); a manager signals what its machine is at, for every
      machine with the edges of the diagram at [KmSMState], re-keying and failing ones
      included ([KeyManagerProps]).
    - The visa service ([VsConnProps], [VsWorkerProps]): commands are answered or
      dropped exactly once and in order, the lifecycle events tell the state of the
      connection, a silent visa service is noticed within nine seconds, only a [Stop]
      ends the loop, and the worker never waits for a start that will not come while
      the node is not registered.  A push of visas is acknowledged with what was
      applied ([Vss.push_acked]).

    Where the code does something else than it means to, a theorem states what it
    does: a window of 64 loses packets ([Rx.window_64_drops_packets]), an
    acknowledgement far from the window panics ([TxThms.process_ack_panics]),
    cancelling an acknowledged packet panics
    ([MgmtCoreProps.request_cancel_of_acked_panics]), a dropped queued future blocks
    the window ([MgmtCoreProps.queued_future_leaks_window]), truncated packets crash
    dispatch and classifier ([DispatchProps.dispatch_panics_iff],
    [ClassifierProps.next_header_panics_iff]), a prefix clone panics
    ([PacketBuf.clone_prefix_panics]), packets with IP options are not restored
    ([CompressProps.options_not_restored]), addresses outside an 0aaa network are
    never released ([AddressPool.pool_roundtrip]).  At a node, a reused transaction
    identifier, a reused link identifier, and unbinding before revoking crash it
    ([NodeBindThms.reused_transaction_crashes], [reused_link_crashes],
    [unbind_then_revoke_crashes]), a visa inserted twice keeps routes past its
    revocation ([VisaTableProps.reinserted_visa_keeps_routes]), the wait for an
    adapter's authentication does not end ([LinkThms.authentication_wait_unbounded]),
    a special name given to a removed link stays ([PeerTableProps.late_name_stays]),
    and a grant for a link that is gone activates its successor
    ([LinkThms.stale_grant_activates]).  IPv4 packets leave a tether with a wrong
    header checksum ([FastpathTether.ipv4_never_delivered]), an A2A SAID that is not 0
    panics ([FastpathThms.actor_input_panics_iff]), and transit packets are steered by
    their payload ([Steering.transit_steered_by_payload]).  A report from any peer stops
    the program ([HandlersSafe.report_stops_program]), and so does a credential that
    does not fit a packet ([HandlersThms.acquire_overflows_iff]).  A [Stop] whose
    farewell is not answered does not stop the connection
    ([VsConnProps.only_stop_ends]), a TLS handshake holds it
    ([handshake_not_interrupted]), and one that fails ends the visa support service
    ([Vss.handshake_ends_server]).

    ** Bounds and fuel

    Sender runs use fewer than 2^62 operations' worth of sequence numbers and queue
    identifiers ([LIMIT]), links fewer than 2^63 - 1 ([SEQ_LIMIT]): sequence numbers
    are 64 bits and compared as signed differences.  Reference counts are bounded by
    the number of live handles, below 2^64.  Loops that are not structural run on
    fuel that is proved enough: [unblock_loop] on the length of the waiting queue,
    [classify_next_header] and [parse_loop] on the length of the packet (each turn
    consumes a byte), [probe] on the number of active addresses, [expire_loop] on the
    length of the queue of expiry times.  The handles of a node are a multiset of fewer
    than 2^61; link identifiers have 32 bits and uids 64.  A handler advances the
    logical clock of its link by at most eight.  The lifecycle channel holds 64 events,
    and what is shown of the worker holds as long as it has lost none.  Running out of
    fuel is a panic or [None], so that totality theorems exclude it.

    ** What is not modelled

    Certificates and keys themselves ([pki.rs]), which rest on cryptographic crates;
    operating-system code ([sys/], [batch_io.rs], [tun_ctl.rs]); the command line and
    administration interfaces ([cli], [admin-api], [admin_worker.rs] except for starting
    links and the agents of users, the tools of [libnode2]), start-up except for the
    internal peers ([main.rs]), and configuration parsing.  Of the connection to the visa service, TLS
    and Cap'n Proto are arguments, and so is what the visa service answers.  Errors of
    signing are left out.  Headroom is abstracted in [Compress], whose packets are
    their bodies; [PacketBuf] models it.  *)
From Stdlib Require Import ZArith Lia.
From stdpp Require Import base tactics option list list_numbers numbers gmap.

Local Open Scope Z_scope.

(** ** Outcomes of Rust code that may panic

    [assert!], [unwrap], [panic!] and out-of-range indexing end the process
    (the release profile sets [panic = "abort"]); such code returns an
    [outcome]. *)
Inductive outcome (A : Type) : Type :=
| Ret (a : A)
| Panic.
Arguments Ret {A} a.
Arguments Panic {A}.

#[global] Instance outcome_ret : MRet outcome := fun A a => Ret a.
#[global] Instance outcome_bind : MBind outcome := fun A B f m =>
  match m with Ret a => f a | Panic => Panic end.
#[global] Instance outcome_fmap : FMap outcome := fun A B f m =>
  match m with Ret a => Ret (f a) | Panic => Panic end.

(** [assert!(b)]. *)
Definition rust_assert (b : bool) : outcome unit := if b then Ret tt else Panic.

(** [Option::unwrap] and [Option::expect]. *)
Definition unwrap {A} (o : option A) : outcome A :=
  match o with Some a => Ret a | None => Panic end.

(** [v[i]] on a [Vec], slice or [VecDeque], the index being a [usize]. *)
Definition index {A} (l : list A) (i : Z) : outcome A :=
  if (0 <=? i) && (i <? Z.of_nat (length l)) then unwrap (l !! Z.to_nat i) else Panic.

(** ** Machine integers

    A [w]-bit unsigned integer is a [Z] in [0, 2^w).  Arithmetic is the
    release build's (overflow checks off): it wraps, and a shift amount is
    taken modulo the width. *)
Definition wrap (w x : Z) : Z := x mod 2 ^ w.

Definition u64 (x : Z) : Prop := 0 <= x < 2 ^ 64.

Definition wrapping_add (w a b : Z) : Z := wrap w (a + b).
Definition wrapping_sub (w a b : Z) : Z := wrap w (a - b).

(** [x as i64] of an unsigned value or of a mathematical result. *)
Definition as_i64 (x : Z) : Z :=
  let y := wrap 64 x in if y <? 2 ^ 63 then y else y - 2 ^ 64.

(** [x as usize] of an [i64]. *)
Definition as_usize (x : Z) : Z := wrap 64 x.

(** [-x] and [x + y] on [i64]. *)
Definition i64_neg (x : Z) : Z := as_i64 (- x).
Definition i64_add (x y : Z) : Z := as_i64 (x + y).

(** [x << s] and [x >> s] on [u64]. *)
Definition shl64 (x s : Z) : Z := wrap 64 (Z.shiftl x (s mod 64)).
Definition shr64 (x s : Z) : Z := Z.shiftr x (s mod 64).

(** [u64::leading_ones]. *)
Fixpoint leading_ones_upto (n : nat) (x : Z) : Z :=
  match n with
  | O => 0
  | S m => if Z.testbit x (Z.of_nat m) then 1 + leading_ones_upto m x else 0
  end.
Definition leading_ones (x : Z) : Z := leading_ones_upto 64 x.

(** Length of a list as the code's [usize]. *)
Definition zlen {A} (l : list A) : Z := Z.of_nat (length l).

(** ** Bytes and big-endian encodings *)
Definition is_byte (b : Z) : Prop := 0 <= b < 256.
Definition bytes_ok (l : list Z) : Prop := Forall is_byte l.

(** [x.to_be_bytes()] of an [8 * n]-bit integer. *)
Fixpoint be_bytes (n : nat) (x : Z) : list Z :=
  match n with
  | O => []
  | S m => be_bytes m (x / 256) ++ [x mod 256]
  end.

(** [uN::from_be_bytes]. *)
Definition from_be (l : list Z) : Z := foldl (fun acc b => acc * 256 + b) 0 l.

(** [x.to_le_bytes()] and [uN::from_le_bytes]. *)
Definition le_bytes (n : nat) (x : Z) : list Z := rev (be_bytes n x).
Definition from_le (l : list Z) : Z := from_be (rev l).

(** ** Slices: [l[a..b]], and overwriting [l[a..a + xs.len()]]. *)
Definition slice {A} (l : list A) (a b : Z) : outcome (list A) :=
  if (0 <=? a) && (a <=? b) && (b <=? zlen l)
  then Ret (take (Z.to_nat (b - a)) (drop (Z.to_nat a) l)) else Panic.
Definition write_at {A} (l : list A) (a : Z) (xs : list A) : outcome (list A) :=
  if (0 <=? a) && (a + zlen xs <=? zlen l)
  then Ret (take (Z.to_nat a) l ++ xs ++ drop (Z.to_nat a + length xs) l) else Panic.

(** ** Automation *)
Create HintDb zpr.

(** Case analysis on the integer comparisons the code makes. *)
Ltac ztest :=
  match goal with
  | |- context [?a <=? ?b] => destruct (Z.leb_spec a b)
  | |- context [?a <? ?b] => destruct (Z.ltb_spec a b)
  | |- context [?a =? ?b] => destruct (Z.eqb_spec a b)
  | H : context [?a <=? ?b] |- _ => destruct (Z.leb_spec a b)
  | H : context [?a <? ?b] |- _ => destruct (Z.ltb_spec a b)
  | H : context [?a =? ?b] |- _ => destruct (Z.eqb_spec a b)
  end.
Ltac ztests := repeat (ztest; try lia).

(** Turn boolean comparisons in the hypotheses into propositions. *)
Ltac zprop :=
  rewrite ?andb_true_iff, ?orb_true_iff, ?negb_true_iff,
    ?Z.leb_le, ?Z.ltb_lt, ?Z.eqb_eq, ?Z.leb_gt, ?Z.ltb_ge, ?Z.eqb_neq in *.

(** ** Lemmas on machine integers *)
Section ints.

Lemma wrap_range w x : 0 <= w -> 0 <= wrap w x < 2 ^ w.
Proof. intros Hw. apply Z.mod_pos_bound, Z.pow_pos_nonneg; lia. Qed.

Lemma wrap_small w x : 0 <= x < 2 ^ w -> wrap w x = x.
Proof. apply Z.mod_small. Qed.

Lemma wrap_idemp_add_l w a b : 0 <= w -> wrap w (wrap w a + b) = wrap w (a + b).
Proof. intros; apply Zplus_mod_idemp_l. Qed.

Lemma wrap_idemp_sub_l w a b : 0 <= w -> wrap w (wrap w a - b) = wrap w (a - b).
Proof. intros; apply Zminus_mod_idemp_l. Qed.

Lemma wrap_idemp_sub_r w a b : 0 <= w -> wrap w (a - wrap w b) = wrap w (a - b).
Proof. intros; apply Zminus_mod_idemp_r. Qed.

Lemma wrap_wrap w a : 0 <= w -> wrap w (wrap w a) = wrap w a.
Proof. intros; apply Zmod_mod. Qed.

Lemma as_i64_wrap x : as_i64 (wrap 64 x) = as_i64 x.
Proof. unfold as_i64. by rewrite wrap_wrap by lia. Qed.

Lemma as_i64_range x : - 2 ^ 63 <= as_i64 x < 2 ^ 63.
Proof. unfold as_i64. pose proof (wrap_range 64 x ltac:(lia)). ztests. Qed.

Lemma as_i64_small x : - 2 ^ 63 <= x < 2 ^ 63 -> as_i64 x = x.
Proof.
  intros Hx. unfold as_i64, wrap.
  destruct (Z_lt_le_dec x 0).
  - replace (x mod 2 ^ 64) with (x + 2 ^ 64); [ztests|].
    rewrite <- (Z_mod_plus_full x 1 (2 ^ 64)), Z.mod_small; lia.
  - rewrite Z.mod_small by lia. ztests.
Qed.

(** The wrapped difference of two wrapped counters is the difference of the
    counters, as long as they are within [2^63] of each other. *)
Lemma seq_diff a b :
  - 2 ^ 63 <= a - b < 2 ^ 63 -> as_i64 (wrapping_sub 64 (wrap 64 a) (wrap 64 b)) = a - b.
Proof.
  intros H. unfold wrapping_sub.
  rewrite wrap_idemp_sub_l, wrap_idemp_sub_r, as_i64_wrap by lia.
  by apply as_i64_small.
Qed.

Lemma seq_add a b : wrapping_add 64 (wrap 64 a) b = wrap 64 (a + b).
Proof. unfold wrapping_add. by rewrite wrap_idemp_add_l by lia. Qed.

Lemma seq_sub a b : wrapping_sub 64 (wrap 64 a) b = wrap 64 (a - b).
Proof. unfold wrapping_sub. by rewrite wrap_idemp_sub_l by lia. Qed.

Lemma wrap_inj_near w a b :
  0 <= w -> wrap w a = wrap w b -> - 2 ^ w < a - b < 2 ^ w -> a = b.
Proof.
  intros Hw Heq Hd. unfold wrap in Heq.
  assert (0 < 2 ^ w) by (apply Z.pow_pos_nonneg; lia).
  assert (a - b = 2 ^ w * (a / 2 ^ w - b / 2 ^ w)) as Hab.
  { rewrite (Z.div_mod a (2 ^ w)) at 1 by lia. rewrite (Z.div_mod b (2 ^ w)) at 1 by lia. lia. }
  enough (a / 2 ^ w - b / 2 ^ w = 0) by lia. nia.
Qed.

Lemma leading_ones_upto_bounds n x : 0 <= leading_ones_upto n x <= Z.of_nat n.
Proof. induction n as [|n IH]; simpl; [lia|]. destruct (Z.testbit _ _); lia. Qed.

(** All of the counted bits are set. *)
Lemma leading_ones_upto_set n x i :
  Z.of_nat n - leading_ones_upto n x <= i < Z.of_nat n -> Z.testbit x i = true.
Proof.
  induction n as [|n IH]; simpl; [lia|].
  destruct (Z.testbit x (Z.of_nat n)) eqn:E; [|lia].
  intros Hi. destruct (Z.eq_dec i (Z.of_nat n)) as [->|]; [done|]. apply IH. lia.
Qed.

(** The bit just below the counted ones, if any, is clear. *)
Lemma leading_ones_upto_clear n x :
  leading_ones_upto n x < Z.of_nat n ->
  Z.testbit x (Z.of_nat n - leading_ones_upto n x - 1) = false.
Proof.
  induction n as [|n IH]; simpl; [lia|].
  destruct (Z.testbit x (Z.of_nat n)) eqn:E; intros H.
  - replace (_ - _ - _) with (Z.of_nat n - leading_ones_upto n x - 1) by lia. apply IH. lia.
  - rewrite <- E. f_equal. lia.
Qed.

Lemma shl64_testbit x s i :
  0 <= s < 64 -> 0 <= i < 64 -> Z.testbit (shl64 x s) i = Z.testbit x (i - s).
Proof.
  intros Hs Hi. unfold shl64, wrap.
  rewrite Z.mod_pow2_bits_low, (Z.mod_small s) by lia.
  by rewrite Z.shiftl_spec by lia.
Qed.

Lemma shr64_testbit x s i :
  0 <= s < 64 -> 0 <= i -> Z.testbit (shr64 x s) i = Z.testbit x (i + s).
Proof. intros Hs Hi. unfold shr64. by rewrite (Z.mod_small s), Z.shiftr_spec by lia. Qed.

Lemma shl64_u64 x s : u64 (shl64 x s).
Proof. apply (wrap_range 64); lia. Qed.

Lemma lor_u64 x y : u64 x -> u64 y -> u64 (Z.lor x y).
Proof.
  intros [Hx1 Hx2] [Hy1 Hy2]. split; [by apply Z.lor_nonneg|].
  destruct (Z.eq_dec (Z.lor x y) 0) as [->|Hn]; [lia|].
  assert (0 < Z.lor x y) by (pose proof (proj2 (Z.lor_nonneg x y)); lia).
  apply Z.log2_lt_pow2; [done|]. rewrite Z.log2_lor by lia.
  apply Z.max_lub_lt.
  - destruct (Z.eq_dec x 0) as [->|]; [simpl; lia|]. apply Z.log2_lt_pow2; lia.
  - destruct (Z.eq_dec y 0) as [->|]; [simpl; lia|]. apply Z.log2_lt_pow2; lia.
Qed.

(** [(x >> s) & 1 == 0] tests bit [s]. *)
Lemma bit_test x s :
  0 <= s < 64 -> (Z.land (shr64 x s) 1 =? 0) = negb (Z.testbit x s).
Proof.
  intros Hs. change 1 with (Z.ones 1). rewrite Z.land_ones by lia.
  change (2 ^ 1) with 2. rewrite Zmod_odd, <- Z.bit0_odd, shr64_testbit, Z.add_0_l by lia.
  by destruct (Z.testbit x s).
Qed.

Lemma u64_bit_high x i : u64 x -> 64 <= i -> Z.testbit x i = false.
Proof.
  intros [H1 H2] Hi. destruct (Z.eq_dec x 0) as [->|]; [apply Z.testbit_0_l|].
  apply Z.bits_above_log2; [lia|].
  assert (Z.log2 x < 64) by (apply Z.log2_lt_pow2; lia). lia.
Qed.

End ints.

#[export] Hint Resolve shl64_u64 lor_u64 : zpr.

(** ** Lemmas on indexing *)
Section indexing.
Context {A : Type}.
Implicit Types (l : list A) (i : Z) (a : A).

Lemma index_ret l i a :
  index l i = Ret a <-> 0 <= i < zlen l /\ l !! Z.to_nat i = Some a.
Proof.
  unfold index, zlen. destruct (Z.leb_spec 0 i), (Z.ltb_spec i (Z.of_nat (length l))); simpl;
    try (split; [done|lia]).
  destruct (l !! Z.to_nat i); simpl; (split; [intros [=]; subst|intros [_ [=]]; subst]); done.
Qed.

Lemma index_lt l i : 0 <= i < zlen l -> exists a, index l i = Ret a.
Proof.
  intros Hi. destruct (lookup_lt_is_Some_2 l (Z.to_nat i)) as [a Ha]; [unfold zlen in Hi; lia|].
  exists a. by apply index_ret.
Qed.

Lemma index_panic l i : index l i = Panic <-> ~ (0 <= i < zlen l).
Proof.
  split.
  - intros Hp Hi. destruct (index_lt l i Hi) as [a Ha]. congruence.
  - intros Hi. destruct (index l i) eqn:E; [|done].
    apply index_ret in E. tauto.
Qed.

Lemma zlen_app l1 l2 : zlen (l1 ++ l2) = zlen l1 + zlen l2.
Proof. unfold zlen. rewrite length_app. lia. Qed.

Lemma zlen_cons a l : zlen (a :: l) = 1 + zlen l.
Proof. unfold zlen. cbn. lia. Qed.

Lemma zlen_nil : zlen (@nil A) = 0.
Proof. done. Qed.

Lemma zlen_insert l (i : nat) a : zlen (<[i:=a]> l) = zlen l.
Proof. unfold zlen. by rewrite length_insert. Qed.

Lemma zlen_nonneg l : 0 <= zlen l.
Proof. unfold zlen. lia. Qed.

End indexing.

(** ** Lemmas on big-endian encodings *)
Section big_endian.

Lemma length_be_bytes n x : length (be_bytes n x) = n.
Proof. revert x. induction n as [|n IH]; intros x; simpl; [done|]. rewrite length_app, IH. simpl. lia. Qed.

Lemma be_bytes_ok n x : bytes_ok (be_bytes n x).
Proof.
  revert x. induction n as [|n IH]; intros x; simpl; [constructor|].
  apply Forall_app. split; [apply IH|]. constructor; [|constructor].
  unfold is_byte. apply Z.mod_pos_bound. lia.
Qed.

Lemma from_be_snoc l b : from_be (l ++ [b]) = from_be l * 256 + b.
Proof. unfold from_be. by rewrite foldl_app. Qed.

Lemma from_be_be_bytes n x : from_be (be_bytes n x) = x mod 2 ^ (8 * Z.of_nat n).
Proof.
  revert x. induction n as [|n IH]; intros x.
  - simpl. by rewrite Z.mod_1_r.
  - cbn [be_bytes]. rewrite from_be_snoc, IH.
    replace (8 * Z.of_nat (S n)) with (8 + 8 * Z.of_nat n) by lia.
    rewrite Z.pow_add_r by lia. change (2 ^ 8) with 256.
    rewrite Z.rem_mul_r by lia. lia.
Qed.

Lemma be_bytes_from_be l : bytes_ok l -> be_bytes (length l) (from_be l) = l.
Proof.
  induction l as [|b l IH] using rev_ind; intros Hl; [done|].
  apply Forall_app in Hl as [Hl Hb]. rewrite Forall_singleton in Hb. unfold is_byte in Hb.
  rewrite from_be_snoc, length_app, Nat.add_comm. simpl.
  specialize (IH Hl).
  rewrite Z.div_add_l, (Z.div_small b 256), Z.add_0_r, IH by lia.
  f_equal. f_equal. rewrite Z.add_comm, Z_mod_plus_full. apply Z.mod_small. lia.
Qed.

Lemma from_be_range l : bytes_ok l -> 0 <= from_be l < 2 ^ (8 * zlen l).
Proof.
  intros Hl. rewrite <- (be_bytes_from_be l Hl), from_be_be_bytes.
  unfold zlen. rewrite length_be_bytes. apply Z.mod_pos_bound, Z.pow_pos_nonneg; lia.
Qed.

End big_endian.

(** ** Lemmas on little-endian encodings and slices *)
Section slices.

Lemma length_le_bytes n x : length (le_bytes n x) = n.
Proof. unfold le_bytes. by rewrite length_rev, length_be_bytes. Qed.

Lemma from_le_le_bytes n x : from_le (le_bytes n x) = x mod 2 ^ (8 * Z.of_nat n).
Proof. unfold from_le, le_bytes. by rewrite rev_involutive, from_be_be_bytes. Qed.

Lemma le_bytes_from_le l : bytes_ok l -> le_bytes (length l) (from_le l) = l.
Proof.
  intros Hl. unfold le_bytes, from_le. rewrite <- length_rev, be_bytes_from_be.
  - apply rev_involutive.
  - unfold bytes_ok in *. by apply Forall_rev.
Qed.

Context {A : Type}.
Implicit Types (p x y q l : list A).

Lemma slice_mid p x q a b :
  a = zlen p -> b = a + zlen x -> slice (p ++ x ++ q) a b = Ret x.
Proof.
  intros -> ->. unfold slice. rewrite !zlen_app.
  pose proof (zlen_nonneg p). pose proof (zlen_nonneg x). pose proof (zlen_nonneg q).
  ztests. simpl. replace (zlen p + zlen x - zlen p) with (zlen x) by lia. unfold zlen.
  rewrite !Nat2Z.id, drop_app_length, take_app_length. done.
Qed.

Lemma write_mid p x y q a :
  a = zlen p -> zlen y = zlen x -> write_at (p ++ x ++ q) a y = Ret (p ++ y ++ q).
Proof.
  intros -> Hl. unfold write_at. rewrite !zlen_app.
  pose proof (zlen_nonneg p). pose proof (zlen_nonneg x). pose proof (zlen_nonneg q).
  ztests. simpl. unfold zlen in *. rewrite Nat2Z.id.
  rewrite take_app_length. do 3 f_equal. rewrite app_assoc.
  replace (length p + length y)%nat with (length (p ++ x)) by (rewrite length_app; lia).
  apply drop_app_length.
Qed.

Lemma slice_ret l a b x :
  slice l a b = Ret x -> 0 <= a <= b /\ b <= zlen l /\
  exists p q, l = p ++ x ++ q /\ a = zlen p /\ b = a + zlen x.
Proof.
  unfold slice. destruct (Z.leb_spec 0 a), (Z.leb_spec a b), (Z.leb_spec b (zlen l)); simpl;
    try done. intros [= <-]. split; [lia|]. split; [done|].
  exists (take (Z.to_nat a) l), (drop (Z.to_nat (b - a)) (drop (Z.to_nat a) l)).
  unfold zlen in *. rewrite length_take, length_take, length_drop, take_drop, take_drop.
  split; [done|]. lia.
Qed.

Lemma slice_lt l a b : 0 <= a <= b -> b <= zlen l -> exists x, slice l a b = Ret x.
Proof.
  intros Ha Hb. unfold slice. rewrite !(proj2 (Z.leb_le _ _)) by lia. by eexists.
Qed.

Lemma slice_all l b : b = zlen l -> slice l 0 b = Ret l.
Proof.
  intros ->. rewrite <- (app_nil_r l) at 1. by apply (slice_mid [] l []).
Qed.

End slices.

(** ** Lists of optional values *)
Section omap_lemmas.
Context {A B : Type} (f : A -> option B).

(** Replacing one element exchanges its contribution. *)
Lemma omap_insert_Permutation (l : list A) (i : nat) x y :
  l !! i = Some x ->
  option_list (f y) ++ omap f l ≡ₚ option_list (f x) ++ omap f (<[i:=y]> l).
Proof.
  intros Hi. assert (i < length l)%nat as Hlt by (by eapply lookup_lt_Some).
  rewrite <- (take_drop_middle l i x Hi) at 1. rewrite insert_take_drop by done.
  rewrite !omap_app. simpl.
  destruct (f x), (f y); simpl; solve_Permutation.
Qed.

Lemma omap_insert_same (l : list A) (i : nat) x y :
  l !! i = Some x -> f x = f y -> omap f (<[i:=y]> l) = omap f l.
Proof.
  intros Hi Hf. assert (i < length l)%nat as Hlt by (by eapply lookup_lt_Some).
  rewrite <- (take_drop_middle l i x Hi) at 2. rewrite insert_take_drop by done.
  rewrite !omap_app. simpl. by rewrite Hf.
Qed.

End omap_lemmas.

Lemma bind_Ret {A B} (f : A -> outcome B) (a : A) : (Ret a ≫= f) = f a.
Proof. done. Qed.

Lemma bind_ret {A B} (f : A -> outcome B) (m : outcome A) (b : B) :
  (m ≫= f) = Ret b <-> exists a, m = Ret a /\ f a = Ret b.
Proof. destruct m as [a|]; simpl; [|naive_solver]. naive_solver. Qed.

(** Decompose a computation that returned: every step of it returned. *)
Ltac outcome_inv :=
  repeat match goal with
  | H : (_ ≫= _) = Ret _ |- _ => apply bind_ret in H as (? & ? & H)
  | H : Ret _ = Ret _ |- _ => injection H as H; subst
  | H : mret _ = Ret _ |- _ => injection H as H; subst
  | H : Panic = Ret _ |- _ => discriminate H
  end.

(** Case analysis on an indexing operation that must have succeeded. *)
Ltac index_inv :=
  match goal with
  | |- context [index ?l ?i] =>
      let E := fresh "Ei" in let x := fresh "x" in
      destruct (index l i) as [x|] eqn:E; simpl; [apply index_ret in E as [_ E]|done]
  end.
