(* ===== verification/Zdp.v ===== *)
(** * ZDP packet types and headers ([zdp.rs])

    The packet type byte with its classification, and the wire layout of the
    headers management packets start with. *)
From Stdlib Require Import ZArith Lia.
From stdpp Require Import base tactics option list.
From S2P Require Import Prelude.

Local Open Scope Z_scope.

Module Zdp.

(** [ZdpPacketType] is an open enum over [u8]: every byte is a value. *)
Definition TransitPacket : Z := 0.
Definition DestinationUnreachable : Z := 1.
Definition SetPathMtu : Z := 2.
Definition StreamIdRequest : Z := 3.
Definition StreamIdResponse : Z := 4.
Definition StreamIdWithdrawal : Z := 5.
Definition BindActorAddressRequest : Z := 6.
Definition BindActorAddressResponse : Z := 7.
Definition BindEgressStreamRequest : Z := 8.
Definition BindEgressStreamResponse : Z := 9.
Definition UnbindEgressStreamIndication : Z := 13.
Definition ZprArp : Z := 128.
Definition KeyManagement : Z := 129.
Definition Discard : Z := 130.
Definition Echo : Z := 131.
Definition Report : Z := 132.
Definition TerminateLinkOrDockingSession : Z := 133.
Definition HelloRequest : Z := 134.
Definition HelloResponse : Z := 135.
Definition ConfigurationRequest : Z := 136.
Definition ConfigurationResponse : Z := 137.
Definition AcquireZprAddress : Z := 138.
Definition GrantZprAddress : Z := 139.
Definition RevokeZprAddress : Z := 140.
Definition InitAuthenticationRequest : Z := 141.
Definition RenewAuthenticationRequest : Z := 142.
Definition RenewAuthenticationResponse : Z := 143.
Definition Canceled : Z := 252.
Definition Cancel : Z := 253.
Definition Acknowledgement : Z := 254.

Definition ZDP_PACKET_TYPE_NON_FLOW_FLAG : Z := 0x80.

Definition is_per_flow (t : Z) : bool := Z.land t ZDP_PACKET_TYPE_NON_FLOW_FLAG =? 0.

Definition is_mgmt (t : Z) : bool :=
  negb ((t =? TransitPacket) || (t =? ZprArp) || (t =? KeyManagement)).

(** ** Headers *)

Record ZdpBaseHeader := mkBase { packet_type : Z; excess_length : Z }.
Record ZdpMgmtHeader := mkMgmt { sequence_number : Z }.
Record ZdpKeyManagementHeader := mkKm { message_type : Z; message_length : Z }.

Definition base_bytes (h : ZdpBaseHeader) : list Z := [packet_type h; excess_length h].
Definition mgmt_bytes (h : ZdpMgmtHeader) : list Z := be_bytes 8 (sequence_number h).

(** [ref_from_prefix] and [read_from_buf]: the header and what follows it, or
    an error when the buffer is too short. *)
Definition read_base (body : list Z) : option (ZdpBaseHeader * list Z) :=
  match body with
  | t :: x :: rest => Some (mkBase t x, rest)
  | _ => None
  end.

Definition read_mgmt (body : list Z) : option (ZdpMgmtHeader * list Z) :=
  if zlen body <? 8 then None
  else Some (mkMgmt (from_be (take 8 body)), drop 8 body).

Definition read_km (body : list Z) : option (ZdpKeyManagementHeader * list Z) :=
  if zlen body <? 4 then None
  else Some (mkKm (from_be (take 2 body)) (from_be (take 2 (drop 2 body))), drop 4 body).

(** ** Layout *)

Lemma read_base_bytes h rest : read_base (base_bytes h ++ rest) = Some (h, rest).
Proof. by destruct h. Qed.

Lemma read_mgmt_bytes sn rest :
  u64 sn -> read_mgmt (mgmt_bytes (mkMgmt sn) ++ rest) = Some (mkMgmt sn, rest).
Proof.
  intros Hsn. unfold read_mgmt, mgmt_bytes. simpl sequence_number.
  assert (length (be_bytes 8 sn) = 8%nat) as Hl by apply length_be_bytes.
  destruct (Z.ltb_spec (zlen (be_bytes 8 sn ++ rest)) 8) as [Hlt|_].
  { unfold zlen in Hlt. rewrite length_app, Hl in Hlt. lia. }
  rewrite (take_app_length' _ _ 8 (eq_sym Hl)), (drop_app_length' _ _ 8 (eq_sym Hl)), from_be_be_bytes.
  rewrite Z.mod_small; [done|exact Hsn].
Qed.

Lemma read_mgmt_u64 body h rest :
  bytes_ok body -> read_mgmt body = Some (h, rest) -> u64 (sequence_number h).
Proof.
  intros Hb. unfold read_mgmt. destruct (Z.ltb_spec (zlen body) 8); [done|].
  intros [= <- <-]. simpl. pose proof (from_be_range (take 8 body)) as Hr.
  unfold zlen in *. rewrite length_take in Hr.
  replace (8 `min` length body)%nat with 8%nat in Hr by lia. apply Hr. by apply Forall_take.
Qed.

End Zdp.
