(* ===== verification/ZdprReceiver.v ===== *)
(** * The receiving side of a reliable ZDP session ([zdpr.rs], [Receiver])

    The receiver keeps the highest sequence number it accepted and two 64-bit
    bitsets below it: which numbers were received and which of those were
    received as cancellations.  [Receiver] and its operations follow the code;
    [ARecv] is the abstract receiver, a set of accepted (unbounded) packet
    numbers, and [process_refines] shows that the bitset arithmetic implements
    it for every 64-bit sequence number. *)
From Stdlib Require Import ZArith Lia.
From stdpp Require Import base tactics option list gmap functions.
From S2P Require Import Prelude.

Local Open Scope Z_scope.

Module Rx.

(** ** Data *)

Inductive Disposition :=
| AckAndProcess
| AckDoNotProcess
| AckCancelDoNotProcess
| Ignore.

#[global] Instance Disposition_eq_dec : EqDecision Disposition.
Proof. solve_decision. Defined.

Definition should_ack (d : Disposition) : bool :=
  match d with
  | AckAndProcess | AckDoNotProcess | AckCancelDoNotProcess => true
  | Ignore => false
  end.

Definition ack_is_canceled (d : Disposition) : bool :=
  match d with AckCancelDoNotProcess => true | _ => false end.

Definition should_process (d : Disposition) : bool :=
  match d with AckAndProcess => true | _ => false end.

Inductive ReceiverStat := TooOld | Duplicate | TooNew | OutOfOrder.

#[global] Instance ReceiverStat_eq_dec : EqDecision ReceiverStat.
Proof. solve_decision. Defined.

Definition is_protocol_error (s : ReceiverStat) : bool :=
  match s with TooNew => true | _ => false end.

Record Receiver := mkReceiver {
  window_size : Z;
  highest_seen : Z;
  recvd : Z;
  canceled : Z;
  stats : ReceiverStat -> Z
}.

Definition BITS : Z := 64.
Definition U64_MAX : Z := 2 ^ 64 - 1.
Definition MAX_WINDOW_SIZE : Z := BITS.

(** ** Operations *)

Definition bump (st : ReceiverStat -> Z) (s : ReceiverStat) : ReceiverStat -> Z :=
  <[s := wrapping_add 64 (st s) 1]> st.

Definition new (window_size : Z) : outcome Receiver :=
  _ ← rust_assert (1 <=? window_size)%Z;
  _ ← rust_assert (window_size <=? MAX_WINDOW_SIZE);
  mret (mkReceiver window_size U64_MAX U64_MAX U64_MAX (fun _ => 0)).

Definition reset (r : Receiver) : outcome Receiver := new (window_size r).

Definition oldest_unrecvd_offset (r : Receiver) : Z :=
  - BITS + leading_ones (recvd r) + 1.

Definition process_packet_or_cancel (r : Receiver) (sn : Z) (is_cancel : bool)
    : Receiver * Disposition :=
  let offset := as_i64 (wrapping_sub 64 sn (highest_seen r)) in
  if offset <=? - window_size r then
    (mkReceiver (window_size r) (highest_seen r) (recvd r) (canceled r)
       (bump (stats r) TooOld), Ignore)
  else if oldest_unrecvd_offset r + window_size r <=? offset then
    (mkReceiver (window_size r) (highest_seen r) (recvd r) (canceled r)
       (bump (stats r) TooNew), Ignore)
  else if 0 <? offset then
    let highest_seen' := wrapping_add 64 (highest_seen r) offset in
    let recvd' := Z.lor (shl64 (recvd r) offset) 1 in
    let canceled' := shl64 (canceled r) offset in
    if is_cancel then
      (mkReceiver (window_size r) highest_seen' recvd' (Z.lor canceled' 1) (stats r),
       AckCancelDoNotProcess)
    else
      (mkReceiver (window_size r) highest_seen' recvd' canceled' (stats r), AckAndProcess)
  else if Z.land (shr64 (recvd r) (- offset)) 1 =? 0 then
    let stats' := bump (stats r) OutOfOrder in
    let recvd' := Z.lor (recvd r) (shl64 1 (- offset)) in
    if is_cancel then
      (mkReceiver (window_size r) (highest_seen r) recvd'
         (Z.lor (canceled r) (shl64 1 (- offset))) stats', AckCancelDoNotProcess)
    else
      (mkReceiver (window_size r) (highest_seen r) recvd' (canceled r) stats', AckAndProcess)
  else
    let r' := mkReceiver (window_size r) (highest_seen r) (recvd r) (canceled r)
                (bump (stats r) Duplicate) in
    if Z.land (shr64 (canceled r) (- offset)) 1 =? 0 then (r', AckDoNotProcess)
    else (r', AckCancelDoNotProcess).

Definition process_packet (r : Receiver) (sn : Z) : Receiver * Disposition :=
  process_packet_or_cancel r sn false.

Definition process_cancel (r : Receiver) (sn : Z) : Receiver * Disposition :=
  process_packet_or_cancel r sn true.

Definition should_process_packet (r : Receiver) (sn : Z) : bool :=
  let offset := as_i64 (wrapping_sub 64 sn (highest_seen r)) in
  if offset <=? - window_size r then false
  else if oldest_unrecvd_offset r + window_size r <=? offset then false
  else if 0 <? offset then true
  else if Z.land (shr64 (recvd r) (- offset)) 1 =? 0 then true
  else false.

Definition fetch_reset_stat (r : Receiver) (s : ReceiverStat) : Receiver * Z :=
  (mkReceiver (window_size r) (highest_seen r) (recvd r) (canceled r) (<[s := 0]> (stats r)),
   stats r s).

(** ** The abstract receiver

    Packet numbers are unbounded here; number [n] travels as the sequence
    number [n mod 2^64].  Numbers below zero precede the session. *)
Record ARecv := mkARecv {
  hi : Z;
  accepted : gset Z;
  cancelled : gset Z
}.

Definition ainit : ARecv := mkARecv (-1) ∅ ∅.

(** [m] is the oldest packet number that has not been accepted. *)
Definition oldest_missing (s : gset Z) (m : Z) : Prop :=
  0 <= m /\ (m ∉ s) /\ forall k, 0 <= k < m -> k ∈ s.

(** What a receiver with window [w] promises, [m] being its oldest missing
    number. *)
Definition spec_process (w m : Z) (a : ARecv) (n : Z) (c : bool) : ARecv * Disposition :=
  if (n <=? hi a - w) then (a, Ignore)
  else if m + w <=? n then (a, Ignore)
  else if bool_decide (n < 0 \/ n ∈ accepted a) then
    (a, if bool_decide (n < 0 \/ n ∈ cancelled a) then AckCancelDoNotProcess else AckDoNotProcess)
  else
    (mkARecv (Z.max (hi a) n) ({[n]} ∪ accepted a)
       (if c then {[n]} ∪ cancelled a else cancelled a),
     if c then AckCancelDoNotProcess else AckAndProcess).

(** The packet number a sequence number denotes, seen from [hi]. *)
Definition denotes (a : ARecv) (sn : Z) : Z :=
  hi a + as_i64 (wrapping_sub 64 sn (wrap 64 (hi a))).

(** The representation relation. *)
Record Rel (w : Z) (r : Receiver) (a : ARecv) : Prop := {
  rel_w : window_size r = w;
  rel_w_range : 1 <= w < 64;
  rel_hi : -1 <= hi a;
  rel_highest : highest_seen r = wrap 64 (hi a);
  rel_recvd_u64 : u64 (recvd r);
  rel_canceled_u64 : u64 (canceled r);
  rel_recvd : forall i, 0 <= i < 64 ->
    Z.testbit (recvd r) i = true <-> hi a - i < 0 \/ hi a - i ∈ accepted a;
  rel_canceled : forall i, 0 <= i < 64 ->
    Z.testbit (canceled r) i = true <-> hi a - i < 0 \/ hi a - i ∈ cancelled a;
  rel_accepted_range : forall n, n ∈ accepted a -> 0 <= n <= hi a;
  rel_behind : forall n, 0 <= n <= hi a - w -> n ∈ accepted a;
  rel_cancelled : cancelled a ⊆ accepted a
}.

(** ** The relation is established and kept *)

Lemma ones64_bit i : 0 <= i < 64 -> Z.testbit U64_MAX i = true.
Proof. intros Hi. change U64_MAX with (Z.ones 64). apply Z.ones_spec_low. lia. Qed.

Lemma new_spec w :
  new w = if (1 <=? w) && (w <=? 64)
          then Ret (mkReceiver w U64_MAX U64_MAX U64_MAX (fun _ => 0)) else Panic.
Proof.
  unfold new, rust_assert, MAX_WINDOW_SIZE, BITS.
  by destruct (1 <=? w), (w <=? 64).
Qed.

Lemma Rel_init w r : 1 <= w < 64 -> new w = Ret r -> Rel w r ainit.
Proof.
  intros Hw. rewrite new_spec. ztests. simpl. intros [= <-].
  split; simpl; try done; try lia.
  - intros i Hi. rewrite ones64_bit by lia. split; [lia|done].
  - intros i Hi. rewrite ones64_bit by lia. split; [lia|done].
Qed.

Lemma leading_ones_64 x :
  0 <= leading_ones x <= 64 /\
  (forall i, 64 - leading_ones x <= i < 64 -> Z.testbit x i = true) /\
  (leading_ones x < 64 -> Z.testbit x (63 - leading_ones x) = false).
Proof.
  unfold leading_ones.
  pose proof (leading_ones_upto_bounds 64 x). pose proof (leading_ones_upto_set 64 x).
  pose proof (leading_ones_upto_clear 64 x) as Hc. change (Z.of_nat 64) with 64 in *.
  replace (63 - _) with (64 - leading_ones_upto 64 x - 1) by lia. auto.
Qed.

(** The code's [oldest_unrecvd_offset] is the oldest missing number. *)
Lemma oldest_offset w r a :
  Rel w r a -> oldest_missing (accepted a) (hi a + oldest_unrecvd_offset r).
Proof.
  intros HR. destruct (leading_ones_64 (recvd r)) as (HL & Hset & Hclr).
  unfold oldest_unrecvd_offset, BITS. set (L := leading_ones (recvd r)) in *.
  pose proof (rel_w_range _ _ _ HR). pose proof (rel_hi _ _ _ HR).
  destruct (Z.eq_dec L 64) as [HL64|HL64].
  - split; [lia|]. split.
    + intros Hin. apply (rel_accepted_range _ _ _ HR) in Hin. lia.
    + intros k Hk. destruct (Z_lt_le_dec (hi a - k) 64) as [Hk2|Hk2].
      * destruct (proj1 (rel_recvd _ _ _ HR (hi a - k) ltac:(lia))) as [?|Hin].
        { apply Hset. lia. } { lia. }
        by replace (hi a - (hi a - k)) with k in Hin by lia.
      * apply (rel_behind _ _ _ HR). lia.
  - specialize (Hclr ltac:(lia)).
    assert (~ (hi a - (63 - L) < 0 \/ hi a - (63 - L) ∈ accepted a)) as Hmiss.
    { intros Hc. apply (rel_recvd _ _ _ HR) in Hc; [congruence|lia]. }
    replace (hi a + (- (64) + L + 1)) with (hi a - (63 - L)) by lia.
    split; [lia|]. split; [tauto|].
    intros k Hk. destruct (Z_lt_le_dec (hi a - k) 64) as [Hk2|Hk2].
    + destruct (proj1 (rel_recvd _ _ _ HR (hi a - k) ltac:(lia))) as [?|Hin].
      { apply Hset. lia. } { lia. }
      by replace (hi a - (hi a - k)) with k in Hin by lia.
    + apply (rel_behind _ _ _ HR). lia.
Qed.

Lemma oldest_missing_unique s m1 m2 : oldest_missing s m1 -> oldest_missing s m2 -> m1 = m2.
Proof.
  intros (H1 & N1 & L1) (H2 & N2 & L2).
  destruct (Z.lt_trichotomy m1 m2) as [?|[?|?]]; [|done|].
  - destruct N1. apply L2. lia.
  - destruct N2. apply L1. lia.
Qed.

Lemma Rel_stats w r a st :
  Rel w r a -> Rel w (mkReceiver (window_size r) (highest_seen r) (recvd r) (canceled r) st) a.
Proof. intros []. by split. Qed.

(** Receiving a number above every accepted one shifts the bitsets. *)
Lemma shifted_bits hi0 off (s : gset Z) (b : bool) x :
  -1 <= hi0 -> 0 < off < 64 ->
  (forall n, n ∈ s -> 0 <= n <= hi0) ->
  (forall i, 0 <= i < 64 -> Z.testbit x i = true <-> hi0 - i < 0 \/ hi0 - i ∈ s) ->
  forall i, 0 <= i < 64 ->
    Z.testbit (if b then Z.lor (shl64 x off) 1 else shl64 x off) i = true <->
    hi0 + off - i < 0 \/ hi0 + off - i ∈ (if b then {[hi0 + off]} ∪ s else s).
Proof.
  intros Hhi Hoff Hs Hx i Hi.
  assert (Z.testbit (shl64 x off) i = true <-> hi0 + off - i < 0 \/ hi0 + off - i ∈ s) as Hshl.
  { rewrite shl64_testbit by lia. destruct (Z_lt_le_dec i off).
    - rewrite Z.testbit_neg_r by lia. split; [done|]. intros [?|Hin]; [lia|].
      apply Hs in Hin. lia.
    - rewrite Hx by lia. by replace (hi0 - (i - off)) with (hi0 + off - i) by lia. }
  destruct b; [|done].
  rewrite Z.lor_spec, orb_true_iff, Hshl, elem_of_union, elem_of_singleton.
  destruct (Z.eq_dec i 0) as [->|Hi0].
  - simpl. split; [|auto]. intros _. right. left. lia.
  - assert (Z.testbit 1 i = false) as ->.
    { change 1 with (2 ^ 0). apply Z.pow2_bits_false. lia. }
    split; [intros [[?|?]|?]; [auto|auto|done]|]. intros [?|[?|?]]; [auto|lia|auto].
Qed.

(** Receiving a missing number inside the window sets one bit. *)
Lemma set_bit hi0 j (s : gset Z) x :
  0 <= j < 64 -> 0 <= hi0 - j ->
  (forall i, 0 <= i < 64 -> Z.testbit x i = true <-> hi0 - i < 0 \/ hi0 - i ∈ s) ->
  forall i, 0 <= i < 64 ->
    Z.testbit (Z.lor x (shl64 1 j)) i = true <->
    hi0 - i < 0 \/ hi0 - i ∈ {[hi0 - j]} ∪ s.
Proof.
  intros Hj Hn Hx i Hi.
  rewrite Z.lor_spec, orb_true_iff, Hx, elem_of_union, elem_of_singleton by lia.
  rewrite shl64_testbit by lia.
  destruct (Z.eq_dec i j) as [->|Hne].
  - rewrite Z.sub_diag. split; [auto|]. simpl. auto.
  - assert (Z.testbit 1 (i - j) = false) as ->.
    { change 1 with (2 ^ 0). destruct (Z_lt_le_dec (i - j) 0).
      - apply Z.testbit_neg_r. lia.
      - apply Z.pow2_bits_false. lia. }
    split; [intros [[?|?]|?]; [auto|auto|done]|]. intros [?|[?|?]]; [auto|lia|auto].
Qed.

#[local] Hint Resolve Z.pow_pos_nonneg : zpr.

Lemma u64_1 : u64 1.
Proof. unfold u64. lia. Qed.
#[local] Hint Resolve u64_1 : zpr.

Lemma Rel_new w r a off (c : bool) st :
  Rel w r a -> 0 < off < 64 -> off < oldest_unrecvd_offset r + w ->
  Rel w (mkReceiver (window_size r) (wrapping_add 64 (highest_seen r) off)
           (Z.lor (shl64 (recvd r) off) 1)
           (if c then Z.lor (shl64 (canceled r) off) 1 else shl64 (canceled r) off) st)
        (mkARecv (hi a + off) ({[hi a + off]} ∪ accepted a)
           (if c then {[hi a + off]} ∪ cancelled a else cancelled a)).
Proof.
  intros HR Hoff Hold. pose proof (oldest_offset w r a HR) as (_ & _ & Hbelow).
  pose proof (rel_hi _ _ _ HR). pose proof (rel_w_range _ _ _ HR).
  pose proof (rel_accepted_range _ _ _ HR) as Hrange. pose proof (rel_cancelled _ _ _ HR).
  split; simpl; try done.
  - apply (rel_w _ _ _ HR).
  - lia.
  - rewrite (rel_highest _ _ _ HR). apply seq_add.
  - auto with zpr.
  - destruct c; auto with zpr.
  - apply (shifted_bits (hi a) off (accepted a) true (recvd r)); try done.
    apply (rel_recvd _ _ _ HR).
  - apply (shifted_bits (hi a) off (cancelled a) c (canceled r)); try done.
    + intros n Hn. apply Hrange. set_solver.
    + apply (rel_canceled _ _ _ HR).
  - intros n. rewrite elem_of_union, elem_of_singleton.
    intros [->|Hn]; [lia|]. apply Hrange in Hn. lia.
  - intros n Hn. apply elem_of_union_r, Hbelow. lia.
  - destruct c; set_solver.
Qed.

Lemma Rel_old w r a j (c : bool) st :
  Rel w r a -> 0 <= j < w -> Z.testbit (recvd r) j = false ->
  Rel w (mkReceiver (window_size r) (highest_seen r) (Z.lor (recvd r) (shl64 1 j))
           (if c then Z.lor (canceled r) (shl64 1 j) else canceled r) st)
        (mkARecv (hi a) ({[hi a - j]} ∪ accepted a)
           (if c then {[hi a - j]} ∪ cancelled a else cancelled a)).
Proof.
  intros HR Hj Hbit. pose proof (rel_w_range _ _ _ HR).
  assert (0 <= hi a - j) as Hn.
  { destruct (Z_lt_le_dec (hi a - j) 0); [|done].
    pose proof (proj2 (rel_recvd _ _ _ HR j ltac:(lia)) (or_introl l)). congruence. }
  pose proof (rel_accepted_range _ _ _ HR) as Hrange. pose proof (rel_cancelled _ _ _ HR).
  pose proof (rel_recvd_u64 _ _ _ HR). pose proof (rel_canceled_u64 _ _ _ HR).
  split; simpl; try done.
  - apply (rel_w _ _ _ HR).
  - apply (rel_hi _ _ _ HR).
  - apply (rel_highest _ _ _ HR).
  - auto with zpr.
  - destruct c; auto with zpr.
  - apply set_bit; [lia|lia|]. apply (rel_recvd _ _ _ HR).
  - destruct c; [|apply (rel_canceled _ _ _ HR)].
    apply set_bit; [lia|lia|]. apply (rel_canceled _ _ _ HR).
  - intros n. rewrite elem_of_union, elem_of_singleton.
    intros [->|Hin]; [lia|]. by apply Hrange.
  - intros n Hin. apply elem_of_union_r, (rel_behind _ _ _ HR). lia.
  - destruct c; set_solver.
Qed.

Lemma recvd_bit_accepted w r a j :
  Rel w r a -> 0 <= j < 64 ->
  Z.testbit (recvd r) j = bool_decide (hi a - j < 0 \/ hi a - j ∈ accepted a).
Proof.
  intros HR Hj. pose proof (rel_recvd _ _ _ HR j Hj) as Hb.
  case_bool_decide as Hd; [by apply Hb|]. destruct (Z.testbit (recvd r) j); [tauto|done].
Qed.

Lemma canceled_bit_cancelled w r a j :
  Rel w r a -> 0 <= j < 64 ->
  Z.testbit (canceled r) j = bool_decide (hi a - j < 0 \/ hi a - j ∈ cancelled a).
Proof.
  intros HR Hj. pose proof (rel_canceled _ _ _ HR j Hj) as Hb.
  case_bool_decide as Hd; [by apply Hb|]. destruct (Z.testbit (canceled r) j); [tauto|done].
Qed.

(** ** Refinement *)

Lemma process_refines_aux w r a sn c :
  Rel w r a ->
  let m := hi a + oldest_unrecvd_offset r in
  Rel w (process_packet_or_cancel r sn c).1 (spec_process w m a (denotes a sn) c).1 /\
  (process_packet_or_cancel r sn c).2 = (spec_process w m a (denotes a sn) c).2.
Proof.
  intros HR m. destruct (leading_ones_64 (recvd r)) as (HL & _ & _).
  pose proof (rel_w_range _ _ _ HR). pose proof (rel_hi _ _ _ HR).
  assert (oldest_unrecvd_offset r <= 1) by (unfold oldest_unrecvd_offset, BITS; lia).
  unfold process_packet_or_cancel, spec_process, denotes.
  rewrite <- (rel_highest _ _ _ HR), (rel_w _ _ _ HR).
  set (off := as_i64 _). set (n := hi a + off).
  destruct (Z.leb_spec off (- w)), (Z.leb_spec n (hi a - w)); try lia.
  { rewrite <- (rel_w _ _ _ HR) at 2. split; [by apply Rel_stats|done]. }
  destruct (Z.leb_spec (oldest_unrecvd_offset r + w) off), (Z.leb_spec (m + w) n); try lia.
  { rewrite <- (rel_w _ _ _ HR) at 2. split; [by apply Rel_stats|done]. }
  destruct (Z.ltb_spec 0 off) as [Hpos|Hneg].
  - rewrite bool_decide_eq_false_2.
    2:{ intros [?|Hin]; [lia|]. apply (rel_accepted_range _ _ _ HR) in Hin. lia. }
    replace (Z.max (hi a) n) with (hi a + off) by lia.
    pose proof (Rel_new w r a off c (stats r) HR ltac:(lia) ltac:(lia)) as HR'.
    rewrite (rel_w _ _ _ HR) in HR'. by destruct c.
  - rewrite !bit_test by lia.
    rewrite (recvd_bit_accepted w r a), (canceled_bit_cancelled w r a) by (done || lia).
    replace (hi a - - off) with n by lia.
    destruct (bool_decide (n < 0 \/ n ∈ accepted a)) eqn:Hacc; simpl.
    + destruct (bool_decide (n < 0 \/ n ∈ cancelled a)); simpl;
        rewrite <- (rel_w _ _ _ HR) at 2; (split; [by apply Rel_stats|done]).
    + replace (Z.max (hi a) n) with (hi a) by lia.
      assert (Z.testbit (recvd r) (- off) = false) as Hbit.
      { rewrite (recvd_bit_accepted w r a) by (done || lia).
        by replace (hi a - - off) with n by lia. }
      pose proof (Rel_old w r a (- off) c (bump (stats r) OutOfOrder) HR ltac:(lia) Hbit) as HR'.
      rewrite (rel_w _ _ _ HR) in HR'. replace (hi a - - off) with n in HR' by lia.
      by destruct c.
Qed.

(** Case analysis of the specification. *)
Lemma spec_process_cases w m a n c a' d :
  spec_process w m a n c = (a', d) ->
  (a' = a /\ d = Ignore /\ (n <= hi a - w \/ m + w <= n)) \/
  (a' = a /\ (n < 0 \/ n ∈ accepted a) /\
     d = if bool_decide (n < 0 \/ n ∈ cancelled a) then AckCancelDoNotProcess
         else AckDoNotProcess) \/
  (0 <= n /\ (n ∉ accepted a) /\ hi a - w < n < m + w /\
     a' = mkARecv (Z.max (hi a) n) ({[n]} ∪ accepted a)
            (if c then {[n]} ∪ cancelled a else cancelled a) /\
     d = if c then AckCancelDoNotProcess else AckAndProcess).
Proof.
  unfold spec_process.
  destruct (Z.leb_spec n (hi a - w)); [intros [= <- <-]; left; auto|].
  destruct (Z.leb_spec (m + w) n); [intros [= <- <-]; left; auto|].
  case_bool_decide as Hacc; intros [= <- <-].
  - right. left. auto.
  - right. right. assert (0 <= n) by lia. repeat split; auto; lia.
Qed.

(** ** Runs of the receiver

    An event is a packet number and whether it is a cancellation request; it
    arrives as the sequence number [n mod 2^64]. *)
Definition step (r : Receiver) (e : Z * bool) : Receiver * Disposition :=
  process_packet_or_cancel r (wrap 64 e.1) e.2.

Fixpoint run (r : Receiver) (es : list (Z * bool)) : Receiver * list (Z * Disposition) :=
  match es with
  | [] => (r, [])
  | e :: es' =>
      let '(r', d) := step r e in
      let '(r'', ds) := run r' es' in
      (r'', (e.1, d) :: ds)
  end.

(** The numbers a run hands to the message processor. *)
Definition processed (ds : list (Z * Disposition)) : list Z :=
  (filter (fun x => x.2 = AckAndProcess) ds).*1.

(** Numbers below this bound are told apart by their 64-bit sequence numbers. *)
Definition SEQ_LIMIT : Z := 2 ^ 63 - 1.

Lemma denotes_near a n :
  -1 <= hi a < SEQ_LIMIT -> 0 <= n < SEQ_LIMIT -> denotes a (wrap 64 n) = n.
Proof.
  unfold SEQ_LIMIT. intros Ha Hn. unfold denotes. rewrite seq_diff by lia. lia.
Qed.

Lemma spec_process_hi w m a n c :
  hi a < SEQ_LIMIT -> n < SEQ_LIMIT -> hi (spec_process w m a n c).1 < SEQ_LIMIT.
Proof.
  intros Ha Hn. destruct (spec_process w m a n c) as [a' d] eqn:E.
  destruct (spec_process_cases _ _ _ _ _ _ _ E) as [(-> & _)|[(-> & _)|(_ & _ & _ & -> & _)]];
    simpl; lia.
Qed.

(** One step of a run, on the abstract side. *)
Lemma step_spec w r a e :
  Rel w r a -> hi a < SEQ_LIMIT -> 0 <= e.1 < SEQ_LIMIT ->
  exists m a', oldest_missing (accepted a) m /\
    spec_process w m a e.1 e.2 = (a', (step r e).2) /\
    Rel w (step r e).1 a' /\ hi a' < SEQ_LIMIT.
Proof.
  intros HR Hhi He. pose proof (process_refines_aux w r a (wrap 64 e.1) e.2 HR) as H.
  pose proof (rel_hi _ _ _ HR). rewrite denotes_near in H by lia.
  set (m := hi a + oldest_unrecvd_offset r) in *. destruct H as [HR' Hd].
  exists m, (spec_process w m a e.1 e.2).1.
  split; [by apply (oldest_offset w)|]. unfold step. rewrite Hd.
  split; [by destruct (spec_process w m a e.1 e.2)|].
  split; [done|]. apply spec_process_hi; lia.
Qed.

(** A number once accepted is never processed again; a run processes only
    numbers that were missing, each of them once. *)
Lemma run_processed w r a es :
  Rel w r a -> hi a < SEQ_LIMIT -> Forall (fun e => 0 <= e.1 < SEQ_LIMIT) es ->
  NoDup (processed (run r es).2) /\
  Forall (fun n => n ∉ accepted a) (processed (run r es).2).
Proof.
  revert r a. induction es as [|e es IH]; intros r a HR Hhi Hes; simpl.
  { split; [apply NoDup_nil_2|constructor]. }
  apply list.Forall_cons in Hes as [He Hes].
  destruct (step_spec w r a e HR Hhi He) as (m & a' & _ & Hspec & HR' & Hhi').
  destruct (step r e) as [r' d] eqn:Estep. simpl in *.
  specialize (IH r' a' HR' Hhi' Hes). destruct (run r' es) as [r'' ds]. simpl in *.
  destruct IH as [IHn IHa]. unfold processed in *. rewrite filter_cons.
  destruct (spec_process_cases _ _ _ _ _ _ _ Hspec)
    as [(-> & -> & _)|[(-> & _ & ->)|(Hn & Hna & _ & -> & ->)]].
  - by rewrite decide_False by done.
  - by rewrite decide_False by (simpl; by case_bool_decide).
  - assert (Forall (fun n => n ∉ accepted a) (filter (fun x => x.2 = AckAndProcess) ds).*1).
    { eapply list.Forall_impl; [exact IHa|]. simpl. intros x Hx Hin. apply Hx. set_solver. }
    destruct e.2; [by rewrite decide_False by done|].
    rewrite decide_True by done. simpl. split; [|by constructor].
    apply list.NoDup_cons. split; [|done]. intros Hin.
    rewrite list.Forall_forall in IHa. apply (IHa _ Hin). simpl. set_solver.
Qed.

Lemma in_session_ext n (s : gset Z) :
  0 <= n -> bool_decide (n < 0 \/ n ∈ s) = bool_decide (n ∈ s).
Proof. intros Hn. apply bool_decide_ext. split; [intros [?|?]; [lia|done]|auto]. Qed.

(** In a state where [n] is accepted, every later acknowledgement of [n] is a
    cancellation acknowledgement exactly if [n] is in [cancelled]. *)
Lemma run_ack_kind w r a es n d :
  Rel w r a -> hi a < SEQ_LIMIT -> Forall (fun e => 0 <= e.1 < SEQ_LIMIT) es ->
  0 <= n -> n ∈ accepted a -> (n, d) ∈ (run r es).2 -> should_ack d = true ->
  ack_is_canceled d = bool_decide (n ∈ cancelled a).
Proof.
  revert r a. induction es as [|e es IH]; intros r a HR Hhi Hes Hn0 Hn Hin Hd; simpl in *.
  { by apply not_elem_of_nil in Hin. }
  apply list.Forall_cons in Hes as [He Hes].
  destruct (step_spec w r a e HR Hhi He) as (m & a' & _ & Hspec & HR' & Hhi').
  destruct (step r e) as [r' d0]. simpl in *.
  specialize (IH r' a' HR' Hhi' Hes Hn0). destruct (run r' es) as [r'' ds]. simpl in *.
  apply elem_of_cons in Hin as [[= -> ->]|Hin];
    destruct (spec_process_cases _ _ _ _ _ _ _ Hspec)
      as [(-> & -> & _)|[(-> & _ & ->)|(_ & Hna & _ & -> & ->)]]; try done.
  - rewrite (in_session_ext e.1 (cancelled a)) by done. by destruct (bool_decide (e.1 ∈ cancelled a)).
  - by apply IH.
  - by apply IH.
  - rewrite IH by (done || set_solver). simpl.
    apply bool_decide_ext. destruct e.2; [|done]. rewrite elem_of_union, elem_of_singleton.
    split; [intros [->|]; done|auto].
Qed.

(** All acknowledgements of one number in a run are of the same kind. *)
Lemma run_ack_consistent w r a es n d1 d2 :
  Rel w r a -> hi a < SEQ_LIMIT -> Forall (fun e => 0 <= e.1 < SEQ_LIMIT) es -> 0 <= n ->
  (n, d1) ∈ (run r es).2 -> (n, d2) ∈ (run r es).2 ->
  should_ack d1 = true -> should_ack d2 = true ->
  ack_is_canceled d1 = ack_is_canceled d2.
Proof.
  intros HR Hhi Hes Hn0. revert r a HR Hhi.
  induction es as [|e es IH]; intros r a HR Hhi H1 H2 Hd1 Hd2; simpl in *.
  { by apply not_elem_of_nil in H1. }
  apply list.Forall_cons in Hes as [He Hes].
  destruct (step_spec w r a e HR Hhi He) as (m & a' & _ & Hspec & HR' & Hhi').
  destruct (step r e) as [r' d0]. simpl in *.
  specialize (IH Hes r' a' HR' Hhi').
  pose proof (fun d => run_ack_kind w r' a' es n d HR' Hhi' Hes Hn0) as Hkind.
  destruct (run r' es) as [r'' ds]. simpl in *.
  assert (forall d, should_ack d0 = true -> n = e.1 -> (n, d) ∈ ds -> should_ack d = true ->
            ack_is_canceled d0 = ack_is_canceled d) as Hmix.
  { intros d Hd0 -> Hin Hd.
    destruct (spec_process_cases _ _ _ _ _ _ _ Hspec)
      as [(-> & -> & _)|[(-> & Hacc & ->)|(_ & Hna & _ & -> & ->)]]; try done.
    - assert (e.1 ∈ accepted a) as Hacc' by (destruct Hacc; [lia|done]).
      rewrite (Hkind d Hacc' Hin Hd), (in_session_ext e.1 (cancelled a)) by lia.
      by destruct (bool_decide (e.1 ∈ cancelled a)).
    - rewrite (Hkind d ltac:(simpl; set_solver) Hin Hd). simpl. destruct e.2; simpl.
      + by rewrite bool_decide_eq_true_2 by set_solver.
      + rewrite bool_decide_eq_false_2; [done|].
        intros Hc. apply Hna, (rel_cancelled _ _ _ HR), Hc. }
  apply elem_of_cons in H1 as [H1|H1]; apply elem_of_cons in H2 as [H2|H2]; simplify_eq.
  - done.
  - by apply Hmix.
  - symmetry. by apply Hmix.
  - by apply IH.
Qed.

Lemma should_process_iff r sn :
  should_process_packet r sn = should_process (process_packet r sn).2.
Proof.
  unfold should_process_packet, process_packet, process_packet_or_cancel.
  repeat case_match; done.
Qed.

(** ** Properties *)

(** C22. Refinement: for every receiver state representing an abstract state
    and every 64-bit sequence number, the bitset code takes the transition of
    the abstract receiver on the packet number the sequence number denotes,
    returns its disposition, and represents the resulting state again. *)
Theorem process_refines w r a sn c :
  Rel w r a ->
  exists m, oldest_missing (accepted a) m /\
    Rel w (process_packet_or_cancel r sn c).1 (spec_process w m a (denotes a sn) c).1 /\
    (process_packet_or_cancel r sn c).2 = (spec_process w m a (denotes a sn) c).2.
Proof.
  intros HR. exists (hi a + oldest_unrecvd_offset r).
  split; [by apply (oldest_offset w)|]. by apply process_refines_aux.
Qed.

(** Exactly-once delivery, receiving side: from a fresh receiver with a
    window of at most 63, no sequence of arriving packets and cancellation
    requests (in any order, with any duplication) makes the receiver hand the
    same packet to the message processor twice. *)
Theorem processed_at_most_once w r es :
  1 <= w < 64 -> new w = Ret r -> Forall (fun e => 0 <= e.1 < SEQ_LIMIT) es ->
  NoDup (processed (run r es).2).
Proof.
  intros Hw Hnew Hes.
  destruct (run_processed w r ainit es) as [Hn _]; [by apply Rel_init| |done|done].
  simpl. unfold SEQ_LIMIT. lia.
Qed.

(** [should_process_packet], which dispatch consults before it commits a
    packet to the receive window, answers exactly whether [process_packet]
    would say [AckAndProcess]. *)
Theorem should_process_agrees r sn :
  should_process_packet r sn = should_process (process_packet r sn).2.
Proof. apply should_process_iff. Qed.

(** Acknowledgements are idempotent: however often and in whatever order
    packets and cancellation requests for a number arrive at a fresh receiver,
    all the acknowledgements it sends for that number say the same thing,
    "received" or "canceled". *)
Theorem acks_idempotent w r es n d1 d2 :
  1 <= w < 64 -> new w = Ret r -> Forall (fun e => 0 <= e.1 < SEQ_LIMIT) es -> 0 <= n ->
  (n, d1) ∈ (run r es).2 -> (n, d2) ∈ (run r es).2 ->
  should_ack d1 = true -> should_ack d2 = true ->
  ack_is_canceled d1 = ack_is_canceled d2.
Proof.
  intros Hw Hnew. apply (run_ack_consistent w r ainit); [by apply Rel_init|].
  simpl. unfold SEQ_LIMIT. lia.
Qed.

(** Shift amounts stay below the bitset width: a sequence number that is
    neither too old nor too new is less than 64 away from [highest_seen], so
    that no shift in [process_packet_or_cancel] or [should_process_packet]
    overflows, with overflow checks on or off. *)
Theorem shift_in_range w r a sn :
  Rel w r a ->
  let offset := as_i64 (wrapping_sub 64 sn (highest_seen r)) in
  - window_size r < offset -> offset < oldest_unrecvd_offset r + window_size r ->
  - 64 < offset < 64.
Proof.
  intros HR offset Hold Hnew. pose proof (rel_w _ _ _ HR). pose proof (rel_w_range _ _ _ HR).
  destruct (leading_ones_64 (recvd r)) as (HL & _ & _).
  unfold oldest_unrecvd_offset, BITS in Hnew. lia.
Qed.

(** The documented maximum window of 64 is one too large: a fresh receiver
    with that window accepts sequence number 63 first, the shift by 64 leaves
    the bitsets all ones, and each of the packets 0 to 62, none of which ever
    arrived, is from then on refused and acknowledged as canceled. *)
Theorem window_64_drops_packets :
  exists r, new MAX_WINDOW_SIZE = Ret r /\
    (process_packet r 63).2 = AckAndProcess /\
    Forall (fun sn => (process_packet (process_packet r 63).1 sn).2 = AckCancelDoNotProcess)
      (seqZ 0 63).
Proof.
  eexists. split; [reflexivity|]. split; [vm_compute; reflexivity|].
  apply (bool_decide_unpack _). vm_compute. exact I.
Qed.

(** ** Witnesses *)

Definition w32 : Receiver := mkReceiver 32 U64_MAX U64_MAX U64_MAX (fun _ => 0).

Lemma w32_Rel : Rel 32 w32 ainit.
Proof. apply Rel_init; [lia|reflexivity]. Qed.

(** Packet 5 arrives first, then 3, then a duplicate of 3. *)
Definition w32_events : list (Z * bool) := [(5, false); (3, false); (3, true)].

Lemma process_refines_witness :
  exists m, oldest_missing (accepted ainit) m /\
    Rel 32 (process_packet_or_cancel w32 5 false).1
      (spec_process 32 m ainit (denotes ainit 5) false).1 /\
    (process_packet_or_cancel w32 5 false).2 =
      (spec_process 32 m ainit (denotes ainit 5) false).2.
Proof. exact (process_refines 32 w32 ainit 5 false w32_Rel). Defined.

Lemma processed_at_most_once_witness :
  processed (run w32 w32_events).2 = [5; 3] /\ NoDup (processed (run w32 w32_events).2).
Proof.
  split; [vm_compute; reflexivity|].
  apply (processed_at_most_once 32); [lia|reflexivity|].
  repeat constructor; unfold SEQ_LIMIT; simpl; lia.
Defined.

Lemma acks_idempotent_witness :
  (run w32 w32_events).2 = [(5, AckAndProcess); (3, AckAndProcess); (3, AckDoNotProcess)] /\
  ack_is_canceled AckAndProcess = ack_is_canceled AckDoNotProcess.
Proof.
  assert ((run w32 w32_events).2 =
    [(5, AckAndProcess); (3, AckAndProcess); (3, AckDoNotProcess)]) as E
    by (vm_compute; reflexivity).
  split; [exact E|].
  apply (acks_idempotent 32 w32 w32_events 3); try lia; try reflexivity.
  - repeat constructor; unfold SEQ_LIMIT; simpl; lia.
  - rewrite E. apply elem_of_cons. right. apply elem_of_cons. by left.
  - rewrite E. apply elem_of_cons. right. apply elem_of_cons. right. apply elem_of_cons. by left.
Defined.

Lemma shift_in_range_witness : - 64 < as_i64 (wrapping_sub 64 31 (highest_seen w32)) < 64.
Proof.
  apply (shift_in_range 32 w32 ainit 31 w32_Rel); vm_compute; reflexivity.
Defined.

End Rx.
