(* ===== verification/ZdprSender.v ===== *)
(** * The sending side of a reliable ZDP session ([zdpr.rs], [Sender])

    Three queues (sent but not yet retired, waiting for the window, and sent
    packets that used to wait), each operation of the code, and the lemmas
    about sequence-number offsets they share.  The properties are in
    [ZdprSenderProps]. *)
From Stdlib Require Import ZArith Lia.
From stdpp Require Import base tactics option list gmap functions.
From S2P Require Import Prelude.

Local Open Scope Z_scope.

Module Tx.

(** A task waker: the shared no-op waker or that of a waiting task. *)
Inductive Waker := noop | waker (task : nat).

(** [std::task::Poll]. *)
Inductive Poll (A : Type) := Ready (a : A) | Pending.
Arguments Ready {A} a.
Arguments Pending {A}.

Inductive SenderStat := InvalidAck | TooOldAck | DuplicateAck | TooNewAck.

#[global] Instance SenderStat_eq_dec : EqDecision SenderStat.
Proof. solve_decision. Defined.

Definition is_protocol_error (s : SenderStat) : bool :=
  match s with InvalidAck | TooNewAck => true | _ => false end.

Definition U8_MAX : Z := 255.
Definition U64_MAX : Z := 2 ^ 64 - 1.

Section sender.
Context {Pkt : Type}.

(** ** Packet states *)

Inductive UnackedState :=
| Unacked (packet : Pkt) (w : Waker) (retry_limit : option Z) (retry_count : Z)
    (forgotten : bool)
| CancelRequested (w : Waker) (forgotten : bool)
| Acked
| CancelAcked.

Definition st_is_acked (st : UnackedState) : bool :=
  match st with Acked | CancelAcked => true | _ => false end.

Definition st_cancel (st : UnackedState) : UnackedState * option Pkt :=
  match st with
  | Unacked packet w _ _ forgotten => (CancelRequested w forgotten, Some packet)
  | _ => (st, None)
  end.

Definition st_limit_retries (limit : Z) (st : UnackedState) : UnackedState :=
  match st with
  | Unacked packet w retry_limit retry_count forgotten =>
      Unacked packet w (Some (Z.min limit (default U8_MAX retry_limit))) retry_count forgotten
  | _ => st
  end.

Definition st_forget (st : UnackedState) : UnackedState :=
  match st with
  | Unacked packet w (Some limit) retry_count _ => Unacked packet w (Some limit) retry_count true
  | CancelRequested w _ => CancelRequested w true
  | CancelAcked => Acked
  | _ => st
  end.

Definition st_age_retries (st : UnackedState) : UnackedState * option Pkt :=
  match st with
  | Unacked packet w retry_limit retry_count forgotten =>
      let bump := (Unacked packet w retry_limit (Z.min U8_MAX (retry_count + 1)) forgotten, None) in
      match retry_limit with
      | Some limit => if limit <=? retry_count then st_cancel st else bump
      | None => bump
      end
  | _ => (st, None)
  end.

(** Returns the packet, if any, and the wakers woken. *)
Definition st_destruct (st : UnackedState) : option Pkt * list Waker :=
  match st with
  | Unacked packet w _ _ _ => (Some packet, [w])
  | CancelRequested w _ => (None, [w])
  | Acked | CancelAcked => (None, [])
  end.

Inductive BlockedState :=
| Blocked (packet : Pkt) (w : Waker) (retry_limit : option Z)
| Canceled.

Definition bl_cancel (st : BlockedState) : BlockedState * option (Pkt * Waker) :=
  match st with
  | Blocked packet w _ => (Canceled, Some (packet, w))
  | Canceled => (st, None)
  end.

Definition bl_limit_retries (limit : Z) (st : BlockedState) : BlockedState :=
  match st with
  | Blocked packet w retry_limit =>
      Blocked packet w (Some (Z.min limit (default U8_MAX retry_limit)))
  | Canceled => st
  end.

Definition bl_destruct (st : BlockedState) : option Pkt * list Waker :=
  match st with
  | Blocked packet w _ => (Some packet, [w])
  | Canceled => (None, [])
  end.

(** ** The sender *)

Record Sender := mkSender {
  window_size : Z;
  last_sent : Z;
  unacked : list UnackedState;
  last_enqueued : Z;
  blocked : list BlockedState;
  sent : list (option Z);
  stats : SenderStat -> Z
}.

Inductive EnqueueResult :=
| Sent (sn : Z) (packet : Pkt)
| Queued (id : Z).

Definition set_window (s : Sender) (w : Z) : Sender :=
  mkSender w (last_sent s) (unacked s) (last_enqueued s) (blocked s) (sent s) (stats s).
Definition set_unacked (s : Sender) (u : list UnackedState) : Sender :=
  mkSender (window_size s) (last_sent s) u (last_enqueued s) (blocked s) (sent s) (stats s).
Definition set_blocked (s : Sender) (b : list BlockedState) : Sender :=
  mkSender (window_size s) (last_sent s) (unacked s) (last_enqueued s) b (sent s) (stats s).
Definition set_sent (s : Sender) (q : list (option Z)) : Sender :=
  mkSender (window_size s) (last_sent s) (unacked s) (last_enqueued s) (blocked s) q (stats s).
Definition set_stats (s : Sender) (st : SenderStat -> Z) : Sender :=
  mkSender (window_size s) (last_sent s) (unacked s) (last_enqueued s) (blocked s) (sent s) st.

(** [self.stats[stat] += 1]. *)
Definition bump_stat (s : Sender) (stat : SenderStat) : Sender :=
  set_stats s (<[stat := wrapping_add 64 (stats s stat) 1]> (stats s)).

Definition MAX_WINDOW_SIZE : Z := U64_MAX.

Definition new : Sender := mkSender 1 U64_MAX [] U64_MAX [] [] (fun _ => 0).

(** The offset arithmetic repeated by every operation: the [i64] distance of
    an identifier from the newest one, the test for "older than the queue", and
    the index into the queue. *)
Definition offset_of (id newest : Z) : Z := as_i64 (wrapping_sub 64 id newest).
Definition beyond (len offset : Z) : bool := as_i64 len <=? i64_neg offset.
Definition slot (len offset : Z) : Z :=
  as_usize (i64_add (i64_add (as_i64 len) offset) (-1)).

(** [let window_size = min(MAX, window_size)]; the reservation of capacity in
    the queue has no effect on its contents. *)
Definition adjust_window_size (s : Sender) (window_size : Z) : outcome Sender :=
  _ ← rust_assert (1 <=? window_size);
  mret (set_window s (Z.min MAX_WINDOW_SIZE window_size)).

Definition is_blocked (s : Sender) : bool := window_size s <=? zlen (unacked s).

Definition has_blocked_packets (s : Sender) : bool :=
  match blocked s with [] => false | _ => true end.

Definition is_sent (s : Sender) (id : Z) : bool :=
  beyond (zlen (blocked s)) (offset_of id (last_enqueued s)).

Definition is_acked (s : Sender) (sn : Z) : outcome bool :=
  let offset := offset_of sn (last_sent s) in
  if 0 <? offset then mret false
  else if beyond (zlen (unacked s)) offset then mret true
  else st ← index (unacked s) (slot (zlen (unacked s)) offset); mret (st_is_acked st).

Definition is_cancel_acked (s : Sender) (sn : Z) : outcome bool :=
  let offset := offset_of sn (last_sent s) in
  if 0 <? offset then Panic
  else if beyond (zlen (unacked s)) offset then mret false
  else
    st ← index (unacked s) (slot (zlen (unacked s)) offset);
    match st with
    | Unacked _ _ _ _ _ | CancelRequested _ _ => Panic
    | CancelAcked => mret true
    | Acked => mret false
    end.

(** [clean_blocked_queue]: move the canceled prefix of [blocked] to [sent]. *)
Fixpoint clean_blocked_loop (b : list BlockedState) (q : list (option Z))
    : list BlockedState * list (option Z) :=
  match b with
  | Canceled :: b' => clean_blocked_loop b' (q ++ [None])
  | _ => (b, q)
  end.
Definition clean_blocked_queue (s : Sender) : Sender :=
  let '(b, q) := clean_blocked_loop (blocked s) (sent s) in set_sent (set_blocked s b) q.

(** [clean_unacked_queue]: drop the acknowledged prefix. *)
Fixpoint clean_unacked_loop (u : list UnackedState) : list UnackedState :=
  match u with Acked :: u' => clean_unacked_loop u' | _ => u end.
Definition clean_unacked_queue (s : Sender) : Sender :=
  set_unacked s (clean_unacked_loop (unacked s)).

(** [clean_sent_queue]: drop the prefix of [sent] that is canceled or
    acknowledged. *)
Fixpoint clean_sent_loop (s : Sender) (q : list (option Z)) : outcome (list (option Z)) :=
  match q with
  | [] => mret []
  | Some sn :: q' => a ← is_acked s sn; if (a : bool) then clean_sent_loop s q' else mret q
  | None :: q' => clean_sent_loop s q'
  end.
Definition clean_sent_queue (s : Sender) : outcome Sender :=
  q ← clean_sent_loop s (sent s); mret (set_sent s q).

(** [lookup_seq_num]. *)
Definition lookup_seq_num (s : Sender) (id : Z) : outcome (option Z) :=
  let offset := i64_add (offset_of id (last_enqueued s)) (as_i64 (zlen (blocked s))) in
  _ ← rust_assert (offset <=? 0);
  if beyond (zlen (sent s)) offset then mret None
  else index (sent s) (slot (zlen (sent s)) offset).

Definition poll_send (cx : Waker) (s : Sender) (id : Z)
    : outcome (Sender * Poll (option Z)) :=
  let offset := offset_of id (last_enqueued s) in
  _ ← rust_assert (offset <=? 0);
  if beyond (zlen (blocked s)) offset then
    sn ← lookup_seq_num s id; mret (s, Ready sn)
  else
    let idx := slot (zlen (blocked s)) offset in
    st ← index (blocked s) idx;
    match st with
    | Canceled => Panic
    | Blocked p _ l =>
        mret (set_blocked s (<[Z.to_nat idx := Blocked p cx l]> (blocked s)), Pending)
    end.

Definition poll_ack (cx : Waker) (s : Sender) (sn : Z) : outcome (Sender * Poll unit) :=
  let offset := offset_of sn (last_sent s) in
  _ ← rust_assert (offset <=? 0);
  if beyond (zlen (unacked s)) offset then mret (s, Ready tt)
  else
    let idx := slot (zlen (unacked s)) offset in
    st ← index (unacked s) idx;
    match st with
    | Acked | CancelAcked => mret (s, Ready tt)
    | Unacked p _ l c f =>
        mret (set_unacked s (<[Z.to_nat idx := Unacked p cx l c f]> (unacked s)), Pending)
    | CancelRequested _ f =>
        mret (set_unacked s (<[Z.to_nat idx := CancelRequested cx f]> (unacked s)), Pending)
    end.

Definition poll_send_and_ack (cx : Waker) (s : Sender) (id : Z)
    : outcome (Sender * Poll unit) :=
  '(s1, p) ← poll_send cx s id;
  match p with
  | Pending => mret (s1, Pending)
  | Ready (Some sn) => poll_ack cx s1 sn
  | Ready None => mret (s1, Ready tt)
  end.

Definition enqueue_packet (s : Sender) (packet : Pkt) : Sender * EnqueueResult :=
  if is_blocked s || has_blocked_packets s then
    let id := wrapping_add 64 (last_enqueued s) 1 in
    (mkSender (window_size s) (last_sent s) (unacked s) id
       (blocked s ++ [Blocked packet noop None]) (sent s) (stats s), Queued id)
  else
    let sn := wrapping_add 64 (last_sent s) 1 in
    (mkSender (window_size s) sn (unacked s ++ [Unacked packet noop None 0 false])
       (last_enqueued s) (blocked s) (sent s) (stats s), Sent sn packet).

Definition cancel_queued_packet (s : Sender) (id : Z)
    : outcome (Sender * option Pkt * list Waker) :=
  let offset := offset_of id (last_enqueued s) in
  _ ← rust_assert (offset <=? 0);
  if beyond (zlen (blocked s)) offset then mret (s, None, [])
  else
    let idx := slot (zlen (blocked s)) offset in
    st ← index (blocked s) idx;
    match bl_cancel st with
    | (_, None) => mret (s, None, [])
    | (st', Some (pkt, w)) =>
        let s1 := set_blocked s (<[Z.to_nat idx := st']> (blocked s)) in
        let s2 := if idx =? 0 then clean_blocked_queue s1 else s1 in
        mret (s2, Some pkt, [w])
    end.

Definition cancel_sent_packet (s : Sender) (sn : Z) : outcome (Sender * option Pkt) :=
  let offset := offset_of sn (last_sent s) in
  if (0 <? offset) || beyond (zlen (unacked s)) offset then mret (s, None)
  else
    let idx := slot (zlen (unacked s)) offset in
    st ← index (unacked s) idx;
    let '(st', pkt) := st_cancel st in
    mret (set_unacked s (<[Z.to_nat idx := st']> (unacked s)), pkt).

Definition limit_retries_by_seq_num (s : Sender) (sn retry_limit : Z) : outcome Sender :=
  let offset := offset_of sn (last_sent s) in
  if (0 <? offset) || beyond (zlen (unacked s)) offset then mret s
  else
    let idx := slot (zlen (unacked s)) offset in
    st ← index (unacked s) idx;
    mret (set_unacked s (<[Z.to_nat idx := st_limit_retries retry_limit st]> (unacked s))).

Definition limit_retries_by_id (s : Sender) (id retry_limit : Z) : outcome Sender :=
  let offset := offset_of id (last_enqueued s) in
  _ ← rust_assert (offset <=? 0);
  if beyond (zlen (blocked s)) offset then
    o ← lookup_seq_num s id;
    match o with
    | Some sn => limit_retries_by_seq_num s sn retry_limit
    | None => mret s
    end
  else
    let idx := slot (zlen (blocked s)) offset in
    st ← index (blocked s) idx;
    mret (set_blocked s (<[Z.to_nat idx := bl_limit_retries retry_limit st]> (blocked s))).

Definition forget_canceled_packet (s : Sender) (sn : Z) : outcome Sender :=
  let offset := offset_of sn (last_sent s) in
  if (0 <? offset) || beyond (zlen (unacked s)) offset then mret s
  else
    let idx := slot (zlen (unacked s)) offset in
    st ← index (unacked s) idx;
    let s1 := set_unacked s (<[Z.to_nat idx := st_forget st]> (unacked s)) in
    let s2 := if idx =? 0 then clean_unacked_queue s1 else s1 in
    clean_sent_queue s2.

(** [lookup_ack_index], with the statistics it counts. *)
Definition lookup_ack_index (s : Sender) (sn : Z) : Sender * option Z :=
  let offset := offset_of sn (last_sent s) in
  if 0 <? offset then (bump_stat s TooNewAck, None)
  else if beyond (zlen (unacked s)) offset then (bump_stat s TooOldAck, None)
  else (s, Some (slot (zlen (unacked s)) offset)).

(** The common tail of [process_ack] and [process_canceled]: store the new
    packet state, retire the acknowledged prefix, and wake the waiter. *)
Definition retire (s : Sender) (idx : Z) (st' : UnackedState) : outcome Sender :=
  let s1 := set_unacked s (<[Z.to_nat idx := st']> (unacked s)) in
  let s2 := if idx =? 0 then clean_unacked_queue s1 else s1 in
  clean_sent_queue s2.

Definition process_ack (s : Sender) (sn : Z) : outcome (Sender * option Pkt * list Waker) :=
  let '(s1, o) := lookup_ack_index s sn in
  match o with
  | None => mret (s1, None, [])
  | Some idx =>
      st ← index (unacked s1) idx;
      match st with
      | Unacked packet w _ _ _ =>
          s2 ← retire s1 idx Acked; mret (s2, Some packet, [w])
      | CancelRequested w _ =>
          s2 ← retire s1 idx Acked; mret (s2, None, [w])
      | Acked => mret (bump_stat s1 DuplicateAck, None, [])
      | CancelAcked => mret (bump_stat s1 InvalidAck, None, [])
      end
  end.

Definition process_canceled (s : Sender) (sn : Z) : outcome (Sender * list Waker) :=
  let '(s1, o) := lookup_ack_index s sn in
  match o with
  | None => mret (s1, [])
  | Some idx =>
      st ← index (unacked s1) idx;
      match st with
      | CancelRequested w forgotten =>
          s2 ← retire s1 idx (if forgotten : bool then Acked else CancelAcked); mret (s2, [w])
      | Unacked _ _ _ _ _ | Acked => mret (bump_stat s1 InvalidAck, [])
      | CancelAcked => mret (bump_stat s1 DuplicateAck, [])
      end
  end.

Definition unblock_needed (s : Sender) : bool := negb (is_blocked s) && has_blocked_packets s.

Definition enqueue_next_blocked_packet (s : Sender)
    : outcome (Sender * Z * Pkt * list Waker) :=
  _ ← rust_assert (negb (is_blocked s));
  match blocked s with
  | [] => Panic
  | Canceled :: _ => Panic
  | Blocked packet w retry_limit :: b =>
      let sn := wrapping_add 64 (last_sent s) 1 in
      let s1 := mkSender (window_size s) sn
                  (unacked s ++ [Unacked packet noop retry_limit 0 false])
                  (last_enqueued s) b (sent s ++ [Some sn]) (stats s) in
      mret (clean_blocked_queue s1, sn, packet, [w])
  end.

Definition retry_needed (s : Sender) : bool :=
  existsb (fun st => negb (st_is_acked st)) (unacked s).

(** [age_retries], its iterator run to the end as every caller does. *)
Definition age_retries (s : Sender) : Sender * list Pkt :=
  (set_unacked s (map (fun st => (st_age_retries st).1) (unacked s)),
   omap (fun st => (st_age_retries st).2) (unacked s)).

Definition sn_base (s : Sender) : Z :=
  wrapping_add 64 (wrapping_sub 64 (last_sent s) (zlen (unacked s))) 1.

Definition retry_packets (s : Sender) : list (Z * Pkt) :=
  omap id (imap (fun i st =>
    match st with
    | Unacked packet _ _ _ _ => Some (wrapping_add 64 (sn_base s) (Z.of_nat i), packet)
    | _ => None
    end) (unacked s)).

Definition retry_cancels (s : Sender) : list Z :=
  omap id (imap (fun i st =>
    match st with
    | CancelRequested _ _ => Some (wrapping_add 64 (sn_base s) (Z.of_nat i))
    | _ => None
    end) (unacked s)).

(** [destruct_internal], its iterator run to the end: the packets handed back
    and the wakers woken. *)
Definition destruct_internal (s : Sender) : Sender * list Pkt * list Waker :=
  (set_blocked (set_unacked s []) [],
   omap (fun st => (st_destruct st).1) (unacked s) ++
   omap (fun st => (bl_destruct st).1) (blocked s),
   concat (map (fun st => (st_destruct st).2) (unacked s)) ++
   concat (map (fun st => (bl_destruct st).2) (blocked s))).

(** [reset]: the old sender is dropped, which wakes its waiters. *)
Definition reset (s : Sender) : Sender * list Waker :=
  let '(_, _, woken) := destruct_internal s in (new, woken).

Definition fetch_reset_stat (s : Sender) (stat : SenderStat) : Sender * Z :=
  (set_stats s (<[stat := 0]> (stats s)), stats s stat).

End sender.

Arguments UnackedState Pkt : clear implicits.
Arguments BlockedState Pkt : clear implicits.
Arguments Sender Pkt : clear implicits.
Arguments EnqueueResult Pkt : clear implicits.

End Tx.
