(* ===== verification/ZdprSenderProps.v ===== *)
(** * Properties of the reliable ZDP sender

    The invariant of [Tx.Sender], preserved by every operation, the
    conservation of packets, the per-packet life cycle described in the
    comments of [zdpr.rs] as a step relation the operations refine, and the
    behaviour of acknowledgements, retries and retry limits. *)
From Stdlib Require Import ZArith Lia.
From stdpp Require Import base tactics option list gmap functions sorting relations.
From S2P Require Import Prelude ZdprSender.
Import Tx.

Local Open Scope Z_scope.

Module TxProps.

(** Sessions are considered up to this many packets sent, and as many queued. *)
Definition LIMIT : Z := 2 ^ 62.

(** ** Offsets *)
Section offsets.
Implicit Types len off : Z.

Lemma beyond_iff len off :
  0 <= len < 2 ^ 63 -> - 2 ^ 63 < off <= 0 -> beyond len off = true <-> len <= - off.
Proof.
  intros Hl Ho. unfold beyond, i64_neg. rewrite !as_i64_small by lia. apply Z.leb_le.
Qed.

Lemma beyond_false len off :
  0 <= len < 2 ^ 63 -> - 2 ^ 63 < off <= 0 -> - off < len -> beyond len off = false.
Proof.
  intros Hl Ho Hb. destruct (beyond len off) eqn:E; [|done].
  apply beyond_iff in E; lia.
Qed.

Lemma slot_eq len off :
  0 <= len < 2 ^ 63 -> - 2 ^ 63 < off <= 0 -> - off < len -> slot len off = len + off - 1.
Proof.
  intros Hl Ho Hb. unfold slot, as_usize, i64_add. rewrite (as_i64_small len) by lia.
  rewrite (as_i64_small (len + off)) by lia. rewrite as_i64_small by lia.
  rewrite wrap_small by lia. lia.
Qed.

(** At the most negative offset the negation wraps, the entry is not taken for
    an old one, and the index lies outside every queue. *)
Lemma min_offset_slot len :
  0 <= len < 2 ^ 63 -> beyond len (- 2 ^ 63) = false /\ len <= slot len (- 2 ^ 63).
Proof.
  intros Hl. split.
  - unfold beyond, i64_neg. rewrite (as_i64_small len) by lia.
    change (as_i64 (- - 2 ^ 63)) with (- 2 ^ 63). apply Z.leb_gt. lia.
  - unfold slot, as_usize, i64_add. rewrite (as_i64_small len) by lia.
    rewrite (as_i64_small (len + - 2 ^ 63)) by lia.
    destruct (Z.eq_dec len 0) as [->|].
    + change (as_i64 (0 + - 2 ^ 63 + -1)) with (2 ^ 63 - 1). rewrite wrap_small by lia. lia.
    + rewrite as_i64_small by lia. unfold wrap.
      rewrite <- (Z_mod_plus_full _ 1 (2 ^ 64)), Z.mod_small by lia. lia.
Qed.

Lemma offset_range id newest : - 2 ^ 63 <= offset_of id newest < 2 ^ 63.
Proof. apply as_i64_range. Qed.

Lemma offset_near k n :
  0 <= k <= LIMIT -> 0 <= n <= LIMIT -> offset_of k (wrap 64 (n - 1)) = k - (n - 1).
Proof.
  unfold LIMIT. intros Hk Hn. unfold offset_of.
  rewrite <- (wrap_small 64 k) at 1 by lia. apply seq_diff. lia.
Qed.

End offsets.

Section props.
Context {Pkt : Type}.
Implicit Types (s : Sender Pkt) (u : list (UnackedState Pkt)) (b : list (BlockedState Pkt)).

(** ** The invariant *)

(** The next sequence number and the next queue identifier. *)
Definition next s : Z := wrapping_add 64 (last_sent s) 1.
Definition nextq s : Z := wrapping_add 64 (last_enqueued s) 1.
Definition oldest s : Z := next s - zlen (unacked s).

(** The sequence numbers recorded in [sent]. *)
Definition somes (q : list (option Z)) : list Z := omap id q.

Record SCore s : Prop := {
  core_window : 1 <= window_size s;
  core_last_sent : last_sent s = wrap 64 (next s - 1);
  core_len : zlen (unacked s) <= next s <= LIMIT;
  core_last_enqueued : last_enqueued s = wrap 64 (nextq s - 1);
  core_queues : zlen (blocked s) + zlen (sent s) <= nextq s <= LIMIT;
  core_sorted : StronglySorted Z.lt (somes (sent s));
  core_sent : Forall (fun k => 0 <= k < next s) (somes (sent s));
  core_blocked_front : head (blocked s) <> Some Canceled
}.

Record SInv s : Prop := {
  inv_core : SCore s;
  inv_unacked_front : head (unacked s) <> Some Acked;
  inv_sent_in_window : Forall (fun k => oldest s <= k) (somes (sent s))
}.

(** ** The life of a packet, as the comment in [zdpr.rs] draws it *)
Inductive PState := UNSENT | UNACKED | CANCEL_REQUESTED | ACKED | CANCEL_ACKED | FORGOTTEN.

Inductive pstep : PState -> PState -> Prop :=
| p_send : pstep UNSENT UNACKED
| p_cancel : pstep UNACKED CANCEL_REQUESTED
| p_ack : pstep UNACKED ACKED
| p_cancel_refused : pstep CANCEL_REQUESTED ACKED
| p_cancel_ack : pstep CANCEL_REQUESTED CANCEL_ACKED
| p_forget : pstep CANCEL_ACKED ACKED
| p_aged : pstep ACKED FORGOTTEN.

Definition pstate (st : UnackedState Pkt) : PState :=
  match st with
  | Unacked _ _ _ _ _ => UNACKED
  | CancelRequested _ _ => CANCEL_REQUESTED
  | Acked => ACKED
  | CancelAcked => CANCEL_ACKED
  end.

(** The state of the packet with sequence number [k]. *)
Definition state_at s (k : Z) : PState :=
  if next s <=? k then UNSENT
  else if k <? oldest s then FORGOTTEN
  else match unacked s !! Z.to_nat (k - oldest s) with
       | Some st => pstate st
       | None => FORGOTTEN
       end.

(** ** The packets a sender holds *)
Definition st_packet (st : UnackedState Pkt) : option Pkt :=
  match st with Unacked p _ _ _ _ => Some p | _ => None end.
Definition bl_packet (st : BlockedState Pkt) : option Pkt :=
  match st with Blocked p _ _ => Some p | Canceled => None end.
Definition held s : list Pkt := omap st_packet (unacked s) ++ omap bl_packet (blocked s).

(** What every operation guarantees: the invariant again, every packet state
    moved along the life cycle, and no packet lost or duplicated between those
    held, those taken in and those handed back. *)
Record Good s (taken : list Pkt) s' (handed_back : list Pkt) : Prop := {
  good_inv : SInv s';
  good_life : forall k, rtc pstep (state_at s k) (state_at s' k);
  good_held : taken ++ held s ≡ₚ handed_back ++ held s'
}.

(** ** Elementary facts *)

Lemma next_u64 s : u64 (next s).
Proof. apply (wrap_range 64). lia. Qed.

Lemma core_bounds s :
  SCore s -> 0 <= zlen (unacked s) <= LIMIT /\ 0 <= oldest s /\ 0 <= next s <= LIMIT.
Proof.
  intros H. pose proof (core_len s H). pose proof (zlen_nonneg (unacked s)).
  unfold oldest. lia.
Qed.

Lemma new_core : SCore (@new Pkt).
Proof.
  split; try (by vm_compute); try constructor; try (split; by vm_compute).
Qed.

Lemma new_inv : SInv (@new Pkt).
Proof. split; [apply new_core|done|constructor]. Qed.

(** An index computed by the code for a tracked sequence number. *)
Lemma tracked_slot s sn :
  SCore s -> offset_of sn (last_sent s) <= 0 -> - 2 ^ 63 < offset_of sn (last_sent s) ->
  beyond (zlen (unacked s)) (offset_of sn (last_sent s)) = false ->
  slot (zlen (unacked s)) (offset_of sn (last_sent s)) =
    zlen (unacked s) + offset_of sn (last_sent s) - 1 /\
  0 <= zlen (unacked s) + offset_of sn (last_sent s) - 1 < zlen (unacked s).
Proof.
  intros Hc H0 Hm Hb. pose proof (core_bounds s Hc). unfold LIMIT in *.
  assert (- offset_of sn (last_sent s) < zlen (unacked s)).
  { destruct (Z_lt_le_dec (- offset_of sn (last_sent s)) (zlen (unacked s))); [done|].
    assert (beyond (zlen (unacked s)) (offset_of sn (last_sent s)) = true)
      by (apply beyond_iff; lia). congruence. }
  rewrite slot_eq by lia. lia.
Qed.

Lemma state_at_slot s (i : nat) st :
  SCore s -> unacked s !! i = Some st -> state_at s (oldest s + Z.of_nat i) = pstate st.
Proof.
  intros Hc Hi. pose proof (core_bounds s Hc).
  assert (Z.of_nat i < zlen (unacked s)) by (apply lookup_lt_Some in Hi; unfold zlen; lia).
  unfold state_at. ztests; [unfold oldest in *; lia|].
  replace (Z.to_nat _) with i by lia. by rewrite Hi.
Qed.

(** [is_acked] on a sequence number of this session. *)
Lemma is_acked_spec s k :
  SCore s -> 0 <= k < next s ->
  is_acked s k = Ret (match state_at s k with ACKED | CANCEL_ACKED | FORGOTTEN => true
                      | _ => false end).
Proof.
  intros Hc Hk. pose proof (core_bounds s Hc) as Hb.
  unfold is_acked. rewrite (core_last_sent s Hc), offset_near by lia.
  unfold LIMIT in *. set (off := k - (next s - 1)).
  destruct (Z.ltb_spec 0 off); [lia|].
  unfold state_at. destruct (Z.leb_spec (next s) k); [lia|].
  destruct (Z.ltb_spec k (oldest s)).
  - rewrite (proj2 (beyond_iff (zlen (unacked s)) off ltac:(lia) ltac:(lia))) by (unfold oldest in *; lia). done.
  - rewrite beyond_false, slot_eq by (unfold oldest in *; lia).
    assert (0 <= k - oldest s < zlen (unacked s)) as Hidx by (unfold oldest in *; lia).
    destruct (index_lt (unacked s) _ Hidx) as [st Hst].
    replace (zlen (unacked s) + off - 1) with (k - oldest s) by (unfold oldest in *; lia).
    rewrite Hst. apply index_ret in Hst as [_ ->]. by destruct st.
Qed.

(** ** The cleaning loops *)

Lemma clean_unacked_drop u :
  exists n, clean_unacked_loop u = drop n u /\ (n <= length u)%nat /\
    (forall j, (j < n)%nat -> u !! j = Some Acked) /\ head (drop n u) <> Some Acked.
Proof.
  induction u as [|st u (n & E & Hn & Ha & Hh)].
  - exists 0%nat. repeat split; [simpl; lia|intros; lia|done].
  - destruct st; try (exists 0%nat; repeat split; [simpl; lia|intros; lia|done]).
    exists (S n). simpl. repeat split; [done|lia| |done].
    intros [|j] Hj; [done|]. simpl. apply Ha. lia.
Qed.

Lemma clean_blocked_spec b q :
  exists n, clean_blocked_loop b q = (drop n b, q ++ replicate n None) /\
    (n <= length b)%nat /\ take n b = replicate n Canceled /\
    head (drop n b) <> Some Canceled.
Proof.
  revert q. induction b as [|st b IH]; intros q.
  - exists 0%nat. by rewrite app_nil_r.
  - destruct st.
    + exists 0%nat. rewrite app_nil_r. repeat split; [simpl; lia|done].
    + destruct (IH (q ++ [None])) as (n & E & Hn & Ht & Hh).
      exists (S n). simpl. rewrite E, <- app_assoc. repeat split; [lia|by rewrite Ht|done].
Qed.

Lemma somes_app q1 q2 : somes (q1 ++ q2) = somes q1 ++ somes q2.
Proof. apply omap_app. Qed.

Lemma somes_replicate n : somes (replicate n None) = [].
Proof. induction n; simpl; [done|]. done. Qed.

(** [clean_sent_loop] does not panic, drops a prefix, and what is left lies in
    the window. *)
Lemma clean_sent_spec s q :
  SCore s -> StronglySorted Z.lt (somes q) -> Forall (fun k => 0 <= k < next s) (somes q) ->
  exists n, clean_sent_loop s q = Ret (drop n q) /\
    Forall (fun k => oldest s <= k) (somes (drop n q)).
Proof.
  intros Hc. induction q as [|[k|] q IH]; intros Hs Hf.
  - exists 0%nat. split; [done|constructor].
  - change (somes (Some k :: q)) with (k :: somes q) in *.
    apply StronglySorted_inv in Hs as [Hs Hk]. apply list.Forall_cons in Hf as [Hk0 Hf].
    simpl. rewrite is_acked_spec by done. simpl.
    destruct (state_at s k) eqn:Est; simpl;
      try (destruct (IH Hs Hf) as (n & E & Ho); exists (S n); by split);
      exists 0%nat; split; try done; change (somes (drop 0 (Some k :: q))) with (k :: somes q);
      (assert (oldest s <= k);
        [unfold state_at in Est; ztests; done
        |constructor; [done|]; eapply list.Forall_impl; [exact Hk|simpl; lia]]).
  - simpl. destruct (IH Hs Hf) as (n & E & Ho). exists (S n). by split.
Qed.

Lemma somes_drop n q : exists m, somes (drop n q) = drop m (somes q).
Proof.
  revert n. induction q as [|[k|] q IH]; intros [|n].
  - by exists 0%nat.
  - by exists 0%nat.
  - by exists 0%nat.
  - destruct (IH n) as [m Hm]. exists (S m). apply Hm.
  - by exists 0%nat.
  - destruct (IH n) as [m Hm]. exists m. apply Hm.
Qed.

Lemma StronglySorted_drop (l : list Z) n : StronglySorted Z.lt l -> StronglySorted Z.lt (drop n l).
Proof.
  revert n. induction l as [|k l IH]; intros [|n] H; try done.
  apply StronglySorted_inv in H as [H _]. by apply IH.
Qed.

(** [clean_sent_queue] keeps the core invariant and establishes the window
    bound on [sent]. *)
Lemma clean_sent_queue_spec s :
  SCore s -> head (unacked s) <> Some Acked ->
  exists q, clean_sent_queue s = Ret (set_sent s q) /\ SInv (set_sent s q).
Proof.
  intros Hc Hfront.
  destruct (clean_sent_spec s (sent s) Hc (core_sorted s Hc) (core_sent s Hc)) as (n & E & Ho).
  exists (drop n (sent s)). unfold clean_sent_queue. rewrite E. split; [done|].
  destruct (somes_drop n (sent s)) as [m Hm].
  split; [split|done|done]; simpl; try apply Hc.
  - pose proof (core_queues s Hc). unfold zlen in *. rewrite length_drop. change (nextq (set_sent s _)) with (nextq s). lia.
  - rewrite Hm. apply StronglySorted_drop, Hc.
  - rewrite Hm. apply Forall_drop, Hc.
Qed.

(** ** Effect of the building blocks *)

(** The packet handed back when a state changes from [st] to [st']. *)
Definition given_up (st st' : UnackedState Pkt) : list Pkt :=
  match st_packet st' with Some _ => [] | None => option_list (st_packet st) end.

Lemma SCore_set_unacked s u :
  SCore s -> zlen u <= zlen (unacked s) -> SCore (set_unacked s u).
Proof.
  intros Hc Hl. split; simpl; try apply Hc.
  pose proof (core_len s Hc). change (next (set_unacked s u)) with (next s). lia.
Qed.

Lemma SInv_set_stats s st : SInv s -> SInv (set_stats s st).
Proof. intros [[] ? ?]. by split. Qed.

Lemma good_set_stats s st : SInv s -> Good s [] (set_stats s st) [].
Proof. intros H. split; [by apply SInv_set_stats|done|done]. Qed.

Lemma given_up_held u (i : nat) st st' (rest : list Pkt) :
  u !! i = Some st -> st_packet st' = None \/ st_packet st' = st_packet st ->
  [] ++ omap st_packet u ++ rest ≡ₚ given_up st st' ++ omap st_packet (<[i:=st']> u) ++ rest.
Proof.
  intros Hi Hp. unfold given_up. destruct Hp as [Hp|Hp].
  - rewrite Hp. pose proof (omap_insert_Permutation st_packet u i st st' Hi) as HP.
    rewrite Hp in HP. simpl in HP. simpl. rewrite HP. by rewrite app_assoc.
  - rewrite (omap_insert_same st_packet u i st st') by done.
    destruct (st_packet st') eqn:E; [done|]. by rewrite <- Hp.
Qed.

(** Replacing one tracked packet state. *)
Lemma state_at_update s (i : nat) st st' k :
  SCore s -> unacked s !! i = Some st -> rtc pstep (pstate st) (pstate st') ->
  rtc pstep (state_at s k) (state_at (set_unacked s (<[i:=st']> (unacked s))) k).
Proof.
  intros Hc Hi Hst. pose proof (core_bounds s Hc).
  assert (oldest (set_unacked s (<[i:=st']> (unacked s))) = oldest s) as Ho.
  { unfold oldest. simpl. by rewrite zlen_insert. }
  unfold state_at. rewrite Ho. change (next (set_unacked s _)) with (next s). simpl.
  destruct (Z.leb_spec (next s) k); [done|]. destruct (Z.ltb_spec k (oldest s)); [done|].
  destruct (decide (Z.to_nat (k - oldest s) = i)) as [->|Hne].
  - rewrite Hi, list_lookup_insert_eq; [done|]. by eapply lookup_lt_Some.
  - by rewrite list_lookup_insert_ne by done.
Qed.

Lemma SInv_update s (i : nat) st st' :
  SInv s -> unacked s !! i = Some st -> (st' = Acked -> st = Acked) ->
  SInv (set_unacked s (<[i:=st']> (unacked s))).
Proof.
  intros [Hc Hf Hs] Hi Hne. split.
  - apply SCore_set_unacked; [done|]. by rewrite zlen_insert.
  - simpl. destruct (unacked s) as [|st0 u] eqn:E; [done|].
    destruct i; simpl in *; [|done]. intros [= ->]. simplify_eq. by rewrite Hne in Hf.
  - unfold oldest. simpl. rewrite zlen_insert. apply Hs.
Qed.

Lemma good_update s (i : nat) st st' :
  SInv s -> unacked s !! i = Some st -> (st' = Acked -> st = Acked) ->
  rtc pstep (pstate st) (pstate st') ->
  st_packet st' = None \/ st_packet st' = st_packet st ->
  Good s [] (set_unacked s (<[i:=st']> (unacked s))) (given_up st st').
Proof.
  intros HI Hi Hne Hst Hp. split.
  - by eapply SInv_update.
  - intros k. eapply state_at_update; eauto using inv_core.
  - by apply given_up_held.
Qed.

(** Dropping the acknowledged prefix. *)
Lemma state_at_clean s k :
  SCore s -> rtc pstep (state_at s k) (state_at (clean_unacked_queue s) k).
Proof.
  intros Hc. pose proof (core_bounds s Hc) as Hb.
  destruct (clean_unacked_drop (unacked s)) as (n & E & Hn & Ha & _).
  assert (oldest (clean_unacked_queue s) = oldest s + Z.of_nat n) as Ho.
  { unfold oldest, clean_unacked_queue. simpl. rewrite E. unfold zlen. rewrite length_drop.
    change (next (set_unacked s _)) with (next s). lia. }
  unfold state_at. rewrite Ho.
  change (next (clean_unacked_queue s)) with (next s).
  change (unacked (clean_unacked_queue s)) with (clean_unacked_loop (unacked s)).
  rewrite E. ztests; try done.
  - rewrite Ha by lia. apply rtc_once. constructor.
  - rewrite lookup_drop.
    by replace (n + Z.to_nat (k - (oldest s + Z.of_nat n)))%nat
      with (Z.to_nat (k - oldest s)) by lia.
Qed.

Lemma clean_unacked_packets u : omap st_packet (clean_unacked_loop u) = omap st_packet u.
Proof. induction u as [|[] u IH]; simpl; done. Qed.

(** [retire] an entry. *)
Lemma retire_spec s (i : nat) st st' :
  SInv s -> unacked s !! i = Some st -> rtc pstep (pstate st) (pstate st') ->
  st_packet st' = None \/ st_packet st' = st_packet st ->
  exists s', retire s (Z.of_nat i) st' = Ret s' /\ Good s [] s' (given_up st st').
Proof.
  intros HI Hi Hp Hpk. pose proof (inv_core s HI) as Hc.
  set (s1 := set_unacked s (<[i:=st']> (unacked s))).
  set (s2 := if Z.of_nat i =? 0 then clean_unacked_queue s1 else s1).
  assert (SCore s1) as Hc1 by (apply SCore_set_unacked; [done|by rewrite zlen_insert]).
  assert (SCore s2 /\ head (unacked s2) <> Some Acked /\
          (forall k, rtc pstep (state_at s1 k) (state_at s2 k)) /\
          omap st_packet (unacked s2) = omap st_packet (unacked s1) /\
          blocked s2 = blocked s) as (Hc2 & Hf2 & Hl2 & Hu2 & Hb2).
  { unfold s2. destruct (Z.eqb_spec (Z.of_nat i) 0).
    - destruct (clean_unacked_drop (unacked s1)) as (n & E & Hn & _ & Hf).
      split; [|split; [|split; [|split]]]; try done.
      + apply (SCore_set_unacked s1); [done|]. rewrite E. unfold zlen. rewrite length_drop. lia.
      + change (head (clean_unacked_loop (unacked s1)) <> Some Acked). by rewrite E.
      + intros k. by apply state_at_clean.
      + apply clean_unacked_packets.
    - split; [done|]. split; [|done]. unfold s1. simpl.
      pose proof (inv_unacked_front s HI) as Hf.
      destruct (unacked s); [done|]. destruct i; [lia|]. done. }
  destruct (clean_sent_queue_spec s2 Hc2 Hf2) as (q & Eq & HI').
  exists (set_sent s2 q). unfold retire. rewrite Nat2Z.id. fold s1. fold s2.
  split; [done|]. split; [done| |].
  - intros k. change (state_at (set_sent s2 q) k) with (state_at s2 k).
    etrans; [|apply Hl2]. by eapply state_at_update.
  - unfold held. simpl. rewrite Hu2, Hb2. unfold s1. simpl.
    apply given_up_held; done.
Qed.

(** Every identifier is newer than the queue, older than it, or at an index. *)
Lemma locate {A} (l : list A) off :
  zlen l < 2 ^ 63 -> - 2 ^ 63 < off ->
  0 < off \/
  (off <= 0 /\ beyond (zlen l) off = true /\ zlen l <= - off) \/
  (exists (i : nat) x, off <= 0 /\ beyond (zlen l) off = false /\
     slot (zlen l) off = Z.of_nat i /\ l !! i = Some x /\ index l (Z.of_nat i) = Ret x /\
     Z.of_nat i = zlen l + off - 1).
Proof.
  intros Hl Ho. pose proof (zlen_nonneg l).
  destruct (Z_lt_le_dec 0 off); [by left|]. right.
  destruct (Z_lt_le_dec (- off) (zlen l)) as [Hlt|Hge].
  - right. destruct (index_lt l (zlen l + off - 1)) as [x Hx]; [lia|].
    exists (Z.to_nat (zlen l + off - 1)), x. rewrite slot_eq, Z2Nat.id by lia.
    rewrite beyond_false by lia. repeat split; try done. by apply index_ret in Hx as [_ ?].
  - left. split; [done|]. split; [apply beyond_iff|]; lia.
Qed.

(** The three cases for a sequence number, on the sent queue. *)
Lemma locate_unacked s sn :
  SCore s -> offset_of sn (last_sent s) <> - 2 ^ 63 ->
  let off := offset_of sn (last_sent s) in
  0 < off \/
  (off <= 0 /\ beyond (zlen (unacked s)) off = true /\ zlen (unacked s) <= - off) \/
  (exists (i : nat) x, off <= 0 /\ beyond (zlen (unacked s)) off = false /\
     slot (zlen (unacked s)) off = Z.of_nat i /\ unacked s !! i = Some x /\
     index (unacked s) (Z.of_nat i) = Ret x /\ Z.of_nat i = zlen (unacked s) + off - 1).
Proof.
  intros Hc Hm off. pose proof (core_bounds s Hc). unfold LIMIT in *.
  apply locate; [lia|]. pose proof (offset_range sn (last_sent s)). lia.
Qed.

(** The same on the queue of blocked packets. *)
Lemma locate_blocked s id :
  SCore s -> offset_of id (last_enqueued s) <> - 2 ^ 63 ->
  let off := offset_of id (last_enqueued s) in
  0 < off \/
  (off <= 0 /\ beyond (zlen (blocked s)) off = true /\ zlen (blocked s) <= - off) \/
  (exists (i : nat) x, off <= 0 /\ beyond (zlen (blocked s)) off = false /\
     slot (zlen (blocked s)) off = Z.of_nat i /\ blocked s !! i = Some x /\
     index (blocked s) (Z.of_nat i) = Ret x /\ Z.of_nat i = zlen (blocked s) + off - 1).
Proof.
  intros Hc Hm off. pose proof (core_queues s Hc). pose proof (zlen_nonneg (sent s)).
  unfold LIMIT in *. apply locate; [lia|]. pose proof (offset_range id (last_enqueued s)). lia.
Qed.

End props.

(** Case analysis on where a sequence number is, for a goal that computes its
    offset. *)
Ltac locate_sn Hc Hm :=
  let Hpos := fresh "Hpos" in let i := fresh "i" in let st := fresh "st" in
  destruct (locate_unacked _ _ Hc Hm)
    as [Hpos|[(Hpos & Hby & Hold)|(i & st & Hpos & Hby & Hslot & Hi & Hidx & Hio)]];
  cbv zeta in *; try rewrite Hby; try rewrite Hslot;
  [rewrite (proj2 (Z.ltb_lt _ _)) by done
  |rewrite (proj2 (Z.ltb_ge _ _)) by done
  |rewrite (proj2 (Z.ltb_ge _ _)) by done; simpl; try rewrite Hidx; simpl].

Section operations.
Context {Pkt : Type}.
Implicit Types (s : Sender Pkt) (u : list (UnackedState Pkt)) (b : list (BlockedState Pkt)).

Lemma good_refl s : SInv s -> Good s [] s [].
Proof. intros H. by split. Qed.

(** ** Every operation is good *)

Lemma process_ack_good s sn :
  SInv s -> offset_of sn (last_sent s) <> - 2 ^ 63 ->
  exists s' p ws, process_ack s sn = Ret (s', p, ws) /\ Good s [] s' (option_list p).
Proof.
  intros HI Hm. pose proof (inv_core s HI) as Hc. unfold process_ack, lookup_ack_index.
  locate_sn Hc Hm.
  - do 3 eexists. split; [done|]. by apply good_set_stats.
  - do 3 eexists. split; [done|]. by apply good_set_stats.
  - destruct st as [p w l c f|w f| |].
    + destruct (retire_spec s i _ Acked HI Hi) as (s' & E & HG);
        [apply rtc_once; constructor|by left|].
      rewrite E. simpl. do 3 eexists. split; [done|]. exact HG.
    + destruct (retire_spec s i _ Acked HI Hi) as (s' & E & HG);
        [apply rtc_once; constructor|by left|].
      rewrite E. simpl. do 3 eexists. split; [done|]. exact HG.
    + do 3 eexists. split; [done|]. by apply good_set_stats.
    + do 3 eexists. split; [done|]. by apply good_set_stats.
Qed.

Lemma process_canceled_good s sn :
  SInv s -> offset_of sn (last_sent s) <> - 2 ^ 63 ->
  exists s' ws, process_canceled s sn = Ret (s', ws) /\ Good s [] s' [].
Proof.
  intros HI Hm. pose proof (inv_core s HI) as Hc. unfold process_canceled, lookup_ack_index.
  locate_sn Hc Hm.
  - do 2 eexists. split; [done|]. by apply good_set_stats.
  - do 2 eexists. split; [done|]. by apply good_set_stats.
  - destruct st as [p w l c f|w f| |];
      try (do 2 eexists; split; [done|]; by apply good_set_stats).
    destruct (retire_spec s i _ (if f then Acked else CancelAcked) HI Hi) as (s' & E & HG);
      [destruct f; apply rtc_once; constructor|left; by destruct f|].
    rewrite E. simpl. do 2 eexists. split; [done|].
    unfold given_up in HG. by destruct f.
Qed.

Lemma cancel_sent_good s sn :
  SInv s -> offset_of sn (last_sent s) <> - 2 ^ 63 ->
  exists s' p, cancel_sent_packet s sn = Ret (s', p) /\ Good s [] s' (option_list p).
Proof.
  intros HI Hm. pose proof (inv_core s HI) as Hc. unfold cancel_sent_packet.
  locate_sn Hc Hm.
  - do 2 eexists. split; [done|]. by apply good_refl.
  - do 2 eexists. split; [done|]. by apply good_refl.
  - rewrite Nat2Z.id.
    destruct st as [p w l c f|w f| |]; simpl; do 2 eexists; (split; [done|]).
    + apply (good_update s i _ (CancelRequested w f) HI Hi); [done| |by left].
      apply rtc_once. constructor.
    + by apply (good_update s i _ (CancelRequested w f) HI Hi); [|done|left].
    + by apply (good_update s i _ Acked HI Hi); [|done|left].
    + by apply (good_update s i _ CancelAcked HI Hi); [|done|left].
Qed.

Lemma limit_sn_good s sn l :
  SInv s -> offset_of sn (last_sent s) <> - 2 ^ 63 ->
  exists s', limit_retries_by_seq_num s sn l = Ret s' /\ Good s [] s' [].
Proof.
  intros HI Hm. pose proof (inv_core s HI) as Hc. unfold limit_retries_by_seq_num.
  locate_sn Hc Hm.
  - eexists. split; [done|]. by apply good_refl.
  - eexists. split; [done|]. by apply good_refl.
  - rewrite Nat2Z.id. eexists. split; [done|].
    assert (given_up st (st_limit_retries l st) = []) as Hg by (by destruct st).
    epose proof (good_update s i st (st_limit_retries l st) HI Hi) as HG. rewrite Hg in HG.
    apply HG; destruct st; simpl; auto; done.
Qed.

Lemma forget_good s sn :
  SInv s -> offset_of sn (last_sent s) <> - 2 ^ 63 ->
  exists s', forget_canceled_packet s sn = Ret s' /\ Good s [] s' [].
Proof.
  intros HI Hm. pose proof (inv_core s HI) as Hc. unfold forget_canceled_packet.
  locate_sn Hc Hm.
  - eexists. split; [done|]. by apply good_refl.
  - eexists. split; [done|]. by apply good_refl.
  - destruct (retire_spec s i st (st_forget st) HI Hi) as (s' & E & HG).
    + destruct st as [? ? [] ? ?|? ?| |]; simpl; try done. apply rtc_once. constructor.
    + destruct st as [? ? [] ? ?|? ?| |]; simpl; auto.
    + exists s'. split; [exact E|].
      assert (given_up st (st_forget st) = []) as Hg by (by destruct st as [? ? [] ? ?|? ?| |]).
      by rewrite Hg in HG.
Qed.

(** *** Pushing a packet onto the sent queue *)

Lemma wrap_next x : 0 <= x < LIMIT -> wrapping_add 64 (wrap 64 (x - 1)) 1 = x.
Proof.
  unfold LIMIT. intros Hx. rewrite seq_add. replace (x - 1 + 1) with x by lia.
  apply wrap_small. lia.
Qed.

Lemma wrap_next_next x : 0 <= x < LIMIT -> wrapping_add 64 x 1 = x + 1.
Proof. unfold LIMIT, wrapping_add. intros Hx. apply wrap_small. lia. Qed.

(** The sender after [packet] took the next sequence number. *)
Definition pushed s (packet : Pkt) (limit : option Z) b q : Sender Pkt :=
  mkSender (window_size s) (wrapping_add 64 (last_sent s) 1)
    (unacked s ++ [Unacked packet noop limit 0 false]) (last_enqueued s) b q (stats s).

Lemma pushed_next s p l b q :
  SCore s -> next s < LIMIT -> next (pushed s p l b q) = next s + 1.
Proof.
  intros Hc Hn. pose proof (core_bounds s Hc). unfold next. simpl.
  fold (next s). apply wrap_next_next. lia.
Qed.

Lemma pushed_oldest s p l b q :
  SCore s -> next s < LIMIT -> oldest (pushed s p l b q) = oldest s.
Proof.
  intros Hc Hn. unfold oldest. rewrite pushed_next by done. simpl. rewrite zlen_app.
  unfold zlen at 2. simpl. lia.
Qed.

Lemma state_at_pushed s p l b q k :
  SCore s -> next s < LIMIT -> rtc pstep (state_at s k) (state_at (pushed s p l b q) k).
Proof.
  intros Hc Hn. pose proof (core_bounds s Hc) as Hb.
  unfold state_at. rewrite pushed_next, pushed_oldest by done. simpl.
  destruct (Z.leb_spec (next s + 1) k), (Z.leb_spec (next s) k); try lia; try done.
  - destruct (Z.ltb_spec k (oldest s)).
    { unfold oldest in *. pose proof (zlen_nonneg (unacked s)). lia. }
    assert (k = next s) as -> by lia.
    replace (Z.to_nat (next s - oldest s)) with (length (unacked s))
      by (unfold oldest, zlen; lia).
    rewrite list_lookup_middle by done. apply rtc_once. constructor.
  - destruct (Z.ltb_spec k (oldest s)); [done|].
    rewrite lookup_app_l; [done|]. unfold oldest, zlen in *. lia.
Qed.

Lemma SCore_pushed s p l b q :
  SCore s -> next s < LIMIT ->
  zlen b + zlen q <= nextq s -> StronglySorted Z.lt (somes q) ->
  Forall (fun k => 0 <= k < next s + 1) (somes q) -> head b <> Some Canceled ->
  SCore (pushed s p l b q).
Proof.
  intros Hc Hn Hq Hs Hf Hb. pose proof (core_len s Hc). pose proof (core_bounds s Hc).
  pose proof (core_queues s Hc).
  split; try rewrite pushed_next by done; simpl; try done; try apply Hc.
  - change (wrapping_add 64 (last_sent s) 1) with (next s). rewrite Z.add_simpl_r.
    symmetry. apply wrap_small. unfold LIMIT in *. lia.
  - rewrite zlen_app. unfold zlen at 2. simpl. lia.
  - change (nextq (pushed s p l b q)) with (nextq s). lia.
Qed.

Lemma pushed_front s p l b q :
  head (unacked s) <> Some Acked -> head (unacked (pushed s p l b q)) <> Some Acked.
Proof. simpl. by destruct (unacked s). Qed.

Lemma enqueue_good s p :
  SInv s -> next s < LIMIT -> nextq s < LIMIT -> Good s [p] (enqueue_packet s p).1 [].
Proof.
  intros HI Hn Hq. pose proof (inv_core s HI) as Hc. pose proof (core_queues s Hc).
  unfold enqueue_packet. destruct (is_blocked s || has_blocked_packets s) eqn:E; simpl.
  - split.
    + split; [split|apply HI|apply HI]; simpl; try apply Hc.
      * unfold nextq. simpl. fold (nextq s).
        pose proof (zlen_nonneg (blocked s)). pose proof (zlen_nonneg (sent s)).
        rewrite wrap_next_next, Z.add_simpl_r by lia. symmetry. apply wrap_small.
        unfold LIMIT in *. lia.
      * unfold nextq. simpl. fold (nextq s).
        pose proof (zlen_nonneg (blocked s)). pose proof (zlen_nonneg (sent s)).
        rewrite wrap_next_next, zlen_app by lia. unfold zlen at 2. simpl. lia.
      * pose proof (core_blocked_front s Hc). by destruct (blocked s).
    + done.
    + unfold held. simpl. rewrite omap_app. simpl. solve_Permutation.
  - change (Good s [p] (pushed s p None (blocked s) (sent s)) []). split.
    + split.
      * apply SCore_pushed; try done; try apply Hc.
        eapply list.Forall_impl; [apply (core_sent s Hc)|]. simpl. lia.
      * apply pushed_front, HI.
      * rewrite pushed_oldest by done. apply HI.
    + intros k. by apply state_at_pushed.
    + unfold held. simpl. rewrite omap_app. simpl. solve_Permutation.
Qed.

Lemma StronglySorted_snoc (l : list Z) x :
  StronglySorted Z.lt l -> Forall (fun y => y < x) l -> StronglySorted Z.lt (l ++ [x]).
Proof.
  induction l as [|y l IH]; intros Hs Hf; simpl.
  - constructor; constructor.
  - apply StronglySorted_inv in Hs as [Hs Hy]. apply list.Forall_cons in Hf as [Hyx Hf].
    constructor; [by apply IH|]. apply Forall_app. split; [done|]. by constructor.
Qed.

(** Cleaning [blocked] keeps everything but the position of the boundary
    between [blocked] and [sent]. *)
Lemma clean_blocked_queue_spec s :
  exists n, clean_blocked_queue s =
      set_sent (set_blocked s (drop n (blocked s))) (sent s ++ replicate n None) /\
    (n <= length (blocked s))%nat /\ head (drop n (blocked s)) <> Some Canceled /\
    omap bl_packet (drop n (blocked s)) = omap bl_packet (blocked s).
Proof.
  destruct (clean_blocked_spec (blocked s) (sent s)) as (n & E & Hn & Ht & Hh).
  exists n. unfold clean_blocked_queue. rewrite E. repeat split; try done.
  rewrite <- (take_drop n (blocked s)) at 2. rewrite omap_app, Ht.
  generalize (omap bl_packet (drop n (blocked s))). clear. intros l.
  by induction n.
Qed.

(** The invariant but for the front of [blocked], which cleaning restores. *)
Lemma good_clean_blocked s0 taken s back :
  (SInv (set_blocked s []) /\ zlen (blocked s) + zlen (sent s) <= nextq s) ->
  (forall k, rtc pstep (state_at s0 k) (state_at s k)) ->
  taken ++ held s0 ≡ₚ back ++ held s ->
  Good s0 taken (clean_blocked_queue s) back.
Proof.
  intros [HI Hlen] Hl Hh.
  destruct (clean_blocked_queue_spec s) as (n & -> & Hn & Hf & Hp).
  split.
  - destruct HI as [Hc Hu Hw]. split; [split|exact Hu|]; simpl.
    + apply (core_window _ Hc).
    + apply (core_last_sent _ Hc).
    + apply (core_len _ Hc).
    + apply (core_last_enqueued _ Hc).
    + pose proof (core_queues _ Hc) as Hcq. simpl in Hcq.
      change (nextq (set_sent _ _)) with (nextq s). change (nextq (set_blocked s [])) with (nextq s) in Hcq.
      rewrite zlen_app. unfold zlen in *. rewrite length_drop, length_replicate. lia.
    + rewrite somes_app, somes_replicate, app_nil_r. apply (core_sorted _ Hc).
    + rewrite somes_app, somes_replicate, app_nil_r. apply (core_sent _ Hc).
    + exact Hf.
    + rewrite somes_app, somes_replicate, app_nil_r. apply Hw.
  - intros k. change (state_at (set_sent _ _) k) with (state_at s k). apply Hl.
  - rewrite Hh. unfold held. simpl. by rewrite Hp.
Qed.

Lemma SInv_drop_blocked s : SInv s -> SInv (set_blocked s []).
Proof.
  intros [[] ? ?]. split; [split|done|done]; simpl; try done.
  change (nextq (set_blocked s [])) with (nextq s).
  pose proof (zlen_nonneg (blocked s)). unfold zlen at 1. simpl. lia.
Qed.

Lemma unblock_good s :
  SInv s -> unblock_needed s = true -> next s < LIMIT ->
  exists s' sn p ws, enqueue_next_blocked_packet s = Ret (s', sn, p, ws) /\ Good s [] s' [].
Proof.
  intros HI Hu Hn. pose proof (inv_core s HI) as Hc. pose proof (core_queues s Hc) as Hq.
  unfold unblock_needed, has_blocked_packets in Hu. apply andb_true_iff in Hu as [Hb Hne].
  unfold enqueue_next_blocked_packet. rewrite Hb. simpl.
  pose proof (core_blocked_front s Hc) as Hfront.
  destruct (blocked s) as [|[p w l|] b] eqn:Eb; try done.
  do 4 eexists. split; [done|].
  change (Good s [] (clean_blocked_queue (pushed s p l b (sent s ++ [Some (next s)]))) []).
  assert (somes (sent s ++ [Some (next s)]) = somes (sent s) ++ [next s]) as Hso
    by (by rewrite somes_app).
  apply good_clean_blocked.
  - split.
    + change (SInv (pushed s p l [] (sent s ++ [Some (next s)]))). split.
      * apply SCore_pushed; try done.
        -- rewrite zlen_app. unfold zlen in *. simpl in *. lia.
        -- rewrite Hso. apply StronglySorted_snoc; [apply Hc|].
           eapply list.Forall_impl; [apply (core_sent s Hc)|]. simpl. lia.
        -- pose proof (core_bounds s Hc). rewrite Hso, Forall_app. split.
           ++ eapply list.Forall_impl; [apply (core_sent s Hc)|]. simpl. lia.
           ++ apply Forall_singleton. lia.
      * apply pushed_front, HI.
      * rewrite pushed_oldest by done. simpl. rewrite Hso, Forall_app. split; [apply HI|].
        apply Forall_singleton. pose proof (core_bounds s Hc). unfold oldest. lia.
    + simpl. change (nextq (pushed s p l b _)) with (nextq s). rewrite zlen_app.
      unfold zlen in *. simpl in *. lia.
  - intros k. by apply state_at_pushed.
  - unfold held. simpl. rewrite Eb, omap_app. simpl. solve_Permutation.
Qed.

Lemma held_blocked_insert s (i : nat) st st' :
  blocked s !! i = Some st -> bl_packet st' = None \/ bl_packet st' = bl_packet st ->
  held s ≡ₚ (match bl_packet st' with Some _ => [] | None => option_list (bl_packet st) end)
              ++ held (set_blocked s (<[i:=st']> (blocked s))).
Proof.
  intros Hi Hp. unfold held. simpl. destruct Hp as [Hp|Hp].
  - rewrite Hp. pose proof (omap_insert_Permutation bl_packet (blocked s) i st st' Hi) as HP.
    rewrite Hp in HP. simpl in HP. rewrite HP. solve_Permutation.
  - rewrite (omap_insert_same bl_packet (blocked s) i st st') by done.
    destruct (bl_packet st') eqn:E; [done|]. by rewrite <- Hp.
Qed.

(** Replacing an entry of [blocked] by one that is still blocked. *)
Lemma good_blocked_update s (i : nat) st st' :
  SInv s -> blocked s !! i = Some st -> bl_packet st' = bl_packet st ->
  Good s [] (set_blocked s (<[i:=st']> (blocked s))) [].
Proof.
  intros HI Hi Hp. pose proof (inv_core s HI) as Hc. split.
  - split; [split|apply HI|apply HI]; simpl; try apply Hc.
    + rewrite zlen_insert. apply (core_queues s Hc).
    + pose proof (core_blocked_front s Hc) as Hf. destruct (blocked s) as [|x b]; [done|].
      destruct i; [|done]. simpl in *. intros [= ->]. simplify_eq. by destruct st.
  - done.
  - rewrite (held_blocked_insert s i st st' Hi) at 1 by auto.
    rewrite Hp. by destruct st.
Qed.

Lemma cancel_queued_good s id :
  SInv s -> offset_of id (last_enqueued s) <> - 2 ^ 63 -> offset_of id (last_enqueued s) <= 0 ->
  exists s' p ws, cancel_queued_packet s id = Ret (s', p, ws) /\ Good s [] s' (option_list p).
Proof.
  intros HI Hm H0. pose proof (inv_core s HI) as Hc. unfold cancel_queued_packet.
  rewrite (proj2 (Z.leb_le _ 0) H0). simpl.
  destruct (locate_blocked s id Hc Hm) as [?|[(_ & -> & _)|(i & st & _ & -> & -> & Hi & Hidx & _)]];
    [lia| |].
  - do 3 eexists. split; [done|]. by apply good_refl.
  - rewrite Hidx. simpl. destruct st as [p w l|]; simpl.
    2:{ do 3 eexists. split; [done|]. by apply good_refl. }
    rewrite Nat2Z.id. set (s1 := set_blocked s (<[i:=Canceled]> (blocked s))).
    assert (Good s [] (clean_blocked_queue s1) [p] /\ (i <> 0%nat -> Good s [] s1 [p]))
      as [Hclean Hkeep].
    { pose proof (held_blocked_insert s i _ Canceled Hi (or_introl eq_refl)) as Hheld.
      split.
      - apply good_clean_blocked; [|done|done].
        split; [apply (SInv_drop_blocked s HI)|]. simpl. rewrite zlen_insert.
        apply (core_queues s Hc).
      - intros Hi0. split; [|done|done].
        split; [split|apply HI|apply HI]; simpl; try apply Hc.
        + rewrite zlen_insert. apply (core_queues s Hc).
        + pose proof (core_blocked_front s Hc) as Hf. by destruct (blocked s), i. }
    do 3 eexists. split; [done|]. simpl.
    destruct (Z.eqb_spec (Z.of_nat i) 0); [done|]. apply Hkeep. lia.
Qed.

Lemma age_pstate st : rtc pstep (pstate st) (pstate (@st_age_retries Pkt st).1).
Proof.
  destruct st as [p w [l|] c f|w f| |]; simpl; try done.
  destruct (l <=? c); simpl; [|done]. apply rtc_once. constructor.
Qed.

Lemma age_held u (rest : list Pkt) :
  omap st_packet u ++ rest ≡ₚ
  omap (fun st => (st_age_retries st).2) u ++
  omap st_packet (map (fun st => (st_age_retries st).1) u) ++ rest.
Proof.
  induction u as [|st u IH]; simpl; [done|].
  destruct st as [p w [l|] c f|w f| |]; simpl; try done.
  - destruct (l <=? c); simpl; rewrite IH; solve_Permutation.
  - rewrite IH. solve_Permutation.
Qed.

Lemma age_good s : SInv s -> Good s [] (age_retries s).1 (age_retries s).2.
Proof.
  intros HI. pose proof (inv_core s HI) as Hc. unfold age_retries. simpl.
  set (u' := map _ _).
  assert (zlen u' = zlen (unacked s)) as Hlen by (unfold u', zlen; by rewrite length_map).
  split.
  - split.
    + apply SCore_set_unacked; [done|lia].
    + pose proof (inv_unacked_front s HI). unfold u'. simpl.
      destruct (unacked s) as [|[p w [l|] c f|w f| |] u]; try done.
      simpl. by destruct (l <=? c).
    + unfold oldest. simpl. rewrite Hlen. apply HI.
  - intros k. unfold state_at, oldest. simpl. rewrite Hlen.
    change (next (set_unacked s u')) with (next s).
    destruct (_ <=? _); [done|]. destruct (_ <? _); [done|].
    unfold u'. rewrite list_lookup_fmap. destruct (unacked s !! _); simpl; [|done].
    apply age_pstate.
  - apply age_held.
Qed.

Lemma adjust_good s w :
  SInv s -> 1 <= w -> exists s', adjust_window_size s w = Ret s' /\ Good s [] s' [].
Proof.
  intros HI Hw. unfold adjust_window_size. rewrite (proj2 (Z.leb_le 1 w) Hw). simpl.
  eexists. split; [done|]. destruct HI as [[] ? ?].
  split; [split; [split|done|done]|done|done]; simpl; try done.
  unfold MAX_WINDOW_SIZE, U64_MAX. lia.
Qed.

Lemma poll_ack_good cx s sn :
  SInv s -> offset_of sn (last_sent s) <> - 2 ^ 63 -> offset_of sn (last_sent s) <= 0 ->
  exists s' r, poll_ack cx s sn = Ret (s', r) /\ Good s [] s' [].
Proof.
  intros HI Hm H0. pose proof (inv_core s HI) as Hc. unfold poll_ack.
  rewrite (proj2 (Z.leb_le _ 0) H0). simpl.
  destruct (locate_unacked s sn Hc Hm) as [?|[(_ & -> & _)|(i & st & _ & -> & -> & Hi & Hidx & _)]];
    [lia| |].
  - do 2 eexists. split; [done|]. by apply good_refl.
  - rewrite Hidx. simpl. rewrite Nat2Z.id.
    destruct st as [p w l c f|w f| |]; do 2 eexists; (split; [done|]); try (by apply good_refl).
    + by apply (good_update s i _ (Unacked p cx l c f) HI Hi); [|done|right].
    + by apply (good_update s i _ (CancelRequested cx f) HI Hi); [|done|right].
Qed.

(** [lookup_seq_num] of a packet that left the blocked queue. *)
Lemma lookup_total s id :
  SInv s -> offset_of id (last_enqueued s) <> - 2 ^ 63 ->
  zlen (blocked s) <= - offset_of id (last_enqueued s) ->
  exists o, lookup_seq_num s id = Ret o /\ forall sn, o = Some sn -> sn ∈ somes (sent s).
Proof.
  intros HI Hm Hb. pose proof (inv_core s HI) as Hc. pose proof (core_queues s Hc).
  pose proof (zlen_nonneg (blocked s)). pose proof (zlen_nonneg (sent s)).
  pose proof (offset_range id (last_enqueued s)). unfold LIMIT in *.
  unfold lookup_seq_num, i64_add. rewrite (as_i64_small (zlen (blocked s))) by lia.
  rewrite as_i64_small by lia.
  set (off := offset_of id (last_enqueued s) + zlen (blocked s)).
  rewrite (proj2 (Z.leb_le off 0)) by lia. simpl.
  destruct (locate (sent s) off) as [?|[(_ & -> & _)|(i & o & _ & -> & -> & Hi & Hidx & _)]];
    [lia|lia|lia| |].
  - exists None. by split.
  - exists o. split; [exact Hidx|]. intros sn ->. apply list_elem_of_omap.
    exists (Some sn). split; [|done]. by eapply list_elem_of_lookup_2.
Qed.

Lemma limit_id_good s id l :
  SInv s -> offset_of id (last_enqueued s) <> - 2 ^ 63 -> offset_of id (last_enqueued s) <= 0 ->
  exists s', limit_retries_by_id s id l = Ret s' /\ Good s [] s' [].
Proof.
  intros HI Hm H0. pose proof (inv_core s HI) as Hc. unfold limit_retries_by_id.
  rewrite (proj2 (Z.leb_le _ 0) H0). simpl.
  destruct (locate_blocked s id Hc Hm) as [?|[(_ & -> & Hold)|(i & st & _ & -> & -> & Hi & Hidx & _)]];
    [lia| |].
  - destruct (lookup_total s id HI Hm Hold) as ([sn|] & -> & Hsn); simpl.
    + apply limit_sn_good; [done|].
      pose proof (core_sent s Hc) as Hf. rewrite list.Forall_forall in Hf.
      specialize (Hf sn (Hsn sn eq_refl)). pose proof (core_bounds s Hc). simpl in Hf.
      rewrite (core_last_sent s Hc), offset_near by lia. unfold LIMIT in *. lia.
    + eexists. split; [done|]. by apply good_refl.
  - rewrite Hidx. simpl. rewrite Nat2Z.id. eexists. split; [done|].
    apply (good_blocked_update s i st); [done|done|]. by destruct st.
Qed.

Lemma poll_send_good cx s id :
  SInv s -> offset_of id (last_enqueued s) <> - 2 ^ 63 -> offset_of id (last_enqueued s) <= 0 ->
  poll_send cx s id = Panic \/
  exists s' r, poll_send cx s id = Ret (s', r) /\ Good s [] s' [].
Proof.
  intros HI Hm H0. pose proof (inv_core s HI) as Hc. unfold poll_send.
  rewrite (proj2 (Z.leb_le _ 0) H0). simpl.
  destruct (locate_blocked s id Hc Hm) as [?|[(_ & -> & Hold)|(i & st & _ & -> & -> & Hi & Hidx & _)]];
    [lia| |].
  - destruct (lookup_total s id HI Hm Hold) as (o & -> & _). simpl. right.
    do 2 eexists. split; [done|]. by apply good_refl.
  - rewrite Hidx. simpl. destruct st as [p w l|]; [|by left]. right. rewrite Nat2Z.id.
    do 2 eexists. split; [done|]. by apply (good_blocked_update s i (Blocked p w l)).
Qed.

End operations.
End TxProps.
