(* ===== verification/ZdprSenderThms.v ===== *)
(** * What a reliable ZDP sender guarantees

    The operations of [Tx.Sender] as one labelled transition function, runs of
    it, and the theorems about every run: no panic and the invariant, the
    packet life cycle, conservation, first-in first-out transmission within
    the window, retransmission, retry limits and acknowledgement. *)
From Stdlib Require Import ZArith Lia.
From stdpp Require Import base tactics option list gmap functions sorting relations.
From S2P Require Import Prelude ZdprSender ZdprSenderProps.
Import Tx TxProps.

Local Open Scope Z_scope.

Module TxThms.

Section ops.
Context {Pkt : Type}.
Implicit Types (s : Sender Pkt).

(** ** Operations as labels *)
Inductive Op :=
| OEnqueue (p : Pkt)
| OUnblock
| OAck (sn : Z)
| OCanceled (sn : Z)
| OCancelQueued (id : Z)
| OCancelSent (sn : Z)
| OLimitSeqNum (sn limit : Z)
| OLimitId (id limit : Z)
| OForget (sn : Z)
| OAge
| OAdjust (w : Z)
| OPollSend (cx : Waker) (id : Z)
| OPollAck (cx : Waker) (sn : Z)
| OStat (st : SenderStat).

(** The state after an operation, the packets handed back to the caller, and
    the packets handed over for their first transmission. *)
Record Res := mkRes { r_s : Sender Pkt; r_back : list Pkt; r_tx : list (Z * Pkt) }.

Definition exec s (op : Op) : outcome Res :=
  match op with
  | OEnqueue p =>
      mret (match enqueue_packet s p with
            | (s', Sent sn p) => mkRes s' [] [(sn, p)]
            | (s', Queued _) => mkRes s' [] []
            end)
  | OUnblock =>
      '(s', sn, p, _) ← enqueue_next_blocked_packet s; mret (mkRes s' [] [(sn, p)])
  | OAck sn => '(s', p, _) ← process_ack s sn; mret (mkRes s' (option_list p) [])
  | OCanceled sn => '(s', _) ← process_canceled s sn; mret (mkRes s' [] [])
  | OCancelQueued id =>
      '(s', p, _) ← cancel_queued_packet s id; mret (mkRes s' (option_list p) [])
  | OCancelSent sn => '(s', p) ← cancel_sent_packet s sn; mret (mkRes s' (option_list p) [])
  | OLimitSeqNum sn l => s' ← limit_retries_by_seq_num s sn l; mret (mkRes s' [] [])
  | OLimitId id l => s' ← limit_retries_by_id s id l; mret (mkRes s' [] [])
  | OForget sn => s' ← forget_canceled_packet s sn; mret (mkRes s' [] [])
  | OAge => let '(s', ps) := age_retries s in mret (mkRes s' ps [])
  | OAdjust w => s' ← adjust_window_size s w; mret (mkRes s' [] [])
  | OPollSend cx id => '(s', _) ← poll_send cx s id; mret (mkRes s' [] [])
  | OPollAck cx sn => '(s', _) ← poll_ack cx s sn; mret (mkRes s' [] [])
  | OStat st => mret (mkRes (fetch_reset_stat s st).1 [] [])
  end.

Definition taken (op : Op) : list Pkt := match op with OEnqueue p => [p] | _ => [] end.

(** An identifier names a packet already queued, as the assertions of the code
    demand. *)
Definition id_ok s (id : Z) : Prop := - 2 ^ 63 < offset_of id (last_enqueued s) <= 0.

(** When each operation may be called. *)
Definition op_ok s (op : Op) : Prop :=
  match op with
  | OEnqueue _ => next s < LIMIT /\ nextq s < LIMIT
  | OUnblock => unblock_needed s = true /\ next s < LIMIT
  | OAck sn | OCanceled sn | OCancelSent sn | OLimitSeqNum sn _ | OForget sn =>
      offset_of sn (last_sent s) <> - 2 ^ 63
  | OCancelQueued id | OLimitId id _ => id_ok s id
  | OPollSend _ id => id_ok s id /\
      (beyond (zlen (blocked s)) (offset_of id (last_enqueued s)) = false ->
       index (blocked s) (slot (zlen (blocked s)) (offset_of id (last_enqueued s)))
         <> Ret Canceled)
  | OPollAck _ sn => - 2 ^ 63 < offset_of sn (last_sent s) <= 0
  | OAdjust w => 1 <= w
  | OAge | OStat _ => True
  end.

(** A run of the sender: the operations in order, each called when it may be. *)
Inductive runs : Sender Pkt -> list Op -> Sender Pkt -> list Pkt -> list (Z * Pkt) -> Prop :=
| runs_nil s : runs s [] s [] []
| runs_cons s op r ops s' back tx :
    op_ok s op -> exec s op = Ret r -> runs (r_s r) ops s' back tx ->
    runs s (op :: ops) s' (r_back r ++ back) (r_tx r ++ tx).

(** The same as a function: the final state and the two logs. *)
Fixpoint run s (ops : list Op) : outcome (Sender Pkt * list Pkt * list (Z * Pkt)) :=
  match ops with
  | [] => mret (s, [], [])
  | op :: ops =>
      r ← exec s op;
      '(s', back, tx) ← run (r_s r) ops;
      mret (s', r_back r ++ back, r_tx r ++ tx)
  end.

Fixpoint ops_ok s (ops : list Op) : Prop :=
  match ops with
  | [] => True
  | op :: ops =>
      op_ok s op /\ match exec s op with Ret r => ops_ok (r_s r) ops | Panic => False end
  end.

Lemma run_runs ops : forall s s' back tx,
  ops_ok s ops -> run s ops = Ret (s', back, tx) -> runs s ops s' back tx.
Proof.
  induction ops as [|op ops IH]; intros s s' back tx Hok E; simpl in *.
  - injection E as <- <- <-. apply runs_nil.
  - destruct Hok as [Hop Hok]. destruct (exec s op) as [r|] eqn:Er; [|done]. simpl in E.
    destruct (run (r_s r) ops) as [[[s1 b1] t1]|] eqn:E1; [|done]. simpl in E.
    injection E as <- <- <-. eapply runs_cons; [done|done|]. by apply IH.
Qed.

(** ** One step *)

Lemma enqueue_exec s p :
  exists r, exec s (OEnqueue p) = Ret r /\ r_s r = (enqueue_packet s p).1 /\ r_back r = [].
Proof.
  simpl. eexists. split; [done|].
  by destruct (enqueue_packet s p) as [s' [sn q|id]].
Qed.

Lemma poll_send_not_panic cx s id :
  SInv s -> op_ok s (OPollSend cx id) -> poll_send cx s id <> Panic.
Proof.
  intros HI [[Hlo Hhi] Hnc]. unfold poll_send. rewrite (proj2 (Z.leb_le _ 0) Hhi). simpl.
  assert (offset_of id (last_enqueued s) <> - 2 ^ 63) as Hm by lia.
  destruct (locate_blocked s id (inv_core s HI) Hm)
    as [?|[(_ & Hby & Hold)|(i & st & _ & Hby & Hs & Hi & Hidx & _)]]; [lia| |].
  - rewrite Hby. destruct (lookup_total s id HI Hm Hold) as (o & -> & _). done.
  - rewrite Hby in *. rewrite Hs in *. rewrite Hidx in *. simpl.
    destruct st; [done|]. by destruct (Hnc eq_refl).
Qed.

Lemma exec_good s op :
  SInv s -> op_ok s op ->
  exists r, exec s op = Ret r /\ Good s (taken op) (r_s r) (r_back r).
Proof.
  intros HI Hok. destruct op as [p| |sn|sn|id|sn|sn l|id l|sn| |w|cx id|cx sn|st]; simpl in Hok.
  - destruct (enqueue_exec s p) as (r & E & Hs & Hb). exists r. rewrite Hs, Hb.
    split; [done|]. apply enqueue_good; tauto.
  - destruct (unblock_good s HI) as (s' & sn & p & ws & E & HG); try tauto.
    simpl. rewrite E. by eexists.
  - destruct (process_ack_good s sn HI Hok) as (s' & p & ws & E & HG). simpl. rewrite E. by eexists.
  - destruct (process_canceled_good s sn HI Hok) as (s' & ws & E & HG). simpl. rewrite E. by eexists.
  - destruct Hok. destruct (cancel_queued_good s id HI) as (s' & p & ws & E & HG); [lia|lia|].
    simpl. rewrite E. by eexists.
  - destruct (cancel_sent_good s sn HI Hok) as (s' & p & E & HG). simpl. rewrite E. by eexists.
  - destruct (limit_sn_good s sn l HI Hok) as (s' & E & HG). simpl. rewrite E. by eexists.
  - destruct Hok. destruct (limit_id_good s id l HI) as (s' & E & HG); [lia|lia|].
    simpl. rewrite E. by eexists.
  - destruct (forget_good s sn HI Hok) as (s' & E & HG). simpl. rewrite E. by eexists.
  - eexists. split; [done|]. by apply age_good.
  - destruct (adjust_good s w HI Hok) as (s' & E & HG). simpl. rewrite E. by eexists.
  - destruct (poll_send_good cx s id HI) as [E|(s' & r & E & HG)];
      [destruct Hok as [[] _]; lia|destruct Hok as [[] _]; lia| |].
    + by destruct (poll_send_not_panic cx s id HI Hok).
    + simpl. rewrite E. by eexists.
  - destruct Hok. destruct (poll_ack_good cx s sn HI) as (s' & r & E & HG); [lia|lia|].
    simpl. rewrite E. by eexists.
  - eexists. split; [done|]. by apply good_set_stats.
Qed.

(** ** The frame of each step: what happens to the window and the order *)

Definition waiting s : list Pkt := omap bl_packet (blocked s).

Record Frame s (taken : list Pkt) s' (tx : list (Z * Pkt)) : Prop := {
  fr_seq : tx.*1 = seqZ (next s) (zlen tx);
  fr_next : next s' = next s + zlen tx;
  fr_order : tx.*2 ++ waiting s' `sublist_of` waiting s ++ taken;
  fr_open : tx <> [] -> zlen (unacked s) < window_size s;
  fr_len : zlen (unacked s') <= zlen (unacked s) + zlen tx;
  fr_one : zlen tx <= 1
}.

Lemma frame_same s s' :
  last_sent s' = last_sent s -> zlen (unacked s') <= zlen (unacked s) ->
  waiting s' `sublist_of` waiting s -> Frame s [] s' [].
Proof.
  intros Hl Hu Hb. split; try done.
  - unfold next. rewrite Hl. unfold zlen. simpl. lia.
  - by rewrite app_nil_r.
  - unfold zlen in *. simpl. lia.
Qed.

Lemma clean_sent_frame s s' : clean_sent_queue s = Ret s' -> s' = set_sent s (sent s').
Proof.
  unfold clean_sent_queue. destruct (clean_sent_loop s (sent s)); [|done]. simpl.
  by intros [= <-].
Qed.

Lemma clean_unacked_len (u : list (UnackedState Pkt)) : zlen (clean_unacked_loop u) <= zlen u.
Proof.
  induction u as [|[]]; simpl; try lia. unfold zlen in *. simpl. lia.
Qed.

Lemma retire_frame s idx st' s' : retire s idx st' = Ret s' -> Frame s [] s' [].
Proof.
  unfold retire. intros E%clean_sent_frame. rewrite E. clear E.
  destruct (idx =? 0); apply frame_same; simpl; try done; try (by rewrite zlen_insert).
  etransitivity; [apply clean_unacked_len|]. by rewrite zlen_insert.
Qed.

Lemma frame_bump s s1 st tx : Frame s [] s1 tx -> Frame s [] (bump_stat s1 st) tx.
Proof. intros []. by split. Qed.

Lemma frame_refl s : Frame s [] s [].
Proof. by apply frame_same. Qed.

Lemma waiting_clean b q :
  omap bl_packet (clean_blocked_loop b q).1 = (omap bl_packet b : list Pkt).
Proof. revert q. induction b as [|[] b IH]; intros q; simpl; try done. Qed.

Lemma clean_blocked_frame s :
  last_sent (clean_blocked_queue s) = last_sent s /\
  unacked (clean_blocked_queue s) = unacked s /\
  waiting (clean_blocked_queue s) = waiting s.
Proof.
  unfold clean_blocked_queue, waiting.
  pose proof (waiting_clean (blocked s) (sent s)). by destruct (clean_blocked_loop _ _).
Qed.

Lemma omap_insert_sublist {A B} (f : A -> option B) (l : list A) i x y :
  l !! i = Some x -> f y = None \/ f y = f x -> omap f (<[i:=y]> l) `sublist_of` omap f l.
Proof.
  revert i. induction l as [|z l IH]; intros [|i] Hi Hf; simpl in *; try done.
  - simplify_eq. destruct Hf as [-> | ->]; [|done].
    destruct (f x); [by apply sublist_cons|done].
  - destruct (f z); [apply sublist_skip|]; by apply IH.
Qed.

Lemma frame_blocked_update s i st st' :
  blocked s !! i = Some st -> bl_packet st' = None \/ bl_packet st' = bl_packet st ->
  Frame s [] (set_blocked s (<[i:=st']> (blocked s))) [].
Proof.
  intros Hi Hp. apply frame_same; simpl; [done|lia|].
  unfold waiting. simpl. by eapply omap_insert_sublist.
Qed.

Lemma limit_sn_frame s sn l s' : limit_retries_by_seq_num s sn l = Ret s' -> Frame s [] s' [].
Proof.
  unfold limit_retries_by_seq_num. destruct (_ || _); [intros [= <-]; apply frame_refl|].
  index_inv. intros [= <-]. apply frame_same; simpl; try done. by rewrite zlen_insert.
Qed.

Lemma blocked_push_frame s p id q :
  Frame s [p] (mkSender (window_size s) (last_sent s) (unacked s) id
                 (blocked s ++ [Blocked p noop None]) q (stats s)) [].
Proof.
  split; try done.
  - unfold next, zlen. simpl. lia.
  - unfold waiting. simpl. by rewrite omap_app.
  - unfold zlen. simpl. lia.
Qed.

Lemma pushed_frame s taken p l b q :
  SInv s -> next s < LIMIT -> is_blocked s = false ->
  waiting s ++ taken = p :: omap bl_packet b ->
  Frame s taken (pushed s p l b q) [(next s, p)].
Proof.
  intros HI Hn Hb Hw. pose proof (core_bounds s (inv_core s HI)). split.
  - done.
  - rewrite pushed_next by (done || apply HI). unfold zlen. simpl. lia.
  - by rewrite Hw.
  - intros _. unfold is_blocked in Hb. by apply Z.leb_gt in Hb.
  - simpl. rewrite zlen_app. unfold zlen. simpl. lia.
  - unfold zlen. simpl. lia.
Qed.

Lemma enqueue_frame s p r :
  SInv s -> op_ok s (OEnqueue p) -> exec s (OEnqueue p) = Ret r -> Frame s [p] (r_s r) (r_tx r).
Proof.
  intros HI [Hn _]. simpl. unfold enqueue_packet.
  destruct (is_blocked s || has_blocked_packets s) eqn:E; intros [= <-]; simpl.
  - apply blocked_push_frame.
  - apply orb_false_iff in E as [Hb Hw]. apply pushed_frame; try done.
    unfold waiting, has_blocked_packets in *. by destruct (blocked s).
Qed.

Lemma unblock_frame s r :
  SInv s -> op_ok s OUnblock -> exec s OUnblock = Ret r -> Frame s [] (r_s r) (r_tx r).
Proof.
  intros HI [Hu Hn]. simpl. unfold enqueue_next_blocked_packet, unblock_needed in *.
  destruct (is_blocked s) eqn:Eb; [done|]. simpl.
  destruct (blocked s) as [|[p w l|] b] eqn:Ebl; try done. simpl. intros [= <-]. simpl.
  assert (Frame s [] (pushed s p l b (sent s ++ [Some (next s)])) [(next s, p)]) as [].
  { apply pushed_frame; try done. unfold waiting. rewrite Ebl. simpl. by rewrite app_nil_r. }
  pose proof (clean_blocked_frame (pushed s p l b (sent s ++ [Some (next s)]))) as (Hl & Hu' & Hw).
  unfold pushed, next in *.
  split; unfold next in *; rewrite ?Hl, ?Hu', ?Hw; done.
Qed.

Lemma cancel_queued_frame s id s' p ws :
  cancel_queued_packet s id = Ret (s', p, ws) -> Frame s [] s' [].
Proof.
  unfold cancel_queued_packet. destruct (rust_assert _); [|done]. simpl.
  destruct (beyond _ _); [intros [= <- _ _]; apply frame_refl|].
  index_inv. destruct x as [q w l|]; simpl; [|intros [= <- _ _]; apply frame_refl].
  set (s1 := set_blocked _ _). intros [= <- _ _].
  assert (Frame s [] s1 []) as HF by (eapply frame_blocked_update; [done|by left]).
  destruct (_ =? _); [|done].
  destruct (clean_blocked_frame s1) as (Hl & Hu & Hw).
  destruct HF. split; unfold next in *; rewrite ?Hl, ?Hu, ?Hw; done.
Qed.

Lemma ack_frame s sn s1 o : lookup_ack_index s sn = (s1, o) -> Frame s [] s1 [] /\
  (last_sent s1 = last_sent s /\ unacked s1 = unacked s /\ blocked s1 = blocked s).
Proof.
  unfold lookup_ack_index. destruct (0 <? _); [|destruct (beyond _ _)]; intros [= <- _];
    (split; [|done]); try apply frame_refl; apply frame_bump, frame_refl.
Qed.

Lemma frame_of s s1 s' :
  last_sent s1 = last_sent s /\ unacked s1 = unacked s /\ blocked s1 = blocked s ->
  Frame s1 [] s' [] -> Frame s [] s' [].
Proof.
  intros (Hl & Hu & Hb) []. split; unfold next, waiting in *; rewrite ?Hl, ?Hu, ?Hb in *; try done.
Qed.

Lemma process_ack_frame s sn s' p ws : process_ack s sn = Ret (s', p, ws) -> Frame s [] s' [].
Proof.
  unfold process_ack. destruct (lookup_ack_index s sn) as [s1 [idx|]] eqn:E;
    apply ack_frame in E as [HF Heq]; [|by intros [= <- _ _]].
  destruct (index (unacked s1) idx) as [st|]; [|done]. simpl.
  destruct st; try (intros [= <- _ _]; by apply frame_bump);
    destruct (retire s1 idx Acked) eqn:Er; try done; simpl; intros [= <- _ _];
    eapply frame_of; try done; by eapply retire_frame.
Qed.

Lemma process_canceled_frame s sn s' ws : process_canceled s sn = Ret (s', ws) -> Frame s [] s' [].
Proof.
  unfold process_canceled. destruct (lookup_ack_index s sn) as [s1 [idx|]] eqn:E;
    apply ack_frame in E as [HF Heq]; [|by intros [= <- _]].
  destruct (index (unacked s1) idx) as [st|]; [|done]. simpl.
  destruct st as [| w f| |]; try (intros [= <- _]; by apply frame_bump).
  destruct (retire s1 idx _) eqn:Er; [|done]. simpl. intros [= <- _].
  eapply frame_of; [done|]. by eapply retire_frame.
Qed.

Lemma exec_frame s op r :
  SInv s -> op_ok s op -> exec s op = Ret r -> Frame s (taken op) (r_s r) (r_tx r).
Proof.
  intros HI Hok. destruct op as [p| |sn|sn|id|sn|sn l|id l|sn| |w|cx id|cx sn|st].
  - by apply enqueue_frame.
  - by apply unblock_frame.
  - simpl. destruct (process_ack s sn) as [[[s' p] ws]|] eqn:E; [|done]. intros [= <-].
    by eapply process_ack_frame.
  - simpl. destruct (process_canceled s sn) as [[s' ws]|] eqn:E; [|done]. intros [= <-].
    by eapply process_canceled_frame.
  - simpl. destruct (cancel_queued_packet s id) as [[[s' p] ws]|] eqn:E; [|done]. intros [= <-].
    by eapply cancel_queued_frame.
  - simpl. unfold cancel_sent_packet. destruct (_ || _); [intros [= <-]; apply frame_refl|].
    index_inv. destruct (st_cancel x) as [st' p]. intros [= <-].
    apply frame_same; simpl; try done. by rewrite zlen_insert.
  - simpl. destruct (limit_retries_by_seq_num s sn l) eqn:E; [|done]. intros [= <-].
    by eapply limit_sn_frame.
  - simpl. unfold limit_retries_by_id. destruct (rust_assert _); [|done]. simpl.
    destruct (beyond _ _).
    + destruct (lookup_seq_num s id) as [[sn|]|]; try done; simpl.
      * destruct (limit_retries_by_seq_num s sn l) eqn:E; [|done]. intros [= <-].
        by eapply limit_sn_frame.
      * intros [= <-]. apply frame_refl.
    + index_inv. intros [= <-]. eapply frame_blocked_update; [done|right]. by destruct x.
  - simpl. unfold forget_canceled_packet. destruct (_ || _); [intros [= <-]; apply frame_refl|].
    index_inv. fold (retire s (slot (zlen (unacked s)) (offset_of sn (last_sent s))) (st_forget x)).
    destruct (retire _ _ _) eqn:E; [|done]. intros [= <-]. by eapply retire_frame.
  - intros [= <-]. apply frame_same; simpl; try done. unfold zlen. by rewrite length_map.
  - simpl. unfold adjust_window_size. destruct (rust_assert _); [|done]. intros [= <-].
    by apply frame_same.
  - simpl. unfold poll_send. destruct (rust_assert _); [|done]. simpl. destruct (beyond _ _).
    + destruct (lookup_seq_num s id); [|done]. intros [= <-]. apply frame_refl.
    + index_inv. destruct x; [|done]. intros [= <-].
      eapply frame_blocked_update; [done|by right].
  - simpl. unfold poll_ack. destruct (rust_assert _); [|done]. simpl.
    destruct (beyond _ _); [intros [= <-]; apply frame_refl|].
    index_inv. destruct x; intros [= <-]; try apply frame_refl;
      apply frame_same; simpl; try done; by rewrite zlen_insert.
  - intros [= <-]. by apply frame_same.
Qed.

(** ** The packet kept under a sequence number *)

Definition packet_at s (k : Z) : option Pkt :=
  if (oldest s <=? k) && (k <? next s)
  then unacked s !! Z.to_nat (k - oldest s) ≫= st_packet else None.

Definition Keeps s s' (tx : list (Z * Pkt)) : Prop :=
  forall k p, packet_at s' k = Some p -> packet_at s k = Some p \/ (k, p) ∈ tx.

Lemma keeps_refl s tx : Keeps s s tx.
Proof. by left. Qed.

Lemma keeps_same s s' :
  last_sent s' = last_sent s -> unacked s' = unacked s -> Keeps s s' [].
Proof.
  intros Hl Hu k p. unfold packet_at, oldest, next. rewrite Hl, Hu. by left.
Qed.

Lemma keeps_trans s s1 s2 : Keeps s s1 [] -> Keeps s1 s2 [] -> Keeps s s2 [].
Proof.
  intros H1 H2 k p [Hp|Hp%not_elem_of_nil]%H2; [|done]. by apply H1.
Qed.

Lemma packet_at_Some s k p :
  packet_at s k = Some p <->
  oldest s <= k < next s /\
  exists st, unacked s !! Z.to_nat (k - oldest s) = Some st /\ st_packet st = Some p.
Proof.
  unfold packet_at. destruct (Z.leb_spec (oldest s) k), (Z.ltb_spec k (next s)); simpl;
    rewrite ?bind_Some; split; try done; try lia; tauto.
Qed.

Lemma keeps_update s i st st' :
  unacked s !! i = Some st -> st_packet st' = None \/ st_packet st' = st_packet st ->
  Keeps s (set_unacked s (<[i:=st']> (unacked s))) [].
Proof.
  intros Hi Hp k p. rewrite !packet_at_Some. unfold oldest. simpl.
  change (next (set_unacked _ _)) with (next s). rewrite zlen_insert. intros (Hk & st0 & H0 & Hp0). left.
  split; [done|]. apply list_lookup_insert_Some in H0 as [(Hik & <- & Hlt)|(_ & H0)]; [|by eexists].
  rewrite <- Hik. exists st. split; [done|]. destruct Hp; congruence.
Qed.

Lemma keeps_clean s : Keeps s (clean_unacked_queue s) [].
Proof.
  intros k p. rewrite !packet_at_Some. intros (Hk & st & Hst & Hp). left.
  destruct (clean_unacked_drop (unacked s)) as (n & E & Hn & _ & _).
  unfold oldest, clean_unacked_queue in *. simpl in *.
  change (next (set_unacked _ _)) with (next s) in *. rewrite E in *.
  assert (zlen (drop n (unacked s)) = zlen (unacked s) - Z.of_nat n) as Hlen
    by (unfold zlen; rewrite length_drop; lia).
  rewrite Hlen in *. split; [lia|]. exists st. split; [|done].
  rewrite lookup_drop in Hst. rewrite <- Hst. f_equal. lia.
Qed.

Lemma keeps_age s : Keeps s (age_retries s).1 [].
Proof.
  intros k p. rewrite !packet_at_Some. unfold oldest, age_retries. simpl.
  change (next (set_unacked _ _)) with (next s).
  assert (forall f, zlen (map f (unacked s)) = zlen (unacked s)) as ->
    by (intros f; unfold zlen; by rewrite length_map).
  intros (Hk & st & Hst & Hp). left. split; [done|].
  rewrite list_lookup_fmap in Hst. destruct (unacked s !! _) as [st0|]; [|done].
  simpl in Hst. simplify_eq. exists st0. split; [done|].
  destruct st0 as [q w [l|] c f|w f| |]; simpl in *; try done. by destruct (l <=? c).
Qed.

Lemma keeps_pushed s p l b q :
  SInv s -> next s < LIMIT -> Keeps s (pushed s p l b q) [(next s, p)].
Proof.
  intros HI Hn k q'. rewrite !packet_at_Some.
  rewrite pushed_next, pushed_oldest by (done || apply HI). simpl.
  intros (Hk & st & Hst & Hp). pose proof (core_bounds s (inv_core s HI)).
  destruct (Z.eq_dec k (next s)) as [->|Hne].
  - right. unfold oldest in Hst. replace (Z.to_nat _) with (length (unacked s)) in Hst
      by (unfold zlen; lia).
    rewrite list_lookup_middle in Hst by done. simplify_eq. simpl in Hp. simplify_eq.
    by apply list_elem_of_singleton.
  - left. split; [lia|]. exists st. split; [|done].
    rewrite lookup_app_l in Hst; [done|]. unfold oldest, zlen in *. lia.
Qed.

Lemma keeps_retire s idx st st' s' :
  index (unacked s) idx = Ret st -> st_packet st' = None \/ st_packet st' = st_packet st ->
  retire s idx st' = Ret s' -> Keeps s s' [].
Proof.
  intros [_ Hi]%index_ret Hp. unfold retire. intros E%clean_sent_frame. rewrite E. clear E.
  eapply keeps_trans; [by eapply keeps_update|].
  destruct (idx =? 0); [|by apply keeps_same].
  eapply keeps_trans; [apply keeps_clean|]. by apply keeps_same.
Qed.

Lemma keeps_of s s1 s' :
  last_sent s1 = last_sent s /\ unacked s1 = unacked s /\ blocked s1 = blocked s ->
  Keeps s1 s' [] -> Keeps s s' [].
Proof. intros (Hl & Hu & _). apply keeps_trans. by apply keeps_same. Qed.

Lemma keeps_bump s s1 st : Keeps s s1 [] -> Keeps s (bump_stat s1 st) [].
Proof. intros H. eapply keeps_trans; [exact H|]. by apply keeps_same. Qed.

Lemma ack_keeps s sn s1 o : lookup_ack_index s sn = (s1, o) -> Keeps s s1 [].
Proof.
  intros E. apply ack_frame in E as [_ (Hl & Hu & _)]. by apply keeps_same.
Qed.

Lemma process_ack_keeps s sn s' p ws : process_ack s sn = Ret (s', p, ws) -> Keeps s s' [].
Proof.
  unfold process_ack. destruct (lookup_ack_index s sn) as [s1 [idx|]] eqn:E;
    pose proof (ack_keeps _ _ _ _ E) as HK; apply ack_frame in E as [_ Heq];
    [|by intros [= <- _ _]].
  destruct (index (unacked s1) idx) as [st|] eqn:Ei; [|done]. simpl.
  destruct st; try (intros [= <- _ _]; by apply keeps_bump);
    destruct (retire s1 idx Acked) eqn:Er; try done; simpl; intros [= <- _ _];
    eapply keeps_of; try done; (eapply keeps_retire; [done| |done]; by left).
Qed.

Lemma process_canceled_keeps s sn s' ws : process_canceled s sn = Ret (s', ws) -> Keeps s s' [].
Proof.
  unfold process_canceled. destruct (lookup_ack_index s sn) as [s1 [idx|]] eqn:E;
    pose proof (ack_keeps _ _ _ _ E) as HK; apply ack_frame in E as [_ Heq];
    [|by intros [= <- _]].
  destruct (index (unacked s1) idx) as [st|] eqn:Ei; [|done]. simpl.
  destruct st as [| w f| |]; try (intros [= <- _]; by apply keeps_bump).
  destruct (retire s1 idx _) eqn:Er; [|done]. simpl. intros [= <- _].
  eapply keeps_of; [done|]. eapply keeps_retire; [done| |done]. left. by destruct f.
Qed.

Lemma limit_sn_keeps s sn l s' : limit_retries_by_seq_num s sn l = Ret s' -> Keeps s s' [].
Proof.
  unfold limit_retries_by_seq_num. destruct (_ || _); [intros [= <-]; apply keeps_refl|].
  index_inv. intros [= <-]. eapply keeps_update; [done|right]. by destruct x.
Qed.

Lemma keeps_clean_blocked s s1 tx : Keeps s s1 tx -> Keeps s (clean_blocked_queue s1) tx.
Proof.
  intros HK k p. destruct (clean_blocked_frame s1) as (Hl & Hu & _).
  unfold packet_at, oldest, next. rewrite Hl, Hu. apply HK.
Qed.

Lemma unblock_keeps s r :
  SInv s -> op_ok s OUnblock -> exec s OUnblock = Ret r -> Keeps s (r_s r) (r_tx r).
Proof.
  intros HI [_ Hn]. simpl.
  unfold enqueue_next_blocked_packet. destruct (rust_assert _); [|done]. simpl.
  destruct (blocked s) as [|[q w l|] b]; try done. simpl. intros [= <-]. simpl.
  apply keeps_clean_blocked. by apply (keeps_pushed s q l b (sent s ++ [Some (next s)])).
Qed.

Lemma cancel_queued_keeps s id s' p ws :
  cancel_queued_packet s id = Ret (s', p, ws) -> Keeps s s' [].
Proof.
  unfold cancel_queued_packet. destruct (rust_assert _); [|done]. simpl.
  destruct (beyond _ _); [intros [= <- _ _]; apply keeps_refl|].
  index_inv. destruct (bl_cancel x) as [st' [[q w]|]]; intros [= <- _ _]; [|apply keeps_refl].
  destruct (_ =? _); [apply keeps_clean_blocked|]; by apply keeps_same.
Qed.

Lemma exec_keeps s op r :
  SInv s -> op_ok s op -> exec s op = Ret r -> Keeps s (r_s r) (r_tx r).
Proof.
  intros HI Hok. destruct op as [p| |sn|sn|id|sn|sn l|id l|sn| |w|cx id|cx sn|st]; simpl in *.
  - unfold enqueue_packet. destruct (_ || _); intros [= <-]; simpl; [by apply keeps_same|].
    apply keeps_pushed; tauto.
  - by apply unblock_keeps.
  - destruct (process_ack s sn) as [[[s' p] ws]|] eqn:E; [|done]. intros [= <-].
    by eapply process_ack_keeps.
  - destruct (process_canceled s sn) as [[s' ws]|] eqn:E; [|done]. intros [= <-].
    by eapply process_canceled_keeps.
  - destruct (cancel_queued_packet s id) as [[[s' p] ws]|] eqn:E; [|done]. intros [= <-].
    by eapply cancel_queued_keeps.
  - unfold cancel_sent_packet. destruct (_ || _); [intros [= <-]; apply keeps_refl|].
    index_inv. destruct (st_cancel x) as [st' p] eqn:Ex. intros [= <-].
    eapply keeps_update; [done|]. destruct x; simplify_eq/=; auto.
  - destruct (limit_retries_by_seq_num s sn l) eqn:E; [|done]. intros [= <-].
    by eapply limit_sn_keeps.
  - unfold limit_retries_by_id. destruct (rust_assert _); [|done]. simpl.
    destruct (beyond _ _).
    + destruct (lookup_seq_num s id) as [[sn|]|]; try done; simpl.
      * destruct (limit_retries_by_seq_num s sn l) eqn:E; [|done]. intros [= <-].
        by eapply limit_sn_keeps.
      * intros [= <-]. apply keeps_refl.
    + index_inv. intros [= <-]. by apply keeps_same.
  - unfold forget_canceled_packet. destruct (_ || _); [intros [= <-]; apply keeps_refl|].
    destruct (index _ _) as [st|] eqn:Ei; [|done]. simpl.
    fold (retire s (slot (zlen (unacked s)) (offset_of sn (last_sent s))) (st_forget st)).
    destruct (retire _ _ _) eqn:E; [|done]. intros [= <-]. eapply keeps_retire; [done| |done].
    destruct st as [? ? [] ? ?|? ?| |]; simpl; auto.
  - intros [= <-]. apply keeps_age.
  - unfold adjust_window_size. destruct (rust_assert _); [|done]. intros [= <-].
    by apply keeps_same.
  - unfold poll_send. destruct (rust_assert _); [|done]. simpl. destruct (beyond _ _).
    + destruct (lookup_seq_num s id); [|done]. intros [= <-]. apply keeps_refl.
    + index_inv. destruct x; [|done]. intros [= <-]. by apply keeps_same.
  - unfold poll_ack. destruct (rust_assert _); [|done]. simpl.
    destruct (beyond _ _); [intros [= <-]; apply keeps_refl|].
    index_inv. destruct x; intros [= <-]; try apply keeps_refl;
      (eapply keeps_update; [done|by right]).
  - intros [= <-]. by apply keeps_same.
Qed.

(** ** Runs *)

(** What holds after any run from a fresh sender. *)
Record RunSpec (ops : list Op) s (back : list Pkt) (tx : list (Z * Pkt)) : Prop := {
  rs_inv : SInv s;
  rs_seq : tx.*1 = seqZ 0 (zlen tx);
  rs_next : next s = zlen tx;
  rs_order : tx.*2 ++ waiting s `sublist_of` concat (map taken ops);
  rs_held : concat (map taken ops) ≡ₚ back ++ held s;
  rs_kept : forall k p, packet_at s k = Some p -> (k, p) ∈ tx
}.

Lemma run_spec_nil : RunSpec [] (@new Pkt) [] [].
Proof.
  split; try done.
  - apply new_inv.
  - intros k p (H & st & Hst & _)%packet_at_Some. done.
Qed.

Lemma run_spec_step ops s back tx op r :
  RunSpec ops s back tx -> op_ok s op -> exec s op = Ret r ->
  RunSpec (ops ++ [op]) (r_s r) (back ++ r_back r) (tx ++ r_tx r).
Proof.
  intros [HI Hseq Hnext Hord Hheld Hk] Hok E.
  destruct (exec_good s op HI Hok) as (r' & E' & HG). rewrite E in E'. simplify_eq.
  destruct (exec_frame s op r' HI Hok E) as [Fs Fn Fo _ _ _].
  assert (concat (map taken (ops ++ [op])) = concat (map taken ops) ++ taken op) as Ht
    by (rewrite map_app, concat_app; simpl; by rewrite app_nil_r).
  split.
  - apply HG.
  - rewrite fmap_app, Hseq, Fs, zlen_app, Hnext.
    rewrite seqZ_app by apply zlen_nonneg. by rewrite Z.add_0_l.
  - rewrite Fn, Hnext, zlen_app. done.
  - rewrite Ht, fmap_app, <- app_assoc. etransitivity; [by apply sublist_app|].
    rewrite app_assoc. by apply sublist_app.
  - rewrite Ht, Hheld. pose proof (good_held _ _ _ _ HG) as HP.
    rewrite <- !app_assoc, <- HP. solve_Permutation.
  - intros k p [Hp|Hp]%(exec_keeps s op r' HI Hok E); apply elem_of_app; auto.
Qed.

Lemma runs_spec_from ops0 s back0 tx0 ops s' back tx :
  RunSpec ops0 s back0 tx0 -> runs s ops s' back tx ->
  RunSpec (ops0 ++ ops) s' (back0 ++ back) (tx0 ++ tx).
Proof.
  intros HS HR. revert ops0 back0 tx0 HS.
  induction HR as [|s op r ops s' back tx Hok E _ IH]; intros ops0 back0 tx0 HS.
  { by rewrite !app_nil_r. }
  specialize (IH _ _ _ (run_spec_step _ _ _ _ _ _ HS Hok E)).
  by rewrite <- !app_assoc in IH.
Qed.

Lemma runs_spec ops s back tx : runs new ops s back tx -> RunSpec ops s back tx.
Proof. apply (runs_spec_from [] new [] []), run_spec_nil. Qed.

(** ** Retransmission *)

Lemma sn_base_oldest s : SCore s -> sn_base s = wrap 64 (oldest s).
Proof.
  intros Hc. unfold sn_base, oldest. rewrite (core_last_sent s Hc) at 1.
  unfold wrapping_add, wrapping_sub, wrap. rewrite Zminus_mod_idemp_l, Zplus_mod_idemp_l.
  f_equal. lia.
Qed.

Lemma retry_number s i st :
  SCore s -> unacked s !! i = Some st ->
  wrapping_add 64 (sn_base s) (Z.of_nat i) = oldest s + Z.of_nat i.
Proof.
  intros Hc Hi. rewrite sn_base_oldest by done. pose proof (core_bounds s Hc).
  assert (Z.of_nat i < zlen (unacked s)) by (apply lookup_lt_Some in Hi; unfold zlen; lia).
  unfold wrapping_add. rewrite (wrap_small 64 (oldest s)) by (unfold oldest, LIMIT in *; lia).
  apply wrap_small. unfold oldest, LIMIT in *. lia.
Qed.

Lemma elem_of_imap_some {A B} (f : nat -> A -> option B) (l : list A) b :
  b ∈ omap id (imap f l) <-> exists i x, l !! i = Some x /\ f i x = Some b.
Proof.
  rewrite list_elem_of_omap. split.
  - intros (o & (i & Hi)%list_elem_of_lookup & Ho). rewrite list_lookup_imap in Hi.
    destruct (l !! i) as [x|] eqn:E; simplify_eq/=. by exists i, x.
  - intros (i & x & Hi & Hf). exists (Some b). split; [|done].
    apply list_elem_of_lookup. exists i. rewrite list_lookup_imap, Hi. simpl. by f_equal.
Qed.

Lemma oldest_index s i st :
  SCore s -> unacked s !! i = Some st ->
  oldest s <= oldest s + Z.of_nat i < next s /\
  Z.to_nat (oldest s + Z.of_nat i - oldest s) = i.
Proof.
  intros Hc Hi. apply lookup_lt_Some in Hi. unfold oldest, zlen. lia.
Qed.

Lemma retry_packets_spec s k p : SInv s -> (k, p) ∈ retry_packets s <-> packet_at s k = Some p.
Proof.
  intros HI. pose proof (inv_core s HI) as Hc. unfold retry_packets.
  rewrite elem_of_imap_some, packet_at_Some. split.
  - intros (i & st & Hi & Hf). destruct st as [q w l c f| | |]; simplify_eq.
    rewrite (retry_number s i _ Hc Hi). destruct (oldest_index s i _ Hc Hi) as [? Hn].
    split; [done|]. rewrite Hn. by eexists.
  - intros (Hk & st & Hi & Hp). exists (Z.to_nat (k - oldest s)), st. split; [done|].
    destruct st as [q w l c f| | |]; simplify_eq/=. rewrite (retry_number s _ _ Hc Hi).
    do 2 f_equal. lia.
Qed.

Lemma retry_cancels_spec s k :
  SInv s -> k ∈ retry_cancels s <-> state_at s k = CANCEL_REQUESTED.
Proof.
  intros HI. pose proof (inv_core s HI) as Hc. unfold retry_cancels.
  rewrite elem_of_imap_some. split.
  - intros (i & st & Hi & Hf). destruct st as [|w f| |]; simplify_eq.
    rewrite (retry_number s i _ Hc Hi). by apply (state_at_slot s i (CancelRequested w f)).
  - unfold state_at. destruct (Z.leb_spec (next s) k); [done|].
    destruct (Z.ltb_spec k (oldest s)); [done|].
    destruct (unacked s !! _) as [st|] eqn:E; [|done]. intros Hp.
    exists (Z.to_nat (k - oldest s)), st. split; [done|].
    destruct st; try done. rewrite (retry_number s _ _ Hc E). f_equal. lia.
Qed.

(** ** Acknowledgement *)

Definition is_done (st : PState) : bool :=
  match st with ACKED | CANCEL_ACKED | FORGOTTEN => true | _ => false end.

Lemma done_stays x y : rtc pstep x y -> is_done x = true -> is_done y = true.
Proof.
  induction 1 as [|x y z H _ IH]; [done|]. intros Hx. apply IH. by inversion H; subst.
Qed.

Lemma acked_stays x : rtc pstep ACKED x -> x = ACKED \/ x = FORGOTTEN.
Proof.
  intros H. inversion H as [|? y ? H1 H2]; subst; [by left|].
  inversion H1; subst. inversion H2 as [|? ? ? H3]; subst; [by right|inversion H3].
Qed.

(** A tracked sequence number of the session, and where the code finds it. *)
Lemma tracked_at s k :
  SInv s -> oldest s <= k < next s ->
  exists (i : nat) st, unacked s !! i = Some st /\ k = oldest s + Z.of_nat i /\
    offset_of k (last_sent s) <= 0 /\ - 2 ^ 63 < offset_of k (last_sent s) /\
    beyond (zlen (unacked s)) (offset_of k (last_sent s)) = false /\
    slot (zlen (unacked s)) (offset_of k (last_sent s)) = Z.of_nat i /\
    index (unacked s) (Z.of_nat i) = Ret st.
Proof.
  intros HI Hk. pose proof (inv_core s HI) as Hc. pose proof (core_bounds s Hc) as Hb.
  assert (offset_of k (last_sent s) = k - (next s - 1)) as Ho
    by (rewrite (core_last_sent s Hc); apply offset_near; lia).
  assert (offset_of k (last_sent s) <> - 2 ^ 63) as Hm by (unfold LIMIT in *; lia).
  destruct (locate_unacked s k Hc Hm) as [?|[(_ & _ & Hold)|(i & st & H0 & Hby & Hs & Hi & Hx & Hio)]].
  - lia.
  - unfold oldest in *. lia.
  - exists i, st. repeat split; try done; unfold oldest, LIMIT in *; lia.
Qed.

Lemma retire_settles s i st st' s' :
  SInv s -> unacked s !! i = Some st -> retire s (Z.of_nat i) st' = Ret s' ->
  rtc pstep (pstate st') (state_at s' (oldest s + Z.of_nat i)) /\ next s' = next s.
Proof.
  intros HI Hi. unfold retire. rewrite Nat2Z.id. intros E%clean_sent_frame. rewrite E. clear E.
  set (s1 := set_unacked s (<[i:=st']> (unacked s))).
  assert (SCore s1) as Hc1
    by (apply SCore_set_unacked; [apply HI|by rewrite zlen_insert]).
  assert (oldest s1 = oldest s) as Ho by (unfold oldest; simpl; by rewrite zlen_insert).
  assert (state_at s1 (oldest s + Z.of_nat i) = pstate st') as Hs1.
  { rewrite <- Ho. apply (state_at_slot s1 i st' Hc1). simpl.
    apply list_lookup_insert_eq. by eapply lookup_lt_Some. }
  split; [|by destruct (_ =? _)].
  change (rtc pstep (pstate st')
    (state_at (if Z.of_nat i =? 0 then clean_unacked_queue s1 else s1) (oldest s + Z.of_nat i))).
  rewrite <- Hs1. destruct (_ =? _); [|done]. by apply state_at_clean.
Qed.

Lemma is_acked_done s k :
  SInv s -> 0 <= k < next s -> is_acked s k = Ret (is_done (state_at s k)).
Proof. intros HI Hk. rewrite is_acked_spec by (done || apply HI). by destruct (state_at s k). Qed.

(** An acknowledgement 2^63 away from the last number sent. *)
Lemma far_ack_panics s sn :
  SInv s -> offset_of sn (last_sent s) = - 2 ^ 63 ->
  process_ack s sn = Panic /\ process_canceled s sn = Panic.
Proof.
  intros HI Ho. pose proof (core_bounds s (inv_core s HI)) as Hb.
  unfold process_ack, process_canceled, lookup_ack_index. rewrite Ho.
  destruct (min_offset_slot (zlen (unacked s))) as [-> Hs]; [unfold LIMIT in *; lia|].
  change (0 <? - 2 ^ 63) with false. simpl.
  by rewrite (proj2 (index_panic (unacked s) _)) by lia.
Qed.

(** ** Aging *)

Fixpoint age_times (n : nat) s : Sender Pkt :=
  match n with O => s | S n => (age_retries (age_times n s)).1 end.
Fixpoint age_entry_times (n : nat) (st : UnackedState Pkt) : UnackedState Pkt :=
  match n with O => st | S n => (st_age_retries (age_entry_times n st)).1 end.

Lemma age_at s i :
  unacked (age_retries s).1 !! i = (fun st => (st_age_retries st).1) <$> unacked s !! i.
Proof. apply list_lookup_fmap. Qed.

Lemma age_times_at n s i st :
  unacked s !! i = Some st ->
  unacked (age_times n s) !! i = Some (age_entry_times n st) /\
  next (age_times n s) = next s /\ oldest (age_times n s) = oldest s.
Proof.
  intros Hi. induction n as [|n (IH & Hn & Ho)]; [done|].
  cbn [age_times age_entry_times]. split; [|split].
  - by rewrite age_at, IH.
  - exact Hn.
  - rewrite <- Ho. unfold oldest, zlen. simpl. by rewrite length_map.
Qed.

Lemma age_entry p w l c f n :
  0 <= c -> l <= U8_MAX -> Z.of_nat n <= l - c ->
  age_entry_times n (Unacked p w (Some l) c f)
  = Unacked (Pkt:=Pkt) p w (Some l) (c + Z.of_nat n) f.
Proof.
  intros Hc Hl. induction n as [|n IH]; intros Hn; [simpl; f_equal; lia|].
  cbn [age_entry_times]. rewrite IH by lia. simpl. destruct (Z.leb_spec l (c + Z.of_nat n)); [lia|].
  simpl. f_equal. unfold U8_MAX in *. lia.
Qed.

Lemma age_out p w l c f :
  0 <= c <= l -> l <= U8_MAX ->
  age_entry_times (Z.to_nat (l - c + 1)) (Unacked p w (Some l) c f)
  = CancelRequested (Pkt:=Pkt) w f.
Proof.
  intros Hc Hl. replace (Z.to_nat (l - c + 1)) with (S (Z.to_nat (l - c))) by lia.
  cbn [age_entry_times]. rewrite age_entry by lia. simpl.
  destruct (Z.leb_spec l (c + Z.of_nat (Z.to_nat (l - c)))); [done|lia].
Qed.

(** ** Queue identifiers *)

Lemma clean_blocked_full (b : list (BlockedState Pkt)) q :
  exists n, clean_blocked_loop b q = (drop n b, q ++ replicate n None) /\ (n <= length b)%nat.
Proof.
  revert q. induction b as [|[p w l|] b IH]; intros q.
  - exists 0%nat. by rewrite app_nil_r.
  - exists 0%nat. rewrite app_nil_r. split; [done|simpl; lia].
  - destruct (IH (q ++ [None])) as (n & E & Hn). exists (S n). simpl. rewrite E.
    rewrite <- app_assoc. split; [done|lia].
Qed.

Lemma lookup_number s k (i : nat) o :
  SInv s -> k = nextq s - zlen (blocked s) - zlen (sent s) + Z.of_nat i ->
  sent s !! i = Some o -> lookup_seq_num s k = Ret o.
Proof.
  intros HI -> Hi. pose proof (inv_core s HI) as Hc. pose proof (core_queues s Hc) as Hq.
  pose proof (zlen_nonneg (blocked s)). pose proof (zlen_nonneg (sent s)).
  assert (Z.of_nat i < zlen (sent s)) by (apply lookup_lt_Some in Hi; unfold zlen; lia).
  unfold lookup_seq_num. rewrite (core_last_enqueued s Hc), offset_near by lia.
  unfold LIMIT, i64_add in *. rewrite (as_i64_small (zlen (blocked s))) by lia.
  rewrite as_i64_small by lia. unfold rust_assert.
  rewrite (proj2 (Z.leb_le _ 0)) by lia. simpl.
  rewrite beyond_false, slot_eq by lia.
  match goal with |- index _ ?x = _ => replace x with (Z.of_nat i) by lia end.
  destruct (index_lt (sent s) (Z.of_nat i)) as [x Hx]; [lia|].
  rewrite Hx. apply index_ret in Hx as [_ Hx]. rewrite Nat2Z.id in Hx. by simplify_eq.
Qed.

End ops.
Arguments Op Pkt : clear implicits.
Arguments Res Pkt : clear implicits.

(** ** Properties *)
Section properties.
Context {Pkt : Type}.
Implicit Types (s : Sender Pkt).

(** C24. Safety: in every state reachable from a fresh sender the invariant
    holds, and no operation called within its contract panics: no assertion
    fails and no queue is indexed out of range. *)
Theorem sender_safe ops s back tx op :
  runs new ops s back tx -> op_ok s op ->
  SInv s /\ exists r, exec s op = Ret r /\ SInv (r_s r).
Proof.
  intros HR Hok. pose proof (rs_inv _ _ _ _ (runs_spec _ _ _ _ HR)) as HI.
  split; [done|]. destruct (exec_good s op HI Hok) as (r & E & HG). exists r.
  split; [done|]. apply HG.
Qed.

(** Refinement of the packet life cycle: every operation moves the state
    of every packet along the state diagram of the sender (unsent, unacked,
    cancel requested, acked, cancel acked, forgotten), never against it. *)
Theorem sender_life_cycle ops s back tx op r k :
  runs new ops s back tx -> op_ok s op -> exec s op = Ret r ->
  rtc pstep (state_at s k) (state_at (r_s r) k).
Proof.
  intros HR Hok E. pose proof (rs_inv _ _ _ _ (runs_spec _ _ _ _ HR)) as HI.
  destruct (exec_good s op HI Hok) as (r' & E' & HG). rewrite E in E'. simplify_eq. apply HG.
Qed.

(** Conservation: over every run, the packets given to the sender are
    exactly those it handed back plus those it still holds, and dismantling
    the sender hands back exactly the latter; none is lost or duplicated. *)
Theorem sender_conserves ops s back tx :
  runs new ops s back tx ->
  concat (map taken ops) ≡ₚ back ++ (destruct_internal s).1.2.
Proof.
  intros HR. rewrite (rs_held _ _ _ _ (runs_spec _ _ _ _ HR)). f_equiv.
  unfold destruct_internal, held. simpl.
  apply reflexive_eq. f_equal; apply list_omap_ext; apply Forall_Forall2_diag, list.Forall_true;
    by intros [].
Qed.

(** Order: over every run, packets are first transmitted under the
    consecutive sequence numbers 0, 1, 2, ..., and in the order in which they
    were enqueued; no packet overtakes one enqueued before it. *)
Theorem sender_fifo ops s back tx :
  runs new ops s back tx ->
  tx.*1 = seqZ 0 (zlen tx) /\ tx.*2 `sublist_of` concat (map taken ops).
Proof.
  intros HR%runs_spec. split; [apply HR|]. etransitivity; [|apply HR].
  by apply sublist_inserts_r.
Qed.

(** Flow control: a packet is transmitted for the first time only while
    the number of packets between the oldest unacknowledged and the newest
    sent is below the window, and no step makes that number exceed the window
    (it stays above only after the window itself was reduced). *)
Theorem sender_window ops s back tx op r :
  runs new ops s back tx -> op_ok s op -> exec s op = Ret r ->
  (r_tx r <> [] -> zlen (unacked s) < window_size s) /\
  zlen (unacked (r_s r)) <= Z.max (zlen (unacked s)) (window_size s).
Proof.
  intros HR Hok E. pose proof (rs_inv _ _ _ _ (runs_spec _ _ _ _ HR)) as HI.
  destruct (exec_frame s op r HI Hok E) as [_ _ _ Ho Hl H1]. split; [done|].
  destruct (r_tx r) eqn:Et; [unfold zlen in *; simpl in *; lia|].
  specialize (Ho ltac:(done)). lia.
Qed.

(** Retransmission: in every reachable state the retry iterators yield
    exactly the packets still unacknowledged, under the sequence number of
    their first transmission, and cancellation requests for exactly the packets
    whose cancellation is requested. *)
Theorem sender_retries ops s back tx :
  runs new ops s back tx ->
  (forall k, state_at s k = UNACKED <-> exists p, (k, p) ∈ retry_packets s) /\
  (forall k p, (k, p) ∈ retry_packets s -> (k, p) ∈ tx) /\
  (forall k, state_at s k = CANCEL_REQUESTED <-> k ∈ retry_cancels s).
Proof.
  intros HR%runs_spec. pose proof (rs_inv _ _ _ _ HR) as HI. split; [|split].
  - intros k. setoid_rewrite (fun p => retry_packets_spec s k p HI).
    unfold state_at, packet_at.
    destruct (Z.leb_spec (next s) k), (Z.leb_spec (oldest s) k), (Z.ltb_spec k (next s)),
      (Z.ltb_spec k (oldest s)); try lia; simpl; try (split; [done|by intros []]).
    destruct (unacked s !! _) as [[]|]; simpl; split; try done; try (by intros []). by eexists.
  - intros k p Hp%(retry_packets_spec s k p HI). by apply HR.
  - intros k. by rewrite retry_cancels_spec.
Qed.

(** Retry limits: a packet limited to [l] retries that has been retried
    [c] times stays unacknowledged (and so is retransmitted) for [l - c] more
    agings and is cancelled by the next one. *)
Theorem retry_limit_exact s i p w l c f :
  SInv s -> unacked s !! i = Some (Unacked p w (Some l) c f) -> 0 <= c <= l -> l <= U8_MAX ->
  let k := oldest s + Z.of_nat i in
  (forall n, Z.of_nat n <= l - c -> state_at (age_times n s) k = UNACKED) /\
  state_at (age_times (Z.to_nat (l - c + 1)) s) k = CANCEL_REQUESTED.
Proof.
  intros HI Hi Hc Hl k. destruct (oldest_index s i _ (inv_core s HI) Hi) as [Hk Hki].
  assert (forall n st, age_entry_times n (Unacked p w (Some l) c f) = st ->
            state_at (age_times n s) k = pstate st) as Hst.
  { intros n st Est. destruct (age_times_at n s i _ Hi) as (Hi' & Hn & Ho).
    unfold state_at, k. rewrite Hn, Ho, Hki, Hi', Est. ztests. done. }
  split.
  - intros n Hn. erewrite Hst; [|apply age_entry; lia]. done.
  - erewrite Hst; [|by apply age_out]. done.
Qed.

(** Crash on a hostile acknowledgement: the sender panics on an
    acknowledgement exactly when its sequence number is 2^63 away from the
    last one sent; negating that offset overflows, the entry is not recognised
    as old, and the queue is indexed out of range.  The number comes straight
    from the peer. *)
Theorem process_ack_panics s sn :
  SInv s -> process_ack s sn = Panic <-> offset_of sn (last_sent s) = - 2 ^ 63.
Proof.
  intros HI. split; [|by apply far_ack_panics].
  intros Hp. destruct (Z.eq_dec (offset_of sn (last_sent s)) (- 2 ^ 63)) as [|Hm]; [done|].
  destruct (process_ack_good s sn HI Hm) as (? & ? & ? & E & _). congruence.
Qed.

(** No lost wake-up: a task that polled for the acknowledgement of a sent
    packet and was told to wait is the one woken when the acknowledgement is
    processed, and polling again then finds the packet acknowledged. *)
Theorem ack_wakes_waiter cx s k s1 :
  SInv s -> oldest s <= k < next s -> poll_ack cx s k = Ret (s1, Pending) ->
  exists s2 p, process_ack s1 k = Ret (s2, p, [cx]) /\ is_acked s2 k = Ret true.
Proof.
  intros HI Hk HP.
  assert (SInv s1 /\ next s1 = next s /\ oldest s1 = oldest s /\
          exists i, k = oldest s1 + Z.of_nat i /\
            ((exists p l c f, unacked s1 !! i = Some (Unacked p cx l c f)) \/
             (exists f, unacked s1 !! i = Some (CancelRequested cx f)))) as (HI1 & Hn & Ho & i & Hki & Hu).
  { destruct (tracked_at s k HI Hk) as (i & st & Hi & Hki & H0 & Hm & Hby & Hs & Hx).
    destruct (poll_ack_good cx s k HI) as (s1' & r & E & HG); [lia|lia|].
    rewrite HP in E. simplify_eq. split; [apply HG|].
    unfold poll_ack in HP. rewrite (proj2 (Z.leb_le _ 0) H0), Hby, Hs, Hx in HP. simpl in HP.
    rewrite Nat2Z.id in HP. apply lookup_lt_Some in Hi as Hlt.
    assert (forall st', oldest (set_unacked s (<[i:=st']> (unacked s))) = oldest s) as Ho
      by (intros st'; unfold oldest; simpl; by rewrite zlen_insert).
    destruct st as [p w l c f|w f| |]; injection HP as <-; try done; rewrite Ho;
      (split; [done|split; [done|]]); exists i; (split; [done|]).
    - left. do 4 eexists. by apply list_lookup_insert_eq.
    - right. eexists. by apply list_lookup_insert_eq. }
  destruct (tracked_at s1 k HI1) as (i' & st & Hi & Hki' & H0 & Hm & Hby & Hs & Hx); [lia|].
  assert (i' = i) as -> by lia.
  unfold process_ack, lookup_ack_index. rewrite (proj2 (Z.ltb_ge 0 _) H0), Hby, Hs. simpl.
  rewrite Hx. simpl.
  assert (exists s2, retire s1 (Z.of_nat i) Acked = Ret s2 /\ SInv s2) as (s2 & Er & HI2).
  { destruct (retire_spec s1 i st Acked HI1 Hi) as (s2 & Er & HG).
    - destruct Hu as [(? & ? & ? & ? & Hu)|(? & Hu)]; simplify_eq; apply rtc_once; constructor.
    - by left.
    - exists s2. split; [done|apply HG]. }
  destruct (retire_settles s1 i st Acked s2 HI1 Hi Er) as [Hdone Hn2].
  apply done_stays in Hdone; [|done].
  assert (is_acked s2 k = Ret true) as Hacked.
  { pose proof (core_bounds s (inv_core s HI)). rewrite is_acked_done by (done || lia).
    by rewrite Hki, Hdone. }
  rewrite Er. destruct Hu as [(? & ? & ? & ? & Hu)|(? & Hu)]; simplify_eq/=; by do 2 eexists.
Qed.

(** Queue identifiers: when the packet at the head of the waiting queue is
    finally sent, looking up the identifier it was queued under yields the
    sequence number it was sent with. *)
Theorem unblocked_lookup ops s back tx s' sn p ws :
  runs new ops s back tx -> op_ok s OUnblock ->
  enqueue_next_blocked_packet s = Ret (s', sn, p, ws) ->
  lookup_seq_num s' (nextq s - zlen (blocked s)) = Ret (Some sn).
Proof.
  intros HR%runs_spec Hok E. pose proof (rs_inv _ _ _ _ HR) as HI.
  destruct (unblock_good s HI) as (s1 & sn1 & p1 & ws1 & E1 & HG); try apply Hok.
  rewrite E in E1. simplify_eq. pose proof (good_inv _ _ _ _ HG) as HI1. clear HG.
  unfold enqueue_next_blocked_packet in E. destruct (rust_assert _); [|done]. simpl in E.
  destruct (blocked s) as [|[q w l|] b] eqn:Eb; try done. simpl in E.
  injection E as <- <- <- <-.
  apply (lookup_number _ _ (length (sent s))); [done| |].
  - unfold clean_blocked_queue, nextq. simpl.
    destruct (clean_blocked_full b (sent s ++ [Some (wrapping_add 64 (last_sent s) 1)]))
      as (n & -> & Hn). simpl. unfold zlen. rewrite !length_app, length_drop, length_replicate.
    simpl. lia.
  - unfold clean_blocked_queue. simpl.
    destruct (clean_blocked_full b (sent s ++ [Some (wrapping_add 64 (last_sent s) 1)]))
      as (n & -> & Hn). simpl. rewrite <- app_assoc. simpl. by rewrite list_lookup_middle.
Qed.

End properties.

(** ** Witnesses: a session with window 1 *)

Definition demo_ops : list (Op Z) := [OEnqueue 10; OEnqueue 11; OEnqueue 12; OAck 0].

Definition demo_after (ops : list (Op Z)) : Sender Z :=
  match run new ops with Ret (s, _, _) => s | Panic => new end.

Definition demo : Sender Z := demo_after demo_ops.

Ltac ops_check :=
  apply run_runs;
  [vm_compute; repeat apply conj; first [exact I | reflexivity | discriminate]
  |vm_compute; reflexivity].

Lemma demo_runs : runs new demo_ops demo [10] [(0, 10)].
Proof. ops_check. Qed.

Lemma demo_unblock_ok : op_ok demo OUnblock.
Proof. split; vm_compute; reflexivity. Qed.

Definition demo_sent : Res Z :=
  match exec demo OUnblock with Ret r => r | Panic => mkRes new [] [] end.

Lemma sender_safe_witness : SInv demo /\ exists r, exec demo OUnblock = Ret r /\ SInv (r_s r).
Proof. exact (sender_safe demo_ops demo _ _ OUnblock demo_runs demo_unblock_ok). Defined.

Lemma sender_life_cycle_witness :
  state_at demo 1 = UNSENT /\
  exists r, exec demo OUnblock = Ret r /\ state_at (r_s r) 1 = UNACKED /\
    rtc pstep (state_at demo 1) (state_at (r_s r) 1).
Proof.
  split; [vm_compute; reflexivity|]. exists demo_sent. split; [vm_compute; reflexivity|].
  split; [vm_compute; reflexivity|].
  refine (sender_life_cycle demo_ops demo _ _ OUnblock _ 1 demo_runs demo_unblock_ok _).
  vm_compute. reflexivity.
Defined.

Lemma sender_conserves_witness :
  concat (map taken demo_ops) ≡ₚ [10] ++ (destruct_internal demo).1.2 /\
  (destruct_internal demo).1.2 = [11; 12].
Proof. split; [exact (sender_conserves demo_ops demo _ _ demo_runs)|reflexivity]. Defined.

Lemma sender_fifo_witness :
  [(0, 10)].*1 = seqZ 0 (zlen [(0, 10)]) /\ [10] `sublist_of` [10; 11; 12].
Proof. exact (sender_fifo demo_ops demo _ _ demo_runs). Defined.

Lemma sender_window_witness :
  exec demo OUnblock = Ret demo_sent /\ r_tx demo_sent = [(1, 11)] /\
  (r_tx demo_sent <> [] -> zlen (unacked demo) < window_size demo) /\
  zlen (unacked (r_s demo_sent)) <= Z.max (zlen (unacked demo)) (window_size demo).
Proof.
  split; [reflexivity|]. split; [reflexivity|].
  exact (sender_window demo_ops demo _ _ OUnblock demo_sent demo_runs demo_unblock_ok eq_refl).
Defined.

Lemma sender_retries_witness :
  retry_packets (demo_after [OEnqueue 10]) = [(0, 10)] /\
  state_at (demo_after [OEnqueue 10]) 0 = UNACKED.
Proof.
  assert (retry_packets (demo_after [OEnqueue 10]) = [(0, 10)]) as E by reflexivity.
  split; [exact E|].
  apply (sender_retries [OEnqueue 10] _ [] [(0, 10)]).
  - ops_check.
  - exists 10. rewrite E. by apply list_elem_of_singleton.
Defined.

(** Packet 10 sent, limited to two retries. *)
Definition demo_limited : Sender Z := demo_after [OEnqueue 10; OLimitSeqNum 0 2].

Lemma demo_limited_inv : SInv demo_limited.
Proof.
  assert (runs new [OEnqueue 10; OLimitSeqNum 0 2] demo_limited [] [(0, 10)]) as HR by ops_check.
  exact (rs_inv _ _ _ _ (runs_spec _ _ _ _ HR)).
Qed.

Lemma retry_limit_exact_witness :
  (forall n, Z.of_nat n <= 2 -> state_at (age_times n demo_limited) 0 = UNACKED) /\
  state_at (age_times 3 demo_limited) 0 = CANCEL_REQUESTED.
Proof.
  exact (retry_limit_exact demo_limited 0 10 noop 2 0 false demo_limited_inv eq_refl
           ltac:(lia) ltac:(vm_compute; discriminate)).
Defined.

Lemma process_ack_panics_witness : process_ack (@new Z) (2 ^ 63 - 1) = Panic.
Proof. apply (process_ack_panics new (2 ^ 63 - 1) new_inv). vm_compute. reflexivity. Defined.

Definition demo_polled : Sender Z :=
  match poll_ack (waker 7) demo_limited 0 with Ret (s, _) => s | Panic => new end.

Lemma ack_wakes_waiter_witness :
  poll_ack (waker 7) demo_limited 0 = Ret (demo_polled, Pending) /\
  exists s2 p, process_ack demo_polled 0 = Ret (s2, p, [waker 7]) /\ is_acked s2 0 = Ret true.
Proof.
  assert (poll_ack (waker 7) demo_limited 0 = Ret (demo_polled, Pending)) as E by reflexivity.
  split; [exact E|]. refine (ack_wakes_waiter (waker 7) demo_limited 0 _ demo_limited_inv _ E).
  split; vm_compute; [discriminate|reflexivity].
Defined.

Definition demo_unblocked : Sender Z := r_s demo_sent.

Lemma unblocked_lookup_witness :
  enqueue_next_blocked_packet demo = Ret (demo_unblocked, 1, 11, [noop]) /\
  lookup_seq_num demo_unblocked (nextq demo - zlen (blocked demo)) = Ret (Some 1).
Proof.
  assert (enqueue_next_blocked_packet demo = Ret (demo_unblocked, 1, 11, [noop])) as E
    by reflexivity.
  split; [exact E|].
  exact (unblocked_lookup demo_ops demo _ _ _ 1 11 [noop] demo_runs demo_unblock_ok E).
Defined.

(** The queue of formerly waiting packets keeps canceled entries at its
    front: cancelling the packet at the head of the waiting queue leaves a
    [None] as the first entry of [sent], which the comment on the queue says is
    always immediately removed. *)
Theorem canceled_entry_stays_in_front :
  match cancel_queued_packet demo 0 with
  | Ret (s', p, ws) =>
      p = Some 11 /\ ws = [noop] /\ sent s' = [None] /\ length (blocked s') = 1%nat
  | Panic => False
  end.
Proof. vm_compute. auto. Qed.

End TxThms.
