(* ===== verification/MgmtCore.v ===== *)
(** * Sending management packets ([mgmt/core.rs])

    The construction of a management packet, its hand-over to the ZDPR sender,
    and the futures a caller holds on it ([Sent], [Acked], [AckedOrCanceled]),
    each method as a function of the future and the live session. *)
From Stdlib Require Import ZArith Lia.
From stdpp Require Import base tactics option list functions.
From S2P Require Import Prelude Zdp ZdprSender ZdprSenderProps ZdprSenderThms.

Local Open Scope Z_scope.

Module MgmtCore.

Notation Bytes := (list Z).

Inductive PacketId :=
| Queued (packet_id : Z)
| Sent (seq_num : Z)
| Acked
| Canceled.

(** The part of a peer's state the futures use. *)
Record Session := mkSession { zdpr_send : Tx.Sender Bytes; zdpr_generation : Z }.

(** A [Sent] future: the link is found by the caller, [None] when it is gone. *)
Record Fut := mkFut { packet_id : PacketId; generation : Z }.

Inductive PacketStatus := StAcked | StCanceled.
Inductive MgmtSendError := LinkClosed.

Definition set_id (f : Fut) (i : PacketId) : Fut := mkFut i (generation f).
Definition set_send (ss : Session) (s : Tx.Sender Bytes) : Session :=
  mkSession s (zdpr_generation ss).

(** [Sent::peer_state]: the session, if it is still the packet's. *)
Definition peer_state (f : Fut) (peer : option Session) : option Session :=
  match peer with
  | Some ss => if zdpr_generation ss =? generation f then Some ss else None
  | None => None
  end.

Definition update_sent_packet_id (f : Fut) (seq_num : option Z) : Fut :=
  match seq_num with
  | Some seq_num => set_id f (Sent seq_num)
  | None => set_id f Acked
  end.

Definition is_sent (f : Fut) (peer : option Session) : bool :=
  match packet_id f with
  | Queued id =>
      match peer_state f peer with
      | None => true
      | Some ss => Tx.is_sent (zdpr_send ss) id
      end
  | _ => true
  end.

(** [try_cancel_internal]: [Some] packet is [Ok]. *)
Definition try_cancel_internal (f : Fut) (peer : option Session)
    : outcome (Fut * option Session * option Bytes) :=
  match packet_id f with
  | Queued id =>
      match peer_state f peer with
      | None => mret (f, peer, None)
      | Some ss =>
          '(s', pkt, _) ← Tx.cancel_queued_packet (zdpr_send ss) id;
          match pkt with
          | Some pkt => mret (f, Some (set_send ss s'), Some pkt)
          | None =>
              sn ← Tx.lookup_seq_num s' id;
              mret (update_sent_packet_id f sn, Some (set_send ss s'), None)
          end
      end
  | _ => mret (f, peer, None)
  end.

(** The second half of [request_cancel_internal], on a sent packet; [true] when
    a cancellation request goes out. *)
Definition request_cancel_sent (f : Fut) (ss : Session)
    : outcome (Fut * option Session * bool) :=
  match packet_id f with
  | Sent seq_num =>
      '(s', pkt) ← Tx.cancel_sent_packet (zdpr_send ss) seq_num;
      mret (f, Some (set_send ss s'), match pkt with Some _ => true | None => false end)
  | _ => Panic
  end.

Definition request_cancel_internal (f : Fut) (peer : option Session)
    : outcome (Fut * option Session * bool) :=
  match packet_id f with
  | Acked | Canceled => mret (f, peer, false)
  | _ =>
      match peer_state f peer with
      | None => mret (f, peer, false)
      | Some ss =>
          match packet_id f with
          | Queued _ =>
              '(f1, peer1, res) ← try_cancel_internal f peer;
              match res with
              | Some _ => mret (set_id f1 Canceled, peer1, false)
              | None => ss1 ← unwrap peer1; request_cancel_sent f1 ss1
              end
          | _ => request_cancel_sent f ss
          end
      end
  end.

Definition limit_retries_internal (f : Fut) (peer : option Session) (retry_limit : Z)
    : outcome (option Session) :=
  match packet_id f with
  | Acked | Canceled => mret peer
  | Queued id =>
      match peer_state f peer with
      | None => mret peer
      | Some ss =>
          s' ← Tx.limit_retries_by_id (zdpr_send ss) id retry_limit;
          mret (Some (set_send ss s'))
      end
  | Sent sn =>
      match peer_state f peer with
      | None => mret peer
      | Some ss =>
          s' ← Tx.limit_retries_by_seq_num (zdpr_send ss) sn retry_limit;
          mret (Some (set_send ss s'))
      end
  end.

(** [Future for Sent]: ready with the next future, or an error. *)
Definition poll_sent (cx : Tx.Waker) (f : Fut) (peer : option Session)
    : outcome (Fut * option Session * Tx.Poll (Fut + MgmtSendError)) :=
  match packet_id f with
  | Queued id =>
      match peer_state f peer with
      | None => mret (f, peer, Tx.Ready (inr LinkClosed))
      | Some ss =>
          '(s', r) ← Tx.poll_send cx (zdpr_send ss) id;
          match r with
          | Tx.Pending => mret (f, Some (set_send ss s'), Tx.Pending)
          | Tx.Ready sn =>
              let f' := update_sent_packet_id f sn in
              mret (f', Some (set_send ss s'), Tx.Ready (inl f'))
          end
      end
  | _ => mret (f, peer, Tx.Ready (inl f))
  end.

(** The common middle of the two acknowledgement futures: find the sequence
    number; [inr] is an early [Ready(Acked)]. *)
Definition poll_seq_num (cx : Tx.Waker) (f : Fut) (ss : Session)
    : outcome (Fut * Session * Tx.Poll (Z + unit)) :=
  match packet_id f with
  | Queued id =>
      '(s', r) ← Tx.poll_send cx (zdpr_send ss) id;
      match r with
      | Tx.Pending => mret (f, set_send ss s', Tx.Pending)
      | Tx.Ready None => mret (f, set_send ss s', Tx.Ready (inr tt))
      | Tx.Ready (Some sn) => mret (set_id f (Sent sn), set_send ss s', Tx.Ready (inl sn))
      end
  | Sent sn => mret (f, ss, Tx.Ready (inl sn))
  | Acked | Canceled => Panic
  end.

(** [Future for Acked]. *)
Definition poll_acked (cx : Tx.Waker) (f : Fut) (peer : option Session)
    : outcome (Fut * option Session * Tx.Poll (unit + MgmtSendError)) :=
  match packet_id f with
  | Acked => mret (f, peer, Tx.Ready (inl tt))
  | _ =>
      match peer_state f peer with
      | None => mret (f, peer, Tx.Ready (inr LinkClosed))
      | Some ss =>
          '(f1, ss1, r) ← poll_seq_num cx f ss;
          match r with
          | Tx.Pending => mret (f1, Some ss1, Tx.Pending)
          | Tx.Ready (inr _) => mret (f1, Some ss1, Tx.Ready (inl tt))
          | Tx.Ready (inl sn) =>
              '(s2, r2) ← Tx.poll_ack cx (zdpr_send ss1) sn;
              mret (f1, Some (set_send ss1 s2),
                    match r2 with Tx.Ready _ => Tx.Ready (inl tt) | Tx.Pending => Tx.Pending end)
          end
      end
  end.

(** [Future for AckedOrCanceled]. *)
Definition poll_acked_or_canceled (cx : Tx.Waker) (f : Fut) (peer : option Session)
    : outcome (Fut * option Session * Tx.Poll (PacketStatus + MgmtSendError)) :=
  match packet_id f with
  | Acked => mret (f, peer, Tx.Ready (inl StAcked))
  | Canceled => mret (f, peer, Tx.Ready (inl StCanceled))
  | _ =>
      match peer_state f peer with
      | None => mret (f, peer, Tx.Ready (inr LinkClosed))
      | Some ss =>
          '(f1, ss1, r) ← poll_seq_num cx f ss;
          match r with
          | Tx.Pending => mret (f1, Some ss1, Tx.Pending)
          | Tx.Ready (inr _) => mret (f1, Some ss1, Tx.Ready (inl StAcked))
          | Tx.Ready (inl sn) =>
              '(s2, r2) ← Tx.poll_ack cx (zdpr_send ss1) sn;
              match r2 with
              | Tx.Pending => mret (f1, Some (set_send ss1 s2), Tx.Pending)
              | Tx.Ready _ =>
                  c ← Tx.is_cancel_acked s2 sn;
                  mret (f1, Some (set_send ss1 s2),
                        Tx.Ready (inl (if (c : bool) then StCanceled else StAcked)))
              end
          end
      end
  end.

(** [AckedOrCanceled::forget_internal]. *)
Definition forget_internal (f : Fut) (peer : option Session) : outcome (option Session) :=
  match packet_id f with
  | Sent seq_num =>
      match peer_state f peer with
      | None => mret peer
      | Some ss =>
          s' ← Tx.forget_canceled_packet (zdpr_send ss) seq_num;
          mret (Some (set_send ss s'))
      end
  | _ => mret peer
  end.

(** [AckedOrCanceled::enqueue]: forget, then skip the destructors. *)
Definition enqueue_acked_or_canceled (f : Fut) (peer : option Session) := forget_internal f peer.

(** [Drop for AckedOrCanceled] followed by that of the [Sent] inside it. *)
Definition drop_acked_or_canceled (f : Fut) (peer : option Session)
    : outcome (option Session) :=
  peer1 ← forget_internal f peer;
  '(_, peer2, _) ← try_cancel_internal f peer1;
  mret peer2.

(** ** Building and sending a packet *)

(** [send_mgmt_helper], the headers it prepends. *)
Definition mgmt_packet (packet_type : Z) (stream_id txn_id : option Z) (body : Bytes)
    : outcome Bytes :=
  _ ← rust_assert (negb (packet_type =? Zdp.KeyManagement));
  _ ← rust_assert (eqb (match stream_id with Some _ => true | None => false end)
                       (Zdp.is_per_flow packet_type));
  mret (Zdp.base_bytes (Zdp.mkBase packet_type 0) ++ Zdp.mgmt_bytes (Zdp.mkMgmt 0) ++
        match stream_id with Some x => be_bytes 4 x | None => [] end ++
        match txn_id with Some x => be_bytes 2 x | None => [] end ++ body).

(** What is sent at once, and whether the retry timer is restarted. *)
Record SendResult := mkSend {
  sr_fut : Fut; sr_peer : option Session; sr_egress : list (Z * Bytes); sr_timer : bool
}.

Definition send_mgmt_helper (peer : option Session) (packet_type : Z)
    (stream_id txn_id : option Z) (body : Bytes) : outcome SendResult :=
  packet ← mgmt_packet packet_type stream_id txn_id body;
  match peer with
  | None => mret (mkSend (mkFut (Queued 0) 0) None [] false)
  | Some ss =>
      let old_retry_needed := Tx.retry_needed (zdpr_send ss) in
      match Tx.enqueue_packet (zdpr_send ss) packet with
      | (s', Tx.Sent seq_num pkt) =>
          mret (mkSend (mkFut (Sent seq_num) (zdpr_generation ss)) (Some (set_send ss s'))
                  [(seq_num, pkt)] (negb old_retry_needed))
      | (s', Tx.Queued id) =>
          mret (mkSend (mkFut (Queued id) (zdpr_generation ss)) (Some (set_send ss s')) [] false)
      end
  end.

(** [build_and_egress_packets]: the sequence number is written behind the base
    header. *)
Definition fill_sequence_number (seq_num : Z) (packet : Bytes) : outcome Bytes :=
  _ ← rust_assert (2 <=? zlen packet);
  _ ← unwrap (Zdp.read_mgmt (drop 2 packet));
  mret (take 2 packet ++ Zdp.mgmt_bytes (Zdp.mkMgmt seq_num) ++ drop 10 packet).

(** [send_zdpr_common]: acknowledgements and cancellation messages. *)
Definition send_zdpr_common (packet_type seq_num : Z) : outcome Bytes :=
  fill_sequence_number seq_num
    (Zdp.base_bytes (Zdp.mkBase packet_type 0) ++ Zdp.mgmt_bytes (Zdp.mkMgmt 0)).

End MgmtCore.
