(* ===== verification/Dispatch.v ===== *)
(** * Dispatch of management packets ([mgmt/dispatch.rs], [zdpr_worker.rs])

    The handlers that connect the ZDPR sender and receiver of a peer to the
    wire: reliable packets, cancellation requests, acknowledgements, key
    management messages, and the retry timer. *)
From Stdlib Require Import ZArith Lia.
From stdpp Require Import base tactics option list functions.
From S2P Require Import Prelude Zdp ZdprReceiver ZdprSender ZdprSenderProps ZdprSenderThms.

Local Open Scope Z_scope.

Module Dispatch.

Inductive ManagementCounterType :=
| QueueBackpressure | DroppedAwaitingBind | DroppedNop | DroppedTooOld | DroppedTooNew
| DroppedDuplicate | DroppedNoSA | InternalRoutingError | BadMgmtResponse | UnknownTransaction
| OutOfOrderPacket | ResentPacket | UnknownPeer | PeerRemoved | PeerHandshakeSuccess
| PeerHandshakeFailure | SequenceError | UnknownType | BadStructure | OtherError
| VisaRequested | VisaByIdRequested | VisaRequestSuccess | VisaRequestDenied | VisaRequestError.

Definition zdpr_sender_stat_to_counter (sn_stat : Tx.SenderStat) : ManagementCounterType :=
  match sn_stat with
  | Tx.InvalidAck => BadMgmtResponse
  | Tx.TooOldAck => DroppedTooOld
  | Tx.DuplicateAck => DroppedDuplicate
  | Tx.TooNewAck => DroppedTooNew
  end.

Definition zdpr_receiver_stat_to_counter (sn_stat : Rx.ReceiverStat) : ManagementCounterType :=
  match sn_stat with
  | Rx.TooOld => DroppedTooOld
  | Rx.Duplicate => DroppedDuplicate
  | Rx.TooNew => DroppedTooNew
  | Rx.OutOfOrder => OutOfOrderPacket
  end.

(** [strum]'s [iter()]: the variants in order of declaration. *)
Definition sender_stats : list Tx.SenderStat :=
  [Tx.InvalidAck; Tx.TooOldAck; Tx.DuplicateAck; Tx.TooNewAck].
Definition receiver_stats : list Rx.ReceiverStat :=
  [Rx.TooOld; Rx.Duplicate; Rx.TooNew; Rx.OutOfOrder].

Section dispatch.
Context {Pkt : Type}.

(** What a handler does besides changing the peer state, in order. *)
Inductive Effect :=
| Count (c : ManagementCounterType) (n : Z)
| ToProcessor (seq_num : Z) (body : list Z)
| SendAcknowledgement (seq_num : Z)
| SendCanceled (seq_num : Z)
| SendCancel (seq_num : Z)
| Egress (seq_num : Z) (p : Pkt)
| ToKeyManagement (msg : list Z)
| RetryTimerReset.

Record Peer := mkPeer { zdpr_send : Tx.Sender Pkt; zdpr_recv : Rx.Receiver }.

Definition count_zdpr_sender_stats (sender : Tx.Sender Pkt) : Tx.Sender Pkt * list Effect :=
  foldl (fun '(s, es) stat =>
    let '(s', n) := Tx.fetch_reset_stat s stat in
    (s', es ++ [Count (zdpr_sender_stat_to_counter stat) n])) (sender, []) sender_stats.

Definition count_zdpr_receiver_stats (receiver : Rx.Receiver) : Rx.Receiver * list Effect :=
  foldl (fun '(r, es) stat =>
    let '(r', n) := Rx.fetch_reset_stat r stat in
    (r', es ++ [Count (zdpr_receiver_stat_to_counter stat) n])) (receiver, []) receiver_stats.

(** The answer to a disposition. *)
Definition answer (disp : Rx.Disposition) (seq_num : Z) : list Effect :=
  if Rx.should_ack disp then
    if Rx.ack_is_canceled disp then [SendCanceled seq_num] else [SendAcknowledgement seq_num]
  else [].

(** The part of [dispatch_mgmt_packet_with_link] for a reliable packet, once
    its header is parsed and its peer found; [room] is whether the processor
    queue takes the packet. *)
Definition reliable_packet (room : bool) (peer : Peer) (seq_num : Z) (body : list Z)
    : Peer * list Effect :=
  let receiver := zdpr_recv peer in
  let commit (queued : list Effect) :=
    let '(receiver1, disp) := Rx.process_packet receiver seq_num in
    let '(receiver2, counts) := count_zdpr_receiver_stats receiver1 in
    (mkPeer (zdpr_send peer) receiver2, queued ++ counts ++ answer disp seq_num) in
  if Rx.should_process_packet receiver seq_num then
    if room then commit [ToProcessor seq_num body]
    else (peer, [Count QueueBackpressure 1])
  else commit [].

Definition handle_cancel (peer : option Peer) (body : list Z) : option Peer * list Effect :=
  match Zdp.read_mgmt body with
  | None => (peer, [Count BadStructure 1])
  | Some (mgmt_hdr, _) =>
      let seq_num := Zdp.sequence_number mgmt_hdr in
      match peer with
      | None => (None, [Count PeerRemoved 1])
      | Some p =>
          let '(receiver1, disp) := Rx.process_cancel (zdpr_recv p) seq_num in
          let '(receiver2, counts) := count_zdpr_receiver_stats receiver1 in
          (Some (mkPeer (zdpr_send p) receiver2), counts ++ answer disp seq_num)
      end
  end.

(** [while sender.unblock_needed() { ... }].  Every iteration takes a packet
    out of the waiting queue, whose length is fuel enough. *)
Fixpoint unblock_loop (fuel : nat) (sender : Tx.Sender Pkt)
    : outcome (Tx.Sender Pkt * list Effect) :=
  if Tx.unblock_needed sender then
    match fuel with
    | O => mret (sender, [])
    | S fuel =>
        '(sender1, sn, pkt, _) ← Tx.enqueue_next_blocked_packet sender;
        '(sender2, es) ← unblock_loop fuel sender1;
        mret (sender2, Egress sn pkt :: es)
    end
  else mret (sender, []).

(** The body of [handle_acknowledgement_canceled_common] on a peer. *)
Definition acknowledged (is_canceled : bool) (peer : Peer) (seq_num : Z)
    : outcome (Peer * list Effect) :=
  sender1 ← (if is_canceled
             then '(s, _) ← Tx.process_canceled (zdpr_send peer) seq_num; mret s
             else '(s, _, _) ← Tx.process_ack (zdpr_send peer) seq_num; mret s);
  let '(sender2, counts) := count_zdpr_sender_stats sender1 in
  let old_retry_needed := Tx.retry_needed sender2 in
  '(sender3, sent) ← unblock_loop (length (Tx.blocked sender2)) sender2;
  let reset := if Tx.retry_needed sender3 && negb old_retry_needed
               then [RetryTimerReset] else [] in
  mret (mkPeer sender3 (zdpr_recv peer), counts ++ sent ++ reset).

Definition handle_acknowledgement_canceled_common (peer : option Peer) (body : list Z)
    (is_canceled : bool) : outcome (option Peer * list Effect) :=
  match Zdp.read_mgmt body with
  | None => mret (peer, [Count BadStructure 1])
  | Some (mgmt_hdr, _) =>
      match peer with
      | None => mret (None, [Count PeerRemoved 1])
      | Some p =>
          '(p', es) ← acknowledged is_canceled p (Zdp.sequence_number mgmt_hdr);
          mret (Some p', es)
      end
  end.

Definition handle_acknowledgement (peer : option Peer) (body : list Z) :=
  handle_acknowledgement_canceled_common peer body false.

Definition handle_canceled (peer : option Peer) (body : list Z) :=
  handle_acknowledgement_canceled_common peer body true.

(** The configured key-management method, the method numbers of the [zpr]
    crate, and the key-management component. *)
Context (km_impl KM_ID_NOISE KM_ID_NULL : Z).
Context (handle_inbound_km_msg : list Z -> bool).

Definition handle_key_management (body : list Z) : list Effect :=
  match Zdp.read_km body with
  | None => [Count BadStructure 1]
  | Some (km_hdr, rest) =>
      if ((Zdp.message_type km_hdr =? KM_ID_NOISE) && negb (km_impl =? KM_ID_NOISE)) ||
         ((Zdp.message_type km_hdr =? KM_ID_NULL) && negb (km_impl =? KM_ID_NULL))
      then [Count OtherError 1]
      else
        let km_msg_len := Zdp.message_length km_hdr in
        if zlen rest <? km_msg_len then [Count BadStructure 1]
        else
          let msg := take (Z.to_nat km_msg_len) rest in
          if handle_inbound_km_msg msg then [ToKeyManagement msg]
          else [ToKeyManagement msg; Count OtherError 1]
  end.

Definition dispatch_mgmt_packet_with_link (room : bool) (peer : option Peer) (body : list Z)
    : outcome (option Peer * list Effect) :=
  match Zdp.read_base body with
  | None => mret (peer, [Count BadStructure 1])
  | Some (base_hdr, rest) =>
      if Zdp.packet_type base_hdr =? Zdp.KeyManagement then mret (peer, handle_key_management rest)
      else if Zdp.packet_type base_hdr =? Zdp.Acknowledgement then handle_acknowledgement peer rest
      else if Zdp.packet_type base_hdr =? Zdp.Cancel then mret (handle_cancel peer rest)
      else if Zdp.packet_type base_hdr =? Zdp.Canceled then handle_canceled peer rest
      else
        '(mgmt_hdr, _) ← unwrap (Zdp.read_mgmt rest);
        match peer with
        | None => mret (None, [Count PeerRemoved 1])
        | Some p =>
            let '(p', es) := reliable_packet room p (Zdp.sequence_number mgmt_hdr) body in
            mret (Some p', es)
        end
  end.

(** One tick of the retry timer ([zdpr_worker.rs]); it runs when
    [retry_needed] is true. *)
Definition retry_tick (peer : Peer) : Peer * list Effect :=
  let '(sender, _) := Tx.age_retries (zdpr_send peer) in
  let packets := Tx.retry_packets sender in
  (mkPeer sender (zdpr_recv peer),
   map (fun '(sn, p) => Egress sn p) packets ++
   (if zlen packets =? 0 then [] else [Count ResentPacket (zlen packets)]) ++
   map SendCancel (Tx.retry_cancels sender)).

End dispatch.

Arguments Peer Pkt : clear implicits.
Arguments Effect Pkt : clear implicits.

End Dispatch.
