(* ===== verification/ZdprSettles.v ===== *)
(** * What settles a packet

    Of all the operations of a reliable ZDP sender, only an acknowledgement or
    a cancellation acknowledgement of a packet settles that packet. *)
From Stdlib Require Import ZArith Lia.
From stdpp Require Import base tactics option list gmap functions sorting relations.
From S2P Require Import Prelude ZdprSender ZdprSenderProps ZdprSenderThms.
Import Tx TxProps TxThms.

Local Open Scope Z_scope.

Module Settles.

Section settles.
Context {Pkt : Type}.
Implicit Types (s : Sender Pkt).

(** From [s] to [s'], the only packet newly settled is the one [hit] names, and
    it is newly cancel-acknowledged only if [hit] says so. *)
Definition Settles s s' (hit : option (Z * bool)) : Prop :=
  (forall k, is_done (state_at s' k) = true ->
     is_done (state_at s k) = true \/ exists c, hit = Some (k, c)) /\
  (forall k, state_at s' k = CANCEL_ACKED ->
     state_at s k = CANCEL_ACKED \/ hit = Some (k, true)).

Lemma settles_refl s hit : Settles s s hit.
Proof. split; by left. Qed.

Lemma settles_trans s s1 s2 hit : Settles s s1 hit -> Settles s1 s2 None -> Settles s s2 hit.
Proof.
  intros [A1 B1] [A2 B2]. split.
  - intros k [H|[c H]]%A2; [by apply A1|done].
  - intros k [H|H]%B2; [by apply B1|done].
Qed.

Lemma settles_same s s' hit :
  last_sent s' = last_sent s -> unacked s' = unacked s -> Settles s s' hit.
Proof.
  intros Hl Hu. assert (forall k, state_at s' k = state_at s k) as H.
  { intros k. unfold state_at, oldest, next. by rewrite Hl, Hu. }
  split; intros k; rewrite H; by left.
Qed.

Lemma state_at_insert s i st st' k :
  SCore s -> unacked s !! i = Some st ->
  state_at (set_unacked s (<[i:=st']> (unacked s))) k =
  (if decide (k = oldest s + Z.of_nat i) then pstate st' else state_at s k).
Proof.
  intros Hc Hi. pose proof (core_bounds s Hc).
  assert (oldest (set_unacked s (<[i:=st']> (unacked s))) = oldest s) as Ho
    by (unfold oldest; simpl; by rewrite zlen_insert).
  pose proof (oldest_index s i st Hc Hi) as [Hr Hn]. apply lookup_lt_Some in Hi.
  unfold state_at. rewrite Ho. change (next (set_unacked s _)) with (next s). simpl.
  destruct (decide _) as [->|Hne].
  - ztests. rewrite Hn. by rewrite list_lookup_insert_eq.
  - destruct (Z.leb_spec (next s) k); [done|]. destruct (Z.ltb_spec k (oldest s)); [done|].
    by rewrite list_lookup_insert_ne by lia.
Qed.

(** Replacing the state of the packet at index [i]. *)
Lemma settles_update s i st st' hit :
  SCore s -> unacked s !! i = Some st ->
  (is_done (pstate st') = true -> is_done (pstate st) = true \/
     exists c, hit = Some (oldest s + Z.of_nat i, c)) ->
  (pstate st' = CANCEL_ACKED ->
     pstate st = CANCEL_ACKED \/ hit = Some (oldest s + Z.of_nat i, true)) ->
  Settles s (set_unacked s (<[i:=st']> (unacked s))) hit.
Proof.
  intros Hc Hi Hd Ha. pose proof (state_at_slot s i st Hc Hi) as Hst.
  split; intros k; rewrite (state_at_insert s i st st' k Hc Hi);
    (destruct (decide _) as [->|]; [rewrite Hst; auto|by left]).
Qed.

Lemma settles_clean s : SCore s -> Settles s (clean_unacked_queue s) None.
Proof.
  intros Hc. pose proof (core_bounds s Hc) as Hb.
  destruct (clean_unacked_drop (unacked s)) as (n & E & Hn & Ha & _).
  assert (forall k, state_at (clean_unacked_queue s) k = state_at s k \/
            (state_at s k = ACKED /\ state_at (clean_unacked_queue s) k = FORGOTTEN)) as H.
  { intros k. assert (oldest (clean_unacked_queue s) = oldest s + Z.of_nat n) as Ho.
    { unfold oldest, clean_unacked_queue. simpl. rewrite E. unfold zlen. rewrite length_drop.
      change (next (set_unacked s _)) with (next s). lia. }
    unfold state_at. rewrite Ho. change (next (clean_unacked_queue s)) with (next s).
    change (unacked (clean_unacked_queue s)) with (clean_unacked_loop (unacked s)).
    rewrite E. ztests; try (by left).
    - right. by rewrite Ha by lia.
    - left. rewrite lookup_drop.
      by replace (n + Z.to_nat (k - (oldest s + Z.of_nat n)))%nat
        with (Z.to_nat (k - oldest s)) by lia. }
  split; intros k; destruct (H k) as [->|[-> ->]]; auto; done.
Qed.

Lemma settles_retire s i st st' s' hit :
  SInv s -> unacked s !! i = Some st ->
  (is_done (pstate st') = true -> is_done (pstate st) = true \/
     exists c, hit = Some (oldest s + Z.of_nat i, c)) ->
  (pstate st' = CANCEL_ACKED ->
     pstate st = CANCEL_ACKED \/ hit = Some (oldest s + Z.of_nat i, true)) ->
  retire s (Z.of_nat i) st' = Ret s' -> Settles s s' hit.
Proof.
  intros HI Hi Hd Ha. unfold retire. rewrite Nat2Z.id. intros E%clean_sent_frame.
  rewrite E. clear E. set (s1 := set_unacked s (<[i:=st']> (unacked s))).
  assert (SCore s1) as Hc1 by (apply SCore_set_unacked; [apply HI|by rewrite zlen_insert]).
  eapply settles_trans; [eapply settles_update; eauto using inv_core|]. fold s1.
  destruct (_ =? _); [|by apply settles_same].
  eapply settles_trans; [by apply settles_clean|]. by apply settles_same.
Qed.

Lemma settles_age s : SCore s -> Settles s (age_retries s).1 None.
Proof.
  intros Hc. pose proof (core_bounds s Hc).
  assert (oldest (age_retries s).1 = oldest s) as Ho
    by (unfold oldest, zlen; simpl; by rewrite length_map).
  assert (forall st : UnackedState Pkt, pstate (st_age_retries st).1 = pstate st \/
            pstate (st_age_retries st).1 = CANCEL_REQUESTED) as Hst.
  { intros [p w [l|] c f|w f| |]; simpl; auto. destruct (l <=? c); auto. }
  assert (forall k, state_at (age_retries s).1 k = state_at s k \/
            state_at (age_retries s).1 k = CANCEL_REQUESTED) as H1.
  { intros k. unfold state_at. rewrite Ho. change (next (age_retries s).1) with (next s).
    destruct (_ <=? _); [by left|]. destruct (_ <? _); [by left|].
    rewrite age_at. destruct (unacked s !! _); simpl; [apply Hst|by left]. }
  split; intros k; (destruct (H1 k) as [-> | ->]; [by left|done]).
Qed.

Lemma settles_pushed s p l b q hit :
  SInv s -> next s < LIMIT -> Settles s (pushed s p l b q) hit.
Proof.
  intros HI Hn. pose proof (core_bounds s (inv_core s HI)).
  assert (forall k, state_at (pushed s p l b q) k =
            if decide (k = next s) then UNACKED else state_at s k) as H1.
  { intros k. unfold state_at. rewrite pushed_next, pushed_oldest by (done || apply HI). simpl.
    destruct (decide _) as [->|Hne].
    - destruct (Z.leb_spec (next s + 1) (next s)); [lia|].
      destruct (Z.ltb_spec (next s) (oldest s)).
      { unfold oldest in *. pose proof (zlen_nonneg (unacked s)). lia. }
      replace (Z.to_nat (next s - oldest s)) with (length (unacked s)) by (unfold oldest, zlen; lia).
      by rewrite list_lookup_middle.
    - destruct (Z.leb_spec (next s + 1) k), (Z.leb_spec (next s) k); try lia; try done.
      destruct (Z.ltb_spec k (oldest s)); [done|].
      rewrite lookup_app_l; [done|]. unfold oldest, zlen in *. lia. }
  split; intros k; rewrite H1; (destruct (decide _); [done|by left]).
Qed.

Lemma settles_clean_blocked s s1 hit : Settles s s1 hit -> Settles s (clean_blocked_queue s1) hit.
Proof.
  intros H. destruct (clean_blocked_frame s1) as (Hl & Hu & _).
  eapply settles_trans; [exact H|]. by apply settles_same.
Qed.

(** The sequence number an operation acknowledges. *)
Definition hits (op : Op Pkt) : option (Z * bool) :=
  match op with
  | OAck sn => Some (sn, false)
  | OCanceled sn => Some (sn, true)
  | _ => None
  end.

Lemma slot_number s sn (i : nat) :
  SCore s -> 0 <= sn <= LIMIT -> Z.of_nat i = zlen (unacked s) + offset_of sn (last_sent s) - 1 ->
  oldest s + Z.of_nat i = sn.
Proof.
  intros Hc Hsn Hi. pose proof (core_bounds s Hc).
  rewrite (core_last_sent s Hc), offset_near in Hi by lia. unfold oldest. lia.
Qed.

Lemma ack_settles s sn s' p ws :
  SInv s -> 0 <= sn <= LIMIT -> process_ack s sn = Ret (s', p, ws) ->
  Settles s s' (Some (sn, false)).
Proof.
  intros HI Hsn. pose proof (inv_core s HI) as Hc. pose proof (core_bounds s Hc).
  assert (offset_of sn (last_sent s) <> - 2 ^ 63) as Hm
    by (rewrite (core_last_sent s Hc), offset_near by lia; unfold LIMIT in *; lia).
  unfold process_ack, lookup_ack_index. locate_sn Hc Hm.
  - intros [= <- _ _]. by apply settles_same.
  - intros [= <- _ _]. by apply settles_same.
  - pose proof (slot_number s sn i Hc Hsn Hio) as Hk.
    destruct st as [q w l c f|w f| |]; try (intros [= <- _ _]; by apply settles_same);
      (destruct (retire s (Z.of_nat i) Acked) as [s2|] eqn:Er; [|done]); intros [= <- _ _];
      (eapply (settles_retire s i _ Acked); [done|done| |done|exact Er]); rewrite Hk; eauto.
Qed.

Lemma canceled_settles s sn s' ws :
  SInv s -> 0 <= sn <= LIMIT -> process_canceled s sn = Ret (s', ws) ->
  Settles s s' (Some (sn, true)).
Proof.
  intros HI Hsn. pose proof (inv_core s HI) as Hc. pose proof (core_bounds s Hc).
  assert (offset_of sn (last_sent s) <> - 2 ^ 63) as Hm
    by (rewrite (core_last_sent s Hc), offset_near by lia; unfold LIMIT in *; lia).
  unfold process_canceled, lookup_ack_index. locate_sn Hc Hm.
  - intros [= <- _]. by apply settles_same.
  - intros [= <- _]. by apply settles_same.
  - pose proof (slot_number s sn i Hc Hsn Hio) as Hk.
    destruct st as [q w l c f|w f| |]; try (intros [= <- _]; by apply settles_same).
    destruct (retire s (Z.of_nat i) _) as [s2|] eqn:Er; [|done]. intros [= <- _].
    eapply settles_retire; [done|done| | |done]; rewrite Hk; eauto.
Qed.

Lemma limit_sn_settles s sn l s' :
  SInv s -> limit_retries_by_seq_num s sn l = Ret s' -> Settles s s' None.
Proof.
  intros HI. unfold limit_retries_by_seq_num.
  destruct (_ || _); [intros [= <-]; apply settles_refl|].
  index_inv. intros [= <-]. eapply settles_update; [apply HI|done| |]; destruct x; auto.
Qed.

Lemma cancel_queued_settles s id s' p ws :
  cancel_queued_packet s id = Ret (s', p, ws) -> Settles s s' None.
Proof.
  unfold cancel_queued_packet. destruct (rust_assert _); [|done]. simpl.
  destruct (beyond _ _); [intros [= <- _ _]; apply settles_refl|].
  index_inv. destruct (bl_cancel x) as [st' [[q w]|]]; intros [= <- _ _]; [|apply settles_refl].
  destruct (_ =? _); [apply settles_clean_blocked|]; by apply settles_same.
Qed.

Lemma forget_settles s sn s' :
  SInv s -> 0 <= sn <= LIMIT -> forget_canceled_packet s sn = Ret s' -> Settles s s' None.
Proof.
  intros HI Hsn. pose proof (inv_core s HI) as Hc. pose proof (core_bounds s Hc).
  assert (offset_of sn (last_sent s) <> - 2 ^ 63) as Hm
    by (rewrite (core_last_sent s Hc), offset_near by lia; unfold LIMIT in *; lia).
  unfold forget_canceled_packet. locate_sn Hc Hm.
  - intros [= <-]. apply settles_refl.
  - intros [= <-]. apply settles_refl.
  - fold (retire s (Z.of_nat i) (st_forget st)). intros E.
    eapply settles_retire; [done|done| | |exact E];
      destruct st as [? ? [] ? ?|? ?| |]; simpl; auto.
Qed.

(** Sequence numbers given to an operation belong to the session. *)
Definition in_session (op : Op Pkt) : Prop :=
  match op with
  | OAck sn | OCanceled sn | OCancelSent sn | OLimitSeqNum sn _ | OForget sn | OPollAck _ sn =>
      0 <= sn <= LIMIT
  | _ => True
  end.

Lemma exec_settles s op r :
  SInv s -> op_ok s op -> in_session op -> exec s op = Ret r -> Settles s (r_s r) (hits op).
Proof.
  intros HI Hok Hin. destruct op as [p| |sn|sn|id|sn|sn l|id l|sn| |w|cx id|cx sn|st]; simpl in *.
  - unfold enqueue_packet. destruct (_ || _); intros [= <-]; simpl; [by apply settles_same|].
    apply settles_pushed; tauto.
  - unfold enqueue_next_blocked_packet. destruct (rust_assert _); [|done]. simpl.
    destruct (blocked s) as [|[q w l|] b]; try done. simpl. intros [= <-]. simpl.
    apply settles_clean_blocked, (settles_pushed s q l b (sent s ++ [Some (next s)])); tauto.
  - destruct (process_ack s sn) as [[[s' p] ws]|] eqn:E; [|done]. intros [= <-].
    by eapply ack_settles.
  - destruct (process_canceled s sn) as [[s' ws]|] eqn:E; [|done]. intros [= <-].
    by eapply canceled_settles.
  - destruct (cancel_queued_packet s id) as [[[s' p] ws]|] eqn:E; [|done]. intros [= <-].
    by eapply cancel_queued_settles.
  - unfold cancel_sent_packet. destruct (_ || _); [intros [= <-]; apply settles_refl|].
    index_inv. destruct (st_cancel x) as [st' p] eqn:Ex. intros [= <-].
    eapply settles_update; [apply HI|done| |]; destruct x; simplify_eq/=; auto; done.
  - destruct (limit_retries_by_seq_num s sn l) eqn:E; [|done]. intros [= <-].
    by eapply limit_sn_settles.
  - unfold limit_retries_by_id. destruct (rust_assert _); [|done]. simpl.
    destruct (beyond _ _).
    + destruct (lookup_seq_num s id) as [[sn|]|]; try done; simpl.
      * destruct (limit_retries_by_seq_num s sn l) eqn:E; [|done]. intros [= <-].
        by eapply limit_sn_settles.
      * intros [= <-]. apply settles_refl.
    + index_inv. intros [= <-]. by apply settles_same.
  - destruct (forget_canceled_packet s sn) eqn:E; [|done]. intros [= <-].
    by eapply forget_settles.
  - intros [= <-]. apply settles_age, HI.
  - unfold adjust_window_size. destruct (rust_assert _); [|done]. intros [= <-].
    by apply settles_same.
  - unfold poll_send. destruct (rust_assert _); [|done]. simpl. destruct (beyond _ _).
    + destruct (lookup_seq_num s id); [|done]. intros [= <-]. apply settles_refl.
    + index_inv. destruct x; [|done]. intros [= <-]. by apply settles_same.
  - unfold poll_ack. destruct (rust_assert _); [|done]. simpl.
    destruct (beyond _ _); [intros [= <-]; apply settles_refl|].
    index_inv. destruct x; intros [= <-]; try apply settles_refl;
      (eapply settles_update; [apply HI|done| |]; done).
  - intros [= <-]. by apply settles_same.
Qed.

End settles.
End Settles.
