(* ===== verification/ZdprLink.v ===== *)
(** * A reliable ZDP session end to end

    Two peers that run the dispatch handlers, joined by a network that may
    lose, duplicate, delay and reorder every message.  Reachability invariant
    and the end-to-end guarantees: exactly-once delivery of what was sent, the
    meaning of acknowledgements, and the compatibility of the two windows. *)
From Stdlib Require Import ZArith Lia.
From stdpp Require Import base tactics option list gmap functions sorting relations.
From S2P Require Import Prelude Zdp ZdprReceiver ZdprSender ZdprSenderProps ZdprSenderThms.
From S2P Require Import ZdprSettles Dispatch.
Import TxProps TxThms Settles Dispatch.

Local Open Scope Z_scope.

Module Link.

Notation Bytes := (list Z).

(** Messages from the sending to the receiving peer. *)
Inductive Fwd := Data (k : Z) (p : Bytes) | CancelMsg (k : Z).

Definition data (x : Z * Bytes) : Fwd := Data x.1 x.2.

(** What the handlers' effects put on the wire or hand to the processor. *)
Definition acks_of (es : list (Effect Bytes)) : list (Z * bool) :=
  omap (fun e => match e with
                 | SendAcknowledgement k => Some (k, false)
                 | SendCanceled k => Some (k, true)
                 | _ => None end) es.
Definition fwds_of (es : list (Effect Bytes)) : list Fwd :=
  omap (fun e => match e with
                 | Egress k p => Some (Data k p)
                 | SendCancel k => Some (CancelMsg k)
                 | _ => None end) es.
Definition transmissions_of (es : list (Effect Bytes)) : list (Z * Bytes) :=
  omap (fun e => match e with Egress k p => Some (k, p) | _ => None end) es.
Definition deliveries_of (es : list (Effect Bytes)) : list (Z * Bytes) :=
  omap (fun e => match e with ToProcessor k p => Some (k, p) | _ => None end) es.

(** The two peers, every message ever put on the wire in either direction,
    the first transmissions, and the packets handed to the processor. *)
Record State := mkState {
  pA : Peer Bytes;
  pB : Peer Bytes;
  fwd : list Fwd;
  bwd : list (Z * bool);
  tx : list (Z * Bytes);
  delivered : list (Z * Bytes)
}.

Section link.
(** The window of the receiving peer. *)
Context (w : Z).

Definition initial (l : State) : Prop :=
  zdpr_send (pA l) = Tx.new /\ Rx.new w = Ret (zdpr_recv (pB l)) /\
  fwd l = [] /\ bwd l = [] /\ tx l = [] /\ delivered l = [].

(** Operations of the sending application: everything but the acknowledgements,
    which come from the network; the window is never set above the receiver's. *)
Definition local_op (op : Op Bytes) : Prop :=
  hits op = None /\ in_session op /\
  match op with OAdjust w' => w' <= w | _ => True end.

(** There is room in the session for the packets waiting. *)
Definition room_left (s : Tx.Sender Bytes) : Prop := next s + zlen (Tx.blocked s) < LIMIT.

(** The cancellation request that [request_cancel_internal] of [mgmt/core.rs] sends
    at once, when the packet was waiting for its acknowledgement. *)
Definition immediate_cancel (op : Op Bytes) (r : Res Bytes) : list Fwd :=
  match op, r_back r with OCancelSent sn, _ :: _ => [CancelMsg sn] | _, _ => [] end.

Inductive step : State -> State -> Prop :=
| step_local l op r :
    local_op op -> op_ok (zdpr_send (pA l)) op -> exec (zdpr_send (pA l)) op = Ret r ->
    step l (mkState (mkPeer (r_s r) (zdpr_recv (pA l))) (pB l)
              (fwd l ++ map data (r_tx r) ++ immediate_cancel op r) (bwd l) (tx l ++ r_tx r)
              (delivered l))
| step_retry l A' es :
    retry_tick (pA l) = (A', es) ->
    step l (mkState A' (pB l) (fwd l ++ fwds_of es) (bwd l) (tx l) (delivered l))
| step_data l k p room B' es :
    Data k p ∈ fwd l -> reliable_packet room (pB l) k p = (B', es) ->
    step l (mkState (pA l) B' (fwd l) (bwd l ++ acks_of es) (tx l)
              (delivered l ++ deliveries_of es))
| step_cancel l k B' es :
    CancelMsg k ∈ fwd l ->
    handle_cancel (Some (pB l)) (Zdp.mgmt_bytes (Zdp.mkMgmt k)) = (Some B', es) ->
    step l (mkState (pA l) B' (fwd l) (bwd l ++ acks_of es) (tx l)
              (delivered l ++ deliveries_of es))
| step_ack l k c A' es :
    (k, c) ∈ bwd l -> room_left (zdpr_send (pA l)) ->
    acknowledged c (pA l) k = Ret (A', es) ->
    step l (mkState A' (pB l) (fwd l ++ fwds_of es) (bwd l) (tx l ++ transmissions_of es)
              (delivered l)).

Definition reachable (l : State) : Prop := exists l0, initial l0 /\ rtc step l0 l.

(** ** The invariant *)

(** What the receiving side, abstractly [a], knows of the sender [s]. *)
Record RInv (s : Tx.Sender Bytes) (l : State) (a : Rx.ARecv) : Prop := {
  r_known : forall k, k ∈ Rx.accepted a -> k < next s;
  r_hi : Rx.hi a < next s;
  r_bwd : forall k c, (k, c) ∈ bwd l ->
    k ∈ Rx.accepted a /\ c = bool_decide (k ∈ Rx.cancelled a);
  r_done : forall k, 0 <= k -> is_done (state_at s k) = true -> k ∈ Rx.accepted a;
  r_canceled : forall k, 0 <= k -> state_at s k = CANCEL_ACKED -> k ∈ Rx.cancelled a;
  r_asked : forall k, k ∈ Rx.cancelled a -> CancelMsg k ∈ fwd l;
  r_once : NoDup (delivered l).*1;
  r_delivered : forall k, k ∈ (delivered l).*1 <-> k ∈ Rx.accepted a /\ k ∉ Rx.cancelled a;
  r_intact : forall k p, (k, p) ∈ delivered l -> (k, p) ∈ tx l
}.

Record LInv (l : State) : Prop := {
  l_run : exists ops back, RunSpec ops (zdpr_send (pA l)) back (tx l);
  l_window : Tx.window_size (zdpr_send (pA l)) <= w /\
             zlen (Tx.unacked (zdpr_send (pA l))) <= w;
  l_fwd : forall k p, Data k p ∈ fwd l -> (k, p) ∈ tx l;
  l_sent : forall k p, (k, p) ∈ tx l -> Data k p ∈ fwd l;
  l_cancel : forall k, CancelMsg k ∈ fwd l ->
    0 <= k < next (zdpr_send (pA l)) /\
    state_at (zdpr_send (pA l)) k <> UNSENT /\ state_at (zdpr_send (pA l)) k <> UNACKED;
  l_recv : exists a, Rx.Rel w (zdpr_recv (pB l)) a /\ RInv (zdpr_send (pA l)) l a
}.

(** ** Sender steps *)

Lemma exec_window s (op : Op Bytes) r :
  exec s op = Ret r ->
  Tx.window_size (r_s r) = Tx.window_size s \/
  exists w', op = OAdjust w' /\ Tx.window_size (r_s r) <= w'.
Proof.
  assert (forall s1 s2 : Tx.Sender Bytes,
    Tx.clean_sent_queue s1 = Ret s2 -> Tx.window_size s2 = Tx.window_size s1) as Hcs
    by (intros s1 s2 E%clean_sent_frame; by rewrite E).
  assert (forall s1 : Tx.Sender Bytes, Tx.window_size (Tx.clean_blocked_queue s1) = Tx.window_size s1)
    as Hcb by (intros s1; unfold Tx.clean_blocked_queue; by destruct (Tx.clean_blocked_loop _ _)).
  assert (forall (s1 s2 : Tx.Sender Bytes) i st,
    Tx.retire s1 i st = Ret s2 -> Tx.window_size s2 = Tx.window_size s1) as Hr
    by (intros s1 s2 i st E%Hcs; rewrite E; by destruct (i =? 0)).
  assert (forall (s1 s2 : Tx.Sender Bytes) sn o,
    Tx.lookup_ack_index s1 sn = (s2, o) -> Tx.window_size s2 = Tx.window_size s1) as Hl
    by (intros s1 s2 sn o; unfold Tx.lookup_ack_index; repeat case_match; by intros [= <- _]).
  intros E. destruct op as [p| |sn|sn|id|sn|sn l|id l|sn| |w'|cx id|cx sn|st]; simpl in E;
    unfold Tx.process_ack, Tx.process_canceled, Tx.cancel_queued_packet, Tx.cancel_sent_packet,
      Tx.limit_retries_by_id, Tx.limit_retries_by_seq_num, Tx.adjust_window_size, Tx.poll_send,
      Tx.poll_ack, Tx.forget_canceled_packet, Tx.enqueue_packet, Tx.enqueue_next_blocked_packet in E;
    repeat first [progress outcome_inv | progress simplify_eq/= | case_match
                 | match goal with x : _ * _ |- _ => destruct x end];
    first [by left | left; by rewrite Hcb | left; by erewrite Hl by done
          | left; etransitivity; [by eapply Hr|by eapply Hl]
          | left; by erewrite Hcs by done
          | right; eexists; split; [done|]; simpl; lia].
Qed.

(** An operation the link may perform: a local one, or the acknowledgement of
    a message on the wire. *)
Definition link_op (l : State) (op : Op Bytes) : Prop :=
  in_session op /\
  match hits op with Some x => x ∈ bwd l | None => True end /\
  match op with OAdjust w' => w' <= w | _ => True end.

Definition advance (l : State) (s : Tx.Sender Bytes) (new_tx : list (Z * Bytes)) : State :=
  mkState (mkPeer s (zdpr_recv (pA l))) (pB l) (fwd l ++ map data new_tx) (bwd l)
    (tx l ++ new_tx) (delivered l).

Lemma past_unacked x y :
  rtc pstep x y -> x <> UNSENT /\ x <> UNACKED -> y <> UNSENT /\ y <> UNACKED.
Proof.
  induction 1 as [|x y z H _ IH]; [done|]. intros [Hx1 Hx2]. apply IH.
  by inversion H; subst.
Qed.

Lemma advance_fwd l s new_tx m :
  m ∈ fwd (advance l s new_tx) <-> m ∈ fwd l \/ exists k p, m = Data k p /\ (k, p) ∈ new_tx.
Proof.
  simpl. rewrite elem_of_app, list_elem_of_fmap. split.
  - intros [?|([k p] & -> & ?)]; [auto|]. right. by exists k, p.
  - intros [?|(k & p & -> & ?)]; [auto|]. right. by exists (k, p).
Qed.

Lemma exec_rinv l s op r a :
  SInv s -> op_ok s op -> exec s op = Ret r -> link_op l op -> RInv s l a ->
  RInv (r_s r) (advance l (r_s r) (r_tx r)) a.
Proof.
  intros HI Hok E (Hin & Hhit & _) [Hkn Hhi Hbwd Hdone Hcan Hask Honce Hdel Hint].
  destruct (exec_frame s op r HI Hok E) as [_ Fn _ _ _ _]. pose proof (zlen_nonneg (r_tx r)).
  destruct (exec_settles s op r HI Hok Hin E) as [Sd Sc]. split; simpl; try done.
  - intros k Hk. apply Hkn in Hk. lia.
  - lia.
  - intros k Hk0 [?|[c Hc]]%Sd; [auto|]. rewrite Hc in Hhit. by apply Hbwd in Hhit as [? _].
  - intros k Hk0 [?|Hc]%Sc; [auto|]. rewrite Hc in Hhit. apply Hbwd in Hhit as [_ Hc'].
    symmetry in Hc'. by apply bool_decide_eq_true_1 in Hc'.
  - intros k Hk%Hask. apply elem_of_app. auto.
  - intros k p Hk%Hint. apply elem_of_app. auto.
Qed.

Lemma exec_linv l op r :
  LInv l -> op_ok (zdpr_send (pA l)) op -> exec (zdpr_send (pA l)) op = Ret r -> link_op l op ->
  LInv (advance l (r_s r) (r_tx r)).
Proof.
  intros [(ops & back & HR) [Hw Hu] Hf Hs Hc (a & Hrel & HRI)] Hok E Hop.
  set (s := zdpr_send (pA l)) in *. pose proof (rs_inv _ _ _ _ HR) as HI.
  destruct (exec_frame s op r HI Hok E) as [_ Fn _ Fo Fl F1].
  destruct (exec_good s op HI Hok) as (r' & E' & HG). rewrite E in E'. injection E' as <-.
  pose proof (zlen_nonneg (r_tx r)). split.
  - exists (ops ++ [op]), (back ++ r_back r). by apply run_spec_step with s.
  - change (zdpr_send (pA (advance l (r_s r) (r_tx r)))) with (r_s r).
    split.
    + destruct (exec_window s op r E) as [-> |(w' & -> & ?)]; [done|].
      destruct Hop as (_ & _ & ?). lia.
    + destruct (r_tx r) eqn:Et; [unfold zlen in *; simpl in *; lia|].
      specialize (Fo ltac:(done)). lia.
  - intros k p [?|(? & ? & [= <- <-] & ?)]%advance_fwd; apply elem_of_app; auto.
  - intros k p Hk. apply advance_fwd. simpl in Hk. apply elem_of_app in Hk as [?|?]; eauto 10.
  - intros k [Hk|(? & ? & ? & ?)]%advance_fwd; [|done].
    change (zdpr_send (pA (advance l (r_s r) (r_tx r)))) with (r_s r).
    apply Hc in Hk as (Hk & Hst). split; [lia|].
    by apply (past_unacked (state_at s k)); [apply HG|].
  - exists a. split; [done|]. by apply exec_rinv with s op.
Qed.

Lemma runs_linv ops : forall l s' back new_tx,
  LInv l -> runs (zdpr_send (pA l)) ops s' back new_tx -> Forall (link_op l) ops ->
  LInv (advance l s' new_tx).
Proof.
  induction ops as [|op ops IH]; intros l s' back new_tx HL HR Hops;
    inversion HR as [|? ? r ? ? ? ? Hok E HR']; subst.
  - unfold advance. simpl. rewrite !app_nil_r. by destruct l as [[] ? ? ? ? ?].
  - apply list.Forall_cons in Hops as [Hop Hops].
    pose proof (exec_linv l op r HL Hok E Hop) as HL1.
    specialize (IH (advance l (r_s r) (r_tx r)) s' _ _ HL1 HR' Hops).
    unfold advance in *. simpl in *. by rewrite map_app, !app_assoc.
Qed.

End link.

(** ** The acknowledgement handler as a run of sender operations *)

Lemma unblock_loop_runs fuel : forall s : Tx.Sender Bytes,
  SInv s -> next s + zlen (Tx.blocked s) <= LIMIT -> (length (Tx.blocked s) <= fuel)%nat ->
  exists s' es n, unblock_loop fuel s = Ret (s', es) /\
    runs s (replicate n OUnblock) s' [] (transmissions_of es) /\
    fwds_of es = map data (transmissions_of es) /\ Tx.unblock_needed s' = false.
Proof.
  induction fuel as [|fuel IH]; intros s HI Hroom Hfuel; simpl;
    destruct (Tx.unblock_needed s) eqn:Hu;
    try (exists s, [], 0%nat; repeat split; [constructor|done]).
  { unfold Tx.unblock_needed, Tx.has_blocked_packets in Hu.
    destruct (Tx.blocked s); [|simpl in Hfuel; lia]. by rewrite andb_false_r in Hu. }
  assert (next s < LIMIT) as Hn.
  { unfold Tx.unblock_needed, Tx.has_blocked_packets in Hu. unfold zlen in Hroom.
    destruct (Tx.blocked s); simpl in *; [by rewrite andb_false_r in Hu|lia]. }
  destruct (unblock_good s HI Hu Hn) as (s1 & sn & p & ws & E & HG).
  assert (exec s OUnblock = Ret (mkRes s1 [] [(sn, p)])) as Ex by (simpl; by rewrite E).
  destruct (exec_frame s OUnblock _ HI (conj Hu Hn) Ex) as [_ Fn _ _ _ _]. simpl in Fn.
  assert ((length (Tx.blocked s1) < length (Tx.blocked s))%nat) as Hlen.
  { unfold Tx.enqueue_next_blocked_packet in E. outcome_inv.
    destruct (Tx.blocked s) as [|[q w l|] b]; outcome_inv. simplify_eq.
    unfold Tx.clean_blocked_queue. simpl.
    destruct (clean_blocked_full b (Tx.sent s ++ [Some (wrapping_add 64 (Tx.last_sent s) 1)]))
      as (n & -> & _). simpl. rewrite length_drop. lia. }
  destruct (IH s1) as (s' & es & n & E' & HR & Hf & Hu').
  { apply HG. } { unfold zlen in *. simpl in *. lia. } { lia. }
  exists s', (Egress sn p :: es), (S n). rewrite E. simpl. rewrite E'. simpl.
  split; [done|]. split; [|split; [|done]].
  - change [] with ([] ++ [] : list Bytes). change ((sn, p) :: ?x) with ([(sn, p)] ++ x).
    by apply (runs_cons s OUnblock (mkRes s1 [] [(sn, p)])).
  - by rewrite Hf.
Qed.

Lemma near_offset (s : Tx.Sender Bytes) k :
  SInv s -> 0 <= k <= LIMIT -> Tx.offset_of k (Tx.last_sent s) <> - 2 ^ 63.
Proof.
  intros HI Hk. pose proof (core_bounds s (inv_core s HI)).
  rewrite (core_last_sent s (inv_core s HI)), offset_near by lia. unfold LIMIT in *. lia.
Qed.

Definition ack_op (c : bool) (k : Z) : Op Bytes := if c then OCanceled k else OAck k.

Lemma retire_blocked (s s' : Tx.Sender Bytes) i st :
  Tx.retire s i st = Ret s' -> Tx.blocked s' = Tx.blocked s.
Proof. unfold Tx.retire. intros E%clean_sent_frame. rewrite E. by destruct (i =? 0). Qed.

Lemma ack_blocked (s s1 : Tx.Sender Bytes) sn o :
  Tx.lookup_ack_index s sn = (s1, o) -> Tx.blocked s1 = Tx.blocked s.
Proof. unfold Tx.lookup_ack_index. repeat case_match; by intros [= <- _]. Qed.

Lemma ack_op_blocked s c k r :
  exec s (ack_op c k) = Ret r -> Tx.blocked (r_s r) = Tx.blocked s.
Proof.
  destruct c; simpl; unfold Tx.process_ack, Tx.process_canceled; intros E;
    repeat first [progress outcome_inv | progress simplify_eq/= | case_match
                 | match goal with x : _ * _ |- _ => destruct x end];
    first [by eapply ack_blocked
          | etransitivity; [by eapply retire_blocked|by eapply ack_blocked]].
Qed.

Lemma count_stats_runs (s : Tx.Sender Bytes) s' es :
  count_zdpr_sender_stats s = (s', es) ->
  s' = Tx.set_stats s (Tx.stats s') /\ runs s (map OStat sender_stats) s' [] [] /\
  transmissions_of es = [] /\ fwds_of es = [].
Proof.
  intros [= <- <-]. split; [done|]. split; [|done].
  apply run_runs; [by repeat split|done].
Qed.

Lemma runs_app (s : Tx.Sender Bytes) ops1 s1 b1 t1 ops2 s2 b2 t2 :
  runs s ops1 s1 b1 t1 -> runs s1 ops2 s2 b2 t2 -> runs s (ops1 ++ ops2) s2 (b1 ++ b2) (t1 ++ t2).
Proof.
  induction 1 as [|s op r ops s' back tx Hok E _ IH]; intros H2; [done|].
  simpl. rewrite <- !app_assoc. eapply runs_cons; eauto.
Qed.

(** The first step of the handler, which transmits nothing. *)
Lemma ack_op_first s c k r :
  exec s (ack_op c k) = Ret r ->
  r_tx r = [] /\
  (if c then '(s', _) ← Tx.process_canceled s k; mret s'
   else '(s', _, _) ← Tx.process_ack s k; mret s') = Ret (r_s r).
Proof.
  intros E. destruct c; simpl in *; outcome_inv;
    repeat match goal with x : _ * _ |- _ => destruct x end; outcome_inv;
    (split; [done|]); match goal with H : _ = Ret _ |- _ => by rewrite H end.
Qed.

Lemma acknowledged_runs (A : Peer Bytes) c k :
  SInv (zdpr_send A) -> room_left (zdpr_send A) ->
  Tx.offset_of k (Tx.last_sent (zdpr_send A)) <> - 2 ^ 63 ->
  exists A' es n back, acknowledged c A k = Ret (A', es) /\
    runs (zdpr_send A) (ack_op c k :: map OStat sender_stats ++ replicate n OUnblock)
      (zdpr_send A') back (transmissions_of es) /\
    fwds_of es = map data (transmissions_of es) /\ zdpr_recv A' = zdpr_recv A /\
    Tx.unblock_needed (zdpr_send A') = false.
Proof.
  intros HI Hroom Hk. set (s := zdpr_send A) in *.
  pose proof (core_bounds s (inv_core s HI)) as Hb.
  assert (op_ok s (ack_op c k)) as Hok by (by destruct c).
  destruct (exec_good s _ HI Hok) as (r & Er & HG).
  destruct (exec_frame s _ r HI Hok Er) as [_ Fn _ _ _ _].
  destruct (ack_op_first s c k r Er) as [Htx Hfirst].
  rewrite Htx in Fn. unfold zlen in Fn. simpl in Fn.
  destruct (count_zdpr_sender_stats (r_s r)) as [s2 counts] eqn:Ec.
  destruct (count_stats_runs _ _ _ Ec) as (Hs2 & Hr2 & Ht2 & Hf2).
  pose proof (ack_op_blocked s c k r Er) as Hbl.
  destruct (unblock_loop_runs (length (Tx.blocked s2)) s2) as (s3 & es & n & El & Hr3 & Hf3 & Hu).
  { rewrite Hs2. apply SInv_set_stats, HG. }
  { unfold room_left in Hroom. rewrite Hs2. simpl. rewrite Hbl.
    change (next (Tx.set_stats (r_s r) (Tx.stats s2))) with (next (r_s r)). lia. }
  { done. }
  set (rst := if Tx.retry_needed s3 && negb (Tx.retry_needed s2)
              then [RetryTimerReset (Pkt:=Bytes)] else []).
  exists (mkPeer s3 (zdpr_recv A)), (counts ++ es ++ rst), n, (r_back r ++ [] ++ []).
  assert (transmissions_of (counts ++ es ++ rst) = r_tx r ++ [] ++ transmissions_of es) as Ht.
  { unfold transmissions_of in *. rewrite !omap_app, Ht2, Htx. simpl.
    unfold rst. destruct (_ && _); by rewrite app_nil_r. }
  split; [|split; [|split; [|done]]].
  - unfold acknowledged. fold s.
    rewrite Hfirst, bind_Ret, Ec. cbv zeta. by rewrite El.
  - rewrite Ht. simpl zdpr_send. eapply runs_cons; [done|done|]. by eapply runs_app.
  - unfold fwds_of in *. rewrite !omap_app, Hf2, Hf3, Ht, Htx. simpl.
    unfold rst. destruct (_ && _); by rewrite app_nil_r.
Qed.

(** ** Receiver steps *)

Lemma count_recv_stats r : exists st es,
  count_zdpr_receiver_stats r =
    (Rx.mkReceiver (Rx.window_size r) (Rx.highest_seen r) (Rx.recvd r) (Rx.canceled r) st, es) /\
  acks_of es = [] /\ deliveries_of es = [].
Proof. do 2 eexists. split; [reflexivity|]. done. Qed.

(** What a disposition makes a handler send and deliver. *)
Definition ack_list (d : Rx.Disposition) (k : Z) : list (Z * bool) :=
  if Rx.should_ack d then [(k, Rx.ack_is_canceled d)] else [].
Definition delivery_list (d : Rx.Disposition) (k : Z) (p : Bytes) : list (Z * Bytes) :=
  if Rx.should_process d then [(k, p)] else [].

Lemma answer_effects d k :
  acks_of (answer d k) = ack_list d k /\ deliveries_of (answer d k) = [].
Proof. by destruct d. Qed.

(** [r2] is [r1] with other statistics. *)
Definition same_window (r1 r2 : Rx.Receiver) : Prop :=
  exists st, r2 = Rx.mkReceiver (Rx.window_size r1) (Rx.highest_seen r1) (Rx.recvd r1)
                    (Rx.canceled r1) st.

Lemma reliable_effects room B k p B' es :
  reliable_packet room B k p = (B', es) ->
  (B' = B /\ acks_of es = [] /\ deliveries_of es = [] /\ room = false) \/
  (same_window (Rx.process_packet (zdpr_recv B) k).1 (zdpr_recv B') /\
   acks_of es = ack_list (Rx.process_packet (zdpr_recv B) k).2 k /\
   deliveries_of es = delivery_list (Rx.process_packet (zdpr_recv B) k).2 k p).
Proof.
  unfold reliable_packet. rewrite Rx.should_process_iff.
  destruct (Rx.process_packet (zdpr_recv B) k) as [r1 d]. cbn [fst snd].
  destruct (count_recv_stats r1) as (st & es1 & E & Ha & Hd). rewrite E.
  destruct (answer_effects d k) as [Ha' Hd'].
  destruct (Rx.should_process d) eqn:Ep; [destruct room|]; intros [= <- <-];
    [right|by left|right]; (split; [by exists st|]);
    unfold acks_of, deliveries_of, delivery_list in *; rewrite Ep, ?omap_app; simpl;
    rewrite ?omap_app, Ha, Ha', Hd, Hd'; by split.
Qed.

Lemma cancel_effects B k B' es :
  u64 k ->
  handle_cancel (Some B) (Zdp.mgmt_bytes (Zdp.mkMgmt k)) = (Some B', es) ->
  same_window (Rx.process_cancel (zdpr_recv B) k).1 (zdpr_recv B') /\
  acks_of es = ack_list (Rx.process_cancel (zdpr_recv B) k).2 k /\ deliveries_of es = [].
Proof.
  intros Hk. unfold handle_cancel.
  rewrite <- (app_nil_r (Zdp.mgmt_bytes _)), Zdp.read_mgmt_bytes by done.
  cbn [Zdp.sequence_number].
  destruct (Rx.process_cancel (zdpr_recv B) k) as [r1 d]. cbn [fst snd].
  destruct (count_recv_stats r1) as (st & es1 & E & Ha & Hd). rewrite E.
  destruct (answer_effects d k) as [Ha' Hd']. intros [= <- <-]. split; [by exists st|].
  unfold acks_of, deliveries_of in *. rewrite !omap_app, Ha, Ha', Hd, Hd'. done.
Qed.

Lemma same_window_rel w r1 r2 a : Rx.Rel w r1 a -> same_window r1 r2 -> Rx.Rel w r2 a.
Proof. intros HR [st ->]. by apply Rx.Rel_stats. Qed.

Lemma limit_seq n : n <= LIMIT -> n < Rx.SEQ_LIMIT.
Proof. unfold LIMIT, Rx.SEQ_LIMIT. lia. Qed.

(** The receiver accepts the missing number [k]. *)
Lemma recv_new w s l a r k (c : bool) p :
  Rx.Rel w r a -> RInv s l a -> 0 <= k < next s -> k ∉ Rx.accepted a ->
  (if c then CancelMsg k ∈ fwd l else (k, p) ∈ tx l) ->
  RInv s (mkState (pA l) (pB l) (fwd l) (bwd l ++ [(k, c)]) (tx l)
            (delivered l ++ if c then [] else [(k, p)]))
    (Rx.mkARecv (Z.max (Rx.hi a) k) ({[k]} ∪ Rx.accepted a)
       (if c then {[k]} ∪ Rx.cancelled a else Rx.cancelled a)).
Proof.
  intros HR [Hkn Hhi Hbwd Hdone Hcan Hask Honce Hdel Hint] Hk Hna Hmsg.
  pose proof (Rx.rel_cancelled _ _ _ HR) as Hsub.
  assert (k ∉ Rx.cancelled a) as Hnc by set_solver.
  assert (k ∉ (delivered l).*1) as Hnd by (rewrite Hdel; tauto).
  split; simpl.
  - intros j [?%elem_of_singleton|?]%elem_of_union; [lia|auto].
  - lia.
  - intros j c'. rewrite elem_of_app, list_elem_of_singleton. intros [Hj|[= -> ->]].
    + apply Hbwd in Hj as [Hj ->]. split; [set_solver|].
      apply bool_decide_ext. destruct c; [|done]. set_solver.
    + split; [set_solver|]. symmetry. destruct c.
      * apply bool_decide_eq_true_2. set_solver.
      * by apply bool_decide_eq_false_2.
  - intros j Hj0 Hj. apply elem_of_union_r. auto.
  - intros j Hj0 Hj. destruct c; [apply elem_of_union_r|]; auto.
  - intros j Hj. destruct c; [|by apply Hask].
    apply elem_of_union in Hj as [->%elem_of_singleton|?]; auto.
  - rewrite fmap_app. destruct c; simpl; [by rewrite app_nil_r|].
    apply NoDup_app. split; [done|]. split; [|apply NoDup_singleton].
    intros j Hj ->%list_elem_of_singleton. done.
  - intros j. rewrite fmap_app, elem_of_app, Hdel. destruct c; simpl;
      rewrite ?elem_of_nil, ?list_elem_of_singleton; set_solver.
  - intros j q. rewrite elem_of_app. intros [?|Hj]; [auto|]. destruct c.
    + by apply elem_of_nil in Hj.
    + apply list_elem_of_singleton in Hj as [= -> ->]. done.
Qed.

(** The receiver handles a packet or a cancellation request. *)
Lemma recv_rinv w s l a r k (c : bool) p :
  Rx.Rel w r a -> RInv s l a -> 0 <= k < next s -> next s <= LIMIT ->
  (if c then CancelMsg k ∈ fwd l else (k, p) ∈ tx l) ->
  let x := Rx.process_packet_or_cancel r k c in
  exists a', Rx.Rel w x.1 a' /\
    RInv s (mkState (pA l) (pB l) (fwd l) (bwd l ++ ack_list x.2 k) (tx l)
              (delivered l ++ if c then [] else delivery_list x.2 k p)) a'.
Proof.
  intros HR [Hkn Hhi Hbwd Hdone Hcan Hask Honce Hdel Hint] Hk Hlim Hmsg x.
  destruct (Rx.step_spec w r a (k, c)) as (m & a' & _ & Hspec & HR' & _);
    [done|apply limit_seq; lia|simpl; pose proof (limit_seq k); lia|].
  assert (Rx.step r (k, c) = x) as Ex.
  { unfold Rx.step, x. simpl. rewrite wrap_small; [done|]. unfold LIMIT in *. lia. }
  rewrite Ex in *. simpl in Hspec. exists a'. split; [done|].
  destruct (Rx.spec_process_cases _ _ _ _ _ _ _ Hspec)
    as [(-> & -> & _)|[(-> & Hacc & ->)|(_ & Hna & _ & -> & ->)]].
  - assert ((delivered l ++ if c then [] else delivery_list Rx.Ignore k p) = delivered l) as ->
      by (destruct c; apply app_nil_r). unfold ack_list. simpl. rewrite app_nil_r. by split.
  - assert (k ∈ Rx.accepted a) as Hacc' by (destruct Hacc; [lia|done]).
    rewrite Rx.in_session_ext by lia. set (d := if bool_decide _ then _ else _).
    assert ((delivered l ++ if c then [] else delivery_list d k p) = delivered l) as ->.
    { unfold d. destruct c, (bool_decide _); apply app_nil_r. }
    assert (ack_list d k = [(k, bool_decide (k ∈ Rx.cancelled a))]) as ->
      by (unfold d; by destruct (bool_decide _)).
    split; simpl; try done.
    intros j c'. rewrite elem_of_app, list_elem_of_singleton. intros [?|[= -> ->]]; auto.
  - assert (ack_list (if c then Rx.AckCancelDoNotProcess else Rx.AckAndProcess) k = [(k, c)]) as ->
      by (by destruct c).
    assert ((delivered l ++ if c then []
             else delivery_list (if c then Rx.AckCancelDoNotProcess else Rx.AckAndProcess) k p) =
            delivered l ++ if c then [] else [(k, p)]) as -> by (by destruct c).
    by apply (recv_new w s l a r).
Qed.

(** ** Every step keeps the invariant *)

Lemma rinv_ext s l l' a :
  RInv s l a -> fwd l ⊆ fwd l' -> bwd l' = bwd l -> tx l' = tx l -> delivered l' = delivered l ->
  RInv s l' a.
Proof.
  intros [] Hf Hb Ht Hd. split; rewrite ?Hb, ?Ht, ?Hd; auto.
Qed.

Lemma tracked_range (s : Tx.Sender Bytes) k :
  SInv s -> state_at s k = UNACKED \/ state_at s k = CANCEL_REQUESTED ->
  oldest s <= k < next s /\ 0 <= k.
Proof.
  intros HI. pose proof (core_bounds s (inv_core s HI)). unfold state_at.
  destruct (Z.leb_spec (next s) k); [intros [|]; done|].
  destruct (Z.ltb_spec k (oldest s)); [intros [|]; done|]. lia.
Qed.

Lemma retry_linv w l A' es :
  LInv w l -> retry_tick (pA l) = (A', es) ->
  LInv w (mkState A' (pB l) (fwd l ++ fwds_of es) (bwd l) (tx l) (delivered l)).
Proof.
  intros HL [= <- <-].
  set (s' := Tx.set_unacked (zdpr_send (pA l)) _).
  pose proof (exec_linv w l OAge (mkRes s' (Tx.age_retries (zdpr_send (pA l))).2 []) HL I eq_refl)
    as HL'. simpl in HL'. unfold advance in HL'. simpl in HL'. rewrite !app_nil_r in HL'.
  specialize (HL' (conj I (conj I I))).
  destruct HL' as [(ops & back & HR) Hw Hf Hs Hc (a & Hrel & HRI)]. simpl in *.
  pose proof (rs_inv _ _ _ _ HR) as HI.
  assert (forall m, m ∈ fwds_of (map (fun '(sn, p) => Egress sn p) (Tx.retry_packets s') ++
      (if zlen (Tx.retry_packets s') =? 0 then []
       else [Count ResentPacket (zlen (Tx.retry_packets s'))]) ++
      map SendCancel (Tx.retry_cancels s')) ->
    match m with Data k p => (k, p) ∈ tx l | CancelMsg k => state_at s' k = CANCEL_REQUESTED end)
    as Hm.
  { intros m. unfold fwds_of. rewrite list_elem_of_omap. intros (e & He & Hme).
    rewrite !elem_of_app in He. destruct He as [He|[He|He]].
    - apply list_elem_of_fmap in He as ([k p] & -> & He). simplify_eq/=.
      apply (rs_kept _ _ _ _ HR), (retry_packets_spec s' k p HI), He.
    - destruct (_ =? _); [by apply elem_of_nil in He|].
      apply list_elem_of_singleton in He as ->. done.
    - apply list_elem_of_fmap in He as (k & -> & He). simplify_eq/=.
      by apply (retry_cancels_spec s' k HI). }
  split; simpl.
  - by exists ops, back.
  - done.
  - intros k p [?|Hk]%elem_of_app; [auto|]. by apply Hm in Hk.
  - intros k p Hk. apply elem_of_app. auto.
  - intros k [?|Hk]%elem_of_app; [auto|]. apply Hm in Hk. simpl in Hk.
    destruct (tracked_range s' k HI (or_intror Hk)). rewrite Hk. by repeat split; try lia.
  - exists a. split; [done|]. eapply rinv_ext; [exact HRI|..]; simpl; try done. set_solver.
Qed.

(** Cancellation requests of packets whose cancellation is requested may be sent. *)
Lemma cancels_linv w l more :
  LInv w l ->
  (forall m, m ∈ more -> exists k, m = CancelMsg k /\ state_at (zdpr_send (pA l)) k = CANCEL_REQUESTED) ->
  LInv w (mkState (pA l) (pB l) (fwd l ++ more) (bwd l) (tx l) (delivered l)).
Proof.
  intros [(ops & back & HR) Hw Hf Hs Hc (a & Hrel & HRI)] Hm.
  pose proof (rs_inv _ _ _ _ HR) as HI. split; simpl.
  - by exists ops, back.
  - done.
  - intros k p [?|Hk]%elem_of_app; [auto|]. by apply Hm in Hk as (? & ? & _).
  - intros k p Hk. apply elem_of_app. auto.
  - intros k [?|Hk]%elem_of_app; [auto|]. apply Hm in Hk as (k' & [= <-] & Hst).
    destruct (tracked_range _ k HI (or_intror Hst)). rewrite Hst. by repeat split; try lia.
  - exists a. split; [done|]. eapply rinv_ext; [exact HRI|..]; simpl; try done. set_solver.
Qed.

Lemma cancel_sent_requested (s s' : Tx.Sender Bytes) sn p :
  SInv s -> 0 <= sn <= LIMIT -> Tx.cancel_sent_packet s sn = Ret (s', Some p) ->
  state_at s' sn = CANCEL_REQUESTED.
Proof.
  intros HI Hsn E. pose proof (inv_core s HI) as Hc. pose proof (near_offset s sn HI Hsn) as Hm.
  destruct (cancel_sent_good s sn HI Hm) as (s1 & q & E1 & HG). rewrite E in E1. injection E1 as <- <-.
  pose proof (good_inv _ _ _ _ HG) as HI'.
  unfold Tx.cancel_sent_packet in E.
  destruct (locate_unacked s sn Hc Hm) as [Hp|[(Hp & Hby & _)|(i & st & Hp & Hby & Hslot & Hi & Hx & Hio)]];
    cbv zeta in *.
  - rewrite (proj2 (Z.ltb_lt _ _) Hp) in E. by outcome_inv.
  - rewrite (proj2 (Z.ltb_ge _ _) Hp), Hby in E. by outcome_inv.
  - rewrite (proj2 (Z.ltb_ge _ _) Hp), Hby, Hslot, Hx in E. cbn in E.
    destruct st as [q w l c f| | |]; cbn in E; outcome_inv; try done. rewrite Nat2Z.id in *.
    pose proof (slot_number s sn i Hc Hsn Hio) as Hk.
    rewrite <- Hk. change CANCEL_REQUESTED with (pstate (Pkt:=Bytes) (Tx.CancelRequested w f)).
    rewrite <- (state_at_slot _ i _ (inv_core _ HI')).
    + f_equal. unfold oldest. cbn. unfold zlen. by rewrite length_insert.
    + cbn. by eapply list_lookup_insert_eq, lookup_lt_Some.
Qed.

Lemma immediate_requested s op r m :
  SInv s -> in_session op -> exec s op = Ret r -> m ∈ immediate_cancel op r ->
  exists k, m = CancelMsg k /\ state_at (r_s r) k = CANCEL_REQUESTED.
Proof.
  intros HI Hin E Hm. unfold immediate_cancel in Hm.
  destruct op as [p| |sn|sn|id|sn|sn l|id l|sn| |w'|cx id|cx sn|st]; try (by apply elem_of_nil in Hm).
  simpl in E. outcome_inv. destruct x as [s' [p|]]; outcome_inv; simpl in Hm; [|by apply elem_of_nil in Hm].
  apply list_elem_of_singleton in Hm as ->. exists sn. split; [done|]. by eapply cancel_sent_requested.
Qed.

Lemma recv_linv w l B' es k (c : bool) p :
  LInv w l -> (if c then CancelMsg k ∈ fwd l else Data k p ∈ fwd l) ->
  let x := Rx.process_packet_or_cancel (zdpr_recv (pB l)) k c in
  same_window x.1 (zdpr_recv B') ->
  acks_of es = ack_list x.2 k ->
  deliveries_of es = (if c then [] else delivery_list x.2 k p) ->
  LInv w (mkState (pA l) B' (fwd l) (bwd l ++ acks_of es) (tx l) (delivered l ++ deliveries_of es)).
Proof.
  intros [(ops & back & HR) Hw Hf Hs Hc (a & Hrel & HRI)] Hmsg x Hsame Ha Hd.
  pose proof (core_bounds _ (inv_core _ (rs_inv _ _ _ _ HR))) as Hb.
  assert (0 <= k < next (zdpr_send (pA l))) as Hk.
  { destruct c; [apply (Hc k Hmsg)|]. apply Hf in Hmsg.
    apply (list_elem_of_fmap_2 fst) in Hmsg. rewrite (rs_seq _ _ _ _ HR) in Hmsg.
    apply elem_of_seqZ in Hmsg. rewrite (rs_next _ _ _ _ HR). simpl in *. lia. }
  destruct (recv_rinv w _ l a (zdpr_recv (pB l)) k c p Hrel HRI Hk) as (a' & Hrel' & HRI').
  { lia. } { destruct c; auto. }
  rewrite Ha, Hd. split; simpl; try done.
  - by exists ops, back.
  - exists a'. split; [by eapply same_window_rel|].
    eapply rinv_ext; [exact HRI'|set_solver|done..].
Qed.

Lemma linv_reply w l B' :
  LInv w l -> zdpr_recv B' = zdpr_recv (pB l) ->
  LInv w (mkState (pA l) B' (fwd l) (bwd l ++ []) (tx l) (delivered l ++ [])).
Proof.
  intros [? ? ? ? ? (a & Hrel & HRI)] E. split; simpl; try done.
  rewrite E, !app_nil_r. exists a. split; [done|].
  eapply rinv_ext; [exact HRI|set_solver|done..].
Qed.

Lemma step_linv w l l' : LInv w l -> step w l l' -> LInv w l'.
Proof.
  intros HL Hst. revert HL.
  destruct Hst as [l op r (Hh & Hin & Hadj) Hok E|l A' es E|l k p room B' es Hm E
                  |l k B' es Hm E|l k c A' es Hm Hroom E]; intros HL;
  pose proof HL as [(ops & back & HR) _ _ _ Hc (a & Hrel & HRI)];
  pose proof (rs_inv _ _ _ _ HR) as HI; pose proof (core_bounds _ (inv_core _ HI)) as Hb.
  - rewrite app_assoc. apply (cancels_linv w (advance l (r_s r) (r_tx r)) (immediate_cancel op r)).
    + apply (exec_linv w l op r HL Hok E). split; [done|]. by rewrite Hh.
    + intros m. by apply immediate_requested with (zdpr_send (pA l)).
  - by apply retry_linv.
  - destruct (reliable_effects _ _ _ _ _ _ E) as [(-> & -> & -> & _)|(Hsame & Ha & Hd)].
    + by apply linv_reply.
    + by apply (recv_linv w l B' es k false p).
  - apply Hc in Hm as Hk. destruct (cancel_effects (pB l) k B' es) as (Hsame & Ha & Hd).
    + unfold u64, LIMIT in *. lia.
    + done.
    + by apply (recv_linv w l B' es k true []).
  - destruct (r_bwd _ _ _ HRI k c Hm) as [Hacc _].
    assert (0 <= k < next (zdpr_send (pA l))) as Hk.
    { split; [|by apply (r_known _ _ _ HRI)].
      apply (Rx.rel_accepted_range _ _ _ Hrel) in Hacc. lia. }
    destruct (acknowledged_runs (pA l) c k HI Hroom) as (A2 & es2 & n & b2 & E2 & HRs & Hf & Hr & _);
      [apply near_offset; [done|lia]|]. rewrite E in E2. simplify_eq.
    rewrite Hf. pose proof (runs_linv w _ l _ _ _ HL HRs) as Hfin.
    unfold advance in Hfin. rewrite <- Hr in Hfin. destruct A2. apply Hfin.
    constructor; [|apply Forall_app; split].
    + split; [by destruct c; simpl; lia|]. by destruct c.
    + by repeat constructor.
    + apply Forall_replicate. by repeat constructor.
Qed.

Lemma initial_linv w l : 1 <= w < 64 -> initial w l -> LInv w l.
Proof.
  intros Hw (Hs & Hr & Hf & Hb & Ht & Hd).
  pose proof (core_bounds _ (inv_core _ (@new_inv Bytes))) as Hbd.
  split; rewrite ?Hs, ?Hf, ?Ht; try (by intros ? ? ?%elem_of_nil); try (by intros ? ?%elem_of_nil).
  - exists [], []. apply run_spec_nil.
  - simpl. unfold zlen. simpl. lia.
  - exists Rx.ainit. split; [by apply Rx.Rel_init|].
    split; rewrite ?Hf, ?Hb, ?Ht, ?Hd; simpl; try set_solver; try (by vm_compute); try constructor.
    + intros k Hk0 Hk. assert (next (@Tx.new Bytes) = 0) as Hn by (vm_compute; reflexivity).
      unfold state_at in Hk. rewrite Hn in Hk. by destruct (Z.leb_spec 0 k); [|lia].
    + intros k Hk0 Hk. assert (next (@Tx.new Bytes) = 0) as Hn by (vm_compute; reflexivity).
      unfold state_at in Hk. rewrite Hn in Hk. by destruct (Z.leb_spec 0 k); [|lia].
Qed.

Lemma reachable_linv w l : 1 <= w < 64 -> reachable w l -> LInv w l.
Proof.
  intros Hw (l0 & H0 & Hst). pose proof (initial_linv w l0 Hw H0) as HL. clear H0.
  induction Hst as [|l0 l1 l2 Hs _ IH]; [done|]. apply IH. by eapply step_linv.
Qed.

(** ** Progress *)

(** Window compatibility: the receiver never ignores what the sender still
    waits for. *)
Lemma awaited_is_answered w l k c :
  LInv w l ->
  state_at (zdpr_send (pA l)) k = UNACKED \/ state_at (zdpr_send (pA l)) k = CANCEL_REQUESTED ->
  Rx.should_ack (Rx.process_packet_or_cancel (zdpr_recv (pB l)) k c).2 = true.
Proof.
  intros [(ops & back & HR) [Hw Hu] _ _ _ (a & Hrel & HRI)] Hst.
  pose proof (rs_inv _ _ _ _ HR) as HI. pose proof (core_bounds _ (inv_core _ HI)) as Hb.
  destruct (tracked_range _ _ HI Hst) as [Hk Hk0].
  destruct (Rx.step_spec w (zdpr_recv (pB l)) a (k, c)) as (m & a' & (Hm0 & Hm & _) & Hspec & _);
    [done|apply limit_seq; pose proof (r_hi _ _ _ HRI); lia|pose proof (limit_seq k); simpl; lia|].
  unfold Rx.step in Hspec. simpl in Hspec.
  rewrite (wrap_small 64 k) in Hspec by (unfold LIMIT in *; lia).
  assert (oldest (zdpr_send (pA l)) <= m) as Hom.
  { destruct (Z_lt_le_dec m (oldest (zdpr_send (pA l)))) as [Hlt|]; [|done].
    destruct Hm. apply (r_done _ _ _ HRI); [done|]. unfold state_at.
    destruct (Z.leb_spec (next (zdpr_send (pA l))) m); [unfold oldest in *; lia|].
    by destruct (Z.ltb_spec m (oldest (zdpr_send (pA l)))); [|lia]. }
  pose proof (r_hi _ _ _ HRI). unfold oldest in *.
  destruct (Rx.spec_process_cases _ _ _ _ _ _ _ Hspec)
    as [(_ & _ & [?|?])|[(_ & _ & ->)|(_ & _ & _ & _ & ->)]];
    [lia|lia|by destruct (bool_decide _)|by destruct c].
Qed.

(** The handler of the matching acknowledgement settles the packet. *)
Lemma ack_done w l k c r :
  LInv w l -> (k, c) ∈ bwd l ->
  state_at (zdpr_send (pA l)) k = UNACKED \/ state_at (zdpr_send (pA l)) k = CANCEL_REQUESTED ->
  exec (zdpr_send (pA l)) (ack_op c k) = Ret r -> is_done (state_at (r_s r) k) = true.
Proof.
  intros [(ops & back & HR) _ _ _ Hc (a & _ & HRI)] Hm Hst.
  pose proof (rs_inv _ _ _ _ HR) as HI. destruct (tracked_range _ _ HI Hst) as [Hk _].
  destruct (tracked_at _ _ HI Hk) as (i & st & Hi & Hki & H0 & Hlo & Hby & Hslot & Hx).
  destruct (r_bwd _ _ _ HRI k c Hm) as [_ Hcb].
  pose proof (state_at_slot _ i st (inv_core _ HI) Hi) as Hsi. rewrite <- Hki in Hsi.
  assert (c = true -> pstate st <> UNACKED) as Hcu.
  { intros ->. symmetry in Hcb. apply bool_decide_eq_true_1 in Hcb.
    apply (r_asked _ _ _ HRI), Hc in Hcb as (_ & _ & Hn). by rewrite Hsi in Hn. }
  rewrite Hsi in Hst.
  destruct c; simpl; unfold Tx.process_ack, Tx.process_canceled, Tx.lookup_ack_index;
    rewrite (proj2 (Z.ltb_ge 0 _) H0), Hby, Hslot, Hx; cbn [mbind outcome_bind];
    destruct st as [p w0 lim cnt f|w0 f| |]; try (by destruct Hst); try (by destruct Hcu);
    simpl; intros E; outcome_inv; simplify_eq;
    match goal with
    | H : Tx.retire _ _ ?st' = Ret _ |- _ =>
        edestruct (retire_settles _ i _ st' _ HI Hi H) as [Hd _]
    end; (eapply done_stays; [exact Hd|first [done | by destruct f]]).
Qed.

(** Later sender operations keep a packet settled. *)
Lemma runs_life (s : Tx.Sender Bytes) ops s' back t k :
  SInv s -> runs s ops s' back t -> rtc pstep (state_at s k) (state_at s' k).
Proof.
  intros HI HR. induction HR as [|s op r ops s' back t Hok E _ IH]; [done|].
  destruct (exec_good s op HI Hok) as (r' & E' & HG). rewrite E in E'. simplify_eq.
  etransitivity; [apply HG|]. apply IH, HG.
Qed.

(** The sender still waits for an answer. *)
Definition awaited (l : State) (k : Z) : Prop :=
  state_at (zdpr_send (pA l)) k = UNACKED \/ state_at (zdpr_send (pA l)) k = CANCEL_REQUESTED.

(** Handling the answer [c] settles the packet. *)
Definition settles_with (l : State) (k : Z) (c : bool) : Prop :=
  exists A' es, acknowledged c (pA l) k = Ret (A', es) /\
    is_done (state_at (zdpr_send A') k) = true.

Definition about (m : Fwd) : Z := match m with Data k _ => k | CancelMsg k => k end.

Lemma answer_settles w l k c :
  LInv w l -> room_left (zdpr_send (pA l)) -> awaited l k -> (k, c) ∈ bwd l -> settles_with l k c.
Proof.
  intros HL Hroom Hst Hm. pose proof HL as [(ops & back & HR) _ _ _ _ _].
  pose proof (rs_inv _ _ _ _ HR) as HI. pose proof (core_bounds _ (inv_core _ HI)) as Hb.
  destruct (tracked_range _ _ HI Hst) as [Hk Hk0].
  destruct (acknowledged_runs (pA l) c k) as (A' & es' & n & b' & E' & HRs & _);
    [done|done|apply near_offset; [done|lia]|].
  exists A', es'. split; [done|].
  inversion HRs as [|? ? r ? ? ? ? Hok Er HRs']; subst.
  pose proof (ack_done w l k c r HL Hm Hst Er) as Hd.
  eapply done_stays; [|exact Hd]. eapply runs_life; [|exact HRs'].
  destruct (exec_good (zdpr_send (pA l)) _ HI Hok) as (r' & E2 & HG).
  rewrite Er in E2. simplify_eq. apply HG.
Qed.

(** A message that arrives at the receiver, with the step it makes. *)
Lemma arrival_settles w l l1 k c :
  LInv w l -> step w l l1 -> pA l1 = pA l -> room_left (zdpr_send (pA l)) -> awaited l k ->
  (k, c) ∈ bwd l1 -> settles_with l k c.
Proof.
  intros HL Hst E Hroom Ha Hm. unfold settles_with. rewrite <- E.
  apply (answer_settles w l1); [by eapply step_linv|by rewrite E|unfold awaited; by rewrite E|done].
Qed.

Lemma data_answered w l k p :
  LInv w l -> room_left (zdpr_send (pA l)) -> awaited l k -> Data k p ∈ fwd l ->
  exists c, acks_of (reliable_packet true (pB l) k p).2 = [(k, c)] /\ settles_with l k c.
Proof.
  intros HL Hroom Hst Hp. destruct (reliable_packet true (pB l) k p) as [B' es] eqn:E.
  destruct (reliable_effects _ _ _ _ _ _ E) as [(_ & _ & _ & ?)|(_ & Ha & _)]; [done|].
  set (c := Rx.ack_is_canceled (Rx.process_packet (zdpr_recv (pB l)) k).2).
  assert (acks_of es = [(k, c)]) as Hc.
  { rewrite Ha. unfold ack_list, Rx.process_packet. by rewrite (awaited_is_answered w l k false HL Hst). }
  exists c. split; [done|]. eapply (arrival_settles w l); [done|by eapply step_data|done..|].
  simpl. rewrite Hc. set_solver.
Qed.

Lemma cancel_answered w l k :
  LInv w l -> room_left (zdpr_send (pA l)) -> awaited l k -> CancelMsg k ∈ fwd l ->
  exists c, acks_of (handle_cancel (Some (pB l)) (Zdp.mgmt_bytes (Zdp.mkMgmt k))).2 = [(k, c)] /\
    settles_with l k c.
Proof.
  intros HL Hroom Hst Hp. pose proof HL as [(ops & back & HR) _ _ _ Hc _].
  pose proof (core_bounds _ (inv_core _ (rs_inv _ _ _ _ HR))) as Hb. apply Hc in Hp as Hk.
  assert (u64 k) as Hu by (unfold u64, LIMIT in *; lia).
  destruct (handle_cancel (Some (pB l)) (Zdp.mgmt_bytes (Zdp.mkMgmt k))) as [[B'|] es] eqn:E; cycle 1.
  { exfalso. revert E. unfold handle_cancel.
    rewrite <- (app_nil_r (Zdp.mgmt_bytes _)), Zdp.read_mgmt_bytes by done. by repeat case_match. }
  destruct (cancel_effects (pB l) k B' es Hu E) as (_ & Ha & _).
  set (c := Rx.ack_is_canceled (Rx.process_cancel (zdpr_recv (pB l)) k).2).
  assert (acks_of es = [(k, c)]) as Hac.
  { rewrite Ha. unfold ack_list, Rx.process_cancel. by rewrite (awaited_is_answered w l k true HL Hst). }
  exists c. split; [done|]. eapply (arrival_settles w l); [done|by eapply step_cancel|done..|].
  simpl. rewrite Hac. set_solver.
Qed.

(** Every turn of the retry timer sends what is still awaited, or asks for its
    cancellation. *)
Lemma awaited_retried w l k :
  LInv w l -> awaited l k -> exists m, m ∈ fwds_of (retry_tick (pA l)).2 /\ about m = k.
Proof.
  intros [(ops & back & HR) _ _ _ _ _] Hst. pose proof (rs_inv _ _ _ _ HR) as HI.
  destruct (tracked_range _ _ HI Hst) as [Hk _].
  destruct (tracked_at _ _ HI Hk) as (i & st & Hi & Hki & _).
  set (s := zdpr_send (pA l)) in *. set (s' := (Tx.age_retries s).1).
  assert (SInv s') as HI'.
  { destruct (exec_good s OAge HI I) as (r & E & HG). unfold s'. simpl in E. injection E as <-. apply HG. }
  assert (Tx.unacked s' !! i = Some (Tx.st_age_retries st).1) as Hi'
    by (unfold s'; simpl; by rewrite list_lookup_fmap, Hi).
  assert (oldest s' = oldest s) as Ho
    by (unfold oldest, s', zlen; simpl; by rewrite length_map).
  pose proof (state_at_slot s i st (inv_core _ HI) Hi) as Hs.
  unfold awaited in Hst. rewrite Hki in Hst. fold s in Hst. rewrite Hs in Hst.
  assert (forall e, e ∈ (retry_tick (pA l)).2 -> forall m,
    match e with Egress k p => Some (Data k p) | SendCancel k => Some (CancelMsg k) | _ => None end = Some m ->
    m ∈ fwds_of (retry_tick (pA l)).2) as Hin.
  { intros e He m Hm. unfold fwds_of. apply list_elem_of_omap. by exists e. }
  pose proof (state_at_slot s' i _ (inv_core _ HI') Hi') as Hs'. rewrite Ho, <- Hki in Hs'.
  destruct (Tx.st_age_retries st).1 as [p w0 lim cnt f|w0 f| |] eqn:Est.
  - assert ((k, p) ∈ Tx.retry_packets s') as Hin'.
    { apply (retry_packets_spec s' k p HI'), packet_at_Some. rewrite Ho. split; [exact Hk|].
      replace (Z.to_nat (k - oldest s)) with i by lia. by eexists. }
    exists (Data k p). split; [|done]. apply (Hin (Egress k p)); [|done].
    apply elem_of_app. left. change (Egress k p) with ((fun '(sn, q) => Egress (Pkt:=Bytes) sn q) (k, p)).
    by apply list_elem_of_fmap_2.
  - assert (k ∈ Tx.retry_cancels s') as Hin' by (by apply retry_cancels_spec).
    exists (CancelMsg k). split; [|done]. apply (Hin (SendCancel k)); [|done].
    apply elem_of_app. right. apply elem_of_app. right. by apply list_elem_of_fmap_2.
  - exfalso. destruct st as [p w0 [lim|] cnt f|w0 f| |]; simpl in Est; repeat case_match; naive_solver.
  - exfalso. destruct st as [p w0 [lim|] cnt f|w0 f| |]; simpl in Est; repeat case_match; naive_solver.
Qed.

(** ** Properties *)

(** C3. Exactly-once delivery end to end: whatever the network loses,
    duplicates, delays or reorders, no packet is handed to the peer's
    processor twice, and each one handed over is a packet the sender
    transmitted, unchanged and under its own sequence number. *)
Theorem delivered_exactly_once w l :
  1 <= w < 64 -> reachable w l ->
  NoDup (delivered l).*1 /\ (forall k p, (k, p) ∈ delivered l -> (k, p) ∈ tx l) /\
  (tx l).*1 = seqZ 0 (zlen (tx l)).
Proof.
  intros Hw [(ops & back & HR) _ _ _ _ (a & _ & HRI)]%reachable_linv; [|done].
  split; [apply HRI|]. split; [apply HRI|apply HR].
Qed.

(** C23. The meaning of an acknowledgement: a packet the sender considers
    acknowledged was delivered unless its cancellation had been requested, a
    packet it considers cancelled was not delivered, and in general the
    receiver acknowledges exactly the delivered packets as received and
    only undelivered ones as cancelled. *)
Theorem acknowledged_means_delivered w l k :
  1 <= w < 64 -> reachable w l ->
  (0 <= k -> is_done (state_at (zdpr_send (pA l)) k) = true ->
     k ∈ (delivered l).*1 \/ CancelMsg k ∈ fwd l) /\
  (0 <= k -> state_at (zdpr_send (pA l)) k = CANCEL_ACKED -> k ∉ (delivered l).*1) /\
  (forall c, (k, c) ∈ bwd l -> c = false <-> k ∈ (delivered l).*1).
Proof.
  intros Hw [_ _ _ _ _ (a & _ & HRI)]%reachable_linv; [|done]. split; [|split].
  - intros Hk Hd. apply (r_done _ _ _ HRI) in Hd; [|done].
    destruct (decide (k ∈ Rx.cancelled a)) as [Hc|Hc].
    + right. by apply (r_asked _ _ _ HRI).
    + left. by apply (r_delivered _ _ _ HRI).
  - intros Hk Hc. rewrite (r_delivered _ _ _ HRI). intros [_ Hn].
    by apply Hn, (r_canceled _ _ _ HRI).
  - intros c Hc. rewrite (r_delivered _ _ _ HRI).
    destruct (r_bwd _ _ _ HRI k c Hc) as [Hacc ->].
    destruct (decide (k ∈ Rx.cancelled a)).
    + rewrite bool_decide_eq_true_2 by done. by split; [|intros []].
    + rewrite bool_decide_eq_false_2 by done. by split.
Qed.

(** The windows fit: in every reachable state the receiver answers (never
    ignores) a copy of a packet or of a cancellation request that the sender
    still waits for, whenever it arrives. *)
Theorem awaited_never_ignored w l k :
  1 <= w < 64 -> reachable w l ->
  state_at (zdpr_send (pA l)) k = UNACKED \/ state_at (zdpr_send (pA l)) k = CANCEL_REQUESTED ->
  Rx.should_ack (Rx.process_packet (zdpr_recv (pB l)) k).2 = true /\
  Rx.should_ack (Rx.process_cancel (zdpr_recv (pB l)) k).2 = true.
Proof.
  intros Hw HL%reachable_linv Hst; [|done]. split; by apply (awaited_is_answered w).
Qed.

(** C30. Progress: in every reachable state, as long as the sender awaits the answer
    to a packet, every turn of its retry timer sends the packet (or the request to
    cancel it) once more; every copy of the packet that arrives while the processor
    has room for it, and every cancellation request that arrives, is answered by the
    receiver, even if it was received and answered before; and handling that answer,
    or any earlier answer still under way, settles the packet, as long as the session
    has sequence numbers left for the packets that wait.  So no loss, duplication or
    reordering leaves the session stuck. *)
Theorem session_never_stuck w l k :
  1 <= w < 64 -> reachable w l -> awaited l k ->
  (exists m, m ∈ fwds_of (retry_tick (pA l)).2 /\ about m = k) /\
  (room_left (zdpr_send (pA l)) ->
    (forall p, Data k p ∈ fwd l ->
       exists c, acks_of (reliable_packet true (pB l) k p).2 = [(k, c)] /\ settles_with l k c) /\
    (CancelMsg k ∈ fwd l ->
       exists c, acks_of (handle_cancel (Some (pB l)) (Zdp.mgmt_bytes (Zdp.mkMgmt k))).2 = [(k, c)] /\
         settles_with l k c) /\
    (forall c, (k, c) ∈ bwd l -> settles_with l k c)).
Proof.
  intros Hw HL%reachable_linv Hst; [|done]. split; [by eapply awaited_retried|]. intros Hroom. split_and!.
  - intros p. by apply (data_answered w).
  - by apply (cancel_answered w).
  - intros c. by apply (answer_settles w).
Qed.

(** The acknowledgement handler of the dispatcher never panics on an
    answer the peer really sent, its unblocking loop terminates within the
    length of the waiting queue, and when it returns either the window is full
    or nothing waits. *)
Theorem ack_handler_total w l k c :
  1 <= w < 64 -> reachable w l -> room_left (zdpr_send (pA l)) -> (k, c) ∈ bwd l ->
  exists A' es, acknowledged c (pA l) k = Ret (A', es) /\
    Tx.unblock_needed (zdpr_send A') = false.
Proof.
  intros Hw [(ops & back & HR) _ _ _ _ (a & Hrel & HRI)]%reachable_linv Hroom Hm; [|done].
  pose proof (rs_inv _ _ _ _ HR) as HI. pose proof (core_bounds _ (inv_core _ HI)) as Hb.
  destruct (r_bwd _ _ _ HRI k c Hm) as [Hacc _].
  pose proof (r_known _ _ _ HRI k Hacc). apply (Rx.rel_accepted_range _ _ _ Hrel) in Hacc.
  destruct (acknowledged_runs (pA l) c k HI Hroom) as (A' & es & n & b & E & _ & _ & _ & Hu);
    [apply near_offset; [done|lia]|].
  by exists A', es.
Qed.

(** ** Witness: a packet sent, delivered, and answered *)

Definition demo_recv : Rx.Receiver := Rx.mkReceiver 32 Rx.U64_MAX Rx.U64_MAX Rx.U64_MAX (fun _ => 0).
Definition demo0 : State :=
  mkState (mkPeer Tx.new demo_recv) (mkPeer Tx.new demo_recv) [] [] [] [].

Definition demo_packet : Bytes := [Zdp.HelloRequest; 0].

Definition demo_res : Res Bytes :=
  match exec Tx.new (OEnqueue demo_packet) with Ret r => r | Panic => mkRes Tx.new [] [] end.

Definition demo1 : State := advance demo0 (r_s demo_res) (r_tx demo_res).

Definition demo2 : State :=
  let '(B', es) := reliable_packet true (pB demo1) 0 demo_packet in
  mkState (pA demo1) B' (fwd demo1) (bwd demo1 ++ acks_of es) (tx demo1)
    (delivered demo1 ++ deliveries_of es).

Lemma demo1_reachable : reachable 32 demo1.
Proof.
  exists demo0. split; [done|]. apply rtc_once.
  apply (step_local 32 demo0 (OEnqueue demo_packet)); [done|split; vm_compute; reflexivity|].
  reflexivity.
Qed.

Lemma demo2_reachable : reachable 32 demo2.
Proof.
  destruct demo1_reachable as (l0 & H0 & Hst). exists l0. split; [done|].
  eapply rtc_r; [exact Hst|].
  assert (demo2 = demo2) as E by done. unfold demo2 in E at 2.
  destruct (reliable_packet true (pB demo1) 0 demo_packet) as [B' es] eqn:Er. rewrite E.
  apply (step_data 32 demo1 0 demo_packet true B' es); [|exact Er].
  by apply list_elem_of_singleton.
Qed.

Lemma delivered_exactly_once_witness :
  delivered demo2 = [(0, demo_packet)] /\ NoDup (delivered demo2).*1.
Proof.
  split; [vm_compute; reflexivity|].
  exact (proj1 (delivered_exactly_once 32 demo2 ltac:(lia) demo2_reachable)).
Defined.

Lemma acknowledged_means_delivered_witness :
  bwd demo2 = [(0, false)] /\ 0 ∈ (delivered demo2).*1.
Proof.
  assert (bwd demo2 = [(0, false)]) as E by (vm_compute; reflexivity). split; [exact E|].
  destruct (acknowledged_means_delivered 32 demo2 0 ltac:(lia) demo2_reachable) as (_ & _ & H).
  apply (H false); [|done]. rewrite E. by apply list_elem_of_singleton.
Defined.

Lemma demo1_unacked : state_at (zdpr_send (pA demo1)) 0 = UNACKED.
Proof. vm_compute. reflexivity. Qed.

Lemma awaited_never_ignored_witness :
  Rx.should_ack (Rx.process_packet (zdpr_recv (pB demo1)) 0).2 = true /\
  Rx.should_ack (Rx.process_cancel (zdpr_recv (pB demo1)) 0).2 = true.
Proof.
  exact (awaited_never_ignored 32 demo1 0 ltac:(lia) demo1_reachable (or_introl demo1_unacked)).
Defined.

Lemma session_never_stuck_witness :
  fwd demo1 = [Data 0 demo_packet] /\
  exists c, acks_of (reliable_packet true (pB demo1) 0 demo_packet).2 = [(0, c)] /\
    settles_with demo1 0 c.
Proof.
  assert (fwd demo1 = [Data 0 demo_packet]) as E by (vm_compute; reflexivity). split; [exact E|].
  destruct (session_never_stuck 32 demo1 0 ltac:(lia) demo1_reachable (or_introl demo1_unacked)) as [_ Hs].
  apply Hs; [vm_compute; reflexivity|]. rewrite E. by apply list_elem_of_singleton.
Defined.

Lemma ack_handler_total_witness :
  exists A' es, acknowledged false (pA demo2) 0 = Ret (A', es) /\
    Tx.unblock_needed (zdpr_send A') = false.
Proof.
  refine (ack_handler_total 32 demo2 0 false ltac:(lia) demo2_reachable _ _).
  - vm_compute. reflexivity.
  - assert (bwd demo2 = [(0, false)]) as -> by (vm_compute; reflexivity).
    by apply list_elem_of_singleton.
Defined.

End Link.
