(* ===== verification/DispatchProps.v ===== *)
(** * When the management dispatcher panics

    The packets from the wire that make [dispatch_mgmt_packet_with_link] panic,
    exactly, and that the handlers are otherwise total. *)
From Stdlib Require Import ZArith Lia.
From stdpp Require Import base tactics option list.
From S2P Require Import Prelude Zdp ZdprReceiver ZdprSender ZdprSenderProps ZdprSenderThms.
From S2P Require Import ZdprSettles Dispatch ZdprLink.
Import TxProps TxThms Dispatch Link.

Local Open Scope Z_scope.

Module DispatchProps.

(** Packet types that carry their own reliable sequence number. *)
Definition is_reliable (t : Z) : bool :=
  negb ((t =? Zdp.KeyManagement) || (t =? Zdp.Acknowledgement) || (t =? Zdp.Cancel) ||
        (t =? Zdp.Canceled)).

(** A base header of a reliable packet with fewer than eight bytes behind it. *)
Definition truncated_reliable (body : list Z) : Prop :=
  exists h rest, Zdp.read_base body = Some (h, rest) /\
    is_reliable (Zdp.packet_type h) = true /\ zlen rest < 8.

(** An acknowledgement of either kind whose number is 2^63 from the last sent. *)
Definition far_acknowledgement (peer : option (Peer (list Z))) (body : list Z) : Prop :=
  exists h rest m x p, Zdp.read_base body = Some (h, rest) /\
    (Zdp.packet_type h = Zdp.Acknowledgement \/ Zdp.packet_type h = Zdp.Canceled) /\
    Zdp.read_mgmt rest = Some (m, x) /\ peer = Some p /\
    Tx.offset_of (Zdp.sequence_number m) (Tx.last_sent (zdpr_send p)) = - 2 ^ 63.

Definition peer_ok (p : Peer (list Z)) : Prop :=
  SInv (zdpr_send p) /\ room_left (zdpr_send p).

Section dispatcher.
Context (km_impl KM_ID_NOISE KM_ID_NULL : Z) (km : list Z -> bool).
Context (room : bool).

Lemma ack_common_panics peer rest c :
  (forall p, peer = Some p -> peer_ok p) ->
  handle_acknowledgement_canceled_common peer rest c = Panic <->
  exists m x p, Zdp.read_mgmt rest = Some (m, x) /\ peer = Some p /\
    Tx.offset_of (Zdp.sequence_number m) (Tx.last_sent (zdpr_send p)) = - 2 ^ 63.
Proof.
  intros Hp. unfold handle_acknowledgement_canceled_common.
  destruct (Zdp.read_mgmt rest) as [[m x]|]; [|by split; [|intros (? & ? & ? & ? & _)]].
  destruct peer as [p|]; [|by split; [|intros (? & ? & ? & _ & ? & _)]].
  destruct (Hp p eq_refl) as [HI Hroom].
  destruct (Z.eq_dec (Tx.offset_of (Zdp.sequence_number m) (Tx.last_sent (zdpr_send p))) (- 2 ^ 63))
    as [Hm|Hm].
  - split; [intros _; by exists m, x, p|]. intros _.
    destruct (far_ack_panics _ _ HI Hm) as [E1 E2]. unfold acknowledged.
    destruct c; [rewrite E2|rewrite E1]; done.
  - destruct (acknowledged_runs p c _ HI Hroom Hm) as (A' & es & n & b & -> & _). simpl.
    split; [done|]. intros (? & ? & ? & ? & ? & ?). by simplify_eq.
Qed.

(** C33. The dispatcher panics on exactly two kinds of packets: a reliable
    packet cut off after its base header, whose sequence number it unwraps
    without a length check, and an acknowledgement of a sequence number 2^63
    away from the last one sent.  Every other packet, however malformed, is
    handled. *)
Theorem dispatch_panics_iff peer body :
  (forall p, peer = Some p -> peer_ok p) ->
  dispatch_mgmt_packet_with_link km_impl KM_ID_NOISE KM_ID_NULL km room peer body = Panic <->
  truncated_reliable body \/ far_acknowledgement peer body.
Proof.
  intros Hp. unfold dispatch_mgmt_packet_with_link, truncated_reliable, far_acknowledgement.
  destruct (Zdp.read_base body) as [[h rest]|] eqn:Eb.
  2:{ split; [done|]. intros [(? & ? & ? & _)|(? & ? & ? & ? & ? & ? & _)]; done. }
  destruct h as [t ex]. cbn [Zdp.packet_type].
  unfold handle_acknowledgement, handle_canceled, is_reliable.
  destruct (Z.eqb_spec t Zdp.KeyManagement) as [Et|N1].
  { split; [done|]. intros [(? & ? & [= <- <-] & Hr & _)|(? & ? & ? & ? & ? & [= <- <-] & Ht & _)];
      simpl in *; rewrite Et in *; [done|by destruct Ht]. }
  destruct (Z.eqb_spec t Zdp.Acknowledgement) as [Et|N2].
  { rewrite ack_common_panics by done. split.
    - intros (m & x & p & H1 & H2 & H3). right. exists (Zdp.mkBase t ex), rest, m, x, p. auto.
    - intros [(? & ? & [= <- <-] & Hr & _)|(? & ? & m & x & p & [= <- <-] & _ & ? & ? & ?)];
        [simpl in Hr; by rewrite Et in Hr|by exists m, x, p]. }
  destruct (Z.eqb_spec t Zdp.Cancel) as [Et|N3].
  { split; [done|]. intros [(? & ? & [= <- <-] & Hr & _)|(? & ? & ? & ? & ? & [= <- <-] & Ht & _)];
      simpl in *; rewrite Et in *; [done|by destruct Ht]. }
  destruct (Z.eqb_spec t Zdp.Canceled) as [Et|N4].
  { rewrite ack_common_panics by done. split.
    - intros (m & x & p & H1 & H2 & H3). right. exists (Zdp.mkBase t ex), rest, m, x, p. auto.
    - intros [(? & ? & [= <- <-] & Hr & _)|(? & ? & m & x & p & [= <- <-] & _ & ? & ? & ?)];
        [simpl in Hr; by rewrite Et in Hr|by exists m, x, p]. }
  unfold Zdp.read_mgmt. destruct (Z.ltb_spec (zlen rest) 8) as [Hlt|Hge]; simpl.
  - split; [|done]. intros _. left. exists (Zdp.mkBase t ex), rest. split; [done|]. split; [|done].
    simpl. by rewrite (proj2 (Z.eqb_neq _ _) N1), (proj2 (Z.eqb_neq _ _) N2),
      (proj2 (Z.eqb_neq _ _) N3), (proj2 (Z.eqb_neq _ _) N4).
  - split.
    + destruct peer; [|done]. by destruct (reliable_packet _ _ _ _).
    + intros [(? & ? & [= <- <-] & _ & ?)|(? & ? & ? & ? & ? & [= <- <-] & Ht & _)]; [lia|].
      simpl in Ht. by destruct Ht.
Qed.

End dispatcher.

(** A hello request cut off after its base header, on a fresh session. *)
Lemma dispatch_panics_iff_witness :
  dispatch_mgmt_packet_with_link 1 1 0 (fun _ => true) true
    (Some (mkPeer (@Tx.new (list Z)) demo_recv)) [Zdp.HelloRequest; 0] = Panic.
Proof.
  apply (dispatch_panics_iff 1 1 0 (fun _ => true) true (Some (mkPeer Tx.new demo_recv))
           [Zdp.HelloRequest; 0]).
  - intros p [= <-]. split; [apply new_inv|vm_compute; reflexivity].
  - left. exists (Zdp.mkBase Zdp.HelloRequest 0), []. split; [reflexivity|].
    split; vm_compute; reflexivity.
Defined.

End DispatchProps.
