(* ===== verification/MgmtCoreProps.v ===== *)
(** * Properties of management packet sending

    Packets built by [send_mgmt_helper] are read back by the dispatcher, the
    acknowledgement future reports the state of its packet, and two ways of
    giving up a future that are not handled as intended. *)
From Stdlib Require Import ZArith Lia.
From stdpp Require Import base tactics option list functions relations.
From S2P Require Import Prelude Zdp ZdprReceiver ZdprSender ZdprSenderProps ZdprSenderThms.
From S2P Require Import ZdprSettles MgmtCore Dispatch ZdprLink DispatchProps.
Import TxProps TxThms MgmtCore.

Local Open Scope Z_scope.

Module MgmtCoreProps.

(** ** Packets *)

Lemma mgmt_packet_ret t sid txn body pkt :
  mgmt_packet t sid txn body = Ret pkt ->
  pkt = [t; 0] ++ be_bytes 8 0 ++
        match sid with Some x => be_bytes 4 x | None => [] end ++
        match txn with Some x => be_bytes 2 x | None => [] end ++ body /\
  t <> Zdp.KeyManagement.
Proof.
  unfold mgmt_packet, rust_assert. destruct (Z.eqb_spec t Zdp.KeyManagement); [done|]. simpl.
  destruct (eqb _ _); [|done]. by intros [= <-].
Qed.

Lemma fill_spec seq_num t rest :
  u64 seq_num ->
  fill_sequence_number seq_num ([t; 0] ++ be_bytes 8 0 ++ rest) =
    Ret ([t; 0] ++ be_bytes 8 seq_num ++ rest).
Proof.
  intros Hsn. unfold fill_sequence_number, rust_assert.
  destruct (Z.leb_spec 2 (zlen ([t; 0] ++ be_bytes 8 0 ++ rest))) as [_|Hlt].
  2:{ rewrite zlen_app in Hlt. pose proof (zlen_nonneg (be_bytes 8 0 ++ rest)).
      change (zlen [t; 0]) with 2 in Hlt. lia. }
  change (drop 2 ([t; 0] ++ be_bytes 8 0 ++ rest)) with (Zdp.mgmt_bytes (Zdp.mkMgmt 0) ++ rest).
  rewrite bind_Ret, Zdp.read_mgmt_bytes by (unfold u64; lia). done.
Qed.

Lemma reliable_tests t :
  DispatchProps.is_reliable t = true ->
  (t =? Zdp.KeyManagement) = false /\ (t =? Zdp.Acknowledgement) = false /\
  (t =? Zdp.Cancel) = false /\ (t =? Zdp.Canceled) = false.
Proof.
  unfold DispatchProps.is_reliable.
  destruct (t =? Zdp.KeyManagement), (t =? Zdp.Acknowledgement), (t =? Zdp.Cancel),
    (t =? Zdp.Canceled); done.
Qed.

(** ** The future of a sent packet *)

(** Where the code finds a number of the session: retired, or tracked. *)
Lemma session_number (s : Tx.Sender Bytes) sn :
  SInv s -> 0 <= sn < next s ->
  (0 <? Tx.offset_of sn (Tx.last_sent s)) = false /\
  (Tx.offset_of sn (Tx.last_sent s) <=? 0) = true /\
  ((Tx.beyond (zlen (Tx.unacked s)) (Tx.offset_of sn (Tx.last_sent s)) = true /\
    state_at s sn = FORGOTTEN) \/
   exists (i : nat) st, Tx.beyond (zlen (Tx.unacked s)) (Tx.offset_of sn (Tx.last_sent s)) = false /\
     Tx.slot (zlen (Tx.unacked s)) (Tx.offset_of sn (Tx.last_sent s)) = Z.of_nat i /\
     index (Tx.unacked s) (Z.of_nat i) = Ret st /\ Tx.unacked s !! i = Some st /\
     sn = oldest s + Z.of_nat i /\ state_at s sn = pstate st).
Proof.
  intros HI Hk. pose proof (inv_core s HI) as Hc. pose proof (core_bounds s Hc) as Hb.
  assert (Tx.offset_of sn (Tx.last_sent s) = sn - (next s - 1)) as Ho
    by (rewrite (core_last_sent s Hc); apply offset_near; lia).
  split; [apply Z.ltb_ge; lia|]. split; [apply Z.leb_le; lia|].
  destruct (Z_lt_le_dec sn (oldest s)) as [Hlt|Hge].
  - left. split.
    + apply beyond_iff; unfold oldest, LIMIT in *; lia.
    + unfold state_at. destruct (Z.leb_spec (next s) sn); [lia|].
      by destruct (Z.ltb_spec sn (oldest s)); [|lia].
  - right. destruct (tracked_at s sn HI) as (i & st & Hi & Hki & _ & _ & Hby & Hs & Hx); [lia|].
    exists i, st. repeat split; try done. rewrite Hki. by apply state_at_slot.
Qed.

(** What the acknowledgement future should report in each packet state. *)
Definition status_of (st : PState) : Tx.Poll (PacketStatus + MgmtSendError) :=
  match st with
  | UNSENT | UNACKED | CANCEL_REQUESTED => Tx.Pending
  | CANCEL_ACKED => Tx.Ready (inl StCanceled)
  | ACKED | FORGOTTEN => Tx.Ready (inl StAcked)
  end.

Lemma index_insert_same {A} (l : list A) (i : nat) x y :
  index l (Z.of_nat i) = Ret x -> index (<[i:=y]> l) (Z.of_nat i) = Ret y.
Proof.
  intros [Hr Hi]%index_ret. destruct (index_lt (<[i:=y]> l) (Z.of_nat i)) as [z Hz].
  { by rewrite zlen_insert. }
  rewrite Hz. apply index_ret in Hz as [_ Hz]. rewrite Nat2Z.id in *.
  rewrite list_lookup_insert_eq in Hz by (by eapply lookup_lt_Some). by simplify_eq.
Qed.

Lemma peer_state_live f ss : zdpr_generation ss = generation f -> peer_state f (Some ss) = Some ss.
Proof. intros E. simpl. by rewrite (proj2 (Z.eqb_eq _ _) E). Qed.

(** ** Properties *)

(** Round trip: a reliable packet built by [send_mgmt_helper] and given a
    sequence number on egress is read by the peer's dispatcher as that packet
    type and sequence number, in front of the stream and transaction headers
    and the message body, and committed to the receive window under that
    number. *)
Theorem sent_packet_dispatches km_impl KM_ID_NOISE KM_ID_NULL km room t sid txn body pkt sn peer :
  mgmt_packet t sid txn body = Ret pkt -> DispatchProps.is_reliable t = true -> u64 sn ->
  exists pkt', fill_sequence_number sn pkt = Ret pkt' /\
    drop 10 pkt' = match sid with Some x => be_bytes 4 x | None => [] end ++
                   match txn with Some x => be_bytes 2 x | None => [] end ++ body /\
    Dispatch.dispatch_mgmt_packet_with_link (Pkt:=Bytes) km_impl KM_ID_NOISE KM_ID_NULL km room
      (Some peer) pkt' =
    Ret (let '(p', es) := Dispatch.reliable_packet room peer sn pkt' in (Some p', es)).
Proof.
  intros [-> _]%mgmt_packet_ret Ht Hsn. eexists. split; [by apply fill_spec|]. split; [done|].
  destruct (reliable_tests t Ht) as (N1 & N2 & N3 & N4).
  unfold Dispatch.dispatch_mgmt_packet_with_link. simpl Zdp.read_base. cbn [Zdp.packet_type].
  rewrite N1, N2, N3, N4.
  match goal with |- context [Zdp.read_mgmt ?y] =>
    change (Zdp.read_mgmt y) with (Zdp.read_mgmt (Zdp.mgmt_bytes (Zdp.mkMgmt sn) ++
      match sid with Some x => be_bytes 4 x | None => [] end ++
      match txn with Some x => be_bytes 2 x | None => [] end ++ body)) end.
  rewrite Zdp.read_mgmt_bytes by done. simpl unwrap. rewrite bind_Ret. cbn [Zdp.sequence_number].
  by destruct (Dispatch.reliable_packet _ _ _ _).
Qed.

(** The acknowledgement future of a sent packet reports the packet's
    state, without panicking: it waits while the packet is outstanding, and
    resolves to "canceled" exactly if the peer acknowledged a cancellation. *)
Theorem future_reports_status cx f ss sn :
  SInv (zdpr_send ss) -> 0 <= sn < next (zdpr_send ss) -> packet_id f = Sent sn ->
  zdpr_generation ss = generation f ->
  exists ss', poll_acked_or_canceled cx f (Some ss) =
    Ret (f, Some ss', status_of (state_at (zdpr_send ss) sn)).
Proof.
  intros HI Hsn Hf Hg. destruct (session_number _ sn HI Hsn) as (Hpos & Hle & Hcase).
  unfold poll_acked_or_canceled, poll_seq_num. rewrite Hf, (peer_state_live f ss Hg), bind_Ret.
  unfold Tx.poll_ack, Tx.is_cancel_acked. rewrite Hle.
  destruct Hcase as [(Hby & ->)|(i & st & Hby & Hs & Hx & Hi & _ & ->)]; rewrite Hby; simpl.
  { rewrite Hpos, Hby. by eexists. }
  rewrite Hs, Hx. simpl. destruct st; simpl; try (by eexists);
    rewrite Hpos, Hby, Hs, Hx; by eexists.
Qed.

(** Dropping that future releases the packet: a packet whose cancellation
    was acknowledged no longer occupies the window as such afterwards. *)
Theorem dropped_future_forgets f ss sn :
  SInv (zdpr_send ss) -> packet_id f = Sent sn -> zdpr_generation ss = generation f ->
  0 <= sn < next (zdpr_send ss) -> state_at (zdpr_send ss) sn = CANCEL_ACKED ->
  exists ss', drop_acked_or_canceled f (Some ss) = Ret (Some ss') /\
    SInv (zdpr_send ss') /\ is_done (state_at (zdpr_send ss') sn) = true /\
    state_at (zdpr_send ss') sn <> CANCEL_ACKED.
Proof.
  intros HI Hf Hg Hsn Hst. destruct (session_number _ sn HI Hsn) as (Hpos & Hle & Hcase).
  destruct Hcase as [(_ & E)|(i & st & Hby & Hs & Hx & Hi & Hk & E)]; [congruence|].
  assert (st = Tx.CancelAcked) as -> by (rewrite E in Hst; by destruct st).
  destruct (retire_spec (zdpr_send ss) i _ Tx.Acked HI Hi) as (s' & Er & HG);
    [apply rtc_once; constructor|by left|].
  unfold drop_acked_or_canceled, forget_internal, try_cancel_internal.
  rewrite Hf, (peer_state_live f ss Hg). unfold Tx.forget_canceled_packet.
  rewrite Hpos, Hby, Hs, Hx. simpl. unfold Tx.retire in Er. rewrite Er. simpl.
  eexists. split; [done|]. split; [apply HG|]. simpl. rewrite Hk.
  destruct (retire_settles (zdpr_send ss) i _ Tx.Acked s' HI Hi Er) as [Hd _].
  split; [by eapply done_stays|]. by apply acked_stays in Hd as [-> | ->].
Qed.

(** ** Two ways of giving up a queued packet *)

Definition after (s : Tx.Sender Bytes) (ops : list (Op Bytes)) : Tx.Sender Bytes :=
  match run s ops with Ret (s', _, _) => s' | Panic => s end.

(** Two packets with a window of one: the second waits under identifier 0. *)
Definition two_packets : Tx.Sender Bytes := after Tx.new [OEnqueue [1]; OEnqueue [2]].

(** Requesting the cancellation of a packet that was queued crashes when
    the packet has meanwhile been sent and acknowledged: the look-up finds
    nothing, the identifier becomes [Acked], and the code that expects [Sent]
    is declared unreachable. *)
Theorem request_cancel_of_acked_panics :
  let s := after two_packets [OAck 0; OUnblock; OAck 1] in
  (exists tx, runs Tx.new [OEnqueue [1]; OEnqueue [2]; OAck 0; OUnblock; OAck 1] s [[1]; [2]] tx) /\
  request_cancel_internal (mkFut (Queued 0) 7) (Some (mkSession s 7)) = Panic.
Proof.
  split; [|vm_compute; reflexivity]. exists [(0, [1]); (1, [2])].
  ops_check.
Qed.

(** A queued packet with a retry limit whose future is given up with
    [enqueue] (or dropped) before it learns its sequence number is never
    forgotten: when its cancellation is acknowledged later it stays at the head
    of the window for good, with the window full, nothing to retransmit and
    nothing left to acknowledge, so that no further packet is ever sent. *)
Theorem queued_future_leaks_window :
  let fut := mkFut (Queued 0) 7 in
  exists ss ss', limit_retries_internal fut (Some (mkSession two_packets 7)) 0 = Ret (Some ss) /\
    enqueue_acked_or_canceled fut (Some ss) = Ret (Some ss') /\
    let s := after (zdpr_send ss') [OAck 0; OUnblock; OAge; OCanceled 1] in
    Tx.unacked s = [Tx.CancelAcked] /\ Tx.is_blocked s = true /\ Tx.retry_needed s = false /\
    drop_acked_or_canceled fut (Some (mkSession s 7)) = Ret (Some (mkSession s 7)).
Proof.
  do 2 eexists. split; [vm_compute; reflexivity|]. split; [reflexivity|].
  repeat split; vm_compute; reflexivity.
Qed.

(** ** Witnesses *)

Lemma sent_packet_dispatches_witness :
  exists pkt', fill_sequence_number 5 ([Zdp.HelloRequest; 0] ++ be_bytes 8 0 ++ [9]) = Ret pkt' /\
    drop 10 pkt' = [9] /\
    Dispatch.dispatch_mgmt_packet_with_link (Pkt:=Bytes) 1 1 0 (fun _ => true) true
      (Some (Dispatch.mkPeer Tx.new Link.demo_recv)) pkt' =
    Ret (let '(p', es) :=
           Dispatch.reliable_packet true (Dispatch.mkPeer Tx.new Link.demo_recv) 5 pkt' in
         (Some p', es)).
Proof.
  apply (sent_packet_dispatches 1 1 0 (fun _ => true) true Zdp.HelloRequest None None [9]).
  - reflexivity.
  - reflexivity.
  - split; [discriminate|reflexivity].
Defined.

(** One packet, cancelled, the cancellation acknowledged. *)
Definition canceled_session : Session :=
  mkSession (after Tx.new [OEnqueue [1]; OCancelSent 0; OCanceled 0]) 7.

Lemma canceled_session_inv : SInv (zdpr_send canceled_session).
Proof.
  assert (runs Tx.new [OEnqueue [1]; OCancelSent 0; OCanceled 0] (zdpr_send canceled_session)
            [[1]] [(0, [1])]) as HR by ops_check.
  exact (rs_inv _ _ _ _ (runs_spec _ _ _ _ HR)).
Qed.

Lemma future_reports_status_witness :
  exists ss', poll_acked_or_canceled Tx.noop (mkFut (Sent 0) 7) (Some canceled_session) =
    Ret (mkFut (Sent 0) 7, Some ss', Tx.Ready (inl StCanceled)).
Proof.
  refine (future_reports_status Tx.noop (mkFut (Sent 0) 7) canceled_session 0
            canceled_session_inv _ eq_refl eq_refl).
  split; vm_compute; [discriminate|reflexivity].
Defined.

Lemma dropped_future_forgets_witness :
  exists ss', drop_acked_or_canceled (mkFut (Sent 0) 7) (Some canceled_session) = Ret (Some ss') /\
    SInv (zdpr_send ss') /\ is_done (state_at (zdpr_send ss') 0) = true /\
    state_at (zdpr_send ss') 0 <> CANCEL_ACKED.
Proof.
  refine (dropped_future_forgets (mkFut (Sent 0) 7) canceled_session 0 canceled_session_inv
            eq_refl eq_refl _ _); [split; vm_compute; [discriminate|reflexivity]|].
  vm_compute. reflexivity.
Defined.

End MgmtCoreProps.
