(* ===== verification/PacketBuf.v ===== *)
(** * Packet buffers ([packet.rs])

    A packet is one byte buffer whose first bytes hold its own metadata, among
    it the offset and the length of the body.  The operations work on the raw
    buffer; [Rep] relates a buffer to its four sections (metadata, headroom,
    body, tailroom), on which each operation has a simple meaning. *)
From Stdlib Require Import ZArith Lia.
From stdpp Require Import base tactics option list.
From S2P Require Import Prelude.

Local Open Scope Z_scope.

Module PacketBuf.

Notation Buf := (list Z).

(** The layout of [PacketMetadata], fixed by the compiler and by the widths of
    the identifier types of the [zpr] crate: [offset] and [len] come first. *)
Class Layout := {
  md_size : Z;
  link_at : Z; link_size : Z;
  stream_at : Z; stream_size : Z;
  layout_link : 16 <= link_at /\ 0 <= link_size /\ link_at + link_size <= md_size;
  layout_stream : 16 <= stream_at /\ 0 <= stream_size /\ stream_at + stream_size <= md_size;
  layout_small : md_size < 2 ^ 16
}.

Section packet.
Context `{Layout}.

Definition MIN_BODY_OFFSET : Z := md_size.

Definition max_body_size_for (buf_size : Z) : Z := wrapping_sub 64 buf_size MIN_BODY_OFFSET.

(** [self.metadata().offset], [self.metadata().len]. *)
Definition md_offset (buf : Buf) : outcome Z :=
  md ← slice buf 0 md_size; mret (from_le (take 8 md)).
Definition md_len (buf : Buf) : outcome Z :=
  md ← slice buf 0 md_size; mret (from_le (take 8 (drop 8 md))).

(** [self.metadata_mut().offset = x] and so on. *)
Definition set_offset (buf : Buf) (x : Z) : outcome Buf :=
  _ ← slice buf 0 md_size; write_at buf 0 (le_bytes 8 x).
Definition set_len (buf : Buf) (x : Z) : outcome Buf :=
  _ ← slice buf 0 md_size; write_at buf 8 (le_bytes 8 x).

Definition zeros (n : Z) : list Z := replicate (Z.to_nat n) 0.

Definition new_with_existing_data (buf : Buf) (offset len : Z) : outcome Buf :=
  _ ← rust_assert (MIN_BODY_OFFSET <=? offset);
  _ ← rust_assert (len <=? zlen buf);
  _ ← rust_assert (offset <=? zlen buf - len);
  buf1 ← set_offset buf offset;
  buf2 ← set_len buf1 len;
  buf3 ← write_at buf2 link_at (zeros link_size);
  write_at buf3 stream_at (zeros stream_size).

Definition new (buf : Buf) (headroom : Z) : outcome Buf :=
  _ ← rust_assert (md_size <=? zlen buf);
  new_with_existing_data buf (wrapping_add 64 MIN_BODY_OFFSET headroom) 0.

Definition metadata_is_valid (buf : Buf) : outcome bool :=
  offset ← md_offset buf;
  len ← md_len buf;
  mret ((MIN_BODY_OFFSET <=? offset) && (len <=? zlen buf) && (offset <=? zlen buf - len)).

Definition try_new_with_existing_metadata (buf : Buf) : outcome (option Buf) :=
  v ← metadata_is_valid buf; mret (if (v : bool) then Some buf else None).

Definition new_with_existing_metadata (buf : Buf) : outcome Buf :=
  o ← try_new_with_existing_metadata buf; unwrap o.

Definition body (buf : Buf) : outcome (list Z) :=
  offset ← md_offset buf;
  len ← md_len buf;
  slice buf offset (wrapping_add 64 offset len).

Definition tailroom_available (buf : Buf) : outcome Z :=
  offset ← md_offset buf;
  len ← md_len buf;
  mret (wrapping_sub 64 (zlen buf) (wrapping_add 64 offset len)).

Definition headroom_available (buf : Buf) : outcome Z :=
  offset ← md_offset buf; mret (wrapping_sub 64 offset MIN_BODY_OFFSET).

(** Take [cnt] bytes from the headroom into the body. *)
Definition extend_front (buf : Buf) (cnt : Z) : outcome Buf :=
  room ← headroom_available buf;
  _ ← rust_assert (cnt <=? room);
  offset ← md_offset buf;
  buf1 ← set_offset buf (wrapping_sub 64 offset cnt);
  len ← md_len buf1;
  set_len buf1 (wrapping_add 64 len cnt).

(** Overwrite the first bytes of the body. *)
Definition write_body_prefix (buf : Buf) (xs : list Z) : outcome Buf :=
  b ← body buf;
  _ ← slice b 0 (zlen xs);
  offset ← md_offset buf;
  write_at buf offset xs.

Definition alloc_zeroed_headroom (buf : Buf) (cnt : Z) : outcome Buf :=
  buf1 ← extend_front buf cnt; write_body_prefix buf1 (zeros cnt).

Definition push_header (buf : Buf) (header : list Z) : outcome Buf :=
  buf1 ← extend_front buf (zlen header); write_body_prefix buf1 header.

Definition shrink_by (buf : Buf) (cnt : Z) : outcome Buf :=
  len ← md_len buf;
  _ ← rust_assert (cnt <=? len);
  set_len buf (wrapping_sub 64 len cnt).

(** [Buf::advance]. *)
Definition advance (buf : Buf) (cnt : Z) : outcome Buf :=
  len ← md_len buf;
  _ ← rust_assert (cnt <=? len);
  offset ← md_offset buf;
  buf1 ← set_offset buf (wrapping_add 64 offset cnt);
  len1 ← md_len buf1;
  set_len buf1 (wrapping_sub 64 len1 cnt).

(** [BufMut::advance_mut]. *)
Definition advance_mut (buf : Buf) (cnt : Z) : outcome Buf :=
  room ← tailroom_available buf;
  _ ← rust_assert (cnt <=? room);
  len ← md_len buf;
  set_len buf (wrapping_add 64 len cnt).

(** [BufMut::put] of a slice: checked, copied into [chunk_mut], advanced. *)
Definition put (buf : Buf) (xs : list Z) : outcome Buf :=
  room ← tailroom_available buf;
  _ ← rust_assert (zlen xs <=? room);
  offset ← md_offset buf;
  len ← md_len buf;
  buf1 ← write_at buf (wrapping_add 64 offset len) xs;
  advance_mut buf1 (zlen xs).

Definition set_body_extent (buf : Buf) (offset len : Z) : outcome Buf :=
  _ ← rust_assert (MIN_BODY_OFFSET <=? offset);
  _ ← rust_assert (len <=? zlen buf);
  _ ← rust_assert (offset <=? zlen buf - len);
  buf1 ← set_offset buf offset;
  set_len buf1 len.

Definition adopt_tailroom_with_header (buf : Buf) (header_len written : Z) : outcome Buf :=
  len ← md_len buf;
  _ ← rust_assert (header_len <=? len);
  room ← tailroom_available buf;
  _ ← rust_assert (written <=? room);
  old_offset ← md_offset buf;
  let output_offset := wrapping_add 64 old_offset len in
  let new_offset := wrapping_sub 64 output_offset header_len in
  header ← slice buf old_offset (wrapping_add 64 old_offset header_len);
  buf1 ← write_at buf new_offset header;
  set_body_extent buf1 new_offset (wrapping_add 64 header_len written).

(** [serialize] into a buffer with [room] bytes left; [None] is [Err]. *)
Definition serialize (buf : Buf) (room : Z) : outcome (option (list Z)) :=
  len ← md_len buf;
  if room <? wrapping_add 64 md_size len then mret None
  else
    md ← slice buf 0 md_size;
    b ← body buf;
    mret (Some (md ++ b)).

Inductive DeserializeError := InvalidSerialization | BufferTooSmall.

Definition deserialize_into (src : list Z) (buf : Buf) : outcome (Buf + DeserializeError) :=
  if zlen src <? md_size then mret (inr InvalidSerialization)
  else if zlen buf <? md_size then mret (inr BufferTooSmall)
  else
    buf1 ← write_at buf 0 (take (Z.to_nat md_size) src);
    o ← try_new_with_existing_metadata buf1;
    match o with
    | None => mret (inr BufferTooSmall)
    | Some pkt =>
        let rest := drop (Z.to_nat md_size) src in
        len ← md_len pkt;
        if zlen rest <? len then mret (inr InvalidSerialization)
        else
          offset ← md_offset pkt;
          pkt1 ← write_at pkt offset (take (Z.to_nat len) rest);
          mret (inl pkt1)
    end.

(** [buf[a..b].copy_from_slice(xs)]: the lengths must agree. *)
Definition copy_from_slice (buf : Buf) (a b : Z) (xs : list Z) : outcome Buf :=
  dst ← slice buf a b;
  _ ← rust_assert (zlen dst =? zlen xs);
  write_at buf a xs.

Definition clone_prefix_into_with_headroom (pkt buf : Buf) (headroom len : Z) : outcome Buf :=
  b ← body pkt;
  _ ← rust_assert (len <=? zlen b);
  _ ← rust_assert (headroom <=? wrapping_sub 64 (wrapping_sub 64 (zlen buf) len) MIN_BODY_OFFSET);
  md ← slice pkt 0 md_size;
  buf1 ← copy_from_slice buf 0 md_size md;
  let offset := wrapping_add 64 MIN_BODY_OFFSET headroom in
  buf2 ← copy_from_slice buf1 offset (wrapping_add 64 offset len) b;
  buf3 ← set_offset buf2 offset;
  set_len buf3 len.

Definition clone_into_with_headroom (pkt buf : Buf) (headroom : Z) : outcome Buf :=
  b ← body pkt; clone_prefix_into_with_headroom pkt buf headroom (zlen b).

Definition clone_prefix_into (pkt buf : Buf) (len : Z) : outcome Buf :=
  h ← headroom_available pkt; clone_prefix_into_with_headroom pkt buf h len.

Definition clone_into (pkt buf : Buf) : outcome Buf :=
  h ← headroom_available pkt;
  b ← body pkt;
  clone_prefix_into_with_headroom pkt buf h (zlen b).

(** ** The sections of a buffer *)

(** A buffer with given offset and length fields, other metadata [m] and the
    bytes [r] after the metadata. *)
Definition mk (off len : Z) (m r : list Z) : Buf := le_bytes 8 off ++ le_bytes 8 len ++ m ++ r.

(** [buf] consists of metadata [m], headroom [h], body [b] and tailroom [t]. *)
Record Rep (buf : Buf) (m h b t : list Z) : Prop := {
  rep_eq : buf = mk (md_size + zlen h) (zlen b) m (h ++ b ++ t);
  rep_m : zlen m = md_size - 16;
  rep_usize : zlen buf < 2 ^ 63
}.

(** ** Access to the sections *)

Lemma zlen_le_bytes n x : zlen (le_bytes n x) = Z.of_nat n.
Proof. unfold zlen. by rewrite length_le_bytes. Qed.

Lemma md_bounds : 16 <= md_size < 2 ^ 16.
Proof. pose proof layout_link. pose proof layout_small. lia. Qed.

Lemma zlen_mk off len m r : zlen m = md_size - 16 -> zlen (mk off len m r) = md_size + zlen r.
Proof. intros Hm. unfold mk. rewrite !zlen_app, !zlen_le_bytes, Hm. lia. Qed.

Lemma slice_md off len m r :
  zlen m = md_size - 16 ->
  slice (mk off len m r) 0 md_size = Ret (le_bytes 8 off ++ le_bytes 8 len ++ m).
Proof.
  intros Hm. unfold mk. rewrite !app_assoc, <- (app_assoc _ _ m).
  apply (slice_mid []); [done|]. rewrite !zlen_app, !zlen_le_bytes, Hm. lia.
Qed.

Lemma from_le_wrap x : from_le (le_bytes 8 x) = wrap 64 x.
Proof. apply (from_le_le_bytes 8 x). Qed.

Lemma md_offset_mk off len m r :
  zlen m = md_size - 16 -> md_offset (mk off len m r) = Ret (wrap 64 off).
Proof.
  intros Hm. unfold md_offset. rewrite slice_md by done. rewrite ?bind_Ret.
  rewrite take_app_length' by (by rewrite length_le_bytes). by rewrite from_le_wrap.
Qed.

Lemma md_len_mk off len m r :
  zlen m = md_size - 16 -> md_len (mk off len m r) = Ret (wrap 64 len).
Proof.
  intros Hm. unfold md_len. rewrite slice_md by done. rewrite ?bind_Ret.
  rewrite drop_app_length' by (by rewrite length_le_bytes).
  rewrite take_app_length' by (by rewrite length_le_bytes). by rewrite from_le_wrap.
Qed.

Lemma set_offset_mk off len m r x :
  zlen m = md_size - 16 -> set_offset (mk off len m r) x = Ret (mk x len m r).
Proof.
  intros Hm. unfold set_offset. rewrite slice_md by done. rewrite bind_Ret.
  apply (write_mid [] (le_bytes 8 off)); [done|]. by rewrite !zlen_le_bytes.
Qed.

Lemma set_len_mk off len m r x :
  zlen m = md_size - 16 -> set_len (mk off len m r) x = Ret (mk off x m r).
Proof.
  intros Hm. unfold set_len. rewrite slice_md by done. rewrite bind_Ret.
  apply (write_mid (le_bytes 8 off) (le_bytes 8 len)); by rewrite !zlen_le_bytes.
Qed.

(** Everything before the body of [mk]. *)
Lemma mk_body off len m h b t :
  mk off len m (h ++ b ++ t) = (le_bytes 8 off ++ le_bytes 8 len ++ m ++ h) ++ b ++ t.
Proof. unfold mk. by rewrite !app_assoc. Qed.

Lemma zlen_front off len m h :
  zlen m = md_size - 16 -> zlen (le_bytes 8 off ++ le_bytes 8 len ++ m ++ h) = md_size + zlen h.
Proof. intros Hm. rewrite !zlen_app, !zlen_le_bytes, Hm. lia. Qed.

Lemma slice_mk off len m h b t x y :
  zlen m = md_size - 16 -> x = md_size + zlen h -> y = x + zlen b ->
  slice (mk off len m (h ++ b ++ t)) x y = Ret b.
Proof.
  intros Hm -> ->. rewrite mk_body. apply slice_mid; [|done]. by rewrite zlen_front.
Qed.

Lemma write_mk off len m h b t x ys :
  zlen m = md_size - 16 -> x = md_size + zlen h -> zlen ys = zlen b ->
  write_at (mk off len m (h ++ b ++ t)) x ys = Ret (mk off len m (h ++ ys ++ t)).
Proof.
  intros Hm -> Hy. rewrite !mk_body. apply write_mid; [|done]. by rewrite zlen_front.
Qed.

(** The sizes of the sections of a buffer are those of a [usize]. *)
Lemma rep_bounds buf m h b t :
  Rep buf m h b t ->
  0 <= zlen h /\ 0 <= zlen b /\ 0 <= zlen t /\ zlen buf = md_size + zlen h + zlen b + zlen t /\
  md_size + zlen h + zlen b + zlen t < 2 ^ 63.
Proof.
  intros [E Hm Hu]. pose proof (zlen_nonneg h). pose proof (zlen_nonneg b).
  pose proof (zlen_nonneg t).
  assert (zlen buf = md_size + zlen h + zlen b + zlen t) as El.
  { rewrite E, zlen_mk by done. rewrite !zlen_app. lia. }
  repeat split; lia.
Qed.

Section access.
Context (buf m h b t : list Z) (HR : Rep buf m h b t).

Lemma rep_offset : md_offset buf = Ret (md_size + zlen h).
Proof.
  destruct (rep_bounds _ _ _ _ _ HR) as (? & ? & ? & ? & ?). pose proof md_bounds.
  rewrite (rep_eq _ _ _ _ _ HR), md_offset_mk by apply HR. rewrite wrap_small by lia. done.
Qed.

Lemma rep_len : md_len buf = Ret (zlen b).
Proof.
  destruct (rep_bounds _ _ _ _ _ HR) as (? & ? & ? & ? & ?). pose proof md_bounds.
  rewrite (rep_eq _ _ _ _ _ HR), md_len_mk by apply HR. rewrite wrap_small by lia. done.
Qed.

Lemma rep_body : body buf = Ret b.
Proof.
  destruct (rep_bounds _ _ _ _ _ HR) as (? & ? & ? & ? & ?). pose proof md_bounds.
  unfold body. rewrite rep_offset, rep_len. rewrite ?bind_Ret. unfold wrapping_add.
  rewrite wrap_small by lia. rewrite (rep_eq _ _ _ _ _ HR). apply slice_mk; [apply HR|done|lia].
Qed.

Lemma rep_headroom : headroom_available buf = Ret (zlen h).
Proof.
  destruct (rep_bounds _ _ _ _ _ HR) as (? & ? & ? & ? & ?). pose proof md_bounds.
  unfold headroom_available. rewrite rep_offset. rewrite ?bind_Ret. unfold wrapping_sub, MIN_BODY_OFFSET.
  rewrite wrap_small by lia. do 2 f_equal. lia.
Qed.

Lemma rep_tailroom : tailroom_available buf = Ret (zlen t).
Proof.
  destruct (rep_bounds _ _ _ _ _ HR) as (? & ? & ? & Hl & ?). pose proof md_bounds.
  unfold tailroom_available. rewrite rep_offset, rep_len. rewrite ?bind_Ret.
  unfold wrapping_sub, wrapping_add. rewrite (wrap_small 64 (_ + zlen b)) by lia.
  rewrite wrap_small by lia. do 2 f_equal. lia.
Qed.

(** Setting both fields to another division of the same bytes. *)
Lemma rep_move off h' b' t' :
  h' ++ b' ++ t' = h ++ b ++ t -> off = md_size + zlen h' ->
  Rep (mk off (zlen b') m (h ++ b ++ t)) m h' b' t'.
Proof.
  intros E ->. split; [by rewrite E|apply HR|].
  rewrite zlen_mk by apply HR. rewrite !zlen_app.
  destruct (rep_bounds _ _ _ _ _ HR) as (? & ? & ? & ? & ?). lia.
Qed.

End access.

(** ** What each operation does to the sections *)

Lemma split_tail (l : list Z) n :
  0 <= n <= zlen l -> exists l1 l2, l = l1 ++ l2 /\ zlen l2 = n /\ l1 = take (Z.to_nat (zlen l - n)) l.
Proof.
  intros Hn. exists (take (Z.to_nat (zlen l - n)) l), (drop (Z.to_nat (zlen l - n)) l).
  rewrite take_drop. split; [done|]. split; [|done].
  unfold zlen in *. rewrite length_drop. lia.
Qed.

Lemma split_front (l : list Z) n :
  0 <= n <= zlen l -> exists l1 l2, l = l1 ++ l2 /\ zlen l1 = n /\
    l1 = take (Z.to_nat n) l /\ l2 = drop (Z.to_nat n) l.
Proof.
  intros Hn. exists (take (Z.to_nat n) l), (drop (Z.to_nat n) l).
  rewrite take_drop. split; [done|]. split; [|done].
  unfold zlen in *. rewrite length_take. lia.
Qed.

Ltac rep_facts HR :=
  let H1 := fresh in pose proof (rep_bounds _ _ _ _ _ HR) as H1; destruct H1 as (? & ? & ? & ? & ?);
  pose proof md_bounds.

Lemma extend_front_spec buf m h1 h2 b t :
  Rep buf m (h1 ++ h2) b t ->
  exists buf', extend_front buf (zlen h2) = Ret buf' /\ Rep buf' m h1 (h2 ++ b) t.
Proof.
  intros HR. rep_facts HR. rewrite zlen_app in *. pose proof (zlen_nonneg h1).
  pose proof (zlen_nonneg h2).
  unfold extend_front. rewrite (rep_headroom _ _ _ _ _ HR), bind_Ret. unfold rust_assert.
  rewrite (proj2 (Z.leb_le _ _)) by (rewrite zlen_app; lia). rewrite bind_Ret.
  rewrite (rep_offset _ _ _ _ _ HR), bind_Ret. unfold wrapping_sub, wrapping_add.
  rewrite (rep_eq _ _ _ _ _ HR), set_offset_mk, bind_Ret by apply HR.
  rewrite md_len_mk, bind_Ret, set_len_mk by apply HR.
  eexists. split; [done|]. rewrite (wrap_small 64 (zlen b)), !wrap_small by (rewrite ?zlen_app; lia).
  rewrite (Z.add_comm (zlen b)), <- zlen_app.
  apply (rep_move _ _ _ _ _ HR); [by rewrite <- !app_assoc|]. rewrite zlen_app. lia.
Qed.

Lemma extend_front_panics buf m h b t cnt :
  Rep buf m h b t -> zlen h < cnt -> extend_front buf cnt = Panic.
Proof.
  intros HR Hc. unfold extend_front. rewrite (rep_headroom _ _ _ _ _ HR), bind_Ret.
  unfold rust_assert. by rewrite (proj2 (Z.leb_gt _ _)).
Qed.

Lemma write_body_prefix_spec buf m h b1 b2 t xs :
  Rep buf m h (b1 ++ b2) t -> zlen xs = zlen b1 ->
  exists buf', write_body_prefix buf xs = Ret buf' /\ Rep buf' m h (xs ++ b2) t.
Proof.
  intros HR Hx. unfold write_body_prefix.
  rewrite (rep_body _ _ _ _ _ HR), bind_Ret, (rep_offset _ _ _ _ _ HR).
  rewrite (slice_mid [] b1 b2) by (done || lia). rewrite !bind_Ret.
  rewrite (rep_eq _ _ _ _ _ HR), <- app_assoc.
  rewrite (write_mk _ _ _ _ b1) by (done || apply HR).
  eexists. split; [done|]. split; [|apply HR|].
  - rewrite !zlen_app, Hx. by rewrite <- app_assoc.
  - rewrite zlen_mk by apply HR. rep_facts HR. rewrite !zlen_app in *. lia.
Qed.

Lemma push_spec buf m h b t hdr :
  Rep buf m h b t ->
  if zlen hdr <=? zlen h
  then exists buf', push_header buf hdr = Ret buf' /\
         Rep buf' m (take (Z.to_nat (zlen h - zlen hdr)) h) (hdr ++ b) t
  else push_header buf hdr = Panic.
Proof.
  intros HR. pose proof (zlen_nonneg hdr). unfold push_header. destruct (Z.leb_spec (zlen hdr) (zlen h)).
  - destruct (split_tail h (zlen hdr)) as (h1 & h2 & Eh & Hl & <-); [lia|]. subst h.
    destruct (extend_front_spec _ _ _ _ _ _ HR) as (buf1 & E & HR1). rewrite <- Hl, E, bind_Ret.
    by apply (write_body_prefix_spec buf1 m h1 h2).
  - by rewrite (extend_front_panics _ _ _ _ _ _ HR).
Qed.

Lemma shrink_spec buf m h b t cnt :
  Rep buf m h b t -> 0 <= cnt ->
  if cnt <=? zlen b
  then exists buf' b2, shrink_by buf cnt = Ret buf' /\ b = take (Z.to_nat (zlen b - cnt)) b ++ b2 /\
         Rep buf' m h (take (Z.to_nat (zlen b - cnt)) b) (b2 ++ t)
  else shrink_by buf cnt = Panic.
Proof.
  intros HR Hc. rep_facts HR. unfold shrink_by, rust_assert. rewrite (rep_len _ _ _ _ _ HR), bind_Ret.
  destruct (Z.leb_spec cnt (zlen b)); [|done]. rewrite bind_Ret.
  destruct (split_tail b cnt) as (b1 & b2 & Eb & Hl & Hb1); [lia|]. rewrite <- Hb1.
  assert (zlen b1 = zlen b - cnt) as Hz by (rewrite Eb, zlen_app; lia).
  rewrite (rep_eq _ _ _ _ _ HR), set_len_mk by apply HR. eexists _, b2.
  split; [done|]. split; [done|]. unfold wrapping_sub. rewrite wrap_small by lia. rewrite <- Hz.
  apply (rep_move _ _ _ _ _ HR); [|done]. rewrite Eb. by rewrite <- app_assoc.
Qed.

Lemma advance_spec buf m h b t cnt :
  Rep buf m h b t -> 0 <= cnt ->
  if cnt <=? zlen b
  then exists buf' b1, advance buf cnt = Ret buf' /\ b = b1 ++ drop (Z.to_nat cnt) b /\
         Rep buf' m (h ++ b1) (drop (Z.to_nat cnt) b) t
  else advance buf cnt = Panic.
Proof.
  intros HR Hc. rep_facts HR. unfold advance, rust_assert. rewrite (rep_len _ _ _ _ _ HR), bind_Ret.
  destruct (Z.leb_spec cnt (zlen b)); [|done]. rewrite bind_Ret.
  destruct (split_front b cnt) as (b1 & b2 & Eb & Hl & _ & Hb2); [lia|]. rewrite <- Hb2.
  rewrite (rep_offset _ _ _ _ _ HR), bind_Ret.
  rewrite (rep_eq _ _ _ _ _ HR), set_offset_mk, bind_Ret by apply HR.
  rewrite md_len_mk, bind_Ret, set_len_mk by apply HR. eexists _, b1.
  split; [done|]. split; [done|]. unfold wrapping_sub, wrapping_add.
  assert (zlen b2 = zlen b - cnt) as Hz by (rewrite Eb, zlen_app; lia).
  rewrite (wrap_small 64 (zlen b)), !wrap_small by lia. rewrite <- Hz.
  apply (rep_move _ _ _ _ _ HR); [rewrite Eb; by rewrite <- !app_assoc|].
  rewrite zlen_app. lia.
Qed.

Lemma put_spec buf m h b t xs :
  Rep buf m h b t ->
  if zlen xs <=? zlen t
  then exists buf', put buf xs = Ret buf' /\ Rep buf' m h (b ++ xs) (drop (length xs) t)
  else put buf xs = Panic.
Proof.
  intros HR. rep_facts HR. pose proof (zlen_nonneg xs). unfold put, rust_assert.
  rewrite (rep_tailroom _ _ _ _ _ HR), bind_Ret.
  destruct (Z.leb_spec (zlen xs) (zlen t)); [|done]. rewrite bind_Ret.
  rewrite (rep_offset _ _ _ _ _ HR), (rep_len _ _ _ _ _ HR), !bind_Ret.
  destruct (split_front t (zlen xs)) as (t1 & t2 & Et & Hl & _ & Ht2); [lia|].
  replace (Z.to_nat (zlen xs)) with (length xs) in Ht2 by (unfold zlen; lia). rewrite <- Ht2.
  unfold wrapping_add. rewrite wrap_small by lia.
  rewrite (rep_eq _ _ _ _ _ HR), Et, app_assoc.
  rewrite (write_mk _ _ _ (h ++ b) t1) by (apply HR || (rewrite ?zlen_app; lia)). rewrite bind_Ret.
  assert (Rep (mk (md_size + zlen h) (zlen b) m ((h ++ b) ++ xs ++ t2)) m h b (xs ++ t2)) as HR1.
  { split; [by rewrite <- !app_assoc|apply HR|]. rewrite zlen_mk by apply HR.
    rewrite !zlen_app. rewrite Et, zlen_app in *. lia. }
  unfold advance_mut, rust_assert. rewrite (rep_tailroom _ _ _ _ _ HR1), bind_Ret.
  rewrite (proj2 (Z.leb_le _ _)) by (rewrite zlen_app; pose proof (zlen_nonneg t2); lia).
  rewrite bind_Ret, (rep_len _ _ _ _ _ HR1), bind_Ret, set_len_mk by apply HR.
  eexists. split; [done|]. unfold wrapping_add. rewrite wrap_small by lia. rewrite <- zlen_app.
  rewrite <- app_assoc. apply (rep_move _ _ _ _ _ HR1); [by rewrite <- !app_assoc|done].
Qed.

Lemma zlen_zeros n : 0 <= n -> zlen (zeros n) = n.
Proof. intros Hn. unfold zlen, zeros. rewrite length_replicate. lia. Qed.

Lemma adopt_spec buf m h b t hl wr :
  Rep buf m h b t -> 0 <= hl <= zlen b -> 0 <= wr <= zlen t ->
  exists buf' h', adopt_tailroom_with_header buf hl wr = Ret buf' /\
    Rep buf' m h' (take (Z.to_nat hl) b ++ take (Z.to_nat wr) t) (drop (Z.to_nat wr) t) /\
    zlen h' = zlen h + zlen b - hl.
Proof.
  intros HR Hh Hw. rep_facts HR. unfold adopt_tailroom_with_header, rust_assert.
  rewrite (rep_len _ _ _ _ _ HR), bind_Ret, (proj2 (Z.leb_le hl _)) by lia.
  rewrite bind_Ret, (rep_tailroom _ _ _ _ _ HR), bind_Ret, (proj2 (Z.leb_le wr _)) by lia.
  rewrite bind_Ret, (rep_offset _ _ _ _ _ HR), bind_Ret. unfold wrapping_add, wrapping_sub.
  rewrite (wrap_small 64 (md_size + zlen h + zlen b)), (wrap_small 64 (md_size + zlen h + hl)),
    (wrap_small 64 (hl + wr)), wrap_small by lia. cbv zeta.
  destruct (split_front b hl) as (b1 & b2 & Eb & Hl1 & Hb1 & _); [lia|]. rewrite <- Hb1.
  destruct (split_tail b hl) as (c1 & c2 & Ec & Hc2 & _); [lia|].
  destruct (split_front t wr) as (t1 & t2 & Et & Ht1 & Et1 & Et2); [lia|]. rewrite <- Et1, <- Et2.
  assert (zlen c1 = zlen b - hl) as Hc1 by (rewrite Ec, zlen_app; lia).
  assert (slice buf (md_size + zlen h) (md_size + zlen h + hl) = Ret b1) as ->.
  { rewrite (rep_eq _ _ _ _ _ HR), Eb, <- app_assoc. apply slice_mk; [apply HR|done|lia]. }
  rewrite bind_Ret.
  assert (write_at buf (md_size + zlen h + zlen b - hl) b1 =
          Ret (mk (md_size + zlen h) (zlen b) m ((h ++ c1) ++ b1 ++ t))) as ->.
  { rewrite (rep_eq _ _ _ _ _ HR). rewrite Ec at 2. rewrite <- app_assoc, (app_assoc h).
    apply write_mk; [apply HR|rewrite zlen_app; lia|lia]. }
  rewrite bind_Ret. unfold set_body_extent, rust_assert, MIN_BODY_OFFSET.
  rewrite zlen_mk by apply HR. rewrite !zlen_app.
  rewrite !(proj2 (Z.leb_le _ _)) by lia. rewrite !bind_Ret.
  rewrite set_offset_mk, bind_Ret, set_len_mk by apply HR.
  eexists _, (h ++ c1). split; [done|]. split; [|rewrite zlen_app; lia].
  split; [|apply HR|].
  - rewrite !zlen_app, Et. f_equal; [lia|lia|]. by rewrite <- !app_assoc.
  - rewrite zlen_mk by apply HR. rewrite !zlen_app. lia.
Qed.

(** Bytes of the metadata beyond the two fields. *)
Lemma md_write off len m r a n :
  zlen m = md_size - 16 -> 16 <= a -> 0 <= n -> a + n <= md_size ->
  exists m', write_at (mk off len m r) a (zeros n) = Ret (mk off len m' r) /\ zlen m' = zlen m.
Proof.
  intros Hm Ha Hn Hs. destruct (split_front m (a - 16)) as (m1 & m2 & Em & Hl1 & _); [lia|].
  destruct (split_front m2 n) as (m3 & m4 & Em2 & Hl3 & _).
  { rewrite Em, zlen_app in Hm. lia. }
  exists (m1 ++ zeros n ++ m4). split.
  - unfold mk. subst m m2.
    rewrite <- !app_assoc, (app_assoc (le_bytes 8 len)), (app_assoc (le_bytes 8 off)).
    rewrite (app_assoc (le_bytes 8 len) m1 (zeros n ++ _)),
      (app_assoc (le_bytes 8 off) (le_bytes 8 len ++ m1) (zeros n ++ _)).
    apply write_mid; [rewrite !zlen_app, !zlen_le_bytes; lia|].
    rewrite zlen_zeros by lia. done.
  - rewrite Em, Em2, !zlen_app, zlen_zeros by lia. lia.
Qed.

(** A buffer of bytes that holds the metadata, by sections. *)
Lemma buf_sections buf :
  bytes_ok buf -> md_size <= zlen buf ->
  exists off len m r, buf = mk off len m r /\ u64 off /\ u64 len /\ zlen m = md_size - 16.
Proof.
  intros Hb Hl. pose proof md_bounds.
  destruct (split_front buf 8) as (x & r1 & E & Hx & _); [lia|].
  assert (zlen buf = 8 + zlen r1) by (rewrite E, zlen_app; lia).
  destruct (split_front r1 8) as (y & r2 & E1 & Hy & _); [lia|].
  assert (zlen r1 = 8 + zlen r2) by (rewrite E1, zlen_app; lia).
  destruct (split_front r2 (md_size - 16)) as (m & r & E2 & Hm & _); [lia|].
  subst buf r1 r2. unfold bytes_ok in Hb. apply Forall_app in Hb as [Hbx Hb].
  apply Forall_app in Hb as [Hby _].
  assert (forall z, Forall is_byte z -> zlen z = 8 -> le_bytes 8 (from_le z) = z /\ u64 (from_le z))
    as Hz.
  { intros z Hz Hz8. assert (length z = 8%nat) as Hz8' by (unfold zlen in Hz8; lia). split.
    - rewrite <- Hz8'. by apply le_bytes_from_le.
    - unfold from_le. pose proof (from_be_range (rev z)) as Hr. unfold zlen in Hr.
      rewrite length_rev, Hz8' in Hr. apply Hr. by apply Forall_rev. }
  destruct (Hz x Hbx Hx) as [Ex ?], (Hz y Hby Hy) as [Ey ?].
  exists (from_le x), (from_le y), m, r. unfold mk. rewrite Ex, Ey. done.
Qed.

Lemma new_rep buf headroom :
  bytes_ok buf -> md_size <= zlen buf < 2 ^ 63 -> u64 headroom ->
  if headroom <=? zlen buf - md_size
  then exists buf' m h t, new buf headroom = Ret buf' /\ Rep buf' m h [] t /\ zlen h = headroom
  else new buf headroom = Panic.
Proof.
  intros Hb Hl Hu. pose proof md_bounds.
  destruct (buf_sections buf Hb) as (off & len & m & r & -> & _ & _ & Hm); [lia|].
  rewrite zlen_mk in Hl by done. pose proof (zlen_nonneg r).
  unfold new, new_with_existing_data, rust_assert, MIN_BODY_OFFSET.
  rewrite zlen_mk by done. rewrite (proj2 (Z.leb_le md_size (md_size + zlen r))), bind_Ret by lia.
  unfold wrapping_add.
  destruct (Z.leb_spec headroom (md_size + zlen r - md_size)).
  - unfold u64 in Hu. rewrite wrap_small by lia.
    rewrite !(proj2 (Z.leb_le _ _)) by lia. rewrite !bind_Ret.
    rewrite set_offset_mk, bind_Ret, set_len_mk, bind_Ret by done.
    destruct layout_link as (? & ? & ?), layout_stream as (? & ? & ?).
    destruct (md_write (md_size + headroom) 0 m r link_at link_size) as (m1 & -> & Hm1); try done.
    rewrite bind_Ret.
    destruct (md_write (md_size + headroom) 0 m1 r stream_at stream_size) as (m2 & -> & Hm2);
      try done; [lia|].
    destruct (split_front r headroom) as (h & t & Er & Hh & _); [lia|].
    eexists _, m2, h, t. split; [done|]. split; [|done]. split; [|lia|].
    + rewrite Er, Hh. done.
    + rewrite zlen_mk by lia. lia.
  - destruct (Z_lt_le_dec (md_size + headroom) (2 ^ 64)).
    + rewrite wrap_small by (unfold u64 in *; lia).
      rewrite (proj2 (Z.leb_le md_size _)), (proj2 (Z.leb_le 0 _)) by (unfold u64 in *; lia).
      rewrite !bind_Ret. by rewrite (proj2 (Z.leb_gt _ _)) by lia.
    + assert (wrap 64 (md_size + headroom) = md_size + headroom - 2 ^ 64) as ->.
      { unfold wrap. rewrite <- (Z_mod_plus_full _ (-1) (2 ^ 64)). apply Z.mod_small.
        unfold u64 in *. change (-1 * 2 ^ 64) with (- 2 ^ 64). lia. }
      rewrite (proj2 (Z.leb_gt md_size _)) by (unfold u64 in *; lia). done.
Qed.

Lemma serialize_spec buf m h b t room :
  Rep buf m h b t -> md_size + zlen b <= room ->
  serialize buf room =
    Ret (Some ((le_bytes 8 (md_size + zlen h) ++ le_bytes 8 (zlen b) ++ m) ++ b)).
Proof.
  intros HR Hroom. rep_facts HR. unfold serialize. rewrite (rep_len _ _ _ _ _ HR), bind_Ret.
  unfold wrapping_add. rewrite wrap_small, (proj2 (Z.ltb_ge _ _)) by lia.
  rewrite (rep_body _ _ _ _ _ HR), (rep_eq _ _ _ _ _ HR), slice_md by apply HR. done.
Qed.

Lemma deserialize_spec (m h b t buf : list Z) :
  zlen m = md_size - 16 -> zlen buf = md_size + zlen h + zlen b + zlen t -> zlen buf < 2 ^ 63 ->
  exists buf' h' t',
    deserialize_into ((le_bytes 8 (md_size + zlen h) ++ le_bytes 8 (zlen b) ++ m) ++ b) buf =
      Ret (inl buf') /\
    Rep buf' m h' b t' /\ zlen h' = zlen h /\ zlen t' = zlen t.
Proof.
  intros Hm Hl Hu. pose proof md_bounds. pose proof (zlen_nonneg h). pose proof (zlen_nonneg b).
  pose proof (zlen_nonneg t). set (md := le_bytes 8 _ ++ le_bytes 8 _ ++ m).
  assert (zlen md = md_size) as Hmd by (unfold md; rewrite !zlen_app, !zlen_le_bytes; lia).
  unfold deserialize_into. rewrite zlen_app, Hmd.
  rewrite !(proj2 (Z.ltb_ge _ _)) by lia.
  assert (Z.to_nat md_size = length md) as Hn by (unfold zlen in Hmd; lia).
  rewrite Hn, take_app_length, drop_app_length.
  destruct (split_front buf md_size) as (x & r & -> & Hx & _); [lia|].
  assert (write_at (x ++ r) 0 md = Ret (md ++ r)) as ->
    by (apply (write_mid [] x); [done|lia]).
  rewrite bind_Ret. assert (md ++ r = mk (md_size + zlen h) (zlen b) m r) as ->.
  { unfold md, mk. by rewrite <- !app_assoc. }
  rewrite zlen_app in Hl.
  destruct (split_front r (zlen h)) as (h' & r1 & -> & Hh' & _); [lia|]. rewrite zlen_app in Hl.
  destruct (split_front r1 (zlen b)) as (b' & t' & -> & Hb' & _); [lia|]. rewrite zlen_app in Hl.
  rewrite <- Hh', <- Hb'. rewrite !zlen_app in Hu.
  assert (Rep (mk (md_size + zlen h') (zlen b') m (h' ++ b' ++ t')) m h' b' t') as HR.
  { split; [done|done|]. rewrite zlen_mk by done. rewrite !zlen_app. lia. }
  unfold try_new_with_existing_metadata, metadata_is_valid, MIN_BODY_OFFSET.
  rewrite (rep_offset _ _ _ _ _ HR), (rep_len _ _ _ _ _ HR), !bind_Ret.
  rewrite zlen_mk by done. rewrite !zlen_app, !(proj2 (Z.leb_le _ _)) by lia. simpl andb.
  unfold mret, outcome_ret. rewrite (rep_len _ _ _ _ _ HR), bind_Ret.
  rewrite (proj2 (Z.ltb_ge _ _)), (rep_offset _ _ _ _ _ HR), bind_Ret by lia.
  rewrite write_mk, bind_Ret; [|done|done|].
  2:{ unfold zlen in *. rewrite length_take. lia. }
  rewrite take_ge by (unfold zlen in *; lia). eexists _, h', t'. split; [done|].
  split; [|lia]. split; [by rewrite Hb'|done|]. rewrite zlen_mk by done. rewrite !zlen_app. lia.
Qed.

(** ** Properties *)

(** C27. The packet buffer operations act on the sections as documented, and
    panic exactly when there is not enough room: pushing a header extends the
    body into the headroom, [put] into the tailroom, [advance] and [shrink_by]
    return bytes to them; the other metadata, and all bytes outside the part
    written, stay as they are. *)
Theorem packet_operations buf m h b t :
  Rep buf m h b t ->
  (forall hdr, if zlen hdr <=? zlen h
     then exists buf', push_header buf hdr = Ret buf' /\
            Rep buf' m (take (Z.to_nat (zlen h - zlen hdr)) h) (hdr ++ b) t
     else push_header buf hdr = Panic) /\
  (forall xs, if zlen xs <=? zlen t
     then exists buf', put buf xs = Ret buf' /\ Rep buf' m h (b ++ xs) (drop (length xs) t)
     else put buf xs = Panic) /\
  (forall cnt, 0 <= cnt -> if cnt <=? zlen b
     then exists buf' b1, advance buf cnt = Ret buf' /\ b = b1 ++ drop (Z.to_nat cnt) b /\
            Rep buf' m (h ++ b1) (drop (Z.to_nat cnt) b) t
     else advance buf cnt = Panic) /\
  (forall cnt, 0 <= cnt -> if cnt <=? zlen b
     then exists buf' b2, shrink_by buf cnt = Ret buf' /\
            b = take (Z.to_nat (zlen b - cnt)) b ++ b2 /\
            Rep buf' m h (take (Z.to_nat (zlen b - cnt)) b) (b2 ++ t)
     else shrink_by buf cnt = Panic).
Proof.
  intros HR. repeat apply conj; intros;
    [by apply push_spec|by apply put_spec|by apply advance_spec|by apply shrink_spec].
Qed.

(** Creating a packet: for every byte buffer that can hold the metadata
    and every 64-bit headroom, [new] yields an empty body behind exactly that
    much headroom when it fits, and panics otherwise, also when the sum
    overflows. *)
Theorem new_packet buf headroom :
  bytes_ok buf -> md_size <= zlen buf < 2 ^ 63 -> u64 headroom ->
  if headroom <=? zlen buf - md_size
  then exists buf' m h t, new buf headroom = Ret buf' /\ Rep buf' m h [] t /\ zlen h = headroom
  else new buf headroom = Panic.
Proof. apply new_rep. Qed.

(** Round trip: a packet serialized into enough room and deserialized into
    any buffer of the size of the original one has the same metadata and body,
    and as much headroom and tailroom. *)
Theorem serialize_roundtrip buf m h b t room buf2 :
  Rep buf m h b t -> md_size + zlen b <= room -> zlen buf2 = zlen buf ->
  exists bytes buf' h' t', serialize buf room = Ret (Some bytes) /\
    deserialize_into bytes buf2 = Ret (inl buf') /\
    Rep buf' m h' b t' /\ zlen h' = zlen h /\ zlen t' = zlen t.
Proof.
  intros HR Hroom Hl. rep_facts HR. eexists.
  destruct (deserialize_spec m h b t buf2) as (buf' & h' & t' & E & HR' & Hh & Ht);
    [apply HR|lia|lia|].
  exists buf', h', t'. split; [by eapply serialize_spec|]. done.
Qed.

(** In-place transforms: after a transform wrote its output into the
    tailroom, [adopt_tailroom_with_header] makes the packet the kept header
    followed by the output, even where the two places of the header overlap. *)
Theorem adopt_tailroom buf m h b t hl wr :
  Rep buf m h b t -> 0 <= hl <= zlen b -> 0 <= wr <= zlen t ->
  exists buf' h', adopt_tailroom_with_header buf hl wr = Ret buf' /\
    Rep buf' m h' (take (Z.to_nat hl) b ++ take (Z.to_nat wr) t) (drop (Z.to_nat wr) t).
Proof.
  intros HR Hh Hw. destruct (adopt_spec _ _ _ _ _ hl wr HR Hh Hw) as (buf' & h' & E & HR' & _).
  by exists buf', h'.
Qed.

(** Cloning a proper prefix of a packet always panics: the copy uses the
    whole body for a destination of the prefix's length. *)
Theorem clone_prefix_panics pkt m h b t buf headroom len :
  Rep pkt m h b t -> 0 <= len < zlen b ->
  clone_prefix_into_with_headroom pkt buf headroom len = Panic.
Proof.
  intros HR Hlen. rep_facts HR. unfold clone_prefix_into_with_headroom.
  rewrite (rep_body _ _ _ _ _ HR), bind_Ret.
  destruct (rust_assert (len <=? zlen b)); [|done]. rewrite bind_Ret.
  destruct (rust_assert _); [|done]. rewrite bind_Ret.
  destruct (slice pkt 0 md_size) as [md|]; [|done]. rewrite bind_Ret.
  destruct (copy_from_slice buf 0 md_size md) as [buf1|]; [|done]. rewrite bind_Ret. cbv zeta.
  unfold copy_from_slice at 1.
  destruct (slice buf1 _ _) as [dst|] eqn:E; [|done]. rewrite bind_Ret.
  apply slice_ret in E as (Hr & _ & p & q & _ & _ & Hd). unfold rust_assert.
  destruct (Z.eqb_spec (zlen dst) (zlen b)) as [Heq|]; [|done]. exfalso.
  set (off := wrapping_add 64 MIN_BODY_OFFSET headroom) in *.
  assert (0 <= off < 2 ^ 64) by (apply wrap_range; lia).
  unfold wrapping_add at 1 in Hd. unfold wrapping_add at 1 in Hr.
  destruct (Z_lt_le_dec (off + len) (2 ^ 64)).
  - rewrite wrap_small in Hd by lia. lia.
  - assert (wrap 64 (off + len) = off + len - 2 ^ 64) as Hwr.
    { unfold wrap. rewrite <- (Z_mod_plus_full _ (-1) (2 ^ 64)). apply Z.mod_small. lia. }
    rewrite Hwr in Hr. lia.
Qed.

End packet.

(** ** Witnesses: a layout with 8-byte identifiers and a small packet *)

Definition demo_layout : Layout.
Proof.
  refine {| md_size := 48; link_at := 24; link_size := 8; stream_at := 40; stream_size := 4 |};
    lia.
Defined.

#[local] Existing Instance demo_layout.

Definition demo_buf : Buf := mk (48 + 4) 3 (replicate 32 7) ([1; 2; 3; 4] ++ [10; 11; 12] ++ [0; 0; 0]).

Lemma demo_rep : Rep demo_buf (replicate 32 7) [1; 2; 3; 4] [10; 11; 12] [0; 0; 0].
Proof. split; [reflexivity|reflexivity|vm_compute; reflexivity]. Qed.

Lemma packet_operations_witness :
  (exists buf', push_header demo_buf [8; 9] = Ret buf' /\
     Rep buf' (replicate 32 7) [1; 2] [8; 9; 10; 11; 12] [0; 0; 0]) /\
  put demo_buf [1; 2; 3; 4] = Panic.
Proof.
  destruct (packet_operations _ _ _ _ _ demo_rep) as (Hpush & Hput & _).
  split; [exact (Hpush [8; 9])|exact (Hput [1; 2; 3; 4])].
Defined.

Lemma demo_buf_bytes : bytes_ok demo_buf.
Proof. apply (bool_decide_unpack _). vm_compute. exact I. Qed.

Lemma new_packet_witness :
  (exists buf' m h t, new demo_buf 4 = Ret buf' /\ Rep buf' m h [] t /\ zlen h = 4) /\
  new demo_buf (2 ^ 64 - 1) = Panic.
Proof.
  split.
  - refine (new_packet demo_buf 4 demo_buf_bytes _ _); split; vm_compute; congruence.
  - refine (new_packet demo_buf (2 ^ 64 - 1) demo_buf_bytes _ _); split; vm_compute; congruence.
Defined.

Lemma serialize_roundtrip_witness :
  exists bytes buf' h' t', serialize demo_buf 51 = Ret (Some bytes) /\
    deserialize_into bytes (replicate 58 0) = Ret (inl buf') /\
    Rep buf' (replicate 32 7) h' [10; 11; 12] t' /\ zlen h' = 4 /\ zlen t' = 3.
Proof.
  refine (serialize_roundtrip demo_buf _ _ _ _ 51 (replicate 58 0) demo_rep _ _).
  - vm_compute. congruence.
  - reflexivity.
Defined.

Lemma adopt_tailroom_witness :
  exists buf' h', adopt_tailroom_with_header demo_buf 2 3 = Ret buf' /\
    Rep buf' (replicate 32 7) h' [10; 11; 0; 0; 0] [].
Proof.
  refine (adopt_tailroom demo_buf _ _ _ _ 2 3 demo_rep _ _); split; vm_compute; congruence.
Defined.

Lemma clone_prefix_panics_witness :
  clone_prefix_into_with_headroom demo_buf (replicate 58 0) 4 2 = Panic.
Proof.
  refine (clone_prefix_panics demo_buf _ _ _ _ (replicate 58 0) 4 2 demo_rep _).
  split; vm_compute; congruence.
Defined.

End PacketBuf.
