(* ===== verification/NetDefs.v ===== *)
(** * Network definitions shared by the datapath

    The five-tuple ([defs.rs]) and the interface to code outside the
    repository: the protocol numbers, addresses and checksums of the [zpr],
    [zpr-utils] and [ip4sum] crates, as a class whose laws are what those
    crates document. *)
From Stdlib Require Import ZArith Lia.
From stdpp Require Import base tactics option list countable.
From S2P Require Import Prelude.

Local Open Scope Z_scope.

(** ** The internet checksum (RFC 1071)

    The ones'-complement sum of the big-endian 16-bit words, an odd last byte
    being padded on its right. *)
Fixpoint sum16 (l : list Z) : Z :=
  match l with
  | a :: b :: r => a * 256 + b + sum16 r
  | [a] => a * 256
  | [] => 0
  end.
(** A sum with its carries folded in: zero only for a zero sum. *)
Definition fold16 (x : Z) : Z := if x =? 0 then 0 else 1 + (x - 1) mod 65535.
Definition rfc1071 (l : list Z) : Z := 65535 - fold16 (sum16 l).

(** An [IpAddress] is its 16 bytes. *)
Class NetDefs := {
  (** [net_defs::ip_number] *)
  HOPOPT : Z; ICMP : Z; IPINIP : Z; TCP : Z; UDP : Z; IPV6_ROUTE : Z; IPV6_FRAG : Z;
  AH : Z; IPV6_ICMP : Z; IPV6_OPTS : Z;
  (** [L3Type] *)
  Ipv4 : Z; Ipv6 : Z;
  (** [compression_mode] *)
  SOURCE_PORT_PRESENT : Z; DESTINATION_PORT_PRESENT : Z;
  (** [IpAddress::new_from_v4], [read_as_v4], [is_v4] *)
  new_from_v4 : list Z -> list Z;
  read_as_v4 : list Z -> list Z;
  is_v4 : list Z -> bool;
  (** [ip4sum::checksum], [inet_l4_checksum], [validate_inet_l4_checksum] *)
  ip4sum_checksum : list Z -> Z;
  inet_l4_checksum : Z -> list Z -> list Z -> Z -> list Z -> list Z;
  validate_inet_l4_checksum : Z -> list Z -> list Z -> Z -> list Z -> bool;
  (** A v4 address is read back from its v6-mapped form. *)
  read_new_v4 : forall a, length a = 4%nat -> read_as_v4 (new_from_v4 a) = a;
  (** The protocol numbers and layer-3 types are distinct. *)
  numbers_distinct : NoDup [HOPOPT; ICMP; IPINIP; TCP; UDP; IPV6_ROUTE; IPV6_FRAG; AH; IPV6_ICMP;
    IPV6_OPTS];
  l3_distinct : Ipv4 <> Ipv6;
  (** The compression flags are distinct bits. *)
  port_bits : Z.land SOURCE_PORT_PRESENT DESTINATION_PORT_PRESENT = 0 /\
    SOURCE_PORT_PRESENT <> 0 /\ DESTINATION_PORT_PRESENT <> 0;
  (** 59, "no next header", is none of them. *)
  not_59 : 59 ∉ [HOPOPT; ICMP; IPINIP; TCP; UDP; IPV6_ROUTE; IPV6_FRAG; AH; IPV6_ICMP; IPV6_OPTS];
  (** [ip4sum] computes the internet checksum. *)
  checksum_rfc1071 : forall l, bytes_ok l -> ip4sum_checksum l = rfc1071 l;
  (** A layer-4 checksum is two bytes. *)
  l4_checksum_size : forall l s d p b, length (inet_l4_checksum l s d p b) = 2%nat
}.

Record FiveTuple := mkFT {
  src_address : list Z;
  dst_address : list Z;
  l3_type : Z;
  l4_protocol : Z;
  src_port : Z;
  dst_port : Z
}.

#[export] Instance FiveTuple_eq_dec : EqDecision FiveTuple.
Proof. solve_decision. Defined.

#[export] Instance FiveTuple_countable : Countable FiveTuple.
Proof.
  refine (inj_countable'
    (fun ft => (src_address ft, dst_address ft, l3_type ft, l4_protocol ft, src_port ft, dst_port ft))
    (fun '(s, d, l3, l4, sp, dp) => mkFT s d l3 l4 sp dp) _).
  by intros [].
Defined.

Definition set_src_address (ft : FiveTuple) (a : list Z) : FiveTuple :=
  mkFT a (dst_address ft) (l3_type ft) (l4_protocol ft) (src_port ft) (dst_port ft).
Definition set_dst_address (ft : FiveTuple) (a : list Z) : FiveTuple :=
  mkFT (src_address ft) a (l3_type ft) (l4_protocol ft) (src_port ft) (dst_port ft).
Definition set_l3_type (ft : FiveTuple) (t : Z) : FiveTuple :=
  mkFT (src_address ft) (dst_address ft) t (l4_protocol ft) (src_port ft) (dst_port ft).
Definition set_l4_protocol (ft : FiveTuple) (p : Z) : FiveTuple :=
  mkFT (src_address ft) (dst_address ft) (l3_type ft) p (src_port ft) (dst_port ft).
Definition set_src_port (ft : FiveTuple) (p : Z) : FiveTuple :=
  mkFT (src_address ft) (dst_address ft) (l3_type ft) (l4_protocol ft) p (dst_port ft).
Definition set_dst_port (ft : FiveTuple) (p : Z) : FiveTuple :=
  mkFT (src_address ft) (dst_address ft) (l3_type ft) (l4_protocol ft) (src_port ft) p.

(** [FiveTuple::reverse]. *)
Definition reverse (ft : FiveTuple) : FiveTuple :=
  mkFT (dst_address ft) (src_address ft) (l3_type ft) (l4_protocol ft) (dst_port ft) (src_port ft).

(** A concrete instance: the IANA numbers and v4-mapped addresses. *)
Definition iana : NetDefs.
Proof.
  refine {|
    HOPOPT := 0; ICMP := 1; IPINIP := 4; TCP := 6; UDP := 17; IPV6_ROUTE := 43; IPV6_FRAG := 44;
    AH := 51; IPV6_ICMP := 58; IPV6_OPTS := 60; Ipv4 := 4; Ipv6 := 6;
    SOURCE_PORT_PRESENT := 1; DESTINATION_PORT_PRESENT := 2;
    new_from_v4 a := replicate 10 0 ++ [255; 255] ++ a;
    read_as_v4 a := drop 12 a;
    is_v4 a := bool_decide (take 12 a = replicate 10 0 ++ [255; 255]);
    ip4sum_checksum := rfc1071;
    inet_l4_checksum l3 s d p b := be_bytes 2 (65535 - fold16 (sum16 (s ++ d ++ b) + p + zlen b));
    validate_inet_l4_checksum l3 s d p b := (sum16 (s ++ d ++ b) + p + zlen b) mod 65535 =? 0
  |}; try done; try (intros; apply length_be_bytes); apply (bool_decide_unpack _); vm_compute; exact I.
Defined.
