(* ===== verification/Classifier.v ===== *)
(** * The packet classifier ([classifier.rs])

    Header parsing of IPv4 and IPv6 packets up to the transport ports: each
    function of the code over the raw bytes, with slice and index panics kept.
    Extension headers are followed recursively; every one consumed shortens the
    packet, whose length is fuel enough. *)
From Stdlib Require Import ZArith Lia.
From stdpp Require Import base tactics option list.
From S2P Require Import Prelude NetDefs.

Local Open Scope Z_scope.

Module Classifier.

Inductive ClassifierResult := OK | NonIP | UnclassifiedL4 | FirstFragment | SubsequentFragment.

Inductive ClassifyError :=
| PacketLengthError | BadL3Checksum | BadL4Checksum | V4MappedNotAllowed | JumbogramNotSupported.

Record ClassifierOptions := mkOptions {
  ignore_truncated_packets : bool;
  ignore_bad_checksums : bool
}.
Definition default_options : ClassifierOptions := mkOptions false false.

Definition IP_VERSION_MASK : Z := 0xF0.
Definition IPV4_HEADER_LENGTH_MASK : Z := 0x0F.
Definition NO_NEXT_HEADER : Z := 59.
Definition IPV4_HEADER : Z := 20.
Definition IPV6_HEADER : Z := 40.
Definition TCP_HEADER : Z := 20.
Definition UDP_HEADER : Z := 8.
Definition ICMP_HEADER : Z := 4.

(** Fields of a header: the byte at an offset, a big-endian [u16], a range. *)
Definition byte_at (l : list Z) (i : nat) : Z := default 0 (l !! i).
Definition u16_at (l : list Z) (i : nat) : Z := from_be (take 2 (drop i l)).
Definition range (l : list Z) (i n : nat) : list Z := take n (drop i l).

Section classifier.
Context `{NetDefs}.
Context (options : ClassifierOptions).

Notation Res := (outcome (FiveTuple * (ClassifierResult + ClassifyError))).

Definition ok (ft : FiveTuple) (r : ClassifierResult) : Res := mret (ft, inl r).
Definition err (ft : FiveTuple) (e : ClassifyError) : Res := mret (ft, inr e).

Definition check_l4 : bool := negb (ignore_bad_checksums options) && negb (ignore_truncated_packets options).

Definition get_ip_version (body : list Z) : outcome Z :=
  b ← index body 0; mret (Z.shiftr (Z.land b IP_VERSION_MASK) 4).

Definition validate_inet_l4_checksum_with_5t (ft : FiveTuple) (data : list Z) : bool :=
  validate_inet_l4_checksum (l3_type ft) (src_address ft) (dst_address ft) (l4_protocol ft) data.

Definition classify_unclassified (ft : FiveTuple) : Res :=
  ok (set_dst_port (set_src_port ft 0) 0) UnclassifiedL4.

Definition classify_icmp (ft : FiveTuple) (body : list Z) : Res :=
  hdr ← slice body 0 ICMP_HEADER;
  let ft1 := set_dst_port (set_src_port ft (byte_at hdr 0)) (byte_at hdr 1) in
  if check_l4 && negb (ip4sum_checksum body =? 0) then err ft1 BadL4Checksum
  else ok ft1 OK.

Definition classify_icmpv6 (ft : FiveTuple) (body : list Z) : Res :=
  hdr ← slice body 0 ICMP_HEADER;
  let ft1 := set_dst_port (set_src_port ft (byte_at hdr 0)) (byte_at hdr 1) in
  if check_l4 && negb (validate_inet_l4_checksum_with_5t ft1 body) then err ft1 BadL4Checksum
  else ok ft1 OK.

Definition classify_tcp (ft : FiveTuple) (body : list Z) : Res :=
  if zlen body <? TCP_HEADER then err ft PacketLengthError
  else if check_l4 && negb (validate_inet_l4_checksum_with_5t ft body) then err ft BadL4Checksum
  else
    let ft1 := set_dst_port (set_src_port ft (u16_at body 0)) (u16_at body 2) in
    let data_offset := wrap 8 (Z.shiftr (byte_at body 12) 4 * 4) in
    if (data_offset <? TCP_HEADER) || (zlen body <? data_offset) then err ft1 PacketLengthError
    else ok ft1 OK.

Definition classify_udp (ft : FiveTuple) (body : list Z) : Res :=
  if zlen body <? UDP_HEADER then err ft PacketLengthError
  else if check_l4 && negb (bool_decide (range body 6 2 = [0; 0])) &&
          negb (validate_inet_l4_checksum_with_5t ft body) then err ft BadL4Checksum
  else
    let ft1 := set_dst_port (set_src_port ft (u16_at body 0)) (u16_at body 2) in
    let length := u16_at body 4 in
    if (negb (ignore_truncated_packets options) && (zlen body <? length)) || (length <? zlen body)
    then err ft1 PacketLengthError
    else ok ft1 OK.

Definition is_option_length_error (remaining_len next_header option_length : Z) : bool :=
  (remaining_len <? option_length) ||
  (negb (next_header =? NO_NEXT_HEADER) && (remaining_len <? option_length + 8)).

(** The functions below continue with the rest of the packet through [next],
    which is [classify_next_header]. *)
Definition skip_v6_option (next : FiveTuple -> list Z -> Z -> Res) (ft : FiveTuple)
    (body : list Z) : Res :=
  next_header ← index body 0;
  b1 ← index body 1;
  let option_length := (b1 + 1) * 8 in
  if is_option_length_error (zlen body) next_header option_length then err ft PacketLengthError
  else next ft (drop (Z.to_nat option_length) body) next_header.

Definition skip_auth_header (next : FiveTuple -> list Z -> Z -> Res) (ft : FiveTuple)
    (body : list Z) : Res :=
  next_header ← index body 0;
  b1 ← index body 1;
  let option_length := (b1 + 2) * 4 in
  if is_option_length_error (zlen body) next_header option_length then err ft PacketLengthError
  else next ft (drop (Z.to_nat option_length) body) next_header.

Definition classify_frag (next : FiveTuple -> list Z -> Z -> Res) (ft : FiveTuple)
    (body : list Z) : Res :=
  next_header ← index body 0;
  if is_option_length_error (zlen body) next_header 8 then err ft PacketLengthError
  else if negb (Z.land (u16_at body 2) 0xFFF8 =? 0) then ok ft SubsequentFragment
  else
    '(ft1, _) ← next ft (drop 8 body) next_header;
    ok ft1 FirstFragment.

Fixpoint classify_next_header (fuel : nat) (ft : FiveTuple) (body : list Z) (protocol : Z) : Res :=
  match fuel with
  | O => Panic
  | S fuel =>
      let ft := set_l4_protocol ft protocol in
      if protocol =? HOPOPT then skip_v6_option (classify_next_header fuel) ft body
      else if protocol =? ICMP then classify_icmp ft body
      else if protocol =? IPINIP then classify_unclassified ft
      else if protocol =? TCP then classify_tcp ft body
      else if protocol =? UDP then classify_udp ft body
      else if protocol =? IPV6_ROUTE then skip_v6_option (classify_next_header fuel) ft body
      else if protocol =? IPV6_FRAG then classify_frag (classify_next_header fuel) ft body
      else if protocol =? AH then skip_auth_header (classify_next_header fuel) ft body
      else if protocol =? IPV6_ICMP then classify_icmpv6 ft body
      else if protocol =? IPV6_OPTS then skip_v6_option (classify_next_header fuel) ft body
      else classify_unclassified ft
  end.

(** As called from the layer-3 functions. *)
Definition next_header (ft : FiveTuple) (body : list Z) (protocol : Z) : Res :=
  classify_next_header (S (length body)) ft body protocol.

Definition classify_ipv4 (ft0 : FiveTuple) (body : list Z) : Res :=
  let ft := set_l3_type ft0 Ipv4 in
  if zlen body <? IPV4_HEADER then err ft PacketLengthError
  else
    let header_length := Z.land (byte_at body 0) IPV4_HEADER_LENGTH_MASK * 4 in
    let total_length := u16_at body 2 in
    if header_length <? IPV4_HEADER then err ft PacketLengthError
    else if check_l4 && (zlen body <? header_length) then err ft PacketLengthError
    else if check_l4 && negb (ip4sum_checksum (take (Z.to_nat header_length) body) =? 0)
    then err ft BadL3Checksum
    else
      let ft1 := set_dst_address (set_src_address ft (new_from_v4 (range body 12 4)))
                   (new_from_v4 (range body 16 4)) in
      let frag_offset := u16_at body 6 in
      if negb (Z.land frag_offset 0x1FFF =? 0)
      then ok (set_l4_protocol ft1 (byte_at body 9)) SubsequentFragment
      else if (negb (ignore_truncated_packets options) && (zlen body <? total_length)) ||
              (total_length <? zlen body) || (zlen body <? header_length)
      then err ft1 PacketLengthError
      else
        '(ft2, ret_code) ← next_header ft1 (drop (Z.to_nat header_length) body) (byte_at body 9);
        if negb (Z.land frag_offset 0x2000 =? 0) then ok ft2 FirstFragment
        else mret (ft2, ret_code).

Definition classify_ipv6 (ft0 : FiveTuple) (body : list Z) : Res :=
  let ft := set_l3_type ft0 Ipv6 in
  if zlen body <? IPV6_HEADER then err ft PacketLengthError
  else if is_v4 (range body 8 16) || is_v4 (range body 24 16) then err ft V4MappedNotAllowed
  else
    let ft1 := set_dst_address (set_src_address ft (range body 8 16)) (range body 24 16) in
    let payload_length := u16_at body 4 in
    if (payload_length =? 0) && (byte_at body 6 =? 0) then err ft1 JumbogramNotSupported
    else if (negb (ignore_truncated_packets options) && (zlen body - IPV6_HEADER <? payload_length)) ||
            (payload_length <? zlen body - IPV6_HEADER)
    then err ft1 PacketLengthError
    else next_header ft1 (drop 40 body) (byte_at body 6).

Definition classify_l3 (ft : FiveTuple) (body : list Z) : Res :=
  match body with
  | [] => err ft PacketLengthError
  | _ =>
      ip_version ← get_ip_version body;
      if ip_version =? 4 then classify_ipv4 ft body
      else if ip_version =? 6 then classify_ipv6 ft body
      else ok ft NonIP
  end.

Definition classify_zdp (ft : FiveTuple) (body : list Z) : Res := classify_l3 ft body.

Definition classify_with_options (ft : FiveTuple) (body : list Z) : Res := classify_zdp ft body.

End classifier.

Definition classify `{NetDefs} (ft : FiveTuple) (body : list Z) :=
  classify_with_options default_options ft body.

End Classifier.
