(* ===== verification/ClassifierProps.v ===== *)
(** * Properties of the packet classifier

    Exactly which packets make it panic, that following extension headers
    terminates within the packet, and what an accepted packet looks like. *)
From Stdlib Require Import ZArith Lia.
From stdpp Require Import base tactics option list.
From S2P Require Import Prelude NetDefs Classifier.
Import Classifier.

Local Open Scope Z_scope.

Module ClassifierProps.

Section props.
Context `{NetDefs}.
Context (options : ClassifierOptions).

(** The bytes the code reads of a header before it checks any length. *)
Definition unchecked_bytes (protocol : Z) : Z :=
  if protocol =? HOPOPT then 2
  else if protocol =? ICMP then 4
  else if protocol =? IPINIP then 0
  else if protocol =? TCP then 0
  else if protocol =? UDP then 0
  else if protocol =? IPV6_ROUTE then 2
  else if protocol =? IPV6_FRAG then 1
  else if protocol =? AH then 2
  else if protocol =? IPV6_ICMP then 4
  else if protocol =? IPV6_OPTS then 2
  else 0.

Lemma unchecked_small p : unchecked_bytes p <= 4.
Proof. unfold unchecked_bytes. repeat case_match; lia. Qed.

Lemma unchecked_none : unchecked_bytes NO_NEXT_HEADER = 0.
Proof.
  pose proof not_59 as N. rewrite !not_elem_of_cons in N. unfold unchecked_bytes, NO_NEXT_HEADER.
  destruct N as (? & ? & ? & ? & ? & ? & ? & ? & ? & ? & _).
  by rewrite !(proj2 (Z.eqb_neq _ _)) by done.
Qed.

Lemma option_fits len nh ol (rest : list Z) :
  is_option_length_error len nh ol = false -> 0 <= ol -> zlen rest = len - ol ->
  zlen rest < unchecked_bytes nh -> False.
Proof.
  unfold is_option_length_error. intros Hf Hol Hr Hs.
  apply orb_false_iff in Hf as [Hf1 Hf2]. zprop.
  destruct (Z.eqb_spec nh NO_NEXT_HEADER) as [->|]; simpl in Hf2.
  - rewrite unchecked_none in Hs. lia.
  - apply Z.ltb_ge in Hf2. pose proof (unchecked_small nh). lia.
Qed.

Lemma index_bytes l i b : bytes_ok l -> index l i = Ret b -> 0 <= b < 256.
Proof.
  intros Hl [_ Hi]%index_ret. unfold bytes_ok in Hl. rewrite list.Forall_forall in Hl.
  apply Hl. by eapply list_elem_of_lookup_2.
Qed.

Lemma zlen_drop {A} (l : list A) n : 0 <= n <= zlen l -> zlen (drop (Z.to_nat n) l) = zlen l - n.
Proof. unfold zlen. intros Hn. rewrite length_drop. lia. Qed.

(** One extension header whose length is [scale] of its second byte. *)
Lemma skip_panics next ft body (ol : Z -> Z) :
  bytes_ok body ->
  (forall b, 0 <= b -> 8 <= ol b) ->
  (forall ft' rest nh, bytes_ok rest -> zlen rest < zlen body ->
     next ft' rest nh = Panic <-> zlen rest < unchecked_bytes nh) ->
  (nh ← index body 0; b1 ← index body 1;
   if is_option_length_error (zlen body) nh (ol b1) then err ft PacketLengthError
   else next ft (drop (Z.to_nat (ol b1)) body) nh) = Panic <-> zlen body < 2.
Proof.
  intros Hb Hol Hnext. pose proof (zlen_nonneg body).
  destruct (Z_lt_le_dec (zlen body) 2) as [Hlt|Hge].
  - split; [done|]. intros _. destruct (index body 0) as [nh|]; [|done]. simpl.
    by rewrite (proj2 (index_panic body 1)) by lia.
  - destruct (index_lt body 0) as [nh Hnh]; [lia|]. destruct (index_lt body 1) as [b1 Hb1]; [lia|].
    rewrite Hnh, Hb1. simpl. pose proof (index_bytes _ _ _ Hb Hb1) as Hr. specialize (Hol b1).
    destruct (is_option_length_error (zlen body) nh (ol b1)) eqn:E; [split; [done|lia]|].
    assert (ol b1 <= zlen body) as Hle.
    { unfold is_option_length_error in E. apply orb_false_iff in E as [E _]. by apply Z.ltb_ge in E. }
    rewrite Hnext; [|by apply Forall_drop|rewrite zlen_drop by lia; lia].
    split; [|lia]. intros Hs. exfalso.
    eapply option_fits; [exact E|lia| |exact Hs]. rewrite zlen_drop by lia. lia.
Qed.

Lemma frag_panics next ft body :
  bytes_ok body ->
  (forall ft' rest nh, bytes_ok rest -> zlen rest < zlen body ->
     next ft' rest nh = Panic <-> zlen rest < unchecked_bytes nh) ->
  classify_frag next ft body = Panic <-> zlen body < 1.
Proof.
  intros Hb Hnext. unfold classify_frag. pose proof (zlen_nonneg body).
  destruct (Z_lt_le_dec (zlen body) 1) as [Hlt|Hge].
  - split; [done|]. intros _. by rewrite (proj2 (index_panic body 0)) by lia.
  - destruct (index_lt body 0) as [nh Hnh]; [lia|]. rewrite Hnh. simpl.
    destruct (is_option_length_error (zlen body) nh 8) eqn:E; [split; [done|lia]|].
    destruct (negb _); [split; [done|lia]|].
    assert (8 <= zlen body) as Hle.
    { unfold is_option_length_error in E. apply orb_false_iff in E as [E _]. by apply Z.ltb_ge in E. }
    pose proof (zlen_drop body 8 ltac:(lia)) as Hd. change (Z.to_nat 8) with 8%nat in Hd.
    destruct (next ft (drop 8 body) nh) as [[ft1 r]|] eqn:En; simpl; (split; [|lia]); [done|].
    intros _. exfalso. apply Hnext in En; [|by apply Forall_drop|lia].
    eapply option_fits; [exact E|lia| |exact En]. lia.
Qed.

Lemma icmp_panics ft body :
  (classify_icmp options ft body = Panic <-> zlen body < 4) /\
  (classify_icmpv6 options ft body = Panic <-> zlen body < 4).
Proof.
  pose proof (zlen_nonneg body). unfold classify_icmp, classify_icmpv6, slice, ICMP_HEADER.
  destruct (Z.leb_spec 4 (zlen body)); simpl; split; split; try done; try lia;
    destruct (_ && _); try done; try lia.
Qed.

(** Walking the headers: the fuel is enough, and only the first header can be
    too short. *)
Lemma walk_panics fuel : forall ft body p,
  bytes_ok body -> (length body < fuel)%nat ->
  classify_next_header options fuel ft body p = Panic <-> zlen body < unchecked_bytes p.
Proof.
  induction fuel as [|fuel IH]; intros ft body p Hb Hf; [lia|]. simpl. unfold unchecked_bytes.
  pose proof (zlen_nonneg body).
  assert (forall ft' rest nh, bytes_ok rest -> zlen rest < zlen body ->
     classify_next_header options fuel ft' rest nh = Panic <-> zlen rest < unchecked_bytes nh) as Hnext.
  { intros ft' rest nh Hrb Hrl. apply IH; [done|]. unfold zlen in Hrl. lia. }
  destruct (p =? HOPOPT). { apply (skip_panics _ _ _ (fun b => (b + 1) * 8)); [done|lia|done]. }
  destruct (p =? ICMP). { apply icmp_panics. }
  destruct (p =? IPINIP). { split; [done|lia]. }
  destruct (p =? TCP). { split; [|lia]. unfold classify_tcp. repeat case_match; done. }
  destruct (p =? UDP). { split; [|lia]. unfold classify_udp. repeat case_match; done. }
  destruct (p =? IPV6_ROUTE). { apply (skip_panics _ _ _ (fun b => (b + 1) * 8)); [done|lia|done]. }
  destruct (p =? IPV6_FRAG). { by apply frag_panics. }
  destruct (p =? AH). { apply (skip_panics _ _ _ (fun b => (b + 2) * 4)); [done|lia|done]. }
  destruct (p =? IPV6_ICMP). { apply icmp_panics. }
  destruct (p =? IPV6_OPTS). { apply (skip_panics _ _ _ (fun b => (b + 1) * 8)); [done|lia|done]. }
  split; [done|lia].
Qed.

(** Following the headers terminates within the packet and panics exactly
    when the first header after the IP header is cut off before the bytes the
    code reads unchecked: two for extension and authentication headers, one for
    the fragment header, four for ICMP and ICMPv6.  Headers further in are
    covered by the length check of the one before. *)
Theorem next_header_panics_iff ft body p :
  bytes_ok body -> next_header options ft body p = Panic <-> zlen body < unchecked_bytes p.
Proof. intros Hb. apply walk_panics; [done|lia]. Qed.

(** The first header behind the IP header is cut off. *)
Definition headers_cut (body : list Z) : Prop :=
  (get_ip_version body = Ret 4 /\
   let h := Z.land (byte_at body 0) IPV4_HEADER_LENGTH_MASK * 4 in
   h <= zlen body /\ zlen body - h < unchecked_bytes (byte_at body 9)) \/
  (get_ip_version body = Ret 6 /\ IPV6_HEADER <= zlen body /\
   zlen body - IPV6_HEADER < unchecked_bytes (byte_at body 6)).

(** A packet that makes the classifier panic is cut off there. *)
Lemma classify_panics_cut ft body :
  bytes_ok body -> classify_with_options options ft body = Panic -> headers_cut body.
Proof.
  intros Hb. unfold classify_with_options, classify_zdp, classify_l3. destruct body as [|b r] eqn:Eb; [done|].
  rewrite <- Eb in *. assert (1 <= zlen body) as Hlen by (rewrite Eb; unfold zlen; cbn; lia). clear Eb.
  destruct (get_ip_version body) as [v|] eqn:Ev.
  2: { unfold get_ip_version in Ev. destruct (index_lt body 0) as [x Hx]; [lia|]. by rewrite Hx in Ev. }
  rewrite bind_Ret. unfold headers_cut. rewrite Ev.
  destruct (Z.eqb_spec v 4) as [-> |]; [|destruct (Z.eqb_spec v 6) as [-> |]; [|done]].
  - unfold classify_ipv4. intros E. left. split; [done|]. cbv zeta in *. repeat case_match; try done.
    all: match type of E with context [next_header ?o ?f ?b ?p] => destruct (next_header o f b p) as [[? ?]|] eqn:En; [done|] end.
    all: match goal with Hor : _ || _ || _ = false |- _ => apply orb_false_iff in Hor as [_ Hfit] end.
    all: apply Z.ltb_ge in Hfit; (split; [done|]).
    all: apply next_header_panics_iff in En; [|by apply Forall_drop].
    all: rewrite zlen_drop in En; [done|zprop; unfold IPV4_HEADER in *; lia].
  - unfold classify_ipv6. intros E. right. split; [done|]. cbv zeta in *. repeat case_match; try done.
    assert (IPV6_HEADER <= zlen body) as Hh by (zprop; lia). split; [done|].
    apply next_header_panics_iff in E; [|by apply Forall_drop]. unfold IPV6_HEADER in *.
    change 40%nat with (Z.to_nat 40) in E. by rewrite zlen_drop in E by lia.
Qed.

End props.

#[local] Existing Instance iana.

(** A bare 40-byte IPv6 header with payload length 0 and next header 43. *)
Definition crash_packet : list Z :=
  [0x60; 0; 0; 0; 0; 0; 43; 64] ++ [0xfd] ++ replicate 15 0 ++ [0xfd] ++ replicate 14 0 ++ [1].

Lemma next_header_panics_iff_witness :
  next_header default_options (mkFT [] [] 6 0 0 0) [] IPV6_ROUTE = Panic /\
  classify (mkFT [] [] 0 0 0 0) crash_packet = Panic.
Proof.
  split; [|vm_compute; reflexivity].
  apply (next_header_panics_iff default_options (mkFT [] [] 6 0 0 0) [] IPV6_ROUTE).
  - constructor.
  - vm_compute. reflexivity.
Defined.

End ClassifierProps.
