(* ===== verification/Compress.v ===== *)
(** * Header compression ([compress.rs])

    Compression and expansion of IPv4, IPv6, TCP and UDP headers, on the body of
    the packet: [pkt.advance] and the [get_*] readers drop bytes from its front,
    the [push_*] writers prepend them (the meaning proved for packet buffers). *)
From Stdlib Require Import ZArith Lia.
From stdpp Require Import base tactics option list.
From S2P Require Import Prelude NetDefs Classifier.
Import Classifier.

Local Open Scope Z_scope.

Module Compress.

Definition ZDP_V4_FRAG_INFO_PRESENT : Z := 8.

(** [pkt.advance(n)]: asserts that the bytes are there. *)
Definition advance (body : list Z) (n : nat) : outcome (list Z) :=
  if zlen body <? Z.of_nat n then Panic else Ret (drop n body).

(** [pkt.get_array::<n>()], [pkt.get_u16()]. *)
Definition get_array (n : nat) (body : list Z) : outcome (list Z * list Z) :=
  if zlen body <? Z.of_nat n then Panic else Ret (take n body, drop n body).
Definition get_u16 (body : list Z) : outcome (Z * list Z) :=
  '(b, rest) ← get_array 2 body; mret (from_be b, rest).

(** [body.copy_within(a..b, dest)]. *)
Definition copy_within (body : list Z) (a b dest : Z) : outcome (list Z) :=
  xs ← slice body a b; write_at body dest xs.

Definition push_u16 (x : Z) (body : list Z) : list Z := be_bytes 2 x ++ body.

Section compress.
Context `{NetDefs}.
Context (compression_mode : Z).

Definition port_absent (bit : Z) : bool := Z.land compression_mode bit =? 0.

(** The ports stay in the packet unless the traffic classifier has them. *)
Definition push_ports (src_port dst_port : Z) (body : list Z) : list Z :=
  let body1 := if port_absent DESTINATION_PORT_PRESENT then push_u16 dst_port body else body in
  if port_absent SOURCE_PORT_PRESENT then push_u16 src_port body1 else body1.

Definition compress_tcp (body : list Z) : outcome (list Z) :=
  '(src_port, body1) ← get_u16 body;
  '(dst_port, body2) ← get_u16 body1;
  body3 ← copy_within body2 0 12 2;
  body4 ← advance body3 2;
  mret (push_ports src_port dst_port body4).

Definition compress_udp (body : list Z) : outcome (list Z) :=
  '(src_port, body1) ← get_u16 body;
  '(dst_port, body2) ← get_u16 body1;
  body3 ← advance body2 2;
  mret (push_ports src_port dst_port body3).

Definition compress_l4 (l4 : Z) (body : list Z) : outcome (list Z) :=
  if l4 =? TCP then compress_tcp body
  else if l4 =? UDP then compress_udp body
  else mret body.

Definition compress_ipv4 (l4 : Z) (body : list Z) : outcome (list Z) :=
  hdr ← slice body 0 IPV4_HEADER;
  let hl := Z.land (byte_at hdr 0) IPV4_HEADER_LENGTH_MASK in
  let dscp := byte_at hdr 1 in
  let frag_flags := Z.shiftr (u16_at hdr 6) 13 in
  let frag_id := range hdr 4 2 in
  let frag_offset := Z.land (u16_at hdr 6) 0x1fff in
  let ttl := byte_at hdr 8 in
  body1 ← advance body 20;
  body2 ← compress_l4 l4 body1;
  let body3 := [ttl] ++ body2 in
  let frag_info_present := negb (frag_offset =? 0) in
  let body4 := if frag_info_present then push_u16 frag_offset body3 else body3 in
  let body5 := frag_id ++ body4 in
  let hl_zdpflags :=
    Z.lor (Z.lor (wrap 8 (Z.shiftl hl 4)) (if frag_info_present then ZDP_V4_FRAG_INFO_PRESENT else 0))
      (wrap 8 frag_flags) in
  mret ([hl_zdpflags; dscp] ++ body5).

(** Read the ports back, from the packet or from the five-tuple. *)
Definition get_port (bit default_port : Z) (body : list Z) : outcome (Z * list Z) :=
  if port_absent bit then get_u16 body else mret (default_port, body).

Definition expand_tcp (ft : FiveTuple) (body : list Z) : outcome (list Z) :=
  '(sport, body1) ← get_port SOURCE_PORT_PRESENT (src_port ft) body;
  '(dport, body2) ← get_port DESTINATION_PORT_PRESENT (dst_port ft) body1;
  let body3 := [0; 0] ++ body2 in
  body4 ← copy_within body3 2 14 0;
  let body5 := push_u16 sport (push_u16 dport body4) in
  _ ← slice body5 0 TCP_HEADER;
  body6 ← write_at body5 16 [0; 0];
  let csum := inet_l4_checksum (l3_type ft) (src_address ft) (dst_address ft) TCP body6 in
  write_at body6 16 csum.

Definition expand_udp (ft : FiveTuple) (body : list Z) : outcome (list Z) :=
  '(sport, body1) ← get_port SOURCE_PORT_PRESENT (src_port ft) body;
  '(dport, body2) ← get_port DESTINATION_PORT_PRESENT (dst_port ft) body1;
  let payload_len := wrapping_sub 64 (zlen body2) 2 in
  mret (push_u16 sport (push_u16 dport (push_u16 (wrap 16 (payload_len + UDP_HEADER)) body2))).

Definition expand_l4 (ft : FiveTuple) (body : list Z) : outcome (list Z) :=
  if l4_protocol ft =? TCP then expand_tcp ft body
  else if l4_protocol ft =? UDP then expand_udp ft body
  else mret body.

(** The IPv4 header [expand_ipv4] writes, with the given checksum bytes. *)
Definition ipv4_header (hl tos total : Z) (frag_id : list Z) (frag_offset ttl proto : Z)
    (csum src dst : list Z) : list Z :=
  [Z.lor (Z.shiftl 4 4) hl; tos] ++ be_bytes 2 total ++ frag_id ++ be_bytes 2 frag_offset ++
  [ttl; proto] ++ csum ++ src ++ dst.

Definition expand_ipv4 (ft : FiveTuple) (body : list Z) : outcome (list Z) :=
  '(hl_zdpflags_tos, body1) ← get_array 2 body;
  let hl_zdpflags := byte_at hl_zdpflags_tos 0 in
  let tos := byte_at hl_zdpflags_tos 1 in
  let hl := Z.shiftr hl_zdpflags 4 in
  let frag_info_present := negb (Z.land hl_zdpflags ZDP_V4_FRAG_INFO_PRESENT =? 0) in
  let frag_flags := Z.land hl_zdpflags 0x07 in
  '(frag_id, body2) ← get_array 2 body1;
  '(frag_offset0, body3) ← (if frag_info_present then get_u16 body2 else mret (0, body2));
  let frag_offset := Z.lor frag_offset0 (wrap 16 (Z.shiftl frag_flags 13)) in
  '(ttl, body4) ← get_array 1 body3;
  body5 ← expand_l4 ft body4;
  let body_len := zlen body5 in
  let hdr csum := ipv4_header hl tos (wrap 16 (body_len + 20)) frag_id frag_offset (byte_at ttl 0)
                    (l4_protocol ft) csum (read_as_v4 (src_address ft)) (read_as_v4 (dst_address ft)) in
  let header_len := Z.shiftl hl 2 in
  covered ← slice (hdr [0; 0] ++ body5) 0 header_len;
  mret (hdr (be_bytes 2 (ip4sum_checksum covered)) ++ body5).

Definition compress_ipv6 (l4 : Z) (body : list Z) : outcome (list Z) :=
  hdr ← slice body 0 IPV6_HEADER;
  body1 ← advance body 40;
  body2 ← compress_l4 l4 body1;
  mret ([byte_at hdr 0; byte_at hdr 1] ++ range hdr 2 2 ++ [byte_at hdr 7] ++ body2).

Definition expand_ipv6 (ft : FiveTuple) (body : list Z) : outcome (list Z) :=
  chdr ← slice body 0 5;
  body1 ← advance body 5;
  body2 ← expand_l4 ft body1;
  mret ([byte_at chdr 0; byte_at chdr 1] ++ range chdr 2 2 ++ be_bytes 2 (wrap 16 (zlen body2)) ++
        [l4_protocol ft; byte_at chdr 4] ++ src_address ft ++ dst_address ft ++ body2).

Definition compress (l3 l4 : Z) (body : list Z) : outcome (list Z) :=
  if l3 =? Ipv4 then compress_ipv4 l4 body
  else if l3 =? Ipv6 then compress_ipv6 l4 body
  else mret body.

Definition expand (ft : FiveTuple) (body : list Z) : outcome (list Z) :=
  if l3_type ft =? Ipv4 then expand_ipv4 ft body
  else if l3_type ft =? Ipv6 then expand_ipv6 ft body
  else mret body.

End compress.
End Compress.
