(* ===== verification/CompressProps.v ===== *)
(** * Compression round trip

    Expanding a compressed packet gives the packet back, for every packet the
    classifier accepts that has no IP options or extension headers; and a packet
    with options it accepts is not restored. *)
From Stdlib Require Import ZArith Lia.
From stdpp Require Import base tactics option list.
From S2P Require Import Prelude NetDefs Classifier ClassifierProps Compress.
Import Classifier Compress.

Local Open Scope Z_scope.

Module CompressProps.

(** ** Bytes and bits *)

Lemma bytes2 a b : is_byte a -> is_byte b -> bytes_ok [a; b].
Proof. intros Ha Hb. constructor; [done|]. constructor; [done|constructor]. Qed.

Lemma be2_from_be a b : is_byte a -> is_byte b -> be_bytes 2 (from_be [a; b]) = [a; b].
Proof. intros Ha Hb. by apply (be_bytes_from_be [a; b]), bytes2. Qed.

Lemma from_be2_range a b : is_byte a -> is_byte b -> 0 <= from_be [a; b] < 2 ^ 16.
Proof. intros Ha Hb. by apply (from_be_range [a; b]), bytes2. Qed.

Lemma frag_join x :
  0 <= x < 2 ^ 16 -> Z.lor (Z.land x 0x1fff) (wrap 16 (Z.shiftl (Z.shiftr x 13) 13)) = x.
Proof.
  intros Hx. rewrite wrap_small.
  - rewrite <- Z.ldiff_ones_r by lia. change 0x1fff with (Z.ones 13).
    rewrite Z.lor_comm. apply Z.lor_ldiff_and.
  - rewrite Z.shiftl_mul_pow2, Z.shiftr_div_pow2 by lia.
    pose proof (Z.div_mod x (2 ^ 13) ltac:(lia)). pose proof (Z.mod_pos_bound x (2 ^ 13) ltac:(lia)).
    pose proof (Z.div_pos x (2 ^ 13) ltac:(lia) ltac:(lia)). lia.
Qed.

Lemma frag_flags_range x : 0 <= x < 2 ^ 16 -> 0 <= Z.shiftr x 13 < 8.
Proof.
  intros Hx. rewrite Z.shiftr_div_pow2 by lia. split; [apply Z.div_pos; lia|].
  apply Z.div_lt_upper_bound; lia.
Qed.

(** The flag byte of a compressed IPv4 header, without options. *)
Lemma flag_byte (present : bool) f :
  0 <= f < 8 ->
  let b := Z.lor (Z.lor (wrap 8 (Z.shiftl 5 4)) (if present then ZDP_V4_FRAG_INFO_PRESENT else 0))
             (wrap 8 f) in
  Z.shiftr b 4 = 5 /\ (Z.land b ZDP_V4_FRAG_INFO_PRESENT =? 0) = negb present /\ Z.land b 0x07 = f.
Proof.
  intros Hf.
  assert (f = 0 \/ f = 1 \/ f = 2 \/ f = 3 \/ f = 4 \/ f = 5 \/ f = 6 \/ f = 7) as Hc by lia.
  destruct present; destruct Hc as [-> |[-> |[-> |[-> |[-> |[-> |[-> | ->]]]]]]]; by vm_compute.
Qed.

Lemma get_u16_push x body : 0 <= x < 2 ^ 16 -> get_u16 (push_u16 x body) = Ret (x, body).
Proof.
  intros Hx. unfold get_u16, get_array, push_u16.
  assert (zlen (be_bytes 2 x ++ body) = 2 + zlen body) as Hl
    by (rewrite zlen_app; unfold zlen; rewrite length_be_bytes; lia).
  pose proof (zlen_nonneg body). rewrite Hl, (proj2 (Z.ltb_ge _ _)) by lia.
  rewrite bind_Ret, take_app_length', drop_app_length' by (by rewrite length_be_bytes).
  rewrite from_be_be_bytes, Z.mod_small by (simpl; lia). done.
Qed.

Lemma get_u16_bytes a b body :
  get_u16 ([a; b] ++ body) = Ret (from_be [a; b], body).
Proof.
  unfold get_u16, get_array. pose proof (zlen_nonneg body).
  assert (zlen ([a; b] ++ body) = 2 + zlen body) as -> by (rewrite zlen_app; done).
  by rewrite (proj2 (Z.ltb_ge _ _)) by lia.
Qed.

Lemma get_array_2 a b (r : list Z) : get_array 2 ([a; b] ++ r) = Ret ([a; b], r).
Proof.
  unfold get_array. rewrite (proj2 (Z.ltb_ge _ _)); [done|].
  rewrite zlen_app. unfold zlen. simpl. lia.
Qed.

(** The fragment offset, written only when it is not zero. *)
Lemma frag_offset_back x tail :
  let fo := Z.land x 0x1fff in
  let present := negb (fo =? 0) in
  let body := if present then push_u16 fo tail else tail in
  (if present then get_u16 body else mret (0, body)) = Ret (fo, tail).
Proof.
  cbv zeta. destruct (Z.eqb_spec (Z.land x 0x1fff) 0) as [-> |_]; cbn [negb]; [done|].
  apply get_u16_push. change 0x1fff with (Z.ones 13).
  rewrite Z.land_ones by lia. pose proof (Z.mod_pos_bound x (2 ^ 13)). lia.
Qed.

Section roundtrip.
Context `{NetDefs}.
Context (mode : Z).

(** ** Ports *)

(** The ports of [ft] are the given ones, where the mode relies on them. *)
Definition ports_known (ft : FiveTuple) (sp dp : Z) : Prop :=
  (port_absent mode SOURCE_PORT_PRESENT = false -> src_port ft = sp) /\
  (port_absent mode DESTINATION_PORT_PRESENT = false -> dst_port ft = dp).

Lemma ports_back {A} (k : Z -> Z -> list Z -> outcome A) sp dp ps pd body :
  0 <= sp < 2 ^ 16 -> 0 <= dp < 2 ^ 16 ->
  (port_absent mode SOURCE_PORT_PRESENT = false -> ps = sp) ->
  (port_absent mode DESTINATION_PORT_PRESENT = false -> pd = dp) ->
  ('(s, b1) ← get_port mode SOURCE_PORT_PRESENT ps (push_ports mode sp dp body);
   '(d, b2) ← get_port mode DESTINATION_PORT_PRESENT pd b1;
   k s d b2) = k sp dp body.
Proof.
  intros Hs Hd Es Ed. unfold get_port, push_ports.
  destruct (port_absent mode SOURCE_PORT_PRESENT), (port_absent mode DESTINATION_PORT_PRESENT);
    rewrite ?Es, ?Ed by done; unfold mret, outcome_ret;
    rewrite ?get_u16_push by done; rewrite ?bind_Ret; rewrite ?get_u16_push by done; done.
Qed.

(** ** Transport headers *)

Lemma split_at {A} (l : list A) (n : nat) :
  (n <= length l)%nat -> exists x r, l = x ++ r /\ length x = n.
Proof.
  intros Hn. exists (take n l), (drop n l). rewrite take_drop, length_take. split; [done|lia].
Qed.

Lemma tcp_back ft s1 s2 d1 d2 a cs rest :
  is_byte s1 -> is_byte s2 -> is_byte d1 -> is_byte d2 ->
  length a = 12%nat -> length cs = 2%nat -> 2 <= zlen rest ->
  ports_known ft (from_be [s1; s2]) (from_be [d1; d2]) ->
  cs = inet_l4_checksum (l3_type ft) (src_address ft) (dst_address ft) TCP
         ([s1; s2; d1; d2] ++ a ++ [0; 0] ++ rest) ->
  exists c, compress_tcp mode ([s1; s2; d1; d2] ++ a ++ cs ++ rest) = Ret c /\
    expand_tcp mode ft c = Ret ([s1; s2; d1; d2] ++ a ++ cs ++ rest).
Proof.
  intros B1 B2 B3 B4 Ha Hcs Hrest [Hs Hd] Hsum.
  assert (zlen a = 12) as Za by (unfold zlen; lia). assert (zlen cs = 2) as Zc by (unfold zlen; lia).
  exists (push_ports mode (from_be [s1; s2]) (from_be [d1; d2]) (a ++ rest)). split.
  - unfold compress_tcp.
    change ([s1; s2; d1; d2] ++ a ++ cs ++ rest) with ([s1; s2] ++ [d1; d2] ++ a ++ cs ++ rest).
    rewrite get_u16_bytes, bind_Ret, get_u16_bytes, bind_Ret. unfold copy_within.
    rewrite (slice_mid [] a (cs ++ rest)) by (done || lia). rewrite bind_Ret.
    destruct a as [|a0 [|a1 a]]; try done.
    change ((a0 :: a1 :: a) ++ cs ++ rest) with ([a0; a1] ++ a ++ cs ++ rest).
    rewrite (app_assoc a cs rest).
    rewrite (write_mid [a0; a1] (a ++ cs)) by (rewrite ?zlen_app; unfold zlen in *; simpl in *; lia).
    rewrite bind_Ret. unfold advance.
    rewrite (proj2 (Z.ltb_ge _ _)) by (rewrite !zlen_app; unfold zlen; simpl; lia).
    done.
  - unfold expand_tcp. rewrite (ports_back _ _ _ _ _ (a ++ rest)) by (done || by apply from_be2_range).
    unfold copy_within. rewrite (slice_mid [0; 0] a rest) by (done || (unfold zlen in *; simpl; lia)).
    rewrite bind_Ret.
    assert (exists x y, [0; 0] ++ a ++ rest = x ++ y ++ rest /\ length x = 12%nat /\ length y = 2%nat)
      as (x & y & E & Hx & Hy).
    { destruct (split_at a 10) as (x & y & -> & Hx); [lia|]. rewrite length_app in Ha.
      exists ([0; 0] ++ x), y. rewrite <- !app_assoc. split; [done|]. rewrite length_app. simpl. lia. }
    rewrite E. assert (write_at (x ++ y ++ rest) 0 a = Ret (a ++ y ++ rest)) as ->
      by (apply (write_mid [] x); [done|unfold zlen in *; lia]).
    rewrite bind_Ret. unfold push_u16. rewrite !be2_from_be by done. cbv zeta.
    change ([s1; s2] ++ [d1; d2] ++ a ++ y ++ rest) with ([s1; s2; d1; d2] ++ a ++ y ++ rest).
    rewrite (app_assoc _ a).
    assert (zlen ([s1; s2; d1; d2] ++ a) = 16) as Z16 by (rewrite zlen_app, Za; done).
    assert (zlen y = 2) as Zy by (unfold zlen; lia).
    destruct (slice_lt (([s1; s2; d1; d2] ++ a) ++ y ++ rest) 0 TCP_HEADER) as [h ->];
      [unfold TCP_HEADER; lia|unfold TCP_HEADER; rewrite zlen_app, Z16, zlen_app; lia|].
    rewrite bind_Ret, (write_mid _ y) by (unfold zlen in *; simpl; lia). rewrite bind_Ret.
    rewrite <- (app_assoc _ a), <- Hsum, (app_assoc _ a).
    rewrite (write_mid _ [0; 0]) by (unfold zlen in *; simpl; lia). by rewrite <- app_assoc.
Qed.

Lemma udp_back ft s1 s2 d1 d2 l1 l2 rest :
  is_byte s1 -> is_byte s2 -> is_byte d1 -> is_byte d2 -> is_byte l1 -> is_byte l2 ->
  2 <= zlen rest -> from_be [l1; l2] = 6 + zlen rest ->
  ports_known ft (from_be [s1; s2]) (from_be [d1; d2]) ->
  exists c, compress_udp mode ([s1; s2; d1; d2; l1; l2] ++ rest) = Ret c /\
    expand_udp mode ft c = Ret ([s1; s2; d1; d2; l1; l2] ++ rest).
Proof.
  intros B1 B2 B3 B4 B5 B6 Hrest Hl [Hs Hd]. pose proof (from_be2_range l1 l2 B5 B6).
  exists (push_ports mode (from_be [s1; s2]) (from_be [d1; d2]) rest). split.
  - unfold compress_udp.
    change ([s1; s2; d1; d2; l1; l2] ++ rest) with ([s1; s2] ++ [d1; d2] ++ [l1; l2] ++ rest).
    rewrite get_u16_bytes, bind_Ret, get_u16_bytes, bind_Ret. unfold advance.
    rewrite (proj2 (Z.ltb_ge _ _)) by (rewrite zlen_app; unfold zlen; simpl; lia). done.
  - unfold expand_udp. rewrite (ports_back _ _ _ _ _ rest) by (done || by apply from_be2_range).
    unfold wrapping_sub, UDP_HEADER. rewrite (wrap_small 64) by lia.
    replace (zlen rest - 2 + 8) with (from_be [l1; l2]) by lia. rewrite wrap_small by lia.
    unfold push_u16. rewrite !be2_from_be by done. done.
Qed.

(** ** Internet headers *)

Lemma ipv4_back ft tos t1 t2 i1 i2 f1 f2 ttl c1 c2 src dst l4 :
  is_byte t1 -> is_byte t2 -> is_byte f1 -> is_byte f2 ->
  length src = 4%nat -> length dst = 4%nat ->
  from_be [t1; t2] = 20 + zlen l4 ->
  read_as_v4 (src_address ft) = src -> read_as_v4 (dst_address ft) = dst ->
  [c1; c2] = be_bytes 2 (ip4sum_checksum
    ([0x45; tos; t1; t2; i1; i2; f1; f2; ttl; l4_protocol ft; 0; 0] ++ src ++ dst)) ->
  (exists c4, compress_l4 mode (l4_protocol ft) l4 = Ret c4 /\ expand_l4 mode ft c4 = Ret l4) ->
  exists c, compress_ipv4 mode (l4_protocol ft)
      (([0x45; tos; t1; t2; i1; i2; f1; f2; ttl; l4_protocol ft; c1; c2] ++ src ++ dst) ++ l4) = Ret c /\
    expand_ipv4 mode ft c =
      Ret (([0x45; tos; t1; t2; i1; i2; f1; f2; ttl; l4_protocol ft; c1; c2] ++ src ++ dst) ++ l4).
Proof.
  intros Bt1 Bt2 Bf1 Bf2 Hsrc Hdst Htot Hrs Hrd Hsum (c4 & Ec & Ee).
  pose proof (from_be2_range t1 t2 Bt1 Bt2). pose proof (from_be2_range f1 f2 Bf1 Bf2) as Hfr.
  set (hdr := [0x45; tos; t1; t2; i1; i2; f1; f2; ttl; l4_protocol ft; c1; c2] ++ src ++ dst).
  assert (length hdr = 20%nat) as Hhdr by (unfold hdr; rewrite !length_app; simpl; lia).
  set (x := from_be [f1; f2]) in *. set (fo := Z.land x 0x1fff).
  set (present := negb (fo =? 0)).
  set (flags := Z.lor (Z.lor (wrap 8 (Z.shiftl 5 4))
                  (if present then ZDP_V4_FRAG_INFO_PRESENT else 0)) (wrap 8 (Z.shiftr x 13))).
  set (tail := [ttl] ++ c4).
  exists ([flags; tos] ++ [i1; i2] ++ (if present then push_u16 fo tail else tail)). split.
  - unfold compress_ipv4. rewrite (slice_mid [] hdr l4) by (done || (unfold zlen, IPV4_HEADER; lia)).
    rewrite bind_Ret. cbv zeta. unfold advance.
    rewrite (proj2 (Z.ltb_ge _ _)) by (rewrite zlen_app; unfold zlen; lia).
    rewrite bind_Ret, drop_app_length', Ec, bind_Ret by lia. done.
  - destruct (flag_byte present (Z.shiftr x 13) (frag_flags_range x Hfr)) as (Hhl & Hpres & Hff).
    fold flags in Hhl, Hpres, Hff. unfold expand_ipv4. cbn [get_array].
    rewrite get_array_2, bind_Ret. cbv zeta.
    change (byte_at [flags; tos] 0) with flags. change (byte_at [flags; tos] 1) with tos.
    rewrite Hhl, Hpres, Hff, get_array_2, bind_Ret, negb_involutive.
    assert ((if present then get_u16 (if present then push_u16 fo tail else tail)
             else mret (0, if present then push_u16 fo tail else tail)) = Ret (fo, tail)) as ->
      by apply frag_offset_back.
    rewrite bind_Ret. unfold fo. rewrite frag_join by done.
    assert (get_array 1 tail = Ret ([ttl], c4)) as ->.
    { unfold get_array, tail. rewrite (proj2 (Z.ltb_ge _ _)); [done|].
      rewrite zlen_app. unfold zlen. simpl. lia. }
    rewrite bind_Ret, Ee, bind_Ret. unfold ipv4_header.
    replace (zlen l4 + 20) with (from_be [t1; t2]) by lia. rewrite wrap_small by done.
    unfold x. rewrite !be2_from_be by done. rewrite Hrs, Hrd.
    change (Z.lor (Z.shiftl 4 4) 5) with 0x45. change (byte_at [ttl] 0) with ttl.
    assert (slice (([0x45; tos; t1; t2; i1; i2; f1; f2; ttl; l4_protocol ft; 0; 0] ++ src ++ dst) ++ l4)
              0 (Z.shiftl 5 2) =
            Ret ([0x45; tos; t1; t2; i1; i2; f1; f2; ttl; l4_protocol ft; 0; 0] ++ src ++ dst)) as Hsl.
    { apply (slice_mid []); [done|]. change (Z.shiftl 5 2) with 20. unfold zlen. rewrite !length_app.
      simpl. lia. }
    cbn [app] in Hsl, Hsum |- *. rewrite Hsl, bind_Ret, <- Hsum. done.
Qed.

Lemma ipv6_back ft b0 b1 b2 b3 p1 p2 hop l4 :
  is_byte p1 -> is_byte p2 -> length (src_address ft) = 16%nat -> length (dst_address ft) = 16%nat ->
  from_be [p1; p2] = zlen l4 ->
  (exists c4, compress_l4 mode (l4_protocol ft) l4 = Ret c4 /\ expand_l4 mode ft c4 = Ret l4) ->
  exists c, compress_ipv6 mode (l4_protocol ft)
      (([b0; b1; b2; b3; p1; p2; l4_protocol ft; hop] ++ src_address ft ++ dst_address ft) ++ l4) =
      Ret c /\
    expand_ipv6 mode ft c =
      Ret (([b0; b1; b2; b3; p1; p2; l4_protocol ft; hop] ++ src_address ft ++ dst_address ft) ++ l4).
Proof.
  intros Bp1 Bp2 Hsrc Hdst Hlen (c4 & Ec & Ee). pose proof (from_be2_range p1 p2 Bp1 Bp2).
  set (hdr := [b0; b1; b2; b3; p1; p2; l4_protocol ft; hop] ++ src_address ft ++ dst_address ft).
  assert (length hdr = 40%nat) as Hhdr by (unfold hdr; rewrite !length_app; simpl; lia).
  exists ([b0; b1] ++ [b2; b3] ++ [hop] ++ c4). split.
  - unfold compress_ipv6. rewrite (slice_mid [] hdr l4) by (done || (unfold zlen, IPV6_HEADER; lia)).
    rewrite bind_Ret. unfold advance.
    rewrite (proj2 (Z.ltb_ge _ _)) by (rewrite zlen_app; unfold zlen; lia).
    rewrite bind_Ret, drop_app_length', Ec, bind_Ret by lia. done.
  - unfold expand_ipv6.
    change ([b0; b1] ++ [b2; b3] ++ [hop] ++ c4) with ([b0; b1; b2; b3; hop] ++ c4).
    assert (slice ([b0; b1; b2; b3; hop] ++ c4) 0 5 = Ret [b0; b1; b2; b3; hop]) as ->
      by (by apply (slice_mid [] [b0; b1; b2; b3; hop])).

    rewrite bind_Ret. unfold advance.
    rewrite (proj2 (Z.ltb_ge _ _)) by (rewrite zlen_app; unfold zlen; simpl; lia).
    rewrite bind_Ret. change (drop 5 ([b0; b1; b2; b3; hop] ++ c4)) with c4.
    rewrite Ee, bind_Ret, <- Hlen, wrap_small, be2_from_be by done.
    unfold hdr. by rewrite <- !app_assoc.
Qed.

(** ** What the classifier accepts *)

Definition is_extension (p : Z) : bool :=
  bool_decide (p ∈ [HOPOPT; IPV6_ROUTE; IPV6_FRAG; AH; IPV6_OPTS]).

(** [ft'] is [ft] with a transport protocol and ports. *)
Definition l4_of (ft ft' : FiveTuple) (p : Z) : Prop :=
  src_address ft' = src_address ft /\ dst_address ft' = dst_address ft /\
  l3_type ft' = l3_type ft /\ l4_protocol ft' = p.

(** [g] has the addresses and protocol of [ft], and its ports where the
    compression mode relies on them. *)
Definition agrees (ft g : FiveTuple) : Prop :=
  src_address g = src_address ft /\ dst_address g = dst_address ft /\
  l3_type g = l3_type ft /\ l4_protocol g = l4_protocol ft /\
  ports_known g (src_port ft) (dst_port ft).

Definition tcp_sum_ok (ft : FiveTuple) (seg : list Z) : Prop :=
  range seg 16 2 = inet_l4_checksum (l3_type ft) (src_address ft) (dst_address ft) TCP
                     (take 16 seg ++ [0; 0] ++ drop 18 seg).

Lemma tcp_parts s1 s2 d1 d2 (a cs rest : list Z) :
  length a = 12%nat -> length cs = 2%nat ->
  let seg := [s1; s2; d1; d2] ++ a ++ cs ++ rest in
  range seg 16 2 = cs /\ take 16 seg = [s1; s2; d1; d2] ++ a /\ drop 18 seg = rest.
Proof.
  intros Ha Hcs seg.
  assert (seg = ([s1; s2; d1; d2] ++ a) ++ cs ++ rest) as E by (unfold seg; by rewrite <- app_assoc).
  assert (length ([s1; s2; d1; d2] ++ a) = 16%nat) as L by (rewrite length_app; simpl; lia).
  unfold range. split_and!.
  - rewrite E, drop_app_length', take_app_length' by done. done.
  - by rewrite E, take_app_length'.
  - rewrite E, app_assoc. apply drop_app_length'. rewrite length_app. lia.
Qed.

Lemma tcp_accepted ft seg ft' r g :
  bytes_ok seg -> classify_tcp default_options ft seg = Ret (ft', inl r) -> l4_protocol ft = TCP ->
  (l4_protocol ft' = TCP -> tcp_sum_ok ft' seg) -> agrees ft' g ->
  exists c, compress_tcp mode seg = Ret c /\ expand_tcp mode g c = Ret seg.
Proof.
  intros Hb Hc Hp Hsum Hg. unfold classify_tcp in Hc.
  destruct (Z.ltb_spec (zlen seg) TCP_HEADER) as [|Hlen]; [done|]. unfold TCP_HEADER in *.
  destruct (_ && _); [done|]. destruct (_ || _); [done|]. injection Hc as <- <-.
  specialize (Hsum Hp). destruct Hg as (G1 & G2 & G3 & G4 & G5). cbn in G1, G2, G3, G5. destruct (split_at seg 20) as (h & rest & -> & Hh); [unfold zlen in Hlen; lia|].
  destruct h as [|s1 [|s2 [|d1 [|d2 h]]]]; try done.
  destruct (split_at h 12) as (a & h' & -> & Ha); [simpl in Hh; lia|].
  destruct (split_at h' 2) as (cs & u & -> & Hcs); [simpl in Hh; rewrite length_app in Hh; lia|].
  assert (length u = 2%nat) as Hu by (simpl in Hh; rewrite !length_app in Hh; lia).
  assert ((s1 :: s2 :: d1 :: d2 :: a ++ cs ++ u) ++ rest =
          [s1; s2; d1; d2] ++ a ++ cs ++ u ++ rest) as E by (simpl; by rewrite <- !app_assoc).
  rewrite E in *. destruct (tcp_parts s1 s2 d1 d2 a cs (u ++ rest) Ha Hcs) as (P1 & P2 & P3).
  unfold tcp_sum_ok in Hsum. rewrite P1, P2, P3 in Hsum. unfold bytes_ok in Hb. cbn [app] in Hb.
  rewrite !list.Forall_cons in Hb. destruct Hb as (B1 & B2 & B3 & B4 & _).
  apply tcp_back; try done; [|by rewrite G1, G2, G3].
  rewrite zlen_app. unfold zlen. lia.
Qed.

Lemma udp_accepted ft seg ft' r g :
  bytes_ok seg -> classify_udp default_options ft seg = Ret (ft', inl r) -> agrees ft' g ->
  exists c, compress_udp mode seg = Ret c /\ expand_udp mode g c = Ret seg.
Proof.
  intros Hb Hc Hg. unfold classify_udp in Hc.
  destruct (Z.ltb_spec (zlen seg) UDP_HEADER) as [|Hlen]; [done|]. unfold UDP_HEADER in *.
  destruct (_ && _); [done|]. cbn [default_options ignore_truncated_packets negb andb] in Hc.
  destruct (_ || _) eqn:Hl; [done|]. injection Hc as <- <-.
  destruct Hg as (_ & _ & _ & _ & G5). cbn in G5. apply orb_false_iff in Hl as [Hl1 Hl2]. apply Z.ltb_ge in Hl1, Hl2.
  destruct seg as [|s1 [|s2 [|d1 [|d2 [|l1 [|l2 rest]]]]]]; try done.
  assert (zlen (s1 :: s2 :: d1 :: d2 :: l1 :: l2 :: rest) = 6 + zlen rest) as E
    by (unfold zlen; simpl; lia).
  rewrite E in *. change (u16_at (s1 :: s2 :: d1 :: d2 :: l1 :: l2 :: rest) 4)
    with (from_be [l1; l2]) in *. unfold bytes_ok in Hb.
  rewrite !list.Forall_cons in Hb. destruct Hb as (B1 & B2 & B3 & B4 & B5 & B6 & _).
  apply udp_back; try done; lia.
Qed.

Lemma tcp_udp_apart : TCP <> ICMP /\ TCP <> IPINIP /\ UDP <> ICMP /\ UDP <> IPINIP /\ UDP <> TCP.
Proof.
  pose proof numbers_distinct as N. repeat (apply NoDup_cons in N as [? N]).
  rewrite !not_elem_of_cons in *. naive_solver.
Qed.

(** The classifier on a protocol that is not an extension header. *)
Lemma next_header_plain ft seg p :
  is_extension p = false ->
  next_header default_options ft seg p =
    let ft1 := set_l4_protocol ft p in
    if p =? TCP then classify_tcp default_options ft1 seg
    else if p =? UDP then classify_udp default_options ft1 seg
    else if p =? ICMP then classify_icmp default_options ft1 seg
    else if p =? IPV6_ICMP then classify_icmpv6 default_options ft1 seg
    else classify_unclassified ft1.
Proof.
  intros Hx. unfold is_extension in Hx. apply bool_decide_eq_false in Hx.
  rewrite !not_elem_of_cons in Hx. destruct Hx as (X1 & X2 & X3 & X4 & X5 & _).
  unfold next_header. cbn [classify_next_header].
  rewrite (proj2 (Z.eqb_neq p HOPOPT)), (proj2 (Z.eqb_neq p IPV6_ROUTE)),
    (proj2 (Z.eqb_neq p IPV6_FRAG)), (proj2 (Z.eqb_neq p AH)),
    (proj2 (Z.eqb_neq p IPV6_OPTS)) by done.
  pose proof tcp_udp_apart. cbv zeta.
  destruct (Z.eqb_spec p TCP) as [-> |]; [by rewrite !(proj2 (Z.eqb_neq TCP _)) by naive_solver|].
  destruct (Z.eqb_spec p UDP) as [-> |]; [by rewrite !(proj2 (Z.eqb_neq UDP _)) by naive_solver|].
  destruct (p =? ICMP); [done|]. destruct (Z.eqb_spec p IPINIP) as [-> |]; [|done].
  pose proof numbers_distinct as N. rewrite (proj2 (Z.eqb_neq IPINIP IPV6_ICMP)); [done|].
  repeat (apply NoDup_cons in N as [? N]). rewrite !not_elem_of_cons in *. naive_solver.
Qed.

Lemma l4_fields ft seg p ft' r :
  next_header default_options ft seg p = Ret (ft', inl r) -> is_extension p = false ->
  l4_of ft ft' p.
Proof.
  intros Hn Hx. rewrite next_header_plain in Hn by done. cbv zeta in Hn.
  unfold classify_icmp, classify_icmpv6, classify_tcp, classify_udp, classify_unclassified, ok, err in Hn.
  destruct (slice seg 0 ICMP_HEADER); cbn in Hn; unfold mret, outcome_ret in Hn;
    repeat case_match; by simplify_eq.
Qed.

Lemma l4_accepted ft seg p ft' r g :
  bytes_ok seg -> next_header default_options ft seg p = Ret (ft', inl r) ->
  is_extension p = false -> (p = TCP -> tcp_sum_ok ft' seg) -> agrees ft' g ->
  exists c, compress_l4 mode (l4_protocol g) seg = Ret c /\ expand_l4 mode g c = Ret seg.
Proof.
  intros Hb Hn Hx Hsum Hg. pose proof Hg as (_ & _ & _ & G4 & _). pose proof (l4_fields _ _ _ _ _ Hn Hx) as (_ & _ & _ & E4).
  rewrite next_header_plain in Hn by done. cbv zeta in Hn. unfold compress_l4, expand_l4. rewrite G4, E4.
  destruct (Z.eqb_spec p TCP) as [-> |NT].
  { by eapply (tcp_accepted (set_l4_protocol ft TCP)); eauto. }
  destruct (Z.eqb_spec p UDP) as [-> |NU]; [|by exists seg].
  by eapply (udp_accepted (set_l4_protocol ft UDP)).
Qed.

(** ** The whole packet *)

Definition protocol_of (body : list Z) : Z :=
  if Z.shiftr (byte_at body 0) 4 =? 4 then byte_at body 9 else byte_at body 6.

(** No IP options and no extension headers. *)
Definition plain_headers (body : list Z) : bool :=
  negb (is_extension (protocol_of body)) &&
  (negb (Z.shiftr (byte_at body 0) 4 =? 4) || (byte_at body 0 =? 0x45)).

(** The checksums in the packet are the ones the expansion computes. *)
Definition checksums_canonical (ft : FiveTuple) (body : list Z) : Prop :=
  (l3_type ft = Ipv4 ->
   range body 10 2 = be_bytes 2 (ip4sum_checksum (take 10 body ++ [0; 0] ++ range body 12 8))) /\
  (l4_protocol ft = TCP ->
   tcp_sum_ok ft (drop (if l3_type ft =? Ipv4 then 20 else 40) body)).

(** The parts of an IPv4 packet the classifier accepts. *)
Lemma ipv4_shape ft0 body ft r g :
  bytes_ok body -> classify_ipv4 default_options ft0 body = Ret (ft, inl r) ->
  r <> FirstFragment -> r <> SubsequentFragment ->
  byte_at body 0 = 0x45 -> is_extension (byte_at body 9) = false ->
  (l3_type ft = Ipv4 -> l4_protocol ft = TCP -> tcp_sum_ok ft (drop 20 body)) -> agrees ft g ->
  l3_type ft = Ipv4 /\
  exists tos t1 t2 i1 i2 f1 f2 ttl c1 c2 src dst l4,
    body = ([0x45; tos; t1; t2; i1; i2; f1; f2; ttl; l4_protocol g; c1; c2] ++ src ++ dst) ++ l4 /\
    is_byte t1 /\ is_byte t2 /\ is_byte f1 /\ is_byte f2 /\ length src = 4%nat /\ length dst = 4%nat /\
    from_be [t1; t2] = 20 + zlen l4 /\
    read_as_v4 (src_address g) = src /\ read_as_v4 (dst_address g) = dst /\
    exists c4, compress_l4 mode (l4_protocol g) l4 = Ret c4 /\ expand_l4 mode g c4 = Ret l4.
Proof.
  intros Hb Hc Nf Ns H45 Hx Hs4 Hg. unfold classify_ipv4 in Hc. rewrite H45 in Hc.
  change (Z.land 0x45 IPV4_HEADER_LENGTH_MASK * 4) with 20 in Hc.
  destruct (Z.ltb_spec (zlen body) IPV4_HEADER) as [|Hlen]; [done|].
  unfold IPV4_HEADER in *. cbn [default_options ignore_truncated_packets ignore_bad_checksums check_l4
    negb andb] in Hc. change (20 <? 20) with false in Hc. cbn [andb] in Hc.
  destruct (zlen body <? 20); [done|]. destruct (negb (_ =? 0)); [done|].
  destruct (negb (_ =? 0)).
  { unfold ok, mret, outcome_ret in Hc. by simplify_eq. }
  destruct (_ || _) eqn:Hl; [done|]. rewrite orb_false_r in Hl.
  apply orb_false_iff in Hl as [Hl1 Hl2]. apply Z.ltb_ge in Hl1, Hl2.
  destruct (next_header _ _ _ _) as [[ft2 rc]|] eqn:Hn; [|done]. rewrite bind_Ret in Hc.
  destruct (negb _); unfold ok, mret, outcome_ret in Hc; simplify_eq.
  destruct (split_at body 20) as (h & seg & -> & Hh); [unfold zlen in Hlen; lia|].
  rewrite zlen_app in *. assert (zlen h = 20) as Zh by (unfold zlen; lia). rewrite Zh in *.
  destruct (l4_fields _ _ _ _ _ Hn Hx) as (E1 & E2 & E3 & E4). cbn in E1, E2, E3. split; [done|]. specialize (Hs4 E3).
  change (Z.to_nat 20) with 20%nat in Hn. rewrite drop_app_length' in Hn, Hs4 by lia.
  unfold bytes_ok in Hb. apply Forall_app in Hb as [Hh' Hseg].
  pose proof (l4_accepted _ _ _ _ _ g Hseg Hn Hx ltac:(intros EP; apply Hs4; by rewrite E4) Hg) as C4.
  clear Hn Hs4. destruct Hg as (G1 & G2 & _ & G4 & _).
  rewrite <- G1 in E1. rewrite <- G2 in E2. rewrite <- G4 in E4.
  destruct h as 
[|v [|tos [|t1 [|t2 [|i1 [|i2 [|f1 [|f2 [|ttl [|pr [|c1 [|c2 [|s1 [|s2 [|s3 [|s4 [|d1 [|d2 [|d3 [|d4 h]]]]]]]]]]]]]]]]]]]]; try done.
  destruct h; [|done]. cbn in *. rewrite ?take_0 in *. subst v pr. rewrite !list.Forall_cons in Hh'.
  destruct Hh' as (_ & _ & Bt1 & Bt2 & _ & _ & Bf1 & Bf2 & _).
  exists tos, t1, t2, i1, i2, f1, f2, ttl, c1, c2, [s1; s2; s3; s4], [d1; d2; d3; d4], seg.
  split; [done|]. repeat (split; [first [done | cbn; lia | by rewrite E1, read_new_v4 | by rewrite E2, read_new_v4]|]).
  done.
Qed.

Lemma ipv4_accepted ft0 body ft r g :
  bytes_ok body -> classify_ipv4 default_options ft0 body = Ret (ft, inl r) ->
  r <> FirstFragment -> r <> SubsequentFragment ->
  byte_at body 0 = 0x45 -> is_extension (byte_at body 9) = false ->
  checksums_canonical ft body ->
  agrees ft g ->
  l3_type ft = Ipv4 /\
  exists c, compress_ipv4 mode (l4_protocol g) body = Ret c /\ expand_ipv4 mode g c = Ret body.
Proof.
  intros Hb Hc Nf Ns H45 Hx [Hs3 Hs4] Hg.
  destruct (ipv4_shape ft0 body ft r g Hb Hc Nf Ns H45 Hx) as (E3 & tos & t1 & t2 & i1 & i2 & f1 & f2 & ttl & c1 & c2 &
    src & dst & l4 & -> & Bt1 & Bt2 & Bf1 & Bf2 & Hsrc & Hdst & Hlen & Rs & Rd & C4); [by intros E; rewrite E, Z.eqb_refl in Hs4|done|].
  split; [done|]. specialize (Hs3 E3). apply ipv4_back; try done.
  do 4 (destruct src as [|? src]; [done|]). destruct src; [|done].
  do 4 (destruct dst as [|? dst]; [done|]). by destruct dst.
Qed.

Lemma ipv6_accepted ft0 body ft r g :
  bytes_ok body -> classify_ipv6 default_options ft0 body = Ret (ft, inl r) ->
  is_extension (byte_at body 6) = false -> checksums_canonical ft body ->
  agrees ft g ->
  l3_type ft = Ipv6 /\
  exists c, compress_ipv6 mode (l4_protocol g) body = Ret c /\ expand_ipv6 mode g c = Ret body.
Proof.
  intros Hb Hc Hx [_ Hs4] Hg. unfold classify_ipv6 in Hc.
  destruct (Z.ltb_spec (zlen body) IPV6_HEADER) as [|Hlen]; [done|].
  unfold IPV6_HEADER in *. cbn [default_options ignore_truncated_packets negb andb] in Hc.
  destruct (is_v4 _ || _); [done|]. destruct (_ && _); [done|].
  destruct ((_ <? _) || _) eqn:Hl; [done|].
  apply orb_false_iff in Hl as [Hl1 Hl2]. apply Z.ltb_ge in Hl1, Hl2.
  destruct (l4_fields _ _ _ _ _ Hc Hx) as (E1 & E2 & E3 & E4). cbn in E1, E2, E3. split; [done|].
  rewrite E3, (proj2 (Z.eqb_neq _ _)) in Hs4 by (apply not_eq_sym, l3_distinct).
  destruct (split_at body 40) as (h & seg & -> & Hh); [unfold zlen in Hlen; lia|].
  rewrite zlen_app in *. assert (zlen h = 40) as Zh by (unfold zlen; lia). rewrite Zh in *.
  rewrite drop_app_length' in Hc, Hs4 by lia.
  unfold bytes_ok in Hb. apply Forall_app in Hb as [Hh' Hseg].
  pose proof (l4_accepted _ _ _ _ _ g Hseg Hc Hx ltac:(intros EP; apply Hs4; by rewrite E4) Hg) as C4.
  destruct Hg as (G1 & G2 & _ & G4 & _). rewrite <- G1 in E1. rewrite <- G2 in E2. rewrite <- G4 in E4.
  destruct (split_at h 8) as (h8 & h32 & -> & H8); [lia|].
  destruct (split_at h32 16) as (src & dst & -> & Hsrc); [rewrite length_app in Hh; lia|].
  assert (length dst = 16%nat) as Hdst by (rewrite !length_app in Hh; lia).
  assert (range (((h8 ++ src ++ dst)) ++ seg) 8 16 = src) as R1.
  { unfold range. rewrite <- !app_assoc, drop_app_length', take_app_length' by lia. done. }
  assert (range (((h8 ++ src ++ dst)) ++ seg) 24 16 = dst) as R2.
  { unfold range. rewrite <- !app_assoc, (app_assoc h8), drop_app_length', take_app_length'
      by (rewrite ?length_app; lia). done. }
  rewrite R1 in E1. rewrite R2 in E2.
  destruct h8 as [|b0 [|b1 [|b2 [|b3 [|p1 [|p2 [|nh [|hop h8]]]]]]]]; try done.
  destruct h8; [|done]. cbn [app] in *. cbn in E4, Hl1, Hl2. subst nh src dst.
  rewrite !list.Forall_cons in Hh'. destruct Hh' as (_ & _ & _ & _ & Bp1 & Bp2 & _).
  apply (ipv6_back g b0 b1 b2 b3 p1 p2 hop seg); try done. cbn. lia.
Qed.

Lemma version_of_byte v : is_byte v -> Z.shiftr (Z.land v IP_VERSION_MASK) 4 = Z.shiftr v 4.
Proof.
  unfold is_byte. intros Hv. rewrite Z.shiftr_land. change (Z.shiftr IP_VERSION_MASK 4) with (Z.ones 4).
  rewrite Z.land_ones, Z.shiftr_div_pow2 by lia. apply Z.mod_small.
  split; [apply Z.div_pos; lia|apply Z.div_lt_upper_bound; lia].
Qed.

(** A packet the classifier accepts whole, without IP options or extension
    headers and with canonical checksums, is restored by the expansion from any
    five-tuple that agrees with its own. *)
Lemma classified_back ft0 body ft r g :
  bytes_ok body ->
  classify ft0 body = Ret (ft, inl r) -> r = OK \/ r = UnclassifiedL4 ->
  plain_headers body = true -> checksums_canonical ft body ->
  agrees ft g ->
  exists c, compress mode (l3_type ft) (l4_protocol ft) body = Ret c /\
            expand mode g c = Ret body.
Proof.
  intros Hb Hc Hr Hp Hs Hg. pose proof Hg as (_ & _ & G3 & G4 & _). destruct body as [|v rest]; [done|].
  unfold classify, classify_with_options, classify_zdp, classify_l3, get_ip_version in Hc.
  unfold plain_headers, protocol_of in Hp. change (byte_at (v :: rest) 0) with v in Hp.
  assert (index (v :: rest) 0 = Ret v) as Hi by done. rewrite Hi, bind_Ret in Hc.
  cbn [mbind outcome_bind mret outcome_ret] in Hc.
  rewrite version_of_byte in Hc by (by apply list.Forall_cons in Hb as [? _]). unfold compress, expand. rewrite G3, <- G4.
  destruct (Z.eqb_spec (Z.shiftr v 4) 4).
  - cbn [negb orb] in Hp. apply andb_true_iff in Hp as [Hx H45]. apply negb_true_iff in Hx.
    apply Z.eqb_eq in H45. destruct (ipv4_accepted ft0 (v :: rest) ft r g) as [-> C]; try done.
    + by intros ->; destruct Hr.
    + by intros ->; destruct Hr.
    + by rewrite Z.eqb_refl.
  - cbn [negb orb] in Hp. rewrite andb_true_r in Hp. apply negb_true_iff in Hp.
    destruct (Z.shiftr v 4 =? 6).
    + destruct (ipv6_accepted ft0 (v :: rest) ft r g) as [-> C]; try done.
      by rewrite (proj2 (Z.eqb_neq _ _) (not_eq_sym l3_distinct)), Z.eqb_refl.
    + unfold ok, mret, outcome_ret in Hc. simplify_eq. by destruct Hr.
Qed.

End roundtrip.

#[local] Existing Instance iana.

(** TCP from 10.0.0.1:8080 to 10.0.0.2:80 with two bytes of data. *)
Definition tcp_packet : list Z :=
  [69; 0; 0; 42; 18; 52; 64; 0; 64; 6; 20; 152; 10; 0; 0; 1; 10; 0; 0; 2;
   31; 144; 0; 80; 0; 0; 0; 1; 0; 0; 0; 0; 80; 2; 255; 255; 19; 148; 0; 0; 104; 105].

Definition v4_tuple (proto sport dport : Z) : FiveTuple :=
  mkFT (new_from_v4 [10; 0; 0; 1]) (new_from_v4 [10; 0; 0; 2]) Ipv4 proto sport dport.

(** UDP from 10.0.0.1:8080 to 10.0.0.2:53 with four bytes of IP options. *)
Definition options_packet : list Z :=
  [70; 0; 0; 36; 18; 52; 64; 0; 64; 17; 17; 146; 10; 0; 0; 1; 10; 0; 0; 2; 1; 1; 1; 0;
   31; 144; 0; 53; 0; 12; 0; 0; 1; 2; 3; 4].

(** A packet with IP options that the classifier accepts is not restored:
    [compress_ipv4] skips a 20-byte header whatever the header length says, so
    the options are compressed as if they were the UDP header, and the expansion
    overwrites the source port with a length. *)
Theorem options_not_restored :
  exists c body',
    classify (mkFT [] [] 0 0 0 0) options_packet = Ret (v4_tuple UDP 8080 53, inl OK) /\
    compress 0 Ipv4 UDP options_packet = Ret c /\
    expand 0 (v4_tuple UDP 8080 53) c = Ret body' /\
    range body' 24 4 = [0; 16; 0; 53] /\ range options_packet 24 4 = [31; 144; 0; 53].
Proof.
  exists [98; 0; 18; 52; 64; 1; 1; 1; 0; 0; 53; 0; 12; 0; 0; 1; 2; 3; 4],
    (take 24 options_packet ++ [0; 16] ++ drop 26 options_packet).
  repeat apply conj; vm_compute; reflexivity.
Qed.

End CompressProps.
