(* ===== verification/Tc.v ===== *)
(** * Traffic classifiers ([tc.rs])

    An [Ip5TupleTc] is a five-tuple whose zero ports are wildcards: what it
    matches, its compression mode and its wire form. *)
From Stdlib Require Import ZArith Lia.
From stdpp Require Import base tactics option list.
From S2P Require Import Prelude NetDefs Classifier.
Import Classifier.

Local Open Scope Z_scope.

Module Tc.

(** [zdp::traffic_classifier_flags]. *)
Definition TC_DESTINATION_PORT_PRESENT : Z := 0x01.
Definition TC_SOURCE_PORT_PRESENT : Z := 0x02.
Definition TC_IPV4 : Z := 0x04.

Record Ip5TupleTc := new { five_tuple : FiveTuple }.

Section tc.
Context `{NetDefs}.

Definition compression_mode (tc : Ip5TupleTc) : Z :=
  let mode := 0 in
  let mode := if negb (src_port (five_tuple tc) =? 0) then Z.lor mode SOURCE_PORT_PRESENT else mode in
  if negb (dst_port (five_tuple tc) =? 0) then Z.lor mode DESTINATION_PORT_PRESENT else mode.

(** The bytes written, into a buffer with room for them. *)
Definition serialize (tc : Ip5TupleTc) : outcome (list Z) :=
  let ft := five_tuple tc in
  flags ← (if l3_type ft =? Ipv4 then Ret (Z.lor 0 TC_IPV4)
           else if l3_type ft =? Ipv6 then Ret 0 else Panic);
  let flags := if negb (src_port ft =? 0) then Z.lor flags TC_SOURCE_PORT_PRESENT else flags in
  let flags := if negb (dst_port ft =? 0) then Z.lor flags TC_DESTINATION_PORT_PRESENT else flags in
  addresses ← (if l3_type ft =? Ipv4 then
                 Ret (read_as_v4 (src_address ft) ++ read_as_v4 (dst_address ft))
               else if l3_type ft =? Ipv6 then Ret (src_address ft ++ dst_address ft) else Panic);
  mret ([flags; l4_protocol ft] ++ addresses ++
        (if negb (src_port ft =? 0) then be_bytes 2 (src_port ft) else []) ++
        (if negb (dst_port ft =? 0) then be_bytes 2 (dst_port ft) else [])).

(** [buf.copy_to_bytes(n)] after a length check, [buf.try_get_u16()]. *)
Definition take_bytes (n : nat) (buf : list Z) : option (list Z * list Z) :=
  if (length buf <? n)%nat then None else Some (take n buf, drop n buf).
Definition try_get_u16 (buf : list Z) : option (Z * list Z) :=
  '(b, rest) ← take_bytes 2 buf; Some (from_be b, rest).

(** The classifier and the rest of the buffer; [None] is [Err(())]. *)
Definition deserialize (buf : list Z) : option (Ip5TupleTc * list Z) :=
  '(hdr, buf1) ← take_bytes 2 buf;
  let flags := byte_at hdr 0 in
  let v4 := negb (Z.land flags TC_IPV4 =? 0) in
  let size := if v4 then 4%nat else 16%nat in
  '(addresses, buf2) ← take_bytes (2 * size) buf1;
  let conv := if v4 then new_from_v4 else id in
  '(sport, buf3) ← (if negb (Z.land flags TC_SOURCE_PORT_PRESENT =? 0)
                    then try_get_u16 buf2 else Some (0, buf2));
  '(dport, buf4) ← (if negb (Z.land flags TC_DESTINATION_PORT_PRESENT =? 0)
                    then try_get_u16 buf3 else Some (0, buf3));
  Some (new (mkFT (conv (take size addresses)) (conv (drop size addresses))
               (if v4 then Ipv4 else Ipv6) (byte_at hdr 1) sport dport), buf4).

Definition classify_5t (tc : Ip5TupleTc) (ft : FiveTuple) : bool :=
  let t := five_tuple tc in
  if negb (l3_type ft =? l3_type t) then false
  else if negb (bool_decide (src_address ft = src_address t)) ||
          negb (bool_decide (dst_address ft = dst_address t)) then false
  else if negb (l4_protocol ft =? l4_protocol t) then false
  else if negb (src_port t =? 0) && negb (src_port ft =? src_port t) then false
  else if negb (dst_port t =? 0) && negb (dst_port ft =? dst_port t) then false
  else true.

(** [FiveTuple::default()] is given: it holds the zero values of external types. *)
Definition classify_packet (default_ft : FiveTuple) (tc : Ip5TupleTc) (l3 : Z) (body : list Z)
    : outcome bool :=
  '(ft, r) ← classify default_ft body;
  match r with
  | inl OK | inl UnclassifiedL4 =>
      if negb (l3_type ft =? l3) then mret false else mret (classify_5t tc ft)
  | _ => mret false
  end.

End tc.
End Tc.
