(* ===== verification/TcProps.v ===== *)
(** * Properties of traffic classifiers

    The wire form is read back, and a packet that matches a tether's classifier
    survives the compression the classifier selects: the far end, which only has
    the classifier, restores it. *)
From Stdlib Require Import ZArith Lia.
From stdpp Require Import base tactics option list.
From S2P Require Import Prelude NetDefs Classifier Compress CompressProps Tc.
Import Classifier Compress CompressProps Tc.

Local Open Scope Z_scope.

Module TcProps.

Section tc.
Context `{NetDefs}.

Lemma mode_ports tc :
  port_absent (compression_mode tc) SOURCE_PORT_PRESENT = (src_port (five_tuple tc) =? 0) /\
  port_absent (compression_mode tc) DESTINATION_PORT_PRESENT = (dst_port (five_tuple tc) =? 0).
Proof.
  destruct port_bits as (D & S0 & D0). unfold port_absent, compression_mode.
  assert (Z.land DESTINATION_PORT_PRESENT SOURCE_PORT_PRESENT = 0) as D' by (by rewrite Z.land_comm).
  destruct (src_port _ =? 0), (dst_port _ =? 0); cbn [negb];
    rewrite ?Z.lor_0_l, ?Z.land_lor_distr_l, ?Z.land_diag, ?D, ?D', ?Z.lor_0_l, ?Z.lor_0_r, ?Z.land_0_l;
    split; try done; by apply Z.eqb_neq.
Qed.

Lemma matching_agrees tc ft :
  classify_5t tc ft = true -> agrees (compression_mode tc) ft (five_tuple tc).
Proof.
  unfold classify_5t, agrees, ports_known. destruct (mode_ports tc) as [-> ->].
  repeat case_bool_decide; destruct (Z.eqb_spec (l3_type ft) (l3_type (five_tuple tc)));
    destruct (Z.eqb_spec (l4_protocol ft) (l4_protocol (five_tuple tc)));
    destruct (Z.eqb_spec (src_port ft) (src_port (five_tuple tc)));
    destruct (Z.eqb_spec (dst_port ft) (dst_port (five_tuple tc)));
    destruct (src_port _ =? 0), (dst_port _ =? 0); cbn; naive_solver.
Qed.

(** C7. A packet that matches a tether's traffic classifier survives the tether.
    Take a packet that [classify] accepts whole, without IP options or
    extension headers and with canonical checksums, and a classifier that
    matches its five-tuple.  Compressing it in the classifier's mode does not
    panic, and expanding with the classifier's own five-tuple, in which
    wildcard ports are zero, restores it byte for byte. *)
Theorem tether_roundtrip tc ft0 body ft r :
  bytes_ok body ->
  classify ft0 body = Ret (ft, inl r) -> r = OK \/ r = UnclassifiedL4 ->
  plain_headers body = true -> checksums_canonical ft body ->
  classify_5t tc ft = true ->
  exists c, compress (compression_mode tc) (l3_type ft) (l4_protocol ft) body = Ret c /\
            expand (compression_mode tc) (five_tuple tc) c = Ret body.
Proof. intros. eapply classified_back; eauto. by apply matching_agrees. Qed.

(** Classifiers the wire form can carry. *)
Definition tc_wf (tc : Ip5TupleTc) : Prop :=
  let ft := five_tuple tc in
  is_byte (l4_protocol ft) /\ 0 <= src_port ft < 2 ^ 16 /\ 0 <= dst_port ft < 2 ^ 16 /\
  ((l3_type ft = Ipv4 /\ exists s d, length s = 4%nat /\ length d = 4%nat /\
      src_address ft = new_from_v4 s /\ dst_address ft = new_from_v4 d) \/
   (l3_type ft = Ipv6 /\ length (src_address ft) = 16%nat /\ length (dst_address ft) = 16%nat)).

Lemma take_bytes_app n x rest : length x = n -> take_bytes n (x ++ rest) = Some (x, rest).
Proof.
  intros Hx. unfold take_bytes. rewrite length_app, (proj2 (Nat.ltb_ge _ _)) by lia.
  by rewrite take_app_length', drop_app_length'.
Qed.

Lemma get_u16_back x rest :
  0 <= x < 2 ^ 16 -> try_get_u16 (be_bytes 2 x ++ rest) = Some (x, rest).
Proof.
  intros Hx. unfold try_get_u16. rewrite take_bytes_app by apply length_be_bytes.
  change (Some (from_be (be_bytes 2 x), rest) = Some (x, rest)). rewrite from_be_be_bytes, Z.mod_small by (simpl; lia). done.
Qed.

Lemma port_back (b : bool) x rest :
  0 <= x < 2 ^ 16 -> b = negb (x =? 0) ->
  (if b then try_get_u16 ((if b then be_bytes 2 x else []) ++ rest)
   else Some (0, (if b then be_bytes 2 x else []) ++ rest)) = Some (x, rest).
Proof.
  intros Hx ->. destruct (Z.eqb_spec x 0) as [-> |]; cbn [negb]; [done|by apply get_u16_back].
Qed.

Definition tc_flags (v4 sport dport : bool) : Z :=
  let flags := if v4 then Z.lor 0 TC_IPV4 else 0 in
  let flags := if sport then Z.lor flags TC_SOURCE_PORT_PRESENT else flags in
  if dport then Z.lor flags TC_DESTINATION_PORT_PRESENT else flags.

Lemma tc_flags_back v4 s d :
  negb (Z.land (tc_flags v4 s d) TC_IPV4 =? 0) = v4 /\
  negb (Z.land (tc_flags v4 s d) TC_SOURCE_PORT_PRESENT =? 0) = s /\
  negb (Z.land (tc_flags v4 s d) TC_DESTINATION_PORT_PRESENT =? 0) = d.
Proof. by destruct v4, s, d. Qed.

(** Reading a classifier whose flags, addresses and ports were written. *)
Lemma deserialize_written (v4 : bool) l4 a1 a2 sp dp rest :
  0 <= sp < 2 ^ 16 -> 0 <= dp < 2 ^ 16 ->
  let size := if v4 then 4%nat else 16%nat in
  length a1 = size -> length a2 = size ->
  let bs := negb (sp =? 0) in let bd := negb (dp =? 0) in
  let conv := if v4 then new_from_v4 else id in
  deserialize (([tc_flags v4 bs bd; l4] ++ (a1 ++ a2) ++
    (if bs then be_bytes 2 sp else []) ++ (if bd then be_bytes 2 dp else [])) ++ rest) =
  Some (new (mkFT (conv a1) (conv a2) (if v4 then Ipv4 else Ipv6) l4 sp dp), rest).
Proof.
  intros Hsp Hdp size H1 H2 bs bd conv. unfold deserialize.
  rewrite <- !app_assoc, (take_bytes_app 2 [tc_flags v4 bs bd; l4]) by done.
  cbn [mbind option_bind]. change (byte_at [tc_flags v4 bs bd; l4] 0) with (tc_flags v4 bs bd).
  change (byte_at [tc_flags v4 bs bd; l4] 1) with l4. cbv zeta.
  destruct (tc_flags_back v4 bs bd) as (-> & -> & ->). fold size. fold conv.
  rewrite (app_assoc a1 a2), take_bytes_app by (rewrite length_app; lia). cbn [mbind option_bind].
  rewrite (port_back bs sp) by done. cbn [mbind option_bind].
  rewrite (port_back bd dp) by done. cbn [mbind option_bind].
  by rewrite take_app_length', drop_app_length' by done.
Qed.

(** A traffic classifier is read back from its wire form, whatever follows it
    in the buffer. *)
Theorem tc_wire_roundtrip tc rest :
  tc_wf tc ->
  exists bytes, serialize tc = Ret bytes /\ deserialize (bytes ++ rest) = Some (tc, rest).
Proof.
  destruct tc as [[src dst l3 l4 sp dp]]. unfold tc_wf. cbn.
  intros (Hl4 & Hsp & Hdp & Hv).
  destruct Hv as [(-> & s & d & Hs & Hd & -> & ->)|(-> & Hs & Hd)]; (eexists; split; [|]).
  - unfold serialize. cbn -[be_bytes tc_flags]. rewrite Z.eqb_refl, !bind_Ret, !read_new_v4 by done.
    reflexivity.
  - by apply (deserialize_written true).
  - unfold serialize. cbn -[be_bytes tc_flags].
    rewrite (proj2 (Z.eqb_neq Ipv6 Ipv4)), Z.eqb_refl, !bind_Ret by (apply not_eq_sym, l3_distinct).
    reflexivity.
  - by apply (deserialize_written false).
Qed.

End tc.

#[local] Existing Instance iana.

(** A tether for 10.0.0.1:8080 to any TCP port of 10.0.0.2. *)
Definition tether_tc : Ip5TupleTc := new (v4_tuple TCP 8080 0).

Lemma tether_roundtrip_witness :
  exists c, compress (compression_mode tether_tc) Ipv4 TCP tcp_packet = Ret c /\
            expand (compression_mode tether_tc) (five_tuple tether_tc) c = Ret tcp_packet.
Proof.
  apply (tether_roundtrip tether_tc (mkFT [] [] 0 0 0 0) tcp_packet (v4_tuple TCP 8080 80) OK).
  - apply (bool_decide_unpack (Forall (fun b => 0 <= b < 256) tcp_packet)). vm_compute. exact I.
  - vm_compute. reflexivity.
  - left. reflexivity.
  - vm_compute. reflexivity.
  - split; intros _; vm_compute; reflexivity.
  - vm_compute. reflexivity.
Defined.

Lemma tc_wire_roundtrip_witness :
  exists bytes, serialize tether_tc = Ret bytes /\
    deserialize (bytes ++ [7]) = Some (tether_tc, [7]).
Proof.
  apply (tc_wire_roundtrip tether_tc [7]). unfold tc_wf, is_byte. cbn.
  split; [lia|]. split; [lia|]. split; [lia|]. left. split; [reflexivity|].
  exists [10; 0; 0; 1], [10; 0; 0; 2]. repeat split.
Defined.

End TcProps.
