(* ===== verification/TxnMgr.v ===== *)
(** * The transaction manager ([mgmt/txn_mgr.rs])

    Transaction identifiers are 16 bits, handed out in order and reserved by
    reference-counted handles.  The manager is the state under its mutex; the
    tasks around it (those that wait in [open], those between releasing the lock
    and notifying) are a transition system, one step per critical section. *)
From Stdlib Require Import ZArith Lia.
From stdpp Require Import base tactics option list numbers gmap gmultiset.
From S2P Require Import Prelude.

Local Open Scope Z_scope.

Module TxnMgr.

(** ** The manager *)

Record TxnMgrInner := mkInner { next_free : Z; open : gmap Z Z }.

Definition new : TxnMgrInner := mkInner 0 ∅.

Definition try_open_raw (m : TxnMgrInner) : option (Z * TxnMgrInner) :=
  match open m !! next_free m with
  | None => Some (next_free m, mkInner (wrapping_add 16 (next_free m) 1) (<[next_free m := 0]> (open m)))
  | Some _ => None
  end.

Definition get (m : TxnMgrInner) (id : Z) : option TxnMgrInner :=
  refcnt ← open m !! id;
  Some (mkInner (next_free m) (<[id := wrapping_add 64 refcnt 1]> (open m))).

Definition ref_txn (m : TxnMgrInner) (id : Z) : outcome TxnMgrInner :=
  match open m !! id with
  | None => Panic
  | Some refcnt => Ret (mkInner (next_free m) (<[id := wrapping_add 64 refcnt 1]> (open m)))
  end.

(** The part under the lock, and whether waiters must be notified after it. *)
Definition deref_txn (m : TxnMgrInner) (id : Z) : outcome (TxnMgrInner * bool) :=
  match open m !! id with
  | None => Panic
  | Some refcnt =>
      if 0 <? refcnt then Ret (mkInner (next_free m) (<[id := refcnt - 1]> (open m)), false)
      else Ret (mkInner (next_free m) (delete id (open m)), next_free m =? id)
  end.

(** ** Reference counts

    [refcounts m f]: [f id] handles exist for each [id]. *)
Definition refcounts (m : TxnMgrInner) (f : Z -> nat) : Prop :=
  0 <= next_free m < 2 ^ 16 /\
  forall id, open m !! id = match f id with O => None | S n => Some (Z.of_nat n) end.

Definition add_one (f : Z -> nat) (id : Z) : Z -> nat :=
  fun j => if decide (j = id) then S (f j) else f j.
Definition sub_one (f : Z -> nat) (id : Z) : Z -> nat :=
  fun j => if decide (j = id) then pred (f j) else f j.

Section counts.
Implicit Types (m : TxnMgrInner) (f g : Z -> nat) (id : Z).

Lemma refcounts_ext m f g : (forall j, f j = g j) -> refcounts m f -> refcounts m g.
Proof. intros E [Hn Ho]. split; [done|]. intros id. by rewrite <- E. Qed.

Lemma open_iff m f id : refcounts m f -> is_Some (open m !! id) <-> (0 < f id)%nat.
Proof. 
  intros [_ ->]. destruct (f id) as [|n].
  - split; [by intros [? ?]|lia].
  - split; [lia|by eauto].
Qed.

Lemma ref_ok m f id :
  refcounts m f -> (0 < f id)%nat -> Z.of_nat (f id) < 2 ^ 64 ->
  exists m', ref_txn m id = Ret m' /\ next_free m' = next_free m /\ refcounts m' (add_one f id).
Proof.
  intros [Hn Ho] Hp Hb. unfold ref_txn. rewrite Ho. destruct (f id) as [|n] eqn:E; [lia|].
  eexists. split_and!; [done|done|]. split; [done|]. intros j. cbn [open]. unfold add_one.
  destruct (decide (j = id)) as [-> |]; [|by rewrite lookup_insert_ne].
  rewrite lookup_insert_eq, E. unfold wrapping_add. rewrite wrap_small by lia. f_equal. lia.
Qed.

Lemma deref_ok m f id :
  refcounts m f -> (0 < f id)%nat ->
  exists m' b, deref_txn m id = Ret (m', b) /\ next_free m' = next_free m /\
    refcounts m' (sub_one f id) /\
    b = bool_decide (f id = 1%nat /\ next_free m = id).
Proof.
  intros [Hn Ho] Hp. unfold deref_txn. rewrite Ho. destruct (f id) as [|[|n]] eqn:E; [lia| |].
  - eexists _, _. split_and!; [done|done| |].
    + split; [done|]. intros j. cbn [open]. unfold sub_one.
      destruct (decide (j = id)) as [-> |]; [by rewrite lookup_delete_eq, E|by rewrite lookup_delete_ne].
    + destruct (Z.eqb_spec (next_free m) id); case_bool_decide; naive_solver.
  - rewrite (proj2 (Z.ltb_lt _ _)) by lia. eexists _, _. split_and!; [done|done| |].
    + split; [done|]. intros j. cbn [open]. unfold sub_one.
      destruct (decide (j = id)) as [-> |]; [|by rewrite lookup_insert_ne].
      rewrite lookup_insert_eq, E. cbn [pred]. f_equal. lia.
    + case_bool_decide; naive_solver.
Qed.

Lemma try_open_ok m f id m' :
  refcounts m f -> try_open_raw m = Some (id, m') ->
  id = next_free m /\ f id = O /\ refcounts m' (add_one f id).
Proof.
  intros [Hn Ho] Hopen. unfold try_open_raw in Hopen.
  destruct (open m !! next_free m) eqn:E; [done|]. simplify_eq. rewrite Ho in E.
  destruct (f (next_free m)) eqn:Ef; [|done]. split_and!; [done|done|]. split.
  - cbn. unfold wrapping_add. by apply wrap_range.
  - intros j. cbn [open]. unfold add_one. destruct (decide (j = next_free m)) as [-> |].
    + by rewrite lookup_insert_eq, Ef.
    + by rewrite lookup_insert_ne.
Qed.

Lemma try_open_none m f : refcounts m f -> try_open_raw m = None <-> (0 < f (next_free m))%nat.
Proof.
  intros R. rewrite <- (open_iff m f) by done. unfold try_open_raw.
  destruct (open m !! next_free m); split; done.
Qed.

Lemma get_ok m f id m' :
  refcounts m f -> Z.of_nat (f id) < 2 ^ 64 -> get m id = Some m' ->
  (0 < f id)%nat /\ next_free m' = next_free m /\ refcounts m' (add_one f id).
Proof.
  intros R Hb Hg. unfold get in Hg. destruct (open m !! id) as [c|] eqn:E; [|done].
  cbn in Hg. simplify_eq. assert (0 < f id)%nat as Hp by (eapply open_iff; eauto).
  destruct (ref_ok m f id R Hp Hb) as (m' & Hr & ? & ?). unfold ref_txn in Hr. rewrite E in Hr.
  by simplify_eq.
Qed.

End counts.

(** ** Tasks around the manager *)

Record World := mkWorld {
  mgr : TxnMgrInner;
  handles : gmultiset Z;   (* live handles, by identifier *)
  waiting : nat;           (* tasks registered with [notify] in [open_raw] *)
  woken : nat;             (* tasks notified that have not retried yet *)
  notifying : nat          (* tasks in [deref_txn] between unlock and [notify_waiters] *)
}.

Definition init : World := mkWorld new ∅ 0 0 0.

(** One pass of the loop of [open_raw]: a handle, or registration as a waiter. *)
Definition open_pass (w : World) : World :=
  match try_open_raw (mgr w) with
  | Some (id, m) => mkWorld m ({[+ id +]} ⊎ handles w) (waiting w) (woken w) (notifying w)
  | None => mkWorld (mgr w) (handles w) (S (waiting w)) (woken w) (notifying w)
  end.

Inductive Op :=
| TryOpen           (** [try_open] *)
| Open              (** a task enters [open] *)
| Retry             (** a notified task goes round the loop *)
| Get (id : Z)      (** [get] *)
| Clone (id : Z)    (** [TxnHandle::clone] of a live handle *)
| Drop (id : Z)     (** [TxnHandle::drop] of a live handle *)
| NotifyWaiters.    (** the end of [deref_txn] *)

Definition enabled (w : World) (op : Op) : Prop :=
  Z.of_nat (size (handles w)) < 2 ^ 64 - 1 /\
  match op with
  | TryOpen | Open | Get _ => True
  | Retry => (0 < woken w)%nat
  | Clone id | Drop id => id ∈ handles w
  | NotifyWaiters => (0 < notifying w)%nat
  end.

Definition exec (w : World) (op : Op) : outcome World :=
  match op with
  | TryOpen => mret match try_open_raw (mgr w) with
               | Some (id, m) => mkWorld m ({[+ id +]} ⊎ handles w) (waiting w) (woken w) (notifying w)
               | None => w
               end
  | Open => mret (open_pass w)
  | Retry => mret (open_pass (mkWorld (mgr w) (handles w) (waiting w) (pred (woken w)) (notifying w)))
  | Get id => mret match get (mgr w) id with
              | Some m => mkWorld m ({[+ id +]} ⊎ handles w) (waiting w) (woken w) (notifying w)
              | None => w
              end
  | Clone id => m ← ref_txn (mgr w) id;
      mret (mkWorld m ({[+ id +]} ⊎ handles w) (waiting w) (woken w) (notifying w))
  | Drop id => '(m, need_notify) ← deref_txn (mgr w) id;
      mret (mkWorld m (handles w ∖ {[+ id +]}) (waiting w) (woken w)
              (if (need_notify : bool) then S (notifying w) else notifying w))
  | NotifyWaiters =>
      mret (mkWorld (mgr w) (handles w) 0 (woken w + waiting w) (pred (notifying w)))
  end.

Inductive reachable : World -> Prop :=
| reach_init : reachable init
| reach_step w op w' : reachable w -> enabled w op -> exec w op = Ret w' -> reachable w'.

(** ** The invariant *)

Definition mult (h : gmultiset Z) (id : Z) : nat := multiplicity id h.

Definition inv (w : World) : Prop :=
  refcounts (mgr w) (mult (handles w)) /\
  ((0 < waiting w)%nat -> (0 < notifying w)%nat \/ next_free (mgr w) ∈ handles w).

Lemma mult_add h id j : add_one (mult h) id j = mult ({[+ id +]} ⊎ h) j.
Proof.
  unfold add_one, mult. rewrite multiplicity_disj_union.
  destruct (decide (j = id)) as [-> |].
  - rewrite multiplicity_singleton_eq. lia.
  - rewrite multiplicity_singleton_ne by done. lia.
Qed.

Lemma mult_sub h id j : sub_one (mult h) id j = mult (h ∖ {[+ id +]}) j.
Proof.
  unfold sub_one, mult. rewrite multiplicity_difference.
  destruct (decide (j = id)) as [-> |].
  - rewrite multiplicity_singleton_eq. lia.
  - rewrite multiplicity_singleton_ne by done. lia.
Qed.

Lemma mult_pos h id : id ∈ h <-> (0 < mult h id)%nat.
Proof. by rewrite elem_of_multiplicity. Qed.

Lemma mult_size (h : gmultiset Z) id : (mult h id <= size h)%nat.
Proof.
  induction h as [|x h IH] using gmultiset_ind; [by unfold mult; rewrite multiplicity_empty; lia|].
  rewrite gmultiset_size_disj_union, gmultiset_size_singleton, <- mult_add. unfold add_one.
  case_decide; lia.
Qed.

(** A step that opened an identifier, or found it taken. *)
Lemma open_pass_inv w : inv w -> inv (open_pass w).
Proof.
  intros [R W]. unfold open_pass. destruct (try_open_raw (mgr w)) as [[id m]|] eqn:E.
  - destruct (try_open_ok _ _ _ _ R E) as (-> & Hf & R'). split; cbn [mgr handles waiting woken notifying].
    + by eapply refcounts_ext, R'; intros; rewrite mult_add.
    + intros Hw. destruct (W Hw) as [|Hin]; [by left|]. rewrite mult_pos in Hin. lia.
  - split; cbn [mgr handles waiting woken notifying]; [done|]. intros _. right. rewrite mult_pos. by apply (try_open_none _ _ R).
Qed.

Lemma txn_exec_inv w op :
  inv w -> enabled w op -> exists w', exec w op = Ret w' /\ inv w'.
Proof.
  intros I [Hsz He]. pose proof I as [R W].
  assert (forall id, Z.of_nat (mult (handles w) id) < 2 ^ 64) as Hb
    by (intros id; pose proof (mult_size (handles w) id); lia).
  destruct op as [| | |id|id|id|]; cbn [exec]; unfold mret, outcome_ret.
  - eexists. split; [done|]. pose proof (open_pass_inv w I) as P. unfold open_pass in P.
    by destruct (try_open_raw (mgr w)) as [[id m]|].
  - eexists. split; [done|by apply open_pass_inv].
  - eexists. split; [done|]. by apply open_pass_inv.
  - eexists. split; [done|]. destruct (get (mgr w) id) as [m|] eqn:E; [|done].
    destruct (get_ok _ _ _ _ R (Hb id) E) as (_ & En & R'). split; cbn [mgr handles waiting woken notifying].
    + by eapply refcounts_ext, R'; intros; rewrite mult_add.
    + rewrite En. intros Hw. destruct (W Hw); [by left|right; multiset_solver].
  - destruct (ref_ok _ _ id R) as (m & -> & En & R'); [by rewrite <- mult_pos|done|].
    rewrite bind_Ret. eexists. split; [done|]. split; cbn [mgr handles waiting woken notifying].
    + by eapply refcounts_ext, R'; intros; rewrite mult_add.
    + rewrite En. intros Hw. destruct (W Hw); [by left|right; multiset_solver].
  - destruct (deref_ok _ _ id R) as (m & b & -> & En & R' & Hbv); [by rewrite <- mult_pos|].
    rewrite bind_Ret. eexists. split; [done|]. split; cbn [mgr handles waiting woken notifying].
    + by eapply refcounts_ext, R'; intros; rewrite mult_sub.
    + rewrite En. intros Hw. destruct b; [left; lia|].
      destruct (W Hw) as [|Hin]; [by left|]. right. rewrite mult_pos. rewrite <- mult_sub. unfold sub_one.
      rewrite mult_pos in Hin. symmetry in Hbv. apply bool_decide_eq_false in Hbv. case_decide; [|lia].
      subst id. destruct (mult (handles w) (next_free (mgr w))) as [|[|]]; [lia|naive_solver|lia].
  - eexists. split; [done|]. split; cbn [mgr handles waiting woken notifying]; [done|lia].
Qed.

Lemma txn_reachable_inv w : reachable w -> inv w.
Proof.
  induction 1 as [|w op w' _ IH He Hx].
  - split; cbn [mgr handles waiting woken notifying init]; [|lia]. split; [done|]. intros id. unfold mult. by rewrite multiplicity_empty.
  - destruct (txn_exec_inv w op IH He) as (w'' & Hx' & I). rewrite Hx in Hx'. by injection Hx' as <-.
Qed.

(** C28. However tasks open, look up, clone and drop handles, and however waiting
    and notification interleave: no operation panics; an identifier is reserved
    exactly while a handle for it lives; an identifier handed out belongs to no
    live handle; [try_open] is refused only while the next identifier is
    reserved; and no wake-up is lost, that is, a task waits only for a live
    handle or with a notification on its way. *)
Theorem transactions_safe w :
  reachable w ->
  (forall op, enabled w op -> exists w', exec w op = Ret w') /\
  (forall id, is_Some (open (mgr w) !! id) <-> id ∈ handles w) /\
  (forall id m, try_open_raw (mgr w) = Some (id, m) -> id ∉ handles w /\ 0 <= id < 2 ^ 16) /\
  (try_open_raw (mgr w) = None <-> next_free (mgr w) ∈ handles w) /\
  ((0 < waiting w)%nat -> (0 < notifying w)%nat \/ next_free (mgr w) ∈ handles w).
Proof.
  intros [R W]%txn_reachable_inv. split_and!; [| | | |done].
  - intros op He. destruct (txn_exec_inv w op (conj R W) He) as (w' & ? & _). by exists w'.
  - intros id. by rewrite (open_iff _ _ _ R), mult_pos.
  - intros id m E. destruct (try_open_ok _ _ _ _ R E) as (-> & Hf & _).
    split; [rewrite mult_pos; lia|by destruct R].
  - by rewrite (try_open_none _ _ R), mult_pos.
Qed.

(** Identifier 0 is opened and cloned, a handle is dropped: it stays reserved. *)
Definition witness_world : World := mkWorld (mkInner 1 {[ 0 := 0 ]}) {[+ 0 +]} 0 0 0.

Lemma transactions_safe_witness :
  is_Some (open (mgr witness_world) !! 0) <-> 0 ∈ handles witness_world.
Proof.
  apply (transactions_safe witness_world).
  apply (reach_step (mkWorld (mkInner 1 {[ 0 := 1 ]}) {[+ 0; 0 +]} 0 0 0) (Drop 0)).
  - apply (reach_step (mkWorld (mkInner 1 {[ 0 := 0 ]}) {[+ 0 +]} 0 0 0) (Clone 0)).
    + apply (reach_step init TryOpen).
      * apply reach_init.
      * split; [vm_compute; reflexivity|exact I].
      * vm_compute. reflexivity.
    + split; [vm_compute; reflexivity|]. apply (bool_decide_unpack _). vm_compute. exact I.
    + vm_compute. reflexivity.
  - split; [vm_compute; reflexivity|]. apply (bool_decide_unpack _). vm_compute. exact I.
  - vm_compute. reflexivity.
Defined.

End TxnMgr.
