(* ===== verification/AdapterTables.v ===== *)
(** * Adapter tables and tether set-up

    The endpoint lookup table ([adapter_tables.rs]) and the operations that set
    tethers up and take them down ([adapter_manager_worker.rs],
    [mgmt/adapter.rs]), over the transaction manager of the dock link: cloning and
    dropping a handle is a step of the manager.  One docking session is modelled,
    so handles are equal when their identifiers are. *)
From Stdlib Require Import ZArith Lia.
From stdpp Require Import base tactics option list numbers gmap gmultiset.
From S2P Require Import Prelude NetDefs Classifier Tc TxnMgr.
Import Tc TxnMgr.

Local Open Scope Z_scope.

Module AdapterTables.

Record EltPep := mkPep {
  pep_compression_mode : Z;
  tether_id : Z;
  a2a_shared_secret : option (list Z);
  a2a_micv_key : option (list Z)
}.

Inductive InstallTetherError := NoSuchTransaction.
Inductive InsertPendingError := AlreadyPending | DuplicateTransaction.
Inductive SetActiveError := NotFound | NotPending.

(** What became of a request for a tether: the reason it was given up, or the
    transaction its bind request is sent under. *)
Inductive RequestOutcome :=
| LinkLocal | LinkDropped | DroppedNoSA | QueueBackpressure | DroppedAwaitingBind
| Issued (txn : Z).

Section elt.
Context `{NetDefs} {Packet : Type}.

(** [blake3::derive_key] with the A2A context; [IpAddress::is_v6_unicast_link_local];
    the Diffie-Hellman exchange of the adapter's key; the iteration order of a
    [DashMap]. *)
Context (derive_key : list Z -> list Z) (is_v6_unicast_link_local : list Z -> bool)
  (diffie_hellman : list Z -> list Z).

Definition EltPep_new (mode tether : Z) (secret : option (list Z)) : EltPep :=
  mkPep mode tether secret (derive_key <$> secret).

Inductive EltEntry :=
| Pending (packet : Packet) (txn : Z)
| Active (pep : EltPep).

Context (iter : gmap FiveTuple EltEntry -> list (FiveTuple * EltEntry)).

Record Sys := mkSys {
  txns : TxnMgrInner;
  table : gmap FiveTuple EltEntry;
  pending : gmap Z FiveTuple
}.

Definition clone_handle (s : Sys) (txn : Z) : outcome Sys :=
  m ← ref_txn (txns s) txn; mret (mkSys m (table s) (pending s)).
Definition drop_handle (s : Sys) (txn : Z) : outcome Sys :=
  '(m, _) ← deref_txn (txns s) txn; mret (mkSys m (table s) (pending s)).
Definition drop_entry (s : Sys) (e : EltEntry) : outcome Sys :=
  match e with Pending _ txn => drop_handle s txn | Active _ => mret s end.

(** ** The table *)

(** A key already present stays, and the clone made for it is dropped. *)
Definition insert_pending (s : Sys) (ft : FiveTuple) (init_packet : Packet) (txn : Z)
    : outcome (Sys * (unit + InsertPendingError * Packet)) :=
  match table s !! ft with
  | Some _ => mret (s, inr (AlreadyPending, init_packet))
  | None =>
      s1 ← clone_handle s txn;
      let s2 := mkSys (txns s1) (table s1) (<[txn := ft]> (pending s1)) in
      match pending s !! txn with
      | Some _ => s3 ← drop_handle s2 txn; mret (s3, inr (DuplicateTransaction, init_packet))
      | None =>
          s3 ← clone_handle s2 txn;
          mret (mkSys (txns s3) (<[ft := Pending init_packet txn]> (table s3)) (pending s3), inl tt)
      end
  end.

Definition lookup_pending (s : Sys) (txn : Z) : option FiveTuple := pending s !! txn.

(** [assert!(matches!(self.pending.remove(&txn), Some((_txn, ft)) if &ft == five_tuple))],
    the removed key being dropped. *)
Definition remove_pending (s : Sys) (txn : Z) (ft : FiveTuple) : outcome Sys :=
  match pending s !! txn with
  | Some ft' => if bool_decide (ft' = ft)
                then drop_handle (mkSys (txns s) (table s) (delete txn (pending s))) txn
                else Panic
  | None => Panic
  end.

Definition set_active (s : Sys) (ft : FiveTuple) (pep : EltPep)
    : outcome (Sys * (Packet + SetActiveError * EltPep)) :=
  match table s !! ft with
  | None => mret (s, inr (NotFound, pep))
  | Some (Active _) => mret (s, inr (NotPending, pep))
  | Some (Pending packet txn) =>
      s1 ← remove_pending (mkSys (txns s) (<[ft := Active pep]> (table s)) (pending s)) txn ft;
      s2 ← drop_handle s1 txn;
      mret (s2, inl packet)
  end.

(** [None] is [RemoveError::NotFound]; the caller owns the entry returned. *)
Definition remove (s : Sys) (ft : FiveTuple) : outcome (Sys * option EltEntry) :=
  match table s !! ft with
  | None => mret (s, None)
  | Some entry =>
      let s1 := mkSys (txns s) (delete ft (table s)) (pending s) in
      match entry with
      | Pending _ txn => s2 ← remove_pending s1 txn ft; mret (s2, Some entry)
      | Active _ => mret (s1, Some entry)
      end
  end.

Definition remove_and_drop (s : Sys) (ft : FiveTuple) : outcome (Sys * bool) :=
  '(s1, e) ← remove s ft;
  match e with
  | Some entry => s2 ← drop_entry s1 entry; mret (s2, true)
  | None => mret (s1, false)
  end.

Definition has_tether (id : Z) (x : FiveTuple * EltEntry) : bool :=
  match snd x with Active pep => tether_id pep =? id | Pending _ _ => false end.

Definition remove_by_tether_id (s : Sys) (id : Z) : outcome (Sys * option FiveTuple) :=
  match List.find (has_tether id) (iter (table s)) with
  | None => mret (s, None)
  | Some (ft, _) =>
      '(s1, found) ← remove_and_drop s ft;
      mret (s1, if (found : bool) then Some ft else None)
  end.

Fixpoint remove_all (s : Sys) (fts : list FiveTuple) : outcome Sys :=
  match fts with
  | [] => mret s
  | ft :: fts => '(s1, _) ← remove_and_drop s ft; remove_all s1 fts
  end.

Definition clear (s : Sys) : outcome Sys := remove_all s (fst <$> iter (table s)).

(** ** Tether set-up *)

Definition do_request_tether_id (s : Sys) (ft : FiveTuple) (pkt : Packet) (peer_present ready : bool)
    : outcome (Sys * RequestOutcome) :=
  if is_v6_unicast_link_local (dst_address ft) || is_v6_unicast_link_local (src_address ft)
  then mret (s, LinkLocal)
  else if negb peer_present then mret (s, LinkDropped)
  else if negb ready then mret (s, DroppedNoSA)
  else match try_open_raw (txns s) with
  | None => mret (s, QueueBackpressure)
  | Some (txn, m) =>
      '(s1, r) ← insert_pending (mkSys m (table s) (pending s)) ft pkt txn;
      match r with
      | inl _ => mret (s1, Issued txn)
      | inr (AlreadyPending, _) => s2 ← drop_handle s1 txn; mret (s2, DroppedAwaitingBind)
      | inr (DuplicateTransaction, _) => Panic
      end
  end.

(** The packet returned is the queued one, to be sent on the new tether. *)
Definition install_tether (s : Sys) (txn tether : Z) (tc : Ip5TupleTc) (peer_key : option (list Z))
    : outcome (Sys * (option Packet + InstallTetherError)) :=
  match lookup_pending s txn with
  | None => mret (s, inr NoSuchTransaction)
  | Some ft =>
      if negb (classify_5t tc ft) then
        '(s1, found) ← remove_and_drop s ft;
        if (found : bool) then mret (s1, inl None) else Panic
      else
        '(s1, r) ← set_active s ft (EltPep_new (compression_mode tc) tether (diffie_hellman <$> peer_key));
        match r with
        | inl packet => mret (s1, inl (Some packet))
        | inr _ => mret (s1, inr NoSuchTransaction)
        end
  end.

Definition deny_tether (s : Sys) (txn : Z) : outcome (Sys * (unit + InstallTetherError)) :=
  match lookup_pending s txn with
  | None => mret (s, inr NoSuchTransaction)
  | Some ft =>
      '(s1, found) ← remove_and_drop s ft;
      mret (s1, if (found : bool) then inl tt else inr NoSuchTransaction)
  end.

End elt.
End AdapterTables.
