(* ===== verification/AdapterTablesProps.v ===== *)
(** * Consistency of the adapter tables

    The endpoint lookup table, its index of pending transactions and the reference
    counts of the transaction manager stay in step, so that none of the
    consistency assertions of the code can fail. *)
From Stdlib Require Import ZArith Lia.
From stdpp Require Import base tactics option list numbers gmap gmultiset.
From S2P Require Import Prelude NetDefs Classifier Tc TxnMgr AdapterTables.
Import Tc TxnMgr AdapterTables.

Local Open Scope Z_scope.

Module AdapterTablesProps.

Section props.
Context `{NetDefs} {Packet : Type}.
Context (derive_key : list Z -> list Z) (is_v6_unicast_link_local : list Z -> bool)
  (diffie_hellman : list Z -> list Z).

Notation Entry := (@EltEntry Packet).
Notation Sys := (@Sys Packet).

Context (iter : gmap FiveTuple Entry -> list (FiveTuple * Entry)).

Implicit Types (s : Sys) (f : Z -> nat) (t : Z) (ft : FiveTuple).

(** A pending transaction is held twice, as key of the index and in its entry. *)
Definition held s t : nat := match pending s !! t with Some _ => 2%nat | None => 0%nat end.

Definition consistent s : Prop :=
  forall t ft, pending s !! t = Some ft <-> exists pkt, table s !! ft = Some (Pending pkt t).

(** [f] counts the handles outside the table. *)
Definition elt_inv s f : Prop :=
  refcounts (txns s) (fun t => f t + held s t)%nat /\ consistent s.

Lemma drop_handle_ok s f t :
  elt_inv s f -> (0 < f t)%nat ->
  exists m, drop_handle s t = Ret (mkSys m (table s) (pending s)) /\
    elt_inv (mkSys m (table s) (pending s)) (sub_one f t).
Proof.
  intros (R & C) Hp. unfold drop_handle.
  destruct (deref_ok _ _ t R) as (m & b & -> & _ & R' & _); [lia|]. rewrite bind_Ret.
  exists m. split; [done|]. split; [|done].
  eapply refcounts_ext, R'. intros j. unfold sub_one, held. cbn. case_decide; subst; lia.
Qed.

Lemma clone_ok m f t :
  refcounts m f -> (0 < f t)%nat -> Z.of_nat (f t) < 2 ^ 64 ->
  exists m', ref_txn m t = Ret m' /\ refcounts m' (add_one f t).
Proof. intros R Hp Hb. destruct (ref_ok m f t R Hp Hb) as (m' & ? & _ & ?). eauto. Qed.

(** ** The table operations *)

Lemma insert_pending_ok s f ft pkt t :
  elt_inv s f -> (0 < f t)%nat -> Z.of_nat (f t) < 2 ^ 64 - 4 -> pending s !! t = None ->
  exists s' r, insert_pending s ft pkt t = Ret (s', r) /\ elt_inv s' f /\
    match r with
    | inl _ => table s !! ft = None /\ table s' = <[ft := Pending pkt t]> (table s) /\
               pending s' = <[t := ft]> (pending s)
    | inr (e, p) => s' = s /\ e = AlreadyPending /\ p = pkt /\ is_Some (table s !! ft)
    end.
Proof.
  intros (R & C) Hp Bt Hn. unfold insert_pending, clone_handle.
  destruct (table s !! ft) as [e|] eqn:Hft; [by eexists _, (inr (_, _)); split_and!; eauto|].
  destruct (clone_ok _ _ t R) as (m1 & -> & R1); [lia|unfold held; rewrite Hn; lia|].
  rewrite !bind_Ret, Hn. cbn [txns table pending].
  destruct (clone_ok _ _ t R1) as (m2 & -> & R2).
  { unfold add_one. rewrite decide_True by done. lia. }
  { unfold add_one, held. rewrite decide_True, Hn by done. lia. }
  rewrite !bind_Ret. cbn [txns table pending]. eexists _, (inl tt). split; [done|]. split; [|done].
  split; cbn.
  - eapply refcounts_ext, R2. intros j. unfold add_one, held. cbn.
    destruct (decide (j = t)) as [-> |].
    + rewrite lookup_insert_eq, Hn. lia.
    + by rewrite lookup_insert_ne.
  - intros j ft'. cbn. destruct (decide (j = t)) as [-> |Hj].
    + rewrite lookup_insert_eq. split.
      * intros [= <-]. exists pkt. by rewrite lookup_insert_eq.
      * intros (p & Hl). destruct (decide (ft' = ft)) as [-> |]; [done|].
        rewrite lookup_insert_ne in Hl by done.
        assert (pending s !! t = Some ft') as Hc by (apply C; eauto). congruence.
    + rewrite lookup_insert_ne by done. rewrite (C j ft').
      destruct (decide (ft' = ft)) as [-> |]; [|by rewrite lookup_insert_ne].
      rewrite lookup_insert_eq, Hft. split; intros (p & Hl); [done|]. by simplify_eq.
Qed.

(** Taking a pending entry out of the table, for [new] in its place: the entry's
    own handle is left to its owner. *)
Lemma remove_pending_ok s f ft pkt t tab' :
  elt_inv s f -> table s !! ft = Some (Pending pkt t) ->
  (forall ft', ft' <> ft -> tab' !! ft' = table s !! ft') ->
  (forall p t', tab' !! ft <> Some (Pending p t')) ->
  exists m, remove_pending (mkSys (txns s) tab' (pending s)) t ft =
      Ret (mkSys m tab' (delete t (pending s))) /\
    elt_inv (mkSys m tab' (delete t (pending s))) (add_one f t).
Proof.
  intros (R & C) Hft Hsame Hnot. unfold remove_pending, drop_handle. cbn [txns table pending].
  assert (pending s !! t = Some ft) as Hpt by (apply C; eauto).
  rewrite Hpt, bool_decide_true by done.
  destruct (deref_ok _ _ t R) as (m & b & -> & _ & R' & _); [unfold held; rewrite Hpt; lia|].
  rewrite bind_Ret. exists m. split; [done|]. split; cbn.
  - eapply refcounts_ext, R'. intros j. unfold sub_one, add_one, held. cbn.
    destruct (decide (j = t)) as [-> |].
    + rewrite lookup_delete_eq, Hpt. lia.
    + by rewrite lookup_delete_ne.
  - intros j ft'. cbn. destruct (decide (ft' = ft)) as [-> |Hne].
    + split; [|by intros (p & Hl); destruct (Hnot p j)].
      intros [Hj Hl]%lookup_delete_Some. apply C in Hl as (p & Hl). rewrite Hft in Hl. by simplify_eq.
    + rewrite Hsame by done. rewrite <- (C j ft'), lookup_delete_Some.
      split; [by intros [_ ?]|]. intros Hl. split; [|done]. intros <-. rewrite Hpt in Hl. by simplify_eq.
Qed.

Lemma sub_add f t j : sub_one (add_one f t) t j = f j.
Proof. unfold sub_one, add_one. by case_decide. Qed.

Lemma elt_inv_ext s f g : (forall j, f j = g j) -> elt_inv s f -> elt_inv s g.
Proof. intros E [R C]. split; [|done]. eapply refcounts_ext, R. intros j. cbv beta. by rewrite E. Qed.

(** The entry taken out and its handle dropped. *)
Lemma retire_ok s f ft pkt t tab' :
  elt_inv s f -> table s !! ft = Some (Pending pkt t) ->
  (forall ft', ft' <> ft -> tab' !! ft' = table s !! ft') ->
  (forall p t', tab' !! ft <> Some (Pending p t')) ->
  exists s1 s2, remove_pending (mkSys (txns s) tab' (pending s)) t ft = Ret s1 /\
    drop_handle s1 t = Ret s2 /\ table s2 = tab' /\ pending s2 = delete t (pending s) /\ elt_inv s2 f.
Proof.
  intros I Hft Hsame Hnot.
  destruct (remove_pending_ok _ _ _ _ _ _ I Hft Hsame Hnot) as (m1 & E1 & I1).
  destruct (drop_handle_ok _ _ t I1) as (m2 & E2 & I2).
  { unfold add_one. rewrite decide_True by done. lia. }
  eexists _, _. split_and!; [exact E1|exact E2|done|done|].
  eapply elt_inv_ext, I2. intros j. apply sub_add.
Qed.

Lemma set_active_ok s f ft pep :
  elt_inv s f ->
  exists s' r, set_active s ft pep = Ret (s', r) /\ elt_inv s' f /\
    match r with
    | inl pkt => exists t, table s !! ft = Some (Pending pkt t) /\
        table s' = <[ft := Active pep]> (table s) /\ pending s' = delete t (pending s)
    | inr _ => s' = s /\ forall p t, table s !! ft <> Some (Pending p t)
    end.
Proof.
  intros I. unfold set_active. destruct (table s !! ft) as [[pkt t|pep']|] eqn:Hft.
  - destruct (retire_ok s f ft pkt t (<[ft := Active pep]> (table s)) I Hft)
      as (s1 & s2 & -> & E2 & ? & ? & I2).
    { intros ft' Hne. by rewrite lookup_insert_ne. }
    { intros p t'. by rewrite lookup_insert_eq. }
    rewrite bind_Ret, E2, bind_Ret. eexists _, (inl pkt). split; [done|]. split; [done|]. by exists t.
  - eexists _, (inr _). by split_and!.
  - eexists _, (inr _). by split_and!.
Qed.

(** An entry of the table, or nothing, removed. *)
Lemma remove_and_drop_ok s f ft :
  elt_inv s f ->
  exists s', remove_and_drop s ft = Ret (s', bool_decide (is_Some (table s !! ft))) /\
    elt_inv s' f /\ table s' = delete ft (table s).
Proof.
  intros I. unfold remove_and_drop, remove.
  assert (forall ft', ft' <> ft -> delete ft (table s) !! ft' = table s !! ft') as Hsame
    by (intros; by rewrite lookup_delete_ne).
  destruct (table s !! ft) as [[pkt t|pep]|] eqn:Hft.
  - destruct (retire_ok s f ft pkt t (delete ft (table s)) I Hft Hsame)
      as (s1 & s2 & -> & E2 & ? & ? & I2).
    { intros p t'. by rewrite lookup_delete_eq. }
    rewrite !bind_Ret. cbn [drop_entry]. rewrite E2, bind_Ret. by eexists.
  - rewrite bind_Ret. cbn [drop_entry]. rewrite bind_Ret. eexists. split; [done|]. split; [|done].
    destruct I as (R & C). split; [done|]. intros t ft'. rewrite (C t ft'). cbn.
    destruct (decide (ft' = ft)) as [-> |]; [|by rewrite Hsame].
    rewrite lookup_delete_eq, Hft. split; intros (p & Hl); done.
  - rewrite bind_Ret. exists s. split; [done|]. split; [done|]. by rewrite delete_id.
Qed.

Lemma remove_all_ok fts : forall s f,
  elt_inv s f ->
  exists s', remove_all s fts = Ret s' /\ elt_inv s' f /\
    forall ft, table s' !! ft = if decide (ft ∈ fts) then None else table s !! ft.
Proof.
  induction fts as [|ft fts IH]; intros s f I; cbn [remove_all].
  - exists s. split_and!; [done|done|]. intros ft. by rewrite decide_False by (apply not_elem_of_nil).
  - destruct (remove_and_drop_ok s f ft I) as (s1 & -> & I1 & E1). rewrite bind_Ret.
    destruct (IH s1 f I1) as (s2 & E2 & I2 & T2). exists s2. split_and!; [done|done|].
    intros ft'. rewrite T2, E1.
    destruct (decide (ft' = ft)) as [-> |Hne].
    + rewrite lookup_delete_eq, (decide_True (P := ft ∈ ft :: fts)) by (by left). by case_decide.
    + rewrite lookup_delete_ne by done. destruct (decide (ft' ∈ fts)) as [Hi|Hi].
      * by rewrite decide_True by (by right).
      * by rewrite decide_False by (by intros [?|?]%elem_of_cons).
Qed.

(** ** Tether set-up *)

Lemma deny_ok s f t :
  elt_inv s f ->
  exists s' r, deny_tether s t = Ret (s', r) /\ elt_inv s' f /\
    (r = inl tt <-> is_Some (pending s !! t)).
Proof.
  intros I. unfold deny_tether, lookup_pending. destruct (pending s !! t) as [ft|] eqn:Ht.
  - destruct (remove_and_drop_ok s f ft I) as (s1 & -> & I1 & E1). rewrite bind_Ret.
    destruct I as (_ & C). apply C in Ht as (p & Hp). rewrite Hp, bool_decide_true by eauto.
    eexists _, _. by split_and!; eauto.
  - eexists _, _. split_and!; [done|done|]. split; [done|by intros [? ?]].
Qed.

Lemma install_ok s f t tether tc key :
  elt_inv s f ->
  exists s' r, install_tether derive_key diffie_hellman s t tether tc key = Ret (s', r) /\
    elt_inv s' f /\
    match pending s !! t with
    | None => r = inr NoSuchTransaction /\ s' = s
    | Some ft => exists pkt, table s !! ft = Some (Pending pkt t) /\
        if classify_5t tc ft
        then r = inl (Some pkt) /\ table s' !! ft =
               Some (Active (EltPep_new derive_key (compression_mode tc) tether (diffie_hellman <$> key)))
        else r = inl None /\ table s' !! ft = None
    end.
Proof.
  intros I. unfold install_tether, lookup_pending. destruct (pending s !! t) as [ft|] eqn:Ht.
  2:{ eexists _, _. by split_and!. }
  pose proof I as (_ & C). apply C in Ht as (pkt & Hp). destruct (classify_5t tc ft); cbn [negb].
  - destruct (set_active_ok s f ft (EltPep_new derive_key (compression_mode tc) tether
      (diffie_hellman <$> key)) I) as (s1 & r & -> & I1 & Hr). rewrite bind_Ret.
    destruct r as [pkt'|e]; [|by destruct Hr as [_ Hr]; destruct (Hr pkt t)].
    destruct Hr as (t' & Hp' & Et & _). rewrite Hp in Hp'. simplify_eq.
    eexists _, _. split_and!; [done|done|]. exists pkt'. by rewrite Et, lookup_insert_eq.
  - destruct (remove_and_drop_ok s f ft I) as (s1 & -> & I1 & E1). rewrite bind_Ret.
    rewrite Hp, bool_decide_true by eauto.
    eexists _, _. split_and!; [done|done|]. exists pkt. by rewrite E1, lookup_delete_eq.
Qed.

Lemma request_ok s f ft pkt up ready :
  elt_inv s f ->
  exists s' r, do_request_tether_id is_v6_unicast_link_local s ft pkt up ready = Ret (s', r) /\
    match r with
    | Issued t => f t = O /\ pending s !! t = None /\ table s' = <[ft := Pending pkt t]> (table s) /\
                  elt_inv s' (add_one f t)
    | _ => table s' = table s /\ pending s' = pending s /\ elt_inv s' f
    end.
Proof.
  intros I. unfold do_request_tether_id.
  destruct (_ || _); [by eexists _, LinkLocal|]. destruct up; [|by eexists _, LinkDropped].
  destruct ready; [|by eexists _, DroppedNoSA]. cbn [negb].
  destruct (try_open_raw (txns s)) as [[t m]|] eqn:Ho; [|by eexists _, QueueBackpressure].
  destruct I as (R & C). destruct (try_open_ok _ _ _ _ R Ho) as (_ & Hz & R').
  assert (f t = O) as Hf by lia.
  assert (pending s !! t = None) as Hn.
  { unfold held in Hz. destruct (pending s !! t); [lia|done]. }
  assert (elt_inv (mkSys m (table s) (pending s)) (add_one f t)) as I1.
  { split; [|done]. eapply refcounts_ext, R'. intros j. unfold add_one, held. cbn.
    case_decide; subst; lia. }
  destruct (insert_pending_ok _ _ ft pkt t I1) as (s1 & r & -> & I2 & Hr);
    [unfold add_one; rewrite decide_True by done; lia|unfold add_one; rewrite decide_True by done; lia|done|].
  rewrite bind_Ret. destruct r as [[]|[e p]].
  - destruct Hr as (_ & Et & Ep). by eexists _, (Issued t).
  - destruct Hr as (-> & -> & _ & _). cbn [txns table pending].
    destruct (drop_handle_ok _ _ t I1) as (m2 & -> & I3);
      [unfold add_one; rewrite decide_True by done; lia|].
    rewrite bind_Ret. eexists _, DroppedAwaitingBind. split_and!; [done|done|done|].
    eapply elt_inv_ext, I3. intros j. apply sub_add.
Qed.

(** ** Tethers of a docking session *)

Record World := mkWorld { sys : Sys; tasks : gmultiset Z (* handles of bind-request tasks *) }.

Definition init : World := mkWorld (mkSys TxnMgr.new ∅ ∅) ∅.

Inductive Op :=
| Request (ft : FiveTuple) (pkt : Packet) (peer_present ready : bool)
    (** a packet without a tether reaches the adapter manager *)
| SendDone (t : Z)      (** the bind request was acknowledged, or its link closed *)
| SendCanceled (t : Z)  (** the bind request ran out of retries *)
| BindSuccess (t tether : Z) (tc : Ip5TupleTc) (key : option (list Z))
| BindFailure (t : Z)   (** responses from the node, with any transaction identifier *)
| Withdraw (tether : Z) (** the node withdraws a stream identifier *)
| Clear.                (** the dock link goes down *)

Definition enabled (w : World) (op : Op) : Prop :=
  Z.of_nat (size (tasks w)) < 2 ^ 64 - 4 /\
  match op with SendDone t | SendCanceled t => t ∈ tasks w | _ => True end.

Definition with_txn {A} (s : Sys) (t : Z) (act : Sys -> outcome (Sys * A)) : outcome Sys :=
  match get (txns s) t with
  | None => mret s
  | Some m => '(s1, _) ← act (mkSys m (table s) (pending s)); drop_handle s1 t
  end.

(** A response whose transaction is looked up, handled and released. *)
Lemma with_txn_ok {A} s f t (act : Sys -> outcome (Sys * A)) (Q : gmap FiveTuple Entry -> Prop) :
  elt_inv s f -> Z.of_nat (f t) < 2 ^ 64 - 4 ->
  (forall s1 f1, elt_inv s1 f1 -> table s1 = table s -> pending s1 = pending s ->
     exists s2 r, act s1 = Ret (s2, r) /\ elt_inv s2 f1 /\ Q (table s2)) ->
  exists s', with_txn s t act = Ret s' /\ elt_inv s' f /\ (is_Some (pending s !! t) -> Q (table s')).
Proof.
  intros (R & C) Hb Hact. unfold with_txn. destruct (get (txns s) t) as [m|] eqn:E.
  - assert (Z.of_nat (f t + held s t) < 2 ^ 64) as Hb' by (unfold held; destruct (pending s !! t); lia).
    destruct (get_ok _ _ _ _ R Hb' E) as (_ & _ & R').
    destruct (Hact (mkSys m (table s) (pending s)) (add_one f t)) as (s1 & r & -> & I1 & HQ); [|done|done|].
    { split; [|done]. eapply refcounts_ext, R'. intros j. unfold add_one, held. cbn.
      case_decide; subst; lia. }
    destruct (drop_handle_ok _ _ t I1) as (m2 & E2 & I2);
      [unfold add_one; rewrite decide_True by done; lia|].
    rewrite bind_Ret. eexists. split_and!; [exact E2| |done].
    eapply elt_inv_ext, I2. intros j. apply sub_add.
  - exists s. split_and!; [done|done|]. intros [ft Hp]. unfold get in E.
    destruct (open (txns s) !! t) eqn:Eo; [done|].
    destruct R as [_ Ro]. rewrite Ro in Eo. unfold held in Eo. rewrite Hp in Eo.
    by rewrite Nat.add_comm in Eo.
Qed.

Definition exec (w : World) (op : Op) : outcome World :=
  let s := sys w in
  match op with
  | Request ft pkt up ready =>
      '(s1, r) ← do_request_tether_id is_v6_unicast_link_local s ft pkt up ready;
      mret (mkWorld s1 match r with Issued t => {[+ t +]} ⊎ tasks w | _ => tasks w end)
  | SendDone t => s1 ← drop_handle s t; mret (mkWorld s1 (tasks w ∖ {[+ t +]}))
  | SendCanceled t =>
      '(s1, _) ← deny_tether s t; s2 ← drop_handle s1 t; mret (mkWorld s2 (tasks w ∖ {[+ t +]}))
  | BindSuccess t tether tc key =>
      s1 ← with_txn s t (fun s => install_tether derive_key diffie_hellman s t tether tc key);
      mret (mkWorld s1 (tasks w))
  | BindFailure t => s1 ← with_txn s t (fun s => deny_tether s t); mret (mkWorld s1 (tasks w))
  | Withdraw tether => '(s1, _) ← remove_by_tether_id iter s tether; mret (mkWorld s1 (tasks w))
  | Clear => s1 ← clear iter s; mret (mkWorld s1 (tasks w))
  end.

Inductive reachable : World -> Prop :=
| reach_init : reachable init
| reach_step w op w' : reachable w -> enabled w op -> exec w op = Ret w' -> reachable w'.

Definition inv (w : World) : Prop := elt_inv (sys w) (mult (tasks w)).

Lemma drop_task_ok s (ts : gmultiset Z) t :
  elt_inv s (mult ts) -> t ∈ ts ->
  exists s', drop_handle s t = Ret s' /\ elt_inv s' (mult (ts ∖ {[+ t +]})).
Proof.
  intros I Hin. rewrite mult_pos in Hin. destruct (drop_handle_ok _ _ t I Hin) as (m & E & I').
  eexists. split; [exact E|]. eapply elt_inv_ext, I'. intros j. apply mult_sub.
Qed.

Lemma tether_exec_inv w op : inv w -> enabled w op -> exists w', exec w op = Ret w' /\ inv w'.
Proof.
  intros I [Hsz He]. unfold inv in *. unfold exec.
  destruct op as [ft pkt up ready|t|t|t tether tc key|t|tether|]; cbv zeta.
  - destruct (request_ok _ _ ft pkt up ready I) as (s1 & r & -> & Hr). rewrite bind_Ret.
    eexists. split; [done|]. cbn [sys tasks]. destruct r as [| | | | |t]; try apply Hr.
    eapply elt_inv_ext, Hr. intros j. apply mult_add.
  - destruct (drop_task_ok _ _ t I He) as (s1 & -> & I1). rewrite bind_Ret. by eexists.
  - destruct (deny_ok _ _ t I) as (s1 & r & -> & I1 & _). rewrite bind_Ret.
    destruct (drop_task_ok _ _ t I1 He) as (s2 & -> & I2). rewrite bind_Ret. by eexists.
  - pose proof (mult_size (tasks w) t).
    destruct (with_txn_ok (sys w) (mult (tasks w)) t
      (fun s => install_tether derive_key diffie_hellman s t tether tc key) (fun _ => True))
      as (s1 & -> & I1 & _); [done|lia| |rewrite bind_Ret; by eexists].
    intros s1 f1 I1 _ _. destruct (install_ok s1 f1 t tether tc key I1) as (s2 & r & ? & ? & _). eauto.
  - pose proof (mult_size (tasks w) t).
    destruct (with_txn_ok (sys w) (mult (tasks w)) t (fun s => deny_tether s t) (fun _ => True))
      as (s1 & -> & I1 & _); [done|lia| |rewrite bind_Ret; by eexists].
    intros s1 f1 I1 _ _. destruct (deny_ok s1 f1 t I1) as (s2 & r & ? & ? & _). eauto.
  - unfold remove_by_tether_id. destruct (List.find _ _) as [[ft e]|].
    + destruct (remove_and_drop_ok _ _ ft I) as (s1 & -> & I1 & _). rewrite !bind_Ret. by eexists.
    + unfold mret, outcome_ret. rewrite bind_Ret. by eexists.
  - destruct (remove_all_ok (fst <$> iter (table (sys w))) _ _ I) as (s1 & E & I1 & _).
    unfold clear. rewrite E, bind_Ret. by eexists.
Qed.

Lemma tether_reachable_inv w : reachable w -> inv w.
Proof.
  induction 1 as [|w op w' _ IH He Hx].
  - split; [split; [done|]|].
    + intros id. unfold mult, held. cbn. by rewrite multiplicity_empty.
    + intros t ft. cbn. rewrite !lookup_empty. split; [done|]. by intros (p & Hl).
  - destruct (tether_exec_inv w op IH He) as (w'' & Hx' & I). rewrite Hx in Hx'. by injection Hx' as <-.
Qed.

(** The tether the node grants. *)
Lemma bind_success_ok w t ft tether tc key :
  inv w -> Z.of_nat (size (tasks w)) < 2 ^ 64 - 4 ->
  pending (sys w) !! t = Some ft -> classify_5t tc ft = true ->
  exists w' pep, exec w (BindSuccess t tether tc key) = Ret w' /\
    table (sys w') !! ft = Some (Active pep) /\ tether_id pep = tether /\
    pep_compression_mode pep = compression_mode tc.
Proof.
  intros I Hsz Hp Hc. unfold exec. pose proof (mult_size (tasks w) t).
  set (pep := EltPep_new derive_key (compression_mode tc) tether (diffie_hellman <$> key)).
  destruct (with_txn_ok (sys w) (mult (tasks w)) t
      (fun s => install_tether derive_key diffie_hellman s t tether tc key)
      (fun tab => tab !! ft = Some (Active pep))) as (s1 & -> & I1 & HQ); [done|lia| |].
  { intros s1 f1 I1 _ Ep. destruct (install_ok s1 f1 t tether tc key I1) as (s2 & r & ? & ? & Hr).
    rewrite Ep, Hp, Hc in Hr. destruct Hr as (pkt & _ & _ & ?). eauto. }
  rewrite bind_Ret. eexists _, pep. split_and!; [done| |done|done]. apply HQ. by eexists.
Qed.

(** C18. Through a docking session, whatever packets ask for tethers, whatever
    responses, for known or unknown transactions, and withdrawals the node
    sends, and whenever the link is cleared: no step panics (not the "ELT
    consistency error" and "duplicate transaction" checks, not the reference
    counts); the pending index and the pending entries of the table match one to
    one; the transaction of a pending entry stays reserved; a grant that matches
    makes the entry active with the granted tether; clearing empties the table. *)
Theorem tethers_consistent w :
  (forall m, iter m ≡ₚ map_to_list m) ->
  reachable w ->
  (forall op, enabled w op -> exists w', exec w op = Ret w') /\
  consistent (sys w) /\
  (forall t ft, pending (sys w) !! t = Some ft -> is_Some (open (txns (sys w)) !! t)) /\
  (forall t ft tether tc key, enabled w (BindSuccess t tether tc key) ->
     pending (sys w) !! t = Some ft -> classify_5t tc ft = true ->
     exists w' pep, exec w (BindSuccess t tether tc key) = Ret w' /\
       table (sys w') !! ft = Some (Active pep) /\ tether_id pep = tether /\
       pep_compression_mode pep = compression_mode tc) /\
  (forall w', exec w Clear = Ret w' -> table (sys w') = ∅).
Proof.
  intros Hiter I%tether_reachable_inv. split_and!.
  - intros op He. destruct (tether_exec_inv w op I He) as (w' & ? & _). by exists w'.
  - apply I.
  - intros t ft Hp. destruct I as (R & _). eapply open_iff; [done|]. unfold held. rewrite Hp. lia.
  - intros t ft tether tc key [Hsz _] Hp Hc. by apply bind_success_ok.
  - intros w' Hx. unfold exec, clear in Hx.
    destruct (remove_all_ok (fst <$> iter (table (sys w))) _ _ I) as (s1 & E & _ & T).
    rewrite E, bind_Ret in Hx. injection Hx as <-. cbn. apply map_eq. intros ft. rewrite T, lookup_empty.
    case_decide as Hi; [done|]. destruct (table (sys w) !! ft) as [e|] eqn:Ht; [|done].
    destruct Hi. apply list_elem_of_fmap. exists (ft, e). split; [done|].
    rewrite (Hiter (table (sys w))). by apply elem_of_map_to_list.
Qed.

End props.

#[local] Existing Instance iana.

(** A first packet asks for a tether, and the node grants tether 7 to it. *)
Definition flow : FiveTuple :=
  mkFT (new_from_v4 [10; 0; 0; 1]) (new_from_v4 [10; 0; 0; 2]) Ipv4 TCP 8080 80.

Definition requested : @World (list Z) :=
  match exec id (fun _ => false) id map_to_list init (Request flow [1; 2; 3] true true) with
  | Ret w => w
  | Panic => init
  end.

Lemma requested_step :
  exec id (fun _ => false) id map_to_list init (Request flow [1; 2; 3] true true) = Ret requested.
Proof. vm_cast_no_check (@eq_refl (outcome World) (Ret requested)). Qed.

Lemma requested_reachable : reachable id (fun _ => false) id map_to_list requested.
Proof.
  eapply reach_step; [apply reach_init| |exact requested_step]. split; [vm_compute; reflexivity|exact I].
Qed.

Lemma requested_room : Z.of_nat (size (tasks requested)) < 2 ^ 64 - 4.
Proof. vm_compute. reflexivity. Qed.

Lemma requested_pending : pending (sys requested) !! 0 = Some flow.
Proof. vm_compute. reflexivity. Qed.

Lemma tethers_consistent_witness :
  exists w' pep,
    exec id (fun _ => false) id map_to_list requested (BindSuccess 0 7 (Tc.new flow) None) = Ret w' /\
    table (sys w') !! flow = Some (Active pep) /\ tether_id pep = 7 /\
    pep_compression_mode pep = compression_mode (Tc.new flow).
Proof.
  apply (tethers_consistent id (fun _ => false) id map_to_list requested).
  - intros m. reflexivity.
  - exact requested_reachable.
  - split; [exact requested_room|exact I].
  - exact requested_pending.
  - vm_compute. reflexivity.
Defined.

End AdapterTablesProps.
