(* ===== verification/Tlv.v ===== *)
(** * TLV encoding ([tlv.rs])

    Configuration values exchanged in hello and bind messages: writing an encoding
    to a buffer and parsing a buffer into a map from type to values.  Strings are
    their UTF-8 bytes. *)
From Stdlib Require Import ZArith Lia.
From stdpp Require Import base tactics option list numbers gmap.
From S2P Require Import Prelude.

Local Open Scope Z_scope.

Module Tlv.

Definition X25519_KEY_LEN : Z := 32.

Inductive TlvError := BadStructure | ValueTooLarge (n : Z).

(** [DataType]. *)
Definition NULL : Z := 0.
Definition POLICY_ID : Z := 1.
Definition VERSION : Z := 2.
Definition AAA : Z := 3.
Definition STATIC_ADDR : Z := 5.
Definition WINDOW_SIZE : Z := 6.
Definition A2A_DH_PUBKEY : Z := 7.
Definition BOOTSTRAP_VISA : Z := 8.
Definition OIDC_IDP : Z := 9.

(** [std::net::IpAddr], as its octets. *)
Inductive IpAddr := V4 (octets : list Z) | V6 (octets : list Z).

(** ** UTF-8, as [String::from_utf8_lossy] decodes it

    The length of the character at the front and whether it is valid; an invalid
    one is the longest prefix of a valid sequence, at least one byte. *)
Definition between (lo hi x : Z) : bool := (lo <=? x) && (x <=? hi).
Definition byte (l : list Z) (i : nat) : Z := default 0 (l !! i).
Definition cont (l : list Z) (i : nat) : bool := between 0x80 0xBF (byte l i).

(** The range of the second byte, for a first byte of a 3- or 4-byte sequence. *)
Definition second_ok (b0 b1 : Z) : bool :=
  if b0 =? 0xE0 then between 0xA0 0xBF b1
  else if b0 =? 0xED then between 0x80 0x9F b1
  else if b0 =? 0xF0 then between 0x90 0xBF b1
  else if b0 =? 0xF4 then between 0x80 0x8F b1
  else between 0x80 0xBF b1.

Definition front_char (l : list Z) : bool * nat :=
  let b0 := byte l 0 in
  if b0 <? 0x80 then (true, 1%nat)
  else if between 0xC2 0xDF b0 then if cont l 1 then (true, 2%nat) else (false, 1%nat)
  else if between 0xE0 0xEF b0 then
    if negb (second_ok b0 (byte l 1)) then (false, 1%nat)
    else if cont l 2 then (true, 3%nat) else (false, 2%nat)
  else if between 0xF0 0xF4 b0 then
    if negb (second_ok b0 (byte l 1)) then (false, 1%nat)
    else if negb (cont l 2) then (false, 2%nat)
    else if cont l 3 then (true, 4%nat) else (false, 3%nat)
  else (false, 1%nat).

Definition REPLACEMENT : list Z := [0xEF; 0xBF; 0xBD].

Fixpoint lossy (fuel : nat) (l : list Z) : list Z :=
  match fuel, l with
  | S fuel, _ :: _ =>
      let '(ok, n) := front_char l in
      (if ok then take n l else REPLACEMENT) ++ lossy fuel (drop n l)
  | _, _ => []
  end.
Definition from_utf8_lossy (l : list Z) : list Z := lossy (length l) l.

Fixpoint valid_upto (fuel : nat) (l : list Z) : bool :=
  match fuel, l with
  | S fuel, _ :: _ => let '(ok, n) := front_char l in ok && valid_upto fuel (drop n l)
  | _, [] => true
  | O, _ => false
  end.
Definition utf8_valid (l : list Z) : bool := valid_upto (length l) l.

Section tlv.
(** [zpr::vsapi_types::Visa], with its packed Cap'n Proto form. *)
Context {Visa : Type} (visa_message : Visa -> list Z) (read_visa : list Z -> option Visa).

Inductive TlvValue :=
| U16 (v : Z)
| I64 (v : Z)
| Str (v : list Z)
| Ipv6Addr (v : list Z)
| Ipv4Addr (v : list Z)
| X25519PubKey (v : list Z)
| VisaValue (v : Visa).

Record TlvEncoding := mkTlv { tlv_type : Z; value : TlvValue }.

(** ** Constructors *)

Definition new_policy_id (policy_id : Z) : TlvEncoding := mkTlv POLICY_ID (I64 policy_id).
Definition new_version (version : list Z) : TlvEncoding := mkTlv VERSION (Str version).
Definition address_value (ipa : IpAddr) : TlvValue :=
  match ipa with V4 a => Ipv4Addr a | V6 a => Ipv6Addr a end.
Definition new_aaa (ipa : IpAddr) : TlvEncoding := mkTlv AAA (address_value ipa).
Definition new_static_addr_std (ipa : IpAddr) : TlvEncoding := mkTlv STATIC_ADDR (address_value ipa).
Definition new_window_size (window_size : Z) : TlvEncoding := mkTlv WINDOW_SIZE (U16 window_size).
Definition new_a2a_dh_pubkey (pubkey : list Z) : TlvEncoding := mkTlv A2A_DH_PUBKEY (X25519PubKey pubkey).
Definition new_bootstrap_visa (visa : Visa) : TlvEncoding := mkTlv BOOTSTRAP_VISA (VisaValue visa).
(** [json] is the result of [serde_json::to_string]. *)
Definition new_oidc_idp (json : option (list Z)) : TlvEncoding + TlvError :=
  match json with
  | None => inr BadStructure
  | Some json => if 255 <? zlen json then inr (ValueTooLarge (zlen json))
                 else inl (mkTlv OIDC_IDP (Str json))
  end.

(** ** Writing *)

Definition put_u16 (ty v : Z) : list Z := [ty; 2] ++ be_bytes 2 v.
Definition put_i64 (ty v : Z) : list Z := [ty; 8] ++ be_bytes 8 (wrap 64 v).
Definition put_str (ty : Z) (v : list Z) : outcome (list Z) :=
  let strlen := if 255 <? zlen v then 255 else wrap 8 (zlen v) in
  xs ← slice v 0 strlen;
  mret ([ty; strlen] ++ xs).
Definition put_ipv6addr (ty : Z) (octets : list Z) : list Z := [ty; 16] ++ octets.
Definition put_ipv4addr (ty : Z) (octets : list Z) : list Z := [ty; 4] ++ octets.
Definition put_x25519_pubkey (ty : Z) (key : list Z) : list Z := [ty; X25519_KEY_LEN] ++ key.
Definition put_visa (ty : Z) (visa : Visa) : outcome (list Z) :=
  let msg_buf := visa_message visa in
  _ ← rust_assert (zlen msg_buf <=? 255);
  mret ([ty; wrap 8 (zlen msg_buf)] ++ msg_buf).

(** The bytes written. *)
Definition put (e : TlvEncoding) : outcome (list Z) :=
  match value e with
  | U16 v => mret (put_u16 (tlv_type e) v)
  | I64 v => mret (put_i64 (tlv_type e) v)
  | Str v => put_str (tlv_type e) v
  | Ipv6Addr v => mret (put_ipv6addr (tlv_type e) v)
  | Ipv4Addr v => mret (put_ipv4addr (tlv_type e) v)
  | X25519PubKey v => mret (put_x25519_pubkey (tlv_type e) v)
  | VisaValue v => put_visa (tlv_type e) v
  end.

Definition encoded_len (e : TlvEncoding) : outcome Z :=
  value_len ← match value e with
              | U16 _ => mret 2
              | I64 _ => mret 8
              | Str v => mret (Z.min (zlen v) 255)
              | Ipv6Addr _ => mret 16
              | Ipv4Addr _ => mret 4
              | X25519PubKey _ => mret X25519_KEY_LEN
              | VisaValue _ => Panic
              end;
  mret (2 + value_len).

(** ** Parsing *)

(** [buf.get_*] and [buf.copy_to_*], which panic at the end of the buffer. *)
Definition get_bytes (n : Z) (buf : list Z) : outcome (list Z * list Z) :=
  if zlen buf <? n then Panic else Ret (take (Z.to_nat n) buf, drop (Z.to_nat n) buf).
Definition get_u8 (buf : list Z) : outcome (Z * list Z) :=
  '(b, rest) ← get_bytes 1 buf; mret (byte b 0, rest).

Definition parse_address_value (buf : list Z) (tlv_length : Z)
    : outcome ((TlvValue * list Z) + TlvError) :=
  if zlen buf <? tlv_length then mret (inr BadStructure)
  else if tlv_length =? 4 then
    '(a, rest) ← get_bytes 4 buf; mret (inl (Ipv4Addr (be_bytes 4 (from_be a)), rest))
  else if tlv_length =? 16 then
    '(a, rest) ← get_bytes 16 buf; mret (inl (Ipv6Addr a, rest))
  else mret (inr BadStructure).

(** The [match] on the type: the value, if the type is known, and the rest. *)
Definition parse_value (ty len : Z) (buf : list Z)
    : outcome ((option TlvValue * list Z) + TlvError) :=
  if ty =? POLICY_ID then
    if negb (len =? 8) then mret (inr BadStructure)
    else '(v, rest) ← get_bytes 8 buf; mret (inl (Some (I64 (as_i64 (from_be v))), rest))
  else if (ty =? VERSION) || (ty =? OIDC_IDP) then
    '(v, rest) ← get_bytes len buf; mret (inl (Some (Str (from_utf8_lossy v)), rest))
  else if (ty =? AAA) || (ty =? STATIC_ADDR) then
    r ← parse_address_value buf len;
    match r with
    | inl (v, rest) => mret (inl (Some v, rest))
    | inr e => mret (inr e)
    end
  else if ty =? A2A_DH_PUBKEY then
    if negb (len =? X25519_KEY_LEN) then mret (inr BadStructure)
    else '(v, rest) ← get_bytes X25519_KEY_LEN buf; mret (inl (Some (X25519PubKey v), rest))
  else if ty =? WINDOW_SIZE then
    if negb (len =? 2) then mret (inr BadStructure)
    else '(v, rest) ← get_bytes 2 buf; mret (inl (Some (U16 (from_be v)), rest))
  else if ty =? BOOTSTRAP_VISA then
    '(v, rest) ← get_bytes len buf;
    match read_visa v with
    | Some visa => mret (inl (Some (VisaValue visa), rest))
    | None => mret (inr BadStructure)
    end
  else '(_, rest) ← get_bytes len buf; mret (inl (None, rest)).

(** [tlv_map.entry(ty).or_insert_with(Vec::new).push(v)]. *)
Definition push_value (m : gmap Z (list TlvValue)) (ty : Z) (v : TlvValue) : gmap Z (list TlvValue) :=
  <[ty := default [] (m !! ty) ++ [v]]> m.

Fixpoint parse_loop (fuel : nat) (buf : list Z) (tlv_map : gmap Z (list TlvValue))
    : outcome (gmap Z (list TlvValue) + TlvError) :=
  match fuel with
  | O => Panic
  | S fuel =>
      if negb (1 <=? zlen buf) then mret (inl tlv_map)
      else
        '(ty, buf1) ← get_u8 buf;
        if ty =? NULL then parse_loop fuel buf1 tlv_map
        else if zlen buf1 <? 1 then mret (inr BadStructure)
        else
          '(len, buf2) ← get_u8 buf1;
          if zlen buf2 <? len then mret (inr BadStructure)
          else
            r ← parse_value ty len buf2;
            match r with
            | inl (Some v, buf3) => parse_loop fuel buf3 (push_value tlv_map ty v)
            | inl (None, buf3) => parse_loop fuel buf3 tlv_map
            | inr e => mret (inr e)
            end
  end.

(** Every turn of the loop reads at least a byte. *)
Definition parse_from_buf (buf : list Z) : outcome (gmap Z (list TlvValue) + TlvError) :=
  parse_loop (S (length buf)) buf ∅.

End tlv.
End Tlv.
