(* ===== verification/TlvProps.v ===== *)
(** * Properties of the TLV encoding

    What is written is read back, strings cut to the 255 bytes that a length of one
    byte can tell, null bytes and unknown types in between skipped; only a visa
    whose message is longer cannot be written.  Parsing ends without a panic on
    every input. *)
From Stdlib Require Import ZArith Lia.
From stdpp Require Import base tactics option list numbers gmap.
From S2P Require Import Prelude Tlv.
Import Tlv.

Local Open Scope Z_scope.

Module TlvProps.

Lemma lossy_valid fuel : forall l, valid_upto fuel l = true -> lossy fuel l = l.
Proof.
  induction fuel as [|fuel IH]; intros [|b l] Hv; try done. cbn [lossy valid_upto] in *.
  destruct (front_char (b :: l)) as [ok n]. apply andb_true_iff in Hv as [-> Hv].
  rewrite IH by done. apply take_drop.
Qed.

Lemma get_bytes_app x rest n : zlen x = n -> get_bytes n (x ++ rest) = Ret (x, rest).
Proof.
  intros <-. unfold get_bytes. pose proof (zlen_nonneg rest).
  rewrite zlen_app, (proj2 (Z.ltb_ge _ _)) by lia.
  unfold zlen. by rewrite Nat2Z.id, take_app_length, drop_app_length.
Qed.

Lemma get_bytes_ret n buf x rest :
  get_bytes n buf = Ret (x, rest) -> 0 <= n -> zlen rest = zlen buf - n /\ buf = x ++ rest.
Proof.
  unfold get_bytes. destruct (Z.ltb_spec (zlen buf) n); [done|]. intros [= <- <-] Hn.
  split; [unfold zlen in *; rewrite length_drop; lia|by rewrite take_drop].
Qed.

Lemma get_u8_cons b rest : get_u8 (b :: rest) = Ret (b, rest).
Proof. unfold get_u8. by rewrite (get_bytes_app [b] rest). Qed.

Lemma zlen_be n x : zlen (be_bytes n x) = Z.of_nat n.
Proof. unfold zlen. by rewrite length_be_bytes. Qed.

Section props.
Context {Visa : Type} (visa_message : Visa -> list Z) (read_visa : list Z -> option Visa).

Notation TlvEncoding := (@TlvEncoding Visa).
Notation TlvValue := (@TlvValue Visa).

(** The values the Rust types admit, of any size. *)
Definition enc_ok (e : TlvEncoding) : Prop :=
  match value e with
  | U16 v => tlv_type e = WINDOW_SIZE /\ 0 <= v < 2 ^ 16
  | I64 v => tlv_type e = POLICY_ID /\ - 2 ^ 63 <= v < 2 ^ 63
  | Str v => (tlv_type e = VERSION \/ tlv_type e = OIDC_IDP) /\ utf8_valid v = true
  | Ipv6Addr v => (tlv_type e = AAA \/ tlv_type e = STATIC_ADDR) /\ length v = 16%nat
  | Ipv4Addr v => (tlv_type e = AAA \/ tlv_type e = STATIC_ADDR) /\ length v = 4%nat /\ bytes_ok v
  | X25519PubKey v => tlv_type e = A2A_DH_PUBKEY /\ length v = 32%nat
  | VisaValue v => tlv_type e = BOOTSTRAP_VISA
  end.

(** What a length of one byte can tell. *)
Definition short (e : TlvEncoding) : Prop := match value e with Str v => zlen v <= 255 | _ => True end.
Definition too_long (e : TlvEncoding) : Prop :=
  match value e with VisaValue v => 255 < zlen (visa_message v) | _ => False end.

(** What the other side gets: a string without what is beyond its first 255 bytes,
    a character that the cut splits replaced. *)
Definition received (v : TlvValue) : TlvValue :=
  match v with Str s => Str (from_utf8_lossy (take 255 s)) | _ => v end.

Lemma received_short e : enc_ok e -> short e -> received (value e) = value e.
Proof.
  unfold enc_ok, short. destruct (value e) as [v|v|v|v|v|v|v]; try done. cbn. intros [_ Hu] Hl.
  rewrite take_ge by (unfold zlen in Hl; lia). unfold from_utf8_lossy. by rewrite lossy_valid.
Qed.

Context (visa_back : forall v, read_visa (visa_message v) = Some v).

Lemma received_cut e : enc_ok e -> received (value e) <> value e ->
  exists s, value e = Str s /\ 255 < zlen s /\ received (value e) = Str (from_utf8_lossy (take 255 s)).
Proof.
  intros Hok Hne. destruct (value e) as [v|v|s|v|v|v|v] eqn:E; try done. exists s. split_and!; [done| |done].
  apply Z.nle_gt. intros Hl. apply Hne. rewrite <- E. apply received_short; [done|]. unfold short. by rewrite E.
Qed.

(** One encoding, written and then read: its type, its length and what is received. *)
Definition reads_back (e : TlvEncoding) : Prop :=
  exists len payload, put visa_message e = Ret (tlv_type e :: len :: payload) /\
    0 <= len /\ zlen payload = len /\ tlv_type e <> NULL /\
    ((forall v, value e <> VisaValue v) -> encoded_len e = Ret (2 + len)) /\
    forall rest, parse_value read_visa (tlv_type e) len (payload ++ rest) =
      Ret (inl (Some (received (value e)), rest)).

Lemma str_back ty v : enc_ok (mkTlv ty (Str v)) -> reads_back (mkTlv ty (Str v)).
Proof.
  intros (Ht & Hu). cbn in Ht. pose proof (zlen_nonneg v). set (x := take 255 v).
  assert (zlen x = Z.min (zlen v) 255) as Hx by (unfold x, zlen; rewrite length_take; lia).
  assert (put visa_message (mkTlv ty (Str v)) = Ret (ty :: zlen x :: x)) as Hput.
  { unfold put, put_str. cbn [value tlv_type]. destruct (Z.ltb_spec 255 (zlen v)).
    - unfold slice. rewrite (proj2 (Z.leb_le 255 _)), Hx, Z.min_r by lia. done.
    - rewrite wrap_small, slice_all by lia. unfold x in *. rewrite take_ge in * by (unfold zlen in *; lia). done. }
  exists (zlen x), x. split_and!; try done; [by apply zlen_nonneg|by destruct Ht as [-> | ->]| |].
  - intros _. cbn. by rewrite Hx.
  - intros rest. unfold parse_value. cbn [tlv_type value received].
    destruct Ht as [-> | ->]; cbn -[get_bytes]; by rewrite get_bytes_app.
Qed.

Lemma address_back ty v :
  enc_ok (mkTlv ty (Ipv6Addr v)) \/ enc_ok (mkTlv ty (Ipv4Addr v)) ->
  reads_back (mkTlv ty (if (length v =? 16)%nat then Ipv6Addr v else Ipv4Addr v)).
Proof.
  assert (forall n rest, zlen v = n -> (zlen (v ++ rest) <? n) = false) as Hroom.
  { intros n rest <-. apply Z.ltb_ge. rewrite zlen_app. pose proof (zlen_nonneg rest). lia. }
  intros [(Ht & Hl)|(Ht & Hl & Hb)]; cbn in Ht; rewrite Hl; cbn [Nat.eqb].
  - assert (zlen v = 16) as Z16 by (unfold zlen; lia).
    exists 16, v. split_and!; try done; [by destruct Ht as [-> | ->]|]. intros rest.
    unfold parse_value, parse_address_value. rewrite Hroom by done. cbn [tlv_type value].
    destruct Ht as [-> | ->]; cbn -[get_bytes]; by rewrite get_bytes_app.
  - assert (zlen v = 4) as Z4 by (unfold zlen; lia).
    exists 4, v. split_and!; try done; [by destruct Ht as [-> | ->]|]. intros rest.
    unfold parse_value, parse_address_value. rewrite Hroom by done. cbn [tlv_type value].
    pose proof (be_bytes_from_be v Hb) as Hbb. rewrite Hl in Hbb.
    destruct Ht as [-> | ->]; cbn -[get_bytes be_bytes from_be];
      rewrite get_bytes_app by done; rewrite bind_Ret, Hbb; done.
Qed.

Lemma put_parse e : enc_ok e -> ~ too_long e -> reads_back e.
Proof.
  intros Hok Hlong. revert Hok. destruct e as [ty [v|v|v|v|v|v|v]].
  - intros [Ht Hv]. cbn in Ht. subst ty. exists 2, (be_bytes 2 v). split_and!; try done. intros rest.
    unfold parse_value. cbn -[get_bytes be_bytes from_be].
    rewrite get_bytes_app by apply zlen_be. rewrite bind_Ret, from_be_be_bytes, Z.mod_small by (simpl; lia).
    done.
  - intros [Ht Hv]. cbn in Ht. subst ty. exists 8, (be_bytes 8 (wrap 64 v)). split_and!; try done.
    intros rest. unfold parse_value. cbn -[get_bytes be_bytes from_be as_i64 wrap].
    rewrite get_bytes_app by apply zlen_be. rewrite bind_Ret, from_be_be_bytes.
    change (2 ^ (8 * Z.of_nat 8)) with (2 ^ 64). fold (wrap 64 (wrap 64 v)).
    rewrite wrap_wrap, as_i64_wrap, as_i64_small by lia. done.
  - apply str_back.
  - intros Hok. pose proof (address_back ty v (or_introl Hok)) as R. destruct Hok as [_ Hl].
    by rewrite Hl in R.
  - intros Hok. pose proof (address_back ty v (or_intror Hok)) as R. destruct Hok as (_ & Hl & _).
    by rewrite Hl in R.
  - intros (Ht & Hl). cbn in Ht. subst ty. assert (zlen v = 32) as Z32 by (unfold zlen; lia).
    exists 32, v. split_and!; try done. intros rest.
    unfold parse_value. cbn -[get_bytes]. by rewrite get_bytes_app.
  - intros Ht. cbn in Ht. subst ty. pose proof (zlen_nonneg (visa_message v)). cbn in Hlong.
    exists (zlen (visa_message v)), (visa_message v). split_and!; try done.
    + unfold put, put_visa. cbn [value tlv_type]. rewrite (proj2 (Z.leb_le _ _)) by lia.
      cbn -[wrap]. by rewrite wrap_small by lia.
    + intros Hw. by destruct (Hw v).
    + intros rest. unfold parse_value. cbn -[get_bytes]. rewrite get_bytes_app by done.
      by rewrite bind_Ret, visa_back.
Qed.

(** ** A buffer of encodings *)

Inductive Item :=
| Null                            (** a null byte *)
| Known (e : TlvEncoding)
| Unknown (ty : Z) (v : list Z).  (** from a newer or older peer *)

Definition known_types : list Z :=
  [NULL; POLICY_ID; VERSION; AAA; STATIC_ADDR; WINDOW_SIZE; A2A_DH_PUBKEY; BOOTSTRAP_VISA; OIDC_IDP].

Definition item_ok (i : Item) : Prop :=
  match i with
  | Null => True
  | Known e => enc_ok e
  | Unknown ty v => ty ∉ known_types /\ zlen v <= 255
  end.

Definition wire (i : Item) : outcome (list Z) :=
  match i with
  | Null => mret [NULL]
  | Known e => put visa_message e
  | Unknown ty v => mret (ty :: zlen v :: v)
  end.

Definition collect (m : gmap Z (list TlvValue)) (i : Item) : gmap Z (list TlvValue) :=
  match i with Known e => push_value m (tlv_type e) (received (value e)) | _ => m end.

Fixpoint wire_all (items : list Item) : outcome (list Z) :=
  match items with
  | [] => mret []
  | i :: items => x ← wire i; y ← wire_all items; mret (x ++ y)
  end.

Lemma loop_entry fuel ty len payload rest m r :
  ty <> NULL -> 0 <= len -> zlen payload = len ->
  parse_value read_visa ty len (payload ++ rest) = Ret (inl (r, rest)) ->
  parse_loop read_visa (S fuel) ((ty :: len :: payload) ++ rest) m =
  parse_loop read_visa fuel rest (match r with Some v => push_value m ty v | None => m end).
Proof.
  intros Ht Hl Hp Hv. cbn [parse_loop app].
  assert (forall (a : Z) l, (1 <=? zlen (a :: l)) = true) as Hone
    by (intros; apply Z.leb_le; unfold zlen; cbn; lia).
  rewrite Hone. cbn [negb]. rewrite get_u8_cons, bind_Ret, (proj2 (Z.eqb_neq _ _) Ht).
  rewrite (proj2 (Z.ltb_ge _ _)) by (unfold zlen; cbn; lia).
  pose proof (zlen_nonneg rest).
  rewrite get_u8_cons, bind_Ret, (proj2 (Z.ltb_ge _ _)) by (rewrite zlen_app; lia).
  rewrite Hv, bind_Ret. by destruct r.
Qed.

Lemma put_too_long e : too_long e -> put visa_message e = Panic.
Proof.
  unfold too_long, put. destruct (value e) as [v|v|v|v|v|v|v]; try done. intros Hl.
  unfold put_visa. by rewrite (proj2 (Z.leb_gt _ _)).
Qed.

Lemma too_long_dec e : too_long e \/ ~ too_long e.
Proof. unfold too_long. destruct (value e); auto. lia. Qed.

Lemma loop_item i x rest fuel m :
  item_ok i -> wire i = Ret x ->
  parse_loop read_visa (S fuel) (x ++ rest) m = parse_loop read_visa fuel rest (collect m i).
Proof.
  intros Hok Hw. destruct i as [|e|ty v]; cbn in Hok, Hw.
  - injection Hw as <-. cbn [parse_loop app].
    rewrite (proj2 (Z.leb_le _ _)) by (unfold zlen; cbn; lia). cbn [negb].
    by rewrite get_u8_cons, bind_Ret.
  - destruct (too_long_dec e) as [Hl|Hl]; [by rewrite put_too_long in Hw|].
    destruct (put_parse e Hok Hl) as (len & payload & Hput & Hlen & Hz & Ht & _ & Hparse).
    rewrite Hput in Hw. injection Hw as <-.
    by rewrite (loop_entry fuel _ len payload rest m (Some (received (value e)))).
  - injection Hw as <-. destruct Hok as [Hty Hlen]. unfold known_types in Hty.
    rewrite !not_elem_of_cons in Hty. destruct Hty as (T0 & T1 & T2 & T3 & T5 & T6 & T7 & T8 & T9 & _).
    pose proof (zlen_nonneg v). rewrite (loop_entry fuel ty (zlen v) v rest m None); try done.
    unfold parse_value. rewrite !(proj2 (Z.eqb_neq ty _)) by done. cbn [orb].
    by rewrite get_bytes_app.
Qed.

Lemma loop_items items : forall fuel bytes m,
  Forall item_ok items -> wire_all items = Ret bytes -> (length items < fuel)%nat ->
  parse_loop read_visa fuel bytes m = Ret (inl (foldl collect m items)).
Proof.
  induction items as [|i items IH]; intros fuel bytes m Hok Hw Hf; (destruct fuel as [|fuel]; [lia|]).
  - by injection Hw as <-.
  - apply list.Forall_cons in Hok as [Hi Hok]. cbn [wire_all] in Hw.
    destruct (wire i) as [x|] eqn:Hx; [|done]. rewrite bind_Ret in Hw.
    destruct (wire_all items) as [y|] eqn:Hy; [|done]. injection Hw as <-.
    rewrite (loop_item i) by done. apply IH; [done|done|cbn in Hf; lia].
Qed.

(** An item is written unless it is a visa that is too long. *)
Definition item_too_long (i : Item) : Prop := match i with Known e => too_long e | _ => False end.

Lemma wire_ok i : item_ok i ->
  (item_too_long i /\ wire i = Panic) \/
  (~ item_too_long i /\ exists x, wire i = Ret x /\ (1 <= length x)%nat).
Proof.
  destruct i as [|e|ty v]; cbn.
  - right. split; [auto|]. eexists. split; [done|]. cbn. lia.
  - intros Hok. destruct (too_long_dec e) as [Hl|Hl]; [left; by rewrite put_too_long|]. right. split; [done|].
    destruct (put_parse e Hok Hl) as (len & p & -> & _). eexists. split; [done|]. cbn. lia.
  - right. split; [auto|]. eexists. split; [done|]. cbn. lia.
Qed.

Lemma wire_all_ok items :
  Forall item_ok items ->
  (Exists item_too_long items /\ wire_all items = Panic) \/
  (~ Exists item_too_long items /\
   exists bytes, wire_all items = Ret bytes /\ (length items <= length bytes)%nat).
Proof.
  induction 1 as [|i items Hi _ IH].
  - right. split; [by intros Hx%Exists_nil|by exists []].
  - cbn [wire_all]. destruct (wire_ok i Hi) as [[Hl ->]|(Hl & x & -> & Hx)]; [left; split; [by left|done]|].
    rewrite bind_Ret. destruct IH as [[Hl' ->]|(Hl' & y & -> & Hy)]; [left; split; [by right|done]|].
    right. split; [by intros [?|?]%Exists_cons|]. rewrite bind_Ret. eexists. split; [done|].
    rewrite length_app. cbn. lia.
Qed.

(** C29. Whatever sequence of encodings a peer writes, with null bytes and
    encodings of unknown types in between: writing panics exactly when one of them is a
    visa whose message is longer than 255 bytes; otherwise parsing the bytes returns
    exactly the known values, grouped by type in the order written, every value as it
    was written except strings of more than 255 bytes, of which the first 255 arrive
    (decoded lossily where the cut splits a character). *)
Theorem tlv_roundtrip items :
  Forall item_ok items ->
  (wire_all items = Panic <-> Exists item_too_long items) /\
  (forall bytes, wire_all items = Ret bytes ->
     parse_from_buf read_visa bytes = Ret (inl (foldl collect ∅ items))) /\
  (forall e, Known e ∈ items -> received (value e) <> value e ->
     exists s, value e = Str s /\ 255 < zlen s /\ received (value e) = Str (from_utf8_lossy (take 255 s))).
Proof.
  intros Hok. split; [|split].
  - destruct (wire_all_ok items Hok) as [[Hl Hw]|(Hl & bytes & Hw & _)]; by rewrite Hw.
  - intros bytes Hw. destruct (wire_all_ok items Hok) as [[_ Hp]|(_ & bytes' & Hw' & Hlen)]; [congruence|].
    unfold parse_from_buf. apply loop_items; [done|done|]. rewrite Hw in Hw'. injection Hw' as <-. lia.
  - intros e Hin. apply received_cut. rewrite list.Forall_forall in Hok. exact (Hok _ Hin).
Qed.

End props.

(** ** Totality *)
Section total.
Context {Visa : Type} (read_visa : list Z -> option Visa).

Lemma parse_value_total ty len buf :
  0 <= len <= zlen buf ->
  exists r, parse_value read_visa ty len buf = Ret r /\
    forall v rest, r = inl (v, rest) -> rest = drop (Z.to_nat len) buf.
Proof.
  intros Hl. unfold parse_value, parse_address_value, get_bytes, X25519_KEY_LEN.
  repeat first
    [ progress unfold mret, outcome_ret
    | rewrite bind_Ret
    | rewrite (proj2 (Z.ltb_ge (zlen buf) len)) by lia
    | match goal with
      | |- context [?x =? ?y] => destruct (Z.eqb_spec x y); subst; cbn [negb orb]
      | |- context [zlen buf <? ?n] => rewrite (proj2 (Z.ltb_ge (zlen buf) n)) by lia
      | |- context [match read_visa ?x with _ => _ end] => destruct (read_visa x)
      end ]; (eexists; split; [reflexivity|]; intros; by simplify_eq).
Qed.

(** Parsing ends on every buffer, within one turn of the loop per byte, with a
    map or an error: no input makes it panic. *)
Theorem parse_total buf :
  bytes_ok buf -> exists r, parse_from_buf read_visa buf = Ret r.
Proof.
  unfold parse_from_buf. generalize (∅ : gmap Z (list (@TlvValue Visa))).
  assert (forall fuel buf m, (length buf < fuel)%nat -> bytes_ok buf ->
    exists r, parse_loop read_visa fuel buf m = Ret r) as Hloop; [|by intros; apply Hloop; [lia|]].
  clear buf. induction fuel as [|fuel IH]; intros buf m Hf Hb; [lia|].
  destruct buf as [|ty buf]; [by eexists|]. apply list.Forall_cons in Hb as [_ Hb].
  cbn [parse_loop]. rewrite (proj2 (Z.leb_le _ _)) by (unfold zlen; cbn; lia). cbn [negb].
  rewrite get_u8_cons, bind_Ret. destruct (ty =? NULL); [apply IH; [cbn in Hf; lia|done]|].
  destruct buf as [|len buf]; [by eexists|]. apply list.Forall_cons in Hb as [Hlen Hb].
  rewrite (proj2 (Z.ltb_ge _ _)) by (unfold zlen; cbn; lia). rewrite get_u8_cons, bind_Ret.
  destruct (Z.ltb_spec (zlen buf) len) as [|Hle]; [by eexists|]. unfold is_byte in Hlen.
  destruct (parse_value_total ty len buf) as (r & -> & Hr); [lia|]. rewrite bind_Ret.
  destruct r as [[v rest]|e]; [|by eexists]. specialize (Hr v rest eq_refl). subst rest.
  destruct v; (apply IH; [rewrite length_drop; cbn in Hf; lia|by apply Forall_drop]).
Qed.

End total.

(** Visas by their own message, for concrete runs: a version of 300 bytes, which
    arrives cut. *)
Definition hello : list (@Item (list Z)) :=
  [Known (new_version (replicate 300 49)); Null; Unknown 4 [1; 2; 3];
   Known (new_window_size 32); Known (new_aaa (V4 [10; 0; 0; 7])); Known (new_policy_id (-5))].

Lemma tlv_roundtrip_witness :
  exists bytes, wire_all (fun v : list Z => v) hello = Ret bytes /\
    parse_from_buf Some bytes = Ret (inl (foldl collect ∅ hello)).
Proof.
  eexists. split; [vm_compute; reflexivity|].
  apply (tlv_roundtrip (fun v : list Z => v) Some (fun v => eq_refl) hello); [|vm_compute; reflexivity].
  repeat apply Forall_cons_2; try apply Forall_nil_2; unfold item_ok, enc_ok; cbn.
  - split; [left; reflexivity|reflexivity].
  - exact I.
  - split; [|vm_compute; discriminate]. apply (bool_decide_unpack (4 ∉ known_types)). vm_compute. exact I.
  - split; [reflexivity|lia].
  - split; [left; reflexivity|]. split; [reflexivity|]. repeat constructor; lia.
  - split; [reflexivity|lia].
Defined.

Lemma parse_total_witness :
  exists r, parse_from_buf (@Some (list Z)) [6; 2; 1] = Ret r.
Proof.
  apply (parse_total (@Some (list Z)) [6; 2; 1]). repeat constructor; lia.
Defined.

End TlvProps.
