(* ===== verification/AddressPool.v ===== *)
(** * The address pool ([address_pool.rs])

    Authentication addresses: a network prefix followed by a 40-bit identifier,
    probed for linearly from a random start. *)
From Stdlib Require Import ZArith Lia.
From stdpp Require Import base tactics option list numbers list_numbers gmap sets fin_sets.
From S2P Require Import Prelude.

Local Open Scope Z_scope.

Module AddressPool.

Definition MAX_AAA_ID : Z := 0xffffffffff.

Inductive AddressPoolError := InvalidAddress | InvalidPrefixLength.

(** The network's [addr()] as its eight segments, and the active identifiers. *)
Record AddressPool := mkPool { segments : list Z; prefix_len : Z; active : gset Z }.

Definition new (segs : list Z) (plen : Z) : AddressPool + AddressPoolError :=
  if 88 <? plen then inr InvalidPrefixLength else inl (mkPool segs plen ∅).

(** [while !self.active.insert(this_id) { this_id = (this_id + 1) % MAX_AAA_ID }]. *)
Fixpoint probe (fuel : nat) (act : gset Z) (this_id : Z) : option Z :=
  match fuel with
  | O => None
  | S fuel =>
      if bool_decide (this_id ∈ act)
      then probe fuel act (wrapping_add 64 this_id 1 mod MAX_AAA_ID)
      else Some this_id
  end.

Definition seg (segs : list Z) (i : nat) : Z := default 0 (segs !! i).

(** The octets of the address with a given identifier. *)
Definition address (segs : list Z) (this_id : Z) : list Z :=
  concat (be_bytes 2 <$>
    (take 5 segs ++
     [Z.lor (Z.land (seg segs 5) 0xFF00) (wrap 16 (Z.land (Z.shiftr this_id 32) 0xff));
      wrap 16 (Z.shiftr this_id 16); wrap 16 (Z.land this_id 0xFFFF)])).

(** [buf] holds the bytes of the random number generator; [None] is a loop that
    does not end. *)
Definition get_aaa_address (p : AddressPool) (buf : list Z) : option (AddressPool * list Z) :=
  let start := Z.land (from_be buf) MAX_AAA_ID in
  this_id ← probe (S (size (active p))) (active p) start;
  Some (mkPool (segments p) (prefix_len p) ({[this_id]} ∪ active p), address (segments p) this_id).

Definition len (p : AddressPool) : Z := Z.of_nat (size (active p)).

Definition octet (a : list Z) (i : nat) : Z := default 0 (a !! i).

Definition address_id (a : list Z) : Z :=
  from_be [0; 0; 0; octet a 11; octet a 12; octet a 13; octet a 14; octet a 15].

Definition release_address (p : AddressPool) (a : list Z) : AddressPool + AddressPoolError :=
  if negb (octet a 6 =? 0x0a) || negb (octet a 7 =? 0xaa) then inr InvalidAddress
  else inl (mkPool (segments p) (prefix_len p) (active p ∖ {[address_id a]})).

(** ** Probing ends *)

(** The identifier looked at in the [k]-th turn. *)
Definition visit (start : Z) (k : Z) : Z := if k =? 0 then start else (start + k) mod MAX_AAA_ID.

Lemma visit_next start k :
  0 <= start <= MAX_AAA_ID -> 0 <= k -> start + k < 2 ^ 63 ->
  visit (wrapping_add 64 start 1 mod MAX_AAA_ID) k = visit start (k + 1).
Proof.
  unfold MAX_AAA_ID. intros Hs Hk Hb. unfold visit, wrapping_add. rewrite wrap_small by lia.
  rewrite (proj2 (Z.eqb_neq (k + 1) 0)) by lia. unfold MAX_AAA_ID. destruct (Z.eqb_spec k 0) as [-> |].
  - by rewrite Z.add_0_l.
  - rewrite Zplus_mod_idemp_l. f_equal. lia.
Qed.

Lemma probe_none n : forall act start,
  0 <= start <= MAX_AAA_ID -> Z.of_nat n < 2 ^ 62 -> probe n act start = None ->
  forall k, 0 <= k < Z.of_nat n -> visit start k ∈ act.
Proof.
  induction n as [|n IH]; intros act start Hs Hn Hp k Hk; [lia|]. cbn [probe] in Hp.
  case_bool_decide as Hin; [|done]. destruct (decide (k = 0)) as [-> |Hk0]; [done|].
  replace k with ((k - 1) + 1) by lia. unfold MAX_AAA_ID in Hs.
  rewrite <- visit_next by (unfold MAX_AAA_ID; lia).
  apply IH; [|lia|done|lia]. unfold MAX_AAA_ID.
  pose proof (Z.mod_pos_bound (wrapping_add 64 start 1) 0xffffffffff). lia.
Qed.

Lemma visit_inj start i j :
  0 <= start <= MAX_AAA_ID -> 0 <= i < MAX_AAA_ID -> 0 <= j < MAX_AAA_ID ->
  visit start i = visit start j -> i = j.
Proof.
  unfold visit, MAX_AAA_ID. intros Hs Hi Hj.
  destruct (Z.eqb_spec i 0) as [-> |], (Z.eqb_spec j 0) as [-> |]; intros E;
    Z.to_euclidean_division_equations; lia.
Qed.

Lemma probe_some act start :
  0 <= start <= MAX_AAA_ID -> Z.of_nat (size act) < MAX_AAA_ID ->
  exists id, probe (S (size act)) act start = Some id.
Proof.
  intros Hs Hsz. destruct (probe _ act start) as [id|] eqn:Hp; [by exists id|]. exfalso.
  assert (Z.of_nat (S (size act)) < 2 ^ 62) as Hn by (unfold MAX_AAA_ID in Hsz; lia).
  pose proof (probe_none _ _ _ Hs Hn Hp) as Hin.
  set (visits := visit start <$> seqZ 0 (Z.of_nat (S (size act)))).
  assert (NoDup visits) as Hnd.
  { apply NoDup_fmap_2_strong; [|apply NoDup_seqZ]. intros i j Hi%elem_of_seqZ Hj%elem_of_seqZ E.
    eapply visit_inj; [done|lia|lia|done]. }
  assert ((list_to_set visits : gset Z) ⊆ act) as Hsub.
  { intros x Hx%elem_of_list_to_set. apply list_elem_of_fmap in Hx as (k & -> & Hk%elem_of_seqZ).
    apply Hin. lia. }
  apply subseteq_size in Hsub. rewrite size_list_to_set in Hsub by done.
  unfold visits in Hsub. rewrite length_fmap, length_seqZ in Hsub. lia.
Qed.

Lemma probe_fresh n : forall act start id,
  0 <= start <= MAX_AAA_ID -> probe n act start = Some id -> id ∉ act /\ 0 <= id <= MAX_AAA_ID.
Proof.
  induction n as [|n IH]; intros act start id Hs Hp; [done|]. cbn [probe] in Hp.
  case_bool_decide; [|by simplify_eq]. eapply IH, Hp. unfold MAX_AAA_ID.
  pose proof (Z.mod_pos_bound (wrapping_add 64 start 1) 0xffffffffff). lia.
Qed.

(** ** Addresses *)

Definition net_ok (segs : list Z) : Prop := length segs = 8%nat /\ Forall (fun x => 0 <= x < 2 ^ 16) segs.

Lemma low_byte a x : 0 <= x < 256 -> Z.lor (Z.land a 0xFF00) x mod 256 = x.
Proof.
  intros Hx. change 256 with (2 ^ 8). rewrite <- Z.land_ones, Z.land_lor_distr_l, <- Z.land_assoc by lia.
  change (Z.land 0xFF00 (Z.ones 8)) with 0. rewrite Z.land_0_r, Z.lor_0_l, Z.land_ones by lia.
  by apply Z.mod_small.
Qed.

Lemma high_byte a x : 0 <= a < 2 ^ 16 -> 0 <= x < 256 -> Z.lor (Z.land a 0xFF00) x / 256 mod 256 = a / 256.
Proof.
  intros Ha Hx. change 256 with (2 ^ 8) at 1. rewrite <- Z.shiftr_div_pow2, Z.shiftr_lor, Z.shiftr_land by lia.
  change (Z.shiftr 0xFF00 8) with (Z.ones 8). rewrite (Z.shiftr_div_pow2 x), (Z.div_small x) by lia.
  rewrite Z.lor_0_r, Z.land_ones, Z.shiftr_div_pow2, Zmod_mod by lia. change (2 ^ 8) with 256.
  apply Z.mod_small. split; [apply Z.div_pos; lia|apply Z.div_lt_upper_bound; lia].
Qed.

(** An address is the network's first 88 bits and the identifier. *)
Lemma address_parts segs id :
  net_ok segs -> 0 <= id <= MAX_AAA_ID ->
  exists low, address segs id = take 11 (concat (be_bytes 2 <$> segs)) ++ low /\
    length low = 5%nat /\ address_id (address segs id) = id.
Proof.
  intros [Hl Hs] Hid. unfold MAX_AAA_ID in Hid.
  destruct segs as [|s0 [|s1 [|s2 [|s3 [|s4 [|s5 [|s6 [|s7 [|]]]]]]]]]; try done. clear Hl.
  rewrite !list.Forall_cons in Hs. destruct Hs as (_ & _ & _ & _ & _ & H5 & _).
  set (x := wrap 16 (Z.land (Z.shiftr id 32) 0xff)).
  assert (x = id / 2 ^ 32 /\ 0 <= x < 256) as [Ex Hx].
  { unfold x. change 0xff with (Z.ones 8). rewrite Z.land_ones, Z.shiftr_div_pow2 by lia.
    assert (0 <= id / 2 ^ 32 < 256) by (split; [apply Z.div_pos; lia|apply Z.div_lt_upper_bound; lia]).
    rewrite Z.mod_small, wrap_small by lia. done. }
  pose proof (high_byte s5 x H5 Hx) as Hhi. pose proof (low_byte s5 x Hx) as Hlo.
  exists ([x] ++ be_bytes 2 (wrap 16 (Z.shiftr id 16)) ++ be_bytes 2 (wrap 16 (Z.land id 0xFFFF))).
  split_and!; [|done|].
  - unfold address, seg. cbn -[Z.div Z.modulo Z.lor Z.land wrap]. fold x.
    rewrite Hhi, Hlo. change (s5 / 256 mod 256) with ((s5 / 256) mod 256).
    rewrite (Z.mod_small (s5 / 256) 256); [done|].
    split; [apply Z.div_pos; lia|apply Z.div_lt_upper_bound; lia].
  - unfold address_id, address, seg, octet. cbn -[Z.div Z.modulo Z.lor Z.land wrap from_be]. fold x.
    rewrite Hlo, Ex. unfold wrap. change 0xFFFF with (Z.ones 16).
    rewrite Z.shiftr_div_pow2, Z.land_ones by lia. unfold from_be. cbn [foldl].
    Z.to_euclidean_division_equations; lia.
Qed.

Lemma address_seg3 segs id :
  net_ok segs ->
  let a := address segs id in
  (octet a 6 = 0x0a /\ octet a 7 = 0xaa) <-> seg segs 3 = 0x0aaa.
Proof.
  intros [Hl Hs]. destruct segs as [|s0 [|s1 [|s2 [|s3 [|s4 [|s5 [|s6 [|s7 [|]]]]]]]]]; try done.
  rewrite !list.Forall_cons in Hs. destruct Hs as (_ & _ & _ & H3 & _).
  unfold address, seg, octet. cbn -[Z.div Z.modulo Z.lor Z.land wrap].
  split; intros; Z.to_euclidean_division_equations; lia.
Qed.

(** While fewer than 2^40 - 1 addresses are out, [get_aaa_address] ends,
    whatever the random bytes: it returns an address inside the network whose
    identifier was not active, and marks it active.  Releasing the address
    restores the pool exactly when the network is an 0aaa network; addresses of
    any other network are refused and stay active for ever. *)
Theorem pool_roundtrip p buf :
  net_ok (segments p) -> len p < MAX_AAA_ID ->
  exists p' a,
    get_aaa_address p buf = Some (p', a) /\
    address_id a ∉ active p /\ active p' = {[address_id a]} ∪ active p /\ len p' = len p + 1 /\
    take 11 a = take 11 (concat (be_bytes 2 <$> segments p)) /\
    release_address p' a =
      (if seg (segments p) 3 =? 0x0aaa then inl p else inr InvalidAddress).
Proof.
  intros Hnet Hlen. unfold get_aaa_address, len in *.
  assert (0 <= Z.land (from_be buf) MAX_AAA_ID <= MAX_AAA_ID) as Hstart.
  { change MAX_AAA_ID with (Z.ones 40) at 1 2. rewrite Z.land_ones by lia. unfold MAX_AAA_ID.
    pose proof (Z.mod_pos_bound (from_be buf) (2 ^ 40)). lia. }
  destruct (probe_some (active p) _ Hstart Hlen) as [id Hp]. rewrite Hp.
  destruct (probe_fresh _ _ _ _ Hstart Hp) as [Hfresh Hid].
  destruct (address_parts (segments p) id Hnet Hid) as (low & Ea & Hlow & Eid).
  eexists _, _. split; [reflexivity|]. cbn [active segments prefix_len]. rewrite Eid. split_and!.
  - done.
  - done.
  - rewrite size_union, size_singleton by set_solver. lia.
  - rewrite Ea. rewrite take_app_length'; [done|].
    destruct Hnet as [Hl _]. destruct (segments p) as [|s0 [|s1 [|s2 [|s3 [|s4 [|s5 r]]]]]]; try done.
  - unfold release_address. cbn [active segments prefix_len]. rewrite Eid.
    pose proof (address_seg3 (segments p) id Hnet) as H3. cbn zeta in H3.
    destruct (Z.eqb_spec (seg (segments p) 3) 0x0aaa) as [E|E].
    + apply H3 in E as [-> ->]. cbn. f_equal. destruct p as [sg pl act]. cbn in *. f_equal. set_solver.
    + destruct (Z.eqb_spec (octet (address (segments p) id) 6) 0x0a),
        (Z.eqb_spec (octet (address (segments p) id) 7) 0xaa); try done. by destruct E; apply H3.
Qed.

(** fd5a:5052:0:aaa:1234:5600::/88 with identifier 0x27 active. *)
Definition witness_pool : AddressPool :=
  mkPool [0xfd5a; 0x5052; 0; 0x0aaa; 0x1234; 0x5600; 0; 0] 88 {[0x27]}.

Lemma pool_roundtrip_witness :
  exists p' a,
    get_aaa_address witness_pool [0; 0; 0; 0; 0; 0; 0; 0x27] = Some (p', a) /\
    address_id a ∉ active witness_pool /\ active p' = {[address_id a]} ∪ active witness_pool /\
    len p' = len witness_pool + 1 /\
    take 11 a = take 11 (concat (be_bytes 2 <$> segments witness_pool)) /\
    release_address p' a = inl witness_pool.
Proof.
  apply (pool_roundtrip witness_pool [0; 0; 0; 0; 0; 0; 0; 0x27]).
  - split; [reflexivity|]. repeat constructor; lia.
  - vm_compute. reflexivity.
Defined.

End AddressPool.
