(* ===== verification/Slab.v ===== *)
(** * Slabs

    The forwarding tables, the dock lookup table and the peer table keep their
    entries in an [RcuCslab] of the [cslab] crate: a table of fixed capacity that
    picks the key of an inserted entry itself.  The crate is an interface here, a
    class of operations with the behaviour its users rely on; the tables and their
    theorems are stated against it.  [FirstFit] is an instance. *)
From Stdlib Require Import ZArith Lia.
From stdpp Require Import base tactics option list numbers gmap fin_maps.
From S2P Require Import Prelude.

Local Open Scope Z_scope.

(** [slab_set] is not an operation of the crate: entries have interior mutability,
    and changing one through a shared reference leaves keys as they are. *)
Class SlabOps (slab : Type -> Type) := {
  with_fixed_capacity : forall {A}, Z -> slab A;
  vacant_key : forall {A}, slab A -> option Z;
  slab_insert : forall {A}, slab A -> A -> option (Z * slab A);
  slab_get : forall {A}, slab A -> Z -> option A;
  slab_remove : forall {A}, slab A -> Z -> outcome (slab A);
  slab_iter : forall {A}, slab A -> list (Z * A);
  slab_set : forall {A}, slab A -> Z -> A -> slab A;
  slab_capacity : forall {A}, slab A -> Z
}.

Class Slab (slab : Type -> Type) `{SlabOps slab} := {
  get_new : forall A cap k, slab_get (A:=A) (with_fixed_capacity cap) k = None;
  capacity_new : forall A cap, slab_capacity (A:=A) (with_fixed_capacity cap) = cap;
  (** A vacant key is inside the capacity and has no entry; [insert] uses it. *)
  vacant_key_free : forall A (s : slab A) k,
    vacant_key s = Some k -> 0 <= k < slab_capacity s /\ slab_get s k = None;
  insert_spec : forall A (s : slab A) a,
    match slab_insert s a with
    | Some (k, s') =>
        vacant_key s = Some k /\ slab_capacity s' = slab_capacity s /\
        forall j, slab_get s' j = if decide (j = k) then Some a else slab_get s j
    | None => vacant_key s = None
    end;
  (** Removing an empty slot panics. *)
  remove_spec : forall A (s : slab A) k,
    match slab_remove s k with
    | Ret s' =>
        is_Some (slab_get s k) /\ slab_capacity s' = slab_capacity s /\
        forall j, slab_get s' j = if decide (j = k) then None else slab_get s j
    | Panic => slab_get s k = None
    end;
  set_spec : forall A (s : slab A) k a,
    is_Some (slab_get s k) ->
    slab_capacity (slab_set s k a) = slab_capacity s /\
    forall j, slab_get (slab_set s k a) j = if decide (j = k) then Some a else slab_get s j;
  iter_spec : forall A (s : slab A) k a, (k, a) ∈ slab_iter s <-> slab_get s k = Some a;
  iter_keys : forall A (s : slab A), NoDup (fst <$> slab_iter s)
}.

(** ** Consequences the tables use *)
Section laws.
Context `{Slab slab} {A : Type}.
Implicit Types (s : slab A) (k j : Z) (a : A).

Lemma insert_vacant s k a :
  vacant_key s = Some k ->
  exists s', slab_insert s a = Some (k, s') /\ slab_capacity s' = slab_capacity s /\
    forall j, slab_get s' j = if decide (j = k) then Some a else slab_get s j.
Proof.
  intros Hk. pose proof (insert_spec A s a) as Hi. destruct (slab_insert s a) as [[k' s']|].
  - destruct Hi as (Hk' & Hc & Hg). rewrite Hk in Hk'. simplify_eq. eauto.
  - congruence.
Qed.

Lemma insert_full s a : vacant_key s = None -> slab_insert s a = None.
Proof.
  intros Hk. pose proof (insert_spec A s a) as Hi.
  destruct (slab_insert s a) as [[k' s']|]; [|done]. destruct Hi. congruence.
Qed.

Lemma remove_present s k :
  is_Some (slab_get s k) ->
  exists s', slab_remove s k = Ret s' /\ slab_capacity s' = slab_capacity s /\
    forall j, slab_get s' j = if decide (j = k) then None else slab_get s j.
Proof.
  intros [a Ha]. pose proof (remove_spec A s k) as Hr. destruct (slab_remove s k) as [s'|].
  - destruct Hr as (_ & ? & ?). eauto.
  - congruence.
Qed.

Lemma remove_absent s k : slab_get s k = None -> slab_remove s k = Panic.
Proof.
  intros Hn. pose proof (remove_spec A s k) as Hr. destruct (slab_remove s k) as [s'|]; [|done].
  destruct Hr as ([? ?] & _). congruence.
Qed.

Lemma remove_ret s k s' :
  slab_remove s k = Ret s' ->
  is_Some (slab_get s k) /\ slab_capacity s' = slab_capacity s /\
  forall j, slab_get s' j = if decide (j = k) then None else slab_get s j.
Proof. intros Hr. pose proof (remove_spec A s k) as Hs. by rewrite Hr in Hs. Qed.

Lemma get_set s k a j :
  is_Some (slab_get s k) ->
  slab_get (slab_set s k a) j = if decide (j = k) then Some a else slab_get s j.
Proof. intros Hk. by apply set_spec. Qed.

End laws.

(** ** An instance: the least free key *)
Module FirstFit.

Record table (A : Type) := mkTable { cap : Z; entries : gmap Z A }.
Arguments mkTable {A}. Arguments cap {A}. Arguments entries {A}.

Fixpoint first_free {A} (fuel : nat) (m : gmap Z A) (k : Z) : option Z :=
  match fuel with
  | O => None
  | S fuel => match m !! k with None => Some k | Some _ => first_free fuel m (k + 1) end
  end.

#[global] Instance ops : SlabOps table := {
  with_fixed_capacity A c := mkTable c ∅;
  vacant_key A t := first_free (Z.to_nat (cap t)) (entries t) 0;
  slab_insert A t a :=
    k ← first_free (Z.to_nat (cap t)) (entries t) 0;
    Some (k, mkTable (cap t) (<[k := a]> (entries t)));
  slab_get A t k := entries t !! k;
  slab_remove A t k :=
    match entries t !! k with
    | Some _ => Ret (mkTable (cap t) (delete k (entries t)))
    | None => Panic
    end;
  slab_iter A t := map_to_list (entries t);
  slab_set A t k a := mkTable (cap t) (<[k := a]> (entries t));
  slab_capacity A t := cap t
}.

Lemma first_free_spec {A} fuel (m : gmap Z A) k0 k :
  first_free fuel m k0 = Some k -> k0 <= k < k0 + Z.of_nat fuel /\ m !! k = None.
Proof.
  revert k0. induction fuel as [|fuel IH]; intros k0; simpl; [done|].
  destruct (m !! k0) eqn:E; [|intros [= ->]; split; [lia|done]].
  intros Hf. apply IH in Hf as [? ?]. split; [lia|done].
Qed.

Lemma get_insert_if {A} (m : gmap Z A) k a j :
  <[k := a]> m !! j = if decide (j = k) then Some a else m !! j.
Proof. destruct (decide (j = k)) as [-> |]; [apply lookup_insert_eq|by apply lookup_insert_ne]. Qed.

Lemma get_delete_if {A} (m : gmap Z A) k j :
  delete k m !! j = if decide (j = k) then None else m !! j.
Proof. destruct (decide (j = k)) as [-> |]; [apply lookup_delete_eq|by apply lookup_delete_ne]. Qed.

#[global] Instance slab : Slab table.
Proof.
  split; cbn.
  - intros A c k. apply lookup_empty.
  - done.
  - intros A s k Hk. apply first_free_spec in Hk as [? ?]. split; [lia|done].
  - intros A s a. destruct (first_free _ _ _) as [k|]; cbn; [|done].
    split_and!; [done|done|apply get_insert_if].
  - intros A s k. destruct (entries s !! k) eqn:E; cbn; [|done].
    split_and!; [by eauto|done|apply get_delete_if].
  - intros A s k a _. split; [done|apply get_insert_if].
  - intros A s k a. apply elem_of_map_to_list.
  - intros A s. apply NoDup_fst_map_to_list.
Qed.

End FirstFit.
