(* ===== verification/ForwardingTables.v ===== *)
(** * Tables indexed by stream identifiers

    The peer forwarding table ([forwarding_tables.rs]) and the dock lookup table
    ([adapter_tables.rs]): slabs whose keys, plus one, are the stream (tether)
    identifiers of the wire. *)
From Stdlib Require Import ZArith Lia.
From stdpp Require Import base tactics option list numbers gmap.
From S2P Require Import Prelude Slab NetDefs Tc.
Import Tc.

Local Open Scope Z_scope.

Module ForwardingTables.

Definition PEER_FORWARDING_TABLE_SIZE : Z := Z.shiftl 1 20.
Definition DOCK_LOOKUP_TABLE_SIZE : Z := Z.shiftl 1 20.

(** [ForwardingEntry(link, stream)]. *)
Record ForwardingEntry := FE { fe_link : Z; fe_stream : Z }.

#[export] Instance ForwardingEntry_eq_dec : EqDecision ForwardingEntry.
Proof. solve_decision. Defined.

Record PftPep := mkPftPep { next_hop : ForwardingEntry; pep_visa_id : Z }.

Record DltPep := mkDltPep {
  dlt_tc : Ip5TupleTc;
  dlt_shared_secret : option (list Z);
  dlt_micv_key : option (list Z)
}.

(** ** Identifiers and slots *)

(** [(id as usize).wrapping_sub(1)] and [(key + 1) as StreamId]. *)
Definition slot (id : Z) : Z := wrapping_sub 64 id 1.
Definition stream_of (key : Z) : Z := wrap 32 (wrapping_add 64 key 1).

Section tables.
Context `{SlabOps slab}.

(** ** The peer forwarding table *)

Definition PeerForwardingTable : Type := slab PftPep.

Definition pft_new : PeerForwardingTable := with_fixed_capacity PEER_FORWARDING_TABLE_SIZE.
Definition pft_get (t : PeerForwardingTable) (tether_id : Z) : option PftPep :=
  slab_get t (slot tether_id).
(** [vacant_entry]: whether there is an entry to reserve; it holds the lock. *)
Definition pft_vacant_entry (t : PeerForwardingTable) : bool :=
  match vacant_key t with Some _ => true | None => false end.
Definition vacant_pft_key (t : PeerForwardingTable) : outcome Z :=
  stream_of <$> unwrap (vacant_key t).
Definition vacant_pft_insert (t : PeerForwardingTable) (pep : PftPep)
    : outcome (Z * PeerForwardingTable) :=
  '(k, t') ← unwrap (slab_insert t pep); mret (stream_of k, t').
Definition pft_insert (t : PeerForwardingTable) (pep : PftPep)
    : outcome (option (Z * PeerForwardingTable)) :=
  if pft_vacant_entry t then Some <$> vacant_pft_insert t pep else mret None.
Definition pft_remove (t : PeerForwardingTable) (tether_id : Z) : outcome PeerForwardingTable :=
  slab_remove t (slot tether_id).
Definition pft_len (t : PeerForwardingTable) : Z := zlen (slab_iter t).
(** [clear] has no body yet. *)
Definition pft_clear (t : PeerForwardingTable) : PeerForwardingTable := t.

(** ** The dock lookup table *)

Definition DockLookupTable : Type := slab DltPep.

(** [DltPep::new] over [blake3::derive_key]. *)
Definition DltPep_new (derive_key : list Z -> list Z) (tc : Ip5TupleTc) (secret : option (list Z))
    : DltPep :=
  mkDltPep tc secret (derive_key <$> secret).

Definition dlt_new : DockLookupTable := with_fixed_capacity DOCK_LOOKUP_TABLE_SIZE.
Definition dlt_get (t : DockLookupTable) (tether_id : Z) : option DltPep :=
  slab_get t (slot tether_id).
Definition dlt_insert (t : DockLookupTable) (pep : DltPep) : option (Z * DockLookupTable) :=
  '(k, t') ← slab_insert t pep; Some (stream_of k, t').
Definition dlt_remove (t : DockLookupTable) (tether_id : Z) : outcome DockLookupTable :=
  match slab_get t (slot tether_id) with
  | None => mret t
  | Some _ => slab_remove t (slot tether_id)
  end.
(** [mark_removed] for each of the indices collected first. *)
Fixpoint mark_removed_all {A} (t : slab A) (indices : list Z) : outcome (slab A) :=
  match indices with
  | [] => mret t
  | i :: r => t' ← slab_remove t i; mark_removed_all t' r
  end.
Definition dlt_clear (t : DockLookupTable) : outcome DockLookupTable :=
  mark_removed_all t (fst <$> slab_iter t).

End tables.
Arguments PeerForwardingTable slab : clear implicits.
Arguments DockLookupTable slab : clear implicits.

(** ** Identifiers and slots correspond *)

Lemma slot_stream_of k : 0 <= k < 2 ^ 32 - 1 -> slot (stream_of k) = k.
Proof.
  intros Hk. unfold slot, stream_of, wrapping_sub, wrapping_add.
  rewrite (wrap_small 64 (k + 1)), (wrap_small 32), wrap_small by lia. lia.
Qed.

Lemma stream_of_small k : 0 <= k < 2 ^ 32 - 1 -> stream_of k = k + 1.
Proof.
  intros Hk. unfold stream_of, wrapping_add. rewrite (wrap_small 64 (k + 1)), wrap_small by lia. lia.
Qed.

Lemma slot_inj i j : 0 <= i < 2 ^ 32 -> 0 <= j < 2 ^ 32 -> slot i = slot j -> i = j.
Proof.
  intros Hi Hj E. unfold slot, wrapping_sub in E. apply wrap_inj_near in E; lia.
Qed.

Lemma slot_zero k : 0 <= k < 2 ^ 32 -> slot 0 <> k.
Proof.
  intros Hk E. unfold slot, wrapping_sub, wrap in E. change ((0 - 1) mod 2 ^ 64) with (2 ^ 64 - 1) in E. lia.
Qed.

(** [slot] and a key of the table: the identifier is the key plus one. *)
Lemma slot_iff id k : 0 <= id < 2 ^ 32 -> 0 <= k < 2 ^ 32 - 1 -> slot id = k <-> id = k + 1.
Proof.
  intros Hi Hk. rewrite <- stream_of_small by done. split.
  - intros E. apply slot_inj; [done|rewrite stream_of_small by lia; lia|]. by rewrite slot_stream_of by lia.
  - intros ->. by apply slot_stream_of.
Qed.

Section table_laws.
Context `{Slab slab}.
Implicit Types (t : PeerForwardingTable slab) (id : Z) (pep : PftPep).

(** Tables keep the capacity they were made with. *)
Definition pft_ok t : Prop := slab_capacity t = PEER_FORWARDING_TABLE_SIZE.

Lemma pft_ok_new : pft_ok (pft_new (slab:=slab)).
Proof. apply capacity_new. Qed.

Lemma pft_new_get id : pft_get (slab:=slab) pft_new id = None.
Proof. apply get_new. Qed.

(** Reserving a slot, asking for its key and inserting agree on the identifier,
    which is not 0 and was not in use. *)
Lemma pft_vacant t pep :
  pft_ok t -> pft_vacant_entry t = true ->
  exists id t', vacant_pft_key t = Ret id /\ vacant_pft_insert t pep = Ret (id, t') /\
    1 <= id <= PEER_FORWARDING_TABLE_SIZE /\ pft_get t id = None /\ pft_ok t' /\
    forall j, 0 <= j < 2 ^ 32 -> pft_get t' j = if decide (j = id) then Some pep else pft_get t j.
Proof.
  intros Hok Hv. unfold pft_vacant_entry in Hv. destruct (vacant_key t) as [k|] eqn:Hk; [|done].
  destruct (vacant_key_free _ t k Hk) as [Hr Hg]. unfold pft_ok in Hok. rewrite Hok in Hr.
  assert (0 <= k < 2 ^ 32 - 1) as Hk32 by (change PEER_FORWARDING_TABLE_SIZE with (2 ^ 20) in Hr; lia).
  destruct (insert_vacant t k pep Hk) as (t' & Hi & Hc & Hg').
  exists (k + 1), t'. unfold vacant_pft_key, vacant_pft_insert. rewrite Hk, Hi. cbn.
  rewrite stream_of_small by done. split_and!; [done|done|lia|lia| | |].
  - unfold pft_get. by rewrite (proj2 (slot_iff (k + 1) k ltac:(lia) Hk32)).
  - unfold pft_ok. by rewrite Hc.
  - intros j Hj. unfold pft_get. rewrite Hg'. by apply decide_ext, slot_iff.
Qed.

Lemma pft_remove_ret t id t' :
  pft_remove t id = Ret t' -> 0 <= id < 2 ^ 32 ->
  is_Some (pft_get t id) /\ (pft_ok t -> pft_ok t') /\
  forall j, 0 <= j < 2 ^ 32 -> pft_get t' j = if decide (j = id) then None else pft_get t j.
Proof.
  intros Hr Hid. apply (remove_ret (A:=PftPep) (slab:=slab)) in Hr as (Hs & Hc & Hg). split_and!; [done| |].
  - unfold pft_ok. by rewrite Hc.
  - intros j Hj. unfold pft_get. rewrite Hg. apply decide_ext. split; [by apply slot_inj|by intros ->].
Qed.

Lemma pft_remove_present t id :
  is_Some (pft_get t id) -> exists t', pft_remove t id = Ret t'.
Proof. intros Hs. destruct (remove_present (A:=PftPep) (slab:=slab) t (slot id) Hs) as (t' & Hr & _). by exists t'. Qed.

Lemma pft_remove_absent t id : pft_get t id = None -> pft_remove t id = Panic.
Proof. apply (remove_absent (A:=PftPep) (slab:=slab)). Qed.

(** ** The dock lookup table *)

Lemma dlt_remove_total (d : DockLookupTable slab) id :
  0 <= id < 2 ^ 32 ->
  exists d', dlt_remove d id = Ret d' /\
    forall j, 0 <= j < 2 ^ 32 -> dlt_get d' j = if decide (j = id) then None else dlt_get d j.
Proof.
  intros Hid. unfold dlt_remove. destruct (slab_get d (slot id)) as [p|] eqn:E.
  - destruct (remove_present (A:=DltPep) (slab:=slab) d (slot id)) as (d' & Hr & _ & Hg); [by eauto|].
    exists d'. split; [done|]. intros j Hj. unfold dlt_get. rewrite Hg. apply decide_ext.
    split; [by apply slot_inj|by intros ->].
  - exists d. split; [done|]. intros j Hj. destruct (decide (j = id)) as [-> |]; [done|done].
Qed.

Lemma mark_removed_all_ok {A} (s : slab A) ks :
  NoDup ks -> (forall i, i ∈ ks -> is_Some (slab_get s i)) ->
  exists s', mark_removed_all s ks = Ret s' /\
    forall j, slab_get s' j = if decide (j ∈ ks) then None else slab_get s j.
Proof.
  revert s. induction ks as [|i ks IH]; intros s Hnd Hall.
  - exists s. split; [done|]. intros j. by rewrite decide_False by apply not_elem_of_nil.
  - apply NoDup_cons in Hnd as [Hi Hnd]. cbn [mark_removed_all].
    destruct (remove_present s i) as (s1 & -> & _ & Hg1); [apply Hall; left|].
    rewrite bind_Ret. destruct (IH s1 Hnd) as (s' & Hm & Hg).
    { intros j Hj. rewrite Hg1, decide_False by (by intros ->). apply Hall. by right. }
    exists s'. split; [done|]. intros j. rewrite Hg, Hg1.
    destruct (decide (j ∈ ks)), (decide (j = i)), (decide (j ∈ i :: ks)) as [Hin|Hin]; try done;
      rewrite elem_of_cons in Hin; tauto.
Qed.

Lemma dlt_clear_ok (d : DockLookupTable slab) :
  exists d', dlt_clear d = Ret d' /\ forall j, dlt_get d' j = None.
Proof.
  destruct (mark_removed_all_ok (A:=DltPep) d (fst <$> slab_iter d)) as (d' & Hm & Hg).
  - apply iter_keys.
  - intros i (? & -> & Hin)%list_elem_of_fmap. destruct x as [k a]. apply iter_spec in Hin. by eauto.
  - exists d'. split; [done|]. intros j. unfold dlt_get. rewrite Hg.
    destruct (decide _) as [|Hn]; [done|]. destruct (slab_get d (slot j)) as [a|] eqn:E; [|done].
    destruct Hn. apply list_elem_of_fmap. exists (slot j, a). split; [done|]. by apply iter_spec.
Qed.

End table_laws.
End ForwardingTables.
