(* ===== verification/Auth.v ===== *)
(** * Authentication challenges and blobs ([auth.rs])

    A node mints a challenge under a key of the link; the adapter returns it inside
    one or more blobs (self-signed or OIDC), JSON in base64; the node checks that
    the challenge is its own and fresh.  Base64, JSON text, BLAKE3, SHA-256 and RSA
    come from other crates: the class [Crypto].  Strings are their UTF-8 bytes. *)
From Stdlib Require Import ZArith Lia String.
From stdpp Require Import base tactics option list numbers strings countable.
From S2P Require Import Prelude.

Local Open Scope Z_scope.

(** [serde_json::Value], as far as blobs use it. *)
Inductive jvalue :=
| JString (s : list Z)
| JNumber (n : Z)
| JArray (items : list jvalue)
| JObject (fields : list (string * jvalue))
| JOther.

(** [Map::get]. *)
Fixpoint assoc (k : string) (fs : list (string * jvalue)) : option jvalue :=
  match fs with
  | [] => None
  | (k', v) :: r => if String.eqb k k' then Some v else assoc k r
  end.

(** What a value may be: numbers of 64 bits, and objects without a key twice. *)
Fixpoint json_plain (v : jvalue) : bool :=
  match v with
  | JString _ => true
  | JNumber n => (0 <=? n) && (n <? 2 ^ 64)
  | JArray items => forallb json_plain items
  | JObject fields => bool_decide (NoDup fields.*1) && forallb (fun f => json_plain f.2) fields
  | JOther => false
  end.

(** The same value, whatever the order of fields in objects. *)
Inductive same_json : jvalue -> jvalue -> Prop :=
| same_string s : same_json (JString s) (JString s)
| same_number n : same_json (JNumber n) (JNumber n)
| same_array xs ys : Forall2 same_json xs ys -> same_json (JArray xs) (JArray ys)
| same_object fs gs :
    (forall k v, assoc k fs = Some v -> exists w, assoc k gs = Some w /\ same_json v w) ->
    (forall k, assoc k fs = None -> assoc k gs = None) -> same_json (JObject fs) (JObject gs)
| same_other : same_json JOther JOther.

Class Crypto := {
  base64_encode : list Z -> list Z;
  base64_decode : list Z -> option (list Z);
  base64_url_encode : list Z -> list Z;
  json_to_string : jvalue -> list Z;
  json_from_slice : list Z -> option jvalue;
  blake3_keyed : list Z -> list Z -> list Z;
  sha256 : list Z -> list Z;
  sign_rsa_key : list Z -> list Z -> list Z;
  base64_decode_encode : forall l, base64_decode (base64_encode l) = Some l;
  json_from_to : forall v, json_plain v = true ->
    exists w, json_from_slice (json_to_string v) = Some w /\ same_json v w;
  blake3_length : forall k l, length (blake3_keyed k l) = 32%nat
}.

Module Auth.

Definition AUTH_KEY_SIZE_BYTES : Z := 32.
Definition BLOB_TYPE_SS : list Z := [83; 83].
Definition BLOB_TYPE_OIDC : list Z := [79; 73; 68; 67].
Definition MAX_BLOB_AGE_SECONDS : Z := 120.
Definition MAX_OIDC_BLOB_AGE_SECONDS : Z := 330.

Record ZdpInitAuthenticationPayload := mkPayload { nonce : list Z; ctime : Z; hmac : list Z }.

Record ZdpSelfSignedBlob := mkSS {
  ss_blob_type : list Z; ss_ts : Z; ss_cn : list Z; ss_challenge : list Z; ss_sig : list Z
}.

Record ZdpOidcBlob := mkOidc {
  oidc_blob_type : list Z; oidc_issuer : list Z; oidc_id_token : list Z; oidc_challenge : list Z
}.

Inductive AuthBlob :=
| SelfSigned (b : ZdpSelfSignedBlob)
| Oidc (b : ZdpOidcBlob).

Inductive AuthNamespace := Device | User.
#[export] Instance AuthNamespace_eq_dec : EqDecision AuthNamespace.
Proof. solve_decision. Defined.

Definition namespace (b : AuthBlob) : AuthNamespace :=
  match b with SelfSigned _ => Device | Oidc _ => User end.

(** A [BTreeSet<AuthNamespace>]: which of the two namespaces it has. *)
Record NamespaceSet := mkNS { has_device : bool; has_user : bool }.
#[export] Instance NamespaceSet_eq_dec : EqDecision NamespaceSet.
Proof. solve_decision. Defined.

Definition ns_contains (s : NamespaceSet) (n : AuthNamespace) : bool :=
  match n with Device => has_device s | User => has_user s end.
Definition ns_len (s : NamespaceSet) : Z := Z.b2z (has_device s) + Z.b2z (has_user s).

Definition blob_namespaces (blobs : list AuthBlob) : NamespaceSet :=
  mkNS (existsb (fun b => bool_decide (namespace b = Device)) blobs)
       (existsb (fun b => bool_decide (namespace b = User)) blobs).

Record OidcIdpInfo := mkIdp {
  issuer : list Z; client_id : list Z; client_secret : option (list Z);
  scopes : list (list Z); allow_offline_access : bool
}.

Inductive AuthError :=
| SerializationError | FormatError | DecodeError | InvalidHmac | ChallengeTooOld.

Record RsaBootstrapAuth := mkRsa { pkey : list Z; cn : list Z }.

Section auth.
Context `{Crypto}.

(** ** Challenges *)

(** The bytes of a payload: nonce, big-endian time, HMAC. *)
Definition challenge_bytes (p : ZdpInitAuthenticationPayload) : list Z :=
  nonce p ++ be_bytes 8 (ctime p) ++ hmac p.

(** [read_from_bytes] on 48 bytes. *)
Definition payload_of (b : list Z) : ZdpInitAuthenticationPayload :=
  mkPayload (take 8 b) (from_be (take 8 (drop 8 b))) (take 32 (drop 16 b)).

(** [ZdpInitAuthenticationPayload::new]: [now] is the clock in seconds, [rnd] the
    random bytes of the nonce. *)
Definition payload_new (key : list Z) (now : Z) (rnd : list Z) : ZdpInitAuthenticationPayload :=
  mkPayload rnd now (blake3_keyed key (rnd ++ be_bytes 8 now)).

Definition verify_challenge_bytes (now : Z) (payload_bytes key : list Z) (max_age_seconds : Z)
    : unit + AuthError :=
  if negb (zlen payload_bytes =? 48) then inr FormatError
  else
    let z := payload_of payload_bytes in
    if negb (bool_decide (blake3_keyed key (nonce z ++ be_bytes 8 (ctime z)) = hmac z))
    then inr InvalidHmac
    else if wrapping_add 64 (ctime z) max_age_seconds <? now then inr ChallengeTooOld
    else inl tt.

(** [peer_cn]: the certificate of the peer, when it presented one, with its
    common name if it has one. *)
Definition verify_blob_challenge (now : Z) (b : ZdpSelfSignedBlob)
    (peer_cn : option (option (list Z))) (key : list Z) (max_age_seconds : Z) : unit + AuthError :=
  match
    match peer_cn with
    | Some (Some link_cn) => if bool_decide (link_cn = ss_cn b) then inl tt else inr FormatError
    | Some None => inr FormatError
    | None => inl tt
    end
  with
  | inr e => inr e
  | inl _ =>
      match base64_decode (ss_challenge b) with
      | None => inr DecodeError
      | Some payload_bytes => verify_challenge_bytes now payload_bytes key max_age_seconds
      end
  end.

Definition verify_challenge (now : Z) (b : ZdpOidcBlob) (key : list Z) : list Z + AuthError :=
  match base64_decode (oidc_challenge b) with
  | None => inr DecodeError
  | Some payload_bytes =>
      match verify_challenge_bytes now payload_bytes key MAX_OIDC_BLOB_AGE_SECONDS with
      | inr e => inr e
      | inl _ => inl payload_bytes
      end
  end.

Definition oidc_nonce_for_challenge (challenge : list Z) : list Z :=
  base64_url_encode (sha256 challenge).

(** ** Blobs as JSON *)

Definition ss_to_value (b : ZdpSelfSignedBlob) : jvalue :=
  JObject [("blob_type"%string, JString (ss_blob_type b)); ("ts"%string, JNumber (ss_ts b));
           ("cn"%string, JString (ss_cn b)); ("challenge"%string, JString (ss_challenge b));
           ("sig"%string, JString (ss_sig b))].
Definition oidc_to_value (b : ZdpOidcBlob) : jvalue :=
  JObject [("blob_type"%string, JString (oidc_blob_type b)); ("issuer"%string, JString (oidc_issuer b));
           ("id_token"%string, JString (oidc_id_token b));
           ("challenge"%string, JString (oidc_challenge b))].

(** [Value::get] and typed access; a missing or mistyped field is an error. *)
Definition jget (k : string) (v : jvalue) : option jvalue :=
  match v with JObject fs => assoc k fs | _ => None end.
Definition jstr (k : string) (v : jvalue) : option (list Z) :=
  match jget k v with Some (JString s) => Some s | _ => None end.
Definition ju64 (k : string) (v : jvalue) : option Z :=
  match jget k v with
  | Some (JNumber n) => if (0 <=? n) && (n <? 2 ^ 64) then Some n else None
  | _ => None
  end.

Definition ss_from_value (v : jvalue) : option ZdpSelfSignedBlob :=
  t ← jstr "blob_type" v; ts ← ju64 "ts" v; c ← jstr "cn" v; ch ← jstr "challenge" v;
  s ← jstr "sig" v; Some (mkSS t ts c ch s).
Definition oidc_from_value (v : jvalue) : option ZdpOidcBlob :=
  t ← jstr "blob_type" v; i ← jstr "issuer" v; tok ← jstr "id_token" v; ch ← jstr "challenge" v;
  Some (mkOidc t i tok ch).

Definition decode_blob_value (jobj : jvalue) : AuthBlob + AuthError :=
  match jget "blob_type" jobj with
  | None => inr FormatError
  | Some (JString t) =>
      if bool_decide (t = BLOB_TYPE_SS) then
        match ss_from_value jobj with Some b => inl (SelfSigned b) | None => inr SerializationError end
      else if bool_decide (t = BLOB_TYPE_OIDC) then
        match oidc_from_value jobj with Some b => inl (Oidc b) | None => inr SerializationError end
      else inr FormatError
  | Some _ => inr FormatError
  end.

(** [items.iter().map(..).collect()] into a [Result]. *)
Fixpoint decode_items (items : list jvalue) : list AuthBlob + AuthError :=
  match items with
  | [] => inl []
  | v :: r =>
      match decode_blob_value v with
      | inr e => inr e
      | inl b => match decode_items r with inr e => inr e | inl bs => inl (b :: bs) end
      end
  end.

Definition decode_blobs (blob_str : list Z) : list AuthBlob + AuthError :=
  match base64_decode blob_str with
  | None => inr DecodeError
  | Some json_txt =>
      match json_from_slice json_txt with
      | None => inr SerializationError
      | Some (JArray items) =>
          match items with [] => inr FormatError | _ => decode_items items end
      | Some obj => match decode_blob_value obj with inl b => inl [b] | inr e => inr e end
      end
  end.

Definition blob_to_value (b : AuthBlob) : jvalue :=
  match b with SelfSigned ss => ss_to_value ss | Oidc o => oidc_to_value o end.

Definition encode_blobs (blobs : list AuthBlob) : list Z :=
  base64_encode (json_to_string (JArray (blob_to_value <$> blobs))).
Definition ss_encode (b : ZdpSelfSignedBlob) : list Z :=
  base64_encode (json_to_string (ss_to_value b)).
Definition oidc_encode (b : ZdpOidcBlob) : list Z :=
  base64_encode (json_to_string (oidc_to_value b)).

(** ** Bootstrap authentication *)

Definition authenticate_blob (now : Z) (a : RsaBootstrapAuth) (p : ZdpInitAuthenticationPayload)
    : ZdpSelfSignedBlob :=
  let challenge := challenge_bytes p in
  let data := be_bytes 8 now ++ cn a ++ challenge in
  mkSS BLOB_TYPE_SS now (cn a) (base64_encode challenge) (base64_encode (sign_rsa_key (pkey a) data)).
Definition authenticate (now : Z) (a : RsaBootstrapAuth) (p : ZdpInitAuthenticationPayload) : list Z :=
  ss_encode (authenticate_blob now a p).

(** ** Challenges round-trip *)

Lemma payload_challenge p :
  length (nonce p) = 8%nat -> length (hmac p) = 32%nat -> u64 (ctime p) ->
  payload_of (challenge_bytes p) = p.
Proof.
  intros Hn Hh Hc. destruct p as [n c h]. unfold payload_of, challenge_bytes. cbn [nonce ctime hmac] in *.
  rewrite (take_app_length' n), (drop_app_length' n) by done.
  rewrite (take_app_length' (be_bytes 8 c)) by (by rewrite length_be_bytes).
  rewrite (app_assoc n), (drop_app_length' (n ++ _)) by (rewrite length_app, length_be_bytes; lia).
  rewrite take_ge by lia. rewrite from_be_be_bytes, Z.mod_small by exact Hc. done.
Qed.

(** The node's check of a challenge of its own is the check of its age. *)
Lemma verify_minted key now now' rnd age :
  length rnd = 8%nat -> u64 now -> now + age < 2 ^ 64 -> 0 <= age ->
  verify_challenge_bytes now' (challenge_bytes (payload_new key now rnd)) key age =
  if now + age <? now' then inr ChallengeTooOld else inl tt.
Proof.
  intros Hr Hn Ha Ha0. unfold verify_challenge_bytes.
  rewrite payload_challenge by (try done; apply blake3_length). cbn [nonce ctime hmac payload_new].
  assert (zlen (challenge_bytes (payload_new key now rnd)) = 48) as ->.
  { unfold zlen, challenge_bytes. rewrite !length_app. cbn [nonce ctime hmac payload_new].
    rewrite length_be_bytes, blake3_length, Hr. done. }
  cbn [Z.eqb negb Pos.eqb]. rewrite bool_decide_eq_true_2 by done. cbn [negb].
  unfold wrapping_add. rewrite wrap_small; [done|]. unfold u64 in Hn. lia.
Qed.

Lemma ss_value_roundtrip b : u64 (ss_ts b) -> ss_from_value (ss_to_value b) = Some b.
Proof.
  intros Hu. destruct b. cbn. unfold ju64. cbn. cbn in Hu. unfold u64 in Hu.
  rewrite (proj2 (Z.leb_le 0 _)), (proj2 (Z.ltb_lt _ _)) by lia. done.
Qed.

Lemma oidc_value_roundtrip b : oidc_from_value (oidc_to_value b) = Some b.
Proof. by destruct b. Qed.

(** A blob that says of itself what it is, with a time that fits. *)
Definition blob_ok (b : AuthBlob) : Prop :=
  match b with
  | SelfSigned ss => ss_blob_type ss = BLOB_TYPE_SS /\ u64 (ss_ts ss)
  | Oidc o => oidc_blob_type o = BLOB_TYPE_OIDC
  end.

Lemma decode_value_roundtrip b : blob_ok b -> decode_blob_value (blob_to_value b) = inl b.
Proof.
  destruct b as [ss|o]; cbn [blob_ok blob_to_value].
  - intros [Ht Hu]. unfold decode_blob_value.
    change (jget "blob_type" (ss_to_value ss)) with (Some (JString (ss_blob_type ss))).
    by rewrite Ht, bool_decide_eq_true_2, ss_value_roundtrip by done.
  - intros Ht. unfold decode_blob_value.
    change (jget "blob_type" (oidc_to_value o)) with (Some (JString (oidc_blob_type o))).
    by rewrite Ht, bool_decide_eq_false_2, bool_decide_eq_true_2, oidc_value_roundtrip by done.
Qed.

Lemma decode_items_roundtrip bs : Forall blob_ok bs -> decode_items (blob_to_value <$> bs) = inl bs.
Proof.
  induction 1 as [|b bs Hb Hbs IH]; [done|]. cbn [fmap list_fmap decode_items].
  by rewrite decode_value_roundtrip, IH.
Qed.

(** *** The order of fields does not matter *)

Lemma jget_same k v w :
  same_json v w ->
  match jget k v with Some x => exists y, jget k w = Some y /\ same_json x y | None => jget k w = None end.
Proof.
  intros [s|n|xs ys _|fs gs Hs Hn|]; cbn; try done. destruct (assoc k fs) as [x|] eqn:E; [by apply Hs|by apply Hn].
Qed.
Lemma jstr_same k v w : same_json v w -> jstr k w = jstr k v.
Proof.
  intros Hs%(jget_same k). unfold jstr. destruct (jget k v) as [x|]; [|by rewrite Hs].
  destruct Hs as (y & -> & Hy). by destruct Hy.
Qed.
Lemma ju64_same k v w : same_json v w -> ju64 k w = ju64 k v.
Proof.
  intros Hs%(jget_same k). unfold ju64. destruct (jget k v) as [x|]; [|by rewrite Hs].
  destruct Hs as (y & -> & Hy). by destruct Hy.
Qed.

Lemma decode_value_same v w : same_json v w -> decode_blob_value w = decode_blob_value v.
Proof.
  intros Hs. unfold decode_blob_value, ss_from_value, oidc_from_value.
  rewrite !(jstr_same _ _ _ Hs), (ju64_same _ _ _ Hs). pose proof (jget_same "blob_type" v w Hs) as Hg.
  destruct (jget "blob_type" v) as [x|]; [|by rewrite Hg]. destruct Hg as (y & -> & Hy). by destruct Hy.
Qed.
Lemma decode_items_same vs ws : Forall2 same_json vs ws -> decode_items ws = decode_items vs.
Proof.
  induction 1 as [|v w vs ws Hv _ IH]; [done|]. cbn [decode_items]. by rewrite (decode_value_same v w), IH.
Qed.

Lemma blob_plain b : blob_ok b -> json_plain (blob_to_value b) = true.
Proof.
  destruct b as [ss|o]; cbn [blob_ok blob_to_value json_plain ss_to_value oidc_to_value forallb snd]; [|done].
  intros [_ Hu]. unfold u64 in Hu. rewrite (proj2 (Z.leb_le 0 _)), (proj2 (Z.ltb_lt _ _)) by lia. done.
Qed.

Lemma decode_ss_encode ss : blob_ok (SelfSigned ss) -> decode_blobs (ss_encode ss) = inl [SelfSigned ss].
Proof.
  intros Hss. unfold decode_blobs, ss_encode. rewrite base64_decode_encode.
  pose proof (decode_value_roundtrip _ Hss) as Hd. cbn [blob_to_value] in Hd.
  destruct (json_from_to _ (blob_plain _ Hss)) as (w & Hw & Hs). cbn [blob_to_value] in Hw, Hs. rewrite Hw.
  rewrite <- (decode_value_same _ _ Hs) in Hd. inversion Hs; subst. by rewrite Hd.
Qed.
Lemma decode_encode_blobs bs : bs <> [] -> Forall blob_ok bs -> decode_blobs (encode_blobs bs) = inl bs.
Proof.
  intros Hne Hok. unfold decode_blobs, encode_blobs. rewrite base64_decode_encode.
  assert (json_plain (JArray (blob_to_value <$> bs)) = true) as Hp.
  { cbn [json_plain]. apply forallb_forall. intros v (b & -> & Hb)%list_elem_of_In%list_elem_of_fmap.
    apply blob_plain. by apply (proj1 (list.Forall_forall _ _) Hok). }
  destruct (json_from_to _ Hp) as (w & Hw & Hs). rewrite Hw. inversion Hs as [| |xs ys Hxy| |]; subst.
  pose proof (decode_items_same _ _ Hxy) as Hi. rewrite decode_items_roundtrip in Hi by done.
  destruct ys; [|done]. apply Forall2_nil_inv_r in Hxy. by destruct bs.
Qed.

(** A challenge of the node, signed by the bootstrap key. *)
Lemma verify_blob_minted (key rnd : list Z) (minted now now' age : Z) (a : RsaBootstrapAuth)
    (peer_cn : option (option (list Z))) :
  length rnd = 8%nat -> 0 <= minted -> 0 <= age -> minted + age < 2 ^ 64 ->
  let b := authenticate_blob now' a (payload_new key minted rnd) in
  verify_blob_challenge now b peer_cn key age = inl tt <->
  now <= minted + age /\ match peer_cn with Some c => c = Some (cn a) | None => True end.
Proof.
  intros Hr Hm Ha Hb b. unfold verify_blob_challenge, b, authenticate_blob. cbn [ss_cn ss_challenge].
  rewrite base64_decode_encode, verify_minted by (done || unfold u64; lia).
  destruct peer_cn as [[c|]|]; [case_bool_decide|..]; destruct (Z.ltb_spec (minted + age) now);
    try (split; [done|intros [? ?]; try lia; congruence]); (split; [intros _; split; [lia|congruence]|done]).
Qed.

(** C32. Blobs survive their encoding: a non-empty list of well-formed blobs is
    decoded to itself, and so is a single self-signed blob in the older encoding
    that is not an array. *)
Theorem blobs_roundtrip (bs : list AuthBlob) (ss : ZdpSelfSignedBlob) :
  bs <> [] -> Forall blob_ok bs -> blob_ok (SelfSigned ss) ->
  decode_blobs (encode_blobs bs) = inl bs /\ decode_blobs (ss_encode ss) = inl [SelfSigned ss].
Proof.
  intros Hne Hok Hss. split; [by apply decode_encode_blobs|by apply decode_ss_encode].
Qed.

End auth.

(** ** An instance

    Values are written as a code number, and the cryptographic functions keep
    enough of their arguments to be told apart in examples. *)

Section jvalue_ind.
Context (P : jvalue -> Prop).
Hypothesis (Hs : forall s, P (JString s)) (Hn : forall n, P (JNumber n)) (Ho : P JOther).
Hypothesis (Ha : forall l, Forall P l -> P (JArray l)).
Hypothesis (Hf : forall fs, Forall (fun f => P f.2) fs -> P (JObject fs)).

Fixpoint jvalue_ind' (v : jvalue) : P v :=
  match v with
  | JString s => Hs s
  | JNumber n => Hn n
  | JOther => Ho
  | JArray l =>
      Ha l ((fix go l : Forall P l :=
        match l with [] => List.Forall_nil _ | v :: r => List.Forall_cons _ v r (jvalue_ind' v) (go r) end) l)
  | JObject fs =>
      Hf fs ((fix go fs : Forall (fun f => P f.2) fs :=
        match fs with
        | [] => List.Forall_nil _
        | f :: r => List.Forall_cons (fun f => P f.2) f r (jvalue_ind' f.2) (go r)
        end) fs)
  end.
End jvalue_ind.

Fixpoint jtree (v : jvalue) : gen_tree (list Z + Z + string) :=
  match v with
  | JString s => GenNode 0 [GenLeaf (inl (inl s))]
  | JNumber n => GenNode 1 [GenLeaf (inl (inr n))]
  | JArray l => GenNode 2 (jtree <$> l)
  | JObject fs => GenNode 3 ((fun f => GenNode 5 [GenLeaf (inr f.1); jtree f.2]) <$> fs)
  | JOther => GenNode 4 []
  end.

Fixpoint of_jtree (t : gen_tree (list Z + Z + string)) : jvalue :=
  match t with
  | GenNode 0 [GenLeaf (inl (inl s))] => JString s
  | GenNode 1 [GenLeaf (inl (inr n))] => JNumber n
  | GenNode 2 l => JArray (of_jtree <$> l)
  | GenNode 3 l =>
      JObject ((fun t => match t with
                         | GenNode _ [GenLeaf (inr k); v] => (k, of_jtree v)
                         | _ => (EmptyString, JOther)
                         end) <$> l)
  | _ => JOther
  end.

Lemma of_jtree_jtree v : of_jtree (jtree v) = v.
Proof.
  induction v as [s|n| |l IH|fs IH] using jvalue_ind'; cbn; try done; f_equal.
  - rewrite <- list_fmap_compose. induction IH as [|v l Hv _ IHl]; cbn; [done|]. by f_equal.
  - rewrite <- list_fmap_compose. induction IH as [|[k v] l Hv _ IHl]; cbn; [done|].
    cbn in Hv. rewrite Hv. by f_equal.
Qed.

Lemma same_refl v : same_json v v.
Proof.
  induction v as [s|n| |l IH|fs IH] using jvalue_ind'; constructor.
  - by induction IH; constructor.
  - intros k v Hv. exists v. split; [done|]. induction IH as [|[k' x] r Hx _ IHr]; [done|]. cbn in *.
    destruct (String.eqb k k'); [by injection Hv as <-|by apply IHr].
  - done.
Qed.

Definition toy_crypto : Crypto.
Proof.
  refine {|
    base64_encode l := l; base64_decode l := Some l; base64_url_encode l := l;
    json_to_string v := [Zpos (encode (jtree v))];
    json_from_slice l := match l with [Zpos p] => of_jtree <$> decode p | _ => None end;
    blake3_keyed k l := take 32 (k ++ l ++ replicate 32 0);
    sha256 l := l; sign_rsa_key k l := k ++ l
  |}.
  - done.
  - intros v _. exists v. rewrite decode_encode. cbn. by rewrite of_jtree_jtree; split; [|apply same_refl].
  - intros k l. rewrite length_take, !length_app, length_replicate. lia.
Defined.

Definition some_blob : ZdpSelfSignedBlob := mkSS BLOB_TYPE_SS 7 [1] [2] [3].

Lemma blobs_roundtrip_witness :
  decode_blobs (H:=toy_crypto) (encode_blobs (H:=toy_crypto) [SelfSigned some_blob]) =
    inl [SelfSigned some_blob] /\
  decode_blobs (H:=toy_crypto) (ss_encode (H:=toy_crypto) some_blob) = inl [SelfSigned some_blob].
Proof.
  assert (blob_ok (SelfSigned some_blob)) as Hok by (split; [done|unfold u64; cbn; lia]).
  apply (blobs_roundtrip (H:=toy_crypto) [SelfSigned some_blob] some_blob); [done| |exact Hok].
  constructor; [exact Hok|constructor].
Defined.

End Auth.
