(* ===== verification/LinkTypes.v ===== *)
(** * Links: data ([link_state.rs], [sample_ring.rs])

    The state of a link or docking session: the state machine proper, the data kept
    with it, and the operations on them that need nothing else of the program.
    [LinkFsm] has the event handlers.  Times and durations are nanoseconds; texts
    that are only shown are left out of the failure reasons. *)
From Stdlib Require Import ZArith Lia.
From stdpp Require Import base tactics option list numbers.
From S2P Require Import Prelude Auth.
Import Auth.

Local Open Scope Z_scope.

Module LinkTypes.

(** ** Response codes and reasons of [zdp.rs] *)
Module ResponseCode.
Definition Success : Z := 0.
Definition Other : Z := 1.
Definition AuthFailed : Z := 2.
Definition PolicyDenied : Z := 3.
Definition AuthUnavailable : Z := 4.
End ResponseCode.

Module TerminateReason.
Definition Other : Z := 0.
Definition Unused1 : Z := 1.
Definition RequestTimedOut : Z := 2.
Definition Reset : Z := 3.
Definition Shutdown : Z := 4.
End TerminateReason.

(** ** Constants of [config.rs] *)
Definition secs (n : Z) : Z := n * 1000000000.
Definition LINK_HELLO_TIMEOUT : Z := secs 3.
Definition DEFAULT_TERMINATE_TIMEOUT : Z := secs 1.
Definition NODE_KEYING_TIMEOUT : Z := secs 60.
Definition VS_GRANT_REQUEST_TIMEOUT : Z := secs 60.
Definition ACTOR_AUTHENTICATION_TIMEOUT : Z := secs 330.
Definition OIDC_USER_INTERACTION_TIMEOUT : Z := secs 300.
Definition VS_AUTHENTICATION_TIMEOUT : Z := secs 30.
Definition DEFAULT_KEEP_ALIVE_PERIOD : Z := secs 3.
Definition DEFAULT_KEEP_ALIVE_TIMEOUT : Z := secs 3.
Definition KEEP_ALIVE_MAX_MISSES : Z := 3.
Definition MAX_ACTIVE_LINKS : Z := 1024.
Definition RENEWAL_ATTEMPT_TIMEOUT_FLOOR : Z := secs 5.

(** ** Latency samples: the last [SIZE] of them *)
Definition SAMPLE_RING_SIZE : Z := 100.

Record SampleRing := mkRing { samples : list Z; next_sample_idx : Z; num_samples : Z }.

Definition ring_new (init : Z) : SampleRing :=
  mkRing (replicate (Z.to_nat SAMPLE_RING_SIZE) init) 0 0.
Definition ring_add (r : SampleRing) (sample : Z) : SampleRing :=
  mkRing (<[Z.to_nat (next_sample_idx r) := sample]> (samples r))
    ((next_sample_idx r + 1) mod SAMPLE_RING_SIZE) (Z.min SAMPLE_RING_SIZE (num_samples r + 1)).
(** [&self.samples[1..self.num_samples]], read only when there are two samples. *)
Definition ring_tail (r : SampleRing) : list Z :=
  if 1 <? num_samples r then drop 1 (take (Z.to_nat (num_samples r)) (samples r)) else [].
Definition ring_head (r : SampleRing) : Z := default 0 (head (samples r)).
Definition get_min (r : SampleRing) : Z := foldl Z.min (ring_head r) (ring_tail r).
Definition get_max (r : SampleRing) : Z := foldl Z.max (ring_head r) (ring_tail r).
Definition get_total_and_count (r : SampleRing) : Z * Z :=
  (foldl Z.add (ring_head r) (ring_tail r), num_samples r).

(** ** The state machine's data *)

Inductive LinkState :=
| Inactive | Keying | Helloing | Disconnecting (reason : Z) | Closing | Resetting | Active
| RegisterAA | WaitForInitAuth | WaitForAcquireZprAddress | WaitForUserAuth | Error.
#[export] Instance LinkState_eq_dec : EqDecision LinkState.
Proof. solve_decision. Defined.

Inductive LinkType := Internal | AdapterToNode | NodeToNode | NodeToAdapter.
#[export] Instance LinkType_eq_dec : EqDecision LinkType.
Proof. solve_decision. Defined.

Inductive LinkStatus := Up | Down.
#[export] Instance LinkStatus_eq_dec : EqDecision LinkStatus.
Proof. solve_decision. Defined.

Inductive AuthFailureReason :=
| NoAgent | UserDeclined | InteractionTimeout | IdpUnreachable | AgentError
| VisaServiceRejected | PolicyDenied | AuthUnavailable | DeviceBlobRejected
| LinkFailed (reason : Z)
| GrantedAddressMismatch (requested granted : list (list Z))
| ActivationFailed.

Inductive LinkStateError :=
| UnexpectedTransition (st : LinkState) | InvalidOperation | NotFound (link : Z)
| OperationNotSupportedYet.

Inductive RenewalStart := Accepted | Coalesced | Ignored.

Record RenewalIdentity := mkIdentity { idp : OidcIdpInfo; identity_nonce : list Z }.

Record InitAuthData := mkInitAuth {
  ia_bootstrap : bool; ia_challenge : option ZdpInitAuthenticationPayload
}.

(** A running timeout is its duration; it carries the logical clock at which it was
    set, which is the current one for as long as the handle is kept.  An echo in
    flight is the time it was sent and its task. *)
Record LinkStateMachine := mkFsm {
  fsm_id : Z;
  state : LinkState;
  status : LinkStatus;
  silent : bool;
  actor_addresses : list (list Z);
  logical_clock : Z;
  timeout_handle : option Z;
  timeout_count : Z;
  stowed_init_auth : option InitAuthData;
  echo_handle : option (Z * Z);
  keep_alive_misses : Z;
  shutting_down : bool
}.

Definition set_fsm_id (v : Z) (x : LinkStateMachine) : LinkStateMachine :=
  mkFsm v (state x) (status x) (silent x) (actor_addresses x) (logical_clock x) (timeout_handle x) (timeout_count x) (stowed_init_auth x) (echo_handle x) (keep_alive_misses x) (shutting_down x).
Definition set_state_field (v : LinkState) (x : LinkStateMachine) : LinkStateMachine :=
  mkFsm (fsm_id x) v (status x) (silent x) (actor_addresses x) (logical_clock x) (timeout_handle x) (timeout_count x) (stowed_init_auth x) (echo_handle x) (keep_alive_misses x) (shutting_down x).
Definition set_status (v : LinkStatus) (x : LinkStateMachine) : LinkStateMachine :=
  mkFsm (fsm_id x) (state x) v (silent x) (actor_addresses x) (logical_clock x) (timeout_handle x) (timeout_count x) (stowed_init_auth x) (echo_handle x) (keep_alive_misses x) (shutting_down x).
Definition set_silent (v : bool) (x : LinkStateMachine) : LinkStateMachine :=
  mkFsm (fsm_id x) (state x) (status x) v (actor_addresses x) (logical_clock x) (timeout_handle x) (timeout_count x) (stowed_init_auth x) (echo_handle x) (keep_alive_misses x) (shutting_down x).
Definition set_actor_addresses (v : list (list Z)) (x : LinkStateMachine) : LinkStateMachine :=
  mkFsm (fsm_id x) (state x) (status x) (silent x) v (logical_clock x) (timeout_handle x) (timeout_count x) (stowed_init_auth x) (echo_handle x) (keep_alive_misses x) (shutting_down x).
Definition set_logical_clock (v : Z) (x : LinkStateMachine) : LinkStateMachine :=
  mkFsm (fsm_id x) (state x) (status x) (silent x) (actor_addresses x) v (timeout_handle x) (timeout_count x) (stowed_init_auth x) (echo_handle x) (keep_alive_misses x) (shutting_down x).
Definition set_timeout_handle (v : option Z) (x : LinkStateMachine) : LinkStateMachine :=
  mkFsm (fsm_id x) (state x) (status x) (silent x) (actor_addresses x) (logical_clock x) v (timeout_count x) (stowed_init_auth x) (echo_handle x) (keep_alive_misses x) (shutting_down x).
Definition set_timeout_count (v : Z) (x : LinkStateMachine) : LinkStateMachine :=
  mkFsm (fsm_id x) (state x) (status x) (silent x) (actor_addresses x) (logical_clock x) (timeout_handle x) v (stowed_init_auth x) (echo_handle x) (keep_alive_misses x) (shutting_down x).
Definition set_stowed_init_auth (v : option InitAuthData) (x : LinkStateMachine) : LinkStateMachine :=
  mkFsm (fsm_id x) (state x) (status x) (silent x) (actor_addresses x) (logical_clock x) (timeout_handle x) (timeout_count x) v (echo_handle x) (keep_alive_misses x) (shutting_down x).
Definition set_echo_handle (v : option (Z * Z)) (x : LinkStateMachine) : LinkStateMachine :=
  mkFsm (fsm_id x) (state x) (status x) (silent x) (actor_addresses x) (logical_clock x) (timeout_handle x) (timeout_count x) (stowed_init_auth x) v (keep_alive_misses x) (shutting_down x).
Definition set_keep_alive_misses (v : Z) (x : LinkStateMachine) : LinkStateMachine :=
  mkFsm (fsm_id x) (state x) (status x) (silent x) (actor_addresses x) (logical_clock x) (timeout_handle x) (timeout_count x) (stowed_init_auth x) (echo_handle x) v (shutting_down x).
Definition set_shutting_down (v : bool) (x : LinkStateMachine) : LinkStateMachine :=
  mkFsm (fsm_id x) (state x) (status x) (silent x) (actor_addresses x) (logical_clock x) (timeout_handle x) (timeout_count x) (stowed_init_auth x) (echo_handle x) (keep_alive_misses x) v.

Definition fsm_new (link_id : Z) : LinkStateMachine :=
  mkFsm link_id Inactive Down false [] 0 None 0 None None 0 false.

Definition cancel_timeout (f : LinkStateMachine) : LinkStateMachine :=
  set_logical_clock (wrapping_add 64 (logical_clock f) 1) (set_timeout_handle None f).
Definition set_state (new_state : LinkState) (f : LinkStateMachine) : LinkStateMachine :=
  set_timeout_count 0 (cancel_timeout (set_state_field new_state f)).
Definition set_timeout_callback (duration : Z) (f : LinkStateMachine) : LinkStateMachine :=
  set_timeout_handle (Some duration) (cancel_timeout f).

(** ** The data kept with it *)
Record LinkData := mkData {
  echo_success : Z;
  echo_timeout : Z;
  latency_data : SampleRing;
  aaa_address : option (list Z);
  oidc_idps : option (list OidcIdpInfo);
  auth_agent : option Z;
  last_auth_failure : option AuthFailureReason;
  auth_expires : option Z;
  auth_renewal_deadline : option Z;
  renewal_identity : option RenewalIdentity;
  authenticated_namespaces : option NamespaceSet;
  renewal_in_flight : bool;
  renewal_challenge : option (list Z);
  adapter_renewal_task : option Z;
  renewal_no_agent_warned : bool
}.

Definition set_echo_success (v : Z) (x : LinkData) : LinkData :=
  mkData v (echo_timeout x) (latency_data x) (aaa_address x) (oidc_idps x) (auth_agent x) (last_auth_failure x) (auth_expires x) (auth_renewal_deadline x) (renewal_identity x) (authenticated_namespaces x) (renewal_in_flight x) (renewal_challenge x) (adapter_renewal_task x) (renewal_no_agent_warned x).
Definition set_echo_timeout (v : Z) (x : LinkData) : LinkData :=
  mkData (echo_success x) v (latency_data x) (aaa_address x) (oidc_idps x) (auth_agent x) (last_auth_failure x) (auth_expires x) (auth_renewal_deadline x) (renewal_identity x) (authenticated_namespaces x) (renewal_in_flight x) (renewal_challenge x) (adapter_renewal_task x) (renewal_no_agent_warned x).
Definition set_latency_data (v : SampleRing) (x : LinkData) : LinkData :=
  mkData (echo_success x) (echo_timeout x) v (aaa_address x) (oidc_idps x) (auth_agent x) (last_auth_failure x) (auth_expires x) (auth_renewal_deadline x) (renewal_identity x) (authenticated_namespaces x) (renewal_in_flight x) (renewal_challenge x) (adapter_renewal_task x) (renewal_no_agent_warned x).
Definition set_aaa_address (v : option (list Z)) (x : LinkData) : LinkData :=
  mkData (echo_success x) (echo_timeout x) (latency_data x) v (oidc_idps x) (auth_agent x) (last_auth_failure x) (auth_expires x) (auth_renewal_deadline x) (renewal_identity x) (authenticated_namespaces x) (renewal_in_flight x) (renewal_challenge x) (adapter_renewal_task x) (renewal_no_agent_warned x).
Definition set_oidc_idps (v : option (list OidcIdpInfo)) (x : LinkData) : LinkData :=
  mkData (echo_success x) (echo_timeout x) (latency_data x) (aaa_address x) v (auth_agent x) (last_auth_failure x) (auth_expires x) (auth_renewal_deadline x) (renewal_identity x) (authenticated_namespaces x) (renewal_in_flight x) (renewal_challenge x) (adapter_renewal_task x) (renewal_no_agent_warned x).
Definition set_auth_agent_field (v : option Z) (x : LinkData) : LinkData :=
  mkData (echo_success x) (echo_timeout x) (latency_data x) (aaa_address x) (oidc_idps x) v (last_auth_failure x) (auth_expires x) (auth_renewal_deadline x) (renewal_identity x) (authenticated_namespaces x) (renewal_in_flight x) (renewal_challenge x) (adapter_renewal_task x) (renewal_no_agent_warned x).
Definition set_last_auth_failure (v : option AuthFailureReason) (x : LinkData) : LinkData :=
  mkData (echo_success x) (echo_timeout x) (latency_data x) (aaa_address x) (oidc_idps x) (auth_agent x) v (auth_expires x) (auth_renewal_deadline x) (renewal_identity x) (authenticated_namespaces x) (renewal_in_flight x) (renewal_challenge x) (adapter_renewal_task x) (renewal_no_agent_warned x).
Definition set_auth_expires_field (v : option Z) (x : LinkData) : LinkData :=
  mkData (echo_success x) (echo_timeout x) (latency_data x) (aaa_address x) (oidc_idps x) (auth_agent x) (last_auth_failure x) v (auth_renewal_deadline x) (renewal_identity x) (authenticated_namespaces x) (renewal_in_flight x) (renewal_challenge x) (adapter_renewal_task x) (renewal_no_agent_warned x).
Definition set_auth_renewal_deadline (v : option Z) (x : LinkData) : LinkData :=
  mkData (echo_success x) (echo_timeout x) (latency_data x) (aaa_address x) (oidc_idps x) (auth_agent x) (last_auth_failure x) (auth_expires x) v (renewal_identity x) (authenticated_namespaces x) (renewal_in_flight x) (renewal_challenge x) (adapter_renewal_task x) (renewal_no_agent_warned x).
Definition set_renewal_identity_field (v : option RenewalIdentity) (x : LinkData) : LinkData :=
  mkData (echo_success x) (echo_timeout x) (latency_data x) (aaa_address x) (oidc_idps x) (auth_agent x) (last_auth_failure x) (auth_expires x) (auth_renewal_deadline x) v (authenticated_namespaces x) (renewal_in_flight x) (renewal_challenge x) (adapter_renewal_task x) (renewal_no_agent_warned x).
Definition set_namespaces_field (v : option NamespaceSet) (x : LinkData) : LinkData :=
  mkData (echo_success x) (echo_timeout x) (latency_data x) (aaa_address x) (oidc_idps x) (auth_agent x) (last_auth_failure x) (auth_expires x) (auth_renewal_deadline x) (renewal_identity x) v (renewal_in_flight x) (renewal_challenge x) (adapter_renewal_task x) (renewal_no_agent_warned x).
Definition set_renewal_in_flight (v : bool) (x : LinkData) : LinkData :=
  mkData (echo_success x) (echo_timeout x) (latency_data x) (aaa_address x) (oidc_idps x) (auth_agent x) (last_auth_failure x) (auth_expires x) (auth_renewal_deadline x) (renewal_identity x) (authenticated_namespaces x) v (renewal_challenge x) (adapter_renewal_task x) (renewal_no_agent_warned x).
Definition set_renewal_challenge (v : option (list Z)) (x : LinkData) : LinkData :=
  mkData (echo_success x) (echo_timeout x) (latency_data x) (aaa_address x) (oidc_idps x) (auth_agent x) (last_auth_failure x) (auth_expires x) (auth_renewal_deadline x) (renewal_identity x) (authenticated_namespaces x) (renewal_in_flight x) v (adapter_renewal_task x) (renewal_no_agent_warned x).
Definition set_adapter_renewal_task (v : option Z) (x : LinkData) : LinkData :=
  mkData (echo_success x) (echo_timeout x) (latency_data x) (aaa_address x) (oidc_idps x) (auth_agent x) (last_auth_failure x) (auth_expires x) (auth_renewal_deadline x) (renewal_identity x) (authenticated_namespaces x) (renewal_in_flight x) (renewal_challenge x) v (renewal_no_agent_warned x).
Definition set_renewal_no_agent_warned (v : bool) (x : LinkData) : LinkData :=
  mkData (echo_success x) (echo_timeout x) (latency_data x) (aaa_address x) (oidc_idps x) (auth_agent x) (last_auth_failure x) (auth_expires x) (auth_renewal_deadline x) (renewal_identity x) (authenticated_namespaces x) (renewal_in_flight x) (renewal_challenge x) (adapter_renewal_task x) v.

Definition data_new : LinkData :=
  mkData 0 0 (ring_new 0) None None None None None None None None false None None false.

Record LinkStateWrapper := mkLink {
  id : Z;
  uid : Z;
  link_type : LinkType;
  locked_fsm : LinkStateMachine;
  locked_data : LinkData;
  internal_peer_id : option Z
}.

Definition set_id (v : Z) (x : LinkStateWrapper) : LinkStateWrapper :=
  mkLink v (uid x) (link_type x) (locked_fsm x) (locked_data x) (internal_peer_id x).
Definition set_uid (v : Z) (x : LinkStateWrapper) : LinkStateWrapper :=
  mkLink (id x) v (link_type x) (locked_fsm x) (locked_data x) (internal_peer_id x).
Definition set_link_type (v : LinkType) (x : LinkStateWrapper) : LinkStateWrapper :=
  mkLink (id x) (uid x) v (locked_fsm x) (locked_data x) (internal_peer_id x).
Definition set_locked_fsm (v : LinkStateMachine) (x : LinkStateWrapper) : LinkStateWrapper :=
  mkLink (id x) (uid x) (link_type x) v (locked_data x) (internal_peer_id x).
Definition set_locked_data (v : LinkData) (x : LinkStateWrapper) : LinkStateWrapper :=
  mkLink (id x) (uid x) (link_type x) (locked_fsm x) v (internal_peer_id x).
Definition set_internal_peer_id (v : option Z) (x : LinkStateWrapper) : LinkStateWrapper :=
  mkLink (id x) (uid x) (link_type x) (locked_fsm x) (locked_data x) v.

(** [NEXT_UID] is the process-wide counter: the second component of the result. *)
Definition link_new (next_uid new_id : Z) (new_link_type : LinkType) : LinkStateWrapper * Z :=
  let lsm := fsm_new new_id in
  let lsm := if decide (new_link_type = Internal)
             then set_status Up (set_state_field Active lsm) else lsm in
  (mkLink new_id next_uid new_link_type lsm data_new None, wrapping_add 64 next_uid 1).

Definition is_internal (l : LinkStateWrapper) : bool := bool_decide (link_type l = Internal).
Definition get_state (l : LinkStateWrapper) : LinkState := state (locked_fsm l).
Definition is_ready (l : LinkStateWrapper) : bool :=
  bool_decide (status (locked_fsm l) = Up) &&
  (bool_decide (get_state l = Active) || bool_decide (get_state l = RegisterAA)).

Definition on_fsm (f : LinkStateMachine -> LinkStateMachine) (l : LinkStateWrapper) : LinkStateWrapper :=
  set_locked_fsm (f (locked_fsm l)) l.
Definition on_data (f : LinkData -> LinkData) (l : LinkStateWrapper) : LinkStateWrapper :=
  set_locked_data (f (locked_data l)) l.

Definition get_actor_addresses (l : LinkStateWrapper) : list (list Z) :=
  actor_addresses (locked_fsm l) ++ option_list (aaa_address (locked_data l)).
Definition has_actor_address (addr : list Z) (l : LinkStateWrapper) : bool :=
  existsb (fun a => bool_decide (a = addr)) (actor_addresses (locked_fsm l))
  || bool_decide (aaa_address (locked_data l) = Some addr).
Definition add_internal_actor_address (addr : list Z) (l : LinkStateWrapper) : outcome LinkStateWrapper :=
  _ ← rust_assert (is_internal l);
  mret (on_fsm (fun f => set_actor_addresses (actor_addresses f ++ [addr]) f) l).

Definition set_auth_agent (agent : Z) : LinkStateWrapper -> LinkStateWrapper :=
  on_data (set_auth_agent_field (Some agent)).
Definition clear_auth_agent_if (handle : Z) (l : LinkStateWrapper) : LinkStateWrapper * bool :=
  if bool_decide (auth_agent (locked_data l) = Some handle)
  then (on_data (set_auth_agent_field None) l, true) else (l, false).
Definition auth_attempt_is_current (attempt_clock : Z) (l : LinkStateWrapper) : bool :=
  logical_clock (locked_fsm l) =? attempt_clock.
Definition get_last_auth_failure (l : LinkStateWrapper) : option AuthFailureReason :=
  last_auth_failure (locked_data l).
Definition record_auth_failure (reason : AuthFailureReason) : LinkStateWrapper -> LinkStateWrapper :=
  on_data (set_last_auth_failure (Some reason)).

(** ** Renewal of an authentication *)

Definition renewal_lead (configured granted_lifetime : Z) : Z := Z.min configured (granted_lifetime / 2).
(** [duration_since(..).unwrap_or(ZERO)]; the clock cannot go below the least
    [SystemTime], 2^63 seconds before the epoch. *)
Definition since (later earlier : Z) : Z := Z.max 0 (later - earlier).
Definition checked_sub (t d : Z) : option Z := if - secs (2 ^ 63) <=? t - d then Some (t - d) else None.
Definition renewal_deadline (granted_at auth_expires configured_lead : Z) : Z :=
  let lead := renewal_lead configured_lead (since auth_expires granted_at) in
  default auth_expires (checked_sub auth_expires lead).
Definition renewal_attempt_timeout (now auth_expires : Z) : Z :=
  Z.min OIDC_USER_INTERACTION_TIMEOUT
    (Z.max RENEWAL_ATTEMPT_TIMEOUT_FLOOR (since auth_expires now / 2)).

Definition set_auth_expires (granted_at expires configured_lead : Z)
    : LinkStateWrapper -> LinkStateWrapper :=
  on_data (fun d =>
    set_renewal_no_agent_warned false (set_renewal_in_flight false
      (set_auth_renewal_deadline (Some (renewal_deadline granted_at expires configured_lead))
        (set_auth_expires_field (Some expires) d)))).
Definition set_renewal_identity (i : RenewalIdentity) : LinkStateWrapper -> LinkStateWrapper :=
  on_data (set_renewal_identity_field (Some i)).
Definition set_authenticated_namespaces (n : NamespaceSet) : LinkStateWrapper -> LinkStateWrapper :=
  on_data (set_namespaces_field (Some n)).
Definition get_authenticated_namespaces (l : LinkStateWrapper) : option NamespaceSet :=
  authenticated_namespaces (locked_data l).
Definition stash_renewal_challenge (challenge : list Z) : LinkStateWrapper -> LinkStateWrapper :=
  on_data (set_renewal_challenge (Some challenge)).
Definition take_renewal_challenge_if (challenge : list Z) (l : LinkStateWrapper)
    : LinkStateWrapper * bool :=
  if bool_decide (renewal_challenge (locked_data l) = Some challenge)
  then (on_data (set_renewal_challenge None) l, true) else (l, false).
Definition finish_renewal_failure (reason : AuthFailureReason) : LinkStateWrapper -> LinkStateWrapper :=
  on_data (fun d => set_last_auth_failure (Some reason) (set_renewal_in_flight false d)).

End LinkTypes.
