(* ===== verification/PeerTable.v ===== *)
(** * The peer table ([peer_table.rs], [special_peers.rs])

    One entry per link: its addresses, state machine, forwarding table, docking
    state, ZDPR session, transaction manager and key-management state.  Entries live
    in a slab; a second table finds a link by its substrate address, a third the
    links with special names.  Entries have interior mutability: [peer_update] is a
    change through a shared reference. *)
From Stdlib Require Import ZArith Lia.
From stdpp Require Import base tactics option list numbers gmap countable.
From S2P Require Import Prelude Slab ForwardingTables TxnMgr Auth LinkTypes ZdprReceiver ZdprSender MgmtCore.
Import ForwardingTables LinkTypes.
Import TxnMgr(TxnMgrInner).

Local Open Scope Z_scope.

(** ** Docking state of [mgmt/node.rs]

    A handle is its manager and an identifier.  Managers are compared by pointer;
    each peer has one, so a manager is named by the [uid] of its peer's link. *)
Record TxnHandle := mkTxn { th_mgr : Z; th_id : Z }.
#[export] Instance TxnHandle_eq_dec : EqDecision TxnHandle.
Proof. solve_decision. Defined.
#[export] Instance TxnHandle_countable : Countable TxnHandle.
Proof.
  refine (inj_countable' (fun h => (th_mgr h, th_id h)) (fun '(m, i) => mkTxn m i) _). by intros [].
Defined.

Inductive BindRequestState :=
| AwaitingVisaResponse
| AwaitingVisaPush (visa_id : Z)
| AwaitingNextHopBind (visa_id egress_link_id : Z) (egress_bind_txn : TxnHandle).

Record NodePeerState := mkNode {
  bind_request_state : gmap Z BindRequestState;
  awaiting_next_hop_bind_table : gmap TxnHandle (Z * Z)
}.
Definition node_new : NodePeerState := mkNode ∅ ∅.

Module PeerTable.

Definition PEER_TABLE_SIZE : Z := MAX_ACTIVE_LINKS.
Definition DEFAULT_ZDPR_RECEIVE_WINDOW_SIZE : Z := 32.
Definition LINK_ID_UNKNOWN : Z := 0.
Definition LOCAL_ACTOR_LINK_ID : Z := 1.
Definition DOCK_LINK_ID : Z := 2.

(** An address and port; an address and scope. *)
Notation SubstrateAddr := (list Z * Z)%type.
Notation ScopedIpAddr := (list Z * Z)%type.
Definition is_unspecified (ip : list Z) : bool := forallb (fun b => b =? 0) ip.

Inductive SpecialPeerName := VisaServiceAdapter.
#[export] Instance SpecialPeerName_eq_dec : EqDecision SpecialPeerName.
Proof. solve_decision. Defined.

(** The certificate of a peer: what is read of it. *)
Record PeerCert := mkCert {
  cert_verified : bool; cert_subject_der : option (list Z); cert_common_name : option (list Z)
}.
(** A pair of ZPI values, and what a security association sets up; the codec
    behind the [Arc] is an identifier. *)
Record ZPIPair := mkZpis { encr : Z; hmac : Z }.
Record KmTransportSA := mkSA {
  sa_id : Z;
  recv_zpis : ZPIPair;
  send_zpis : ZPIPair;
  send_hmac_key : list Z;
  recv_hmac_key : list Z;
  codec : Z;
  peer_cert : option PeerCert
}.
(** [KmTransportSA::default], whose codec is [UnimplCodec]. *)
Definition sa_default : KmTransportSA :=
  mkSA 0 (mkZpis 0 0) (mkZpis 0 0) (replicate 32 0) (replicate 32 0) 0 None.
Record KmHandle := mkKm { km_mgr : Z; km_tx : Z }.

Inductive PeerType := TNode | TAdapter | TDock | TUnknown.
Inductive PeerInsertError := TableFull | FailedToStart.
Inductive PeerUpdateError := NoAssociationForLink.

(** [special_peer_names_from_subject_der] over the name of the visa service. *)
Definition special_peer_names_from_subject_der (VISA_SERVICE_DN dn_der : list Z)
    : list SpecialPeerName :=
  if bool_decide (dn_der = VISA_SERVICE_DN) then [VisaServiceAdapter] else [].

Section peers.
Context `{SlabOps slab}.

Record PeerState := mkPeer {
  substrate_addr : SubstrateAddr;
  interface_addr : ScopedIpAddr;
  link_state_machine : LinkStateWrapper;
  pft : PeerForwardingTable slab;
  node_state : NodePeerState;
  auth_key : list Z;
  a2a_dh_pubkey : option (list Z);
  session : MgmtCore.Session;
  zdpr_recv : Rx.Receiver;
  txn_mgr : TxnMgrInner;
  km_handle : option KmHandle;
  transport_sa : option KmTransportSA
}.

Definition set_substrate_addr (v : SubstrateAddr) (x : PeerState) : PeerState :=
  mkPeer v (interface_addr x) (link_state_machine x) (pft x) (node_state x) (auth_key x) (a2a_dh_pubkey x) (session x) (zdpr_recv x) (txn_mgr x) (km_handle x) (transport_sa x).
Definition set_interface_addr (v : ScopedIpAddr) (x : PeerState) : PeerState :=
  mkPeer (substrate_addr x) v (link_state_machine x) (pft x) (node_state x) (auth_key x) (a2a_dh_pubkey x) (session x) (zdpr_recv x) (txn_mgr x) (km_handle x) (transport_sa x).
Definition set_link_state_machine (v : LinkStateWrapper) (x : PeerState) : PeerState :=
  mkPeer (substrate_addr x) (interface_addr x) v (pft x) (node_state x) (auth_key x) (a2a_dh_pubkey x) (session x) (zdpr_recv x) (txn_mgr x) (km_handle x) (transport_sa x).
Definition set_pft (v : PeerForwardingTable slab) (x : PeerState) : PeerState :=
  mkPeer (substrate_addr x) (interface_addr x) (link_state_machine x) v (node_state x) (auth_key x) (a2a_dh_pubkey x) (session x) (zdpr_recv x) (txn_mgr x) (km_handle x) (transport_sa x).
Definition set_node_state (v : NodePeerState) (x : PeerState) : PeerState :=
  mkPeer (substrate_addr x) (interface_addr x) (link_state_machine x) (pft x) v (auth_key x) (a2a_dh_pubkey x) (session x) (zdpr_recv x) (txn_mgr x) (km_handle x) (transport_sa x).
Definition set_auth_key (v : list Z) (x : PeerState) : PeerState :=
  mkPeer (substrate_addr x) (interface_addr x) (link_state_machine x) (pft x) (node_state x) v (a2a_dh_pubkey x) (session x) (zdpr_recv x) (txn_mgr x) (km_handle x) (transport_sa x).
Definition set_a2a_dh_pubkey (v : option (list Z)) (x : PeerState) : PeerState :=
  mkPeer (substrate_addr x) (interface_addr x) (link_state_machine x) (pft x) (node_state x) (auth_key x) v (session x) (zdpr_recv x) (txn_mgr x) (km_handle x) (transport_sa x).
Definition set_session (v : MgmtCore.Session) (x : PeerState) : PeerState :=
  mkPeer (substrate_addr x) (interface_addr x) (link_state_machine x) (pft x) (node_state x) (auth_key x) (a2a_dh_pubkey x) v (zdpr_recv x) (txn_mgr x) (km_handle x) (transport_sa x).
Definition set_zdpr_recv (v : Rx.Receiver) (x : PeerState) : PeerState :=
  mkPeer (substrate_addr x) (interface_addr x) (link_state_machine x) (pft x) (node_state x) (auth_key x) (a2a_dh_pubkey x) (session x) v (txn_mgr x) (km_handle x) (transport_sa x).
Definition set_txn_mgr (v : TxnMgrInner) (x : PeerState) : PeerState :=
  mkPeer (substrate_addr x) (interface_addr x) (link_state_machine x) (pft x) (node_state x) (auth_key x) (a2a_dh_pubkey x) (session x) (zdpr_recv x) v (km_handle x) (transport_sa x).
Definition set_km_handle_field (v : option KmHandle) (x : PeerState) : PeerState :=
  mkPeer (substrate_addr x) (interface_addr x) (link_state_machine x) (pft x) (node_state x) (auth_key x) (a2a_dh_pubkey x) (session x) (zdpr_recv x) (txn_mgr x) v (transport_sa x).
Definition set_transport_sa (v : option KmTransportSA) (x : PeerState) : PeerState :=
  mkPeer (substrate_addr x) (interface_addr x) (link_state_machine x) (pft x) (node_state x) (auth_key x) (a2a_dh_pubkey x) (session x) (zdpr_recv x) (txn_mgr x) (km_handle x) v.

Definition on_link (f : LinkStateWrapper -> LinkStateWrapper) (p : PeerState) : PeerState :=
  set_link_state_machine (f (link_state_machine p)) p.
Definition on_node (f : NodePeerState -> NodePeerState) (p : PeerState) : PeerState :=
  set_node_state (f (node_state p)) p.

(** [PeerState::new]; [rnd] is what the random number generator fills the key with. *)
Definition peer_new (next_uid link_id : Z) (ty : LinkType) (sa : SubstrateAddr) (ia : ScopedIpAddr)
    (rnd : list Z) : outcome (PeerState * Z) :=
  let key := if decide (ty = NodeToAdapter) then rnd else replicate 32 0 in
  recv ← Rx.new DEFAULT_ZDPR_RECEIVE_WINDOW_SIZE;
  let '(lsm, next_uid') := link_new next_uid link_id ty in
  mret (mkPeer sa ia lsm pft_new node_new key None (MgmtCore.mkSession Tx.new 0) recv
          TxnMgr.new None None, next_uid').

Definition new_internal_peer (next_uid link_id : Z) (peer_id : option Z) : outcome (PeerState * Z) :=
  '(ps, u) ← peer_new next_uid link_id Internal (replicate 16 0, 0) (replicate 16 0, 0) [];
  mret (on_link (set_internal_peer_id peer_id) ps, u).

(** [reset_zdpr_session]: also the wakers the dropped sessions wake. *)
Definition reset_zdpr_session (p : PeerState) : outcome (PeerState * list Tx.Waker) :=
  let '(snd', wakers) := Tx.reset (MgmtCore.zdpr_send (session p)) in
  recv ← Rx.reset (zdpr_recv p);
  mret (set_session (MgmtCore.mkSession snd' (wrapping_add 64 (MgmtCore.zdpr_generation (session p)) 1))
          (set_zdpr_recv recv p), wakers).

Definition get_established_transport_association (p : PeerState) : option KmTransportSA :=
  transport_sa p.

Definition peer_type (p : PeerState) : PeerType :=
  match link_type (link_state_machine p) with
  | Internal =>
      if id (link_state_machine p) =? LOCAL_ACTOR_LINK_ID then TAdapter
      else if id (link_state_machine p) =? DOCK_LINK_ID then TDock else TUnknown
  | NodeToAdapter => TAdapter
  | AdapterToNode => TDock
  | NodeToNode => TNode
  end.

(** ** The table *)

Record PeerTable := mkTable {
  peer_slab : slab PeerState;
  sa_to_link : gmap (SubstrateAddr * ScopedIpAddr) Z;
  special_peers : SpecialPeerName -> Z
}.

Definition new : PeerTable :=
  mkTable (with_fixed_capacity PEER_TABLE_SIZE) ∅ (fun _ => LINK_ID_UNKNOWN).

Definition get (t : PeerTable) (link_id : Z) : option PeerState := slab_get (peer_slab t) (slot link_id).
Definition update (t : PeerTable) (link_id : Z) (f : PeerState -> PeerState) : PeerTable :=
  match get t link_id with
  | Some p => mkTable (slab_set (peer_slab t) (slot link_id) (f p)) (sa_to_link t) (special_peers t)
  | None => t
  end.

(** [vacant_entry] and the entry's [key] and [insert]. *)
Definition vacant_entry (t : PeerTable) : unit + PeerInsertError :=
  match vacant_key (peer_slab t) with Some _ => inl tt | None => inr TableFull end.
Definition link_of (key : Z) : outcome Z :=
  let l := wrap 32 (wrapping_add 64 key 1) in if l =? 0 then Panic else mret l.
Definition vacant_entry_key (t : PeerTable) : outcome Z := unwrap (vacant_key (peer_slab t)) ≫= link_of.
Definition vacant_entry_insert (t : PeerTable) (p : PeerState) : outcome (Z * PeerTable) :=
  '(k, s) ← unwrap (slab_insert (peer_slab t) p);
  r ← unwrap (slab_get s k);
  link_id ← link_of k;
  if is_unspecified (substrate_addr r).1 then mret (link_id, mkTable s (sa_to_link t) (special_peers t))
  else
    match sa_to_link t !! (substrate_addr r, interface_addr r) with
    | Some _ => Panic
    | None =>
        mret (link_id, mkTable s (<[(substrate_addr r, interface_addr r) := link_id]> (sa_to_link t))
                         (special_peers t))
    end.

(** The entries of [special_peers] that name the link are cleared. *)
Definition forget_special (t : PeerTable) (link_id : Z) : SpecialPeerName -> Z :=
  fun n => if special_peers t n =? link_id then LINK_ID_UNKNOWN else special_peers t n.

(** [find]: the first entry, in the slab's order, for which the predicate holds. *)
Definition find (t : PeerTable) (predicate : Z -> PeerState -> bool) : option (Z * PeerState) :=
  '(i, p) ← List.find (fun '(i, p) => predicate (stream_of i) p) (slab_iter (peer_slab t));
  Some (stream_of i, p).

(** ** Transaction handles

    A handle refers to its manager weakly: cloning or dropping it does nothing to a
    manager whose peer is gone, and a clone then refers to no manager ([0] is no
    link's [uid]). *)
Definition upgrade (t : PeerTable) (h : TxnHandle) : option (Z * PeerState) :=
  find t (fun _ p => uid (link_state_machine p) =? th_mgr h).
Definition clone_handle (t : PeerTable) (h : TxnHandle) : outcome (TxnHandle * PeerTable) :=
  match upgrade t h with
  | Some (l, p) =>
      m ← TxnMgr.ref_txn (txn_mgr p) (th_id h);
      mret (h, update t l (set_txn_mgr m))
  | None => mret (mkTxn 0 (th_id h), t)
  end.
Definition drop_handle (t : PeerTable) (h : TxnHandle) : outcome PeerTable :=
  match upgrade t h with
  | Some (l, p) =>
      '(m, _) ← TxnMgr.deref_txn (txn_mgr p) (th_id h);
      mret (update t l (set_txn_mgr m))
  | None => mret t
  end.
Fixpoint drop_handles (t : PeerTable) (hs : list TxnHandle) : outcome PeerTable :=
  match hs with
  | [] => mret t
  | h :: r => t' ← drop_handle t h; drop_handles t' r
  end.
Definition state_handle (b : BindRequestState) : option TxnHandle :=
  match b with AwaitingNextHopBind _ _ h => Some h | _ => None end.

(** [remove]; dropping the entry drops the handles of its bind requests. *)
Definition remove (t : PeerTable) (link_id : Z) : outcome PeerTable :=
  match get t link_id with
  | None => mret t
  | Some p =>
      s ← slab_remove (peer_slab t) (slot link_id);
      drop_handles
        (mkTable s (delete (substrate_addr p, interface_addr p) (sa_to_link t)) (forget_special t link_id))
        (omap state_handle (snd <$> map_to_list (bind_request_state (node_state p))))
  end.

Definition lookup_peer (t : PeerTable) (sa : SubstrateAddr) (ia : ScopedIpAddr) : option Z :=
  sa_to_link t !! (sa, ia).
Definition lookup_special_peer (t : PeerTable) (name : SpecialPeerName) : option Z :=
  if special_peers t name =? 0 then None else Some (special_peers t name).

Definition insert_internal_peer (next_uid : Z) (t : PeerTable) : outcome (Z * PeerTable * Z) :=
  match vacant_entry t with
  | inr _ => Panic
  | inl _ =>
      key ← vacant_entry_key t;
      '(p, u) ← new_internal_peer next_uid key None;
      '(l, t') ← vacant_entry_insert t p;
      mret (l, t', u)
  end.

Definition insert_internal_peer_pair (next_uid : Z) (t : PeerTable)
    : outcome ((Z * Z) * PeerTable * Z) :=
  match vacant_entry t with
  | inr _ => Panic
  | inl _ =>
      link_id1 ← vacant_entry_key t;
      let link_id2 := link_id1 + 1 in
      _ ← rust_assert (link_id2 <? 2 ^ 32);
      '(p1, u1) ← new_internal_peer next_uid link_id1 (Some link_id2);
      '(_, t1) ← vacant_entry_insert t p1;
      match vacant_entry t1 with
      | inr _ => Panic
      | inl _ =>
          key2 ← vacant_entry_key t1;
          _ ← rust_assert (key2 =? link_id2);
          '(p2, u2) ← new_internal_peer u1 link_id2 (Some link_id1);
          '(_, t2) ← vacant_entry_insert t1 p2;
          mret ((link_id1, link_id2), t2, u2)
      end
  end.

Definition len (t : PeerTable) : Z := zlen (slab_iter (peer_slab t)).

(** ** Key-management state *)

Definition set_security_association (t : PeerTable) (link_id : Z) (sa : KmTransportSA)
    : PeerTable * (unit + PeerUpdateError) :=
  match get t link_id with
  | None => (t, inr NoAssociationForLink)
  | Some _ => (update t link_id (set_transport_sa (Some sa)), inl tt)
  end.
Definition set_km_handle (t : PeerTable) (link_id : Z) (h : KmHandle)
    : PeerTable * (unit + PeerUpdateError) :=
  match get t link_id with
  | None => (t, inr NoAssociationForLink)
  | Some _ => (update t link_id (set_km_handle_field (Some h)), inl tt)
  end.
Definition clear_security_association (t : PeerTable) (link_id : Z)
    : PeerTable * (unit + PeerUpdateError) :=
  match get t link_id with
  | None => (t, inr NoAssociationForLink)
  | Some _ => (update t link_id (set_transport_sa None), inl tt)
  end.
Definition is_security_association_established (t : PeerTable) (link_id : Z) : bool :=
  match get t link_id with
  | Some p => match transport_sa p with Some _ => true | None => false end
  | None => false
  end.
Definition clone_km_manager (t : PeerTable) (link_id : Z) : option Z :=
  p ← get t link_id; h ← km_handle p; Some (km_mgr h).
Definition clone_km_tx_chan (t : PeerTable) (link_id : Z) : option Z :=
  p ← get t link_id; h ← km_handle p; Some (km_tx h).
Definition remove_km_state (t : PeerTable) (link_id : Z) : PeerTable * option KmHandle :=
  let t := (clear_security_association t link_id).1 in
  match get t link_id with
  | None => (t, None)
  | Some p =>
      match km_handle p with
      | None => (t, None)
      | Some h => (update t link_id (set_km_handle_field None), Some h)
      end
  end.

Definition assign_special_name (t : PeerTable) (name : SpecialPeerName) (link_id : Z)
    : PeerTable * (unit + PeerUpdateError) :=
  if special_peers t name =? LINK_ID_UNKNOWN
  then (mkTable (peer_slab t) (sa_to_link t)
          (fun n => if decide (n = name) then link_id else special_peers t n), inl tt)
  else (t, inr NoAssociationForLink).

Definition clear_peer_state (t : PeerTable) (link_id : Z) : PeerTable :=
  update t link_id (fun p => set_pft (pft_clear (pft p)) p).

Definition remove_route (t : PeerTable) (route : ForwardingEntry) : outcome PeerTable :=
  match get t (fe_link route) with
  | None => mret t
  | Some p =>
      f ← pft_remove (pft p) (fe_stream route);
      mret (update t (fe_link route) (set_pft f))
  end.

End peers.
Arguments PeerState slab : clear implicits.
Arguments PeerTable slab : clear implicits.
End PeerTable.
