(* ===== verification/PeerTableProps.v ===== *)
(** * The peer table: consistency

    The three tables of a [PeerTable] agree, under every operation. *)
From Stdlib Require Import ZArith Lia.
From stdpp Require Import base tactics option list numbers gmap.
From S2P Require Import Prelude Slab ForwardingTables TxnMgr Auth LinkTypes ZdprReceiver ZdprSender MgmtCore PeerTable.
Import ForwardingTables LinkTypes PeerTable.

Local Open Scope Z_scope.

Module PeerTableProps.

(** Link identifiers are 32 bits. *)
Definition u32 (x : Z) : Prop := 0 <= x < 2 ^ 32.

Section props.
Context `{Slab slab}.
Implicit Types (t : PeerTable slab) (p : PeerState slab) (l j : Z).

(** What no operation on an entry changes: its place and its addresses. *)
Definition keeps (f : PeerState slab -> PeerState slab) : Prop :=
  forall p, substrate_addr (f p) = substrate_addr p /\ interface_addr (f p) = interface_addr p /\
    id (link_state_machine (f p)) = id (link_state_machine p) /\
    (pft_ok (pft p) -> pft_ok (pft (f p))).

Record table_ok t : Prop := {
  ok_capacity : slab_capacity (peer_slab t) = PEER_TABLE_SIZE;
  ok_range : forall k p, slab_get (peer_slab t) k = Some p -> 0 <= k < PEER_TABLE_SIZE;
  ok_entry : forall l p, u32 l -> get t l = Some p ->
    id (link_state_machine p) = l /\ pft_ok (pft p);
  (** a substrate address is found exactly when a peer has it *)
  ok_addr : forall sa ia l, sa_to_link t !! (sa, ia) = Some l <->
    u32 l /\ is_unspecified sa.1 = false /\
    exists p, get t l = Some p /\ substrate_addr p = sa /\ interface_addr p = ia;
  ok_special : forall n, u32 (special_peers t n)
}.

(** ** Entries after an update, an insertion, a removal *)

Lemma get_update t l f j :
  u32 l -> u32 j -> get (update t l f) j = if decide (j = l) then f <$> get t l else get t j.
Proof.
  intros Hl Hj. unfold update, get. destruct (slab_get (peer_slab t) (slot l)) as [p|] eqn:E; cbn.
  - rewrite get_set by eauto. destruct (decide (slot j = slot l)) as [e|n].
    + apply slot_inj in e as ->; [|done..]. by rewrite decide_True.
    + rewrite decide_False; [done|]. by intros ->.
  - destruct (decide (j = l)) as [-> |]; done.
Qed.

Lemma get_zero t : (forall k p, slab_get (peer_slab t) k = Some p -> 0 <= k < PEER_TABLE_SIZE) ->
  get t 0 = None.
Proof.
  intros Hr. unfold get. destruct (slab_get (peer_slab t) (slot 0)) as [p|] eqn:E; [|done].
  apply Hr in E. exfalso. apply (slot_zero (slot 0)); [|done]. unfold PEER_TABLE_SIZE, MAX_ACTIVE_LINKS in E. lia.
Qed.

Lemma update_slab_get t l f k :
  slab_get (peer_slab (update t l f)) k =
  if decide (k = slot l) then f <$> slab_get (peer_slab t) k else slab_get (peer_slab t) k.
Proof.
  unfold update, get. destruct (slab_get (peer_slab t) (slot l)) as [p|] eqn:E; cbn.
  - rewrite get_set by eauto. destruct (decide _) as [-> |]; [by rewrite E|done].
  - destruct (decide _) as [-> |]; [by rewrite E|done].
Qed.

Lemma update_tables t l f :
  sa_to_link (update t l f) = sa_to_link t /\ special_peers (update t l f) = special_peers t /\
  slab_capacity (peer_slab (update t l f)) = slab_capacity (peer_slab t).
Proof.
  unfold update, get. destruct (slab_get (peer_slab t) (slot l)) as [p|] eqn:E; [|done]. cbn.
  split_and!; [done|done|]. apply set_spec. by eauto.
Qed.

Lemma update_ok t l f : u32 l -> keeps f -> table_ok t -> table_ok (update t l f).
Proof.
  intros Hl Hf [Hc Hr He Ha Hs]. destruct (update_tables t l f) as (E1 & E2 & E3).
  split; rewrite ?E1, ?E2, ?E3.
  - done.
  - intros k p. rewrite update_slab_get. destruct (decide _); [|by apply Hr].
    destruct (slab_get (peer_slab t) k) eqn:E; [|done]. intros _. by eapply Hr.
  - intros j p Hj. rewrite get_update by done. destruct (decide (j = l)) as [-> |]; [|by apply He].
    destruct (get t l) as [q|] eqn:E; [|done]. cbn. intros [= <-].
    destruct (Hf q) as (_ & _ & Hid & Hp). destruct (He l q Hl E). split; [congruence|auto].
  - intros sa ia j. rewrite Ha. split; intros (Hj & Hu & q & Hq & H1 & H2); (split_and!; [done|done|]).
    + rewrite get_update by done. destruct (decide (j = l)) as [-> |]; [|by eauto].
      rewrite Hq. cbn. eexists. split; [done|]. destruct (Hf q) as (-> & -> & _). done.
    + rewrite get_update in Hq by done. destruct (decide (j = l)) as [-> |]; [|by eauto].
      destruct (get t l) as [q'|] eqn:E; [|done]. cbn in Hq. simplify_eq.
      destruct (Hf q') as (Hsa & Hia & _). exists q'. by rewrite <- Hsa, <- Hia.
  - exact Hs.
Qed.

Lemma link_of_small k : 0 <= k < PEER_TABLE_SIZE -> link_of k = Ret (k + 1).
Proof.
  intros Hk. unfold link_of. unfold PEER_TABLE_SIZE, MAX_ACTIVE_LINKS in Hk.
  unfold wrapping_add. rewrite (wrap_small 64), (wrap_small 32) by lia.
  rewrite (proj2 (Z.eqb_neq _ _)) by lia. done.
Qed.

(** A reserved entry: its key is a link identifier that no peer has. *)
Lemma vacant_key_link t :
  table_ok t -> vacant_entry t = inl tt ->
  exists k, vacant_key (peer_slab t) = Some k /\ 0 <= k < PEER_TABLE_SIZE /\
    vacant_entry_key t = Ret (k + 1) /\ u32 (k + 1) /\ k + 1 <> 0 /\ get t (k + 1) = None.
Proof.
  intros Hok Hv. unfold vacant_entry in Hv. destruct (vacant_key (peer_slab t)) as [k|] eqn:E; [|done].
  destruct (vacant_key_free _ _ _ E) as [Hk Hn]. rewrite (ok_capacity t Hok) in Hk.
  exists k. unfold vacant_entry_key. rewrite E. cbn [unwrap]. rewrite bind_Ret, link_of_small by done.
  unfold PEER_TABLE_SIZE, MAX_ACTIVE_LINKS, u32 in *. split_and!; [done|lia|lia|done|lia|lia|lia|].
  unfold get. by rewrite (proj2 (slot_iff (k + 1) k ltac:(lia) ltac:(lia))).
Qed.

(** Whether an address is taken. *)
Definition address_taken t (p : PeerState slab) : bool :=
  negb (is_unspecified (substrate_addr p).1) &&
  match sa_to_link t !! (substrate_addr p, interface_addr p) with Some _ => true | None => false end.

(** Inserting a peer into a reserved entry, under the key that was reserved. *)
Lemma insert_link t k p :
  table_ok t -> vacant_key (peer_slab t) = Some k -> 0 <= k < PEER_TABLE_SIZE ->
  if address_taken t p then vacant_entry_insert t p = Panic
  else exists t', vacant_entry_insert t p = Ret (k + 1, t') /\
    special_peers t' = special_peers t /\ slab_capacity (peer_slab t') = PEER_TABLE_SIZE /\
    (forall j, slab_get (peer_slab t') j = if decide (j = k) then Some p else slab_get (peer_slab t) j) /\
    (forall a, sa_to_link t' !! a =
       if decide (is_unspecified (substrate_addr p).1 = false /\ a = (substrate_addr p, interface_addr p))
       then Some (k + 1) else sa_to_link t !! a).
Proof.
  intros Hok Hv Hk. destruct (insert_vacant (peer_slab t) k p Hv) as (s & Hi & Hc & Hg).
  unfold vacant_entry_insert, address_taken. rewrite Hi. cbn [unwrap]. rewrite bind_Ret.
  rewrite Hg, decide_True by done. cbn [unwrap]. rewrite bind_Ret, link_of_small, bind_Ret by done.
  rewrite (ok_capacity t Hok) in Hc.
  destruct (is_unspecified (substrate_addr p).1) eqn:Eu; cbn.
  - eexists. split_and!; [done..|]. intros a. rewrite decide_False by naive_solver. done.
  - destruct (sa_to_link t !! _) eqn:Ea; [done|]. eexists. split_and!; [done..|]. intros a. cbn.
    destruct (decide (a = (substrate_addr p, interface_addr p))) as [-> |Hn].
    + rewrite lookup_insert_eq, decide_True by done. done.
    + rewrite lookup_insert_ne, decide_False by naive_solver. done.
Qed.

Lemma slot_get_insert t t' k p j :
  0 <= k < PEER_TABLE_SIZE -> u32 j ->
  (forall i, slab_get (peer_slab t') i = if decide (i = k) then Some p else slab_get (peer_slab t) i) ->
  get t' j = if decide (j = k + 1) then Some p else get t j.
Proof.
  intros Hk Hj Hg. unfold get. rewrite Hg. apply decide_ext, slot_iff; [exact Hj|].
  unfold PEER_TABLE_SIZE, MAX_ACTIVE_LINKS in Hk. lia.
Qed.

Lemma insert_ok t t' k p :
  table_ok t -> vacant_key (peer_slab t) = Some k -> 0 <= k < PEER_TABLE_SIZE ->
  address_taken t p = false -> get t (k + 1) = None ->
  id (link_state_machine p) = k + 1 -> pft_ok (pft p) ->
  vacant_entry_insert t p = Ret (k + 1, t') ->
  table_ok t' /\ forall j, u32 j -> get t' j = if decide (j = k + 1) then Some p else get t j.
Proof.
  intros Hok Hv Hk Hat Hn Hid Hp Hins. pose proof (insert_link t k p Hok Hv Hk) as Hi.
  rewrite Hat in Hi. destruct Hi as (t'' & Hi & Hsp & Hc & Hg & Ha). rewrite Hins in Hi. simplify_eq.
  assert (forall j, u32 j -> get t'' j = if decide (j = k + 1) then Some p else get t j) as Hget
    by (intros; by eapply slot_get_insert).
  assert (u32 (k + 1)) as Hu by (unfold u32, PEER_TABLE_SIZE, MAX_ACTIVE_LINKS in *; lia).
  split; [|done]. destruct Hok as [Hc0 Hr He Ha0 Hs]. split; [done| | | |].
  - intros i q. rewrite Hg. destruct (decide _) as [-> |]; [done|apply Hr].
  - intros j q Hj. rewrite Hget by done. destruct (decide _) as [-> |]; [by intros [= <-]|by apply He].
  - intros sa ia j. rewrite Ha. destruct (decide _) as [[Hun e]|Hne].
    + simplify_eq. split.
      * intros [= <-]. split_and!; [done|done|]. exists p. rewrite Hget, decide_True by done. done.
      * intros (Hj & _ & q & Hq & E1 & E2). f_equal. destruct (decide (j = k + 1)) as [|Hjk]; [done|].
        rewrite Hget, decide_False in Hq by done.
        assert (sa_to_link t !! (substrate_addr p, interface_addr p) = Some j) as E.
        { apply Ha0. split_and!; [done|done|]. exists q. done. }
        unfold address_taken in Hat. rewrite Hun, E in Hat. done.
    + rewrite Ha0. split; intros (Hj & Hun & q & Hq & E1 & E2); (split_and!; [done|done|]); exists q.
      * rewrite Hget by done. rewrite decide_False; [done|]. intros ->. congruence.
      * rewrite Hget in Hq by done. destruct (decide _); [|done]. simplify_eq. destruct Hne. done.
  - by rewrite Hsp.
Qed.

(** ** Finding a peer *)

Lemma iter_get t k p : table_ok t -> (k, p) ∈ slab_iter (peer_slab t) <->
  0 <= k < PEER_TABLE_SIZE /\ u32 (stream_of k) /\ get t (stream_of k) = Some p.
Proof.
  intros Hok. rewrite iter_spec. split.
  - intros Hk. pose proof (ok_range t Hok k p Hk) as Hr. split; [done|].
    unfold PEER_TABLE_SIZE, MAX_ACTIVE_LINKS in Hr. split.
    + rewrite stream_of_small by lia. unfold u32. lia.
    + unfold get. by rewrite slot_stream_of by lia.
  - intros (Hr & _ & Hg). unfold PEER_TABLE_SIZE, MAX_ACTIVE_LINKS in Hr. unfold get in Hg.
    by rewrite slot_stream_of in Hg by lia.
Qed.

Lemma get_iter t l p : table_ok t -> u32 l -> get t l = Some p ->
  exists k, l = stream_of k /\ (k, p) ∈ slab_iter (peer_slab t).
Proof.
  intros Hok Hl Hg. exists (slot l). pose proof (ok_range t Hok (slot l) p Hg) as Hr.
  unfold PEER_TABLE_SIZE, MAX_ACTIVE_LINKS in Hr. split; [|by apply iter_spec].
  rewrite stream_of_small by lia. apply slot_iff; [done|lia|done].
Qed.

Lemma find_some t pr l p : table_ok t -> find t pr = Some (l, p) ->
  u32 l /\ get t l = Some p /\ pr l p = true.
Proof.
  intros Hok Hf. unfold find in Hf. destruct (List.find _ _) as [[k q]|] eqn:E; [|done].
  cbn in Hf. simplify_eq. apply List.find_some in E as [Hin Hp].
  apply list_elem_of_In, iter_get in Hin as (_ & ? & ?); [|done]. done.
Qed.

Lemma find_none t pr l p : table_ok t -> find t pr = None -> u32 l -> get t l = Some p -> pr l p = false.
Proof.
  intros Hok Hf Hl Hg. unfold find in Hf. destruct (List.find _ _) as [[k q]|] eqn:E; [done|].
  destruct (get_iter t l p Hok Hl Hg) as (k & -> & Hin).
  apply list_elem_of_In in Hin. by apply (List.find_none _ _ E) in Hin.
Qed.

(** ** Handles *)

Lemma keeps_txn m : keeps (set_txn_mgr m).
Proof. done. Qed.

Lemma peer_drop_handle_ok t h t' : table_ok t -> drop_handle t h = Ret t' -> table_ok t'.
Proof.
  intros Hok Hd. unfold drop_handle in Hd. destruct (upgrade t h) as [[l p]|] eqn:E.
  - apply find_some in E as (Hl & _ & _); [|done]. outcome_inv. destruct x as [m b]. outcome_inv.
    by apply update_ok.
  - by outcome_inv.
Qed.

Lemma drop_handles_ok t hs t' : table_ok t -> drop_handles t hs = Ret t' -> table_ok t'.
Proof.
  revert t. induction hs as [|h hs IH]; intros t Hok Hd; cbn [drop_handles] in Hd; outcome_inv; [done|].
  eapply IH; [|done]. by eapply peer_drop_handle_ok.
Qed.

(** ** Removal *)

Lemma remove_tables t l p :
  table_ok t -> u32 l -> get t l = Some p ->
  exists t0, remove t l = drop_handles t0 (omap state_handle (snd <$> map_to_list (bind_request_state (node_state p)))) /\
    table_ok t0 /\ special_peers t0 = forget_special t l /\
    forall j, u32 j -> get t0 j = if decide (j = l) then None else get t j.
Proof.
  intros Hok Hl Hg. unfold remove. rewrite Hg.
  destruct (remove_present (peer_slab t) (slot l)) as (s & -> & Hc & Hget); [by eauto|].
  rewrite bind_Ret. eexists. split; [done|].
  assert (forall j, u32 j -> slab_get s (slot j) = if decide (j = l) then None else get t j) as Hg'.
  { intros j Hj. rewrite Hget. apply decide_ext. split; [by apply slot_inj|by intros ->]. }
  split; [|split; [done|exact Hg']].
  destruct Hok as [Hc0 Hr He Ha Hs]. split; cbn [peer_slab sa_to_link special_peers].
  - by rewrite Hc.
  - intros k q. rewrite Hget. destruct (decide _); [done|apply Hr].
  - intros j q Hj. unfold get. cbn. rewrite Hg' by done. destruct (decide _); [done|by apply He].
  - intros sa ia j. destruct (decide ((sa, ia) = (substrate_addr p, interface_addr p))) as [e|Hne].
    + injection e as -> ->. rewrite lookup_delete_eq. split; [done|].
      intros (Hj & Hun & q & Hq & E1 & E2). exfalso.
      unfold get in Hq. cbn in Hq. rewrite Hg' in Hq by done. destruct (decide (j = l)) as [|Hjl]; [done|].
      assert (sa_to_link t !! (substrate_addr p, interface_addr p) = Some j) as E3
        by (apply Ha; split_and!; [done|done|by exists q]).
      assert (sa_to_link t !! (substrate_addr p, interface_addr p) = Some l) as E4
        by (apply Ha; split_and!; [done|done|by exists p]).
      congruence.
    + rewrite lookup_delete_ne by done. rewrite Ha.
      split; intros (Hj & Hun & q & Hq & E1 & E2); (split_and!; [done|done|]); exists q.
      * unfold get. cbn. rewrite Hg' by done. rewrite decide_False; [done|]. intros ->. congruence.
      * unfold get in Hq. cbn in Hq. rewrite Hg' in Hq by done. by destruct (decide _).
  - intros n. unfold forget_special. by destruct (_ =? _).
Qed.

Lemma remove_ok t l t' : table_ok t -> u32 l -> remove t l = Ret t' -> table_ok t'.
Proof.
  intros Hok Hl Hr. destruct (get t l) as [p|] eqn:E.
  - destruct (remove_tables t l p Hok Hl E) as (t0 & Heq & Hok0 & _). rewrite Heq in Hr.
    by eapply drop_handles_ok.
  - unfold remove in Hr. rewrite E in Hr. by outcome_inv.
Qed.

(** ** The other operations *)

Lemma new_ok : table_ok (new (slab:=slab)).
Proof.
  split; cbn; unfold get; cbn.
  - apply capacity_new.
  - intros k p. by rewrite get_new.
  - intros l p _. by rewrite get_new.
  - intros sa ia l. rewrite lookup_empty. split; [done|]. intros (_ & _ & p & Hp & _).
    by rewrite get_new in Hp.
  - done.
Qed.

Lemma keeps_pft f : pft_ok f -> keeps (set_pft f).
Proof. by intros Hf p. Qed.

Lemma remove_route_ok t r t' :
  table_ok t -> u32 (fe_link r) -> u32 (fe_stream r) -> remove_route t r = Ret t' -> table_ok t'.
Proof.
  intros Hok Hl Hs Hr. unfold remove_route in Hr. destruct (get t (fe_link r)) as [p|] eqn:E; [|by outcome_inv].
  apply bind_ret in Hr as (f & Hf & Hr). outcome_inv.
  apply update_ok; [done| |done]. apply keeps_pft.
  destruct (pft_remove_ret _ _ _ Hf Hs) as (_ & Hp & _). apply Hp.
  apply (ok_entry t Hok _ _ Hl E).
Qed.

Lemma assign_special_ok t n l : table_ok t -> u32 l -> table_ok (assign_special_name t n l).1.
Proof.
  intros Hok Hl. unfold assign_special_name. destruct (_ =? _); [|done]. cbn.
  destruct Hok as [Hc Hr He Ha Hs]. split; cbn; [done|done|done|done|].
  intros m. by destruct (decide _).
Qed.

(** Operations that leave the table or update one entry. *)
Definition updates (t t' : PeerTable slab) : Prop :=
  t' = t \/ exists l f, u32 l /\ keeps f /\ t' = update t l f.

Lemma updates_ok t t' : table_ok t -> updates t t' -> table_ok t'.
Proof. intros Hok [-> | (l & f & Hl & Hf & ->)]; [done|by apply update_ok]. Qed.

Lemma km_updates t l sa h : u32 l ->
  updates t (set_security_association t l sa).1 /\ updates t (set_km_handle t l h).1 /\
  updates t (clear_security_association t l).1 /\ updates t (clear_peer_state t l).
Proof.
  intros Hl. unfold set_security_association, set_km_handle, clear_security_association, clear_peer_state.
  split_and!; try (destruct (get t l); [|by left]); right; eexists l, _; (split_and!; [done| |done]); done.
Qed.

(** ** Runs

    A removal holds the lock of the slab and an assignment of a special name does
    not: a name may be assigned between the moment a removal forgets the names and
    the moment the entry goes.  The tables are then the same as when the name is
    assigned after the removal, so that [step_assign] asks nothing of the link. *)

Inductive step : PeerTable slab -> PeerTable slab -> Prop :=
| step_insert t p l t' :
    vacant_entry t = inl tt -> vacant_entry_key t = Ret (id (link_state_machine p)) ->
    pft_ok (pft p) -> vacant_entry_insert t p = Ret (l, t') -> step t t'
| step_remove t l t' : u32 l -> remove t l = Ret t' -> step t t'
| step_assign t n l : u32 l -> step t (assign_special_name t n l).1
| step_security t l sa : u32 l -> step t (set_security_association t l sa).1
| step_clear_security t l : u32 l -> step t (clear_security_association t l).1
| step_km t l h : u32 l -> step t (set_km_handle t l h).1
| step_clear t l : u32 l -> step t (clear_peer_state t l)
| step_route t r t' : u32 (fe_link r) -> u32 (fe_stream r) -> remove_route t r = Ret t' -> step t t'
| step_entry t l f : u32 l -> keeps f -> step t (update t l f).

Lemma insert_any_ok t p l t' :
  table_ok t -> vacant_entry t = inl tt -> vacant_entry_key t = Ret (id (link_state_machine p)) ->
  pft_ok (pft p) -> vacant_entry_insert t p = Ret (l, t') ->
  address_taken t p = false /\ l = id (link_state_machine p) /\ table_ok t' /\
  forall j, u32 j -> get t' j = if decide (j = l) then Some p else get t j.
Proof.
  intros Hok Hv Hk Hp Hi. destruct (vacant_key_link t Hok Hv) as (k & Hvk & Hr & Hkey & Hu & Hn0 & Hnone).
  rewrite Hk in Hkey. pose proof (insert_link t k p Hok Hvk Hr) as Hl.
  destruct (address_taken t p) eqn:Eat; [congruence|]. destruct Hl as (t0 & Hl & _).
  rewrite Hi in Hl. simplify_eq.
  destruct (insert_ok t t0 k p) as [? ?]; [done..|]. by split_and!.
Qed.

Lemma step_ok t t' : table_ok t -> step t t' -> table_ok t'.
Proof.
  intros Hok Hst. destruct Hst.
  - by eapply insert_any_ok.
  - by eapply remove_ok.
  - by apply assign_special_ok.
  - eapply updates_ok; [done|]. by apply (km_updates t l sa (mkKm 0 0)).
  - eapply updates_ok; [done|]. by apply (km_updates t l sa_default (mkKm 0 0)).
  - eapply updates_ok; [done|]. by apply (km_updates t l sa_default h).
  - eapply updates_ok; [done|]. by apply (km_updates t l sa_default (mkKm 0 0)).
  - by eapply remove_route_ok.
  - by apply update_ok.
Qed.

Lemma steps_ok t t' : table_ok t -> rtc step t t' -> table_ok t'.
Proof. intros Hok Hr. induction Hr as [|x y z Hxy _ IH]; [done|]. apply IH. by eapply step_ok. Qed.

(** ** Special names *)

Lemma update_get_some t l f j : u32 l -> u32 j -> is_Some (get (update t l f) j) <-> is_Some (get t j).
Proof.
  intros Hl Hj. rewrite get_update by done. destruct (decide _) as [-> |]; [|done]. by rewrite fmap_is_Some.
Qed.

(** Dropping handles changes no name and no presence. *)
Lemma drop_handles_names t hs t' : table_ok t -> drop_handles t hs = Ret t' ->
  special_peers t' = special_peers t /\ forall j, u32 j -> is_Some (get t' j) <-> is_Some (get t j).
Proof.
  revert t. induction hs as [|h hs IH]; intros t Hok Hd; cbn [drop_handles] in Hd.
  - by outcome_inv.
  - apply bind_ret in Hd as (t1 & Hd1 & Hd). pose proof (peer_drop_handle_ok _ _ _ Hok Hd1) as Hok1.
    destruct (IH _ Hok1 Hd) as [-> Hg]. unfold drop_handle in Hd1.
    destruct (upgrade t h) as [[l p]|] eqn:E; [|by outcome_inv].
    apply find_some in E as (Hl & _ & _); [|done]. outcome_inv. destruct x as [m b]. outcome_inv.
    split; [by apply update_tables|]. intros j Hj. rewrite Hg by done. by apply update_get_some.
Qed.

(** What a step does to a special name: it is the name it was, and its peer stays;
    or it has just been given. *)
Definition name_kept (t t' : PeerTable slab) (n : SpecialPeerName) l : Prop :=
  lookup_special_peer t n = Some l /\ (is_Some (get t l) -> is_Some (get t' l)).

Lemma updates_names t t' n l : updates t t' -> table_ok t ->
  lookup_special_peer t' n = Some l -> name_kept t t' n l.
Proof.
  intros [-> | (j & f & Hj & _ & ->)] Hok; [done|].
  unfold name_kept, lookup_special_peer. rewrite (proj1 (proj2 (update_tables t j f))).
  intros Hn. split; [done|]. destruct (_ =? _) in Hn; simplify_eq.
  apply update_get_some; [done|apply (ok_special t Hok)].
Qed.

Lemma remove_names t j t' n l : table_ok t -> u32 j -> remove t j = Ret t' ->
  lookup_special_peer t' n = Some l -> name_kept t t' n l.
Proof.
  intros Hok Hj Hr Hn. destruct (get t j) as [p|] eqn:E.
  - destruct (remove_tables t j p Hok Hj E) as (t0 & Heq & Hok0 & Hsp & Hg). rewrite Heq in Hr.
    destruct (drop_handles_names _ _ _ Hok0 Hr) as [Hs Hg'].
    unfold name_kept, lookup_special_peer in *. rewrite Hs, Hsp in Hn. unfold forget_special in Hn.
    destruct (Z.eqb_spec (special_peers t n) j) as [|Hne]; [done|].
    split; [done|]. destruct (_ =? _) in Hn; simplify_eq. intros Hl.
    pose proof (ok_special t Hok n) as Hu. rewrite Hg', Hg, decide_False by done. done.
  - unfold remove in Hr. rewrite E in Hr. outcome_inv. by split.
Qed.

Lemma step_names t t' n l : table_ok t -> step t t' -> lookup_special_peer t' n = Some l ->
  name_kept t t' n l \/
  (u32 l /\ lookup_special_peer t n = None /\ t' = (assign_special_name t n l).1).
Proof.
  intros Hok Hst Hn. destruct Hst as [t p j t' Hv Hk Hp Hi|t j t' Hj Hr|t m j Hj| | | | |t r t' Hl Hs Hr|].
  - left. destruct (insert_any_ok t p j t' Hok Hv Hk Hp Hi) as (Hat & -> & _ & Hg).
    destruct (vacant_key_link t Hok Hv) as (k & Hvk & Hr & _).
    pose proof (insert_link t k p Hok Hvk Hr) as Hl. rewrite Hat, Hi in Hl.
    destruct Hl as (t0 & Heq & Hsp & _). simplify_eq. unfold name_kept, lookup_special_peer in *.
    rewrite Hsp in Hn. split; [done|]. destruct (_ =? _) in Hn; simplify_eq. intros Hs.
    rewrite Hg by apply (ok_special t Hok). destruct (decide _); [by eauto|done].
  - left. by eapply remove_names.
  - unfold assign_special_name, name_kept, lookup_special_peer in *.
    destruct (Z.eqb_spec (special_peers t m) LINK_ID_UNKNOWN) as [E|]; [|by left]. cbn in *.
    destruct (decide (n = m)) as [-> |]; [|by left]. right.
    destruct (j =? 0) eqn:Ej; simplify_eq. rewrite E. by split_and!.
  - left. eapply updates_names; [by apply (km_updates t l0 sa (mkKm 0 0))|done..].
  - left. eapply updates_names; [by apply (km_updates t l0 sa_default (mkKm 0 0))|done..].
  - left. eapply updates_names; [by apply (km_updates t l0 sa_default h)|done..].
  - left. eapply updates_names; [by apply (km_updates t l0 sa_default (mkKm 0 0))|done..].
  - left. eapply updates_names; [|done..]. unfold remove_route in Hr.
    destruct (get t (fe_link r)) as [p|] eqn:E; [|left; by outcome_inv].
    apply bind_ret in Hr as (f & Hf & Hr). outcome_inv. right. eexists (fe_link r), _. split_and!; [done| |done].
    apply keeps_pft. destruct (pft_remove_ret _ _ _ Hf Hs) as (_ & Hp & _). apply Hp.
    apply (ok_entry t Hok _ _ Hl E).
  - left. eapply updates_names; [right; by eauto|done..].
Qed.

(** A name without its peer was given when that peer was already gone. *)
Definition given_late t (n : SpecialPeerName) l : Prop :=
  exists t0, rtc step new t0 /\ lookup_special_peer t0 n = None /\ u32 l /\ get t0 l = None /\
    rtc step (assign_special_name t0 n l).1 t.

Lemma names_present t n l : rtc step new t -> lookup_special_peer t n = Some l ->
  is_Some (get t l) \/ given_late t n l.
Proof.
  intros Hr. revert n l. refine (rtc_ind_r (fun t => forall n l, lookup_special_peer t n = Some l ->
    is_Some (get t l) \/ given_late t n l) new _ _ t Hr); [done|]. clear t Hr.
  intros t t' Hr Hst IH n l Hn.
  pose proof (steps_ok _ _ new_ok Hr) as Hok.
  destruct (step_names _ _ _ _ Hok Hst Hn) as [[Hn0 Hk]|(Hl & Hn0 & ->)].
  - destruct (IH _ _ Hn0) as [Hs|(t0 & ? & ? & ? & ? & ?)]; [left; by apply Hk|].
    right. exists t0. split_and!; [done..|]. by eapply rtc_r.
  - destruct (get t l) as [p|] eqn:E.
    + left. unfold assign_special_name. destruct (_ =? _); cbn; by rewrite ?E.
    + right. exists t. by split_and!.
Qed.


(** Such names exist: a name given to an absent link leads nowhere, and no other peer
    can have it. *)
Lemma late_name_stays (n : SpecialPeerName) j :
  let t := (assign_special_name new n 7).1 : PeerTable slab in
  lookup_special_peer t n = Some 7 /\ get t 7 = None /\
  assign_special_name t n j = (t, inr NoAssociationForLink).
Proof.
  cbn. unfold lookup_special_peer, get, assign_special_name, LINK_ID_UNKNOWN. cbn.
  by rewrite decide_True, get_new by done.
Qed.

End props.

(** A table with one docked adapter. *)
Definition example_peer : PeerState FirstFit.table :=
  mkPeer (replicate 16 7, 5000) (replicate 16 8, 0) (link_new 1 1 NodeToAdapter).1 pft_new node_new
    (replicate 32 1) None (MgmtCore.mkSession Tx.new 0) (Rx.mkReceiver 32 0 0 0 (fun _ => 0)) TxnMgr.new None None.
Definition example_table : PeerTable FirstFit.table :=
  mkTable (FirstFit.mkTable PEER_TABLE_SIZE {[0 := example_peer]})
    {[(replicate 16 7, 5000, (replicate 16 8, 0)) := 1]} (fun _ => 0).

Lemma example_insert : vacant_entry_insert new example_peer = Ret (1, example_table).
Proof. reflexivity. Qed.


End PeerTableProps.
