(* ===== verification/VisaTable.v ===== *)
(** * The visa table ([visa_table.rs])

    The visas a node holds, each with the forwarding entries that were set up under
    it, a queue of expirations and a table that finds a visa for a five-tuple.
    Revoking a visa, or its expiry, takes its forwarding entries out of the peer
    forwarding tables.  The visas of the visa service ([vsapi_types]) and the
    five-tuple lookup table are of other crates: the class [VisaEnv]. *)
From Stdlib Require Import ZArith Lia.
From stdpp Require Import base tactics option list numbers gmap.
From S2P Require Import Prelude Slab NetDefs Tc ForwardingTables PeerTable.
Import Tc ForwardingTables.

Local Open Scope Z_scope.

(** [DockPep] with its payload [Pep]; [KeySet]; [ForwardPep]; [Visa]. *)
Inductive VisaType := Full | ForwardOnly.
#[export] Instance VisaType_eq_dec : EqDecision VisaType.
Proof. solve_decision. Defined.
Record KeySet := mkKeys { ingress_key : list Z; egress_key : list Z }.
Record DockPep (Pep : Type) := mkDockPep {
  source_addr : list Z; dest_addr : list Z; session_key : KeySet; pep : Pep
}.
Arguments mkDockPep {Pep}. Arguments source_addr {Pep}. Arguments dest_addr {Pep}.
Arguments session_key {Pep}. Arguments pep {Pep}.
Record VsVisa (Pep : Type) := mkVsVisa {
  issuer_id : Z; config_id : Z; expires : Z; visa_type : VisaType;
  dock_pep : option (DockPep Pep); fwd_pep : option (list Z)
}.
Arguments mkVsVisa {Pep}. Arguments issuer_id {Pep}. Arguments config_id {Pep}.
Arguments expires {Pep}. Arguments visa_type {Pep}. Arguments dock_pep {Pep}. Arguments fwd_pep {Pep}.

Class VisaEnv := {
  Pep : Type;
  (** [DockPepType::TCP] with [EndpointT::Any], and [HasFiveTuple] of a [DockPep] *)
  pep_tcp : Z -> Z -> Pep;
  get_five_tuple : DockPep Pep -> FiveTuple;
  (** [FiveTupleLookupTable] *)
  LookupTable : Type;
  lt_new : LookupTable;
  lt_insert_visa : LookupTable -> Z -> FiveTuple -> LookupTable;
  lt_add_hash : LookupTable -> gmap Z FiveTuple -> LookupTable;
  lt_find_match : LookupTable -> FiveTuple -> option Z;
  (** [IpAddress::UNSPECIFIED], also its [Default]; the visa service's address and
      port; v4 addresses mapped into v6 are given as such *)
  UNSPECIFIED : list Z;
  VISA_SERVICE_ADDR : list Z;
  VISA_SERVICE_PORT : Z
}.

Module VisaTable.

Definition VS_VISAS_DURATION : Z := 60 * 60 * 24 * 1000000000.
Definition VS_VISAS_CONFIG_ID : Z := 100.
Definition MIN_VISA_ID : Z := 1000.

Inductive VisaTableError :=
| NotFound (visa_id : Z) | ParseError | DestNotFound (addr : list Z) | InsertError.

Record VisaTimeout := mkTimeout { timeout_id : Z; expiration : Z }.
#[export] Instance VisaTimeout_eq_dec : EqDecision VisaTimeout.
Proof. solve_decision. Defined.

(** [other.cmp(self)] on expiration, then on identifier: the greatest expires
    soonest. *)
Definition timeout_cmp (self other : VisaTimeout) : comparison :=
  match Z.compare (expiration other) (expiration self) with
  | Eq => Z.compare (timeout_id other) (timeout_id self)
  | c => c
  end.

(** A [BinaryHeap] is a list here: [peek] is a greatest element, [pop] takes it. *)
Definition timeout_max (a b : VisaTimeout) : VisaTimeout :=
  match timeout_cmp a b with Lt => b | _ => a end.
Definition heap_peek (q : list VisaTimeout) : option VisaTimeout :=
  match q with [] => None | t :: r => Some (foldl timeout_max t r) end.
Fixpoint remove_first (t : VisaTimeout) (q : list VisaTimeout) : list VisaTimeout :=
  match q with
  | [] => []
  | x :: r => if decide (x = t) then r else x :: remove_first t r
  end.
Definition heap_pop (q : list VisaTimeout) : option (VisaTimeout * list VisaTimeout) :=
  t ← heap_peek q; Some (t, remove_first t q).

Section visas.
Context `{VisaEnv} `{SlabOps slab}.

Record Visa := mkVisa {
  visa : VsVisa Pep;
  streams : list ForwardingEntry;
  ftuple : FiveTuple;
  visa_next_hop : list Z
}.
Definition set_streams (s : list ForwardingEntry) (v : Visa) : Visa :=
  mkVisa (visa v) s (ftuple v) (visa_next_hop v).

Definition visa_new (v : VsVisa Pep) : outcome Visa :=
  if negb (bool_decide (visa_type v = Full)) then Panic
  else
    d ← unwrap (dock_pep v);
    mret (mkVisa v [] (get_five_tuple d) (default UNSPECIFIED (fwd_pep v))).

Fixpoint remove_routes (t : PeerTable.PeerTable slab) (entries : list ForwardingEntry)
    : outcome (PeerTable.PeerTable slab) :=
  match entries with
  | [] => mret t
  | e :: r => t' ← PeerTable.remove_route t e; remove_routes t' r
  end.

Definition remove_forwarding_entries (v : Visa) (t : PeerTable.PeerTable slab)
    : outcome (Visa * PeerTable.PeerTable slab * list ForwardingEntry) :=
  t' ← remove_routes t (streams v);
  mret (set_streams [] v, t', streams v).

Definition visa_link_forwarding_entry (e : ForwardingEntry) (v : Visa) : Visa :=
  set_streams (streams v ++ [e]) v.

(** [Vec::swap_remove]: the last element takes the place of the removed one. *)
Definition swap_remove (l : list ForwardingEntry) (i : nat) : list ForwardingEntry :=
  match last l with
  | None => l
  | Some z => take (length l - 1) (<[i := z]> l)
  end.
Definition visa_unlink_forwarding_entry (e : ForwardingEntry) (v : Visa) : Visa * bool :=
  match list_find (fun fe => e = fe) (streams v) with
  | Some (i, _) => (set_streams (swap_remove (streams v) i) v, true)
  | None => (v, false)
  end.

Definition get_tc (v : Visa) : outcome Ip5TupleTc :=
  if negb (bool_decide (visa_type (visa v) = Full)) then Panic
  else d ← unwrap (dock_pep (visa v)); mret (Tc.new (get_five_tuple d)).
Definition visa_match_traffic (v : Visa) (ft : FiveTuple) : outcome bool :=
  tc ← get_tc v; mret (classify_5t tc ft).

(** A key of another length than 32 is none. *)
Definition key32 (k : list Z) : option (list Z) := if zlen k =? 32 then Some k else None.
Definition get_ingress_a2a_dh_pubkey (v : Visa) : option (list Z) :=
  d ← dock_pep (visa v); key32 (ingress_key (session_key d)).
Definition get_egress_a2a_dh_pubkey (v : Visa) : option (list Z) :=
  d ← dock_pep (visa v); key32 (egress_key (session_key d)).

(** ** The table *)

Record VisaTable := mkVisaTable {
  table : gmap Z Visa;
  timeout_queue : list VisaTimeout;
  lookup_table : LookupTable
}.

Definition new : VisaTable := mkVisaTable ∅ [] lt_new.

(** A fresh lookup table with every visa of the table in it. *)
Definition rebuild (t : VisaTable) : VisaTable :=
  mkVisaTable (table t) (timeout_queue t) (lt_add_hash lt_new (ftuple <$> table t)).

Definition insert_visa (t : VisaTable) (v : VsVisa Pep) : outcome (VisaTable * (Z + VisaTableError)) :=
  let visa_id := issuer_id v in
  w ← visa_new v;
  mret (mkVisaTable (<[visa_id := w]> (table t)) (mkTimeout visa_id (expires v) :: timeout_queue t)
          (lt_insert_visa (lookup_table t) visa_id (ftuple w)), inl visa_id).

Definition match_traffic (t : VisaTable) (ft : FiveTuple) : option Z := lt_find_match (lookup_table t) ft.

Definition on_visa (t : VisaTable) (visa_id : Z) (f : Visa -> Visa) : VisaTable :=
  mkVisaTable (alter f visa_id (table t)) (timeout_queue t) (lookup_table t).

Definition link_forwarding_entry (t : VisaTable) (visa_id : Z) (e : ForwardingEntry)
    : VisaTable * (unit + VisaTableError) :=
  match table t !! visa_id with
  | None => (t, inr (NotFound visa_id))
  | Some _ => (on_visa t visa_id (visa_link_forwarding_entry e), inl tt)
  end.

Definition unlink_forwarding_entry (t : VisaTable) (visa_id : Z) (e : ForwardingEntry)
    : VisaTable * (bool + VisaTableError) :=
  match table t !! visa_id with
  | None => (t, inr (NotFound visa_id))
  | Some v =>
      (on_visa t visa_id (fun v => (visa_unlink_forwarding_entry e v).1),
       inl (visa_unlink_forwarding_entry e v).2)
  end.

Definition revoke_no_rebuild (t : VisaTable) (pt : PeerTable.PeerTable slab) (visa_id : Z)
    : outcome (VisaTable * PeerTable.PeerTable slab * (list ForwardingEntry + VisaTableError)) :=
  match table t !! visa_id with
  | None => mret (t, pt, inr (NotFound visa_id))
  | Some v =>
      '(_, pt', withdrawn) ← remove_forwarding_entries v pt;
      mret (mkVisaTable (delete visa_id (table t)) (timeout_queue t) (lookup_table t), pt', inl withdrawn)
  end.

Definition revoke (t : VisaTable) (pt : PeerTable.PeerTable slab) (visa_id : Z)
    : outcome (VisaTable * PeerTable.PeerTable slab * (list ForwardingEntry + VisaTableError)) :=
  '(t', pt', r) ← revoke_no_rebuild t pt visa_id;
  mret (rebuild t', pt', inl (match r with inl w => w | inr _ => [] end)).

(** [revoke_no_rebuild] on each of a list of visas, collecting what was withdrawn. *)
Fixpoint revoke_each (t : VisaTable) (pt : PeerTable.PeerTable slab) (ids : list Z)
    : outcome (VisaTable * PeerTable.PeerTable slab * list ForwardingEntry) :=
  match ids with
  | [] => mret (t, pt, [])
  | i :: r =>
      '(t1, pt1, w) ← revoke_no_rebuild t pt i;
      '(t2, pt2, ws) ← revoke_each t1 pt1 r;
      mret (t2, pt2, (match w with inl w => w | inr _ => [] end) ++ ws)
  end.

(** The loop of [handle_expirations], one turn per entry of the queue. *)
Fixpoint expire_loop (fuel : nat) (now : Z) (t : VisaTable) (pt : PeerTable.PeerTable slab)
    : outcome (VisaTable * PeerTable.PeerTable slab * list ForwardingEntry) :=
  match fuel with
  | O => Panic
  | S fuel =>
      match heap_peek (timeout_queue t) with
      | Some e =>
          if expiration e <? now then
            '(e, q) ← unwrap (heap_pop (timeout_queue t));
            '(t1, pt1, w) ← revoke_no_rebuild (mkVisaTable (table t) q (lookup_table t)) pt (timeout_id e);
            '(t2, pt2, ws) ← expire_loop fuel now t1 pt1;
            mret (t2, pt2, (match w with inl w => w | inr _ => [] end) ++ ws)
          else mret (t, pt, [])
      | None => mret (t, pt, [])
      end
  end.

Definition handle_expirations (now : Z) (t : VisaTable) (pt : PeerTable.PeerTable slab)
    : outcome (VisaTable * PeerTable.PeerTable slab * list ForwardingEntry) :=
  '(t', pt', w) ← expire_loop (S (length (timeout_queue t))) now t pt;
  mret (rebuild t', pt', w).

(** The visas with an entry on the link, but for the reserved ones. *)
Definition to_revoke (t : VisaTable) (link_id : Z) : list Z :=
  fst <$> filter (fun '(i, v) => (MIN_VISA_ID <=? i) && existsb (fun e => fe_link e =? link_id) (streams v) = true)
    (map_to_list (table t)).

Definition revoke_for_link (t : VisaTable) (link_id : Z) (pt : PeerTable.PeerTable slab)
    : outcome (VisaTable * PeerTable.PeerTable slab * list ForwardingEntry) :=
  match to_revoke t link_id with
  | [] => mret (t, pt, [])
  | ids =>
      '(t', pt', w) ← revoke_each t pt ids;
      mret (rebuild t', pt', w)
  end.

Definition get_visa_next_hop_addr (t : VisaTable) (visa_id : Z) : list Z + VisaTableError :=
  match table t !! visa_id with
  | None => inr (NotFound visa_id)
  | Some v =>
      if bool_decide (visa_next_hop v = UNSPECIFIED) then inl (dst_address (ftuple v))
      else inl (visa_next_hop v)
  end.

(** ** The visas a node starts with *)

Definition make_tcp_visa (visa_id : Z) (source : list Z) (source_port : Z) (dest : list Z)
    (dest_port configuration expiration_ms : Z) : VsVisa Pep :=
  mkVsVisa visa_id configuration (expiration_ms * 1000000) Full
    (Some (mkDockPep source dest (mkKeys [] []) (pep_tcp source_port dest_port))) None.

Definition new_with_vs_visas (now : Z) (node_zpr_addr : list Z) : outcome VisaTable :=
  let expires_ms := (now + VS_VISAS_DURATION) / 1000000 in
  let node2vs := make_tcp_visa 1 node_zpr_addr 0 VISA_SERVICE_ADDR VISA_SERVICE_PORT
                   VS_VISAS_CONFIG_ID expires_ms in
  let vs2node := make_tcp_visa 2 VISA_SERVICE_ADDR VISA_SERVICE_PORT node_zpr_addr 0
                   VS_VISAS_CONFIG_ID expires_ms in
  '(t1, _) ← insert_visa new node2vs;
  '(t2, _) ← insert_visa t1 vs2node;
  mret (rebuild t2).

End visas.
Arguments Visa {_}. Arguments VisaTable {_}.
End VisaTable.
