(* ===== verification/VisaTableProps.v ===== *)
(** * The visa table: revocation and expiry withdraw routes

    A route is an entry of a peer forwarding table.  Revoking a visa takes out the
    routes that are recorded with it, and panics when one of them is not there
    ([stale]), which happens when a route was unbound and its record stayed.
    [streams_live]: what is recorded are routes, each once. *)
From Stdlib Require Import ZArith Lia.
From stdpp Require Import base tactics option list numbers gmap sorting.
From S2P Require Import Prelude Slab NetDefs Tc ForwardingTables PeerTable PeerTableProps VisaTable.
Import ForwardingTables PeerTable PeerTableProps VisaTable.

Local Open Scope Z_scope.

Module VisaTableProps.

(** ** The queue of expirations *)
Section heap.
Implicit Types (t x : VisaTimeout) (q : list VisaTimeout).

Lemma timeout_max_spec a b :
  (timeout_max a b = a \/ timeout_max a b = b) /\
  expiration (timeout_max a b) <= expiration a /\ expiration (timeout_max a b) <= expiration b.
Proof.
  unfold timeout_max, timeout_cmp. destruct (Z.compare_spec (expiration b) (expiration a)).
  - destruct (Z.compare (timeout_id b) (timeout_id a)); split; auto; lia.
  - split; [auto|lia].
  - split; [auto|lia].
Qed.

Lemma foldl_max_spec t q :
  foldl timeout_max t q ∈ t :: q /\
  forall x, x ∈ t :: q -> expiration (foldl timeout_max t q) <= expiration x.
Proof.
  revert t. induction q as [|y q IH]; intros t; cbn [foldl].
  - split; [left|]. intros x [-> |H]%elem_of_cons; [lia|by apply not_elem_of_nil in H].
  - destruct (IH (timeout_max t y)) as [Hin Hle]. destruct (timeout_max_spec t y) as (Hm & Hr1 & Hr2).
    pose proof (Hle (timeout_max t y) ltac:(left)) as Hm'. split.
    + apply elem_of_cons in Hin as [-> |Hin]; [|by do 2 right].
      destruct Hm as [-> | ->]; [left|right; left].
    + intros x [-> |[-> |Hx]%elem_of_cons]%elem_of_cons; [lia|lia|]. apply Hle. by right.
Qed.

Lemma remove_first_perm t q : t ∈ q -> q ≡ₚ t :: remove_first t q.
Proof.
  induction q as [|x q IH]; [by intros ?%not_elem_of_nil|]. cbn [remove_first].
  intros [-> |Hin]%elem_of_cons; [by rewrite decide_True|].
  destruct (decide (x = t)) as [-> |]; [done|].
  etransitivity; [apply perm_skip, IH, Hin|]. apply perm_swap.
Qed.

(** [pop] takes an entry that expires first. *)
Lemma heap_spec q :
  match heap_peek q with
  | None => q = []
  | Some t => exists q', heap_pop q = Some (t, q') /\ q ≡ₚ t :: q' /\
      forall x, x ∈ q -> expiration t <= expiration x
  end.
Proof.
  destruct q as [|t q]; [done|]. unfold heap_pop. cbn [heap_peek]. destruct (foldl_max_spec t q) as [Hin Hle].
  eexists. split; [done|]. split; [by apply remove_first_perm|done].
Qed.

End heap.

Section props.
Context `{VisaEnv} `{Slab slab}.
Implicit Types (pt : PeerTable slab) (vt : VisaTable) (l s : Z) (e : ForwardingEntry).

(** ** Routes *)

Definition route pt l s : option PftPep := p ← get pt l; pft_get (pft p) s.

Definition entry_u32 e : Prop := u32 (fe_link e) /\ u32 (fe_stream e).

(** The peers are the same but for their forwarding tables. *)
Definition same_but_pft pt pt' : Prop :=
  forall l, u32 l -> match get pt l, get pt' l with
    | Some p, Some p' => exists f, p' = set_pft f p
    | None, None => True
    | _, _ => False
    end.

Lemma same_but_pft_refl pt : same_but_pft pt pt.
Proof. intros l _. destruct (get pt l) as [p|]; [|done]. exists (pft p). by destruct p. Qed.

Lemma same_but_pft_trans pt1 pt2 pt3 :
  same_but_pft pt1 pt2 -> same_but_pft pt2 pt3 -> same_but_pft pt1 pt3.
Proof.
  intros H12 H23 l Hl. specialize (H12 l Hl). specialize (H23 l Hl).
  destruct (get pt1 l), (get pt2 l), (get pt3 l); try done.
  destruct H12 as [f ->], H23 as [g ->]. by exists g.
Qed.

Lemma remove_route_spec pt e pt' :
  table_ok pt -> entry_u32 e -> remove_route pt e = Ret pt' ->
  table_ok pt' /\ same_but_pft pt pt' /\
  sa_to_link pt' = sa_to_link pt /\ special_peers pt' = special_peers pt /\
  forall l s, u32 l -> u32 s -> route pt' l s = if decide (FE l s = e) then None else route pt l s.
Proof.
  intros Hok [Hl Hs] Hr. split; [by eapply remove_route_ok|].
  unfold remove_route in Hr. destruct (get pt (fe_link e)) as [p|] eqn:E.
  - apply bind_ret in Hr as (f & Hf & Hr). outcome_inv.
    destruct (pft_remove_ret _ _ _ Hf Hs) as (_ & _ & Hg).
    destruct (update_tables pt (fe_link e) (set_pft f)) as (E1 & E2 & _). split_and!; [|done|done|].
    + intros l Hl'. rewrite get_update by done. destruct (decide (l = fe_link e)) as [-> |].
      * rewrite E. cbn. by exists f.
      * by apply same_but_pft_refl.
    + intros l s Hl' Hs'. unfold route. rewrite get_update by done.
      destruct (decide (l = fe_link e)) as [-> |Hne].
      * rewrite E. cbn. rewrite Hg by done. destruct e as [a b]. cbn.
        destruct (decide (s = b)) as [-> |Hn]; [by rewrite decide_True|].
        rewrite decide_False; [done|congruence].
      * rewrite decide_False; [done|]. intros <-. done.
  - outcome_inv. split_and!; [by apply same_but_pft_refl|done|done|]. intros l s _ _.
    destruct (decide (FE l s = e)) as [<- |]; [|done]. unfold route. cbn in E. by rewrite E.
Qed.

Lemma remove_routes_spec pt es pt' :
  table_ok pt -> Forall entry_u32 es -> remove_routes pt es = Ret pt' ->
  table_ok pt' /\ same_but_pft pt pt' /\
  sa_to_link pt' = sa_to_link pt /\ special_peers pt' = special_peers pt /\
  forall l s, u32 l -> u32 s -> route pt' l s = if decide (FE l s ∈ es) then None else route pt l s.
Proof.
  revert pt. induction es as [|e es IH]; intros pt Hok Hu Hr; cbn [remove_routes] in Hr.
  - outcome_inv. split_and!; [done|by apply same_but_pft_refl|done|done|]. intros l s _ _.
    by rewrite decide_False by apply not_elem_of_nil.
  - apply list.Forall_cons in Hu as [He Hu]. apply bind_ret in Hr as (pt1 & Hr1 & Hr).
    destruct (remove_route_spec _ _ _ Hok He Hr1) as (Hok1 & Hs1 & E1 & E2 & Hg1).
    destruct (IH pt1 Hok1 Hu Hr) as (Hok' & Hs' & E3 & E4 & Hg').
    split_and!; [done|by eapply same_but_pft_trans|congruence|congruence|].
    intros l s Hl Hs. rewrite Hg', Hg1 by done.
    destruct (decide (FE l s ∈ es)), (decide (FE l s = e)), (decide (FE l s ∈ e :: es)) as [Hi|Hi];
      try done; rewrite elem_of_cons in Hi; tauto.
Qed.

(** Taking entries out panics exactly when one of them, of a peer that is there, is
    not a route or is listed twice. *)
Definition stale pt (es : list ForwardingEntry) : Prop :=
  exists e, e ∈ es /\ is_Some (get pt (fe_link e)) /\
    (route pt (fe_link e) (fe_stream e) = None \/ exists r, es ≡ₚ e :: e :: r).

#[global] Instance stale_proper pt : Proper ((≡ₚ) ==> iff) (stale pt).
Proof.
  intros es es' Hp. unfold stale. split; intros (e & Hin & Hg & Hc); exists e;
    (split_and!; [by rewrite Hp in Hin || rewrite <- Hp in Hin|done|]); (destruct Hc as [?|[r Hr]]; [by left|right; exists r]);
    by rewrite <- Hr.
Qed.

Lemma remove_route_panics pt e :
  remove_route pt e = Panic <-> is_Some (get pt (fe_link e)) /\ route pt (fe_link e) (fe_stream e) = None.
Proof.
  unfold remove_route, route. destruct (get pt (fe_link e)) as [p|]; cbn; [|by split; [|intros [[? ?] _]]].
  destruct (pft_get (pft p) (fe_stream e)) as [q|] eqn:E.
  - destruct (pft_remove_present (pft p) (fe_stream e)) as [f ->]; [by rewrite E|]. by split; [|intros [_ ?]].
  - rewrite pft_remove_absent by done. split; [by eauto|done].
Qed.

Lemma stale_step pt e es pt1 :
  table_ok pt -> entry_u32 e -> Forall entry_u32 es -> remove_route pt e = Ret pt1 ->
  stale pt1 es <-> stale pt (e :: es).
Proof.
  intros Hok He Hu Hr. destruct (remove_route_spec _ _ _ Hok He Hr) as (_ & Hs1 & _ & _ & Hg1).
  rewrite list.Forall_forall in Hu.
  assert (forall x, u32 (fe_link x) -> is_Some (get pt1 (fe_link x)) <-> is_Some (get pt (fe_link x))) as Hget.
  { intros x Hx. specialize (Hs1 _ Hx). destruct (get pt1 (fe_link x)), (get pt (fe_link x)); try done;
      split; intros [? ?]; done. }
  assert (forall x, entry_u32 x -> route pt1 (fe_link x) (fe_stream x) =
    if decide (x = e) then None else route pt (fe_link x) (fe_stream x)) as Hroute.
  { intros x [Hl Hs]. rewrite Hg1 by done. by destruct x. }
  split.
  - intros (x & Hin & Hp & Hc). pose proof (Hu x Hin) as Hx. exists x. rewrite Hget in Hp by apply Hx.
    split_and!; [by right|done|]. destruct Hc as [Hn|[r Hr']].
    + rewrite Hroute in Hn by done. destruct (decide (x = e)) as [-> |]; [|by left]. right.
      apply elem_of_Permutation in Hin as [r Hr']. exists r. by rewrite Hr'.
    + right. exists (e :: r). rewrite Hr'. rewrite (Permutation_swap e x). by rewrite (Permutation_swap e x).
  - intros (x & Hin & Hp & Hc). destruct (decide (x = e)) as [-> |Hne].
    + destruct Hc as [Hn|[r Hr']].
      { assert (remove_route pt e = Panic) by (by apply remove_route_panics). congruence. }
      apply Permutation_cons_inv in Hr'. exists e.
      split_and!; [rewrite Hr'; by left|apply Hget; [apply He|done]|left]. by rewrite Hroute, decide_True.
    + assert (x ∈ es) as Hin' by (by apply elem_of_cons in Hin as [?|?]).
      pose proof (Hu x Hin') as Hx. exists x. split_and!; [done|apply Hget; [apply Hx|done]|].
      destruct Hc as [Hn|[r Hr']]; [left; by rewrite Hroute, decide_False|right].
      assert (e ∈ r) as Hr0.
      { assert (e ∈ x :: x :: r) as Hx0 by (rewrite <- Hr'; by left).
        apply elem_of_cons in Hx0 as [?|Hx0]; [done|]. by apply elem_of_cons in Hx0 as [?|?]. }
      apply elem_of_Permutation in Hr0 as [r' Hr0]. exists r'. rewrite Hr0 in Hr'.
      apply (Permutation_cons_inv (a:=e)). rewrite Hr'. rewrite (Permutation_swap x e).
      by rewrite (Permutation_swap x e).
Qed.

Lemma remove_routes_panics pt es :
  table_ok pt -> Forall entry_u32 es -> remove_routes pt es = Panic <-> stale pt es.
Proof.
  revert pt. induction es as [|e es IH]; intros pt Hok Hu; cbn [remove_routes].
  - split; [done|]. intros (e & Hin & _). by apply not_elem_of_nil in Hin.
  - apply list.Forall_cons in Hu as [He Hu]. destruct (remove_route pt e) as [pt1|] eqn:Er.
    + rewrite bind_Ret, <- (stale_step pt e es pt1) by done. apply IH; [|done].
      by apply (remove_route_spec _ _ _ Hok He Er).
    + split; [|done]. intros _. apply remove_route_panics in Er as [? ?].
      exists e. split_and!; [by left|done|by left].
Qed.

Lemma remove_routes_app pt es es' :
  remove_routes pt (es ++ es') = (pt1 ← remove_routes pt es; remove_routes pt1 es').
Proof.
  revert pt. induction es as [|e es IH]; intros pt; [done|]. cbn [app remove_routes].
  destruct (remove_route pt e) as [pt1|]; [|done]. by rewrite !bind_Ret, IH.
Qed.

Definition entry_live pt e : Prop :=
  forall p, get pt (fe_link e) = Some p -> is_Some (pft_get (pft p) (fe_stream e)).

Lemma entry_live_route pt e :
  entry_live pt e <-> get pt (fe_link e) = None \/ is_Some (route pt (fe_link e) (fe_stream e)).
Proof.
  unfold entry_live, route. destruct (get pt (fe_link e)) as [p|]; cbn; [|naive_solver].
  split; [intros Hx; right; by apply Hx|]. intros [|Hx]; [done|]. by intros ? [= <-].
Qed.

Lemma live_not_stale pt es : NoDup es -> Forall (entry_live pt) es -> ~ stale pt es.
Proof.
  intros Hnd Hl (e & Hin & [p Hp] & Hc). rewrite list.Forall_forall in Hl.
  destruct Hc as [Hn|[r Hr]].
  - apply Hl, entry_live_route in Hin as [?|[q Hq]]; congruence.
  - rewrite Hr in Hnd. apply NoDup_cons in Hnd as [Hni _]. apply Hni. by left.
Qed.

(** ** The invariants *)

Definition streams_u32 vt : Prop :=
  forall i v, table vt !! i = Some v -> Forall entry_u32 (streams v).

(** The entries recorded with a visa. *)
Definition recorded vt (i : Z) : list ForwardingEntry :=
  match table vt !! i with Some v => streams v | None => [] end.

Record streams_live vt pt : Prop := {
  live_nodup : forall i v, table vt !! i = Some v -> NoDup (streams v);
  live_disjoint : forall i j v w e, table vt !! i = Some v -> table vt !! j = Some w ->
    e ∈ streams v -> e ∈ streams w -> i = j;
  live_routes : forall i v e, table vt !! i = Some v -> e ∈ streams v -> entry_live pt e
}.

(** ** Revocation *)

(** Revoking takes out exactly the routes recorded with the visa. *)
Lemma revoke_no_rebuild_spec vt pt i vt' pt' r :
  table_ok pt -> streams_u32 vt -> revoke_no_rebuild vt pt i = Ret (vt', pt', r) ->
  table_ok pt' /\ same_but_pft pt pt' /\
  sa_to_link pt' = sa_to_link pt /\ special_peers pt' = special_peers pt /\
  table vt' = delete i (table vt) /\ timeout_queue vt' = timeout_queue vt /\
  lookup_table vt' = lookup_table vt /\
  let es := match table vt !! i with Some v => streams v | None => [] end in
  r = match table vt !! i with Some _ => inl es | None => inr (NotFound i) end /\
  forall l s, u32 l -> u32 s -> route pt' l s = if decide (FE l s ∈ es) then None else route pt l s.
Proof.
  intros Hok Hu Hr. unfold revoke_no_rebuild in Hr. destruct (table vt !! i) as [v|] eqn:E.
  - apply bind_ret in Hr as ([[v' pt1] w] & Hrm & Hr). outcome_inv.
    unfold remove_forwarding_entries in Hrm. apply bind_ret in Hrm as (pt2 & Hrr & Hrm). outcome_inv.
    destruct (remove_routes_spec _ _ _ Hok (Hu i v E) Hrr) as (? & ? & ? & ? & ?). by split_and!.
  - outcome_inv. cbn. split_and!; try done.
    + apply same_but_pft_refl.
    + by rewrite delete_id.
Qed.

Lemma streams_u32_delete vt vt' i : streams_u32 vt -> table vt' = delete i (table vt) -> streams_u32 vt'.
Proof. intros Hu E j v. rewrite E. intros [_ Hv]%lookup_delete_Some. by eapply Hu. Qed.

Lemma recorded_u32 vt i : streams_u32 vt -> Forall entry_u32 (recorded vt i).
Proof. intros Hu. unfold recorded. destruct (table vt !! i) eqn:E; [by eapply Hu|constructor]. Qed.

Lemma revoke_no_rebuild_routes vt pt i :
  revoke_no_rebuild vt pt i =
  (pt' ← remove_routes pt (recorded vt i);
   mret (mkVisaTable (delete i (table vt)) (timeout_queue vt) (lookup_table vt), pt',
         match table vt !! i with Some _ => inl (recorded vt i) | None => inr (NotFound i) end)).
Proof.
  unfold revoke_no_rebuild, recorded. destruct (table vt !! i) as [v|] eqn:E.
  - unfold remove_forwarding_entries. by destruct (remove_routes pt (streams v)).
  - cbn [remove_routes]. unfold mret, outcome_ret. rewrite bind_Ret. rewrite delete_id by done. by destruct vt.
Qed.

Lemma revoke_no_rebuild_panics vt pt i :
  table_ok pt -> streams_u32 vt -> revoke_no_rebuild vt pt i = Panic <-> stale pt (recorded vt i).
Proof.
  intros Hok Hu. rewrite <- remove_routes_panics by (done || by apply recorded_u32).
  rewrite revoke_no_rebuild_routes. by destruct (remove_routes pt (recorded vt i)).
Qed.

(** Revoking visas one after the other takes out all their entries. *)
Lemma revoke_each_panics ids vt pt :
  NoDup ids -> table_ok pt -> streams_u32 vt ->
  revoke_each vt pt ids = Panic <-> stale pt (concat (recorded vt <$> ids)).
Proof.
  intros Hnd Hok Hu. rewrite <- remove_routes_panics; [|done|].
  2: { apply List.Forall_concat, Forall_fmap, list.Forall_forall. intros i _. by apply recorded_u32. }
  clear Hok Hu. revert vt pt. induction Hnd as [|i ids Hni Hnd IH]; intros vt pt; [done|].
  cbn [revoke_each fmap list_fmap concat]. rewrite remove_routes_app, revoke_no_rebuild_routes.
  destruct (remove_routes pt (recorded vt i)) as [pt1|]; [|done]. unfold mret, outcome_ret. rewrite !bind_Ret.
  set (vt1 := mkVisaTable _ _ _).
  assert (recorded vt1 <$> ids = recorded vt <$> ids) as E.
  { apply list_fmap_ext. intros k j Hj. unfold recorded, vt1. cbn [table]. rewrite lookup_delete_ne; [done|].
    intros ->. apply Hni. by eapply list_elem_of_lookup_2. }
  specialize (IH vt1 pt1). rewrite E in IH. rewrite <- IH.
  by destruct (revoke_each vt1 pt1 ids) as [[[? ?] ?]|].
Qed.

Lemma NoDup_keys_filter {A B} (P : A * B -> Prop) `{forall x, Decision (P x)} (l : list (A * B)) :
  NoDup l.*1 -> NoDup (filter P l).*1.
Proof.
  induction l as [|a l IH]; intros Hnd; [constructor|]. apply NoDup_cons in Hnd as [Hni Hnd].
  rewrite filter_cons. destruct (decide (P a)); [|by apply IH]. cbn. apply NoDup_cons. split; [|by apply IH].
  intros (b & E & [_ Hb]%list_elem_of_filter)%list_elem_of_fmap. apply Hni. rewrite E. by apply list_elem_of_fmap_2.
Qed.

Lemma to_revoke_nodup vt l : NoDup (to_revoke vt l).
Proof. apply NoDup_keys_filter, NoDup_fst_map_to_list. Qed.

Lemma revoke_for_link_panics vt pt l :
  table_ok pt -> streams_u32 vt ->
  revoke_for_link vt l pt = Panic <-> stale pt (concat (recorded vt <$> to_revoke vt l)).
Proof.
  intros Hok Hu. rewrite <- revoke_each_panics by (done || apply to_revoke_nodup).
  unfold revoke_for_link. destruct (to_revoke vt l) as [|i ids]; [done|].
  by destruct (revoke_each vt pt (i :: ids)) as [[[? ?] ?]|].
Qed.

Lemma streams_live_recorded vt pt i : streams_live vt pt -> ~ stale pt (recorded vt i).
Proof.
  intros [Hnd _ Hlv]. unfold recorded. destruct (table vt !! i) as [v|] eqn:E.
  - apply live_not_stale; [by eapply Hnd|]. apply list.Forall_forall. intros e He. by eapply Hlv.
  - apply live_not_stale; [constructor|constructor].
Qed.

(** C25. What revoking a visa does, with whatever is recorded with it.  It
    panics exactly when a recorded entry of a peer that is there is no longer a route,
    or is recorded twice; when every entry is a route recorded once, it does not.
    Otherwise the visa goes, exactly the recorded routes are withdrawn, all others
    stay, and the entries to notify peers of are the recorded ones.  So no route of
    the visa is left exactly when each was recorded with it; a visa that was inserted
    again under its identifier has lost its records
    ([reinserted_visa_keeps_routes]). *)
Theorem revoke_withdraws_routes vt pt (i : Z) :
  table_ok pt -> streams_u32 vt ->
  (revoke vt pt i = Panic <-> stale pt (recorded vt i)) /\
  (streams_live vt pt -> revoke vt pt i <> Panic) /\
  forall vt' pt' r, revoke vt pt i = Ret (vt', pt', r) ->
    table vt' = delete i (table vt) /\ r = inl (recorded vt i) /\
    (forall l s, u32 l -> u32 s ->
       route pt' l s = if decide (FE l s ∈ recorded vt i) then None else route pt l s) /\
    ((forall l s q, u32 l -> u32 s -> route pt' l s = Some q -> pep_visa_id q <> i) <->
     (forall l s q, u32 l -> u32 s -> route pt l s = Some q -> pep_visa_id q = i -> FE l s ∈ recorded vt i)).
Proof.
  intros Hok Hu. assert (revoke vt pt i = Panic <-> stale pt (recorded vt i)) as Hp.
  { rewrite <- revoke_no_rebuild_panics by done. unfold revoke.
    by destruct (revoke_no_rebuild vt pt i) as [[[? ?] ?]|]. }
  split; [done|]. split; [rewrite Hp; apply streams_live_recorded|].
  intros vt' pt' r Hr. unfold revoke in Hr. apply bind_ret in Hr as ([[vt1 pt1] r1] & Hr & Hret). outcome_inv.
  destruct (revoke_no_rebuild_spec _ _ _ _ _ _ Hok Hu Hr) as (_ & _ & _ & _ & Et & _ & _ & Er & Hg).
  fold (recorded vt i) in Er, Hg. split_and!; [done| |done|].
  - rewrite Er. unfold recorded. by destruct (table vt !! i).
  - split.
    + intros Hno l s q Hl Hs Hq Hi. destruct (decide (FE l s ∈ recorded vt i)) as [|Hni]; [done|exfalso].
      apply (Hno l s q Hl Hs); [|done]. by rewrite Hg, decide_False.
    + intros Hall l s q Hl Hs Hq Hi. rewrite Hg in Hq by done. destruct (decide _) as [|Hni]; [done|].
      apply Hni. by eapply Hall.
Qed.

(** ** Expiry *)

(** A visa has expired when the queue has an expired entry for it. *)
Definition expired (now : Z) (q : list VisaTimeout) (i : Z) : bool :=
  existsb (fun t => (timeout_id t =? i) && (expiration t <? now)) q.

Lemma expired_perm now q q' i : q ≡ₚ q' -> expired now q i = expired now q' i.
Proof.
  intros Hp. apply eq_true_iff_eq. unfold expired. rewrite !existsb_exists.
  split; intros (x & Hx & ?); exists x; (split; [|done]); apply list_elem_of_In; apply list_elem_of_In in Hx;
    [by rewrite <- Hp|by rewrite Hp].
Qed.

Lemma expired_none now q i : (forall x, x ∈ q -> now <= expiration x) -> expired now q i = false.
Proof.
  intros Hle. apply not_true_iff_false. unfold expired. rewrite existsb_exists.
  intros (x & Hx%list_elem_of_In & ?). specialize (Hle x Hx). zprop. lia.
Qed.

(** The routes of expired visas. *)
Definition expired_entry vt (now : Z) (e : ForwardingEntry) : Prop :=
  exists i v, table vt !! i = Some v /\ expired now (timeout_queue vt) i = true /\ e ∈ streams v.

Definition expiry_post vt pt (now : Z) vt' pt' : Prop :=
  (forall i, table vt' !! i = if expired now (timeout_queue vt) i then None else table vt !! i) /\
  timeout_queue vt' ⊆+ timeout_queue vt /\
  (forall x, x ∈ timeout_queue vt' -> now <= expiration x) /\
  (forall l s, u32 l -> u32 s ->
     (expired_entry vt now (FE l s) /\ route pt' l s = None) \/
     (~ expired_entry vt now (FE l s) /\ route pt' l s = route pt l s)).

Lemma expiry_stop vt pt now :
  (forall x, x ∈ timeout_queue vt -> now <= expiration x) -> expiry_post vt pt now vt pt.
Proof.
  intros Hle. assert (forall i, expired now (timeout_queue vt) i = false) as Hno
    by (intros i; by apply expired_none).
  split_and!; [intros i; by rewrite Hno|done|done|]. intros l s _ _. right. split; [|done].
  intros (i & v & _ & Hx & _). congruence.
Qed.

(** One turn of the loop. *)
Lemma expiry_turn vt pt now t q vt1 pt1 r vt' pt' :
  table_ok pt -> streams_u32 vt -> timeout_queue vt ≡ₚ t :: q -> expiration t < now ->
  revoke_no_rebuild (mkVisaTable (table vt) q (lookup_table vt)) pt (timeout_id t) = Ret (vt1, pt1, r) ->
  expiry_post vt1 pt1 now vt' pt' -> expiry_post vt pt now vt' pt'.
Proof.
  intros Hok Hu Hq Hex Hr (Ht & Hsub & Hle & Hroute).
  destruct (revoke_no_rebuild_spec (mkVisaTable (table vt) q (lookup_table vt)) _ _ _ _ _ Hok Hu Hr)
    as (_ & _ & _ & _ & Et & Eq & _ & _ & Hg). cbn [table timeout_queue] in *.
  assert (forall i, expired now (timeout_queue vt) i = (timeout_id t =? i) || expired now q i) as Hx.
  { intros i. rewrite (expired_perm _ _ _ _ Hq). unfold expired. cbn.
    rewrite (proj2 (Z.ltb_lt _ _)) by done. by rewrite andb_true_r. }
  split_and!; [| |done|].
  - intros i. rewrite Ht, Et, Eq, Hx. destruct (Z.eqb_spec (timeout_id t) i) as [-> |Hne]; cbn.
    + rewrite lookup_delete_eq. by destruct (expired now q i).
    + by rewrite lookup_delete_ne.
  - rewrite Hq. rewrite Eq in Hsub. by apply submseteq_cons.
  - intros l s Hl Hs. destruct (Hroute l s Hl Hs) as [[(i & v & Hv & Hxi & Hin) Hn]|[Hne E]].
    + left. split; [|done]. rewrite Et in Hv. apply lookup_delete_Some in Hv as [_ Hv]. rewrite Eq in Hxi.
      exists i, v. rewrite Hx, Hxi, orb_true_r. done.
    + rewrite E, Hg by done. destruct (table vt !! timeout_id t) as [v|] eqn:Ev.
      * destruct (decide (FE l s ∈ streams v)) as [Hin|Hni].
        -- left. split; [|done]. exists (timeout_id t), v. rewrite Hx, Z.eqb_refl. done.
        -- right. split; [|done]. intros (i & w & Hw & Hxi & Hin). apply Hne. exists i, w.
           destruct (decide (timeout_id t = i)) as [<- |Hni']; [congruence|].
           rewrite Et, lookup_delete_ne by done. rewrite Eq. rewrite Hx in Hxi.
           rewrite (proj2 (Z.eqb_neq _ _)) in Hxi by done. done.
      * right. rewrite decide_False by apply not_elem_of_nil. split; [|done].
        intros (i & w & Hw & Hxi & Hin). apply Hne. exists i, w.
        destruct (decide (timeout_id t = i)) as [<- |Hni']; [congruence|].
        rewrite Et, lookup_delete_ne by done. rewrite Eq. rewrite Hx in Hxi.
        rewrite (proj2 (Z.eqb_neq _ _)) in Hxi by done. done.
Qed.

(** The entries of expired visas. *)
Definition expired_streams vt (now : Z) : list ForwardingEntry :=
  concat ((fun x => streams x.2) <$>
    filter (fun x => expired now (timeout_queue vt) x.1 = true) (map_to_list (table vt))).

Lemma expired_streams_elem vt now e : e ∈ expired_streams vt now <-> expired_entry vt now e.
Proof.
  unfold expired_streams, expired_entry. rewrite list_elem_of_In, in_concat. split.
  - intros (es & Hes%list_elem_of_In & He%list_elem_of_In).
    apply list_elem_of_fmap in Hes as ([i v] & -> & [Hx Hin%elem_of_map_to_list]%list_elem_of_filter). by exists i, v.
  - intros (i & v & Hv & Hx & He). exists (streams v). split; [|by apply list_elem_of_In].
    apply list_elem_of_In, list_elem_of_fmap. exists (i, v). split; [done|].
    apply list_elem_of_filter. split; [done|]. by apply elem_of_map_to_list.
Qed.

Lemma filter_ext_elem {A} (f g : A -> bool) (l : list A) :
  (forall x, x ∈ l -> f x = g x) -> filter (fun x => f x = true) l = filter (fun x => g x = true) l.
Proof.
  intros Hx. induction l as [|a l IH]; [done|]. rewrite !filter_cons, (Hx a) by (by left).
  rewrite IH; [done|]. intros x Hin. apply Hx. by right.
Qed.

(** A turn of the loop takes out the entries of one of them. *)
Lemma expired_streams_turn vt vt1 now t q :
  timeout_queue vt ≡ₚ t :: q -> expiration t < now ->
  table vt1 = delete (timeout_id t) (table vt) -> timeout_queue vt1 = q ->
  expired_streams vt now ≡ₚ recorded vt (timeout_id t) ++ expired_streams vt1 now.
Proof.
  intros Hq Hex Et Eq. unfold expired_streams, recorded. rewrite Et, Eq.
  assert (forall i, expired now (timeout_queue vt) i = (timeout_id t =? i) || expired now q i) as Hx.
  { intros i. rewrite (expired_perm _ _ _ _ Hq). unfold expired. cbn.
    rewrite (proj2 (Z.ltb_lt _ _)) by done. by rewrite andb_true_r. }
  assert (filter (fun x => expired now (timeout_queue vt) x.1 = true) (map_to_list (delete (timeout_id t) (table vt))) =
          filter (fun x => expired now q x.1 = true) (map_to_list (delete (timeout_id t) (table vt)))) as Hf.
  { apply (filter_ext_elem (fun x => expired now (timeout_queue vt) x.1) (fun x => expired now q x.1)).
    intros [i v] Hin%elem_of_map_to_list. apply lookup_delete_Some in Hin as [Hne _]. cbn.
    rewrite Hx. by rewrite (proj2 (Z.eqb_neq _ _)). }
  destruct (table vt !! timeout_id t) as [v|] eqn:Ev.
  - rewrite <- (map_to_list_delete _ _ _ Ev). rewrite filter_cons_True by (cbn; by rewrite Hx, Z.eqb_refl).
    cbn [fmap list_fmap concat snd]. by rewrite Hf.
  - rewrite delete_id in * by done. by rewrite Hf.
Qed.

Lemma expire_loop_spec fuel now vt pt :
  (length (timeout_queue vt) < fuel)%nat -> table_ok pt -> streams_u32 vt ->
  exists es, es ≡ₚ expired_streams vt now /\
    match expire_loop fuel now vt pt with
    | Panic => remove_routes pt es = Panic
    | Ret (vt', pt', w) => remove_routes pt es = Ret pt' /\ w = es /\ expiry_post vt pt now vt' pt'
    end.
Proof.
  revert vt pt. induction fuel as [|fuel IH]; intros vt pt Hf Hok Hu; [lia|]. cbn [expire_loop].
  pose proof (heap_spec (timeout_queue vt)) as Hh.
  assert ((forall x, x ∈ timeout_queue vt -> now <= expiration x) ->
    exists es, es ≡ₚ expired_streams vt now /\ remove_routes pt es = Ret pt /\ [] = es /\ expiry_post vt pt now vt pt)
    as Hstop.
  { intros Hle. exists []. pose proof (expiry_stop vt pt now Hle) as Hpost. split_and!; [|done|done|done].
    destruct (expired_streams vt now) as [|e r] eqn:E; [done|exfalso].
    assert (expired_entry vt now e) as (i & v & _ & Hx & _) by (apply expired_streams_elem; rewrite E; by left).
    by rewrite expired_none in Hx. }
  destruct (heap_peek (timeout_queue vt)) as [t|].
  2: { apply Hstop. rewrite Hh. by intros x ?%not_elem_of_nil. }
  destruct Hh as (q & Hpop & Hperm & Hmin). destruct (Z.ltb_spec (expiration t) now) as [Hex|Hnx].
  2: { apply Hstop. intros x Hx. specialize (Hmin x Hx). lia. }
  rewrite Hpop. cbn [unwrap]. rewrite bind_Ret. set (vt0 := mkVisaTable (table vt) q (lookup_table vt)).
  set (vt1 := mkVisaTable (delete (timeout_id t) (table vt)) q (lookup_table vt)).
  pose proof (expired_streams_turn vt vt1 now t q Hperm Hex eq_refl eq_refl) as Hsplit.
  destruct (revoke_no_rebuild vt0 pt (timeout_id t)) as [[[vt1' pt1] r]|] eqn:Hr.
  - rewrite bind_Ret.
    destruct (revoke_no_rebuild_spec vt0 _ _ _ _ _ Hok Hu Hr) as (Hok1 & _ & _ & _ & Et & Eq & _ & Er & _).
    fold (recorded vt0 (timeout_id t)) in Er.
    pose proof Hr as Hr'. rewrite revoke_no_rebuild_routes in Hr'. apply bind_ret in Hr' as (pt1' & Hrr & Hr').
    unfold mret, outcome_ret in Hr'. injection Hr' as E1 -> _. assert (vt1 = vt1') as <- by exact E1.
    destruct (IH vt1 pt1) as (es & Hes & Hloop).
    { cbn. apply Permutation_length in Hperm. cbn in Hperm. lia. }
    { done. }
    { by eapply (streams_u32_delete vt). }
    exists (recorded vt (timeout_id t) ++ es). split; [by rewrite Hes, Hsplit|].
    rewrite remove_routes_app. change (recorded vt (timeout_id t)) with (recorded vt0 (timeout_id t)).
    rewrite Hrr, bind_Ret. destruct (expire_loop fuel now vt1 pt1) as [[[vt' pt'] w]|]; [|exact Hloop].
    destruct Hloop as (Hl & -> & Hpost). rewrite bind_Ret. unfold mret, outcome_ret. split_and!; [done| |].
    + f_equal. rewrite Er. unfold recorded. by destruct (table vt0 !! timeout_id t).
    + by eapply expiry_turn.
  - exists (recorded vt (timeout_id t) ++ expired_streams vt1 now). split; [by rewrite Hsplit|].
    rewrite revoke_no_rebuild_routes in Hr. rewrite remove_routes_app.
    change (recorded vt (timeout_id t)) with (recorded vt0 (timeout_id t)).
    by destruct (remove_routes pt (recorded vt0 (timeout_id t))).
Qed.

Lemma expired_streams_live vt pt now : streams_live vt pt -> ~ stale pt (expired_streams vt now).
Proof.
  intros [Hnd Hdj Hlv]. apply live_not_stale.
  - unfold expired_streams. assert (forall l : list (Z * Visa), NoDup l.*1 -> (forall x, x ∈ l -> table vt !! x.1 = Some x.2) ->
      NoDup (concat ((fun x => streams x.2) <$> l))) as Hgen; [|apply Hgen].
    + intros l. induction l as [|[i v] l IH]; intros Hn Hin; [constructor|]. cbn [fmap list_fmap concat snd].
      apply NoDup_cons in Hn as [Hni Hn]. pose proof (Hin (i, v) ltac:(by left)) as Hv. cbn in Hv.
      apply list.NoDup_app. split_and!; [by eapply Hnd| |apply IH; [done|intros x Hx; apply Hin; by right]].
      intros e He He'. apply list_elem_of_In, in_concat in He' as (es & Hes%list_elem_of_In & He'%list_elem_of_In).
      apply list_elem_of_fmap in Hes as ([k u] & -> & Hk). pose proof (Hin (k, u) ltac:(by right)) as Hu. cbn in Hu, He'.
      assert (i = k) as -> by (by eapply Hdj). apply Hni. by apply (list_elem_of_fmap_2 fst) in Hk.
    + apply NoDup_keys_filter, NoDup_fst_map_to_list.
    + intros [i v] [_ Hin]%list_elem_of_filter. by apply elem_of_map_to_list in Hin.
  - apply list.Forall_forall. intros e (i & v & Hv & _ & He)%expired_streams_elem. by eapply Hlv.
Qed.

Lemma expired_streams_u32 vt now : streams_u32 vt -> Forall entry_u32 (expired_streams vt now).
Proof.
  intros Hu. apply list.Forall_forall. intros e (i & v & Hv & _ & He)%expired_streams_elem.
  by apply (proj1 (list.Forall_forall _ _) (Hu i v Hv)).
Qed.

(** C31. What the expiry of visas does.  It panics exactly when an entry recorded
    with an expired visa, of a peer that is there, is no longer a route or is recorded
    twice (a route that was unbound leaves its record: [unbind_then_revoke_crashes]);
    when every recorded entry is a route recorded once, it does not.  Otherwise it
    ends, and removes exactly the visas with an expired entry in the queue: their
    recorded routes are withdrawn and returned, all other visas and routes stay, and
    nothing expired is left in the queue. *)
Theorem expirations_exact (now : Z) vt pt :
  table_ok pt -> streams_u32 vt ->
  (handle_expirations now vt pt = Panic <-> stale pt (expired_streams vt now)) /\
  (streams_live vt pt -> handle_expirations now vt pt <> Panic) /\
  forall vt' pt' w, handle_expirations now vt pt = Ret (vt', pt', w) ->
    (forall i, table vt' !! i = if expired now (timeout_queue vt) i then None else table vt !! i) /\
    (forall x, x ∈ timeout_queue vt' -> x ∈ timeout_queue vt /\ now <= expiration x) /\
    w ≡ₚ expired_streams vt now /\
    (forall l s, u32 l -> u32 s ->
       (expired_entry vt now (FE l s) /\ route pt' l s = None) \/
       (~ expired_entry vt now (FE l s) /\ route pt' l s = route pt l s)).
Proof.
  intros Hok Hu.
  destruct (expire_loop_spec (S (length (timeout_queue vt))) now vt pt) as (es & Hes & Hloop); [lia|done..|].
  assert (remove_routes pt es = Panic <-> stale pt (expired_streams vt now)) as Hp.
  { rewrite <- Hes. apply remove_routes_panics; [done|]. rewrite Hes. by apply expired_streams_u32. }
  assert (handle_expirations now vt pt = Panic <-> stale pt (expired_streams vt now)) as Hpanic.
  { rewrite <- Hp. unfold handle_expirations.
    destruct (expire_loop _ _ _ _) as [[[vt1 pt1] w]|]; [|done]. destruct Hloop as (-> & _). done. }
  split; [done|]. split; [rewrite Hpanic; apply expired_streams_live|].
  intros vt' pt' w Hh. unfold handle_expirations in Hh.
  destruct (expire_loop _ _ _ _) as [[[vt1 pt1] w1]|]; [|done]. rewrite bind_Ret in Hh.
  unfold mret, outcome_ret in Hh. injection Hh as <- <- <-. destruct Hloop as (_ & -> & Ht & Hs & Hle & Hr).
  cbn [table timeout_queue rebuild]. split_and!; [done| |done|done].
  intros x Hx. split; [|by apply Hle]. by eapply elem_of_submseteq.
Qed.

(** ** Inserting a visa again *)

(** A visa that is inserted under an identifier already in the table takes the
    old one's place with no entries recorded: revoking it withdraws no route, so the
    routes set up under the old one stay in the forwarding tables; and the old
    one's expiry is still queued and removes the new one. *)
Theorem reinserted_visa_keeps_routes vt pt (w : VsVisa Pep) vt1 vt2 pt2 r (now old : Z) :
  insert_visa vt w = Ret (vt1, inl (issuer_id w)) -> revoke vt1 pt (issuer_id w) = Ret (vt2, pt2, r) ->
  mkTimeout (issuer_id w) old ∈ timeout_queue vt -> old < now ->
  r = inl [] /\ pt2 = pt /\ expired now (timeout_queue vt1) (issuer_id w) = true.
Proof.
  intros Hi Hr Hq Hold. unfold insert_visa in Hi. apply bind_ret in Hi as (v & Hv & Hi). outcome_inv.
  unfold visa_new in Hv. destruct (negb _); [done|]. apply bind_ret in Hv as (d & _ & Hv). outcome_inv.
  unfold revoke, revoke_no_rebuild, remove_forwarding_entries, mret, outcome_ret in Hr.
  cbn [table] in Hr. rewrite lookup_insert_eq in Hr. cbn [streams remove_routes] in Hr.
  unfold mret, outcome_ret in Hr. rewrite !bind_Ret in Hr. simplify_eq. split_and!; [done|done|]. unfold expired. apply existsb_exists.
  exists (mkTimeout (issuer_id w) old). split; [right; by apply list_elem_of_In|]. cbn.
  rewrite Z.eqb_refl. by apply Z.ltb_lt.
Qed.

End props.

(** ** An instance, and a table with one visa and its route *)

Definition toy_visas : VisaEnv := {|
  Pep := Z * Z;
  pep_tcp := pair;
  get_five_tuple d := mkFT (source_addr d) (dest_addr d) 6 6 (pep d).1 (pep d).2;
  LookupTable := list (Z * FiveTuple);
  lt_new := [];
  lt_insert_visa t i ft := (i, ft) :: t;
  lt_add_hash t m := map_to_list m ++ t;
  lt_find_match t ft := '(i, _) ← List.find (fun '(_, f) => bool_decide (f = ft)) t; Some i;
  UNSPECIFIED := replicate 16 0;
  VISA_SERVICE_ADDR := replicate 16 9;
  VISA_SERVICE_PORT := 5002
|}.

Definition toy_visa (i e : Z) : VsVisa (@Pep toy_visas) :=
  mkVsVisa i 0 e Full (Some (mkDockPep (replicate 16 1) (replicate 16 2) (mkKeys [] []) (80, 90))) None.

Definition example_pep : PftPep := mkPftPep (FE 2 7) 1000.
Definition example_pft : PeerForwardingTable FirstFit.table :=
  FirstFit.mkTable PEER_FORWARDING_TABLE_SIZE {[0 := example_pep]}.
Definition routed_table : PeerTable FirstFit.table := update example_table 1 (set_pft example_pft).
Definition example_visas : VisaTable (H:=toy_visas) :=
  mkVisaTable (H:=toy_visas)
    {[1000 := mkVisa (H:=toy_visas) (toy_visa 1000 5) [FE 1 1]
                (get_five_tuple (VisaEnv:=toy_visas) (mkDockPep (replicate 16 1) (replicate 16 2) (mkKeys [] []) (80, 90)))
                (replicate 16 0)]}
    [mkTimeout 1000 5] [].

Lemma example_table_ok : table_ok example_table.
Proof.
  eapply step_ok; [exact new_ok|]. eapply (step_insert _ example_peer 1); [reflexivity..|exact example_insert].
Qed.

Lemma routed_table_ok : table_ok routed_table.
Proof. apply update_ok; [unfold u32; lia| |exact example_table_ok]. by apply keeps_pft. Qed.

Lemma example_route l s q : u32 l -> u32 s -> route routed_table l s = Some q -> l = 1 /\ s = 1 /\ q = example_pep.
Proof.
  intros Hl Hs. unfold route, routed_table. rewrite get_update by (unfold u32; lia || done).
  destruct (decide (l = 1)) as [-> |Hne].
  - change (get example_table 1) with (Some example_peer). cbn -[pft_get]. unfold pft_get. cbn.
    intros [E ->]%lookup_singleton_Some. split_and!; [done| |done]. symmetry. apply slot_inj; [unfold u32 in *; lia|done|].
    by rewrite <- E.
  - unfold get, example_table. cbn. destruct (_ !! slot l) as [p|] eqn:E; [|done].
    apply lookup_singleton_Some in E as [E _]. destruct Hne. apply slot_inj; [done|unfold u32; lia|]. by rewrite <- E.
Qed.

Lemma example_streams i v : table example_visas !! i = Some v -> i = 1000 /\ streams v = [FE 1 1].
Proof. cbn [table example_visas]. intros [<- <-]%lookup_singleton_Some. done. Qed.

Lemma example_u32 : streams_u32 example_visas.
Proof.
  intros i v [_ ->]%example_streams. constructor; [|constructor]. split; cbn; unfold u32; lia.
Qed.

Lemma example_live : streams_live example_visas routed_table.
Proof.
  split.
  - intros i v [_ ->]%example_streams. apply NoDup_singleton.
  - intros i j v w e [-> _]%example_streams [-> _]%example_streams. done.
  - intros i v e [_ ->]%example_streams ->%list_elem_of_singleton p. cbn [fe_link fe_stream].
    change (get routed_table 1) with (Some (set_pft example_pft example_peer)). intros [= <-]. by eexists.
Qed.

Definition revoked_table : PeerTable FirstFit.table :=
  match revoke example_visas routed_table 1000 with Ret (_, pt, _) => pt | Panic => PeerTable.new end.
Definition revoked_visas : VisaTable (H:=toy_visas) := rebuild (mkVisaTable (H:=toy_visas) ∅ [mkTimeout 1000 5] []).

Lemma example_revoked : revoke example_visas routed_table 1000 = Ret (revoked_visas, revoked_table, inl [FE 1 1]).
Proof. reflexivity. Qed.

Lemma revoke_withdraws_routes_witness :
  table revoked_visas = ∅ /\ route revoked_table 1 1 = None.
Proof.
  destruct (revoke_withdraws_routes example_visas routed_table 1000 routed_table_ok example_u32) as (_ & _ & Hr).
  destruct (Hr _ _ _ example_revoked) as (E & _ & Hg & _).
  split; [rewrite E; done|]. rewrite Hg by (unfold u32; lia). rewrite decide_True; [done|]. by left.
Defined.

Lemma expirations_exact_witness :
  exists vt' pt' w, handle_expirations 6 example_visas routed_table = Ret (vt', pt', w) /\
    table vt' !! 1000 = None.
Proof.
  destruct (expirations_exact 6 example_visas routed_table routed_table_ok example_u32) as (_ & Hn & Hr).
  specialize (Hn example_live).
  destruct (handle_expirations 6 example_visas routed_table) as [[[vt' pt'] w]|]; [|by destruct Hn].
  exists vt', pt', w. split; [reflexivity|]. destruct (Hr vt' pt' w eq_refl) as [Ht _]. rewrite Ht. reflexivity.
Defined.

Definition reinserted_visas : VisaTable (H:=toy_visas) :=
  match insert_visa example_visas (toy_visa 1000 9) with Ret (t, _) => t | Panic => example_visas end.

Lemma example_reinserted : insert_visa example_visas (toy_visa 1000 9) = Ret (reinserted_visas, inl 1000).
Proof. reflexivity. Qed.

Lemma example_rerevoked : exists vt r, revoke reinserted_visas routed_table 1000 = Ret (vt, routed_table, r).
Proof. by eexists _, _. Qed.

Lemma reinserted_visa_keeps_routes_witness :
  exists vt, revoke reinserted_visas routed_table 1000 = Ret (vt, routed_table, inl []) /\
    expired 6 (timeout_queue reinserted_visas) 1000 = true.
Proof.
  destruct example_rerevoked as (vt & r & Hr). exists vt.
  destruct (reinserted_visa_keeps_routes _ routed_table (toy_visa 1000 9) _ vt routed_table r 6 5
    example_reinserted Hr) as (-> & _ & Hx); [left|lia|]. by split.
Defined.

End VisaTableProps.
