(* ===== verification/Assembly.v ===== *)
(** * The assembly ([assembly.rs], [visa_mgmt.rs])

    The state the parts of a node or adapter share, and the operations on it that
    involve several of them.  An operation is a computation over the assembly that
    may panic ([M]); one runs at a time, between two points at which a task waits.
    Management packets handed to [requests.rs] are recorded in order ([sent]), tasks
    that were spawned to wait for something are recorded in [tasks] and run by later
    steps.  Log messages and counters are left out.  The end of the
    file has a weakest-precondition calculus for computations. *)
From Stdlib Require Import ZArith Lia.
From stdpp Require Import base tactics option list numbers gmap.
From S2P Require Import Prelude Slab NetDefs Tc ForwardingTables TxnMgr Auth LinkTypes PeerTable VisaTable AddressPool.
Import Tc ForwardingTables Auth LinkTypes.

Local Open Scope Z_scope.

(** ** The TUN device

    [TunCtl]: operations with their results.  Inspecting an address may be
    unsupported; a route may have another owner. *)
Inductive HasAddress := Present (b : bool) | Unsupported | Failed.
Inductive RouteOwner := NoOwner | Owner | Unknown.

Class TunCtl := {
  Tun : Type;
  tun_set_carrier : Tun -> bool -> bool * Tun;
  tun_add_address : Tun -> list Z -> bool * Tun;
  tun_clear_address : Tun -> list Z -> bool * Tun;
  tun_has_address : Tun -> list Z -> HasAddress;
  tun_add_route : Tun -> list Z -> Z -> bool * Tun;
  tun_route_owner_conflict : Tun -> list Z -> Z -> RouteOwner * Tun;
  ZPR_INTERNAL_NETWORK : list Z;
  ZPRNET_PREFIX_LEN : Z
}.

(** ** The adapter's endpoint lookup table

    The table of [AdapterTables], as far as a link uses it: clearing it drops the
    transaction handles of pending entries.  [elt_ok] is its invariant. *)
Class FlowTables := {
  Elt : Type;
  elt_clear : Elt -> outcome Elt;
  elt_ok : Elt -> Prop;
  elt_clear_ok : forall e, elt_ok e -> exists e', elt_clear e = Ret e' /\ elt_ok e'
}.

(** ** Data exchanged with the visa service ([vsapi_types]) *)
Inductive VsAuthBlob :=
| VSS (challenge cn : list Z) (timestamp : Z) (signature : list Z)
| VOidc (issuer id_token nonce : list Z).
Inductive Claim := ClaimZprAddr (a : list Z) | ClaimCN (cn : list Z).
Record ConnectRequest := mkConnect {
  blobs : list VsAuthBlob; claims : list Claim; substrate : list Z; a2a_key : list Z
}.
Inductive CommFlag := UniDirectional | BiDirectional.
Record VisaRequest := mkVisaRequest { req_five_tuple : FiveTuple; comm_flags : CommFlag }.
Inductive ErrorCode :=
| InvalidSignature | VsAuthError | ParamError | VsPolicyDenied | TemporarilyUnavailable
| VsInternal | VsNotFound | VsFail | QuotaExceeded | VsOtherCode.

(** A service of an [AuthServicesList]: whether it is an OIDC authentication
    service, and its client configuration. *)
Record AuthService := mkService { is_oidc : bool; oidc : option OidcIdpInfo }.

Inductive PhMode := Node | Adapter.
#[export] Instance PhMode_eq_dec : EqDecision PhMode.
Proof. solve_decision. Defined.

(** Why a bind was refused: a reason of the node's or the adapter's own, or the text
    of the next hop. *)
Inductive RejectReason := PolicyErrorReason | PftFullReason | DltFullReason | PeerReason (text : list Z).

(** ** Management packets sent, by the function of [requests.rs] that sends them *)
Inductive Msg :=
| StreamIdRequest (link txn visa_id : Z)
| BindEgressStreamRequest (link txn : Z) (tc : Ip5TupleTc) (key : option (list Z))
| BindEgressStreamSuccessResponse (link txn tether : Z)
| BindEgressStreamErrorResponse (link txn : Z) (reason : RejectReason)
| StreamIdSuccessResponse (link txn tether : Z)
| StreamIdErrorResponse (link txn : Z) (reason : RejectReason)
| BindActorAddressSuccessResponse (link txn tether : Z) (tc : Ip5TupleTc) (key : option (list Z))
| BindActorAddressErrorResponse (link txn : Z) (reason : RejectReason)
| UnbindEgressStreamRequest (link stream : Z)
| StreamIdWithdrawal (link stream : Z)
| HelloRequest (link : Z) (pubkey : list Z)
| HelloSuccessResponse (link : Z) (idps : list OidcIdpInfo) (aaa : option (list Z))
| InitAuthenticationRequest (link : Z) (payload : ZdpInitAuthenticationPayload)
| RenewAuthenticationRequest (link : Z) (payload : ZdpInitAuthenticationPayload)
| RenewAuthenticationResponse (link code : Z) (challenge blob : list Z)
| AcquireZprAddressRequest (link : Z) (addrs : list (list Z)) (blob : list Z)
| GrantZprAddressRequest (link code : Z) (addrs : list (list Z))
| TerminateLink (link reason : Z)
| EchoRequest (link : Z).

(** ** Tasks spawned, with what they carry over *)
Inductive Task :=
| VisaRequestTask (link txn : Z) (req : VisaRequest)
| VisaPushRequestTask (link txn visa_id : Z)
| AuthorizeConnectTask (link : Z) (req : ConnectRequest)
| InitAuthTask (link : Z)
| EchoTask (task_id link : Z)
| TerminateTask (link : Z)
| StopVsConnTask (link : Z)
| RestartVsConnTask
| OidcTask (link attempt_clock : Z) (issuer challenge : list Z) (base_blobs : list AuthBlob)
| RenewalAgentTask (link link_uid : Z) (issuer nonce : list Z)
| RenewalTimeoutTask (link link_uid : Z) (challenge : list Z)
| AdapterRenewalTask (task_id link link_uid : Z) (issuer challenge : list Z) (ss_blob : option AuthBlob)
| ReauthorizeTask (link link_uid : Z) (blobs : list VsAuthBlob)
| ReauthorizeWaitTask (link link_uid : Z) (actor_addr : list Z) (blobs : list VsAuthBlob)
| ActorDisconnectTask (addr : list Z)
| DropLinkTask (link : Z)
| CloseDoneTask (link : Z)
| SelfReauthTask
| RestartTask (link : Z)
| ZdprWorkerTask (link : Z).

Module Asm.
Import PeerTable VisaTable.

Section assembly.
Context `{NetDefs} `{Crypto} `{VisaEnv} `{TunCtl} `{FlowTables} `{SlabOps slab}.

Record Assembly := mkAsm {
  ph_mode : PhMode;
  peer_table : PeerTable.PeerTable slab;
  visa_table : VisaTable.VisaTable;
  next_uid : Z;
  address_pool : option AddressPool.AddressPool;
  zpr_addr : list (list Z);
  auto_connect : bool;
  bootstrap : option RsaBootstrapAuth;
  auth_renewal_lead : Z;
  configured_zpr_addr_demand : list (list Z);
  vsconn : bool;
  vs_auth_services : list AuthService;
  deferred_vs_connect : option (Z * list Z * ConnectRequest);
  fatal_error : option (list (list Z) * list (list Z));
  a2a_pubkey : list Z;
  tun : Tun;
  elt : Elt;
  dlt : DockLookupTable slab;
  sent : list Msg;
  tasks : list Task;
  next_task : Z;
  self_reauth_in_flight : bool
}.

Definition set_ph_mode (v : PhMode) (x : Assembly) : Assembly :=
  mkAsm v (peer_table x) (visa_table x) (next_uid x) (address_pool x) (zpr_addr x) (auto_connect x) (bootstrap x) (auth_renewal_lead x) (configured_zpr_addr_demand x) (vsconn x) (vs_auth_services x) (deferred_vs_connect x) (fatal_error x) (a2a_pubkey x) (tun x) (elt x) (dlt x) (sent x) (tasks x) (next_task x) (self_reauth_in_flight x).
Definition set_peers (v : PeerTable.PeerTable slab) (x : Assembly) : Assembly :=
  mkAsm (ph_mode x) v (visa_table x) (next_uid x) (address_pool x) (zpr_addr x) (auto_connect x) (bootstrap x) (auth_renewal_lead x) (configured_zpr_addr_demand x) (vsconn x) (vs_auth_services x) (deferred_vs_connect x) (fatal_error x) (a2a_pubkey x) (tun x) (elt x) (dlt x) (sent x) (tasks x) (next_task x) (self_reauth_in_flight x).
Definition set_visas (v : VisaTable.VisaTable) (x : Assembly) : Assembly :=
  mkAsm (ph_mode x) (peer_table x) v (next_uid x) (address_pool x) (zpr_addr x) (auto_connect x) (bootstrap x) (auth_renewal_lead x) (configured_zpr_addr_demand x) (vsconn x) (vs_auth_services x) (deferred_vs_connect x) (fatal_error x) (a2a_pubkey x) (tun x) (elt x) (dlt x) (sent x) (tasks x) (next_task x) (self_reauth_in_flight x).
Definition set_next_uid (v : Z) (x : Assembly) : Assembly :=
  mkAsm (ph_mode x) (peer_table x) (visa_table x) v (address_pool x) (zpr_addr x) (auto_connect x) (bootstrap x) (auth_renewal_lead x) (configured_zpr_addr_demand x) (vsconn x) (vs_auth_services x) (deferred_vs_connect x) (fatal_error x) (a2a_pubkey x) (tun x) (elt x) (dlt x) (sent x) (tasks x) (next_task x) (self_reauth_in_flight x).
Definition set_address_pool (v : option AddressPool.AddressPool) (x : Assembly) : Assembly :=
  mkAsm (ph_mode x) (peer_table x) (visa_table x) (next_uid x) v (zpr_addr x) (auto_connect x) (bootstrap x) (auth_renewal_lead x) (configured_zpr_addr_demand x) (vsconn x) (vs_auth_services x) (deferred_vs_connect x) (fatal_error x) (a2a_pubkey x) (tun x) (elt x) (dlt x) (sent x) (tasks x) (next_task x) (self_reauth_in_flight x).
Definition set_zpr_addr (v : list (list Z)) (x : Assembly) : Assembly :=
  mkAsm (ph_mode x) (peer_table x) (visa_table x) (next_uid x) (address_pool x) v (auto_connect x) (bootstrap x) (auth_renewal_lead x) (configured_zpr_addr_demand x) (vsconn x) (vs_auth_services x) (deferred_vs_connect x) (fatal_error x) (a2a_pubkey x) (tun x) (elt x) (dlt x) (sent x) (tasks x) (next_task x) (self_reauth_in_flight x).
Definition set_auto_connect (v : bool) (x : Assembly) : Assembly :=
  mkAsm (ph_mode x) (peer_table x) (visa_table x) (next_uid x) (address_pool x) (zpr_addr x) v (bootstrap x) (auth_renewal_lead x) (configured_zpr_addr_demand x) (vsconn x) (vs_auth_services x) (deferred_vs_connect x) (fatal_error x) (a2a_pubkey x) (tun x) (elt x) (dlt x) (sent x) (tasks x) (next_task x) (self_reauth_in_flight x).
Definition set_bootstrap (v : option RsaBootstrapAuth) (x : Assembly) : Assembly :=
  mkAsm (ph_mode x) (peer_table x) (visa_table x) (next_uid x) (address_pool x) (zpr_addr x) (auto_connect x) v (auth_renewal_lead x) (configured_zpr_addr_demand x) (vsconn x) (vs_auth_services x) (deferred_vs_connect x) (fatal_error x) (a2a_pubkey x) (tun x) (elt x) (dlt x) (sent x) (tasks x) (next_task x) (self_reauth_in_flight x).
Definition set_auth_renewal_lead (v : Z) (x : Assembly) : Assembly :=
  mkAsm (ph_mode x) (peer_table x) (visa_table x) (next_uid x) (address_pool x) (zpr_addr x) (auto_connect x) (bootstrap x) v (configured_zpr_addr_demand x) (vsconn x) (vs_auth_services x) (deferred_vs_connect x) (fatal_error x) (a2a_pubkey x) (tun x) (elt x) (dlt x) (sent x) (tasks x) (next_task x) (self_reauth_in_flight x).
Definition set_configured_zpr_addr_demand (v : list (list Z)) (x : Assembly) : Assembly :=
  mkAsm (ph_mode x) (peer_table x) (visa_table x) (next_uid x) (address_pool x) (zpr_addr x) (auto_connect x) (bootstrap x) (auth_renewal_lead x) v (vsconn x) (vs_auth_services x) (deferred_vs_connect x) (fatal_error x) (a2a_pubkey x) (tun x) (elt x) (dlt x) (sent x) (tasks x) (next_task x) (self_reauth_in_flight x).
Definition set_vsconn (v : bool) (x : Assembly) : Assembly :=
  mkAsm (ph_mode x) (peer_table x) (visa_table x) (next_uid x) (address_pool x) (zpr_addr x) (auto_connect x) (bootstrap x) (auth_renewal_lead x) (configured_zpr_addr_demand x) v (vs_auth_services x) (deferred_vs_connect x) (fatal_error x) (a2a_pubkey x) (tun x) (elt x) (dlt x) (sent x) (tasks x) (next_task x) (self_reauth_in_flight x).
Definition set_vs_auth_services (v : list AuthService) (x : Assembly) : Assembly :=
  mkAsm (ph_mode x) (peer_table x) (visa_table x) (next_uid x) (address_pool x) (zpr_addr x) (auto_connect x) (bootstrap x) (auth_renewal_lead x) (configured_zpr_addr_demand x) (vsconn x) v (deferred_vs_connect x) (fatal_error x) (a2a_pubkey x) (tun x) (elt x) (dlt x) (sent x) (tasks x) (next_task x) (self_reauth_in_flight x).
Definition set_deferred_vs_connect (v : option (Z * list Z * ConnectRequest)) (x : Assembly) : Assembly :=
  mkAsm (ph_mode x) (peer_table x) (visa_table x) (next_uid x) (address_pool x) (zpr_addr x) (auto_connect x) (bootstrap x) (auth_renewal_lead x) (configured_zpr_addr_demand x) (vsconn x) (vs_auth_services x) v (fatal_error x) (a2a_pubkey x) (tun x) (elt x) (dlt x) (sent x) (tasks x) (next_task x) (self_reauth_in_flight x).
Definition set_fatal_error (v : option (list (list Z) * list (list Z))) (x : Assembly) : Assembly :=
  mkAsm (ph_mode x) (peer_table x) (visa_table x) (next_uid x) (address_pool x) (zpr_addr x) (auto_connect x) (bootstrap x) (auth_renewal_lead x) (configured_zpr_addr_demand x) (vsconn x) (vs_auth_services x) (deferred_vs_connect x) v (a2a_pubkey x) (tun x) (elt x) (dlt x) (sent x) (tasks x) (next_task x) (self_reauth_in_flight x).
Definition set_a2a_pubkey (v : list Z) (x : Assembly) : Assembly :=
  mkAsm (ph_mode x) (peer_table x) (visa_table x) (next_uid x) (address_pool x) (zpr_addr x) (auto_connect x) (bootstrap x) (auth_renewal_lead x) (configured_zpr_addr_demand x) (vsconn x) (vs_auth_services x) (deferred_vs_connect x) (fatal_error x) v (tun x) (elt x) (dlt x) (sent x) (tasks x) (next_task x) (self_reauth_in_flight x).
Definition set_tun (v : Tun) (x : Assembly) : Assembly :=
  mkAsm (ph_mode x) (peer_table x) (visa_table x) (next_uid x) (address_pool x) (zpr_addr x) (auto_connect x) (bootstrap x) (auth_renewal_lead x) (configured_zpr_addr_demand x) (vsconn x) (vs_auth_services x) (deferred_vs_connect x) (fatal_error x) (a2a_pubkey x) v (elt x) (dlt x) (sent x) (tasks x) (next_task x) (self_reauth_in_flight x).
Definition set_elt (v : Elt) (x : Assembly) : Assembly :=
  mkAsm (ph_mode x) (peer_table x) (visa_table x) (next_uid x) (address_pool x) (zpr_addr x) (auto_connect x) (bootstrap x) (auth_renewal_lead x) (configured_zpr_addr_demand x) (vsconn x) (vs_auth_services x) (deferred_vs_connect x) (fatal_error x) (a2a_pubkey x) (tun x) v (dlt x) (sent x) (tasks x) (next_task x) (self_reauth_in_flight x).
Definition set_dlt (v : DockLookupTable slab) (x : Assembly) : Assembly :=
  mkAsm (ph_mode x) (peer_table x) (visa_table x) (next_uid x) (address_pool x) (zpr_addr x) (auto_connect x) (bootstrap x) (auth_renewal_lead x) (configured_zpr_addr_demand x) (vsconn x) (vs_auth_services x) (deferred_vs_connect x) (fatal_error x) (a2a_pubkey x) (tun x) (elt x) v (sent x) (tasks x) (next_task x) (self_reauth_in_flight x).
Definition set_sent (v : list Msg) (x : Assembly) : Assembly :=
  mkAsm (ph_mode x) (peer_table x) (visa_table x) (next_uid x) (address_pool x) (zpr_addr x) (auto_connect x) (bootstrap x) (auth_renewal_lead x) (configured_zpr_addr_demand x) (vsconn x) (vs_auth_services x) (deferred_vs_connect x) (fatal_error x) (a2a_pubkey x) (tun x) (elt x) (dlt x) v (tasks x) (next_task x) (self_reauth_in_flight x).
Definition set_tasks (v : list Task) (x : Assembly) : Assembly :=
  mkAsm (ph_mode x) (peer_table x) (visa_table x) (next_uid x) (address_pool x) (zpr_addr x) (auto_connect x) (bootstrap x) (auth_renewal_lead x) (configured_zpr_addr_demand x) (vsconn x) (vs_auth_services x) (deferred_vs_connect x) (fatal_error x) (a2a_pubkey x) (tun x) (elt x) (dlt x) (sent x) v (next_task x) (self_reauth_in_flight x).
Definition set_next_task (v : Z) (x : Assembly) : Assembly :=
  mkAsm (ph_mode x) (peer_table x) (visa_table x) (next_uid x) (address_pool x) (zpr_addr x) (auto_connect x) (bootstrap x) (auth_renewal_lead x) (configured_zpr_addr_demand x) (vsconn x) (vs_auth_services x) (deferred_vs_connect x) (fatal_error x) (a2a_pubkey x) (tun x) (elt x) (dlt x) (sent x) (tasks x) v (self_reauth_in_flight x).
Definition set_self_reauth_in_flight (v : bool) (x : Assembly) : Assembly :=
  mkAsm (ph_mode x) (peer_table x) (visa_table x) (next_uid x) (address_pool x) (zpr_addr x) (auto_connect x) (bootstrap x) (auth_renewal_lead x) (configured_zpr_addr_demand x) (vsconn x) (vs_auth_services x) (deferred_vs_connect x) (fatal_error x) (a2a_pubkey x) (tun x) (elt x) (dlt x) (sent x) (tasks x) (next_task x) v.

(** ** Computations *)

Definition M (A : Type) : Type := Assembly -> outcome (A * Assembly).

#[global] Instance M_ret : MRet M := fun A a s => Ret (a, s).
#[global] Instance M_bind : MBind M := fun A B f m s =>
  match m s with Ret (a, s') => f a s' | Panic => Panic end.

Definition panic {A} : M A := fun _ => Panic.
Definition gets {A} (f : Assembly -> A) : M A := fun s => Ret (f s, s).
Definition modify (f : Assembly -> Assembly) : M unit := fun s => Ret (tt, f s).
Definition lift {A} (o : outcome A) : M A := fun s => a ← o; Ret (a, s).
Definition assert (b : bool) : M unit := lift (rust_assert b).

Definition get_peer (link_id : Z) : M (option (PeerState slab)) :=
  gets (fun s => PeerTable.get (peer_table s) link_id).
Definition update_peer (link_id : Z) (f : PeerState slab -> PeerState slab) : M unit :=
  modify (fun s => set_peers (PeerTable.update (peer_table s) link_id f) s).
Definition put_peers (t : PeerTable.PeerTable slab) : M unit := modify (set_peers t).
Definition put_visas (t : VisaTable.VisaTable) : M unit := modify (set_visas t).
(** What is sent, in order.  The packet of a message, and the panic when the message
    does not fit it, are in [Requests]: [with_packets] runs a handler with them. *)
Definition send (m : Msg) : M unit := modify (fun s => set_sent (sent s ++ [m]) s).
Definition spawn (t : Task) : M unit := modify (fun s => set_tasks (tasks s ++ [t]) s).

(** Tasks of which an [AbortHandle] is kept have an identifier; aborting one that has
    ended does nothing. *)
Definition task_id (t : Task) : option Z :=
  match t with EchoTask n _ | AdapterRenewalTask n _ _ _ _ _ => Some n | _ => None end.
Definition spawn_abortable (t : Z -> Task) : M Z :=
  n ← gets next_task;
  _ ← modify (set_next_task (n + 1));
  _ ← spawn (t n);
  mret n.
Definition abort (n : Z) : M unit :=
  modify (fun s => set_tasks (filter (fun t => task_id t <> Some n) (tasks s)) s).

(** The task at place [i] has got its answer: it runs to its end and is gone. *)
Definition finish_task (i : nat) (f : Task -> M unit) : M unit :=
  ts ← gets tasks;
  match ts !! i with
  | None => mret tt
  | Some k => _ ← modify (set_tasks (delete i ts)); f k
  end.

(** ** Handles *)

Definition clone_handle (h : TxnHandle) : M TxnHandle :=
  t ← gets peer_table;
  '(h', t') ← lift (PeerTable.clone_handle t h);
  _ ← put_peers t';
  mret h'.
Definition drop_handle (h : TxnHandle) : M unit :=
  t ← gets peer_table; t' ← lift (PeerTable.drop_handle t h); put_peers t'.

(** ** Assembly *)

Definition is_link_ready (link_id : Z) : M bool :=
  p ← get_peer link_id;
  mret match p with Some p => is_ready (link_state_machine p) | None => false end.

Definition set_local_zpr_addrs (addrs : list (list Z)) : M unit := modify (set_zpr_addr addrs).

(** The demanded and the granted addresses are what the message is made of; the
    first one is kept. *)
Definition signal_fatal_error (configured granted : list (list Z)) : M unit :=
  modify (fun s => match fatal_error s with
                   | None => set_fatal_error (Some (configured, granted)) s
                   | Some _ => s
                   end).

Definition get_local_dock_addr : M (list Z) :=
  gets (fun s => match zpr_addr s with [] => replicate 16 0 | a :: _ => a end).

Definition local_zpr_addrs_missing_from_tun (s : Assembly) : list (list Z) :=
  filter (fun a => match tun_has_address (tun s) a with Present b => negb b | _ => false end = true)
    (zpr_addr s).

Inductive SelfAddressError := SelfAddress (addr : list Z) | VsRoute | VsRouteConflict.

Fixpoint apply_addresses (addrs : list (list Z)) : M (unit + SelfAddressError) :=
  match addrs with
  | [] => mret (inl tt)
  | a :: r =>
      t ← gets tun;
      match tun_has_address t a with
      | Present true => apply_addresses r
      | Present false =>
          let '(ok, t') := tun_add_address t a in
          _ ← modify (set_tun t');
          if ok then apply_addresses r else mret (inr (SelfAddress a))
      | Unsupported => apply_addresses r
      | Failed => mret (inr (SelfAddress a))
      end
  end.

Definition ensure_local_zpr_addrs_on_tun_impl (vs_route_needed : bool) : M (unit + SelfAddressError) :=
  addrs ← gets zpr_addr;
  r ← apply_addresses addrs;
  match r with
  | inr e => mret (inr e)
  | inl _ =>
      if vs_route_needed then
        t ← gets tun;
        let '(owner, t1) := tun_route_owner_conflict t VISA_SERVICE_ADDR 128 in
        _ ← modify (set_tun t1);
        match owner with
        | Owner => mret (inr VsRouteConflict)
        | NoOwner | Unknown =>
            let '(ok, t2) := tun_add_route t1 VISA_SERVICE_ADDR 128 in
            _ ← modify (set_tun t2);
            mret (if ok then inl tt else inr VsRoute)
        end
      else mret (inl tt)
  end.

(** [find_egress_link]: our own addresses, then the peers'. *)
Definition find_egress_link (s : Assembly) (actor_addr : list Z) : option Z :=
  if existsb (fun a => bool_decide (a = actor_addr)) (zpr_addr s) then Some LOCAL_ACTOR_LINK_ID
  else
    '(l, _) ← PeerTable.find (peer_table s)
      (fun _ p => existsb (fun a => bool_decide (a = actor_addr))
                    (get_actor_addresses (link_state_machine p)));
    Some l.

(** [rnd]: the random bytes of the peer's authentication key. *)
Definition add_peer (ty : LinkType) (peer_addr interface : list Z * Z) (rnd : list Z)
    : M (Z + PeerInsertError) :=
  t ← gets peer_table;
  match vacant_entry t with
  | inr e => mret (inr e)
  | inl _ =>
      key ← lift (vacant_entry_key t);
      u ← gets next_uid;
      '(p, u') ← lift (peer_new u key ty peer_addr interface rnd);
      '(l, t') ← lift (vacant_entry_insert t p);
      _ ← put_peers t';
      _ ← modify (set_next_uid u');
      _ ← spawn (ZdprWorkerTask l);
      mret (inl l)
  end.

Fixpoint withdraw_streams (withdrawn : list ForwardingEntry) (excluded_link : option Z) : M unit :=
  match withdrawn with
  | [] => mret tt
  | e :: r =>
      p ← get_peer (fe_link e);
      _ ← (if bool_decide (Some (fe_link e) = excluded_link)
              || match p with None => true | Some _ => false end
           then mret tt else send (StreamIdWithdrawal (fe_link e) (fe_stream e)));
      withdraw_streams r excluded_link
  end.

Definition drop_peer (link_id : Z) : M unit :=
  mode ← gets ph_mode;
  _ ← (if decide (mode = Node) then
         vt ← gets visa_table; pt ← gets peer_table;
         '(vt', pt', withdrawn) ← lift (revoke_for_link vt link_id pt);
         _ ← put_visas vt'; _ ← put_peers pt';
         withdraw_streams withdrawn (Some link_id)
       else mret tt);
  t ← gets peer_table;
  t' ← lift (PeerTable.remove t link_id);
  put_peers t'.

(** ** Visa management *)

Definition response_code_for_vs_error (code : ErrorCode) : option Z :=
  match code with
  | InvalidSignature | VsAuthError | ParamError => Some ResponseCode.AuthFailed
  | VsPolicyDenied => Some ResponseCode.PolicyDenied
  | TemporarilyUnavailable => Some ResponseCode.AuthUnavailable
  | _ => None
  end.
Definition grant_code_for_vs_error (code : ErrorCode) : Z :=
  default ResponseCode.Other (response_code_for_vs_error code).

(** A challenge of another length than 48 counts as zeros. *)
Definition challenge48 (b64 : list Z) : list Z :=
  let c := default [] (base64_decode b64) in if zlen c =? 48 then c else replicate 48 0.
Definition vs_blob (b : AuthBlob) : VsAuthBlob :=
  match b with
  | SelfSigned ss =>
      VSS (default [] (base64_decode (ss_challenge ss))) (ss_cn ss) (ss_ts ss)
        (default [] (base64_decode (ss_sig ss)))
  | Oidc o => VOidc (oidc_issuer o) (oidc_id_token o) (oidc_nonce_for_challenge (challenge48 (oidc_challenge o)))
  end.
(** [vst_blobs_for_renewal] of [link_state.rs]. *)
Definition vst_blobs_for_renewal (bs : list AuthBlob) : list VsAuthBlob := vs_blob <$> bs.

Fixpoint first_cn (bs : list AuthBlob) : option (list Z) :=
  match bs with
  | [] => None
  | SelfSigned ss :: _ => Some (ss_cn ss)
  | Oidc _ :: r => first_cn r
  end.

Definition build_connect_request_from_parts (addr : list Z) (bs : list AuthBlob)
    (a2a_dh_public_key : option (list Z)) (substrate_addr : list Z) : ConnectRequest :=
  mkConnect (vs_blob <$> bs)
    ((if bool_decide (addr = UNSPECIFIED) then [] else [ClaimZprAddr addr])
     ++ match first_cn bs with Some c => [ClaimCN c] | None => [] end)
    substrate_addr (default [] a2a_dh_public_key).
Definition build_connect_request (addr : list Z) (bs : list AuthBlob) (key : option (list Z))
    : M ConnectRequest :=
  a ← get_local_dock_addr; mret (build_connect_request_from_parts addr bs key a).

(** The egress link of the next hop is only looked up for a warning. *)
Definition mgmt_insert_visa (v : VsVisa Pep) : M (Z + VisaTableError) :=
  if negb (bool_decide (visa_type v = Full)) then panic
  else
    _ ← lift (unwrap (dock_pep v));
    vt ← gets visa_table;
    '(vt', r) ← lift (insert_visa vt v);
    _ ← put_visas vt';
    mret r.

Definition get_egress_link_for_visa (visa_id : Z) : M (Z + VisaTableError) :=
  s ← gets (fun s => s);
  mret match get_visa_next_hop_addr (visa_table s) visa_id with
       | inr e => inr e
       | inl addr =>
           match find_egress_link s addr with Some l => inl l | None => inr (DestNotFound addr) end
       end.

Definition handle_revocation (visa_id : Z) : M (unit + VisaTableError) :=
  vt ← gets visa_table; pt ← gets peer_table;
  '(vt', pt', r) ← lift (revoke vt pt visa_id);
  _ ← put_visas vt'; _ ← put_peers pt';
  match r with
  | inr e => mret (inr e)
  | inl withdrawn => _ ← withdraw_streams withdrawn None; mret (inl tt)
  end.

End assembly.
Arguments Assembly {_ _ _} slab. Arguments M {_ _ _} slab _.

Section wp.
Context `{VisaEnv} `{TunCtl} `{FlowTables} `{SlabOps slab}.
Notation M := (M slab).
Implicit Types (s : Assembly slab) (l : Z).

(** ** Weakest preconditions: the computation returns, in a state with [Q] *)
Definition wp {A} (m : M A) s (Q : A -> Assembly slab -> Prop) : Prop :=
  match m s with Ret (a, s') => Q a s' | Panic => False end.

Lemma wp_ret {A} (a : A) s (Q : A -> Assembly slab -> Prop) : Q a s -> wp (mret a) s Q.
Proof. done. Qed.
Lemma wp_bind {A B} (m : M A) (f : A -> M B) s Q :
  wp m s (fun a s' => wp (f a) s' Q) -> wp (m ≫= f) s Q.
Proof. unfold wp, mbind, M_bind. by destruct (m s) as [[a s']|]. Qed.
Lemma wp_mono {A} (m : M A) s (P Q : A -> Assembly slab -> Prop) :
  wp m s P -> (forall a s', P a s' -> Q a s') -> wp m s Q.
Proof. unfold wp. destruct (m s) as [[a s']|]; auto. Qed.
Lemma wp_gets {A} (f : Assembly slab -> A) s (Q : A -> Assembly slab -> Prop) : Q (f s) s -> wp (gets f) s Q.
Proof. done. Qed.
Lemma wp_modify (f : Assembly slab -> Assembly slab) s (Q : unit -> Assembly slab -> Prop) :
  Q tt (f s) -> wp (modify f) s Q.
Proof. done. Qed.
Lemma wp_lift {A} (o : outcome A) (a : A) s (Q : A -> Assembly slab -> Prop) :
  o = Ret a -> Q a s -> wp (lift o) s Q.
Proof. by intros ->. Qed.
Lemma wp_get_peer l s (Q : option (PeerState slab) -> Assembly slab -> Prop) :
  Q (get (peer_table s) l) s -> wp (get_peer l) s Q.
Proof. done. Qed.
Lemma wp_run {A} (m : M A) s Q : wp m s Q <-> exists a s', m s = Ret (a, s') /\ Q a s'.
Proof.
  unfold wp. destruct (m s) as [[a s']|]; split; try naive_solver.
  all: intros (? & ? & ? & ?); simplify_eq; done.
Qed.
End wp.
End Asm.
