(* ===== verification/NodeBind.v ===== *)
(** * Binding flows at a node ([mgmt/node.rs], bind handlers of [mgmt/handlers.rs])

    An adapter (or another node) asks for a flow to be bound; the node finds or
    requests a visa, asks the next hop for a tether under a transaction of its own,
    and on success puts a route into the requester's forwarding table, records it
    with the visa and answers.  The state of a request is kept with the requester's
    peer under the requester's transaction; the next hop's peer keeps a back link
    under the node's transaction. *)
From Stdlib Require Import ZArith Lia.
From stdpp Require Import base tactics option list numbers gmap.
From S2P Require Import Prelude Slab NetDefs Classifier Tc ForwardingTables TxnMgr Auth LinkTypes PeerTable VisaTable AddressPool Assembly.
Import Classifier Tc ForwardingTables PeerTable VisaTable Asm.

Local Open Scope Z_scope.

Module NodeBind.

Inductive InstallTetherError := NoSuchTransaction | LinkClosed.
Inductive HandleMgmtError := BadStructure | MessageNotPermitted | LinkGone | UnknownTransaction.

(** The answer of the visa service to a request for a visa. *)
Inductive VisaDecision `{VisaEnv} := Allowed (v : VsVisa Pep) | Denied | RequestError.

Section node.
Context `{NetDefs} `{Crypto} `{VisaEnv} `{TunCtl} `{FlowTables} `{SlabOps slab}.
(** [FiveTuple::default()]. *)
Context (default_ft : FiveTuple).

Notation M := (M slab).

Definition set_bind_state (m : gmap Z BindRequestState) (n : NodePeerState) : NodePeerState :=
  mkNode m (awaiting_next_hop_bind_table n).
Definition set_awaiting (m : gmap TxnHandle (Z * Z)) (n : NodePeerState) : NodePeerState :=
  mkNode (bind_request_state n) m.

(** Dropping a state drops the handle it holds. *)
Definition drop_state (b : option BindRequestState) : M unit :=
  match b with
  | Some b => match state_handle b with Some h => drop_handle h | None => mret tt end
  | None => mret tt
  end.

(** [bind_request_state.insert(txn_id, st)] and [remove(&txn_id)] of a link's peer;
    inserting drops the state that was there. *)
Definition insert_bind_state (link_id txn_id : Z) (st : BindRequestState) : M unit :=
  p ← get_peer link_id;
  _ ← update_peer link_id (on_node (fun n => set_bind_state (<[txn_id := st]> (bind_request_state n)) n));
  drop_state (p ← p; bind_request_state (node_state p) !! txn_id).
Definition remove_bind_state (link_id txn_id : Z) : M (option BindRequestState) :=
  p ← get_peer link_id;
  _ ← update_peer link_id (on_node (fun n => set_bind_state (delete txn_id (bind_request_state n)) n));
  mret (p ← p; bind_request_state (node_state p) !! txn_id).

(** [awaiting_next_hop_bind_table.insert(txn, originator)] and [remove(txn)]: the
    table owns a handle per entry. *)
Definition insert_awaiting (link_id : Z) (h : TxnHandle) (orig : Z * Z) : M unit :=
  p ← get_peer link_id;
  _ ← update_peer link_id (on_node (fun n =>
        set_awaiting (<[h := orig]> (awaiting_next_hop_bind_table n)) n));
  match p ← p; awaiting_next_hop_bind_table (node_state p) !! h with
  | Some _ => drop_handle h
  | None => mret tt
  end.
Definition remove_awaiting (link_id : Z) (h : TxnHandle) : M (option (Z * Z)) :=
  p ← get_peer link_id;
  _ ← update_peer link_id (on_node (fun n => set_awaiting (delete h (awaiting_next_hop_bind_table n)) n));
  match p ← p; awaiting_next_hop_bind_table (node_state p) !! h with
  | Some o => _ ← drop_handle h; mret (Some o)
  | None => mret None
  end.

(** [txn_mgr.try_open()] and [txn_mgr.get(id)] of a link's peer. *)
Definition try_open (link_id : Z) : M (option TxnHandle) :=
  p ← get_peer link_id;
  match p with
  | None => mret None
  | Some p =>
      match TxnMgr.try_open_raw (txn_mgr p) with
      | None => mret None
      | Some (i, m) =>
          _ ← update_peer link_id (set_txn_mgr m);
          mret (Some (mkTxn (LinkTypes.uid (link_state_machine p)) i))
      end
  end.
Definition get_txn (link_id txn_id : Z) : M (option TxnHandle) :=
  p ← get_peer link_id;
  match p with
  | None => mret None
  | Some p =>
      match TxnMgr.get (txn_mgr p) txn_id with
      | None => mret None
      | Some m =>
          _ ← update_peer link_id (set_txn_mgr m);
          mret (Some (mkTxn (LinkTypes.uid (link_state_machine p)) txn_id))
      end
  end.

(** [assert!(!egress.awaiting_next_hop_bind_table.contains_key(&txn))], if the peer
    exists. *)
Definition assert_not_awaiting (egress_link_id : Z) (h : TxnHandle) : M unit :=
  p ← get_peer egress_link_id;
  match p with
  | Some p =>
      assert (match awaiting_next_hop_bind_table (node_state p) !! h with Some _ => false | None => true end)
  | None => mret tt
  end.

Definition bind_reject (ingress_link_id txn_id : Z) (reason : RejectReason) : M unit :=
  p ← get_peer ingress_link_id;
  match p with
  | None => mret tt
  | Some p =>
      b ← remove_bind_state ingress_link_id txn_id;
      _ ← match b with
          | Some (AwaitingNextHopBind _ egress_link_id egress_bind_txn) =>
              assert_not_awaiting egress_link_id egress_bind_txn
          | _ => mret tt
          end;
      _ ← drop_state b;
      match peer_type p with
      | TAdapter => send (BindActorAddressErrorResponse ingress_link_id txn_id reason)
      | TNode => send (StreamIdErrorResponse ingress_link_id txn_id reason)
      | TDock | TUnknown => mret tt
      end
  end.

Definition requested_visa_denied (ingress_link_id txn_id : Z) : M unit :=
  bind_reject ingress_link_id txn_id PolicyErrorReason.

(** What goes to the next hop: nothing to a node, the classifier and the requester's
    key to an adapter. *)
Definition bind_next_hop (ingress_link_id txn_id visa_id egress_link_id : Z)
    (tc : option (Ip5TupleTc * option (list Z))) : M unit :=
  h ← try_open egress_link_id;
  h ← lift (unwrap h);
  p ← get_peer ingress_link_id;
  match p with
  | None => drop_handle h
  | Some _ =>
      h' ← clone_handle h;
      _ ← insert_bind_state ingress_link_id txn_id (AwaitingNextHopBind visa_id egress_link_id h');
      _ ← insert_awaiting egress_link_id h (ingress_link_id, txn_id);
      match tc with
      | None => send (StreamIdRequest egress_link_id (th_id h) visa_id)
      | Some (tc, key) => send (BindEgressStreamRequest egress_link_id (th_id h) tc key)
      end
  end.

Definition requested_visa_granted (ingress_link_id txn_id visa_id : Z) : M unit :=
  r ← get_egress_link_for_visa visa_id;
  match r with
  | inr _ => requested_visa_denied ingress_link_id txn_id
  | inl egress_link_id =>
      p ← get_peer egress_link_id;
      match p with
      | None => requested_visa_denied ingress_link_id txn_id
      | Some p =>
          match peer_type p with
          | TNode => bind_next_hop ingress_link_id txn_id visa_id egress_link_id None
          | TAdapter =>
              vt ← gets visa_table;
              match table vt !! visa_id with
              | None => requested_visa_denied ingress_link_id txn_id
              | Some v =>
                  tc ← lift (get_tc v);
                  bind_next_hop ingress_link_id txn_id visa_id egress_link_id
                    (Some (tc, get_ingress_a2a_dh_pubkey v))
              end
          | TDock | TUnknown => requested_visa_denied ingress_link_id txn_id
          end
      end
  end.

(** We have no visa: the state is set and a task asks the visa service. *)
Definition launch_visa_request (ingress_link_id txn_id : Z) (five_tuple : FiveTuple) : M unit :=
  let flags := if (l4_protocol five_tuple =? ICMP) || (l4_protocol five_tuple =? IPV6_ICMP)
               then UniDirectional else BiDirectional in
  _ ← spawn (VisaRequestTask ingress_link_id txn_id (mkVisaRequest five_tuple flags));
  insert_bind_state ingress_link_id txn_id AwaitingVisaResponse.

Definition bind_actor_address (ingress_link_id txn_id : Z) (packet_body : list Z) : M unit :=
  '(five_tuple, r) ← lift (classify_with_options (mkOptions true false) default_ft packet_body);
  match r with
  | inl OK =>
      p ← get_peer ingress_link_id;
      match p with
      | None => mret tt
      | Some p =>
          if negb (LinkTypes.has_actor_address (src_address five_tuple) (link_state_machine p))
          then requested_visa_denied ingress_link_id txn_id
          else
            vt ← gets visa_table;
            match match_traffic vt five_tuple with
            | Some matched_visa_id =>
                q ← get_egress_link_for_visa matched_visa_id;
                match q with
                | inl _ => requested_visa_granted ingress_link_id txn_id matched_visa_id
                | inr (NotFound _) => launch_visa_request ingress_link_id txn_id five_tuple
                | inr (DestNotFound _) => requested_visa_denied ingress_link_id txn_id
                | inr _ => panic
                end
            | None => launch_visa_request ingress_link_id txn_id five_tuple
            end
      end
  | _ => requested_visa_denied ingress_link_id txn_id
  end.

(** The part of [visa_request_task] after the visa service has answered. *)
Definition visa_request_done (ingress_link_id txn_id : Z) (d : VisaDecision) : M unit :=
  match d with
  | Allowed v =>
      r ← mgmt_insert_visa v;
      match r with
      | inl visa_id => requested_visa_granted ingress_link_id txn_id visa_id
      | inr ParseError => requested_visa_denied ingress_link_id txn_id
      | inr _ => panic
      end
  | Denied | RequestError => requested_visa_denied ingress_link_id txn_id
  end.

Definition request_stream (ingress_link_id txn_id visa_id : Z) : M unit :=
  p ← get_peer ingress_link_id;
  match p with
  | None => mret tt
  | Some _ =>
      vt ← gets visa_table;
      match table vt !! visa_id with
      | Some _ => requested_visa_granted ingress_link_id txn_id visa_id
      | None =>
          _ ← spawn (VisaPushRequestTask ingress_link_id txn_id visa_id);
          insert_bind_state ingress_link_id txn_id (AwaitingVisaPush visa_id)
      end
  end.

(** The part of [visa_push_request_task] after the visa service has answered. *)
Definition visa_push_done (ingress_link_id txn_id req_visa_id : Z) (r : option (list (VsVisa Pep)))
    : M unit :=
  match r with
  | None => requested_visa_denied ingress_link_id txn_id
  | Some visas =>
      match List.find (fun v => issuer_id v =? req_visa_id) visas with
      | None => requested_visa_denied ingress_link_id txn_id
      | Some v =>
          r ← mgmt_insert_visa v;
          match r with
          | inl _ => requested_visa_granted ingress_link_id txn_id req_visa_id
          | inr ParseError => requested_visa_denied ingress_link_id txn_id
          | inr _ => panic
          end
      end
  end.

(** The end of a bind: the route, its record with the visa, the answer. *)
Definition install_route (ingress_link_id txn_id visa_id egress_link_id egress_tether_id : Z)
    (p : PeerState slab) : M unit :=
  if negb (pft_vacant_entry (pft p)) then bind_reject ingress_link_id txn_id PftFullReason
  else
    vt ← gets visa_table;
    match table vt !! visa_id with
    | None => requested_visa_denied ingress_link_id txn_id
    | Some v =>
        key ← lift (vacant_pft_key (pft p));
        _ ← put_visas (on_visa vt visa_id (visa_link_forwarding_entry (FE ingress_link_id key)));
        match peer_type p with
        | TDock | TUnknown => requested_visa_denied ingress_link_id txn_id
        | ty =>
            tc ← (match ty with TAdapter => tc ← lift (get_tc v); mret (Some (tc, get_egress_a2a_dh_pubkey v))
                             | _ => mret None end : M (option (Ip5TupleTc * option (list Z))));
            '(ingress_tether_id, f) ← lift (vacant_pft_insert (pft p)
              (mkPftPep (FE egress_link_id egress_tether_id) visa_id));
            _ ← update_peer ingress_link_id (set_pft f);
            match tc with
            | None => send (StreamIdSuccessResponse ingress_link_id txn_id ingress_tether_id)
            | Some (tc, key) =>
                send (BindActorAddressSuccessResponse ingress_link_id txn_id ingress_tether_id tc key)
            end
        end
    end.

Definition requested_tether_granted (ingress_link_id txn_id egress_tether_id : Z) : M unit :=
  p ← get_peer ingress_link_id;
  match p with
  | None => mret tt
  | Some p =>
      match bind_request_state (node_state p) !! txn_id with
      | Some (AwaitingNextHopBind visa_id egress_link_id egress_bind_txn) =>
          _ ← assert_not_awaiting egress_link_id egress_bind_txn;
          b ← remove_bind_state ingress_link_id txn_id;
          _ ← drop_state b;
          q ← get_peer ingress_link_id;
          q ← lift (unwrap q);
          install_route ingress_link_id txn_id visa_id egress_link_id egress_tether_id q
      | _ => mret tt
      end
  end.

Definition resolve_next_hop_bind_originator (egress_link_id : Z) (egress_txn : TxnHandle)
    : M (Z * Z + InstallTetherError) :=
  e ← get_peer egress_link_id;
  match e with
  | None => mret (inr LinkClosed)
  | Some _ =>
      o ← remove_awaiting egress_link_id egress_txn;
      match o with
      | None => mret (inr NoSuchTransaction)
      | Some (ingress_link_id, ingress_txn_id) =>
          i ← get_peer ingress_link_id;
          match i with
          | None => mret (inl (ingress_link_id, ingress_txn_id))
          | Some i =>
              match bind_request_state (node_state i) !! ingress_txn_id with
              | Some (AwaitingNextHopBind _ expected_egress_link_id expected_egress_txn) =>
                  _ ← assert (expected_egress_link_id =? egress_link_id);
                  _ ← assert (bool_decide (expected_egress_txn = egress_txn));
                  mret (inl (ingress_link_id, ingress_txn_id))
              | _ => panic
              end
          end
      end
  end.

Definition install_tether (egress_link_id : Z) (egress_txn : TxnHandle) (egress_tether_id : Z)
    : M (unit + InstallTetherError) :=
  r ← resolve_next_hop_bind_originator egress_link_id egress_txn;
  match r with
  | inr e => mret (inr e)
  | inl (l, t) => _ ← requested_tether_granted l t egress_tether_id; mret (inl tt)
  end.

Definition deny_tether (egress_link_id : Z) (egress_txn : TxnHandle) (reason : list Z)
    : M (unit + InstallTetherError) :=
  r ← resolve_next_hop_bind_originator egress_link_id egress_txn;
  match r with
  | inr e => mret (inr e)
  | inl (l, t) => _ ← bind_reject l t (PeerReason reason); mret (inl tt)
  end.

Definition unbind_stream (ingress_link_id stream_id : Z) : M unit :=
  p ← get_peer ingress_link_id;
  match p with
  | None => mret tt
  | Some p =>
      match pft_get (pft p) stream_id with
      | None => mret tt
      | Some pft_pep =>
          f ← lift (pft_remove (pft p) stream_id);
          _ ← update_peer ingress_link_id (set_pft f);
          vt ← gets visa_table;
          _ ← put_visas (unlink_forwarding_entry vt (pep_visa_id pft_pep) (next_hop pft_pep)).1;
          send (UnbindEgressStreamRequest (fe_link (next_hop pft_pep)) stream_id)
      end
  end.

(** ** Handlers: what reaches the functions above from a peer's packet *)

Definition peer_type_by_id (link_id : Z) : M PeerType :=
  p ← get_peer link_id; mret match p with Some p => peer_type p | None => TUnknown end.

(** The packets are what is left after the headers of [dispatch]: a layer-3 type, the
    length of the endpoint packet and its bytes, then possibly garbage. *)
Definition handle_bind_actor_address_request (ingress_link_id txn_id : Z) (pkt : list Z)
    : M (unit + HandleMgmtError) :=
  if zlen pkt <? 3 then mret (inr BadStructure)
  else
    let endpoint_packet_length := from_be (take 2 (drop 1 pkt)) in
    let pkt := drop 3 pkt in
    if zlen pkt <? endpoint_packet_length then mret (inr BadStructure)
    else
    let body := take (Z.to_nat endpoint_packet_length) pkt in
    if ingress_link_id =? 0 then mret (inl tt)
    else
      ty ← peer_type_by_id ingress_link_id;
      match ty with
      | TAdapter => _ ← bind_actor_address ingress_link_id txn_id body; mret (inl tt)
      | _ => mret (inr MessageNotPermitted)
      end.

Definition handle_stream_id_request (ingress_link_id txn_id : Z) (pkt : list Z)
    : M (unit + HandleMgmtError) :=
  if zlen pkt <? 8 then mret (inr BadStructure)
  else
    let visa_id := from_be (take 8 pkt) in
    if ingress_link_id =? 0 then mret (inl tt)
    else
    ty ← peer_type_by_id ingress_link_id;
    match ty with
    | TNode => _ ← request_stream ingress_link_id txn_id visa_id; mret (inl tt)
    | _ => mret (inr MessageNotPermitted)
    end.

Definition tether_error (r : unit + InstallTetherError) : unit + HandleMgmtError :=
  match r with
  | inl _ => inl tt
  | inr LinkClosed => inr LinkGone
  | inr NoSuchTransaction => inr UnknownTransaction
  end.

(** A response of the next hop: status code, length of the text of a refusal, the
    text.  The stream identifier is in the packet's metadata.  [utf8] is
    [str::from_utf8]; [handle_stream_id_response] and
    [handle_bind_egress_stream_response] have the same body. *)
Definition next_hop_answer (utf8 : list Z -> bool) (link_id : Z) (h : TxnHandle) (stream_id : Z)
    (pkt : list Z) : M (unit + HandleMgmtError) :=
  match pkt with
  | status :: info_len :: body =>
      if status =? LinkTypes.ResponseCode.Success then
        r ← install_tether link_id h stream_id; mret (tether_error r)
      else if status =? LinkTypes.ResponseCode.Other then
        if zlen body <? info_len then mret (inr BadStructure)
        else if negb (utf8 (take (Z.to_nat info_len) body)) then mret (inr BadStructure)
        else r ← deny_tether link_id h (take (Z.to_nat info_len) body); mret (tether_error r)
      else mret (inr BadStructure)
  | _ => mret (inr BadStructure)
  end.
Definition handle_next_hop_response (utf8 : list Z -> bool) (link_id txn_id stream_id : Z)
    (pkt : list Z) : M (unit + HandleMgmtError) :=
  p ← get_peer link_id;
  match p with
  | None => mret (inr LinkGone)
  | Some _ =>
      h ← get_txn link_id txn_id;
      match h with
      | None => mret (inr UnknownTransaction)
      | Some h =>
          r ← next_hop_answer utf8 link_id h stream_id pkt;
          _ ← drop_handle h;
          mret r
      end
  end.

(** The node's part of [handle_unbind_indication]; an adapter's part is the dock
    lookup table's [dlt_remove]. *)
Inductive UnbindSide := NodeSide | AdapterSide.
Definition unbind_side (p : PeerState slab) (link_id : Z) : UnbindSide + HandleMgmtError :=
  match LinkTypes.link_type (link_state_machine p) with
  | LinkTypes.NodeToAdapter => inl NodeSide
  | LinkTypes.AdapterToNode => inl AdapterSide
  | LinkTypes.NodeToNode => inr MessageNotPermitted
  | LinkTypes.Internal =>
      if link_id =? LOCAL_ACTOR_LINK_ID then inl NodeSide
      else if link_id =? DOCK_LINK_ID then inl AdapterSide else inr MessageNotPermitted
  end.
Definition handle_unbind_indication (dlt : DockLookupTable slab) (ingress_link_id stream_id : Z)
    : M (DockLookupTable slab * (unit + HandleMgmtError)) :=
  if ingress_link_id =? 0 then mret (dlt, inl tt)
  else
    p ← get_peer ingress_link_id;
    match p with
    | None => mret (dlt, inr LinkGone)
    | Some p =>
        match unbind_side p ingress_link_id with
        | inl NodeSide => _ ← unbind_stream ingress_link_id stream_id; mret (dlt, inl tt)
        | inl AdapterSide => d ← lift (dlt_remove dlt stream_id); mret (d, inl tt)
        | inr e => mret (dlt, inr e)
        end
    end.

End node.
End NodeBind.
