(* ===== verification/NodeBindInv.v ===== *)
(** * Binding flows: the consistency of docking state

    Requests that wait for the next hop and the back links kept with the next hop
    refer to each other, and transactions are reference-counted by the handles both
    hold.  [Inv ex d n t] says so of a peer table [t]: [ex] are the handles held
    elsewhere, [n] the next [uid], and [d], when present, a request (link,
    transaction, handle) whose back link is missing: the state between the two halves
    of setting a request up or taking it down. *)
From Stdlib Require Import ZArith Lia.
From stdpp Require Import base tactics option list numbers gmap gmultiset.
From S2P Require Import Prelude Slab NetDefs Tc ForwardingTables TxnMgr LinkTypes PeerTable PeerTableProps.
Import ForwardingTables PeerTable PeerTableProps.

Local Open Scope Z_scope.

Module NodeBindInv.

Lemma multiplicity_le_size (ex : gmultiset TxnHandle) (h : TxnHandle) : (multiplicity h ex <= size ex)%nat.
Proof.
  induction ex as [|g ex IH] using gmultiset_ind; [rewrite multiplicity_empty; lia|].
  rewrite multiplicity_disj_union, gmultiset_size_disj_union, gmultiset_size_singleton.
  destruct (decide (h = g)) as [-> |]; [rewrite multiplicity_singleton_eq|rewrite multiplicity_singleton_ne by done]; lia.
Qed.

Section inv.
Context `{Slab slab}.
Implicit Types (t : PeerTable slab) (p : PeerState slab) (l e j x : Z) (h : TxnHandle)
  (ex : gmultiset TxnHandle) (d : option (Z * Z * TxnHandle)).

Definition puid p : Z := LinkTypes.uid (link_state_machine p).
Definition binds p : gmap Z BindRequestState := bind_request_state (node_state p).
Definition awaits p : gmap TxnHandle (Z * Z) := awaiting_next_hop_bind_table (node_state p).
Definition live t l : bool := match get t l with Some _ => true | None => false end.

(** The state of a request, when its peer exists. *)
Definition bind_at t l x : option BindRequestState := p ← get t l; binds p !! x.

(** How many handles exist for a transaction of [p]'s manager. *)
Definition held ex d t p : Z -> nat := fun i =>
  let h := mkTxn (puid p) i in
  (multiplicity h ex
   + match awaits p !! h with Some (l, _) => if live t l then 2 else 1 | None => 0 end
   + match d with Some (_, _, h') => if decide (h' = h) then 1 else 0 | None => 0 end)%nat.

Record Inv ex d (n : Z) t : Prop := {
  i_table : table_ok t;
  i_uid : forall l p, u32 l -> get t l = Some p -> 0 < puid p < n;
  i_uniq : forall l j p q, u32 l -> u32 j -> get t l = Some p -> get t j = Some q -> puid p = puid q -> l = j;
  (** a back link refers to a request that waits for it *)
  i_back : forall e p h l x, u32 e -> get t e = Some p -> awaits p !! h = Some (l, x) ->
    u32 l /\ th_mgr h = puid p /\
    (live t l = true -> exists v, bind_at t l x = Some (AwaitingNextHopBind v e h));
  (** a request that waits for the next hop has its back link there *)
  i_req : forall l p x v e h, u32 l -> get t l = Some p -> binds p !! x = Some (AwaitingNextHopBind v e h) ->
    u32 e /\ th_mgr h < n /\
    (d <> Some (l, x, h) -> forall j q, u32 j -> get t j = Some q -> puid q = th_mgr h ->
       j = e /\ awaits q !! h = Some (l, x));
  i_dang : forall l x h, d = Some (l, x, h) ->
    u32 l /\ (exists v e, bind_at t l x = Some (AwaitingNextHopBind v e h)) /\
    (forall j q, u32 j -> get t j = Some q -> awaits q !! h = None);
  i_refs : forall e p, u32 e -> get t e = Some p -> TxnMgr.refcounts (txn_mgr p) (held ex d t p)
}.

(** ** Updates of one entry *)

Lemma live_update t l f j : u32 l -> u32 j -> live (update t l f) j = live t j.
Proof.
  intros Hl Hj. unfold live. rewrite get_update by done. destruct (decide (j = l)) as [-> |]; [|done].
  by destruct (get t l).
Qed.

Lemma bind_at_update t l f j x : u32 l -> u32 j ->
  bind_at (update t l f) j x =
  if decide (j = l) then p ← get t l; binds (f p) !! x else bind_at t j x.
Proof.
  intros Hl Hj. unfold bind_at. rewrite get_update by done. destruct (decide (j = l)); [|done].
  by destruct (get t l).
Qed.

(** An update that leaves the docking state and the manager alone. *)
Definition quiet (f : PeerState slab -> PeerState slab) : Prop :=
  forall p, puid (f p) = puid p /\ node_state (f p) = node_state p /\ txn_mgr (f p) = txn_mgr p.

(** The docking side of a table: what the invariant reads of it. *)
Definition same_dock t t' : Prop :=
  forall l, u32 l -> match get t l, get t' l with
    | Some p, Some q => puid q = puid p /\ node_state q = node_state p /\ txn_mgr q = txn_mgr p
    | None, None => True
    | _, _ => False
    end.

Lemma same_dock_live t t' l : same_dock t t' -> u32 l -> live t' l = live t l.
Proof. intros Hs Hl. specialize (Hs l Hl). unfold live. by destruct (get t l), (get t' l). Qed.

Lemma same_dock_bind t t' l x : same_dock t t' -> u32 l -> bind_at t' l x = bind_at t l x.
Proof.
  intros Hs Hl. specialize (Hs l Hl). unfold bind_at, binds.
  destruct (get t l), (get t' l); try done. destruct Hs as (_ & E & _). cbn. by rewrite E.
Qed.

Lemma same_dock_back t t' l q :
  same_dock t t' -> u32 l -> get t' l = Some q ->
  exists p, get t l = Some p /\ puid q = puid p /\ binds q = binds p /\ awaits q = awaits p /\
    txn_mgr q = txn_mgr p.
Proof.
  intros Hs Hl Hq. specialize (Hs l Hl). rewrite Hq in Hs. destruct (get t l) as [p|]; [|done].
  destruct Hs as (E1 & E2 & E3). exists p. unfold binds, awaits. by rewrite E2.
Qed.

Lemma Inv_same_dock ex d n t t' : table_ok t' -> same_dock t t' -> Inv ex d n t -> Inv ex d n t'.
Proof.
  intros Hok' Hs [Hok Hu Huq Hb Hr Hd Hc].
  split; [done|..].
  - intros l q Hl (p & Hp & -> & _)%(same_dock_back t t'); [|done..]. by eapply Hu.
  - intros l j p q Hl Hj (p0 & Hp & -> & _)%(same_dock_back t t') (q0 & Hq & -> & _)%(same_dock_back t t');
      [|done..]. by apply Huq.
  - intros e q h l x He (p & Hp & -> & _ & -> & _)%(same_dock_back t t') Ha; [|done..].
    destruct (Hb e p h l x He Hp Ha) as (Hl & Hm & Hw). split_and!; [done|done|].
    by rewrite (same_dock_live t t'), (same_dock_bind t t').
  - intros l q x v e h Hl (p & Hp & _ & -> & _)%(same_dock_back t t') Hx; [|done..].
    destruct (Hr l p x v e h Hl Hp Hx) as (He & Hm & Hw). split_and!; [done|done|].
    intros Hne j q0 Hj (p0 & Hp0 & -> & _ & -> & _)%(same_dock_back t t'); [|done..]. by apply Hw.
  - intros l x h Hdx. destruct (Hd l x h Hdx) as (Hl & Hw & Hno). split_and!; [done| |].
    + by rewrite (same_dock_bind t t').
    + intros j q Hj (p & Hp & _ & _ & -> & _)%(same_dock_back t t'); [|done..]. by eapply Hno.
  - intros e q He (p & Hp & Eu & _ & Ea & Et)%(same_dock_back t t'); [|done..]. rewrite Et.
    eapply TxnMgr.refcounts_ext; [|by eapply Hc]. intros i. unfold held. rewrite Ea, Eu.
    destruct (awaits p !! _) as [[l x]|] eqn:E; [|done].
    destruct (Hb e p _ l x He Hp E) as (Hl & _). by rewrite (same_dock_live t t').
Qed.

Lemma quiet_same_dock t l f : u32 l -> quiet f -> same_dock t (update t l f).
Proof.
  intros Hl Hf j Hj. rewrite get_update by done. destruct (decide (j = l)) as [-> |].
  - destruct (get t l) as [p|]; [|done]. cbn. apply Hf.
  - by destruct (get t j).
Qed.

Lemma Inv_quiet ex d n t l f : u32 l -> keeps f -> quiet f -> Inv ex d n t -> Inv ex d n (update t l f).
Proof.
  intros Hl Hk Hq Hi. eapply Inv_same_dock; [|by apply quiet_same_dock|done].
  apply update_ok; [done|done|by apply Hi].
Qed.

(** ** Handles *)

Lemma upgrade_live ex d n t h e p :
  Inv ex d n t -> u32 e -> get t e = Some p -> puid p = th_mgr h -> upgrade t h = Some (e, p).
Proof.
  intros Hi He Hp Hu. unfold upgrade. destruct (find t _) as [[l q]|] eqn:E.
  - apply find_some in E as (Hl & Hq & Hqu); [|by apply Hi]. apply Z.eqb_eq in Hqu.
    assert (l = e) as ->; [|congruence]. eapply (i_uniq _ _ _ _ Hi); eauto. unfold puid in *. congruence.
  - eapply find_none in E; [|by apply Hi|done|done]. apply Z.eqb_neq in E. by unfold puid in Hu.
Qed.

Lemma upgrade_dead ex d n t h :
  Inv ex d n t -> (forall e p, u32 e -> get t e = Some p -> puid p <> th_mgr h) -> upgrade t h = None.
Proof.
  intros Hi Hno. unfold upgrade. destruct (find t _) as [[l q]|] eqn:E; [|done].
  apply find_some in E as (Hl & Hq & Hqu); [|by apply Hi]. apply Z.eqb_eq in Hqu. exfalso.
  by apply (Hno l q Hl Hq).
Qed.

(** Changing the manager of one peer, with the counts that go with it. *)
Lemma Inv_mgr ex ex' d n t e p m :
  Inv ex d n t -> u32 e -> get t e = Some p ->
  TxnMgr.refcounts m (held ex' d t p) ->
  (forall h, th_mgr h <> puid p -> multiplicity h ex' = multiplicity h ex) ->
  Inv ex' d n (update t e (set_txn_mgr m)).
Proof.
  intros Hi He Hp Hm Hex. pose proof Hi as [Hok Hu Huq Hb Hr Hd Hc].
  assert (forall j q, u32 j -> get (update t e (set_txn_mgr m)) j = Some q ->
    exists q0, get t j = Some q0 /\ puid q = puid q0 /\ binds q = binds q0 /\ awaits q = awaits q0 /\
      txn_mgr q = if decide (j = e) then m else txn_mgr q0) as Hback.
  { intros j q Hj. rewrite get_update by done. destruct (decide (j = e)) as [-> |]; [|by eauto 6].
    rewrite Hp. intros [= <-]. by exists p. }
  assert (forall j x, u32 j -> bind_at (update t e (set_txn_mgr m)) j x = bind_at t j x) as Hba.
  { intros j x Hj. rewrite bind_at_update by done. destruct (decide (j = e)) as [-> |]; [|done].
    unfold bind_at. by rewrite Hp. }
  split.
  - by apply update_ok.
  - intros l q Hl (q0 & Hq & -> & _)%Hback; [|done]. by eapply Hu.
  - intros l j q q' Hl Hj (q0 & Hq & -> & _)%Hback (q1 & Hq' & -> & _)%Hback; [|done..]. by apply Huq.
  - intros e0 q h l x He0 (q0 & Hq & -> & _ & -> & _)%Hback Ha; [|done].
    destruct (Hb e0 q0 h l x He0 Hq Ha) as (Hl & Hmg & Hw). split_and!; [done|done|].
    by rewrite live_update, Hba.
  - intros l q x v e0 h Hl (q0 & Hq & _ & -> & _)%Hback Hx; [|done].
    destruct (Hr l q0 x v e0 h Hl Hq Hx) as (He0 & Hmg & Hw). split_and!; [done|done|].
    intros Hne j q1 Hj (q2 & Hq2 & -> & _ & -> & _)%Hback; [|done]. by apply Hw.
  - intros l x h Hdx. destruct (Hd l x h Hdx) as (Hl & Hw & Hno). split_and!; [done|by rewrite Hba|].
    intros j q Hj (q0 & Hq & _ & _ & -> & _)%Hback; [|done]. by eapply Hno.
  - intros j q Hj (q0 & Hq & Eu & _ & Ea & Et)%Hback; [|done]. rewrite Et.
    assert (forall i, held ex' d (update t e (set_txn_mgr m)) q i = held ex' d t q0 i) as Heq.
    { intros i. unfold held. rewrite Ea, Eu. destruct (awaits q0 !! _) as [[l x]|] eqn:E; [|done].
      destruct (Hb j q0 _ l x Hj Hq E) as (Hl & _). by rewrite live_update. }
    destruct (decide (j = e)) as [-> |Hne].
    + rewrite Hp in Hq. injection Hq as <-. by eapply TxnMgr.refcounts_ext; [|exact Hm].
    + eapply TxnMgr.refcounts_ext; [|by eapply Hc]. intros i. rewrite Heq. unfold held.
      rewrite (Hex (mkTxn (puid q0) i)); [done|]. cbn. intros E. apply Hne. by eapply Huq.
Qed.

Lemma held_add ex d t p i j :
  held ({[+ mkTxn (puid p) i +]} ⊎ ex) d t p j = TxnMgr.add_one (held ex d t p) i j.
Proof.
  unfold held, TxnMgr.add_one. rewrite multiplicity_disj_union.
  destruct (decide (j = i)) as [-> |Hne]; [rewrite multiplicity_singleton_eq; lia|].
  rewrite multiplicity_singleton_ne by congruence. lia.
Qed.

Lemma mult_other ex p i h : th_mgr h <> puid p ->
  multiplicity h ({[+ mkTxn (puid p) i +]} ⊎ ex) = multiplicity h ex.
Proof.
  intros Hne. rewrite multiplicity_disj_union, multiplicity_singleton_ne; [done|]. intros ->. done.
Qed.

Lemma held_bound ex d t p i : Z.of_nat (size ex) < 2 ^ 63 -> Z.of_nat (held ex d t p i) < 2 ^ 64.
Proof.
  intros Hsz. unfold held. pose proof (multiplicity_le_size ex (mkTxn (puid p) i)) as Hle.
  destruct (awaits p !! _) as [[l x]|]; [destruct (live t l)|]; destruct d as [[[? ?] ?]|];
    try destruct (decide _); lia.
Qed.

(** Opening a transaction: a handle on a transaction that nothing refers to. *)
Lemma Inv_open ex d n t e p i m :
  Inv ex d n t -> u32 e -> get t e = Some p -> TxnMgr.try_open_raw (txn_mgr p) = Some (i, m) ->
  held ex d t p i = O /\ Inv ({[+ mkTxn (puid p) i +]} ⊎ ex) d n (update t e (set_txn_mgr m)).
Proof.
  intros Hi He Hp Ho. destruct (TxnMgr.try_open_ok _ _ _ _ (i_refs _ _ _ _ Hi e p He Hp) Ho) as (_ & Hz & Hm).
  split; [done|]. eapply Inv_mgr; [done|done|done| |intros h Hh; by apply mult_other].
  eapply TxnMgr.refcounts_ext; [|exact Hm]. intros j. symmetry. apply held_add.
Qed.

Lemma Inv_get ex d n t e p i m :
  Inv ex d n t -> u32 e -> get t e = Some p -> Z.of_nat (size ex) < 2 ^ 63 ->
  TxnMgr.get (txn_mgr p) i = Some m ->
  Inv ({[+ mkTxn (puid p) i +]} ⊎ ex) d n (update t e (set_txn_mgr m)).
Proof.
  intros Hi He Hp Hsz Hg. assert (Z.of_nat (held ex d t p i) < 2 ^ 64) as Hb
    by (by apply held_bound).
  destruct (TxnMgr.get_ok _ _ _ _ (i_refs _ _ _ _ Hi e p He Hp) Hb Hg) as (_ & _ & Hm).
  eapply Inv_mgr; [done|done|done| |intros h Hh; by apply mult_other].
  eapply TxnMgr.refcounts_ext; [|exact Hm]. intros j. symmetry. apply held_add.
Qed.

Lemma Inv_clone ex d n t e p i :
  Inv ex d n t -> u32 e -> get t e = Some p -> Z.of_nat (size ex) < 2 ^ 63 -> mkTxn (puid p) i ∈ ex ->
  exists t', clone_handle t (mkTxn (puid p) i) = Ret (mkTxn (puid p) i, t') /\
    Inv ({[+ mkTxn (puid p) i +]} ⊎ ex) d n t' /\ (exists m, t' = update t e (set_txn_mgr m)).
Proof.
  intros Hi He Hp Hsz Hin. unfold clone_handle. rewrite (upgrade_live _ _ _ _ _ _ _ Hi He Hp) by done.
  cbn [th_id]. assert (0 < held ex d t p i)%nat as Hpos.
  { unfold held. rewrite elem_of_multiplicity in Hin. lia. }
  assert (Z.of_nat (held ex d t p i) < 2 ^ 64) as Hb
    by (by apply held_bound).
  destruct (TxnMgr.ref_ok _ _ _ (i_refs _ _ _ _ Hi e p He Hp) Hpos Hb) as (m & -> & _ & Hm).
  rewrite bind_Ret. eexists. split; [done|]. split; [|by eexists].
  eapply Inv_mgr; [done|done|done| |intros h Hh; by apply mult_other].
  eapply TxnMgr.refcounts_ext; [|exact Hm]. intros j. symmetry. apply held_add.
Qed.

(** Dropping a handle that is held elsewhere; its peer may be gone. *)
Lemma Inv_drop ex d n t h :
  Inv ({[+ h +]} ⊎ ex) d n t ->
  exists t', drop_handle t h = Ret t' /\ Inv ex d n t' /\
    (t' = t \/ exists e m, u32 e /\ t' = update t e (set_txn_mgr m)).
Proof.
  intros Hi. unfold drop_handle. destruct (upgrade t h) as [[e p]|] eqn:E.
  - apply find_some in E as (He & Hp & Hu); [|by apply Hi]. apply Z.eqb_eq in Hu. destruct h as [g i]. cbn [th_mgr th_id] in *.
    subst g. fold (puid p) in *. assert (0 < held ({[+ mkTxn (puid p) i +]} ⊎ ex) d t p i)%nat as Hpos
      by (rewrite held_add; unfold TxnMgr.add_one; rewrite decide_True by done; lia).
    destruct (TxnMgr.deref_ok _ _ _ (i_refs _ _ _ _ Hi e p He Hp) Hpos) as (m & b & -> & _ & Hm & _).
    rewrite bind_Ret. eexists. split; [done|]. split; [|right; by eauto].
    eapply Inv_mgr; [exact Hi|done|done| |].
    + eapply TxnMgr.refcounts_ext; [|exact Hm]. intros j. unfold TxnMgr.sub_one. rewrite held_add.
      unfold TxnMgr.add_one. destruct (decide (j = i)); lia.
    + intros h Hh. symmetry. by apply mult_other.
  - eexists. split; [done|]. split; [|by left]. destruct Hi as [Hok Hu Huq Hb Hr Hd Hc]. split; try done.
    intros e p He Hp. eapply TxnMgr.refcounts_ext; [|by eapply Hc]. intros i. unfold held.
    rewrite multiplicity_disj_union, multiplicity_singleton_ne; [done|]. intros <-.
    eapply find_none in E; [|done|done|done]. cbn in E. unfold puid in E. by rewrite Z.eqb_refl in E.
Qed.

(** ** Requests and back links *)

(** The state of a request changes; the back links change. *)
Definition set_request (x : Z) (b : option BindRequestState) : PeerState slab -> PeerState slab :=
  on_node (fun n => mkNode (partial_alter (fun _ => b) x (bind_request_state n))
                           (awaiting_next_hop_bind_table n)).
Definition set_back (h : TxnHandle) (o : option (Z * Z)) : PeerState slab -> PeerState slab :=
  on_node (fun n => mkNode (bind_request_state n)
                           (partial_alter (fun _ => o) h (awaiting_next_hop_bind_table n))).

Definition waiting (b : option BindRequestState) : bool :=
  match b with Some (AwaitingNextHopBind _ _ _) => true | _ => false end.

Lemma get_request t l x b j q :
  u32 l -> u32 j -> get (update t l (set_request x b)) j = Some q ->
  exists q0, get t j = Some q0 /\ puid q = puid q0 /\ txn_mgr q = txn_mgr q0 /\ awaits q = awaits q0 /\
    forall y, binds q !! y = if decide (j = l /\ y = x) then b else binds q0 !! y.
Proof.
  intros Hl Hj. rewrite get_update by done. destruct (decide (j = l)) as [-> |Hne].
  - destruct (get t l) as [p|] eqn:E; [|done]. intros [= <-]. exists p. split_and!; [done..|]. intros y.
    unfold binds, set_request, on_node. cbn. destruct (decide (y = x)) as [-> |Hy].
    + by rewrite lookup_partial_alter_eq, decide_True by done.
    + rewrite lookup_partial_alter_ne, decide_False by (done || tauto). done.
  - intros Hq. exists q. split_and!; [done..|]. intros y. by rewrite decide_False by tauto.
Qed.

Lemma bind_at_request t l x b j y :
  u32 l -> u32 j ->
  bind_at (update t l (set_request x b)) j y =
  if decide (j = l /\ y = x) then (if live t l then b else None) else bind_at t j y.
Proof.
  intros Hl Hj. rewrite bind_at_update by done. unfold bind_at, live.
  destruct (decide (j = l)) as [-> |Hne]; [|by rewrite decide_False by tauto].
  destruct (get t l) as [p|] eqn:E; cbn; [|by destruct (decide _)].
  destruct (decide (y = x)) as [-> |Hy].
  - by rewrite lookup_partial_alter_eq, decide_True by done.
  - rewrite lookup_partial_alter_ne, decide_False by (done || tauto). done.
Qed.

Lemma get_back t l h o j q :
  u32 l -> u32 j -> get (update t l (set_back h o)) j = Some q ->
  exists q0, get t j = Some q0 /\ puid q = puid q0 /\ txn_mgr q = txn_mgr q0 /\ binds q = binds q0 /\
    forall g, awaits q !! g = if decide (j = l /\ g = h) then o else awaits q0 !! g.
Proof.
  intros Hl Hj. rewrite get_update by done. destruct (decide (j = l)) as [-> |Hne].
  - destruct (get t l) as [p|] eqn:E; [|done]. intros [= <-]. exists p. split_and!; [done..|]. intros y.
    unfold awaits, set_back, on_node. cbn. destruct (decide (y = h)) as [-> |Hy].
    + by rewrite lookup_partial_alter_eq, decide_True by done.
    + rewrite lookup_partial_alter_ne, decide_False by (done || tauto). done.
  - intros Hq. exists q. split_and!; [done..|]. intros y. by rewrite decide_False by tauto.
Qed.

Lemma bind_at_back t l h o j y : u32 l -> u32 j -> bind_at (update t l (set_back h o)) j y = bind_at t j y.
Proof.
  intros Hl Hj. rewrite bind_at_update by done. destruct (decide (j = l)) as [-> |]; [|done].
  unfold bind_at. by destruct (get t l).
Qed.

Lemma bind_at_get t l p x b : get t l = Some p -> bind_at t l x = b <-> binds p !! x = b.
Proof. intros Hp. unfold bind_at. by rewrite Hp. Qed.

(** No back link refers to a request that does not wait for the next hop. *)
Lemma not_referenced ex d n t l x e p h :
  Inv ex d n t -> waiting (bind_at t l x) = false -> live t l = true -> u32 e -> get t e = Some p ->
  awaits p !! h <> Some (l, x).
Proof.
  intros Hi Hw Hlv He Hp Ha. destruct (i_back _ _ _ _ Hi e p h l x He Hp Ha) as (_ & _ & Hb).
  destruct (Hb Hlv) as [v E]. by rewrite E in Hw.
Qed.

(** A request whose state does not wait for the next hop, before and after. *)
Lemma Inv_request_idle ex n t l x b :
  u32 l -> waiting (bind_at t l x) = false -> waiting b = false ->
  Inv ex None n t -> Inv ex None n (update t l (set_request x b)).
Proof.
  intros Hl Hw Hb Hi. destruct (live t l) eqn:Hlv.
  2: { unfold update. unfold live in Hlv. by destruct (get t l). }
  pose proof Hi as [Hok Hu Huq Hbk Hr Hd Hc]. split; [by apply update_ok|..].
  - intros j q Hj (q0 & Hq & -> & _)%get_request; [|done..]. by eapply Hu.
  - intros i j q q' Hi' Hj (q0 & Hq & -> & _)%get_request (q1 & Hq1 & -> & _)%get_request; [|done..]. by apply Huq.
  - intros e q h l' x' He (q0 & Hq & -> & _ & -> & _)%get_request Ha; [|done..].
    destruct (Hbk e q0 h l' x' He Hq Ha) as (Hl' & Hm & Hx). split_and!; [done|done|].
    rewrite live_update, bind_at_request, decide_False by (done || intros [-> ->]; by eapply (not_referenced _ _ _ t l x e q0 h)).
    done.
  - intros j q y v e h Hj (q0 & Hq & _ & _ & _ & Eb)%get_request Hy; [|done..]. rewrite Eb in Hy.
    destruct (decide _) as [[-> ->]|]; [by subst b|].
    destruct (Hr j q0 y v e h Hj Hq Hy) as (He & Hm & Hx). split_and!; [done|done|].
    intros Hne k q1 Hk (q2 & Hq2 & -> & _ & -> & _)%get_request; [|done..]. by apply Hx.
  - done.
  - intros e q He (q0 & Hq & Eu & Et & Ea & _)%get_request; [|done..]. rewrite Et.
    eapply TxnMgr.refcounts_ext; [|by eapply Hc]. intros i. unfold held. rewrite Ea, Eu.
    destruct (awaits q0 !! _) as [[l' x']|] eqn:E; [|done].
    destruct (Hbk e q0 _ l' x' He Hq E) as (Hl' & _). by rewrite live_update.
Qed.

(** A request begins to wait, with a handle of its own; its back link is missing. *)
Lemma Inv_request_wait ex n t l x v e p h :
  u32 l -> live t l = true -> waiting (bind_at t l x) = false -> u32 e -> get t e = Some p ->
  th_mgr h = puid p -> awaits p !! h = None ->
  Inv ({[+ h +]} ⊎ ex) None n t ->
  Inv ex (Some (l, x, h)) n (update t l (set_request x (Some (AwaitingNextHopBind v e h)))).
Proof.
  intros Hl Hlv Hw He Hp Hm Hna Hi. pose proof Hi as [Hok Hu Huq Hbk Hr Hd Hc]. split; [by apply update_ok|..].
  - intros j q Hj (q0 & Hq & -> & _)%get_request; [|done..]. by eapply Hu.
  - intros i j q q' Hi' Hj (q0 & Hq & -> & _)%get_request (q1 & Hq1 & -> & _)%get_request; [|done..]. by apply Huq.
  - intros e0 q h0 l' x' He0 (q0 & Hq & -> & _ & -> & _)%get_request Ha; [|done..].
    destruct (Hbk e0 q0 h0 l' x' He0 Hq Ha) as (Hl' & Hm0 & Hx). split_and!; [done|done|].
    rewrite live_update, bind_at_request, decide_False by (done || intros [-> ->]; by eapply (not_referenced _ _ _ t l x e0 q0 h0)).
    done.
  - intros j q y v0 e0 h0 Hj (q0 & Hq & _ & _ & _ & Eb)%get_request Hy; [|done..]. rewrite Eb in Hy.
    destruct (decide _) as [[-> ->]|Hnd].
    + simplify_eq. split_and!; [done| |done]. rewrite Hm. by apply (Hu e0 p).
    + destruct (Hr j q0 y v0 e0 h0 Hj Hq Hy) as (He0 & Hm0 & Hx). split_and!; [done|done|].
      intros _ k q1 Hk (q2 & Hq2 & -> & _ & -> & _)%get_request; [|done..]. by apply Hx.
  - intros l0 x0 h0 [= <- <- <-]. split_and!; [done| |].
    + rewrite bind_at_request, decide_True, Hlv by done. by eauto.
    + intros j q Hj (q0 & Hq & Eu & _ & -> & _)%get_request; [|done..].
      destruct (awaits q0 !! h) as [[l' x']|] eqn:E; [|done].
      destruct (Hbk j q0 h l' x' Hj Hq E) as (_ & E2 & _).
      assert (j = e) as -> by (eapply Huq; eauto; congruence). congruence.
  - intros e0 q He0 (q0 & Hq & Eu & Et & Ea & _)%get_request; [|done..]. rewrite Et.
    eapply TxnMgr.refcounts_ext; [|by eapply Hc]. intros i. unfold held. rewrite Ea, Eu.
    rewrite multiplicity_disj_union.
    assert (multiplicity (mkTxn (puid q0) i) {[+ h +]} = if decide (h = mkTxn (puid q0) i) then 1 else 0)%nat as ->.
    { destruct (decide _) as [-> |]; [apply multiplicity_singleton_eq|by apply multiplicity_singleton_ne]. }
    destruct (awaits q0 !! _) as [[l' x']|] eqn:E; [|lia].
    destruct (Hbk e0 q0 _ l' x' He0 Hq E) as (Hl' & _). rewrite live_update by done. lia.
Qed.

(** The back link of a waiting request is set. *)
Lemma Inv_back_set ex n t l x v e p h :
  u32 e -> get t e = Some p -> th_mgr h = puid p -> bind_at t l x = Some (AwaitingNextHopBind v e h) ->
  Inv ({[+ h +]} ⊎ ex) (Some (l, x, h)) n t -> Inv ex None n (update t e (set_back h (Some (l, x)))).
Proof.
  intros He Hp Hm Hba Hi. pose proof Hi as [Hok Hu Huq Hbk Hr Hd Hc].
  destruct (Hd l x h eq_refl) as (Hl & _ & Hno).
  assert (live t l = true) as Hlv by (unfold bind_at in Hba; unfold live; by destruct (get t l)).
  split; [by apply update_ok|..].
  - intros j q Hj (q0 & Hq & -> & _)%get_back; [|done..]. by eapply Hu.
  - intros i j q q' Hi' Hj (q0 & Hq & -> & _)%get_back (q1 & Hq1 & -> & _)%get_back; [|done..]. by apply Huq.
  - intros e0 q h0 l' x' He0 (q0 & Hq & Eu & _ & _ & Ea)%get_back Ha; [|done..]. rewrite Ea in Ha.
    destruct (decide _) as [[-> ->]|Hnd].
    + simplify_eq. split_and!; [done|congruence|]. intros _. rewrite bind_at_back by done. by eauto.
    + destruct (Hbk e0 q0 h0 l' x' He0 Hq Ha) as (Hl' & Hm0 & Hx). split_and!; [done|congruence|].
      by rewrite live_update, bind_at_back.
  - intros j q y v0 e0 h0 Hj (q0 & Hq & _ & _ & Eb & _)%get_back Hy; [|done..]. rewrite Eb in Hy.
    destruct (Hr j q0 y v0 e0 h0 Hj Hq Hy) as (He0 & Hm0 & Hx). split_and!; [done|done|].
    intros _ k q1 Hk (q2 & Hq2 & -> & _ & _ & Ea)%get_back Hu2; [|done..]. rewrite Ea.
    destruct (decide ((j, y) = (l, x))) as [[= -> ->]|Hne].
    + rewrite (bind_at_get t l q0) in Hba by done. rewrite Hba in Hy. simplify_eq.
      assert (k = e0) as -> by (eapply Huq; eauto; congruence). by rewrite decide_True.
    + destruct (Hx ltac:(congruence) k q2 Hk Hq2 Hu2) as [-> Hx2]. split; [done|].
      rewrite decide_False; [done|]. intros [-> ->]. rewrite (Hno e q2) in Hx2; done.
  - done.
  - intros e0 q He0 (q0 & Hq & Eu & Et & _ & Ea)%get_back; [|done..]. rewrite Et.
    eapply TxnMgr.refcounts_ext; [|by eapply Hc]. intros i. unfold held. rewrite Ea, Eu.
    rewrite multiplicity_disj_union. destruct (decide (h = mkTxn (puid q0) i)) as [Eh|Hneh].
    + assert (e0 = e) as -> by (eapply Huq; eauto; rewrite <- Hm, Eh; done).
      rewrite <- Eh, multiplicity_singleton_eq, (Hno e q0), decide_True by done.
      rewrite live_update, Hlv by done. lia.
    + rewrite multiplicity_singleton_ne, decide_False by (done || intros [_ ?]; congruence).
      destruct (awaits q0 !! _) as [[l' x']|] eqn:E; [|lia].
      destruct (Hbk e0 q0 _ l' x' He0 Hq E) as (Hl' & _). rewrite live_update by done. lia.
Qed.

(** A back link is removed: its handle is free, its request waits without it. *)
Lemma Inv_back_del ex n t e p h l x :
  u32 e -> get t e = Some p -> awaits p !! h = Some (l, x) -> Inv ex None n t ->
  Inv ({[+ h +]} ⊎ ex) (if live t l then Some (l, x, h) else None) n (update t e (set_back h None)).
Proof.
  intros He Hp Ha Hi. pose proof Hi as [Hok Hu Huq Hbk Hr Hd Hc].
  destruct (Hbk e p h l x He Hp Ha) as (Hl & Hm & Hbind).
  split; [by apply update_ok|..].
  - intros j q Hj (q0 & Hq & -> & _)%get_back; [|done..]. by eapply Hu.
  - intros i j q q' Hi' Hj (q0 & Hq & -> & _)%get_back (q1 & Hq1 & -> & _)%get_back; [|done..]. by apply Huq.
  - intros e0 q h0 l' x' He0 (q0 & Hq & Eu & _ & _ & Ea)%get_back Ha0; [|done..]. rewrite Ea in Ha0.
    destruct (decide _) as [|Hnd]; [done|].
    destruct (Hbk e0 q0 h0 l' x' He0 Hq Ha0) as (Hl' & Hm0 & Hx). split_and!; [done|congruence|].
    by rewrite live_update, bind_at_back.
  - intros j q y v0 e0 h0 Hj (q0 & Hq & _ & _ & Eb & _)%get_back Hy; [|done..]. rewrite Eb in Hy.
    destruct (Hr j q0 y v0 e0 h0 Hj Hq Hy) as (He0 & Hm0 & Hx). split_and!; [done|done|].
    intros Hne k q1 Hk (q2 & Hq2 & -> & _ & _ & Ea)%get_back Hu2; [|done..]. rewrite Ea.
    destruct (Hx ltac:(done) k q2 Hk Hq2 Hu2) as [-> Hx2]. split; [done|].
    rewrite decide_False; [done|]. intros [-> ->]. assert (q2 = p) as -> by congruence.
    rewrite Ha in Hx2. simplify_eq. apply Hne. unfold live. by rewrite Hq.
  - intros l0 x0 h0 Hdd. destruct (live t l) eqn:Hlv; [|done]. simplify_eq. split_and!; [done| |].
    + rewrite bind_at_back by done. destruct (Hbind eq_refl) as [v E]. by eauto.
    + intros j q Hj (q0 & Hq & _ & _ & _ & Ea)%get_back; [|done..]. rewrite Ea.
      destruct (decide _) as [|Hnd]; [done|]. destruct (awaits q0 !! h0) as [[l' x']|] eqn:E; [|done].
      destruct (Hbk j q0 h0 l' x' Hj Hq E) as (_ & E2 & _). exfalso. apply Hnd. split; [|done].
      eapply Huq; eauto. congruence.
  - intros e0 q He0 (q0 & Hq & Eu & Et & _ & Ea)%get_back; [|done..]. rewrite Et.
    eapply TxnMgr.refcounts_ext; [|by eapply Hc]. intros i. unfold held. rewrite Ea, Eu.
    rewrite multiplicity_disj_union. destruct (decide (h = mkTxn (puid q0) i)) as [Eh|Hneh].
    + assert (e0 = e) as -> by (eapply Huq; eauto; rewrite <- Hm, Eh; done).
      assert (q0 = p) as -> by congruence. rewrite <- Eh, multiplicity_singleton_eq, Ha, decide_True by done.
      destruct (live t l); [rewrite decide_True by done|]; lia.
    + rewrite multiplicity_singleton_ne, decide_False by (done || intros [_ ?]; congruence).
      assert (match (if live t l then Some (l, x, h) else None) with
              | Some (_, _, h') => if decide (h' = mkTxn (puid q0) i) then 1 else 0 | None => 0 end = 0)%nat as ->.
      { destruct (live t l); [by rewrite decide_False|done]. }
      destruct (awaits q0 !! _) as [[l' x']|] eqn:E; [|lia].
      destruct (Hbk e0 q0 _ l' x' He0 Hq E) as (Hl' & _). rewrite live_update by done. lia.
Qed.

(** A waiting request without its back link is removed: its handle is free. *)
Lemma Inv_request_del ex n t l x h :
  Inv ex (Some (l, x, h)) n t -> Inv ({[+ h +]} ⊎ ex) None n (update t l (set_request x None)).
Proof.
  intros Hi. pose proof Hi as [Hok Hu Huq Hbk Hr Hd Hc].
  destruct (Hd l x h eq_refl) as (Hl & (v & e & Hba) & Hno).
  assert (forall e0 q0 h0, u32 e0 -> get t e0 = Some q0 -> awaits q0 !! h0 <> Some (l, x)) as Hnr.
  { intros e0 q0 h0 He0 Hq Ha. destruct (Hbk e0 q0 h0 l x He0 Hq Ha) as (_ & _ & Hx).
    unfold bind_at in Hba. destruct (get t l) as [pl|] eqn:E; [|done].
    destruct Hx as [v' Hx]; [unfold live; by rewrite E|]. unfold bind_at in Hx. rewrite E in Hx.
    cbn in Hx, Hba. rewrite Hx in Hba. simplify_eq. by rewrite (Hno _ _ He0 Hq) in Ha. }
  split; [by apply update_ok|..].
  - intros j q Hj (q0 & Hq & -> & _)%get_request; [|done..]. by eapply Hu.
  - intros i j q q' Hi' Hj (q0 & Hq & -> & _)%get_request (q1 & Hq1 & -> & _)%get_request; [|done..]. by apply Huq.
  - intros e0 q h0 l' x' He0 (q0 & Hq & -> & _ & -> & _)%get_request Ha; [|done..].
    destruct (Hbk e0 q0 h0 l' x' He0 Hq Ha) as (Hl' & Hm0 & Hx). split_and!; [done|done|].
    rewrite live_update, bind_at_request, decide_False by (done || intros [-> ->]; exact (Hnr e0 q0 h0 He0 Hq Ha)). done.
  - intros j q y v0 e0 h0 Hj (q0 & Hq & _ & _ & _ & Eb)%get_request Hy; [|done..]. rewrite Eb in Hy.
    destruct (decide _) as [|Hnd]; [done|].
    destruct (Hr j q0 y v0 e0 h0 Hj Hq Hy) as (He0 & Hm0 & Hx). split_and!; [done|done|].
    intros _ k q1 Hk (q2 & Hq2 & -> & _ & -> & _)%get_request; [|done..]. apply Hx; [|done..].
    intros [= -> -> _]. by apply Hnd.
  - done.
  - intros e0 q He0 (q0 & Hq & Eu & Et & Ea & _)%get_request; [|done..]. rewrite Et.
    eapply TxnMgr.refcounts_ext; [|by eapply Hc]. intros i. unfold held. rewrite Ea, Eu.
    rewrite multiplicity_disj_union.
    assert (multiplicity (mkTxn (puid q0) i) {[+ h +]} = if decide (h = mkTxn (puid q0) i) then 1 else 0)%nat as ->.
    { destruct (decide _) as [-> |]; [apply multiplicity_singleton_eq|by apply multiplicity_singleton_ne]. }
    destruct (awaits q0 !! _) as [[l' x']|] eqn:E; [|lia].
    destruct (Hbk e0 q0 _ l' x' He0 Hq E) as (Hl' & _). rewrite live_update by done. lia.
Qed.

(** ** Peers come and go *)

(** A peer joins on a link that no back link refers to. *)
Lemma Inv_add ex n t t' l p :
  Inv ex None n t -> table_ok t' -> u32 l -> 0 < n -> get t l = None ->
  (forall j, u32 j -> get t' j = if decide (j = l) then Some p else get t j) ->
  puid p = n -> node_state p = node_new -> txn_mgr p = TxnMgr.new ->
  (forall h, h ∈ ex -> th_mgr h < n) ->
  (forall e q h x, u32 e -> get t e = Some q -> awaits q !! h <> Some (l, x)) ->
  Inv ex None (n + 1) t'.
Proof.
  intros Hi Hok' Hl Hn0 Hnone Hg Hpu Hns Htm Hex Hfr. pose proof Hi as [Hok Hu Huq Hbk Hr Hd Hc].
  assert (forall h, awaits p !! h = None) as Hpa by (intros h; unfold awaits; rewrite Hns; apply lookup_empty).
  assert (forall x, binds p !! x = None) as Hpb by (intros x; unfold binds; rewrite Hns; apply lookup_empty).
  assert (forall e q h l' x', u32 e -> get t e = Some q -> awaits q !! h = Some (l', x') ->
    live t' l' = live t l' /\ forall y, bind_at t' l' y = bind_at t l' y) as Hback.
  { intros e q h l' x' He Hq Ha. destruct (Hbk e q h l' x' He Hq Ha) as (Hl' & _).
    unfold live, bind_at. rewrite Hg by done. rewrite decide_False; [done|]. intros ->. exact (Hfr e q h x' He Hq Ha). }
  split; [done|..].
  - intros j q Hj. rewrite Hg by done. destruct (decide _) as [-> |]; [intros [= <-]; lia|].
    intros Hq. specialize (Hu j q Hj Hq). lia.
  - intros i j q q' Hi' Hj. rewrite !Hg by done. destruct (decide (i = l)) as [-> |], (decide (j = l)) as [-> |].
    + done.
    + intros [= <-] Hq' E. specialize (Hu j q' Hj Hq'). lia.
    + intros Hq [= <-] E. specialize (Hu i q Hi' Hq). lia.
    + by apply Huq.
  - intros e q h l' x' He. rewrite Hg by done. destruct (decide _) as [-> |].
    + intros [= <-]. by rewrite Hpa.
    + intros Hq Ha. destruct (Hbk e q h l' x' He Hq Ha) as (Hl' & Hm & Hx).
      destruct (Hback e q h l' x' He Hq Ha) as [-> Hb]. split_and!; [done|done|]. by setoid_rewrite Hb.
  - intros j q y v e h Hj. rewrite Hg by done. destruct (decide _) as [-> |].
    + intros [= <-]. by rewrite Hpb.
    + intros Hq Hy. destruct (Hr j q y v e h Hj Hq Hy) as (He & Hm & Hx). split_and!; [done|lia|].
      intros _ k q' Hk. rewrite Hg by done. destruct (decide _) as [-> |]; [intros [= <-]; lia|]. by apply Hx.
  - done.
  - intros e q He. rewrite Hg by done. destruct (decide _) as [-> |].
    + intros [= <-]. rewrite Htm. split; [cbn; lia|]. intros i. unfold held. rewrite Hpa.
      assert (multiplicity (mkTxn (puid p) i) ex = 0%nat) as ->.
      { apply not_elem_of_multiplicity. intros Hin. apply Hex in Hin. cbn in Hin. lia. }
      apply lookup_empty.
    + intros Hq. eapply TxnMgr.refcounts_ext; [|by eapply Hc]. intros i. unfold held.
      destruct (awaits q !! _) as [[l' x']|] eqn:E; [|done]. by destruct (Hback e q _ l' x' He Hq E) as [-> _].
Qed.

(** The handles of a peer's requests, as a multiset. *)
Definition request_handles p : list TxnHandle := omap state_handle (snd <$> map_to_list (binds p)).

Lemma elem_of_request_handles (m : gmap Z BindRequestState) h :
  h ∈ (list_to_set_disj (omap state_handle (snd <$> map_to_list m)) : gmultiset TxnHandle) <->
  exists x v e, m !! x = Some (AwaitingNextHopBind v e h).
Proof.
  rewrite elem_of_list_to_set_disj, list_elem_of_omap. split.
  - intros (b & ([x b'] & -> & Hin)%list_elem_of_fmap & Hb). apply elem_of_map_to_list in Hin. cbn in Hb.
    destruct b' as [| |v e h']; cbn in Hb; simplify_eq. by eauto.
  - intros (x & v & e & Hx). exists (AwaitingNextHopBind v e h). split; [|done]. apply list_elem_of_fmap.
    exists (x, AwaitingNextHopBind v e h). split; [done|]. by apply elem_of_map_to_list.
Qed.

Lemma mult_request_handles (m : gmap Z BindRequestState) h x v e :
  m !! x = Some (AwaitingNextHopBind v e h) ->
  (forall y w f, m !! y = Some (AwaitingNextHopBind w f h) -> y = x) ->
  multiplicity h (list_to_set_disj (omap state_handle (snd <$> map_to_list m))) = 1%nat.
Proof.
  intros Hx Huq. rewrite <- (insert_delete_id m x _ Hx).
  assert (list_to_set_disj (omap state_handle (snd <$> map_to_list (<[x:=AwaitingNextHopBind v e h]> (delete x m))))
    = ({[+ h +]} ⊎ list_to_set_disj (omap state_handle (snd <$> map_to_list (delete x m))) : gmultiset TxnHandle)) as ->.
  { rewrite (map_to_list_insert (delete x m) x) by apply lookup_delete_eq. done. }
  rewrite multiplicity_disj_union, multiplicity_singleton_eq.
  enough (multiplicity h (list_to_set_disj (omap state_handle (snd <$> map_to_list (delete x m)))) = 0)%nat by lia.
  apply not_elem_of_multiplicity. rewrite elem_of_request_handles. intros (y & w & f & [Hne Hy]%lookup_delete_Some).
  apply Hne. symmetry. by eapply Huq.
Qed.

(** The table without one peer, whose handles are now held elsewhere. *)
Lemma Inv_removed ex n t t0 l p :
  Inv ex None n t -> table_ok t0 -> u32 l -> get t l = Some p ->
  (forall j, u32 j -> get t0 j = if decide (j = l) then None else get t j) ->
  Inv (list_to_set_disj (request_handles p) ⊎ ex) None n t0.
Proof.
  intros Hi Hok0 Hl Hp Hg. pose proof Hi as [Hok Hu Huq Hbk Hr Hd Hc].
  assert (forall j q, u32 j -> get t0 j = Some q -> j <> l /\ get t j = Some q) as Hback.
  { intros j q Hj. rewrite Hg by done. by destruct (decide _). }
  split; [done|..].
  - intros j q Hj [_ Hq]%Hback; [|done]. by eapply Hu.
  - intros i j q q' Hi' Hj [_ Hq]%Hback [_ Hq']%Hback; [|done..]. by apply Huq.
  - intros e q h l' x' He [_ Hq]%Hback Ha; [|done]. destruct (Hbk e q h l' x' He Hq Ha) as (Hl' & Hm & Hx).
    split_and!; [done|done|]. unfold live, bind_at. rewrite Hg by done. destruct (decide _); [done|]. exact Hx.
  - intros j q y v e h Hj [Hne Hq]%Hback Hy; [|done]. destruct (Hr j q y v e h Hj Hq Hy) as (He & Hm & Hx).
    split_and!; [done|done|]. intros _ k q' Hk [_ Hq']%Hback; [|done]. by apply Hx.
  - done.
  - intros e q He [Hne Hq]%Hback; [|done]. eapply TxnMgr.refcounts_ext; [|by eapply Hc]. intros i.
    unfold held. rewrite multiplicity_disj_union. set (h := mkTxn (puid q) i).
    assert (forall x v e0, binds p !! x = Some (AwaitingNextHopBind v e0 h) -> awaits q !! h = Some (l, x)) as Hreq.
    { intros x v e0 Hx. destruct (Hr l p x v e0 h Hl Hp Hx) as (_ & _ & Hw).
      by destruct (Hw ltac:(done) e q He Hq eq_refl) as [_ ?]. }
    destruct (awaits q !! h) as [[l' x']|] eqn:E.
    + destruct (Hbk e q h l' x' He Hq E) as (Hl' & _ & Hx). unfold live at 2. rewrite Hg by done.
      destruct (decide (l' = l)) as [-> |Hnl].
      * unfold live in *. rewrite Hp in *. destruct Hx as [v Hx]; [done|].
        unfold bind_at in Hx. rewrite Hp in Hx. cbn in Hx.
        unfold request_handles. rewrite (mult_request_handles _ h x' v e Hx); [lia|].
        intros y w f Hy. specialize (Hreq y w f Hy). congruence.
      * fold (live t l'). assert (multiplicity h (list_to_set_disj (request_handles p)) = 0)%nat as ->; [|lia].
        apply not_elem_of_multiplicity. unfold request_handles. rewrite elem_of_request_handles.
        intros (y & w & f & Hy). specialize (Hreq y w f Hy). congruence.
    + assert (multiplicity h (list_to_set_disj (request_handles p)) = 0)%nat as ->; [|lia].
      apply not_elem_of_multiplicity. unfold request_handles. rewrite elem_of_request_handles.
      intros (y & w & f & Hy). specialize (Hreq y w f Hy). congruence.
Qed.

Lemma Inv_drops ex d n t hs :
  Inv (list_to_set_disj hs ⊎ ex) d n t ->
  exists t', drop_handles t hs = Ret t' /\ Inv ex d n t' /\
    forall j, u32 j -> live t' j = live t j /\ forall x, bind_at t' j x = bind_at t j x.
Proof.
  revert t. induction hs as [|h hs IH]; intros t Hi; cbn [drop_handles].
  - exists t. split; [done|]. split; [|done]. by rewrite gmultiset_disj_union_left_id in Hi.
  - rewrite list_to_set_disj_cons, <- gmultiset_disj_union_assoc in Hi.
    destruct (Inv_drop _ _ _ _ _ Hi) as (t1 & -> & Hi1 & Ht1). rewrite bind_Ret.
    destruct (IH t1 Hi1) as (t' & Hd & Hi' & Hlv). exists t'. split; [done|]. split; [done|].
    intros j Hj. destruct (Hlv j Hj) as [-> Hba]. destruct Ht1 as [-> | (e & m & He & ->)]; [done|].
    rewrite live_update by done. split; [done|]. intros x. rewrite Hba, bind_at_update by done.
    destruct (decide (j = e)) as [-> |]; [|done]. unfold bind_at. by destruct (get t e).
Qed.

(** Removing a peer never finds an inconsistency. *)
Lemma Inv_remove ex n t l :
  Inv ex None n t -> u32 l ->
  exists t', remove t l = Ret t' /\ Inv ex None n t' /\
    forall j, u32 j -> live t' j = (live t j && negb (j =? l))%bool /\
      (j <> l -> forall x, bind_at t' j x = bind_at t j x).
Proof.
  intros Hi Hl. destruct (get t l) as [p|] eqn:Hp.
  - destruct (remove_tables t l p (i_table _ _ _ _ Hi) Hl Hp) as (t0 & Hr & Hok0 & _ & Hg).
    destruct (Inv_drops ex None n t0 (request_handles p)) as (t' & Hd & Hi' & Hlv).
    { by eapply Inv_removed. }
    exists t'. rewrite Hr. split; [done|]. split; [done|]. intros j Hj. destruct (Hlv j Hj) as [-> Hba].
    unfold live. rewrite Hg by done. destruct (decide (j = l)) as [-> |Hne].
    + rewrite Z.eqb_refl. by rewrite andb_false_r.
    + rewrite (proj2 (Z.eqb_neq _ _)) by done. split; [by rewrite andb_true_r|]. intros _ x. rewrite Hba.
      unfold bind_at. by rewrite Hg, decide_False.
  - exists t. unfold remove. rewrite Hp. split; [done|]. split; [done|]. intros j Hj.
    destruct (Z.eqb_spec j l) as [-> |]; [|by rewrite andb_true_r]. unfold live. by rewrite Hp.
Qed.

End inv.
End NodeBindInv.
