(* ===== verification/NodeBindProps.v ===== *)
(** * Binding flows: consistency of the docking state

    The specification of each function of [mgmt/node.rs] against the invariant of
    [NodeBindInv]: it returns, and the docking state is consistent afterwards. *)
From Stdlib Require Import ZArith Lia.
From stdpp Require Import base tactics option list numbers gmap gmultiset.
From S2P Require Import Prelude Slab NetDefs Classifier Tc ForwardingTables TxnMgr Auth LinkTypes PeerTable PeerTableProps VisaTable VisaTableProps AddressPool Assembly NodeBind NodeBindInv.
Import ForwardingTables PeerTable PeerTableProps VisaTable VisaTableProps Asm NodeBind NodeBindInv.

Local Open Scope Z_scope.

Module NodeBindProps.

Section props.
Context `{NetDefs} `{Crypto} `{VisaEnv} `{TunCtl} `{FlowTables} `{Slab slab}.
Context (default_ft : FiveTuple).
(** Handles that other parts of the program hold. *)
Context (ex : gmultiset TxnHandle).
Hypothesis ex_size : Z.of_nat (size ex) < 2 ^ 62.

Notation M := (M slab).
Implicit Types (s : Assembly slab) (t : PeerTable slab) (l x e j : Z) (d : option (Z * Z * TxnHandle)).

(** ** What a step on one request leaves alone *)
Definition same_reqs t t' : Prop :=
  forall j, u32 j -> live t' j = live t j /\ forall x, bind_at t' j x = bind_at t j x.
Definition only l x t t' : Prop :=
  forall j, u32 j -> live t' j = live t j /\ forall y, (j, y) <> (l, x) -> bind_at t' j y = bind_at t j y.

Lemma same_only l x t t' : same_reqs t t' -> only l x t t'.
Proof. intros Hs j Hj. destruct (Hs j Hj) as [E1 E2]. split; [done|]. intros y _. apply E2. Qed.
Lemma only_refl l x t : only l x t t.
Proof. by intros j Hj. Qed.
Lemma only_trans l x t1 t2 t3 : only l x t1 t2 -> only l x t2 t3 -> only l x t1 t3.
Proof.
  intros H12 H23 j Hj. destruct (H12 j Hj) as [E1 F1], (H23 j Hj) as [E2 F2].
  split; [congruence|]. intros y Hy. rewrite F2, F1; done.
Qed.
Lemma same_reqs_mgr t e m : u32 e -> same_reqs t (update t e (set_txn_mgr m)).
Proof.
  intros He j Hj. split; [by apply live_update|]. intros y. rewrite bind_at_update by done.
  destruct (decide (j = e)) as [-> |]; [|done]. unfold bind_at. by destruct (get t e).
Qed.
Lemma only_request t l x b : u32 l -> only l x t (update t l (set_request x b)).
Proof.
  intros Hl j Hj. split; [by apply live_update|]. intros y Hy. rewrite bind_at_request by done.
  rewrite decide_False; [done|]. intros [-> ->]. done.
Qed.
Lemma same_reqs_back t e h o : u32 e -> same_reqs t (update t e (set_back h o)).
Proof. intros He j Hj. split; [by apply live_update|]. intros y. by apply bind_at_back. Qed.
Lemma same_reqs_dock t t' : same_dock t t' -> same_reqs t t'.
Proof. intros Hs j Hj. split; [by apply same_dock_live|]. intros y. by apply same_dock_bind. Qed.

(** What binding a flow does not change of a peer before the end: its link and routes. *)
Definition link_pft t j : option (LinkTypes.LinkStateWrapper * PeerForwardingTable slab) :=
  p ← get t j; Some (link_state_machine p, pft p).
Definition same_rest t t' : Prop := forall j, u32 j -> link_pft t' j = link_pft t j.

Lemma same_rest_update t l f :
  u32 l -> (forall p, link_state_machine (f p) = link_state_machine p /\ pft (f p) = pft p) ->
  same_rest t (update t l f).
Proof.
  intros Hl Hf j Hj. unfold link_pft. rewrite get_update by done. destruct (decide (j = l)) as [-> |]; [|done].
  destruct (get t l) as [p|]; [|done]. cbn. by destruct (Hf p) as [-> ->].
Qed.

Lemma same_rest_trans t1 t2 t3 : same_rest t1 t2 -> same_rest t2 t3 -> same_rest t1 t3.
Proof. intros H12 H23 j Hj. by rewrite H23, H12. Qed.

(** Visas whose classifier is defined, with routes of the identifiers' width. *)
Definition visas_ok (vt : VisaTable.VisaTable) : Prop :=
  streams_u32 vt /\ forall i v, table vt !! i = Some v -> exists tc, get_tc v = Ret tc.

(** Between two functions on request [x] of link [l]; [d]: its back link is already
    taken out. *)
Record mid d s0 l x s : Prop := {
  mid_inv : Inv ex d (next_uid s0) (peer_table s);
  mid_uid : next_uid s = next_uid s0;
  mid_visas : visas_ok (visa_table s);
  mid_only : only l x (peer_table s0) (peer_table s)
}.

(** The request is not waiting for the next hop, or its back link is taken out. *)
Definition at_rest d l x t : Prop :=
  match d with
  | Some (l', x', _) => l' = l /\ x' = x
  | None => waiting (bind_at t l x) = false
  end.

(** ** Handles *)

Lemma size_small h : Z.of_nat (size ({[+ h +]} ⊎ ex)) < 2 ^ 63.
Proof. rewrite gmultiset_size_disj_union, gmultiset_size_singleton. lia. Qed.

Lemma wp_drop_handle h ex' d s (Q : unit -> Assembly slab -> Prop) :
  Inv ({[+ h +]} ⊎ ex') d (next_uid s) (peer_table s) ->
  (forall t', Inv ex' d (next_uid s) t' -> same_reqs (peer_table s) t' -> same_rest (peer_table s) t' ->
     Q tt (set_peers t' s)) ->
  wp (Asm.drop_handle h) s Q.
Proof.
  intros Hi HQ. destruct (Inv_drop ex' d _ _ h Hi) as (t' & Hd & Hi' & Hor).
  apply wp_bind, wp_gets, wp_bind. eapply wp_lift; [exact Hd|]. apply wp_modify.
  destruct Hor as [-> | (e & m & He & ->)]; (apply HQ; [done|..]); try (by intros j Hj).
  - by apply same_reqs_mgr.
  - by apply same_rest_update.
Qed.

Lemma wp_remove_bind_state l x s (Q : option BindRequestState -> Assembly slab -> Prop) :
  Q (bind_at (peer_table s) l x) (set_peers (update (peer_table s) l (set_request x None)) s) ->
  wp (remove_bind_state l x) s Q.
Proof. done. Qed.

(** Taking out the state of a request at rest. *)
Lemma drop_state_idle b s (Q : unit -> Assembly slab -> Prop) :
  waiting b = false -> Q tt s -> wp (drop_state b) s Q.
Proof. destruct b as [[]|]; done. Qed.

Lemma wp_insert_bind_state l x b s (Q : unit -> Assembly slab -> Prop) :
  waiting (bind_at (peer_table s) l x) = false ->
  Q tt (set_peers (update (peer_table s) l (set_request x (Some b))) s) ->
  wp (insert_bind_state l x b) s Q.
Proof.
  intros Hw HQ. apply wp_bind, wp_get_peer, wp_bind, wp_modify. by apply drop_state_idle.
Qed.

Lemma wp_insert_awaiting e h o s (Q : unit -> Assembly slab -> Prop) :
  (forall q, get (peer_table s) e = Some q -> awaits q !! h = None) ->
  Q tt (set_peers (update (peer_table s) e (set_back h (Some o))) s) ->
  wp (insert_awaiting e h o) s Q.
Proof.
  intros Hn HQ. apply wp_bind, wp_get_peer, wp_bind, wp_modify.
  destruct (get (peer_table s) e) as [q|] eqn:E; cbn [mbind option_bind]; [|done].
  specialize (Hn q eq_refl). unfold awaits in Hn. by rewrite Hn.
Qed.

Lemma not_awaiting e h s (Q : unit -> Assembly slab -> Prop) :
  (forall q, get (peer_table s) e = Some q -> awaits q !! h = None) -> Q tt s ->
  wp (assert_not_awaiting e h) s Q.
Proof.
  intros Hn HQ. apply wp_bind, wp_get_peer. destruct (get _ e) as [q|]; [|done].
  eapply wp_lift; [|done]. specialize (Hn q eq_refl). unfold awaits in Hn. by rewrite Hn.
Qed.

Lemma get_request_awaits t l x b e h :
  u32 l -> u32 e -> (forall q, get t e = Some q -> awaits q !! h = None) ->
  forall q, get (update t l (set_request x b)) e = Some q -> awaits q !! h = None.
Proof.
  intros Hl He Hn q Hq. destruct (get_request t l x b e q Hl He Hq) as (q0 & Hq0 & _ & _ & -> & _). auto.
Qed.

Lemma wp_bind_reject d s0 l x r s (Q : unit -> Assembly slab -> Prop) :
  u32 l -> at_rest d l x (peer_table s) -> mid d s0 l x s ->
  (forall s', mid None s0 l x s' -> tasks s' = tasks s ->
     waiting (bind_at (peer_table s') l x) = false -> Q tt s') ->
  wp (bind_reject l x r) s Q.
Proof.
  intros Hl Har [Hi Hu Hv Ho] HQ. apply wp_bind, wp_get_peer.
  assert (live (peer_table s) l = true \/ get (peer_table s) l = None) as Hlv
    by (unfold live; destruct (get _ l); auto).
  destruct (get (peer_table s) l) as [p|] eqn:Ep; cycle 1.
  { destruct d as [[[l' x'] h]|].
    - destruct Har as [-> ->]. destruct (i_dang _ _ _ _ Hi l x h eq_refl) as (_ & (v & e & Hb) & _).
      unfold bind_at in Hb. by rewrite Ep in Hb.
    - by apply HQ. }
  apply wp_bind, wp_remove_bind_state.
  assert (forall s', wp (match peer_type p with
      | TAdapter => send (BindActorAddressErrorResponse l x r)
      | TNode => send (StreamIdErrorResponse l x r)
      | TDock | TUnknown => mret tt end) s' (fun u s'' => u = tt /\ peer_table s'' = peer_table s' /\
        next_uid s'' = next_uid s' /\ visa_table s'' = visa_table s' /\ tasks s'' = tasks s')) as Hsend
    by (intros s'; by destruct (peer_type p)).
  set (t1 := update (peer_table s) l (set_request x None)).
  assert (only l x (peer_table s0) t1) as Ho1 by (eapply only_trans; [done|by apply only_request]).
  assert (waiting (bind_at t1 l x) = false) as Hw1.
  { unfold t1. rewrite bind_at_request, decide_True by done. by destruct (live _ l). }
  destruct d as [[[l' x'] h]|].
  - destruct Har as [-> ->]. destruct (i_dang _ _ _ _ Hi l x h eq_refl) as (_ & (v & e & Hb) & Hno).
    rewrite Hb. apply wp_bind.
    destruct (i_req _ _ _ _ Hi l p x v e h Hl Ep) as (He & _); [by apply (bind_at_get _ _ _ _ _ Ep)|].
    apply not_awaiting.
    { apply get_request_awaits; [done|done|]. intros q Hq. by eapply Hno. }
    apply wp_bind. cbn [drop_state state_handle]. rewrite <- Hu in Hi.
    apply (wp_drop_handle h ex None); [by apply Inv_request_del in Hi|].
    intros t2 Hi2 Hs2 Hrest2. cbn [peer_table set_peers] in Hs2. eapply wp_mono; [apply Hsend|]. intros [] s' (_ & E1 & E2 & E3 & E4).
    cbn [peer_table set_peers next_uid visa_table tasks] in *. rewrite Hu in Hi2. apply HQ.
    + split; rewrite ?E1, ?E2, ?E3; [done|done|done|]. eapply only_trans; [exact Ho1|by apply same_only].
    + done.
    + rewrite E1. by rewrite (proj2 (Hs2 l Hl) x).
  - cbn in Har. apply wp_bind.
    assert (forall Q' : unit -> Assembly slab -> Prop,
      Q' tt (set_peers t1 s) ->
      wp (match bind_at (peer_table s) l x with
          | Some (AwaitingNextHopBind _ e h) => assert_not_awaiting e h
          | _ => mret tt end) (set_peers t1 s) Q') as Hskip
      by (intros Q' HQ'; destruct (bind_at _ l x) as [[]|]; done).
    apply Hskip, wp_bind, drop_state_idle; [done|]. eapply wp_mono; [apply Hsend|].
    intros [] s' (_ & E1 & E2 & E3 & E4). cbn [peer_table set_peers next_uid visa_table tasks] in *. apply HQ.
    + split; rewrite ?E1, ?E2, ?E3; [by apply Inv_request_idle|done|done|done].
    + done.
    + by rewrite E1.
Qed.

(** ** Asking the next hop *)

(** Every live peer's manager has a transaction to give. *)
Definition room t : Prop :=
  forall e p, u32 e -> get t e = Some p -> TxnMgr.try_open_raw (txn_mgr p) <> None.

Lemma get_same_mgr t l m j q :
  u32 l -> u32 j -> get t j = Some q ->
  exists q', get (update t l (set_txn_mgr m)) j = Some q' /\ puid q' = puid q /\ awaits q' = awaits q.
Proof.
  intros Hl Hj Hq. rewrite get_update by done. destruct (decide (j = l)) as [-> |].
  - rewrite Hq. by eexists.
  - by exists q.
Qed.

Lemma held_zero_awaits ex0 d t p i : held ex0 d t p i = O -> awaits p !! mkTxn (puid p) i = None.
Proof.
  unfold held. destruct (awaits p !! _) as [[l y]|]; [|done]. destruct (live t l); lia.
Qed.

(** The handle goes to the request, the original to the back link. *)
Lemma wp_bind_next_hop s0 l x v e p tc s (Q : unit -> Assembly slab -> Prop) :
  u32 l -> u32 e -> get (peer_table s) e = Some p -> TxnMgr.try_open_raw (txn_mgr p) <> None ->
  waiting (bind_at (peer_table s) l x) = false -> mid None s0 l x s ->
  (forall s', mid None s0 l x s' -> tasks s' = tasks s -> Q tt s') ->
  wp (bind_next_hop l x v e tc) s Q.
Proof.
  intros Hl He Ep Hroom Hw [Hi Hu Hv Ho] HQ.
  destruct (TxnMgr.try_open_raw (txn_mgr p)) as [[i m]|] eqn:Eo; [|done].
  destruct (Inv_open _ _ _ _ _ _ _ _ Hi He Ep Eo) as [Hz Hi1].
  set (h := mkTxn (puid p) i) in *. set (t1 := update (peer_table s) e (set_txn_mgr m)) in *.
  pose proof (same_reqs_mgr (peer_table s) e m He) as Hs1. fold t1 in Hs1.
  apply wp_bind, wp_bind, wp_get_peer. rewrite Ep, Eo. apply wp_bind, wp_modify, wp_ret. fold t1.
  apply wp_bind. eapply wp_lift; [reflexivity|]. fold h. apply wp_bind, wp_get_peer. cbn [peer_table set_peers].
  destruct (get t1 l) as [pl|] eqn:El; cycle 1.
  { apply (wp_drop_handle h ex None); cbn [peer_table set_peers next_uid]; [by rewrite Hu|].
    intros t2 Hi2 Hs2 Hrest2. apply HQ; [|done]. split; cbn; [by rewrite <- Hu|done|done|].
    eapply only_trans; [exact Ho|]. eapply only_trans; apply same_only; [exact Hs1|exact Hs2]. }
  destruct (get_same_mgr (peer_table s) e m e p He He Ep) as (p1 & Ep1 & Ep1u & Ep1a). fold t1 in Ep1.
  destruct (Inv_clone ({[+ h +]} ⊎ ex) None (next_uid s0) t1 e p1 i) as (t2 & Hc & Hi2 & (m2 & Et2));
    [exact Hi1|done|done|apply size_small|unfold h; rewrite Ep1u; multiset_solver|].
  rewrite Ep1u in Hc, Hi2. fold h in Hc, Hi2.
  pose proof (same_reqs_mgr t1 e m2 He) as Hs2. rewrite <- Et2 in Hs2.
  destruct (get_same_mgr t1 e m2 e p1 He He Ep1) as (p2 & Ep2 & Ep2u & Ep2a). rewrite <- Et2 in Ep2.
  apply wp_bind, wp_bind, wp_gets, wp_bind. cbn [peer_table set_peers].
  eapply wp_lift; [exact Hc|]. apply wp_bind, wp_modify, wp_ret, wp_bind.
  set (b := AwaitingNextHopBind v e h).
  set (t3 := update t2 l (set_request x (Some b))).
  assert (waiting (bind_at t2 l x) = false) as Hw2
    by (rewrite (proj2 (Hs2 l Hl)), (proj2 (Hs1 l Hl)); done).
  assert (live t2 l = true) as Hlv by (rewrite (proj1 (Hs2 l Hl)); unfold live; by rewrite El).
  assert (Inv ({[+ h +]} ⊎ ex) (Some (l, x, h)) (next_uid s0) t3) as Hi3.
  { apply (Inv_request_wait _ _ _ _ _ _ _ p2); try done; [by rewrite Ep2u, Ep1u|].
    rewrite Ep2a, Ep1a. by eapply held_zero_awaits. }
  apply wp_insert_bind_state; [exact Hw2|]. apply wp_bind.
  assert (exists p3, get t3 e = Some p3 /\ puid p3 = puid p /\ awaits p3 !! h = None) as (p3 & Ep3 & Ep3u & Ep3a).
  { unfold t3. rewrite get_update by done. assert (awaits p !! h = None) by (by eapply held_zero_awaits).
    destruct (decide (e = l)) as [-> |].
    - rewrite Ep2. eexists. split; [done|]. change (puid p2 = puid p /\ awaits p2 !! h = None).
      by rewrite Ep2a, Ep1a, Ep2u, Ep1u.
    - exists p2. split; [done|]. by rewrite Ep2a, Ep1a, Ep2u, Ep1u. }
  assert (bind_at t3 l x = Some b) as Hb3 by (unfold t3; rewrite bind_at_request, decide_True by done; by rewrite Hlv).
  set (t4 := update t3 e (set_back h (Some (l, x)))).
  assert (Inv ex None (next_uid s0) t4) as Hi4 by (by apply (Inv_back_set _ _ _ _ _ v _ p3)).
  assert (only l x (peer_table s0) t4) as Ho4.
  { eapply only_trans; [exact Ho|]. eapply only_trans; [by apply same_only, Hs1|].
    eapply only_trans; [by apply same_only, Hs2|]. eapply only_trans; [by apply only_request|].
    by apply same_only, same_reqs_back. }
  apply wp_insert_awaiting.
  { intros q Hq. change (get t3 e = Some q) in Hq. rewrite Ep3 in Hq. by simplify_eq. }
  destruct tc as [[tc key]|]; apply wp_modify; (apply HQ; [|done]); by split.
Qed.

Lemma find_egress_u32 s addr l : table_ok (peer_table s) -> find_egress_link s addr = Some l -> u32 l.
Proof.
  intros Hok. unfold find_egress_link. destruct (existsb _ _); [intros [= <-]; done|].
  destruct (find _ _) as [[k q]|] eqn:E; [|done]. cbn. intros [= <-]. by apply find_some in E as (? & _ & _).
Qed.

Lemma wp_visa_denied s0 l x s (Q : unit -> Assembly slab -> Prop) :
  u32 l -> waiting (bind_at (peer_table s) l x) = false -> mid None s0 l x s ->
  (forall s', mid None s0 l x s' -> tasks s' = tasks s -> Q tt s') ->
  wp (requested_visa_denied l x) s Q.
Proof. intros Hl Hw Hm HQ. apply (wp_bind_reject None s0); auto. Qed.

Lemma wp_visa_granted s0 l x v s (Q : unit -> Assembly slab -> Prop) :
  u32 l -> waiting (bind_at (peer_table s) l x) = false -> room (peer_table s) -> mid None s0 l x s ->
  (forall s', mid None s0 l x s' -> tasks s' = tasks s -> Q tt s') ->
  wp (requested_visa_granted l x v) s Q.
Proof.
  intros Hl Hw Hr Hm HQ. assert (forall s', wp (requested_visa_denied l x) s Q) as Hden
    by (intros _; by eapply wp_visa_denied).
  specialize (Hden s). destruct Hm as [Hi Hu Hv Ho].
  apply wp_bind, wp_bind, wp_gets, wp_ret.
  destruct (get_visa_next_hop_addr _ v) as [addr|err]; [|done].
  destruct (find_egress_link s addr) as [e|] eqn:Ef; [|done].
  apply find_egress_u32 in Ef as He; [|by eapply i_table].
  apply wp_bind, wp_get_peer. destruct (get (peer_table s) e) as [p|] eqn:Ep; [|done].
  destruct (peer_type p); [| |done|done].
  - eapply wp_bind_next_hop; try done. by eapply Hr.
  - apply wp_bind, wp_gets. destruct (table (visa_table s) !! v) as [w|] eqn:Ew; [|done].
    destruct (proj2 Hv v w Ew) as [tc Htc]. apply wp_bind. eapply wp_lift; [exact Htc|].
    eapply wp_bind_next_hop; try done. by eapply Hr.
Qed.

(** ** Requests for visas *)

Definition idle (b : option BindRequestState) : Prop :=
  match b with Some AwaitingVisaResponse | Some (AwaitingVisaPush _) => True | _ => False end.

Lemma idle_waiting b : idle b -> waiting b = false.
Proof. by destruct b as [[]|]. Qed.

(** The request a task waits for the visa service on behalf of. *)
Definition task_key (k : Task) : option (Z * Z) :=
  match k with
  | VisaRequestTask l x _ | VisaPushRequestTask l x _ => Some (l, x)
  | _ => None
  end.

(** What a function on a request leaves behind: perhaps a task for it. *)
Definition after s0 l x s : Prop :=
  mid None s0 l x s /\
  (tasks s = tasks s0 \/ exists k, tasks s = tasks s0 ++ [k] /\ task_key k = Some (l, x) /\
     idle (bind_at (peer_table s) l x)).

Lemma wp_launch s0 l x k b s (Q : unit -> Assembly slab -> Prop) :
  u32 l -> live (peer_table s) l = true -> waiting (bind_at (peer_table s) l x) = false ->
  mid None s0 l x s -> tasks s = tasks s0 -> task_key k = Some (l, x) -> idle (Some b) ->
  (forall s', after s0 l x s' -> Q tt s') ->
  wp (_ ← spawn k; insert_bind_state l x b) s Q.
Proof.
  intros Hl Hlv Hw [Hi Hu Hv Ho] Et Hk Hb HQ. apply wp_bind, wp_modify.
  apply wp_insert_bind_state; [done|]. apply HQ. split.
  - split; cbn; [by apply Inv_request_idle, Hi; [|done|apply idle_waiting]|done|done|].
    eapply only_trans; [exact Ho|by apply only_request].
  - right. exists k. split_and!; [cbn; by rewrite Et|done|]. cbn.
    by rewrite bind_at_request, decide_True, Hlv.
Qed.

Lemma wp_bind_actor_address s0 l x body s (Q : unit -> Assembly slab -> Prop) :
  u32 l -> waiting (bind_at (peer_table s) l x) = false -> room (peer_table s) ->
  Classifier.classify_with_options (Classifier.mkOptions true false) default_ft body <> Panic ->
  mid None s0 l x s -> tasks s = tasks s0 ->
  (forall s', after s0 l x s' -> Q tt s') ->
  wp (bind_actor_address default_ft l x body) s Q.
Proof.
  intros Hl Hw Hr Hc Hm Et HQ.
  assert (forall s', mid None s0 l x s' -> tasks s' = tasks s -> Q tt s') as HQ'
    by (intros s' Hm' Et'; apply HQ; split; [done|left; congruence]).
  assert (wp (requested_visa_denied l x) s Q) as Hden by (by eapply wp_visa_denied).
  destruct (Classifier.classify_with_options _ _ _) as [[ft r]|] eqn:Ec; [|done].
  apply wp_bind. eapply wp_lift; [exact Ec|]. destruct r as [[]|]; try done.
  apply wp_bind, wp_get_peer. destruct (get (peer_table s) l) as [p|] eqn:Ep; [|by apply HQ'].
  destruct (negb _); [done|].
  assert (wp (launch_visa_request l x ft) s Q) as Hlaunch.
  { eapply wp_launch; try done. unfold live. by rewrite Ep. }
  apply wp_bind, wp_gets. destruct (match_traffic _ ft) as [v|]; [|done].
  apply wp_bind, wp_bind, wp_gets, wp_ret. unfold get_visa_next_hop_addr.
  destruct (table (visa_table s) !! v) as [w|]; [|done].
  assert (forall addr, wp (match (match find_egress_link s addr with
      | Some l => inl l | None => inr (DestNotFound addr) end : Z + VisaTableError) with
      | inl _ => requested_visa_granted l x v
      | inr (NotFound _) => launch_visa_request l x ft
      | inr (DestNotFound _) => requested_visa_denied l x
      | inr _ => panic end) s Q) as Hgrant.
  { intros addr. destruct (find_egress_link s addr); [|done]. by eapply wp_visa_granted. }
  destruct (bool_decide _); apply Hgrant.
Qed.

(** A visa the visa service may push: full, with a docking part. *)
Definition pushed_ok (v : VsVisa Pep) : Prop := visa_type v = Full /\ is_Some (dock_pep v).

Lemma visas_ok_insert (vt : VisaTable.VisaTable) v : visas_ok vt -> pushed_ok v ->
  exists vt', insert_visa vt v = Ret (vt', inl (issuer_id v)) /\ visas_ok vt'.
Proof.
  intros [Hu Ht] [Hf [dp Hd]]. unfold insert_visa, visa_new.
  rewrite (bool_decide_eq_true_2 _ Hf), Hd. cbn. eexists. split; [reflexivity|].
  split; intros i w Hw; cbn [table] in Hw; apply lookup_insert_Some in Hw as [[<- <-]|[Hne Hw]]; cbn; eauto.
  eexists. unfold get_tc. cbn [visa]. by rewrite (bool_decide_eq_true_2 _ Hf), Hd.
Qed.

Lemma wp_insert_visa s0 l x v s (Q : Z + VisaTableError -> Assembly slab -> Prop) :
  pushed_ok v -> mid None s0 l x s ->
  (forall s', mid None s0 l x s' -> peer_table s' = peer_table s -> tasks s' = tasks s ->
     Q (inl (issuer_id v)) s') ->
  wp (mgmt_insert_visa v) s Q.
Proof.
  intros Hp [Hi Hu Hv Ho] HQ. destruct (visas_ok_insert _ v Hv Hp) as (vt' & Hins & Hv').
  destruct Hp as [Hf [dp Hd]]. unfold mgmt_insert_visa. rewrite (bool_decide_eq_true_2 _ Hf).
  apply wp_bind. eapply wp_lift; [by rewrite Hd|]. apply wp_bind, wp_gets, wp_bind.
  eapply wp_lift; [exact Hins|]. apply wp_bind, wp_modify, wp_ret. by apply HQ.
Qed.

Lemma wp_visa_request_done s0 l x dec s (Q : unit -> Assembly slab -> Prop) :
  u32 l -> waiting (bind_at (peer_table s) l x) = false -> room (peer_table s) ->
  match dec with Allowed v => pushed_ok v | _ => True end ->
  mid None s0 l x s ->
  (forall s', mid None s0 l x s' -> tasks s' = tasks s -> Q tt s') ->
  wp (visa_request_done l x dec) s Q.
Proof.
  intros Hl Hw Hr Hd Hm HQ. destruct dec as [v| |]; cbn [visa_request_done]; [|by eapply wp_visa_denied..].
  apply wp_bind. eapply wp_insert_visa; [done|done|]. intros s1 Hm1 Ep Et.
  apply (wp_visa_granted s0); rewrite ?Ep; auto. intros s2 Hm2 Et2. apply HQ; [done|congruence].
Qed.

Lemma wp_visa_push_done s0 l x v r s (Q : unit -> Assembly slab -> Prop) :
  u32 l -> waiting (bind_at (peer_table s) l x) = false -> room (peer_table s) ->
  match r with Some vs => Forall pushed_ok vs | None => True end ->
  mid None s0 l x s ->
  (forall s', mid None s0 l x s' -> tasks s' = tasks s -> Q tt s') ->
  wp (visa_push_done l x v r) s Q.
Proof.
  intros Hl Hw Hr Hd Hm HQ. destruct r as [vs|]; cbn [visa_push_done]; [|by eapply wp_visa_denied].
  destruct (List.find _ vs) as [w|] eqn:Ef; [|by eapply wp_visa_denied].
  apply List.find_some in Ef as [Hin _].
  apply wp_bind. apply (wp_insert_visa s0 l x); [rewrite Forall_forall in Hd; by apply Hd|done|]. intros s1 Hm1 Ep Et.
  apply (wp_visa_granted s0); rewrite ?Ep; auto. intros s2 Hm2 Et2. apply HQ; [done|congruence].
Qed.

Lemma wp_request_stream s0 l x v s (Q : unit -> Assembly slab -> Prop) :
  u32 l -> waiting (bind_at (peer_table s) l x) = false -> room (peer_table s) ->
  mid None s0 l x s -> tasks s = tasks s0 ->
  (forall s', after s0 l x s' -> Q tt s') ->
  wp (request_stream l x v) s Q.
Proof.
  intros Hl Hw Hr Hm Et HQ. apply wp_bind, wp_get_peer.
  destruct (get (peer_table s) l) as [p|] eqn:Ep; [|by apply HQ; split; [|left]].
  apply wp_bind, wp_gets. destruct (table (visa_table s) !! v) as [w|].
  - apply (wp_visa_granted s0); try done. intros s' Hm' Et'. apply HQ. split; [done|left; congruence].
  - eapply wp_launch; try done. unfold live. by rewrite Ep.
Qed.

(** ** Answers of the next hop *)

Lemma visas_ok_alter (vt : VisaTable.VisaTable) i f :
  visas_ok vt ->
  (forall v, visa (f v) = visa v /\ (Forall entry_u32 (streams v) -> Forall entry_u32 (streams (f v)))) ->
  visas_ok (on_visa vt i f).
Proof.
  intros [Hu Ht] Hf. split; intros j w; cbn [on_visa table]; rewrite lookup_alter_Some;
    intros [(-> & v & Hv & ->)|[_ Hw]]; eauto; destruct (Hf v) as [Ev Es].
  - by apply Es, (Hu j).
  - destruct (Ht j v Hv) as [tc Htc]. exists tc. unfold get_tc in *. by rewrite Ev.
Qed.

Lemma visas_ok_link (vt : VisaTable.VisaTable) i (e : ForwardingEntry) :
  visas_ok vt -> entry_u32 e -> visas_ok (on_visa vt i (visa_link_forwarding_entry e)).
Proof.
  intros Hv He. apply visas_ok_alter; [done|]. intros v. split; [done|]. intros Hs. cbn.
  apply Forall_app. by split; [|constructor].
Qed.

Lemma quiet_pft (f : PeerForwardingTable slab) : quiet (set_pft f).
Proof. by intros p. Qed.

Lemma wp_install_route s0 l x v e tether p s (Q : unit -> Assembly slab -> Prop) :
  u32 l -> get (peer_table s) l = Some p -> waiting (bind_at (peer_table s) l x) = false -> mid None s0 l x s ->
  (forall s', mid None s0 l x s' -> tasks s' = tasks s -> Q tt s') ->
  wp (install_route l x v e tether p) s Q.
Proof.
  intros Hl Ep Hw Hm HQ. unfold install_route. pose proof Hm as [Hi Hu Hv Ho].
  destruct (ok_entry _ (i_table _ _ _ _ Hi) l p Hl Ep) as [_ Hpft].
  destruct (pft_vacant_entry (pft p)) eqn:Evac; cbn [negb]; cycle 1.
  { apply (wp_bind_reject None s0); auto. }
  destruct (pft_vacant (pft p) (mkPftPep (FE e tether) v) Hpft Evac) as (key & f & Hkey & Hins & Hk & _ & Hf & _).
  apply wp_bind, wp_gets. destruct (table (visa_table s) !! v) as [w|] eqn:Ew; [|by apply (wp_visa_denied s0)].
  apply wp_bind. eapply wp_lift; [exact Hkey|]. apply wp_bind, wp_modify.
  set (s1 := set_visas _ s). assert (mid None s0 l x s1) as Hm1.
  { split; try done. apply visas_ok_link; [done|]. split; [done|]. cbn. clear -Hk. unfold u32. change PEER_FORWARDING_TABLE_SIZE with 1048576 in Hk. lia. }
  assert (wp (requested_visa_denied l x) s1 Q) as Hden by (by apply (wp_visa_denied s0)).
  assert (forall m, (forall s', mid None s0 l x s' -> tasks s' = tasks s1 -> wp m s' Q) ->
    wp (_ ← update_peer l (set_pft f); m) s1 Q) as Hput.
  { intros m HQ'. apply wp_bind, wp_modify. apply HQ'; [|done]. destruct Hm1 as [Hi1 Hu1 Hv1 Ho1].
    split; cbn; [|done|done|].
    - apply Inv_quiet; [done|by apply keeps_pft|by apply quiet_pft|done].
    - eapply only_trans; [done|]. by apply same_only, same_reqs_dock, quiet_same_dock. }
  assert (forall k s', mid None s0 l x s' -> tasks s' = tasks s1 -> wp (send k) s' Q) as Hsend.
  { intros k s' [??] ?. apply wp_modify. apply HQ; [by split|done]. }
  destruct (proj2 Hv v w Ew) as [tc Htc].
  destruct (peer_type p); [| |done|done]; apply wp_bind; [apply wp_ret|apply wp_bind; eapply wp_lift; [exact Htc|]; apply wp_ret];
    apply wp_bind; (eapply wp_lift; [exact Hins|]); apply Hput; apply Hsend.
Qed.

Lemma wp_tether_granted d s0 l x tether s (Q : unit -> Assembly slab -> Prop) :
  u32 l -> at_rest d l x (peer_table s) -> mid d s0 l x s ->
  (forall s', mid None s0 l x s' -> tasks s' = tasks s -> Q tt s') ->
  wp (requested_tether_granted l x tether) s Q.
Proof.
  intros Hl Har [Hi Hu Hv Ho] HQ. apply wp_bind, wp_get_peer.
  destruct d as [[[l' x'] h]|].
  - destruct Har as [-> ->]. destruct (i_dang _ _ _ _ Hi l x h eq_refl) as (_ & (v & e & Hb) & Hno).
    pose proof Hb as Hb'. unfold bind_at in Hb'.
    destruct (get (peer_table s) l) as [p|] eqn:Ep; [|done]. cbn in Hb'. unfold binds in Hb'. rewrite Hb'.
    destruct (i_req _ _ _ _ Hi l p x v e h Hl Ep Hb') as (He & _).
    apply wp_bind, not_awaiting; [intros q Hq; by eapply Hno|].
    apply wp_bind, wp_remove_bind_state. rewrite Hb. apply wp_bind. cbn [drop_state state_handle].
    rewrite <- Hu in Hi. apply (wp_drop_handle h ex None); [by apply Inv_request_del in Hi|].
    intros t2 Hi2 Hs2 Hrest2. cbn [peer_table set_peers] in Hs2. apply wp_bind, wp_get_peer. cbn [peer_table set_peers].
    destruct (Hs2 l Hl) as [El Eb]. rewrite live_update in El by done. unfold live in El. rewrite Ep in El.
    destruct (get t2 l) as [q|] eqn:Eq; [|done]. apply wp_bind. eapply wp_lift; [reflexivity|].
    eapply wp_install_route; [done|done| | |].
    + cbn. by rewrite Eb, bind_at_request, decide_True; [destruct (live _ l)|..].
    + split; cbn in *; [by rewrite <- Hu|done|done|]. eapply only_trans; [exact Ho|].
      eapply only_trans; [by apply only_request|by apply same_only].
    + done.
  - cbn in Har. unfold bind_at in Har. destruct (get (peer_table s) l) as [p|]; [|by apply HQ].
    cbn in Har. unfold binds in Har. destruct (_ !! x) as [[]|]; try done; by apply HQ.
Qed.

Lemma no_back t l p h : u32 l -> get t l = Some p -> awaits p !! h = None ->
  same_dock t (update t l (set_back h None)).
Proof.
  intros Hl Ep Ea j Hj. rewrite get_update by done. destruct (decide (j = l)) as [-> |]; [|by destruct (get t j)].
  rewrite Ep. cbn [fmap option_fmap option_map]. split_and!; [done| |done].
  unfold set_back, on_node. cbn [node_state set_node_state]. unfold awaits in Ea.
  destruct (node_state p) as [bs aw]. cbn in *. f_equal. change (delete h aw = aw). by apply delete_id.
Qed.

Lemma keeps_back h o : keeps (slab:=slab) (set_back h o).
Proof. by intros p. Qed.

(** The back link is taken out; the asserts on the request it names hold. *)
Lemma wp_resolve_found l h p i x s (Q : Z * Z + InstallTetherError -> Assembly slab -> Prop) :
  u32 l -> Inv ex None (next_uid s) (peer_table s) -> visas_ok (visa_table s) ->
  get (peer_table s) l = Some p -> awaits p !! h = Some (i, x) ->
  (forall d t', at_rest d i x t' -> mid d s i x (set_peers t' s) -> same_reqs (peer_table s) t' ->
     same_rest (peer_table s) t' -> (live (peer_table s) i = true -> d = Some (i, x, h)) ->
     Q (inl (i, x)) (set_peers t' s)) ->
  wp (resolve_next_hop_bind_originator l h) s Q.
Proof.
  intros Hl Hi Hv Ep Ea HQ. apply wp_bind, wp_get_peer. rewrite Ep.
  apply wp_bind, wp_bind, wp_get_peer. apply wp_bind, wp_modify. rewrite Ep. cbn [mbind option_bind].
  change (awaiting_next_hop_bind_table (node_state p) !! h) with (awaits p !! h). rewrite Ea.
  destruct (i_back _ _ _ _ Hi l p h i x Hl Ep Ea) as (Hiu & Hm & Hreq).
  pose proof (Inv_back_del _ _ _ _ _ _ _ _ Hl Ep Ea Hi) as Hi1.
  set (t1 := update (peer_table s) l (set_back h None)) in *.
  apply wp_bind. eapply (wp_drop_handle h ex _ (set_peers t1 s)); [exact Hi1|].
  intros t2 Hi2 Hs2 Hr2. change (same_reqs t1 t2) in Hs2. change (same_rest t1 t2) in Hr2.
  change (next_uid (set_peers t1 s)) with (next_uid s) in Hi2.
  apply wp_ret, wp_bind, wp_get_peer. change (set_peers t2 (set_peers t1 s)) with (set_peers t2 s).
  change (peer_table (set_peers t2 s)) with t2.
  assert (same_reqs (peer_table s) t2) as Hs02.
  { intros j Hj. pose proof (same_reqs_back (peer_table s) l h None Hl j Hj) as [E1 E2].
    destruct (Hs2 j Hj) as [E3 E4]. fold t1 in E1, E2. split; [congruence|]. intros y. rewrite E4, E2. done. }
  assert (same_rest (peer_table s) t2) as Hr02 by (apply (same_rest_trans _ t1); [by apply same_rest_update|done]).
  destruct (Hs02 i Hiu) as [El Eb].
  assert (forall d, Inv ex d (next_uid s) t2 -> mid d s i x (set_peers t2 s)) as Hmid
    by (intros d Hd; split; [done|done|done|by apply same_only]).
  unfold live in El at 1. destruct (get t2 i) as [pi|] eqn:Epi.
  - destruct (Hreq (eq_sym El)) as [v Hb]. rewrite <- El in Hi2.
    assert (binds pi !! x = Some (AwaitingNextHopBind v l h)) as Hbx
      by (apply (bind_at_get _ _ _ _ _ Epi); by rewrite Eb).
    unfold binds in Hbx. rewrite Hbx. apply wp_bind. eapply wp_lift; [by rewrite Z.eqb_refl|].
    apply wp_bind. eapply wp_lift; [by rewrite bool_decide_eq_true_2|]. apply wp_ret.
    by apply (HQ (Some (i, x, h))); [|apply Hmid| | |].
  - rewrite <- El in Hi2, HQ. apply wp_ret. apply (HQ None); [|by apply Hmid|done|done|done].
    cbn. unfold bind_at. by rewrite Epi.
Qed.

Lemma wp_resolve l h s (Q : Z * Z + InstallTetherError -> Assembly slab -> Prop) :
  u32 l -> Inv ex None (next_uid s) (peer_table s) -> visas_ok (visa_table s) ->
  (forall err t', Inv ex None (next_uid s) t' -> same_reqs (peer_table s) t' -> Q (inr err) (set_peers t' s)) ->
  (forall d i x s', u32 i -> at_rest d i x (peer_table s') -> mid d s i x s' -> tasks s' = tasks s ->
     waiting (bind_at (peer_table s) i x) = live (peer_table s) i ->
     Q (inl (i, x)) s') ->
  wp (resolve_next_hop_bind_originator l h) s Q.
Proof.
  intros Hl Hi Hv Herr HQ. destruct (get (peer_table s) l) as [p|] eqn:Ep; cycle 1.
  { apply wp_bind, wp_get_peer. rewrite Ep. apply wp_ret.
    replace s with (set_peers (peer_table s) s) by (by destruct s). by apply Herr. }
  destruct (awaits p !! h) as [[i x]|] eqn:Ea.
  - destruct (i_back _ _ _ _ Hi l p h i x Hl Ep Ea) as (Hiu & Hm & Hreq).
    eapply wp_resolve_found; [done..|]. intros d t' Har Hmid Hs _ _. apply (HQ d); try done.
    destruct (live (peer_table s) i) eqn:El; [by destruct (Hreq eq_refl) as [v ->]|].
    unfold live in El. unfold bind_at. by destruct (get (peer_table s) i).
  - apply wp_bind, wp_get_peer. rewrite Ep. apply wp_bind, wp_bind, wp_get_peer. apply wp_bind, wp_modify.
    rewrite Ep. cbn [mbind option_bind].
    change (awaiting_next_hop_bind_table (node_state p) !! h) with (awaits p !! h). rewrite Ea.
    pose proof (no_back _ _ _ _ Hl Ep Ea) as Hsd. apply wp_ret, wp_ret, Herr; [|by apply same_reqs_dock].
    eapply Inv_same_dock; [|exact Hsd|done]. apply update_ok; [done|apply keeps_back|by eapply i_table].
Qed.

(** What an answer leaves behind: the request it was for is settled. *)
Definition settled s s' : Prop :=
  Inv ex None (next_uid s) (peer_table s') /\ next_uid s' = next_uid s /\ visas_ok (visa_table s') /\
  tasks s' = tasks s /\
  exists i x, u32 i /\ only i x (peer_table s) (peer_table s') /\
    (live (peer_table s) i = true -> waiting (bind_at (peer_table s) i x) = true \/
       same_reqs (peer_table s) (peer_table s')).

Lemma settled_mid s i x s' :
  u32 i -> mid None s i x s' -> tasks s' = tasks s ->
  waiting (bind_at (peer_table s) i x) = live (peer_table s) i -> settled s s'.
Proof.
  intros Hi [? ? ? ?] Ht Hw. split_and!; try done. exists i, x. split_and!; try done.
  intros Hl. left. congruence.
Qed.

Lemma settled_same s t' : Inv ex None (next_uid s) t' -> visas_ok (visa_table s) ->
  same_reqs (peer_table s) t' -> settled s (set_peers t' s).
Proof.
  intros Hi Hv Hs. split_and!; try done. exists 0, 0. split_and!; [done|by apply same_only|]. auto.
Qed.

Lemma wp_install_tether l h tether s :
  u32 l -> Inv ex None (next_uid s) (peer_table s) -> visas_ok (visa_table s) ->
  wp (install_tether l h tether) s (fun _ => settled s).
Proof.
  intros Hl Hi Hv. apply wp_bind, wp_resolve; [done|done|done| |].
  - intros err t' Hi' Hs. apply wp_ret. by apply settled_same.
  - intros d i x s' Hiu Har Hm Ht Hw. apply wp_bind. eapply wp_tether_granted; [done|done|done|].
    intros s'' Hm'' Ht''. apply wp_ret. eapply settled_mid; [done|done|congruence|done].
Qed.

Lemma wp_deny_tether l h reason s :
  u32 l -> Inv ex None (next_uid s) (peer_table s) -> visas_ok (visa_table s) ->
  wp (deny_tether l h reason) s (fun _ => settled s).
Proof.
  intros Hl Hi Hv. apply wp_bind, wp_resolve; [done|done|done| |].
  - intros err t' Hi' Hs. apply wp_ret. by apply settled_same.
  - intros d i x s' Hiu Har Hm Ht Hw. apply wp_bind. eapply wp_bind_reject; [done|done|done|].
    intros s'' Hm'' Ht'' _. apply wp_ret. eapply settled_mid; [done|done|congruence|done].
Qed.

End props.
End NodeBindProps.
