(* ===== verification/NodeBindThms.v ===== *)
(** * Binding flows: the node's dock state stays consistent

    The events that drive binding at a node, each one run of a function up to the
    next point at which a task waits, and the theorems on runs of events. *)
From Stdlib Require Import ZArith Lia.
From stdpp Require Import base tactics option list numbers gmap gmultiset.
From S2P Require Import Prelude Slab NetDefs Classifier ClassifierProps Tc ForwardingTables TxnMgr Auth LinkTypes PeerTable PeerTableProps VisaTable VisaTableProps AddressPool Assembly NodeBind NodeBindInv NodeBindProps.
From stdpp Require Import list.
Import ForwardingTables PeerTable PeerTableProps VisaTable VisaTableProps Asm NodeBind NodeBindInv NodeBindProps.

Local Open Scope Z_scope.

Module NodeBindThms.

Section events.
Context `{NetDefs} `{Crypto} `{VisaEnv} `{TunCtl} `{FlowTables} `{Slab slab}.
Context (default_ft : FiveTuple) (utf8 : list Z -> bool).
Context (ex : gmultiset TxnHandle).
Hypothesis ex_size : Z.of_nat (size ex) < 2 ^ 61.

Notation M := (M slab).
Implicit Types (s : Assembly slab) (t : PeerTable slab) (l x e j : Z).

Inductive Event :=
| EBind (l x : Z) (pkt : list Z)
| EStreamRequest (l x : Z) (pkt : list Z)
| EVisaAnswer (i : nat) (dec : VisaDecision)
| EPushAnswer (i : nat) (r : option (list (VsVisa Pep)))
| EResponse (l txn stream : Z) (pkt : list Z)
| EUnbind (l stream : Z)
| EAdd (ty : LinkTypes.LinkType) (peer_addr interface : list Z * Z) (rnd : list Z)
| EDrop (l : Z)
| ERevoke (visa_id : Z).

Definition run (e : Event) : M unit :=
  match e with
  | EBind l x pkt => _ ← handle_bind_actor_address_request default_ft l x pkt; mret tt
  | EStreamRequest l x pkt => _ ← handle_stream_id_request l x pkt; mret tt
  | EVisaAnswer i dec => finish_task i (fun k =>
      match k with VisaRequestTask l x _ => visa_request_done l x dec | _ => mret tt end)
  | EPushAnswer i r => finish_task i (fun k =>
      match k with VisaPushRequestTask l x v => visa_push_done l x v r | _ => mret tt end)
  | EResponse l txn stream pkt => _ ← handle_next_hop_response utf8 l txn stream pkt; mret tt
  | EUnbind l stream => unbind_stream l stream
  | EAdd ty a i rnd => _ ← add_peer ty a i rnd; mret tt
  | EDrop l => drop_peer l
  | ERevoke v => _ ← handle_revocation v; mret tt
  end.

(** ** The invariant *)

Definition keys s : list (Z * Z) := omap task_key (tasks s).

Record bind_ok s : Prop := {
  ok_inv : Inv ex None (next_uid s) (peer_table s);
  ok_uid : 0 < next_uid s < 2 ^ 64;
  ok_ex : forall h, h ∈ ex -> th_mgr h < next_uid s;
  ok_visas : visas_ok (visa_table s);
  (** a task works for a request that waits for it, unless its peer has gone *)
  ok_keys : NoDup (keys s);
  ok_tasks : forall l x, (l, x) ∈ keys s -> u32 l /\
    (live (peer_table s) l = true -> idle (bind_at (peer_table s) l x))
}.

(** Nothing refers to a link identifier that is about to be given out again. *)
Definition unreferenced s l : Prop :=
  (forall e q h x, u32 e -> get (peer_table s) e = Some q -> awaits q !! h <> Some (l, x)) /\
  (forall x, (l, x) ∉ keys s).

(** What the node relies on: peers do not reuse the identifier of a request in
    flight, transactions are left, the visa service sends full visas, a link
    identifier is not given out again while it is referred to, and identifiers have
    32 bits, packets bytes. *)
Definition admissible (e : Event) s : Prop :=
  match e with
  | EBind l x pkt =>
      u32 l /\ bind_at (peer_table s) l x = None /\ room (peer_table s) /\ bytes_ok pkt
  | EStreamRequest l x pkt => u32 l /\ bind_at (peer_table s) l x = None /\ room (peer_table s)
  | EVisaAnswer i dec =>
      room (peer_table s) /\ match dec with Allowed v => pushed_ok v | _ => True end
  | EPushAnswer i r =>
      room (peer_table s) /\ match r with Some vs => Forall pushed_ok vs | None => True end
  | EResponse l _ _ _ => u32 l
  | EUnbind l stream => u32 l /\ u32 stream
  | EAdd ty a i rnd =>
      (forall l, vacant_entry_key (peer_table s) = Ret l -> unreferenced s l) /\
      (is_unspecified a.1 = true \/ lookup_peer (peer_table s) a i = None) /\ next_uid s + 1 < 2 ^ 64
  | EDrop l => u32 l
  | ERevoke v => True
  end.

(** The endpoint packet of a bind request. *)
Definition endpoint_packet (pkt : list Z) : list Z :=
  take (Z.to_nat (from_be (take 2 (drop 1 pkt)))) (drop 3 pkt).

(** What stops the node: an endpoint packet that is cut off behind its IP header,
    and forwarding entries recorded with a visa that goes that are no longer routes
    (as after [unbind_stream], which takes the route and leaves the record). *)
Inductive bind_trouble s : Event -> Prop :=
| packet_cut l x pkt : ClassifierProps.headers_cut (endpoint_packet pkt) -> bind_trouble s (EBind l x pkt)
| records_stale v : stale (peer_table s) (recorded (visa_table s) v) -> bind_trouble s (ERevoke v)
| link_records_stale l : ph_mode s = Node ->
    stale (peer_table s) (concat (recorded (visa_table s) <$> to_revoke (visa_table s) l)) -> bind_trouble s (EDrop l).

Lemma bind_run {A B} (m : M A) (f : A -> M B) s a s' : m s = Ret (a, s') -> (m ≫= f) s = f a s'.
Proof. intros E. unfold mbind, M_bind. by rewrite E. Qed.
Lemma bind_panic {A B} (m : M A) (f : A -> M B) s : m s = Panic -> (m ≫= f) s = Panic.
Proof. intros E. unfold mbind, M_bind. by rewrite E. Qed.

(** ** Tasks *)

Lemma keys_live s l x : bind_ok s -> (l, x) ∈ keys s -> ~ idle (bind_at (peer_table s) l x) ->
  live (peer_table s) l = false.
Proof.
  intros Hok Hin Hn. destruct (ok_tasks s Hok l x Hin) as [_ Hl].
  destruct (live (peer_table s) l); [|done]. destruct Hn. auto.
Qed.

(** Requests other than [x] of [l] are untouched, and no task works for that one. *)
Lemma tasks_only s s' l x :
  bind_ok s -> u32 l -> only l x (peer_table s) (peer_table s') ->
  ~ idle (bind_at (peer_table s) l x) ->
  forall j y, (j, y) ∈ keys s -> u32 j /\ (live (peer_table s') j = true -> idle (bind_at (peer_table s') j y)).
Proof.
  intros Hok Hl Ho Hn j y Hin. destruct (ok_tasks s Hok j y Hin) as [Hj Hi]. split; [done|].
  destruct (Ho j Hj) as [El Eb]. rewrite El. intros Hlv.
  destruct (decide ((j, y) = (l, x))) as [[= -> ->]|Hne]; [|rewrite Eb by done; auto].
  destruct Hn. auto.
Qed.

Lemma live_bind t l x : live t l = false -> bind_at t l x = None.
Proof. unfold live, bind_at. by destruct (get t l). Qed.

Lemma after_ok s l x s' :
  bind_ok s -> u32 l -> bind_at (peer_table s) l x = None -> after ex s l x s' -> bind_ok s'.
Proof.
  intros Hok Hl Hb [[Hi Hu Hv Ho] Hor].
  assert (~ idle (bind_at (peer_table s) l x)) as Hn by (rewrite Hb; intros []).
  pose proof (tasks_only s s' l x Hok Hl Ho Hn) as Ht.
  destruct Hor as [Et|(k & Et & Hk & Hid)].
  - split; unfold keys; rewrite ?Et, ?Hu; try apply Hok; done.
  - assert (live (peer_table s) l = true) as Hlv.
    { destruct (live (peer_table s) l) eqn:E; [done|]. rewrite <- (proj1 (Ho l Hl)) in E.
      by rewrite (live_bind _ _ _ E) in Hid. }
    assert (keys s' = keys s ++ [(l, x)]) as Ek by (unfold keys; rewrite Et, omap_app; cbn; by rewrite Hk).
    split; rewrite ?Ek, ?Hu; try apply Hok; [done|done| |].
    + apply list.NoDup_app. split_and!; [apply Hok| |apply NoDup_singleton].
      intros [j y] Hin Hin'. apply list_elem_of_singleton in Hin' as [= -> ->].
      by rewrite (keys_live s l x Hok Hin Hn) in Hlv.
    + intros j y [Hin|Hin]%elem_of_app; [by apply Ht|]. by apply list_elem_of_singleton in Hin as [= -> ->].
Qed.

(** Taking a task off the list. *)
Lemma finish_ok s i k :
  bind_ok s -> tasks s !! i = Some k ->
  let s0 := set_tasks (delete i (tasks s)) s in
  bind_ok s0 /\ forall l x, task_key k = Some (l, x) ->
    u32 l /\ (live (peer_table s) l = true -> idle (bind_at (peer_table s) l x)) /\ (l, x) ∉ keys s0.
Proof.
  intros Hok Hk s0.
  assert (keys s ≡ₚ match task_key k with Some a => [a] | None => [] end ++ keys s0) as Hp.
  { unfold keys. rewrite <- (take_drop_middle _ _ _ Hk), omap_app. unfold s0. cbn [tasks set_tasks].
    rewrite delete_take_drop, omap_app. cbn [omap list_omap]. destruct (task_key k); cbn; [|done].
    by rewrite Permutation_middle. }
  assert (forall a, a ∈ keys s0 -> a ∈ keys s) as Hsub.
  { intros a Ha. rewrite Hp. apply elem_of_app. by right. }
  assert (NoDup (keys s0)) as Hnd.
  { pose proof (ok_keys s Hok) as Hnd. rewrite Hp in Hnd. by apply list.NoDup_app in Hnd as (_ & _ & ?). }
  split.
  - destruct Hok. split; cbn; try done. intros l x Hin. apply ok_tasks0. by apply Hsub.
  - intros l x Et. rewrite Et in Hp.
    assert ((l, x) ∈ keys s) as Hin by (rewrite Hp; by left).
    destruct (ok_tasks s Hok l x Hin) as [? ?]. split_and!; [done|done|].
    pose proof (ok_keys s Hok) as Hnd'. rewrite Hp in Hnd'. by apply list.NoDup_cons in Hnd' as [? _].
Qed.

Lemma mid_refl s l x : bind_ok s -> mid ex None s l x s.
Proof. intros Hok. split; try apply Hok; [done|]. apply only_refl. Qed.

(** The request a finished task worked for is its own. *)
Lemma mid_ok s l x s' :
  bind_ok s -> u32 l -> (l, x) ∉ keys s -> mid ex None s l x s' -> tasks s' = tasks s -> bind_ok s'.
Proof.
  intros Hok Hl Hni [Hi Hu Hv Ho] Et. split; unfold keys; rewrite ?Et, ?Hu; try apply Hok; try done.
  intros j y Hin. destruct (ok_tasks s Hok j y Hin) as [Hj Hid]. split; [done|].
  destruct (Ho j Hj) as [El Eb]. rewrite El, Eb; [done|]. intros [= -> ->]. done.
Qed.

Lemma settled_ok s s' : bind_ok s -> settled ex s s' -> bind_ok s'.
Proof.
  intros Hok (Hi & Hu & Hv & Et & i & x & Hiu & Ho & Hw).
  split; unfold keys; rewrite ?Et, ?Hu; try apply Hok; try done.
  intros j y Hin. destruct (ok_tasks s Hok j y Hin) as [Hj Hid]. split; [done|].
  destruct (Ho j Hj) as [El Eb]. rewrite El. intros Hlv.
  destruct (decide ((j, y) = (i, x))) as [[= -> ->]|Hne]; [|rewrite Eb by done; auto].
  destruct (Hw Hlv) as [Hw'|Hs]; [|rewrite (proj2 (Hs i Hj)); auto].
  specialize (Hid Hlv). apply idle_waiting in Hid. congruence.
Qed.

Lemma idle_or_dead t l x : (live t l = true -> idle (bind_at t l x)) -> waiting (bind_at t l x) = false.
Proof.
  intros Hi. destruct (live t l) eqn:E; [by apply idle_waiting, Hi|]. by rewrite (live_bind _ _ _ E).
Qed.

(** ** Routes and visas *)

(** The docking side of the peers and the tasks are as before. *)
Lemma dock_ok s s' :
  bind_ok s -> table_ok (peer_table s') -> same_dock (peer_table s) (peer_table s') ->
  next_uid s' = next_uid s -> visas_ok (visa_table s') -> tasks s' = tasks s -> bind_ok s'.
Proof.
  intros Hok Ht Hs Hu Hv Et. pose proof (same_reqs_dock _ _ Hs) as Hr.
  split; unfold keys; rewrite ?Et, ?Hu; try apply Hok; try done.
  - eapply Inv_same_dock; [done|done|apply Hok].
  - intros j y Hin. destruct (ok_tasks s Hok j y Hin) as [Hj Hid]. split; [done|].
    destruct (Hr j Hj) as [-> ->]. done.
Qed.

Lemma same_but_pft_dock t t' : same_but_pft t t' -> same_dock t t'.
Proof.
  intros Hs l Hl. specialize (Hs l Hl). destruct (get t l), (get t' l); try done. by destruct Hs as [f ->].
Qed.

Lemma swap_remove_forall (P : ForwardingEntry -> Prop) es i :
  Forall P es -> Forall P (swap_remove es i).
Proof.
  intros Hf. unfold swap_remove. destruct (last es) as [z|] eqn:E; [|done].
  apply Forall_take, Forall_insert; [done|]. apply last_Some in E as [es' ->].
  apply list.Forall_app in Hf as [_ Hf]. by apply list.Forall_cons in Hf as [? _].
Qed.

Lemma visas_ok_unlink (vt : VisaTable.VisaTable) i (e : ForwardingEntry) :
  visas_ok vt -> visas_ok (unlink_forwarding_entry vt i e).1.
Proof.
  intros Hv. unfold unlink_forwarding_entry. destruct (table vt !! i); [|done]. cbn [fst].
  apply visas_ok_alter; [done|]. intros w. unfold visa_unlink_forwarding_entry.
  destruct (list_find _ _) as [[k ?]|]; cbn; [|done]. split; [done|]. apply swap_remove_forall.
Qed.

Lemma unbind_ok s l stream : bind_ok s -> u32 l -> u32 stream ->
  wp (unbind_stream l stream) s (fun _ => bind_ok).
Proof.
  intros Hok Hl Hs. apply wp_bind, wp_get_peer. destruct (get (peer_table s) l) as [p|] eqn:Ep; [|done].
  destruct (pft_get (pft p) stream) as [pep|] eqn:Eg; [|done].
  destruct (pft_remove_present (pft p) stream) as [f Hf]; [by eexists|].
  destruct (pft_remove_ret _ _ _ Hf Hs) as (_ & Hpf & _).
  apply wp_bind. eapply wp_lift; [exact Hf|]. apply wp_bind, wp_modify, wp_bind, wp_gets, wp_bind, wp_modify, wp_modify.
  assert (keeps (set_pft f)) as Hkeep.
  { apply keeps_pft, Hpf. by apply (ok_entry _ (i_table _ _ _ _ (ok_inv s Hok)) l p Hl Ep). }
  apply (dock_ok s); cbn; try done.
  - apply update_ok; [done|exact Hkeep|apply Hok].
  - by apply quiet_same_dock.
  - apply visas_ok_unlink, Hok.
Qed.

Lemma visas_ok_delete (vt vt' : VisaTable.VisaTable) i :
  visas_ok vt -> table vt' = delete i (table vt) -> visas_ok vt'.
Proof.
  intros [Hu Ht] E. split; [by eapply streams_u32_delete|]. intros j v. rewrite E.
  intros [_ Hv]%lookup_delete_Some. by eapply Ht.
Qed.

Lemma visas_ok_rebuild (vt : VisaTable.VisaTable) : visas_ok vt -> visas_ok (rebuild vt).
Proof. done. Qed.

Lemma revoke_no_rebuild_ok (vt vt' : VisaTable.VisaTable) t t' i r :
  table_ok t -> visas_ok vt -> revoke_no_rebuild vt t i = Ret (vt', t', r) ->
  table_ok t' /\ same_dock t t' /\ visas_ok vt'.
Proof.
  intros Ht Hv Hr. destruct (revoke_no_rebuild_spec _ _ _ _ _ _ Ht (proj1 Hv) Hr) as (? & ? & _ & _ & Et & _).
  split_and!; [done|by apply same_but_pft_dock|by eapply visas_ok_delete].
Qed.

Lemma same_dock_trans t1 t2 t3 : same_dock t1 t2 -> same_dock t2 t3 -> same_dock t1 t3.
Proof.
  intros H12 H23 l Hl. specialize (H12 l Hl). specialize (H23 l Hl).
  destruct (get t1 l), (get t2 l), (get t3 l); try done. destruct H12 as (? & ? & ?), H23 as (? & ? & ?).
  split_and!; congruence.
Qed.

Lemma revoke_each_ok ids (vt vt' : VisaTable.VisaTable) t t' w :
  table_ok t -> visas_ok vt -> revoke_each vt t ids = Ret (vt', t', w) ->
  table_ok t' /\ same_dock t t' /\ visas_ok vt'.
Proof.
  revert vt t w. induction ids as [|i ids IH]; intros vt t w Ht Hv Hr; cbn [revoke_each] in Hr.
  - outcome_inv. split_and!; [done| |done]. intros l Hl. by destruct (get t' l).
  - apply bind_ret in Hr as ([[vt1 t1] r1] & Hr1 & Hr). apply bind_ret in Hr as ([[vt2 t2] ws] & Hr2 & Hr). outcome_inv.
    destruct (revoke_no_rebuild_ok _ _ _ _ _ _ Ht Hv Hr1) as (Ht1 & Hs1 & Hv1).
    destruct (IH _ _ _ Ht1 Hv1 Hr2) as (? & ? & ?). split_and!; [done|by eapply same_dock_trans|done].
Qed.

Lemma wp_withdraw es excl s (Q : unit -> Assembly slab -> Prop) :
  (forall s', peer_table s' = peer_table s -> visa_table s' = visa_table s -> next_uid s' = next_uid s ->
     tasks s' = tasks s -> Q tt s') ->
  wp (withdraw_streams es excl) s Q.
Proof.
  revert s. induction es as [|e es IH]; intros s HQ; cbn [withdraw_streams]; [by apply HQ|].
  apply wp_bind, wp_get_peer, wp_bind. destruct (_ || _)%bool; [apply wp_ret|apply wp_modify];
    apply IH; intros s' E1 E2 E3 E4; by apply HQ.
Qed.

Lemma revocation_ok s v : bind_ok s ->
  wp (handle_revocation v) s (fun _ => bind_ok) \/
  (handle_revocation v s = Panic /\ stale (peer_table s) (recorded (visa_table s) v)).
Proof.
  intros Hok. destruct (revoke (visa_table s) (peer_table s) v) as [[[vt' t'] r]|] eqn:Er; [left|right].
  2: { split; [|by apply (revoke_no_rebuild_panics _ _ _ (i_table _ _ _ _ (ok_inv s Hok)) (proj1 (ok_visas s Hok)));
         unfold revoke in Er; destruct (revoke_no_rebuild _ _ v) as [[[? ?] ?]|]].
       unfold handle_revocation. do 2 (erewrite bind_run by reflexivity; cbv beta).
       apply bind_panic. unfold lift. by rewrite Er. }
  assert (table_ok t' /\ same_dock (peer_table s) t' /\ visas_ok vt') as (Ht & Hs & Hv).
  { unfold revoke in Er. apply bind_ret in Er as ([[vt1 t1] r1] & Hr1 & Er). outcome_inv.
    by destruct (revoke_no_rebuild_ok _ _ _ _ _ _ (i_table _ _ _ _ (ok_inv s Hok)) (ok_visas s Hok) Hr1). }
  apply wp_bind, wp_gets, wp_bind, wp_gets, wp_bind. eapply wp_lift; [exact Er|].
  apply wp_bind, wp_modify, wp_bind, wp_modify. destruct r as [w|err].
  - apply wp_bind, wp_withdraw. intros s' E1 E2 E3 E4. cbn in E1, E2, E3, E4. apply wp_ret.
    apply (dock_ok s); rewrite ?E1, ?E2, ?E3, ?E4; done.
  - by apply (dock_ok s).
Qed.

(** ** Peers *)

Lemma removal_ok s l : bind_ok s -> u32 l ->
  wp (t ← gets peer_table; t' ← lift (PeerTable.remove t l); put_peers t') s (fun _ => bind_ok).
Proof.
  intros Hok Hl. destruct (Inv_remove _ _ _ _ (ok_inv s Hok) Hl) as (t' & Hr & Hi & Hb).
  apply wp_bind, wp_gets, wp_bind. eapply wp_lift; [exact Hr|]. apply wp_modify.
  destruct Hok. split; cbn; try done. intros j y Hin. destruct (ok_tasks0 j y Hin) as [Hj Hid].
  split; [done|]. destruct (Hb j Hj) as [-> E]. rewrite andb_true_iff. intros [Hlv Hne].
  apply negb_true_iff, Z.eqb_neq in Hne. rewrite E by done. auto.
Qed.

Lemma revoke_for_link_ok s l vt' t' w :
  bind_ok s -> revoke_for_link (visa_table s) l (peer_table s) = Ret (vt', t', w) ->
  table_ok t' /\ same_dock (peer_table s) t' /\ visas_ok vt'.
Proof.
  intros Hok Er. unfold revoke_for_link in Er. destruct (to_revoke _ l) as [|i ids].
  - outcome_inv. split_and!; [apply Hok| |apply Hok]. intros j Hj. by destruct (get (peer_table s) j).
  - apply bind_ret in Er as ([[vt1 t1] r1] & Hr1 & Er). outcome_inv.
    by destruct (revoke_each_ok _ _ _ _ _ _ (i_table _ _ _ _ (ok_inv s Hok)) (ok_visas s Hok) Hr1).
Qed.

Lemma drop_ok s l : bind_ok s -> u32 l ->
  wp (drop_peer l) s (fun _ => bind_ok) \/ (drop_peer l s = Panic /\ bind_trouble s (EDrop l)).
Proof.
  intros Hok Hl. unfold drop_peer. destruct (decide (ph_mode s = Node)) as [Hm|Hm].
  2: { left. apply wp_bind, wp_gets, wp_bind. rewrite decide_False by done. by apply wp_ret, removal_ok. }
  destruct (revoke_for_link (visa_table s) l (peer_table s)) as [[[vt' t'] w]|] eqn:Er; [left|right].
  - destruct (revoke_for_link_ok s l vt' t' w Hok Er) as (Ht & Hs & Hv).
    apply wp_bind, wp_gets, wp_bind. rewrite decide_True by done.
    apply wp_bind, wp_gets, wp_bind, wp_gets, wp_bind. eapply wp_lift; [exact Er|].
    apply wp_bind, wp_modify, wp_bind, wp_modify, wp_withdraw. intros s' E1 E2 E3 E4. cbn in E1, E2, E3, E4.
    apply removal_ok; [|done]. apply (dock_ok s); rewrite ?E1, ?E2, ?E3, ?E4; done.
  - split; [|apply link_records_stale; [done|];
      by apply (revoke_for_link_panics _ _ _ (i_table _ _ _ _ (ok_inv s Hok)) (proj1 (ok_visas s Hok)))].
    erewrite bind_run by reflexivity. cbv beta. apply bind_panic.
    rewrite decide_True by done. do 2 (erewrite bind_run by reflexivity; cbv beta).
    apply bind_panic. unfold lift. by rewrite Er.
Qed.

Lemma add_ok s ty a i rnd : bind_ok s -> admissible (EAdd ty a i rnd) s ->
  wp (add_peer ty a i rnd) s (fun _ => bind_ok).
Proof.
  intros Hok (Hun & Haddr & Hmax). pose proof (i_table _ _ _ _ (ok_inv s Hok)) as Ht.
  apply wp_bind, wp_gets. destruct (vacant_entry (peer_table s)) as [[]|err] eqn:Ev; [|done].
  destruct (vacant_key_link _ Ht Ev) as (k & Hvk & Hk & Hkey & Hku & Hk0 & Hnone).
  destruct (Hun _ Hkey) as [Hback Hnk]. apply wp_bind. eapply wp_lift; [exact Hkey|].
  apply wp_bind, wp_gets, wp_bind. eapply wp_lift; [reflexivity|]. apply wp_bind.
  match goal with |- context [vacant_entry_insert _ ?q] => set (p := q) end.
  assert (address_taken (peer_table s) p = false) as Hat.
  { unfold address_taken, p. cbn. destruct Haddr as [-> |E]; [done|]. unfold lookup_peer in E. rewrite E. apply andb_false_r. }
  pose proof (insert_link _ k p Ht Hvk Hk) as Hi. rewrite Hat in Hi. destruct Hi as (t' & Hins & _).
  eapply wp_lift; [exact Hins|]. apply wp_bind, wp_modify, wp_bind, wp_modify, wp_bind, wp_modify, wp_ret.
  destruct (insert_ok _ t' k p Ht Hvk Hk Hat Hnone) as [Ht' Hg]; [done|apply pft_ok_new|done|].
  destruct Hok. assert (wrapping_add 64 (next_uid s) 1 = next_uid s + 1) as Ew
    by (unfold wrapping_add; apply wrap_small; lia).
  split; cbn; rewrite ?Ew; try done; try lia.
  - apply (Inv_add ex (next_uid s) (peer_table s) t' (k + 1) p); try done. lia.
  - intros h Hh. specialize (ok_ex0 h Hh). lia.
  - unfold keys. cbn. rewrite omap_app. cbn. by rewrite app_nil_r.
  - intros j y. unfold keys. cbn. rewrite omap_app. cbn. rewrite app_nil_r. intros Hin.
    destruct (ok_tasks0 j y Hin) as [Hj Hid]. split; [done|].
    assert (j <> k + 1) as Hne by (intros ->; by eapply Hnk).
    unfold live, bind_at. rewrite Hg, decide_False by done. exact Hid.
Qed.

(** ** Packets *)

Lemma bind_request_ok s l x pkt : bind_ok s -> admissible (EBind l x pkt) s ->
  wp (handle_bind_actor_address_request default_ft l x pkt) s (fun _ => bind_ok) \/
  (handle_bind_actor_address_request default_ft l x pkt s = Panic /\ bind_trouble s (EBind l x pkt)).
Proof.
  intros Hok (Hl & Hb & Hr & Hbytes). unfold handle_bind_actor_address_request.
  destruct (_ <? 3); [by left|]. destruct (_ <? _); [by left|]. destruct (l =? 0); [by left|].
  fold (endpoint_packet pkt).
  assert (peer_type_by_id l s = Ret (match get (peer_table s) l with Some p => peer_type p | None => TUnknown end, s)) as Ety
    by (unfold peer_type_by_id; erewrite bind_run by reflexivity; by destruct (get (peer_table s) l)).
  destruct (match get (peer_table s) l with Some p => peer_type p | None => TUnknown end) eqn:E;
    try (by left; apply wp_bind, wp_bind, wp_get_peer, wp_ret; rewrite E).
  destruct (Classifier.classify_with_options (Classifier.mkOptions true false) default_ft (endpoint_packet pkt)) eqn:Ec; [left|right].
  - apply wp_bind, wp_bind, wp_get_peer, wp_ret. rewrite E.
    apply wp_bind, (wp_bind_actor_address _ ex ltac:(lia) s); [done|by rewrite Hb|done|by rewrite Ec|by apply mid_refl|done|].
    intros s' Ha. apply wp_ret. by eapply after_ok.
  - split.
    + erewrite bind_run by exact Ety. cbv beta. apply bind_panic. unfold bind_actor_address. apply bind_panic.
      unfold lift. by rewrite Ec.
    + apply packet_cut. eapply ClassifierProps.classify_panics_cut; [|exact Ec]. by apply Forall_take, Forall_drop.
Qed.

Lemma stream_request_ok s l x pkt : bind_ok s -> admissible (EStreamRequest l x pkt) s ->
  wp (handle_stream_id_request l x pkt) s (fun _ => bind_ok).
Proof.
  intros Hok (Hl & Hb & Hr). unfold handle_stream_id_request.
  destruct (_ <? 8); [done|]. destruct (l =? 0); [done|].
  apply wp_bind, wp_bind, wp_get_peer, wp_ret.
  destruct (match get (peer_table s) l with Some p => peer_type p | None => TUnknown end); try done.
  apply wp_bind, (wp_request_stream ex ltac:(lia) s); [done|by rewrite Hb|done|by apply mid_refl|done|].
  intros s' Ha. apply wp_ret. by eapply after_ok.
Qed.

Lemma finish_task_ok s i f : bind_ok s ->
  (forall s0 k, bind_ok s0 -> tasks s !! i = Some k -> peer_table s0 = peer_table s ->
     (forall l x, task_key k = Some (l, x) -> u32 l /\ waiting (bind_at (peer_table s) l x) = false /\ (l, x) ∉ keys s0) ->
     wp (f k) s0 (fun _ => bind_ok)) ->
  wp (finish_task i f) s (fun _ => bind_ok).
Proof.
  intros Hok Hf. apply wp_bind, wp_gets. destruct (tasks s !! i) as [k|] eqn:Ek; [|done].
  apply wp_bind, wp_modify. destruct (finish_ok s i k Hok Ek) as [Hok0 Hkey].
  apply Hf; [done|done|done|]. intros l x Ht. destruct (Hkey l x Ht) as (? & ? & ?).
  split_and!; [done|by apply idle_or_dead|done].
Qed.

Lemma visa_answer_ok s i dec : bind_ok s -> admissible (EVisaAnswer i dec) s ->
  wp (run (EVisaAnswer i dec)) s (fun _ => bind_ok).
Proof.
  intros Hok [Hr Hd]. apply finish_task_ok; [done|]. intros s0 k Hok0 Hk Et Hkey. destruct k; try done.
  destruct (Hkey _ _ eq_refl) as (Hl & Hw & Hni).
  apply (wp_visa_request_done ex ltac:(lia) s0); rewrite ?Et; try done; [by apply mid_refl|].
  intros s' Hm Ht. by eapply mid_ok.
Qed.

Lemma push_answer_ok s i r : bind_ok s -> admissible (EPushAnswer i r) s ->
  wp (run (EPushAnswer i r)) s (fun _ => bind_ok).
Proof.
  intros Hok [Hr Hd]. apply finish_task_ok; [done|]. intros s0 k Hok0 Hk Et Hkey. destruct k; try done.
  destruct (Hkey _ _ eq_refl) as (Hl & Hw & Hni).
  apply (wp_visa_push_done ex ltac:(lia) s0); rewrite ?Et; try done; [by apply mid_refl|].
  intros s' Hm Ht. by eapply mid_ok.
Qed.

Lemma settled_only ex0 s s' : Inv ex0 None (next_uid s) (peer_table s) -> visas_ok (visa_table s) ->
  s' = s -> settled ex0 s s'.
Proof.
  intros Hi Hv ->. replace s with (set_peers (peer_table s) s) at 2 by (by destruct s). by apply settled_same.
Qed.

Lemma answer_ok ex0 l h stream pkt s :
  Z.of_nat (size ex0) < 2 ^ 62 -> u32 l -> Inv ex0 None (next_uid s) (peer_table s) -> visas_ok (visa_table s) ->
  wp (next_hop_answer utf8 l h stream pkt) s (fun _ => settled ex0 s).
Proof.
  intros Hsz Hl Hi Hv. unfold next_hop_answer.
  assert (forall err, wp (mret (inr err) : M (unit + HandleMgmtError)) s (fun _ => settled ex0 s)) as Herr
    by (intros err; apply wp_ret; by apply settled_only).
  destruct pkt as [|status [|len body]]; try apply Herr. destruct (_ =? _).
  - apply wp_bind. eapply wp_mono; [by apply (wp_install_tether ex0)|]. intros a s' Hs. by apply wp_ret.
  - destruct (_ =? _); [|apply Herr]. destruct (_ <? _); [apply Herr|]. destruct (negb _); [apply Herr|].
    apply wp_bind. eapply wp_mono; [by apply (wp_deny_tether ex0)|]. intros a s' Hs. by apply wp_ret.
Qed.

Lemma response_ok s l txn stream pkt : bind_ok s -> u32 l ->
  wp (handle_next_hop_response utf8 l txn stream pkt) s (fun _ => bind_ok).
Proof.
  intros Hok Hl. apply wp_bind, wp_get_peer. destruct (get (peer_table s) l) as [p|] eqn:Ep; [|done].
  apply wp_bind, wp_bind, wp_get_peer. rewrite Ep. destruct (TxnMgr.get (txn_mgr p) txn) as [m|] eqn:Em; [|done].
  apply wp_bind, wp_modify, wp_ret. fold (puid p). set (h := mkTxn (puid p) txn).
  assert (Inv ({[+ h +]} ⊎ ex) None (next_uid s) (update (peer_table s) l (set_txn_mgr m))) as Hi1
    by (apply Inv_get; [apply Hok|done|done|lia|done]).
  set (s1 := set_peers _ s). set (t1 := update _ l _) in Hi1.
  assert (same_reqs (peer_table s) (peer_table s1)) as Hs1 by (by apply same_reqs_mgr).
  apply wp_bind. eapply wp_mono.
  { apply (answer_ok ({[+ h +]} ⊎ ex)); [|done|exact Hi1|apply Hok].
    rewrite gmultiset_size_disj_union, gmultiset_size_singleton. lia. }
  intros r s2 (Hi2 & Hu2 & Hv2 & Et2 & i & x & Hiu & Ho & Hw). apply wp_bind.
  apply (wp_drop_handle h ex None); [by rewrite Hu2|]. intros t3 Hi3 Hs3 _. apply wp_ret.
  apply (settled_ok s); [done|]. split_and!; [by rewrite Hu2 in Hi3|..]; try done.
  exists i, x. split_and!; [done| |].
  - eapply only_trans; [by apply same_only|]. eapply only_trans; [done|]. by apply same_only.
  - destruct (Hs1 i Hiu) as [E1 E2]. rewrite E1, E2 in Hw. intros Hlv. destruct (Hw Hlv) as [?|Hs]; [by left|].
    right. intros j Hj. destruct (Hs1 j Hj) as [F1 F2], (Hs j Hj) as [F3 F4], (Hs3 j Hj) as [F5 F6].
    split; [cbn; congruence|]. intros y. cbn. by rewrite F6, F4, F2.
Qed.

(** C11. The docking state of a node is consistent and its functions run to their
    end: an event that comes when the node's assumptions hold (see [admissible])
    does not panic, whatever a response to a transaction of the node contains and
    whenever it comes, except in three cases: a bind request whose endpoint packet is
    cut off behind its IP header, and a revocation or the loss of a link that takes
    visas out of which a recorded forwarding entry is no longer a route, which is what
    an unbind leaves behind.  Afterwards each request that waits for the next hop has
    its back link there, each back link of a live requester has its request, every
    transaction has as many references as there are handles on it, and each visa
    task has a request that waits for it.  (Putting the messages sent into packets is
    the subject of the request theorems.) *)
Theorem node_bind_consistent (e : Event) s :
  bind_ok s -> admissible e s ->
  (exists s', run e s = Ret (tt, s') /\ bind_ok s') \/ (run e s = Panic /\ bind_trouble s e).
Proof.
  intros Hok Ha.
  assert (forall A (m : M A), wp m s (fun _ => bind_ok) -> wp (_ ← m; mret tt) s (fun _ => bind_ok)) as Hdrop.
  { intros A m Hm. apply wp_bind. eapply wp_mono; [exact Hm|]. intros r s' Hs'. by apply wp_ret. }
  assert (wp (run e) s (fun _ => bind_ok) \/ (run e s = Panic /\ bind_trouble s e)) as [Hwp|?]; [|left|by right].
  - destruct e.
    + destruct (bind_request_ok s l x pkt Hok Ha) as [Hw|[Hp Ht]]; [left; by apply Hdrop|right].
      split; [by apply bind_panic|done].
    + left. by apply Hdrop, stream_request_ok.
    + left. by apply visa_answer_ok.
    + left. by apply push_answer_ok.
    + left. by apply Hdrop, response_ok.
    + left. destruct Ha. by apply unbind_ok.
    + left. by apply Hdrop, add_ok.
    + by apply drop_ok.
    + destruct (revocation_ok s visa_id Hok) as [Hw|[Hp Ht]]; [left; by apply Hdrop|right].
      split; [by apply bind_panic|by apply records_stale].
  - apply wp_run in Hwp as ([] & s' & Hr & Hok'). by exists s'.
Qed.

(** ** A bind that succeeds *)

(** The answer to the requester. *)
Definition success_answer (p : PeerState slab) l x id tc w : Msg :=
  match peer_type p with
  | TAdapter => BindActorAddressSuccessResponse l x id tc (get_egress_a2a_dh_pubkey w)
  | _ => StreamIdSuccessResponse l x id
  end.

Definition installed s s' l x v e tether (p : PeerState slab) w tc : Prop :=
  exists id, 1 <= id <= PEER_FORWARDING_TABLE_SIZE /\ route (peer_table s) l id = None /\
    (forall j k, u32 j -> u32 k -> route (peer_table s') j k =
       if decide (j = l /\ k = id) then Some (mkPftPep (FE e tether) v) else route (peer_table s) j k) /\
    table (visa_table s') = alter (visa_link_forwarding_entry (FE l id)) v (table (visa_table s)) /\
    sent s' = sent s ++ [success_answer p l x id tc w].

Lemma route_link_pft t j k : route t j k = (y ← link_pft t j; pft_get y.2 k).
Proof. unfold route, link_pft. by destruct (get t j). Qed.

Lemma wp_route_installed s l x v e tether p w tc :
  table_ok (peer_table s) -> u32 l -> get (peer_table s) l = Some p -> pft_vacant_entry (pft p) = true ->
  peer_type p = TAdapter \/ peer_type p = TNode ->
  table (visa_table s) !! v = Some w -> get_tc w = Ret tc ->
  wp (install_route l x v e tether p) s (fun _ s' =>
    installed s s' l x v e tether p w tc /\ forall y, bind_at (peer_table s') l y = bind_at (peer_table s) l y).
Proof.
  intros Hok Hl Ep Evac Hty Ew Etc. destruct (ok_entry _ Hok l p Hl Ep) as [_ Hpft].
  destruct (pft_vacant (pft p) (mkPftPep (FE e tether) v) Hpft Evac) as (key & f & Hkey & Hins & Hk & Hnone & Hf & Hget).
  unfold install_route. rewrite Evac. cbn [negb]. apply wp_bind, wp_gets. rewrite Ew.
  apply wp_bind. eapply wp_lift; [exact Hkey|]. apply wp_bind, wp_modify.
  assert (forall m, success_answer p l x key tc w = m ->
    wp (_ ← update_peer l (set_pft f); send m)
      (set_visas (on_visa (visa_table s) v (visa_link_forwarding_entry (FE l key))) s) (fun _ s' =>
        installed s s' l x v e tether p w tc /\ forall y, bind_at (peer_table s') l y = bind_at (peer_table s) l y))
    as Hend.
  { intros m <-. apply wp_bind, wp_modify, wp_modify. split.
    - exists key. split_and!; [lia|lia| | |done|done]; unfold route; cbn.
      + by rewrite Ep.
      + intros j k Hj Hk'. rewrite get_update by done. destruct (decide (j = l)) as [-> |Hne].
        * rewrite Ep. cbn. rewrite Hget by done. destruct (decide (k = key)) as [-> |];
            [by rewrite decide_True|by rewrite decide_False by naive_solver].
        * by rewrite decide_False by naive_solver.
    - intros y. cbn. apply (same_dock_bind _ _ l y); [|done]. by apply quiet_same_dock. }
  unfold success_answer in Hend. destruct Hty as [Ety|Ety]; rewrite Ety; rewrite Ety in Hend.
  - apply wp_bind, wp_bind. eapply wp_lift; [exact Etc|]. apply wp_ret, wp_bind.
    eapply wp_lift; [exact Hins|]. by apply Hend.
  - apply wp_bind, wp_ret, wp_bind. eapply wp_lift; [exact Hins|]. by apply Hend.
Qed.

(** The request's state goes, then the route comes. *)
Lemma wp_granted_installed s l x h tether v e p w tc :
  Inv ex (Some (l, x, h)) (next_uid s) (peer_table s) -> u32 l -> u32 e ->
  get (peer_table s) l = Some p -> bind_at (peer_table s) l x = Some (AwaitingNextHopBind v e h) ->
  pft_vacant_entry (pft p) = true -> peer_type p = TAdapter \/ peer_type p = TNode ->
  table (visa_table s) !! v = Some w -> get_tc w = Ret tc ->
  wp (requested_tether_granted l x tether) s (fun _ s' =>
    installed s s' l x v e tether p w tc /\ bind_at (peer_table s') l x = None).
Proof.
  intros Hi Hl He Ep Eb Hvac Hty Ew Etc.
  assert (binds p !! x = Some (AwaitingNextHopBind v e h)) as Hb by (by apply (bind_at_get _ _ _ _ _ Ep)).
  destruct (i_dang _ _ _ _ Hi l x h eq_refl) as (_ & _ & Hno).
  apply wp_bind, wp_get_peer. rewrite Ep. unfold binds in Hb. rewrite Hb.
  apply wp_bind, not_awaiting; [intros q' Hq'; by apply (Hno e)|].
  apply wp_bind, wp_remove_bind_state. rewrite Eb. apply wp_bind. cbn [drop_state state_handle].
  apply (wp_drop_handle h ex None); [exact (Inv_request_del _ _ _ _ _ _ Hi)|].
  intros t2 Hi2 Hs2 Hr2. cbn [peer_table set_peers] in Hs2, Hr2. apply wp_bind, wp_get_peer. cbn [peer_table set_peers].
  assert (same_rest (peer_table s) t2) as Hall.
  { apply (same_rest_trans _ (update (peer_table s) l (set_request x None))); [by apply same_rest_update|done]. }
  pose proof (Hall l Hl) as Erest. unfold link_pft in Erest. rewrite Ep in Erest.
  destruct (get t2 l) as [p2|] eqn:Ep2; [|done]. cbn in Erest. injection Erest as Elsm Epft.
  apply wp_bind. eapply wp_lift; [reflexivity|].
  assert (peer_type p2 = peer_type p) as Ety by (unfold peer_type; by rewrite Elsm).
  eapply wp_mono.
  { eapply (wp_route_installed _ l x v e tether p2 w tc); cbn [peer_table set_peers visa_table];
      [by eapply i_table|done|done|by rewrite Epft|by rewrite Ety|done|done]. }
  intros [] s' ((id & Hid & Hrn & Hro & Hta & Hse) & Hbs). split.
  - assert (forall j k, u32 j -> route t2 j k = route (peer_table s) j k) as Hroute
      by (intros j k Hj; by rewrite !route_link_pft, Hall).
    exists id. cbn [peer_table set_peers visa_table sent] in *. split_and!; [lia|lia| | |done|].
    + by rewrite <- Hroute.
    + intros j k Hj Hk. rewrite Hro by done. by rewrite Hroute.
    + rewrite Hse. unfold success_answer. by rewrite Ety.
  - rewrite Hbs. cbn. rewrite (proj2 (Hs2 l Hl)), bind_at_request, decide_True by done. by destruct (live _ l).
Qed.

Lemma installed_from s t l x v e tether p p' w tc s' :
  same_rest (peer_table s) t -> u32 l -> peer_type p' = peer_type p ->
  installed (set_peers t s) s' l x v e tether p' w tc -> installed s s' l x v e tether p w tc.
Proof.
  intros Hall Hl Ety (id & Hid & Hrn & Hro & Hta & Hse).
  assert (forall j k, u32 j -> route t j k = route (peer_table s) j k) as Hroute
    by (intros j k Hj; by rewrite !route_link_pft, Hall).
  exists id. cbn [peer_table set_peers visa_table sent] in *. split_and!; [lia|lia| | |done|].
  - by rewrite <- Hroute.
  - intros j k Hj Hk. rewrite Hro by done. by rewrite Hroute.
  - rewrite Hse. unfold success_answer. by rewrite Ety.
Qed.

(** A next hop's consent completes the bind: when the back link of its
    transaction names a live requester, the visa is still there and the requester's
    forwarding table has room, a route to the tether is put under an identifier that
    was free, it alone, it is recorded with the visa, the requester is told the
    identifier and its request is over. *)
Theorem tether_installs_route s e h tether q l x v p w tc :
  bind_ok s -> u32 e -> get (peer_table s) e = Some q -> awaits q !! h = Some (l, x) ->
  get (peer_table s) l = Some p -> bind_at (peer_table s) l x = Some (AwaitingNextHopBind v e h) ->
  pft_vacant_entry (pft p) = true -> peer_type p = TAdapter \/ peer_type p = TNode ->
  table (visa_table s) !! v = Some w -> get_tc w = Ret tc ->
  exists s', install_tether e h tether s = Ret (inl tt, s') /\
    installed s s' l x v e tether p w tc /\ bind_at (peer_table s') l x = None.
Proof.
  intros Hok He Eq Ea Ep Eb Hvac Hty Ew Etc.
  assert (wp (install_tether e h tether) s (fun r s' => r = inl tt /\
    installed s s' l x v e tether p w tc /\ bind_at (peer_table s') l x = None)) as Hwp.
  { pose proof (ok_inv s Hok) as Hi. assert (Z.of_nat (size ex) < 2 ^ 62) as Hsz by lia.
    destruct (i_back _ _ _ _ Hi e q h l x He Eq Ea) as (Hl & _ & _).
    assert (live (peer_table s) l = true) as Hlv by (unfold live; by rewrite Ep).
    apply wp_bind, (wp_resolve_found ex e h q l x); [done|done|apply Hok|done|done|].
    intros d t1 _ [Hi1 _ _ _] Hs1 Hr1 Hd. rewrite (Hd Hlv) in *. clear d Hd.
    pose proof (Hr1 l Hl) as Erest. unfold link_pft in Erest. rewrite Ep in Erest.
    destruct (get t1 l) as [p1|] eqn:Ep1; [|done]. cbn in Erest. injection Erest as Elsm Epft.
    assert (peer_type p1 = peer_type p) as Ety by (unfold peer_type; by rewrite Elsm).
    apply wp_bind. eapply wp_mono.
    { apply (wp_granted_installed (set_peers t1 s) l x h tether v e p1 w tc); try done;
        [by rewrite (proj2 (Hs1 l Hl))|by rewrite Epft|by rewrite Ety]. }
    intros [] s' [Hin Hb]. apply wp_ret. split_and!; [done| |done]. by eapply installed_from. }
  apply wp_run in Hwp as (r & s' & Hr & -> & Hin & Hb). by exists s'.
Qed.

(** ** Where the assumptions fail *)

Lemma reject_in_flight_panics s l x r v e h p q :
  bind_ok s -> u32 l -> get (peer_table s) l = Some p ->
  bind_at (peer_table s) l x = Some (AwaitingNextHopBind v e h) ->
  get (peer_table s) e = Some q -> puid q = th_mgr h ->
  bind_reject l x r s = Panic.
Proof.
  intros Hok Hl Ep Eb Eq Eu. pose proof (ok_inv s Hok) as Hi.
  assert (binds p !! x = Some (AwaitingNextHopBind v e h)) as Hbx by (by apply (bind_at_get _ _ _ _ _ Ep)).
  destruct (i_req _ _ _ _ Hi l p x v e h Hl Ep Hbx) as (He & _ & Hback).
  destruct (Hback ltac:(done) e q He Eq Eu) as [_ Ha].
  unfold bind_reject. erewrite bind_run by reflexivity. cbv beta. rewrite Ep.
  erewrite bind_run by reflexivity. cbv beta. rewrite Ep. cbn [mbind option_bind]. unfold binds in Hbx. rewrite Hbx.
  apply bind_panic. unfold assert_not_awaiting. erewrite bind_run by reflexivity. cbv beta.
  cbn [peer_table set_peers]. rewrite get_update by done.
  destruct (decide (e = l)) as [-> |].
  - rewrite Ep. cbn [fmap option_fmap option_map]. rewrite Ep in Eq. simplify_eq. unfold awaits in Ha. cbn. by rewrite Ha.
  - rewrite Eq. unfold awaits in Ha. by rewrite Ha.
Qed.

(** A requester that uses the identifier of a request in flight again crashes
    the node: an adapter whose bind waits for the next hop sends a second bind request
    with the same identifier and an endpoint packet that is not classified, which is
    refused on the spot, and the assertion that the next hop has been heard fails. *)
Theorem reused_transaction_crashes s l x v e h p q l3 rest :
  bind_ok s -> u32 l -> l <> 0 -> get (peer_table s) l = Some p -> peer_type p = TAdapter ->
  bind_at (peer_table s) l x = Some (AwaitingNextHopBind v e h) ->
  get (peer_table s) e = Some q -> puid q = th_mgr h ->
  handle_bind_actor_address_request default_ft l x (l3 :: 0 :: 0 :: rest) s = Panic.
Proof.
  intros Hok Hl Hne Ep Ety Eb Eq Eu. unfold handle_bind_actor_address_request.
  assert (zlen (l3 :: 0 :: 0 :: rest) <? 3 = false) as -> by (apply Z.ltb_ge; unfold zlen; cbn [length]; lia).
  change (from_be (take 2 (drop 1 (l3 :: 0 :: 0 :: rest)))) with 0.
  assert (zlen (drop 3 (l3 :: 0 :: 0 :: rest)) <? 0 = false) as -> by (apply Z.ltb_ge; unfold zlen; lia).
  rewrite (proj2 (Z.eqb_neq l 0) Hne). erewrite bind_run by reflexivity. cbv beta. rewrite Ep, Ety.
  apply bind_panic. change (take (Z.to_nat 0) _) with (@nil Z).
  unfold bind_actor_address. erewrite bind_run by reflexivity.
  by eapply reject_in_flight_panics.
Qed.

(** Dropping a handle leaves requests and back links alone, consistent or not. *)
Lemma drop_handle_reqs t h t2 l : table_ok t -> u32 l -> PeerTable.drop_handle t h = Ret t2 ->
  live t2 l = live t l /\ forall x, bind_at t2 l x = bind_at t l x.
Proof.
  intros Hok Hl Hd. unfold PeerTable.drop_handle in Hd. destruct (upgrade t h) as [[j p]|] eqn:E; [|by outcome_inv].
  apply find_some in E as (Hj & _ & _); [|done]. apply bind_ret in Hd as ([m b] & _ & Hd). outcome_inv.
  by apply (same_reqs_mgr t j m Hj l Hl).
Qed.

(** An answer to a back link whose request is not there. *)
Lemma stale_back_link_panics s e h q l x :
  table_ok (peer_table s) -> u32 e -> u32 l -> get (peer_table s) e = Some q -> awaits q !! h = Some (l, x) ->
  live (peer_table s) l = true -> bind_at (peer_table s) l x = None ->
  resolve_next_hop_bind_originator e h s = Panic.
Proof.
  intros Hok He Hl Eq Ea Hlv Hb. unfold resolve_next_hop_bind_originator. erewrite bind_run by reflexivity.
  cbv beta. rewrite Eq. destruct (remove_awaiting e h s) as [[o s2]|] eqn:Er; [|by apply bind_panic].
  erewrite bind_run by exact Er. cbv beta.
  unfold remove_awaiting in Er. erewrite bind_run in Er by reflexivity. cbv beta in Er.
  erewrite bind_run in Er by reflexivity. cbv beta in Er. rewrite Eq in Er. cbn [mbind option_bind] in Er.
  unfold awaits in Ea. rewrite Ea in Er.
  set (t1 := update (peer_table s) e (set_back h None)).
  assert (table_ok t1) as Hok1 by (by apply update_ok; [|apply keeps_back|]).
  destruct (PeerTable.drop_handle t1 h) as [t2|] eqn:Ed; cycle 1.
  { rewrite bind_panic in Er; [done|]. unfold Asm.drop_handle. erewrite bind_run by reflexivity. cbv beta.
    apply bind_panic. unfold lift. cbn [peer_table set_peers]. change (update _ e _) with t1. by rewrite Ed. }
  assert (o = Some (l, x) /\ peer_table s2 = t2) as [-> E2].
  { unfold Asm.drop_handle in Er. unfold mbind, M_bind, gets, lift in Er. cbn [peer_table set_peers] in Er.
    change (update _ e _) with t1 in Er. rewrite Ed in Er. cbn in Er. by injection Er as <- <-. }
  destruct (drop_handle_reqs t1 h t2 l Hok1 Hl Ed) as [Hl2 Hb2].
  destruct (same_reqs_back (peer_table s) e h None He l Hl) as [Hl1 Hb1]. fold t1 in Hl1, Hb1.
  erewrite bind_run by reflexivity. cbv beta. rewrite E2.
  rewrite Hl1, Hlv in Hl2. rewrite <- Hb1, <- Hb2 in Hb. unfold live in Hl2. unfold bind_at in Hb.
  destruct (get t2 l) as [p2|]; [|done]. cbn in Hb. unfold binds in Hb. by rewrite Hb.
Qed.

(** A link identifier that is given out again while a next hop still owes an
    answer to a request of the peer that had it crashes the node: when the identifier
    freed by the requester goes to the next peer that is added, the back link names a
    request that does not exist, and the answer, whatever it is, fails the consistency
    assertion. *)
Theorem reused_link_crashes s s' e h q l x ty a i rnd :
  bind_ok s -> u32 e -> get (peer_table s) e = Some q -> awaits q !! h = Some (l, x) ->
  live (peer_table s) l = false -> add_peer ty a i rnd s = Ret (inl l, s') ->
  (forall tether, install_tether e h tether s' = Panic) /\ (forall reason, deny_tether e h reason s' = Panic).
Proof.
  intros Hok He Eq Ea Hlv Hadd. pose proof (i_table _ _ _ _ (ok_inv s Hok)) as Ht.
  destruct (i_back _ _ _ _ (ok_inv s Hok) e q h l x He Eq Ea) as (Hl & _ & _).
  assert (resolve_next_hop_bind_originator e h s' = Panic) as Hp; [|by split; intros ?; apply bind_panic].
  unfold add_peer in Hadd. erewrite bind_run in Hadd by reflexivity. cbv beta in Hadd.
  destruct (vacant_entry (peer_table s)) as [[]|] eqn:Ev; [|by inversion Hadd].
  destruct (vacant_key_link _ Ht Ev) as (k & Hvk & Hk & Hkey & Hku & Hk0 & Hnone). rewrite Hkey in Hadd.
  do 3 (erewrite bind_run in Hadd by reflexivity). cbv beta iota in Hadd.
  match type of Hadd with context [vacant_entry_insert _ ?pp] => set (p := pp) in Hadd end.
  destruct (vacant_entry_insert (peer_table s) p) as [[l' t']|] eqn:Ei; [|by rewrite bind_panic in Hadd].
  erewrite bind_run in Hadd by reflexivity. cbn in Hadd. injection Hadd as -> <-.
  destruct (insert_any_ok _ p l t' Ht Ev) as (_ & El & Ht' & Hget); [exact Hkey|apply pft_ok_new|done|].
  assert (e <> l) as Hne by (intros ->; unfold live in Hlv; by rewrite Eq in Hlv).
  apply (stale_back_link_panics _ e h q l x); cbn; try done.
  - by rewrite Hget, decide_False by done.
  - unfold live. by rewrite Hget, decide_True by done.
  - unfold bind_at. by rewrite Hget, decide_True by done.
Qed.

End events.

(** ** Unbinding *)
Section unbinding.
Context `{VisaEnv} `{TunCtl} `{FlowTables} `{Slab slab}.
Implicit Types (s : Assembly slab) (t : PeerTable slab) (l : Z).

Lemma removing_absent_panics t es (e : ForwardingEntry) p :
  table_ok t -> Forall entry_u32 es -> e ∈ es -> get t (fe_link e) = Some p ->
  pft_get (pft p) (fe_stream e) = None -> remove_routes t es = Panic.
Proof.
  revert t p. induction es as [|f es IH]; intros t p Hok Hu Hin Ep Eg; [by apply not_elem_of_nil in Hin|].
  apply list.Forall_cons in Hu as [Hf Hu]. cbn [remove_routes].
  destruct (decide (e = f)) as [-> |Hne].
  { unfold remove_route. rewrite Ep. by rewrite (pft_remove_absent _ _ Eg). }
  apply elem_of_cons in Hin as [?|Hin]; [done|].
  destruct (remove_route t f) as [t1|] eqn:Er; [|done]. rewrite bind_Ret.
  destruct (remove_route_spec _ _ _ Hok Hf Er) as (Hok1 & Hs1 & _ & _ & Hg1).
  rewrite Forall_forall in Hu. destruct (Hu e Hin) as [Hel Hes]. specialize (Hs1 _ Hel). rewrite Ep in Hs1.
  destruct (get t1 (fe_link e)) as [p1|] eqn:Ep1; [|done].
  apply (IH t1 p1); [done|by apply Forall_forall|done|done|].
  specialize (Hg1 _ _ Hel Hes). rewrite decide_False in Hg1 by (destruct e; cbn; congruence).
  unfold route in Hg1. rewrite Ep, Ep1 in Hg1. cbn in Hg1. congruence.
Qed.

Lemma swap_remove_other (es : list ForwardingEntry) i (e f : ForwardingEntry) :
  es !! i = Some e -> f ∈ es -> f <> e -> f ∈ swap_remove es i.
Proof.
  intros Hi Hin Hne. unfold swap_remove. destruct (last es) as [z|] eqn:E; [|done].
  apply last_Some in E as [es' ->]. rewrite length_app. cbn [length]. replace (length es' + 1 - 1)%nat with (length es') by lia.
  assert (forall j : nat, (j < length es')%nat -> f ∈ take (length es') (<[i:=z]> (es' ++ [z])) \/ (<[i:=z]> (es' ++ [z])) !! j <> Some f) as Hat.
  { intros j Hj. destruct (decide ((<[i:=z]> (es' ++ [z])) !! j = Some f)) as [Hf|]; [left|by right].
    apply list_elem_of_lookup. exists j. by rewrite lookup_take_lt by done. }
  apply list_elem_of_lookup in Hin as [j Hj]. assert (j <> i) by congruence.
  apply lookup_app_Some in Hj as [Hj|[Hge Hj]].
  - destruct (Hat j) as [?|Hn]; [by eapply lookup_lt_Some|done|]. destruct Hn.
    rewrite list_lookup_insert_ne by done. rewrite lookup_app_l; [done|by eapply lookup_lt_Some].
  - apply list_lookup_singleton_Some in Hj as [Hj ->].
    assert (i < length es')%nat as Hlt by (apply lookup_lt_Some in Hi; rewrite length_app in Hi; cbn in Hi; lia).
    destruct (Hat i Hlt) as [?|Hn]; [done|]. destruct Hn. apply list_lookup_insert_eq. rewrite length_app. cbn. lia.
Qed.

(** Unbinding a stream leaves a record that crashes the node later:
    [unbind_stream] takes the route out of the requester's forwarding table, but takes
    the next hop's entry off the visa instead of the requester's, which is the one
    that was recorded, so that withdrawing the visa's routes removes a route that is
    gone. *)
Theorem unbind_then_revoke_crashes s l k p pep w :
  table_ok (peer_table s) -> streams_u32 (visa_table s) -> u32 l -> u32 k ->
  get (peer_table s) l = Some p -> pft_get (pft p) k = Some pep ->
  table (visa_table s) !! pep_visa_id pep = Some w -> FE l k ∈ streams w -> next_hop pep <> FE l k ->
  exists s', unbind_stream l k s = Ret (tt, s') /\ handle_revocation (pep_visa_id pep) s' = Panic.
Proof.
  intros Hok Hu Hl Hk Ep Eg Ew Hin Hne.
  destruct (pft_remove_present (pft p) k) as [f Hf]; [by eexists|].
  destruct (pft_remove_ret _ _ _ Hf Hk) as (_ & Hpf & Hgf).
  unfold unbind_stream. erewrite bind_run by reflexivity. cbv beta. rewrite Ep, Eg, Hf.
  do 4 (erewrite bind_run by reflexivity). cbv beta. eexists. split; [reflexivity|].
  unfold handle_revocation. do 2 (erewrite bind_run by reflexivity). cbv beta. apply bind_panic.
  cbn [visa_table peer_table set_visas set_sent set_peers]. unfold lift, revoke.
  set (i := pep_visa_id pep) in *. unfold unlink_forwarding_entry. rewrite Ew. cbn [fst].
  unfold revoke_no_rebuild. cbn [table on_visa]. rewrite lookup_alter_eq, Ew. cbn [fmap option_fmap option_map].
  unfold remove_forwarding_entries. set (w' := (visa_unlink_forwarding_entry (next_hop pep) w).1).
  assert (FE l k ∈ streams w' /\ Forall entry_u32 (streams w')) as [Hin' Hu'].
  { unfold w', visa_unlink_forwarding_entry. specialize (Hu i w Ew).
    destruct (list_find _ _) as [[n z]|] eqn:Ef; cbn; [|done]. apply list_find_Some in Ef as (Hn & <- & _).
    split; [by eapply swap_remove_other|by apply swap_remove_forall]. }
  rewrite (removing_absent_panics _ (streams w') (FE l k) (set_pft f p)); [done| |done|done| |].
  - apply update_ok; [done| |done]. apply keeps_pft, Hpf. by apply (ok_entry _ Hok l p Hl Ep).
  - cbn [fe_link]. rewrite get_update, decide_True by done. by rewrite Ep.
  - cbn [fe_stream pft set_pft]. by rewrite Hgf, decide_True.
Qed.

End unbinding.
End NodeBindThms.
