(* ===== verification/NodeBindExample.v ===== *)
(** * Binding flows: a node with two adapters

    A concrete node on which the theorems of [NodeBindThms] apply: two adapters
    attached, a visa from the first to the second, and the bind of a flow waiting for
    the second adapter's answer. *)
From Stdlib Require Import ZArith Lia.
From stdpp Require Import base tactics option list numbers gmap gmultiset.
From S2P Require Import Prelude Slab NetDefs Classifier Tc ForwardingTables TxnMgr Auth LinkTypes PeerTable PeerTableProps VisaTable VisaTableProps AddressPool Assembly NodeBind NodeBindInv NodeBindProps NodeBindThms.
From stdpp Require Import list.
Import ForwardingTables PeerTable PeerTableProps VisaTable VisaTableProps Asm NodeBind NodeBindInv NodeBindProps NodeBindThms.

Local Open Scope Z_scope.

Module NodeBindExample.

#[local] Existing Instance iana.
#[local] Existing Instance Auth.toy_crypto.
#[local] Existing Instance toy_visas.

(** A TUN device that has every address and takes every route. *)
Definition toy_tun : TunCtl := {|
  Tun := unit;
  tun_set_carrier t _ := (true, t);
  tun_add_address t _ := (true, t);
  tun_clear_address t _ := (true, t);
  tun_has_address _ _ := Present true;
  tun_add_route t _ _ := (true, t);
  tun_route_owner_conflict t _ _ := (NoOwner, t);
  ZPR_INTERNAL_NETWORK := replicate 16 0;
  ZPRNET_PREFIX_LEN := 32
|}.
#[local] Existing Instance toy_tun.
Definition toy_flows : FlowTables.
Proof. refine {| Elt := unit; elt_clear e := Ret e; elt_ok _ := True |}. intros e _. by exists e. Defined.
#[local] Existing Instance toy_flows.

Notation asm := (Assembly FirstFit.table).
Notation EX := (∅ : gmultiset TxnHandle).

Definition no_ft : FiveTuple := mkFT [] [] 0 0 0 0.
Definition ascii_only (l : list Z) : bool := forallb (fun c => c <? 128) l.

Definition run_to {A} (m : M FirstFit.table A) (s : asm) : asm :=
  match m s with Ret (_, s') => s' | Panic => s end.

Definition start : asm :=
  mkAsm Node PeerTable.new
    (match insert_visa VisaTable.new (toy_visa 1000 5) with Ret (t, _) => t | Panic => VisaTable.new end)
    1 None [] false None 0 [] true [] None None [] (tt : Tun) (tt : Elt) dlt_new [] [] 0 false.

Definition adapter_address (k : Z) : list Z * Z := (replicate 16 k, 5000).

Definition with_one : asm := run_to (add_peer LinkTypes.NodeToAdapter (adapter_address 21) (adapter_address 9) []) start.
Definition with_two : asm := run_to (add_peer LinkTypes.NodeToAdapter (adapter_address 22) (adapter_address 9) []) with_one.
(** The second adapter has been granted the visa's destination address. *)
Definition docked : asm :=
  set_peers (update (peer_table with_two) 2
    (on_link (LinkTypes.on_fsm (LinkTypes.set_actor_addresses [replicate 16 2])))) with_two.
Definition bound : asm := run_to (requested_visa_granted 1 77 1000) docked.

Lemma ex_small : Z.of_nat (size EX) < 2 ^ 61.
Proof. reflexivity. Qed.

Lemma ex_medium : Z.of_nat (size EX) < 2 ^ 62.
Proof. reflexivity. Qed.

Lemma start_ok : bind_ok EX start.
Proof.
  assert (forall l, get (peer_table start) l = None) as Hn by (intros l; apply lookup_empty).
  split; cbn [next_uid start].
  - split; [exact new_ok|..]; intros; try done; rewrite Hn in *; congruence.
  - lia.
  - multiset_solver.
  - destruct (visas_ok_insert (VisaTable.new (H:=toy_visas)) (toy_visa 1000 5)) as (vt & Hi & Hv).
    + split; intros i v Hv; cbn in Hv; by apply lookup_empty_Some in Hv.
    + split; [done|by eexists].
    + by injection Hi as <-.
  - constructor.
  - intros l x Hin. by apply not_elem_of_nil in Hin.
Qed.

Lemma run_to_wp {A} (m : M FirstFit.table A) (s : asm) (P : asm -> Prop) :
  wp m s (fun _ => P) -> P (run_to m s).
Proof. unfold wp, run_to. by destruct (m s) as [[a s']|]. Qed.

(** A check of every peer, by evaluation. *)
Lemma all_peers (f : PeerState FirstFit.table -> bool) (s : asm) e q :
  forallb (fun kq => f kq.2) (map_to_list (FirstFit.entries (peer_slab (peer_table s)))) = true ->
  get (peer_table s) e = Some q -> f q = true.
Proof.
  intros Hf Hq. rewrite forallb_forall in Hf. apply (Hf (slot e, q)).
  apply list_elem_of_In, elem_of_map_to_list. exact Hq.
Qed.

Definition waits_for_none (q : PeerState FirstFit.table) : bool := bool_decide (awaits q = ∅).
Definition can_open (q : PeerState FirstFit.table) : bool :=
  match TxnMgr.try_open_raw (txn_mgr q) with Some _ => true | None => false end.

Lemma fresh_link (s : asm) l :
  forallb (fun kq => waits_for_none kq.2) (map_to_list (FirstFit.entries (peer_slab (peer_table s)))) = true ->
  keys s = [] -> unreferenced s l.
Proof.
  intros Hf Hk. split.
  - intros e q h x _ Hq. apply (all_peers _ _ _ _ Hf), bool_decide_eq_true in Hq. by rewrite Hq, lookup_empty.
  - intros x. rewrite Hk. apply not_elem_of_nil.
Qed.

Lemma with_one_ok : bind_ok EX with_one.
Proof.
  apply (run_to_wp _ _ (bind_ok EX)), (add_ok EX); [exact start_ok|]. split_and!; [|by right|done].
  intros l _. by apply fresh_link.
Qed.
Lemma with_two_ok : bind_ok EX with_two.
Proof.
  apply (run_to_wp _ _ (bind_ok EX)), (add_ok EX); [exact with_one_ok|]. split_and!; [|by right|done].
  intros l _. by apply fresh_link; [vm_compute|].
Qed.
Lemma address_ok (s : asm) l f : bind_ok EX s -> u32 l ->
  bind_ok EX (set_peers (update (peer_table s) l (on_link (LinkTypes.on_fsm (LinkTypes.set_actor_addresses f)))) s).
Proof.
  intros Hok Hl. apply (dock_ok _ s); try done; [| |apply Hok].
  - apply update_ok; [done|done|apply Hok].
  - by apply quiet_same_dock.
Qed.
Lemma docked_ok : bind_ok EX docked.
Proof. apply address_ok; [exact with_two_ok|unfold u32; lia]. Qed.

Lemma docked_room : room (peer_table docked).
Proof.
  intros e q _ Hq. apply (all_peers can_open) in Hq; [|by vm_compute]. unfold can_open in Hq.
  by destruct (TxnMgr.try_open_raw _).
Qed.
Lemma bound_ok : bind_ok EX bound.
Proof.
  apply (run_to_wp _ _ (bind_ok EX)). apply (wp_visa_granted EX ex_medium docked); [done|done|exact docked_room| |].
  - apply mid_refl, docked_ok.
  - intros s' Hm Ht. apply (mid_ok _ docked 1 77); [exact docked_ok|done| |done|done]. apply not_elem_of_nil.
Qed.

Definition handle : TxnHandle := mkTxn 2 0.

Definition peer_at (s : asm) (l : Z) : PeerState FirstFit.table :=
  match get (peer_table s) l with Some p => p | None => example_peer end.

Lemma bound_waits : awaits (peer_at bound 2) !! handle = Some (1, 77).
Proof. vm_compute. reflexivity. Qed.

Lemma bound_peer1 : get (peer_table bound) 1 = Some (peer_at bound 1).
Proof. reflexivity. Qed.
Lemma bound_peer2 : get (peer_table bound) 2 = Some (peer_at bound 2).
Proof. reflexivity. Qed.
Lemma bound_request : bind_at (peer_table bound) 1 77 = Some (AwaitingNextHopBind 1000 2 handle).
Proof. vm_compute. reflexivity. Qed.

(** Whatever the second adapter answers, the node goes on. *)
Lemma node_bind_consistent_witness :
  exists s', run no_ft ascii_only (EResponse 2 0 9 [0; 0]) bound = Ret (tt, s') /\ bind_ok EX s'.
Proof.
  destruct (node_bind_consistent no_ft ascii_only EX ex_small (EResponse 2 0 9 [0; 0]) bound bound_ok) as [Hr|[_ Ht]];
    [unfold admissible, u32; lia|exact Hr|inversion Ht].
Defined.

Lemma tether_installs_route_witness :
  exists s', install_tether 2 handle 9 bound = Ret (inl tt, s') /\ bind_at (peer_table s') 1 77 = None.
Proof.
  destruct (table (visa_table bound) !! 1000) as [w|] eqn:Ew; [|by vm_compute in Ew].
  destruct (proj2 (ok_visas _ _ bound_ok) 1000 w Ew) as [tc Etc].
  destruct (tether_installs_route EX ex_small bound 2 handle 9 (peer_at bound 2) 1 77 1000 (peer_at bound 1) w tc)
    as (s' & Hr & _ & Hb); [exact bound_ok|unfold u32; lia|exact bound_peer2|exact bound_waits|exact bound_peer1|
      exact bound_request|vm_compute; reflexivity|left; vm_compute; reflexivity|exact Ew|exact Etc|].
  exists s'. split; [exact Hr|exact Hb].
Defined.

Lemma reused_transaction_crashes_witness :
  handle_bind_actor_address_request no_ft 1 77 [4; 0; 0] bound = Panic.
Proof.
  apply (reused_transaction_crashes no_ft EX bound 1 77 1000 2 handle (peer_at bound 1) (peer_at bound 2) 4 []);
    [exact bound_ok|unfold u32; lia|lia|exact bound_peer1|vm_compute; reflexivity|exact bound_request|
     exact bound_peer2|vm_compute; reflexivity].
Defined.

(** The first adapter goes and another takes its link identifier. *)
Definition dropped : asm := run_to (drop_peer 1) bound.
Lemma dropped_ok : bind_ok EX dropped.
Proof.
  apply (run_to_wp _ _ (bind_ok EX)).
  destruct (drop_ok EX bound 1 bound_ok) as [Hw|[_ Ht]]; [unfold u32; lia|exact Hw|exfalso].
  inversion Ht as [| |l _ (e & Hin & _)]; subst.
  assert (to_revoke (visa_table bound) 1 = []) as E by (vm_compute; reflexivity). rewrite E in Hin.
  by apply not_elem_of_nil in Hin.
Qed.
Definition replaced : asm := run_to (add_peer LinkTypes.NodeToAdapter (adapter_address 23) (adapter_address 9) []) dropped.

Lemma reused_link_crashes_witness : install_tether 2 handle 9 replaced = Panic.
Proof.
  refine (proj1 (reused_link_crashes EX dropped replaced 2 handle (peer_at dropped 2) 1 77
    LinkTypes.NodeToAdapter (adapter_address 23) (adapter_address 9) [] _ _ _ _ _ _) 9);
    [exact dropped_ok|unfold u32; lia|vm_compute; reflexivity..].
Defined.

(** A node with a route, recorded with its visa. *)
Definition routed : asm := set_peers routed_table (set_visas example_visas start).

Lemma unbind_then_revoke_crashes_witness :
  exists s', unbind_stream 1 1 routed = Ret (tt, s') /\ handle_revocation 1000 s' = Panic.
Proof.
  destruct (table example_visas !! 1000) as [w|] eqn:Ew; [|by vm_compute in Ew].
  destruct (get routed_table 1) as [p|] eqn:Ep; [|by vm_compute in Ep].
  apply (unbind_then_revoke_crashes routed 1 1 p example_pep w);
    [exact routed_table_ok|exact example_u32|unfold u32; lia|unfold u32; lia|exact Ep| |exact Ew| |discriminate].
  - assert (p = set_pft example_pft example_peer) as -> by (vm_compute in Ep; vm_compute; congruence).
    vm_compute. reflexivity.
  - destruct (example_streams 1000 w Ew) as [_ ->]. by left.
Defined.

End NodeBindExample.
