(* ===== verification/LinkFsm.v ===== *)
(** * The link state machine ([link_state.rs], [km_multiplexor.rs])

    The event handlers of a link, over the assembly.  [self] is the link of the peer
    [link_id]: a handler runs while its caller holds the entry of the peer table, so
    reading a link that is not there is no behaviour of the code and a panic here.
    What a handler reads of the outside world is an [Env]: the wall clock and the
    monotonic clock in nanoseconds, random bytes, whether an authentication agent's
    channel still has a receiver, what setting up key management returned, and
    whether the list of authentication services is still valid.  A task that begins
    by sending a packet counts as having sent it when it is spawned. *)
From Stdlib Require Import ZArith Lia.
From stdpp Require Import base tactics option list numbers gmap.
From S2P Require Import Prelude Slab NetDefs Tc ForwardingTables TxnMgr Auth LinkTypes PeerTable VisaTable AddressPool Assembly.
Import ForwardingTables Auth LinkTypes PeerTable Asm.

Local Open Scope Z_scope.

Record Env := mkEnv {
  now : Z;
  instant : Z;
  nonce_rnd : list Z;
  pool_rnd : list Z;
  agent_alive : Z -> bool;
  noise_new : option KmHandle;
  services_valid : bool
}.

Inductive LinkEvent :=
| Start
| KeyingDone
| ReceivedHelloRequest
| AssignedAAA (addr : list Z)
| ReceivedHelloResponse (code : Z) (aaa_addr : option (list Z)) (idps : option (list OidcIdpInfo))
| ReceivedInitAuth (bootstrap_flag : bool) (challenge : option ZdpInitAuthenticationPayload)
| ReceivedInitAuthAck
| ReceivedInitAuthTimeout
| ReceivedRenewAuthRequest (challenge : ZdpInitAuthenticationPayload)
| ReceivedRenewAuthResponse (challenge : list Z) (result : list Z + Z)
| ReceivedAcquireZprAddressRequest (addrs : option (list (list Z))) (blob : list Z)
| ReceivedGrantZprAddressRequest (result : list (list Z) + Z)
| AuthenticationSuccess (blobs : list AuthBlob)
| AuthenticationFailure (reason : AuthFailureReason)
| ReceivedAuthorizeResponse (zpr_addr : list Z)
| ReceivedAuthorizeFailure (code : ErrorCode)
| ReceivedKeepAliveResponse
| ReceivedTerminateLink (reason : Z)
| ReceivedTerminateAck
| ReceivedDisconnectAck
| Close (reason : Z)
| CloseDone
| EventError
| Timeout (clock : Z).

(** The order of [IpAddr]: by family, then by octets. *)
Fixpoint lex_le (a b : list Z) : bool :=
  match a, b with
  | [], _ => true
  | _ :: _, [] => false
  | x :: a, y :: b => (x <? y) || ((x =? y) && lex_le a b)
  end.
Definition addr_le (a b : list Z) : bool :=
  (zlen a <? zlen b) || ((zlen a =? zlen b) && lex_le a b).
(** [sort] on addresses. *)
Fixpoint sort_insert (a : list Z) (l : list (list Z)) : list (list Z) :=
  match l with
  | [] => [a]
  | b :: r => if addr_le a b then a :: l else b :: sort_insert a r
  end.
Definition sort_addrs (l : list (list Z)) : list (list Z) := foldr sort_insert [] l.

Module LinkFsm.

Section fsm.
Context `{NetDefs} `{Crypto} `{VisaEnv} `{TunCtl} `{FlowTables} `{SlabOps slab}.
(** The subject name of the visa service's adapter. *)
Context (VISA_SERVICE_DN : list Z).
Context (env : Env) (link_id : Z).

Notation M := (M slab).
Notation R := (unit + LinkStateError)%type.

Definition ok : M R := mret (inl tt).
Definition err (e : LinkStateError) : M R := mret (inr e).
(** [if b { m }]. *)
Definition when (b : bool) (m : M unit) : M unit := if b then m else mret tt.

(** ** The link's own state *)

Definition self : M LinkStateWrapper :=
  p ← get_peer link_id; lift (unwrap (link_state_machine <$> p)).
Definition upd_fsm (f : LinkStateMachine -> LinkStateMachine) : M unit :=
  update_peer link_id (on_link (on_fsm f)).
Definition upd_data (f : LinkData -> LinkData) : M unit :=
  update_peer link_id (on_link (on_data f)).
Definition to_state (st : LinkState) : M unit := upd_fsm (set_state st).
Definition set_timeout (duration : Z) : M unit := upd_fsm (set_timeout_callback duration).
Definition record_failure (reason : AuthFailureReason) : M unit :=
  update_peer link_id (on_link (record_auth_failure reason)).
Definition renewal_failed (reason : AuthFailureReason) : M unit :=
  update_peer link_id (on_link (finish_renewal_failure reason)).
Definition now_secs : Z := now env / 1000000000.

(** [process_link_state_event] on this link, the handler of the event being given. *)
Definition via_table (handler : M R) : M R :=
  p ← get_peer link_id;
  match p with None => err (NotFound link_id) | Some _ => handler end.

Definition is_vs_link : M bool :=
  t ← gets peer_table; mret (bool_decide (lookup_special_peer t VisaServiceAdapter = Some link_id)).

(** An operation of the TUN device. *)
Definition tun_op {A} (f : Tun -> A * Tun) : M A :=
  t ← gets tun; let '(a, t') := f t in _ ← modify (set_tun t'); mret a.
Definition set_carrier (up : bool) : M unit :=
  r ← tun_op (fun t => tun_set_carrier t up); assert r.

(** ** Closing *)

Definition continue_close (reason : Z) : M R :=
  _ ← to_state Closing;
  _ ← set_timeout DEFAULT_TERMINATE_TIMEOUT;
  _ ← send (TerminateLink link_id reason);
  _ ← spawn (TerminateTask link_id);
  ok.

(** Deregistering is asked for at the only call. *)
Definition maybe_disconnect_visa_service_client (reason : Z) : M R :=
  _ ← when (reason =? TerminateReason.Shutdown) (upd_fsm (set_shutting_down true));
  lk ← self;
  vs ← is_vs_link;
  conn ← gets vsconn;
  if bool_decide (link_type lk = NodeToAdapter) && vs then
    if negb (reason =? TerminateReason.Shutdown) then
      _ ← when conn (spawn RestartVsConnTask);
      continue_close reason
    else if (conn : bool) then
      _ ← to_state (Disconnecting reason);
      _ ← spawn (StopVsConnTask link_id);
      ok
    else continue_close reason
  else continue_close reason.

Definition initiate_close (reason : Z) : M R :=
  lk ← self;
  if is_internal lk then err InvalidOperation
  else
    auto ← gets auto_connect;
    _ ← when (bool_decide (link_type lk = AdapterToNode) && negb auto
                && bool_decide (get_state lk = Error)
                && match get_last_auth_failure lk with None => true | Some _ => false end)
          (record_failure (LinkFailed reason));
    maybe_disconnect_visa_service_client reason.

(** [set_state(Error)] before closing. *)
Definition fail_close (reason : Z) : M R := _ ← to_state Error; initiate_close reason.

Definition process_error_response : M R := initiate_close TerminateReason.Other.

Definition process_disconnect_ack : M R :=
  lk ← self;
  match link_type lk, get_state lk with
  | NodeToAdapter, Disconnecting reason => continue_close reason
  | _, _ => err InvalidOperation
  end.

Fixpoint spawn_disconnects (addrs : list (list Z)) : M unit :=
  match addrs with [] => mret tt | a :: r => _ ← spawn (ActorDisconnectTask a); spawn_disconnects r end.

Definition deregister_actor_addresses : M unit :=
  vs ← is_vs_link;
  if (vs : bool) then mret tt
  else
    lk ← self;
    _ ← upd_fsm (set_actor_addresses []);
    spawn_disconnects (actor_addresses (locked_fsm lk)).

(** A failure to release the address is only logged. *)
Definition release_aaa : M unit :=
  lk ← self;
  match aaa_address (locked_data lk) with
  | None => mret tt
  | Some a =>
      _ ← upd_data (set_aaa_address None);
      pool ← gets address_pool;
      match pool with
      | None => mret tt
      | Some p =>
          match AddressPool.release_address p a with
          | inl p' => modify (set_address_pool (Some p'))
          | inr _ => mret tt
          end
      end
  end.

Definition clear_flows : M unit :=
  e ← gets elt; e' ← lift (elt_clear e); _ ← modify (set_elt e');
  d ← gets dlt; d' ← lift (dlt_clear d); modify (set_dlt d').

Definition clean_up_link_state : M unit :=
  lk ← self;
  match get_state lk with
  | Closing | Resetting =>
      _ ← release_aaa;
      _ ← modify (fun s => set_peers (clear_peer_state (peer_table s) link_id) s);
      _ ← match link_type lk with
          | AdapterToNode => _ ← set_carrier false; clear_flows
          | NodeToAdapter => deregister_actor_addresses
          | _ => mret tt
          end;
      spawn (DropLinkTask link_id)
  | _ => mret tt
  end.

Definition setup_restart : M unit := spawn (RestartTask link_id).

Definition is_activation_failure (r : option AuthFailureReason) : bool :=
  match r with Some ActivationFailed => true | _ => false end.

Definition complete_close : M unit :=
  lk ← self;
  match get_state lk, link_type lk with
  | Closing, NodeToAdapter | Resetting, _ => drop_peer link_id
  | Closing, _ =>
      _ ← upd_fsm (fun f => set_state Inactive (set_silent false f));
      if shutting_down (locked_fsm lk) then drop_peer link_id
      else
        auto ← gets auto_connect;
        if bool_decide (link_type lk = AdapterToNode) && negb auto then mret tt
        else if bool_decide (link_type lk = AdapterToNode)
                  && is_activation_failure (get_last_auth_failure lk) then mret tt
        else setup_restart
  | _, _ => mret tt
  end.

(** Up to the point where it waits for the tasks spawned. *)
Definition reset : M unit :=
  _ ← to_state Resetting;
  _ ← send (TerminateLink link_id TerminateReason.Reset);
  clean_up_link_state.

Definition process_terminate_ack : M R :=
  lk ← self;
  match get_state lk with
  | Closing => _ ← upd_fsm cancel_timeout; _ ← clean_up_link_state; ok
  | st => err (UnexpectedTransition st)
  end.

Definition process_terminate_link (reason : Z) : M R :=
  _ ← to_state Closing; _ ← clean_up_link_state; ok.

(** ** Starting *)

Definition reset_session : M unit :=
  p ← get_peer link_id;
  match p with
  | None => mret tt
  | Some p =>
      '(p', _) ← lift (reset_zdpr_session p);
      update_peer link_id (fun q => set_session (session p') (set_zdpr_recv (zdpr_recv p') q))
  end.

(** [add_adapter_link] and [add_node_link]: [noise_new] is what [KmNoise::new] and
    starting its manager gave. *)
Definition add_link : M unit :=
  h ← lift (unwrap (noise_new env));
  p ← get_peer link_id;
  _ ← assert match p with Some _ => true | None => false end;
  t ← gets peer_table;
  let '(t', r) := set_km_handle t link_id h in
  _ ← put_peers t';
  match r with inl _ => mret tt | inr _ => panic end.

Definition process_start : M R :=
  _ ← assert (negb (link_id =? LINK_ID_UNKNOWN));
  lk ← self;
  if negb (bool_decide (get_state lk = Inactive)) then err (UnexpectedTransition (get_state lk))
  else
    _ ← upd_fsm (fun f => set_state Keying (set_status Up f));
    _ ← upd_data (set_last_auth_failure None);
    _ ← reset_session;
    match link_type lk with
    | AdapterToNode => _ ← add_link; ok
    | NodeToNode => _ ← to_state Error; err OperationNotSupportedYet
    | NodeToAdapter => _ ← add_link; _ ← set_timeout NODE_KEYING_TIMEOUT; ok
    | Internal => err InvalidOperation
    end.

Fixpoint assign_special_names (names : list SpecialPeerName) : M unit :=
  match names with
  | [] => mret tt
  | n :: r =>
      t ← gets peer_table;
      _ ← put_peers (assign_special_name t n link_id).1;
      assign_special_names r
  end.

Definition process_keying_done : M R :=
  lk ← self;
  if negb (bool_decide (get_state lk = Keying)) then err (UnexpectedTransition (get_state lk))
  else
    p ← get_peer link_id;
    match p with
    | None => err (NotFound link_id)
    | Some p =>
        match get_established_transport_association p with
        | None => err (UnexpectedTransition (get_state lk))
        | Some sa =>
            _ ← match peer_cert sa with
                | Some c =>
                    if cert_verified c then
                      assign_special_names
                        (special_peer_names_from_subject_der VISA_SERVICE_DN
                           (default [] (cert_subject_der c)))
                    else mret tt
                | None => mret tt
                end;
            _ ← to_state Helloing;
            if bool_decide (link_type lk = AdapterToNode) then
              k ← gets a2a_pubkey;
              _ ← send (HelloRequest link_id k);
              _ ← set_timeout LINK_HELLO_TIMEOUT;
              ok
            else ok
        end
    end.

(** ** Hello *)

Definition get_available_oidc_idps : M (list OidcIdpInfo) :=
  svcs ← gets vs_auth_services;
  mret (if services_valid env
        then omap (fun s => if is_oidc s then oidc s else None) svcs else []).

(** The key is that of the peer's entry; without an entry the error event goes
    nowhere. *)
Definition send_init_authentication_request : M unit :=
  p ← get_peer link_id;
  match p with
  | None => mret tt
  | Some p =>
      _ ← send (InitAuthenticationRequest link_id
                  (payload_new (auth_key p) now_secs (nonce_rnd env)));
      spawn (InitAuthTask link_id)
  end.

Definition process_assigned_aaa (aaa_addr : list Z) : M R :=
  _ ← upd_data (set_aaa_address (Some aaa_addr)); ok.

Definition allocate_aaa : M (option (list Z)) :=
  pool ← gets address_pool;
  match pool with
  | None => mret None
  | Some p =>
      '(p', a) ← lift (unwrap (AddressPool.get_aaa_address p (pool_rnd env)));
      _ ← modify (set_address_pool (Some p'));
      mret (Some a)
  end.

Definition process_hello_request : M R :=
  lk ← self;
  match link_type lk, get_state lk with
  | NodeToNode, Helloing => _ ← to_state Active; ok
  | NodeToAdapter, Helloing =>
      aaa ← allocate_aaa;
      _ ← match aaa with Some a => process_assigned_aaa a | None => ok end;
      idps ← get_available_oidc_idps;
      _ ← send (HelloSuccessResponse link_id idps aaa);
      _ ← to_state WaitForAcquireZprAddress;
      _ ← send_init_authentication_request;
      ok
  | AdapterToNode, _ => err InvalidOperation
  | _, st => err (UnexpectedTransition st)
  end.

(** ** Authentication, adapter side *)

Definition process_authentication_failure (reason : AuthFailureReason) : M R :=
  _ ← record_failure reason; fail_close TerminateReason.Other.

Definition process_authentication_success (blobs : list AuthBlob) : M R :=
  lk ← self;
  match get_state lk with
  | RegisterAA | WaitForUserAuth =>
      _ ← update_peer link_id (on_link (set_authenticated_namespaces (blob_namespaces blobs)));
      addrs ← gets zpr_addr;
      _ ← send (AcquireZprAddressRequest link_id addrs (encode_blobs blobs));
      _ ← to_state RegisterAA;
      _ ← set_timeout VS_AUTHENTICATION_TIMEOUT;
      ok
  | _ => ok
  end.

Definition do_oidc_authenticate (agent : Z) (i : OidcIdpInfo) (p : ZdpInitAuthenticationPayload)
    (base_blobs : list AuthBlob) (attempt_clock : Z) : M unit :=
  if agent_alive env agent then
    spawn (OidcTask link_id attempt_clock (issuer i) (challenge_bytes p) base_blobs)
  else _ ← via_table (process_authentication_failure NoAgent); mret tt.

(** The bootstrap path, with the device's key when there is one. *)
Definition bootstrap_auth (bootstrap_flag : bool) (challenge : option ZdpInitAuthenticationPayload) : M R :=
  key ← gets bootstrap;
  match bootstrap_flag, key with
  | true, Some bs =>
      match challenge with
      | None => fail_close TerminateReason.Other
      | Some c =>
          _ ← update_peer link_id (on_link (set_authenticated_namespaces (mkNS true false)));
          addrs ← gets zpr_addr;
          _ ← send (AcquireZprAddressRequest link_id addrs (authenticate now_secs bs c));
          _ ← to_state RegisterAA;
          _ ← set_timeout VS_GRANT_REQUEST_TIMEOUT;
          ok
      end
  | _, _ => process_authentication_failure AuthUnavailable
  end.

Definition process_init_auth (bootstrap_flag : bool) (challenge : option ZdpInitAuthenticationPayload) : M R :=
  lk ← self;
  let idps := default [] (oidc_idps (locked_data lk)) in
  match link_type lk, get_state lk with
  | AdapterToNode, WaitForInitAuth =>
      key ← gets bootstrap;
      match idps with
      | [] => bootstrap_auth bootstrap_flag challenge
      | i :: _ =>
          match challenge with
          | None => fail_close TerminateReason.Other
          | Some c =>
              match auth_agent (locked_data lk) with
              | Some agent =>
                  let blobs := match key with
                               | Some bs => [SelfSigned (authenticate_blob now_secs bs c)]
                               | None => []
                               end in
                  _ ← to_state WaitForUserAuth;
                  _ ← set_timeout OIDC_USER_INTERACTION_TIMEOUT;
                  lk' ← self;
                  _ ← do_oidc_authenticate agent i c blobs (logical_clock (locked_fsm lk'));
                  ok
              | None =>
                  match key with
                  | None => process_authentication_failure NoAgent
                  | Some _ => bootstrap_auth bootstrap_flag challenge
                  end
              end
          end
      end
  | AdapterToNode, Helloing =>
      _ ← upd_fsm (set_stowed_init_auth (Some (mkInitAuth bootstrap_flag challenge))); ok
  | _, st => err (UnexpectedTransition st)
  end.

Definition process_hello_response (code : Z) (aaa : option (list Z))
    (idps : option (list OidcIdpInfo)) : M R :=
  if code =? ResponseCode.Other then process_error_response
  else
    lk ← self;
    match link_type lk, get_state lk with
    | AdapterToNode, Helloing =>
        _ ← upd_data (fun d => set_aaa_address aaa (set_oidc_idps idps d));
        _ ← to_state WaitForInitAuth;
        _ ← upd_fsm (set_stowed_init_auth None);
        match stowed_init_auth (locked_fsm lk) with
        | Some st => process_init_auth (ia_bootstrap st) (ia_challenge st)
        | None => ok
        end
    | NodeToNode, Helloing => _ ← to_state Active; ok
    | NodeToAdapter, _ => err InvalidOperation
    | _, st => err (UnexpectedTransition st)
    end.

(** ** Becoming active *)

Definition run_active : M R :=
  _ ← to_state Active;
  lk ← self;
  _ ← match echo_handle (locked_fsm lk) with Some (_, n) => abort n | None => mret tt end;
  _ ← upd_fsm (fun f => set_keep_alive_misses 0 (set_echo_handle None f));
  _ ← set_timeout DEFAULT_KEEP_ALIVE_TIMEOUT;
  ok.

Definition grant_failure (code : Z) : AuthFailureReason :=
  if code =? ResponseCode.PolicyDenied then PolicyDenied
  else if code =? ResponseCode.AuthUnavailable then AuthUnavailable
  else VisaServiceRejected.

(** A local failure: recorded, then the link closes. *)
Definition activation_failed : M R :=
  _ ← record_failure ActivationFailed; fail_close TerminateReason.Other.

Definition route_conflict : M bool :=
  o ← tun_op (fun t => tun_route_owner_conflict t ZPR_INTERNAL_NETWORK ZPRNET_PREFIX_LEN);
  mret match o with Owner => true | NoOwner | Unknown => false end.

(** The steps of an activation after the check of the demand. *)
Definition activate (addrs configured : list (list Z)) : M R :=
  let dynamic := match configured with [] => true | _ => false end in
  lk ← self;
  _ ← match aaa_address (locked_data lk) with
      | Some a => _ ← tun_op (fun t => tun_clear_address t a); mret tt
      | None => mret tt
      end;
  a0 ← lift (index addrs 0);
  added ← tun_op (fun t => tun_add_address t a0);
  if negb added then activation_failed
  else
    conflict ← route_conflict;
    if conflict && dynamic then activation_failed
    else
      routed ← tun_op (fun t => tun_add_route t ZPR_INTERNAL_NETWORK ZPRNET_PREFIX_LEN);
      if negb routed && dynamic then activation_failed
      else
        _ ← set_local_zpr_addrs addrs;
        _ ← set_carrier true;
        conflict ← route_conflict;
        if conflict && dynamic then _ ← set_carrier false; activation_failed
        else run_active.

Definition process_grant_zpr_address_request (result : list (list Z) + Z) : M R :=
  lk ← self;
  match link_type lk, get_state lk with
  | AdapterToNode, RegisterAA =>
      match result with
      | inl addrs =>
          configured ← gets configured_zpr_addr_demand;
          if match configured with [] => false | _ => true end
             && negb (bool_decide (sort_addrs configured = sort_addrs addrs))
          then
            _ ← record_failure (GrantedAddressMismatch configured addrs);
            _ ← to_state Error;
            _ ← signal_fatal_error configured addrs;
            initiate_close TerminateReason.Other
          else activate addrs configured
      | inr code => _ ← record_failure (grant_failure code); fail_close TerminateReason.Other
      end
  | AdapterToNode, Active => ok
  | _, _ => err InvalidOperation
  end.

(** ** Authentication, node side *)

(** [check_self_signed_blob] and [check_oidc_blob]: [p] is the peer's entry. *)
Definition check_self_signed_blob (p : option (PeerState slab)) (b : ZdpSelfSignedBlob) (age : Z) : bool :=
  match p with
  | None => false
  | Some p =>
      match get_established_transport_association p with
      | None => false
      | Some sa =>
          match verify_blob_challenge now_secs b (cert_common_name <$> peer_cert sa) (auth_key p) age with
          | inl _ => true
          | inr _ => false
          end
      end
  end.
Definition check_oidc_blob (p : option (PeerState slab)) (b : ZdpOidcBlob) : bool :=
  match p with
  | None => false
  | Some p => match verify_challenge now_secs b (auth_key p) with inl _ => true | inr _ => false end
  end.
Definition check_blob (p : option (PeerState slab)) (ss_age : Z) (b : AuthBlob) : bool :=
  match b with
  | SelfSigned ss => check_self_signed_blob p ss ss_age
  | Oidc o => check_oidc_blob p o
  end.

Fixpoint first_oidc (bs : list AuthBlob) : option ZdpOidcBlob :=
  match bs with
  | [] => None
  | Oidc o :: _ => Some o
  | SelfSigned _ :: r => first_oidc r
  end.

Definition stash_renewal_identity (b : ZdpOidcBlob) : M unit :=
  idps ← get_available_oidc_idps;
  match List.find (fun i => bool_decide (issuer i = oidc_issuer b)) idps with
  | None => mret tt
  | Some i =>
      update_peer link_id (on_link (set_renewal_identity
        (mkIdentity i (oidc_nonce_for_challenge (challenge48 (oidc_challenge b))))))
  end.

(** [send_grant_zpr_address_request] of the granted addresses, then [run_active]. *)
Definition process_authorize_response (zpr_addr : list Z) : M R :=
  lk ← self;
  match link_type lk, get_state lk with
  | NodeToAdapter, RegisterAA =>
      _ ← upd_fsm (set_actor_addresses [zpr_addr]);
      _ ← send (GrantZprAddressRequest link_id ResponseCode.Success [zpr_addr]);
      run_active
  | _, _ => err InvalidOperation
  end.

Definition process_authorize_failure (code : ErrorCode) : M R :=
  lk ← self;
  match link_type lk, get_state lk with
  | NodeToAdapter, RegisterAA =>
      _ ← send (GrantZprAddressRequest link_id (grant_code_for_vs_error code) []);
      fail_close TerminateReason.Other
  | _, _ => err InvalidOperation
  end.

(** The address asked for, when it is at most one. *)
Definition requested_addr (addrs : option (list (list Z))) : option (list Z) :=
  match addrs with
  | None | Some [] => Some UNSPECIFIED
  | Some [a] => Some a
  | Some _ => None
  end.

Definition process_acquire_zpr_address_request (addrs : option (list (list Z))) (blob : list Z) : M R :=
  p ← get_peer link_id;
  lk ← self;
  match link_type lk, get_state lk with
  | NodeToAdapter, WaitForAcquireZprAddress =>
      match requested_addr addrs with
      | None => process_error_response
      | Some addr =>
          match decode_blobs blob with
          | inr _ => process_error_response
          | inl bs =>
              if negb (forallb (check_blob p MAX_BLOB_AGE_SECONDS) bs) then process_error_response
              else
                _ ← match first_oidc bs with
                    | Some o => stash_renewal_identity o
                    | None => mret tt
                    end;
                _ ← update_peer link_id (on_link (set_authenticated_namespaces (blob_namespaces bs)));
                _ ← to_state RegisterAA;
                vs ← is_vs_link;
                req ← build_connect_request addr bs (p ≫= a2a_dh_pubkey);
                if negb vs then _ ← spawn (AuthorizeConnectTask link_id req); ok
                else
                  _ ← modify (set_deferred_vs_connect (Some (link_id, addr, req)));
                  _ ← via_table (process_authorize_response addr);
                  ok
          end
      end
  | _, _ => err InvalidOperation
  end.

Definition process_init_auth_ack : M R :=
  lk ← self;
  match link_type lk, get_state lk with
  | NodeToAdapter, WaitForAcquireZprAddress => _ ← set_timeout ACTOR_AUTHENTICATION_TIMEOUT; ok
  | _, _ => err InvalidOperation
  end.

Definition process_init_auth_timeout : M R :=
  lk ← self;
  match link_type lk, get_state lk with
  | NodeToAdapter, WaitForAcquireZprAddress => fail_close TerminateReason.RequestTimedOut
  | _, _ => err InvalidOperation
  end.

(** ** Timeouts and keep-alives *)

Definition send_echo : M R :=
  _ ← send (EchoRequest link_id);
  n ← spawn_abortable (fun n => EchoTask n link_id);
  _ ← upd_fsm (set_echo_handle (Some (instant env, n)));
  _ ← set_timeout DEFAULT_KEEP_ALIVE_TIMEOUT;
  ok.

Definition process_timeout (clock : Z) : M R :=
  lk ← self;
  let f := locked_fsm lk in
  if negb (clock =? logical_clock f) then ok
  else
    match link_type lk, get_state lk with
    | AdapterToNode, WaitForUserAuth => process_authentication_failure InteractionTimeout
    | AdapterToNode, RegisterAA | AdapterToNode, Helloing => fail_close TerminateReason.RequestTimedOut
    | NodeToAdapter, Keying => fail_close TerminateReason.RequestTimedOut
    | _, Active =>
        match echo_handle f with
        | Some (_, n) =>
            _ ← abort n;
            _ ← upd_data (fun d => set_echo_timeout (wrapping_add 64 (echo_timeout d) 1) d);
            let misses := wrapping_add 32 (keep_alive_misses f) 1 in
            _ ← upd_fsm (fun f => set_keep_alive_misses misses (set_echo_handle None f));
            if KEEP_ALIVE_MAX_MISSES <=? misses then fail_close TerminateReason.RequestTimedOut
            else send_echo
        | None => send_echo
        end
    | _, Closing => _ ← clean_up_link_state; ok
    | _, _ => err InvalidOperation
    end.

(** ** Renewing an authentication *)

Definition send_renewal_credential_request (auth_expires : Z) : M unit :=
  p ← get_peer link_id;
  match p with
  | None => renewal_failed AgentError
  | Some p =>
      let payload := payload_new (auth_key p) now_secs (nonce_rnd env) in
      let challenge := challenge_bytes payload in
      _ ← update_peer link_id (on_link (stash_renewal_challenge challenge));
      _ ← send (RenewAuthenticationRequest link_id payload);
      spawn (RenewalTimeoutTask link_id (uid (link_state_machine p)) challenge)
  end.

Definition warn_no_agent : M unit :=
  upd_data (fun d => if renewal_no_agent_warned d then d
                     else set_last_auth_failure (Some NoAgent) (set_renewal_no_agent_warned true d)).

Definition maybe_renew_auth : M unit :=
  lk ← self;
  let d := locked_data lk in
  match auth_renewal_deadline d with
  | None => mret tt
  | Some deadline =>
      if (now env <? deadline) || renewal_in_flight d then mret tt
      else
        match renewal_identity d, auth_agent d with
        | None, _ => warn_no_agent
        | Some _, None =>
            if bool_decide (link_type lk = NodeToAdapter) then
              _ ← upd_data (set_renewal_in_flight true);
              expires ← lift (unwrap (auth_expires d));
              send_renewal_credential_request expires
            else warn_no_agent
        | Some i, Some agent =>
            _ ← upd_data (set_renewal_in_flight true);
            _ ← lift (unwrap (auth_expires d));
            if agent_alive env agent then
              spawn (RenewalAgentTask link_id (uid lk) (issuer (idp i)) (identity_nonce i))
            else
              upd_data (fun d => set_last_auth_failure (Some AgentError)
                (set_renewal_in_flight false (set_auth_agent_field None d)))
        end
  end.

Definition process_keep_alive_response : M R :=
  lk ← self;
  match get_state lk, echo_handle (locked_fsm lk) with
  | Active, Some (start_time, _) =>
      _ ← upd_fsm (fun f => set_keep_alive_misses 0 (set_echo_handle None f));
      _ ← upd_data (fun d =>
            set_latency_data (ring_add (latency_data d) (since (instant env) start_time))
              (set_echo_success (wrapping_add 64 (echo_success d) 1) d));
      _ ← set_timeout DEFAULT_KEEP_ALIVE_PERIOD;
      _ ← maybe_renew_auth;
      ok
  | st, _ => err (UnexpectedTransition st)
  end.

(** A link without an expiry gets a window that yields the bridge's own bound. *)
Definition request_renewal_now : M RenewalStart :=
  lk ← self;
  if negb (bool_decide (link_type lk = NodeToAdapter)) then mret Ignored
  else if negb (bool_decide (get_state lk = Active)) then mret Ignored
  else if renewal_in_flight (locked_data lk) then mret Coalesced
  else
    _ ← upd_data (set_renewal_in_flight true);
    _ ← send_renewal_credential_request
          (default (now env + 2 * OIDC_USER_INTERACTION_TIMEOUT) (auth_expires (locked_data lk)));
    mret Accepted.

Definition answer_unavailable (challenge : list Z) : M R :=
  _ ← send (RenewAuthenticationResponse link_id ResponseCode.AuthUnavailable challenge []); ok.

(** The user leg of a renewal: [ss] is the device leg when it is needed. *)
Definition renew_with_agent (lk : LinkStateWrapper) (challenge : list Z) (ss : option AuthBlob) : M R :=
  match auth_agent (locked_data lk), oidc_idps (locked_data lk) ≫= head with
  | Some agent, Some i =>
      if agent_alive env agent then
        n ← spawn_abortable (fun n => AdapterRenewalTask n link_id (uid lk) (issuer i) challenge ss);
        _ ← upd_data (set_adapter_renewal_task (Some n));
        ok
      else
        _ ← update_peer link_id (on_link (fun lk => (clear_auth_agent_if agent lk).1));
        answer_unavailable challenge
  | _, _ => answer_unavailable challenge
  end.

Definition process_renew_auth_request (p : ZdpInitAuthenticationPayload) : M R :=
  lk ← self;
  match link_type lk, get_state lk with
  | AdapterToNode, Active =>
      let challenge := challenge_bytes p in
      _ ← upd_data (set_adapter_renewal_task None);
      _ ← match adapter_renewal_task (locked_data lk) with Some n => abort n | None => mret tt end;
      let namespaces := default (mkNS false true) (get_authenticated_namespaces lk) in
      key ← gets bootstrap;
      let ss := (fun bs => SelfSigned (authenticate_blob now_secs bs p)) <$> key in
      match ns_contains namespaces Device, ss with
      | true, None => answer_unavailable challenge
      | need_ss, _ =>
          let ss_blob := if need_ss then ss else None in
          if negb (ns_contains namespaces User) then
            b ← lift (unwrap ss_blob);
            _ ← send (RenewAuthenticationResponse link_id ResponseCode.Success challenge
                        (encode_blobs [b]));
            ok
          else renew_with_agent lk challenge ss_blob
      end
  | _, st => err (UnexpectedTransition st)
  end.

Definition blob_challenge (b : AuthBlob) : list Z :=
  match b with SelfSigned ss => ss_challenge ss | Oidc o => oidc_challenge o end.

(** The checks of a renewal response, in the code's order. *)
Definition renewal_ok (p : option (PeerState slab)) (lk : LinkStateWrapper) (challenge : list Z)
    (bs : list AuthBlob) : bool :=
  let got := blob_namespaces bs in
  (zlen bs =? ns_len got)
  && bool_decide (got = default (mkNS false true) (get_authenticated_namespaces lk))
  && forallb (fun b => check_blob p MAX_OIDC_BLOB_AGE_SECONDS b
                       && bool_decide (default [] (base64_decode (blob_challenge b)) = challenge)) bs
  && match first_oidc bs with
     | Some o =>
         bool_decide ((fun i => issuer (idp i)) <$> renewal_identity (locked_data lk) = Some (oidc_issuer o))
     | None => true
     end.

Definition process_renew_auth_response (challenge : list Z) (result : list Z + Z) : M R :=
  lk ← self;
  match link_type lk, get_state lk with
  | NodeToAdapter, Active =>
      if negb (take_renewal_challenge_if challenge lk).2 then ok
      else
        _ ← update_peer link_id (on_link (fun lk => (take_renewal_challenge_if challenge lk).1));
        match result with
        | inr code =>
            _ ← renewal_failed (if code =? ResponseCode.AuthUnavailable then AuthUnavailable
                                else AgentError);
            ok
        | inl blob_str =>
            match decode_blobs blob_str with
            | inr _ => _ ← renewal_failed AgentError; ok
            | inl bs =>
                p ← get_peer link_id;
                if renewal_ok p lk challenge bs then
                  _ ← spawn (ReauthorizeTask link_id (uid lk) (vst_blobs_for_renewal bs));
                  ok
                else _ ← renewal_failed AgentError; ok
            end
        end
  | _, st => err (UnexpectedTransition st)
  end.

(** ** Dispatch *)

Definition process_event (event : LinkEvent) : M R :=
  match event with
  | Start => process_start
  | KeyingDone => process_keying_done
  | ReceivedHelloRequest => process_hello_request
  | AssignedAAA addr => process_assigned_aaa addr
  | ReceivedHelloResponse code aaa idps => process_hello_response code aaa idps
  | ReceivedInitAuth b c => process_init_auth b c
  | ReceivedInitAuthAck => process_init_auth_ack
  | ReceivedInitAuthTimeout => process_init_auth_timeout
  | ReceivedRenewAuthRequest c => process_renew_auth_request c
  | ReceivedRenewAuthResponse c r => process_renew_auth_response c r
  | ReceivedAcquireZprAddressRequest addrs blob => process_acquire_zpr_address_request addrs blob
  | ReceivedGrantZprAddressRequest r => process_grant_zpr_address_request r
  | AuthenticationSuccess bs => process_authentication_success bs
  | AuthenticationFailure r => process_authentication_failure r
  | ReceivedAuthorizeResponse a => process_authorize_response a
  | ReceivedAuthorizeFailure code => process_authorize_failure code
  | ReceivedKeepAliveResponse => process_keep_alive_response
  | ReceivedTerminateLink reason => process_terminate_link reason
  | ReceivedTerminateAck => process_terminate_ack
  | ReceivedDisconnectAck => process_disconnect_ack
  | Close reason => initiate_close reason
  | CloseDone => _ ← complete_close; ok
  | EventError => process_error_response
  | Timeout clock => process_timeout clock
  end.

(** [Assembly::process_link_state_event]. *)
Definition process_link_state_event (event : LinkEvent) : M R := via_table (process_event event).

End fsm.
End LinkFsm.
