(* ===== verification/LinkTasks.v ===== *)
(** * Links: tasks and callers ([link_state.rs], [visa_mgmt.rs], [assembly.rs],
    [vss_worker.rs], [km_multiplexor.rs])

    What a task that was spawned by a handler of [LinkFsm] does when what it waits
    for has happened, the requests of the visa service, and the operations of the
    assembly that start and reset links. *)
From Stdlib Require Import ZArith Lia.
From stdpp Require Import base tactics option list numbers gmap.
From S2P Require Import Prelude Slab NetDefs Tc ForwardingTables TxnMgr Auth LinkTypes PeerTable VisaTable AddressPool Assembly LinkFsm.
Import ForwardingTables Auth LinkTypes PeerTable Asm LinkFsm.

Local Open Scope Z_scope.

(** How waiting for an acknowledgement ended. *)
Inductive Ack := Acked | Canceled | LinkClosed.

(** What the visa service answered to [authorize_connect] and [reauthorize]. *)
Inductive ConnectResult :=
| Connection (zpr_addr : list Z) (auth_expires : Z)
| CodedError (code : ErrorCode)
| OtherApiError.

(** Why a deferred registration failed. *)
Inductive VSApiError := ApiError | CommandFailed.

(** Operations pushed by the visa service, and configuration parameters. *)
Inductive VisaOp `{VisaEnv} := VisaGrant (v : VsVisa Pep) | RevokeVisaId (id : Z).
Inductive ParamValue := StrParam (s : list Z) | OtherParam.
Record Param := mkParam { param_name : list Z; param_value : ParamValue }.

Module LinkTasks.

Section tasks.
Context `{NetDefs} `{Crypto} `{VisaEnv} `{TunCtl} `{FlowTables} `{SlabOps slab}.
Context (VISA_SERVICE_DN : list Z).
Context (env : Env).

Notation M := (M slab).
Notation R := (unit + LinkStateError)%type.
Notation process_link_state_event := (process_link_state_event VISA_SERVICE_DN env).
Notation process_event := (process_event VISA_SERVICE_DN env).

(** The event's result is only logged or ignored. *)
Definition event (l : Z) (e : LinkEvent) : M unit := _ ← process_link_state_event l e; mret tt.

(** The link at [l] while it is still the one with this [uid]. *)
Definition link_if_uid (l link_uid : Z) : M (option LinkStateWrapper) :=
  p ← get_peer l;
  mret match p with
       | Some p => if uid (link_state_machine p) =? link_uid then Some (link_state_machine p) else None
       | None => None
       end.

(** ** Packets that were waited for *)

Definition init_auth_done (l : Z) (r : Ack) : M unit :=
  match r with
  | Acked => event l ReceivedInitAuthAck
  | Canceled => event l ReceivedInitAuthTimeout
  | LinkClosed => mret tt
  end.
(** [acked()] never reports a cancellation. *)
Definition echo_done (l : Z) (acked : bool) : M unit :=
  if acked then event l ReceivedKeepAliveResponse else mret tt.
Definition terminate_done (l : Z) (acked : bool) : M unit :=
  if acked then event l ReceivedTerminateAck else mret tt.

(** ** Closing and restarting *)

Definition stop_vsconn_done (l : Z) : M unit := event l ReceivedDisconnectAck.

(** [km_multiplexor::drop_link] waits when there is a key manager to stop. *)
Definition drop_link (l : Z) : M unit :=
  t ← gets peer_table;
  let '(t', h) := remove_km_state (clear_security_association t l).1 l in
  _ ← put_peers t';
  match h with
  | Some _ => spawn (CloseDoneTask l)
  | None => event l CloseDone
  end.

Definition restart_done (l : Z) : M unit :=
  p ← get_peer l;
  if is_activation_failure (p ≫= fun p => get_last_auth_failure (link_state_machine p)) then mret tt
  else event l Start.

Definition actor_disconnect : M unit := c ← gets vsconn; assert c.

(** ** Authentication *)

(** [outcome]: what the agent answered; [None] if it dropped the request. *)
Definition oidc_done (l attempt_clock : Z) (iss challenge : list Z) (base_blobs : list AuthBlob)
    (outcome : option (list Z + AuthFailureReason)) : M unit :=
  p ← get_peer l;
  match p with
  | None => mret tt
  | Some p =>
      if negb (auth_attempt_is_current attempt_clock (link_state_machine p)) then mret tt
      else
        event l match outcome with
                | Some (inl id_token) =>
                    AuthenticationSuccess
                      (base_blobs ++ [Oidc (mkOidc BLOB_TYPE_OIDC iss id_token (base64_encode challenge))])
                | Some (inr reason) => AuthenticationFailure reason
                | None => AuthenticationFailure AgentError
                end
  end.

(** [UNIX_EPOCH + Duration::from_secs(s)] panics beyond the range of [SystemTime]. *)
Definition epoch_plus (s : Z) : outcome Z := if s <? 2 ^ 63 then Ret (secs s) else Panic.

Definition record_auth_expires (l auth_expires_epoch_secs : Z) : M unit :=
  p ← get_peer l;
  match p with
  | None => mret tt
  | Some _ =>
      expires ← lift (epoch_plus auth_expires_epoch_secs);
      lead ← gets auth_renewal_lead;
      update_peer l (on_link (set_auth_expires (now env) expires lead))
  end.

Definition authorize_failure_event (r : ConnectResult) : LinkEvent :=
  match r with
  | CodedError code =>
      match response_code_for_vs_error code with
      | Some _ => ReceivedAuthorizeFailure code
      | None => EventError
      end
  | _ => EventError
  end.

(** An IPv4 address has four octets. *)
Definition authorize_connect_done (l : Z) (r : ConnectResult) : M unit :=
  c ← gets vsconn;
  _ ← assert c;
  match r with
  | Connection a expires =>
      if zlen a =? 4 then event l EventError
      else _ ← record_auth_expires l expires; event l (ReceivedAuthorizeResponse a)
  | e => event l (authorize_failure_event e)
  end.

Definition send_deferred_vs_connect (l : Z) (assigned_addr : list Z) (r : ConnectResult)
    : M (unit + VSApiError) :=
  c ← gets vsconn;
  _ ← assert c;
  match r with
  | Connection a expires =>
      if bool_decide (a <> assigned_addr) then mret (inr CommandFailed)
      else _ ← record_auth_expires l expires; mret (inl tt)
  | _ => mret (inr ApiError)
  end.

(** ** Renewals *)

Definition finish_failure (l : Z) (r : AuthFailureReason) : M unit :=
  update_peer l (on_link (finish_renewal_failure r)).

(** Up to the call of [reauthorize]. *)
Definition submit_renewal_reauthorize (l link_uid : Z) (bs : list VsAuthBlob) : M unit :=
  lk ← link_if_uid l link_uid;
  c ← gets vsconn;
  match lk with
  | None => mret tt
  | Some lk =>
      if negb c then finish_failure l AgentError
      else
        match get_actor_addresses lk with
        | [] => finish_failure l AgentError
        | a :: _ => spawn (ReauthorizeWaitTask l link_uid a bs)
        end
  end.

(** The rest of it: the entry it holds is the link with this [uid]. *)
Definition reauthorize_done (l link_uid : Z) (r : ConnectResult) : M unit :=
  lk ← link_if_uid l link_uid;
  match r with
  | Connection _ e =>
      expires ← lift (epoch_plus e);
      lead ← gets auth_renewal_lead;
      match lk with
      | Some _ => update_peer l (on_link (set_auth_expires (now env) expires lead))
      | None => mret tt
      end
  | _ => match lk with Some _ => finish_failure l VisaServiceRejected | None => mret tt end
  end.

Definition handle_renewal_reply (l link_uid : Z) (iss nonce : list Z)
    (outcome : list Z + AuthFailureReason) : M unit :=
  lk ← link_if_uid l link_uid;
  match lk, outcome with
  | None, _ => mret tt
  | Some _, inr reason => finish_failure l reason
  | Some _, inl id_token => submit_renewal_reauthorize l link_uid [VOidc iss id_token nonce]
  end.

Definition renewal_timeout_done (l link_uid : Z) (challenge : list Z) : M unit :=
  lk ← link_if_uid l link_uid;
  match lk with
  | None => mret tt
  | Some lk =>
      if (take_renewal_challenge_if challenge lk).2 then
        _ ← update_peer l (on_link (fun lk => (take_renewal_challenge_if challenge lk).1));
        finish_failure l AgentError
      else mret tt
  end.

Definition adapter_renewal_done (l link_uid : Z) (iss challenge : list Z) (ss_blob : option AuthBlob)
    (outcome : option (list Z + AuthFailureReason)) : M unit :=
  lk ← link_if_uid l link_uid;
  match lk with
  | None => mret tt
  | Some _ =>
      let '(status, blob) :=
        match outcome with
        | Some (inl id_token) =>
            (ResponseCode.Success,
             encode_blobs (option_list ss_blob
               ++ [Oidc (mkOidc BLOB_TYPE_OIDC iss id_token (base64_encode challenge))]))
        | Some (inr _) | None => (ResponseCode.AuthUnavailable, [])
        end in
      send (RenewAuthenticationResponse l status challenge blob)
  end.

(** ** Key management *)

(** [KmSignal::SaEstablished] in [launch_signal_worker]. *)
Definition sa_established (l : Z) (sa : KmTransportSA) : M unit :=
  t ← gets peer_table;
  _ ← put_peers (set_security_association t l sa).1;
  event l KeyingDone.

(** ** Assembly *)

Definition start_tether (adapter_addr interface : list Z * Z) (ty : LinkType) (auto_start : bool)
    (rnd : list Z) : M (Z + PeerInsertError) :=
  _ ← assert (bool_decide (ty = NodeToAdapter) || bool_decide (ty = AdapterToNode));
  r ← add_peer ty adapter_addr interface rnd;
  match r with
  | inr e => mret (inr e)
  | inl l =>
      p ← get_peer l;
      match p with
      | None => mret (inl l)
      | Some _ =>
          if negb auto_start then mret (inl l)
          else
            r ← process_event l Start;
            match r with
            | inl _ => mret (inl l)
            | inr _ =>
                r' ← process_event l EventError;
                match r' with inl _ => mret (inr FailedToStart) | inr _ => panic end
            end
      end
  end.

(** After the visa service's connection was told to stop, when the link is its. *)
Definition reset_peer (l : Z) : M unit :=
  p ← get_peer l;
  match p with None => mret tt | Some _ => reset l end.

(** ** Requests of the visa service *)

Definition process_visaop (op : VisaOp) : M (unit + VisaTable.VisaTableError) :=
  match op with
  | VisaGrant v => r ← mgmt_insert_visa v; mret match r with inl _ => inl tt | inr e => inr e end
  | RevokeVisaId i => handle_revocation i
  end.

(** [PushVisaOp]: how many operations were done, and whether one failed. *)
Fixpoint push_visa_ops (ops : list VisaOp) (processed : Z) : M (Z * bool) :=
  match ops with
  | [] => mret (processed, false)
  | op :: r =>
      x ← process_visaop op;
      match x with
      | inl _ => push_visa_ops r (processed + 1)
      | inr _ => mret (processed, true)
      end
  end.

(** The first link, in the order of the table, with this address of an actor. *)
Definition docked_link (t : PeerTable slab) (addr : list Z) : option (Z * PeerState slab) :=
  PeerTable.find t (fun _ p =>
    existsb (fun a => bool_decide (a = addr)) (get_actor_addresses (link_state_machine p))).

Fixpoint terminate_docked (addrs : list (list Z)) : M unit :=
  match addrs with
  | [] => mret tt
  | a :: r =>
      t ← gets peer_table;
      _ ← match docked_link t a with
          | Some (l, _) => event l (Close TerminateReason.Shutdown)
          | None => mret tt
          end;
      terminate_docked r
  end.
(** Every address counts as processed. *)
Definition process_revoke_auth (addrs : list (list Z)) : M Z :=
  _ ← terminate_docked addrs; mret (wrap 32 (zlen addrs)).

Fixpoint request_authentication (addrs : list (list Z)) (processed : Z) (start : bool) : M (Z * bool) :=
  match addrs with
  | [] => mret (processed, start)
  | a :: r =>
      s ← gets (fun s => s);
      if bool_decide (a ∈ zpr_addr s) then
        if negb start && negb (self_reauth_in_flight s) then
          _ ← modify (set_self_reauth_in_flight true);
          request_authentication r (processed + 1) true
        else
          _ ← when (negb start) (modify (set_self_reauth_in_flight true));
          request_authentication r (processed + 1) start
      else
        match docked_link (peer_table s) a with
        | Some (l, _) =>
            x ← request_renewal_now env l;
            request_authentication r
              (match x with Accepted | Coalesced => processed + 1 | Ignored => processed end) start
        | None => request_authentication r processed start
        end
  end.

Definition spawn_self_reauth : M unit :=
  c ← gets vsconn;
  if (c : bool) then spawn SelfReauthTask else modify (set_self_reauth_in_flight false).
Definition self_reauth_done : M unit := modify (set_self_reauth_in_flight false).

(** [RequestAuthentication]: the count acknowledged. *)
Definition process_request_authentication (addrs : list (list Z)) : M Z :=
  '(processed, start) ← request_authentication addrs 0 false;
  _ ← when start spawn_self_reauth;
  mret processed.

(** The parameters that name the prefix must be one string; [parse] reads a network. *)
Fixpoint aaa_prefix (AAA_PREFIX : list Z) (params : list Param) (found : option (list Z))
    : option (option (list Z)) :=
  match params with
  | [] => Some found
  | p :: r =>
      if bool_decide (param_name p = AAA_PREFIX) then
        match param_value p, found with
        | StrParam s, None => aaa_prefix AAA_PREFIX r (Some s)
        | _, _ => None
        end
      else aaa_prefix AAA_PREFIX r found
  end.
Definition process_configuration (AAA_PREFIX : list Z) (parse : list Z -> option (list Z * Z))
    (params : list Param) : M (unit + ErrorCode) :=
  match aaa_prefix AAA_PREFIX params None with
  | None => mret (inr ParamError)
  | Some None => mret (inl tt)
  | Some (Some net) =>
      match parse net with
      | None => mret (inr ParamError)
      | Some (segs, plen) =>
          match AddressPool.new segs plen with
          | inr _ => mret (inr ParamError)
          | inl pool => _ ← modify (set_address_pool (Some pool)); mret (inl tt)
          end
      end
  end.

(** ** A task whose wait is over *)

(** How the wait of a task ended, by what it waits for. *)
Inductive Completion :=
| CAck (r : Ack)
| CConnect (r : ConnectResult)
| CAgent (r : option (list Z + AuthFailureReason))
| CDone.

Definition acked (r : Ack) : bool := match r with Acked => true | _ => false end.
(** A renewal's outcome when the agent dropped it or the attempt timed out. *)
Definition renewal_outcome (r : option (list Z + AuthFailureReason)) : list Z + AuthFailureReason :=
  default (inr AgentError) r.

Definition complete_task (k : Task) (c : Completion) : M unit :=
  match k, c with
  | InitAuthTask l, CAck r => init_auth_done l r
  | EchoTask _ l, CAck r => echo_done l (acked r)
  | TerminateTask l, CAck r => terminate_done l (acked r)
  | StopVsConnTask l, CDone => stop_vsconn_done l
  | AuthorizeConnectTask l _, CConnect r => authorize_connect_done l r
  | OidcTask l clock iss ch bs, CAgent r => oidc_done l clock iss ch bs r
  | RenewalAgentTask l u iss nonce, CAgent r => handle_renewal_reply l u iss nonce (renewal_outcome r)
  | RenewalTimeoutTask l u ch, CDone => renewal_timeout_done l u ch
  | AdapterRenewalTask _ l u iss ch ss, CAgent r => adapter_renewal_done l u iss ch ss r
  | ReauthorizeTask l u bs, CDone => submit_renewal_reauthorize l u bs
  | ReauthorizeWaitTask l u _ _, CConnect r => reauthorize_done l u r
  | ActorDisconnectTask _, CDone => actor_disconnect
  | DropLinkTask l, CDone => drop_link l
  | CloseDoneTask l, CDone => event l CloseDone
  | RestartTask l, CDone => restart_done l
  | SelfReauthTask, CDone => self_reauth_done
  | _, _ => mret tt
  end.

End tasks.
End LinkTasks.
