(* ===== verification/LinkInv.v ===== *)
(** * Links: reasoning about handlers

    Rules to run the handlers of [LinkFsm] on symbolic states.  [wpe E m s Q]: the
    computation returns with [Q], or it panics and [E] holds.  [at_link]: the state
    of the peer [l] and of the tasks in the middle of a handler; nothing else of the
    peer table has changed since the handler began. *)
From Stdlib Require Import ZArith Lia.
From stdpp Require Import base tactics option list numbers gmap.
From S2P Require Import Prelude Slab NetDefs Tc ForwardingTables TxnMgr Auth LinkTypes PeerTable PeerTableProps VisaTable AddressPool Assembly NodeBindInv LinkFsm.
From stdpp Require Import list.
Import ForwardingTables Auth LinkTypes PeerTable PeerTableProps Asm NodeBindInv LinkFsm.

Local Open Scope Z_scope.

Module LinkInv.

Section rules.
Context `{NetDefs} `{Crypto} `{VisaEnv} `{TunCtl} `{FlowTables} `{Slab slab}.
Notation M := (M slab).
Implicit Types (s : Assembly slab) (t : PeerTable slab) (p : PeerState slab) (E : Prop).

Definition wpe E {A} (m : M A) s (Q : A -> Assembly slab -> Prop) : Prop :=
  match m s with Ret (a, s') => Q a s' | Panic => E end.

Lemma wpe_ret E {A} (a : A) s (Q : A -> Assembly slab -> Prop) : Q a s -> wpe E (mret a) s Q.
Proof. done. Qed.
Lemma wpe_bind E {A B} (m : M A) (f : A -> M B) s Q :
  wpe E m s (fun a s' => wpe E (f a) s' Q) -> wpe E (m ≫= f) s Q.
Proof. unfold wpe, mbind, M_bind. by destruct (m s) as [[a s']|]. Qed.
Lemma wpe_mono E (E' : Prop) {A} (m : M A) s (P Q : A -> Assembly slab -> Prop) :
  wpe E m s P -> (E -> E') -> (forall a s', P a s' -> Q a s') -> wpe E' m s Q.
Proof. unfold wpe. destruct (m s) as [[a s']|]; auto. Qed.
Lemma wpe_gets E {A} (f : Assembly slab -> A) s (Q : A -> Assembly slab -> Prop) :
  Q (f s) s -> wpe E (gets f) s Q.
Proof. done. Qed.
Lemma wpe_get_peer E l s (Q : option (PeerState slab) -> Assembly slab -> Prop) :
  Q (get (peer_table s) l) s -> wpe E (get_peer l) s Q.
Proof. done. Qed.
Lemma wpe_lift E {A} (o : outcome A) s (Q : A -> Assembly slab -> Prop) :
  (forall a, o = Ret a -> Q a s) -> (o = Panic -> E) -> wpe E (lift o) s Q.
Proof. unfold wpe, lift. destruct o; cbn; auto. Qed.
Lemma wpe_assert E (b : bool) s (Q : unit -> Assembly slab -> Prop) :
  (b = true -> Q tt s) -> (b = false -> E) -> wpe E (assert b) s Q.
Proof. unfold wpe, assert, lift, rust_assert. destruct b; cbn; auto. Qed.
Lemma wpe_when E (b : bool) m s (Q : unit -> Assembly slab -> Prop) :
  (b = true -> wpe E m s Q) -> (b = false -> Q tt s) -> wpe E (when b m) s Q.
Proof. intros Ht Hf. unfold when. destruct b; [by apply Ht|]. by apply wpe_ret, Hf. Qed.

(** ** The state in the middle of a handler *)

Context (l : Z) (Hl : u32 l) (E : Prop).

(** Special names are only given to a link that is keying. *)
Definition keying s0 : Prop :=
  exists p, get (peer_table s0) l = Some p /\ get_state (link_state_machine p) = Keying.

(** What the operations on the TUN device may make of it. *)
Inductive tun_step (d : Tun) : Tun -> Prop :=
| tun_carried b : tun_step d (tun_set_carrier d b).2
| tun_addressed a : tun_step d (tun_add_address d a).2
| tun_cleared a : tun_step d (tun_clear_address d a).2
| tun_routed a n : tun_step d (tun_add_route d a n).2
| tun_asked a n : tun_step d (tun_route_owner_conflict d a n).2.
Definition tun_reaches : Tun -> Tun -> Prop := rtc tun_step.

(** The messages a link sends, and those that end the streams of one that is removed. *)
Definition link_message (m : Msg) : bool :=
  match m with
  | HelloRequest _ _ | HelloSuccessResponse _ _ _ | InitAuthenticationRequest _ _ | RenewAuthenticationRequest _ _
  | RenewAuthenticationResponse _ _ _ _ | AcquireZprAddressRequest _ _ _ | GrantZprAddressRequest _ _ _
  | TerminateLink _ _ | EchoRequest _ | UnbindEgressStreamRequest _ _ | StreamIdWithdrawal _ _ => true
  | _ => false
  end.
Definition sends s s' : Prop :=
  exists ms, sent s' = sent s ++ ms /\ Forall (fun m => link_message m = true) ms.

Lemma sends_same s s' : sent s' = sent s -> sends s s'.
Proof. intros Es. exists []. rewrite app_nil_r. by split. Qed.
Lemma sends_more s0 s s' m : sends s0 s -> link_message m = true -> sent s' = sent s ++ [m] -> sends s0 s'.
Proof.
  intros (ms & Es & Hms) Hm Es'. exists (ms ++ [m]). rewrite Es', Es, <- app_assoc. split; [done|].
  apply list.Forall_app. split; [done|by constructor].
Qed.

Record at_link s0 p (ts : list Task) s : Prop := {
  a_peer : get (peer_table s) l = Some p;
  a_frame : forall j, u32 j -> j <> l -> get (peer_table s) j = get (peer_table s0) j;
  a_ok : table_ok (peer_table s0) -> table_ok (peer_table s);
  a_dock : same_dock (peer_table s0) (peer_table s);
  a_tasks : tasks s = ts;
  a_visas : visa_table s = visa_table s0;
  a_uid : next_uid s = next_uid s0;
  a_mode : ph_mode s = ph_mode s0;
  a_conn : vsconn s = vsconn s0;
  a_elt : elt_ok (elt s);
  a_special : ~ keying s0 -> special_peers (peer_table s) = special_peers (peer_table s0);
  a_tun : tun_reaches (tun s0) (tun s);
  a_sent : sends s0 s
}.

Lemma same_dock_refl t : same_dock t t.
Proof. intros j Hj. by destruct (get t j). Qed.
Lemma same_dock_comp t1 t2 t3 : same_dock t1 t2 -> same_dock t2 t3 -> same_dock t1 t3.
Proof.
  intros H12 H23 j Hj. specialize (H12 j Hj). specialize (H23 j Hj).
  destruct (get t1 j), (get t2 j), (get t3 j); try done.
  destruct H12 as (E1 & E2 & E3), H23 as (F1 & F2 & F3). split_and!; congruence.
Qed.

Lemma at_start s p : get (peer_table s) l = Some p -> elt_ok (elt s) -> at_link s p (tasks s) s.
Proof. intros Hp He. split; try done; [apply same_dock_refl|by apply sends_same]. Qed.

(** A change that the tracked parts do not see. *)
Definition inert (f : Assembly slab -> Assembly slab) : Prop :=
  forall s, peer_table (f s) = peer_table s /\ tasks (f s) = tasks s /\ visa_table (f s) = visa_table s /\
    next_uid (f s) = next_uid s /\ ph_mode (f s) = ph_mode s /\ vsconn (f s) = vsconn s /\ elt (f s) = elt s /\
    tun (f s) = tun s /\ sent (f s) = sent s.

Lemma at_inert s0 p ts s f : inert f -> at_link s0 p ts s -> at_link s0 p ts (f s).
Proof.
  intros Hf [Hp Hfr Hok Hd Ht Hv Hu Hm Hc Hx Hsp Htu Hse]. destruct (Hf s) as (E1 & E2 & E3 & E4 & E5 & E6 & E7 & E8 & E9).
  split; rewrite ?E1, ?E2, ?E3, ?E4, ?E5, ?E6, ?E7, ?E8; try done. unfold sends. by rewrite E9.
Qed.

Lemma at_update s0 p ts s f :
  keeps f -> quiet f -> at_link s0 p ts s ->
  at_link s0 (f p) ts (set_peers (update (peer_table s) l f) s).
Proof.
  intros Hk Hq [Hp Hfr Hok Hd Ht Hv Hu Hm Hc Hx Hsp Htu Hse]. split; cbn; try done.
  - by rewrite get_update, decide_True, Hp by done.
  - intros j Hj Hn. rewrite get_update, decide_False by done. auto.
  - intros Hok0. apply update_ok; auto.
  - eapply same_dock_comp; [done|]. by apply quiet_same_dock.
  - intros Hk'. destruct (update_tables (peer_table s) l f) as (_ & -> & _). auto.
Qed.

(** ** Rules *)

Section steps.
Context (s0 : Assembly slab) (p : PeerState slab) (ts : list Task) (s : Assembly slab).
Hypothesis (Hat : at_link s0 p ts s).

Lemma w_self (Q : LinkStateWrapper -> Assembly slab -> Prop) :
  Q (link_state_machine p) s -> wpe E (self l) s Q.
Proof. intros HQ. unfold wpe, self, mbind, M_bind, get_peer, gets. by rewrite (a_peer _ _ _ _ Hat). Qed.

Lemma w_peer (Q : option (PeerState slab) -> Assembly slab -> Prop) : Q (Some p) s -> wpe E (get_peer l) s Q.
Proof. intros HQ. unfold wpe, get_peer, gets. by rewrite (a_peer _ _ _ _ Hat). Qed.

Lemma w_via_table m (Q : unit + LinkStateError -> Assembly slab -> Prop) :
  wpe E m s Q -> wpe E (via_table l m) s Q.
Proof. intros HQ. unfold via_table. by apply wpe_bind, w_peer. Qed.

Lemma w_modify f (Q : unit -> Assembly slab -> Prop) :
  inert f -> (forall s', at_link s0 p ts s' -> Q tt s') -> wpe E (modify f) s Q.
Proof. intros Hf HQ. apply HQ. by apply at_inert. Qed.

Lemma w_update f (Q : unit -> Assembly slab -> Prop) :
  keeps f -> quiet f -> (forall s', at_link s0 (f p) ts s' -> Q tt s') -> wpe E (update_peer l f) s Q.
Proof. intros Hk Hq HQ. apply HQ. by apply at_update. Qed.

Lemma w_send m (Q : unit -> Assembly slab -> Prop) :
  link_message m = true -> (forall s', at_link s0 p ts s' -> Q tt s') -> wpe E (send m) s Q.
Proof.
  intros Hm HQ. apply HQ. destruct Hat. split; cbn; try done. by eapply sends_more.
Qed.

Lemma w_spawn k (Q : unit -> Assembly slab -> Prop) :
  (forall s', at_link s0 p (ts ++ [k]) s' -> Q tt s') -> wpe E (spawn k) s Q.
Proof. intros HQ. apply HQ. destruct Hat. split; cbn; try done. by f_equal. Qed.

Lemma w_abort n (Q : unit -> Assembly slab -> Prop) :
  (forall s', at_link s0 p (filter (fun k => task_id k <> Some n) ts) s' -> Q tt s') -> wpe E (abort n) s Q.
Proof. intros HQ. apply HQ. destruct Hat. split; cbn; try done. by f_equal. Qed.

Lemma w_is_vs (Q : bool -> Assembly slab -> Prop) : (forall b, Q b s) -> wpe E (is_vs_link l) s Q.
Proof. intros HQ. apply HQ. Qed.

Lemma w_is_vs_exact (Q : bool -> Assembly slab -> Prop) :
  ~ keying s0 ->
  Q (bool_decide (lookup_special_peer (peer_table s0) VisaServiceAdapter = Some l)) s ->
  wpe E (is_vs_link l) s Q.
Proof.
  intros Hk HQ. unfold wpe, is_vs_link, mbind, M_bind, gets. cbn. unfold lookup_special_peer in *.
  by rewrite (a_special _ _ _ _ Hat Hk).
Qed.

Lemma w_tun {A} (f : Tun -> A * Tun) (Q : A -> Assembly slab -> Prop) :
  (forall d : Tun, tun_step d (f d).2) -> (forall s', at_link s0 p ts s' -> Q (f (tun s)).1 s') -> wpe E (tun_op f) s Q.
Proof.
  intros Hf HQ. apply wpe_bind, wpe_gets. cbn. pose proof (Hf (tun s)) as Hst. destruct (f (tun s)) as [a t'].
  change (Q a (set_tun t' s)). apply HQ. destruct Hat. split; cbn; try done. by eapply rtc_r.
Qed.

End steps.

Lemma w_spawn_abortable s0 p ts s (k : Z -> Task) (Q : Z -> Assembly slab -> Prop) :
  at_link s0 p ts s ->
  (forall n s', at_link s0 p (ts ++ [k n]) s' -> Q n s') -> wpe E (spawn_abortable k) s Q.
Proof.
  intros Hat HQ. apply wpe_bind, wpe_gets, wpe_bind. eapply w_modify; [done|done|]. intros s1 Hs1.
  apply wpe_bind. eapply w_spawn; [done|]. intros s2 Hs2. by apply wpe_ret, HQ.
Qed.

Lemma w_put_peers s0 p ts s t (Q : unit -> Assembly slab -> Prop) :
  at_link s0 p ts s -> (table_ok (peer_table s) -> table_ok t) ->
  (forall j, get t j = get (peer_table s) j) -> keying s0 ->
  (forall s', at_link s0 p ts s' -> Q tt s') -> wpe E (put_peers t) s Q.
Proof.
  intros [Hp Hfr Hok Hd Ht Hv Hu Hm Hc Hx Hsp Htu Hse] Ho Hg Hkey HQ. apply HQ. split; cbn; try done.
  - by rewrite Hg.
  - intros j Hj Hn. rewrite Hg. auto.
  - auto.
  - intros j Hj. rewrite Hg. by apply Hd.
Qed.

End rules.

(** One step of a handler; the facts about the state before it are dropped. *)
Ltac next_state :=
  let s' := fresh "s" in let Hs := fresh "Hat" in intros s' Hs;
  repeat match goal with
         | H1 : at_link _ _ _ _ ?s1 |- _ =>
             lazymatch s1 with s' => fail | _ => clear H1; try clear s1 end
         end.

Ltac link_step :=
  lazymatch goal with
  | |- wpe _ (mbind _ _) _ _ => apply wpe_bind
  | |- wpe _ (mret _) _ _ => apply wpe_ret
  | |- wpe _ (ok) _ _ => apply wpe_ret
  | |- wpe _ (err _) _ _ => apply wpe_ret
  | |- wpe _ (when _ _) _ _ => apply wpe_when; intros ?
  | |- wpe _ (self _) _ _ => eapply w_self; [eassumption|]
  | |- wpe _ (get_peer _) _ _ => eapply w_peer; [eassumption|]
  | |- wpe _ (is_vs_link _) _ _ => eapply w_is_vs; let b := fresh "vs" in intros b
  | |- wpe _ (tun_op _) _ _ => eapply w_tun; [eassumption|intros ?; constructor|next_state]
  | |- wpe _ (to_state _ _) _ _ => unfold to_state
  | |- wpe _ (set_timeout _ _) _ _ => unfold set_timeout
  | |- wpe _ (record_failure _ _) _ _ => unfold record_failure
  | |- wpe _ (renewal_failed _ _) _ _ => unfold renewal_failed
  | |- wpe _ (upd_fsm _ _) _ _ => unfold upd_fsm
  | |- wpe _ (upd_data _ _) _ _ => unfold upd_data
  | |- wpe _ (update_peer _ _) _ _ =>
      eapply w_update; [eassumption|eassumption|intros ?; done|intros ?; done|next_state]
  | |- wpe _ (send _) _ _ => eapply w_send; [eassumption|reflexivity|next_state]
  | |- wpe _ (spawn _) _ _ => eapply w_spawn; [eassumption|next_state]
  | |- wpe _ (spawn_abortable _) _ _ =>
      eapply w_spawn_abortable; [eassumption|let n := fresh "n" in intros n; next_state]
  | |- wpe _ (abort _) _ _ => eapply w_abort; [eassumption|next_state]
  | |- wpe _ (modify _) _ _ => eapply w_modify; [eassumption|intros ?; done|next_state]
  | |- wpe _ (gets _) _ _ => apply wpe_gets
  | |- wpe _ (if ?b then _ else _) _ _ => destruct b eqn:?
  end; cbn beta.
Ltac link_steps := repeat link_step.

End LinkInv.
