(* ===== verification/LinkDrop.v ===== *)
(** * Links: removing a peer

    Removing a peer takes out its entry; of the other entries it changes forwarding
    tables and transaction managers only. *)
From Stdlib Require Import ZArith Lia.
From stdpp Require Import base tactics option list numbers gmap.
From S2P Require Import Prelude Slab NetDefs Tc ForwardingTables TxnMgr Auth LinkTypes PeerTable PeerTableProps VisaTable AddressPool ZdprReceiver Assembly LinkInv.
From stdpp Require Import list.
Import ForwardingTables Auth LinkTypes PeerTable PeerTableProps VisaTable Asm LinkInv.

Local Open Scope Z_scope.

Module LinkDrop.

Section drop.
Context `{NetDefs} `{Crypto} `{VisaEnv} `{TunCtl} `{FlowTables} `{Slab slab}.
Implicit Types (s : Assembly slab) (t : PeerTable slab) (p : PeerState slab).

(** What links are made of. *)
Definition core p : LinkStateWrapper * list Z * Rx.Receiver :=
  (link_state_machine p, auth_key p, zdpr_recv p).
Definition links_from t t' : Prop :=
  forall k q', slab_get (peer_slab t') k = Some q' ->
    exists q, slab_get (peer_slab t) k = Some q /\ core q' = core q.

Lemma links_from_refl t : links_from t t.
Proof. intros k q Hq. by exists q. Qed.
Lemma links_from_trans t1 t2 t3 : links_from t1 t2 -> links_from t2 t3 -> links_from t1 t3.
Proof.
  intros H12 H23 k q3 Hq3. destruct (H23 k q3 Hq3) as (q2 & Hq2 & E2), (H12 k q2 Hq2) as (q1 & Hq1 & E1).
  exists q1. split; [done|congruence].
Qed.
#[local] Instance links_from_preorder : PreOrder links_from.
Proof. split; [exact links_from_refl|exact links_from_trans]. Qed.

Lemma links_from_update t l f : (forall p, core (f p) = core p) -> links_from t (update t l f).
Proof.
  intros Hf k q. rewrite update_slab_get. destruct (decide _); [|by eauto].
  destruct (slab_get (peer_slab t) k) as [p|] eqn:Ep; [|done]. intros [= <-]. exists p. by rewrite Hf.
Qed.

Lemma links_from_route t e t' : remove_route t e = Ret t' -> links_from t t'.
Proof.
  unfold remove_route. destruct (get t _); intros Hr; outcome_inv; [|done]. by apply links_from_update.
Qed.
Lemma links_from_routes es : forall t t', remove_routes t es = Ret t' -> links_from t t'.
Proof.
  induction es as [|e es IH]; intros t t' Hr; cbn [remove_routes] in Hr; outcome_inv; [done|].
  etrans; [by eapply links_from_route|by apply IH].
Qed.
Lemma links_from_revoke (vt vt' : VisaTable.VisaTable) t t' i r :
  revoke_no_rebuild vt t i = Ret (vt', t', r) -> links_from t t'.
Proof.
  unfold revoke_no_rebuild, remove_forwarding_entries. destruct (table vt !! i) as [v0|]; intros Hr; [|by outcome_inv].
  apply bind_ret in Hr as ([[v t1] w] & Hr1 & Hr). outcome_inv. by eapply links_from_routes.
Qed.
Lemma links_from_each ids : forall (vt vt' : VisaTable.VisaTable) t t' w,
  revoke_each vt t ids = Ret (vt', t', w) -> links_from t t'.
Proof.
  induction ids as [|i ids IH]; intros vt vt' t t' w Hr; cbn [revoke_each] in Hr; [by outcome_inv|].
  apply bind_ret in Hr as ([[vt1 t1] r1] & Hr1 & Hr). apply bind_ret in Hr as ([[vt2 t2] ws] & Hr2 & Hr).
  outcome_inv. etrans; [by eapply links_from_revoke|by eapply IH].
Qed.
Lemma links_from_link (vt vt' : VisaTable.VisaTable) t t' l w :
  revoke_for_link vt l t = Ret (vt', t', w) -> links_from t t'.
Proof.
  unfold revoke_for_link. destruct (to_revoke vt l); intros Hr; [by outcome_inv|].
  apply bind_ret in Hr as ([[vt1 t1] r1] & Hr1 & Hr). outcome_inv. by eapply links_from_each.
Qed.
Lemma links_from_handles hs : forall t t', drop_handles t hs = Ret t' -> links_from t t'.
Proof.
  induction hs as [|h hs IH]; intros t t' Hr; cbn [drop_handles] in Hr; [by outcome_inv|].
  apply bind_ret in Hr as (t1 & Hd & Hr). etrans; [|by apply IH]. unfold PeerTable.drop_handle in Hd.
  destruct (upgrade t h) as [[e q]|]; [|by outcome_inv].
  apply bind_ret in Hd as ([m b] & Hm & Hd). outcome_inv. by apply links_from_update.
Qed.

(** The entry is gone, and it was there or nothing has changed. *)
Lemma remove_gone t l t' : remove t l = Ret t' -> links_from t t' /\ get t' l = None.
Proof.
  unfold remove. destruct (get t l) as [p|] eqn:Ep; intros Hr; [|by outcome_inv].
  apply bind_ret in Hr as (sl & Hs & Hr). destruct (remove_ret _ _ _ Hs) as (_ & _ & Hg).
  apply links_from_handles in Hr. split.
  - etrans; [|exact Hr]. intros k q. cbn. rewrite Hg. destruct (decide _); [done|by eauto].
  - unfold get. destruct (slab_get (peer_slab t') (slot l)) as [q|] eqn:Eq; [|done].
    destruct (Hr _ _ Eq) as (q0 & Hq0 & _). cbn in Hq0. by rewrite Hg, decide_True in Hq0.
Qed.

(** What is left after [drop_peer]. *)
Record gone l s s' : Prop := {
  go_links : links_from (peer_table s) (peer_table s');
  go_peer : get (peer_table s') l = None;
  go_tasks : tasks s' = tasks s;
  go_uid : next_uid s' = next_uid s;
  go_elt : elt s' = elt s;
  go_sent : sends s s'
}.

Lemma withdraw_inert es : forall s x s' excl,
  withdraw_streams es excl s = Ret (x, s') ->
  peer_table s' = peer_table s /\ tasks s' = tasks s /\ next_uid s' = next_uid s /\ elt s' = elt s /\ sends s s'.
Proof.
  induction es as [|e es IH]; intros s x s' excl; cbn [withdraw_streams].
  { intros [= <- <-]. split_and!; try done. by apply sends_same. }
  unfold mbind, M_bind, get_peer, gets. destruct (_ || _)%bool; cbn; intros Hr; [by apply IH in Hr|].
  apply IH in Hr as (E1 & E2 & E3 & E4 & ms & E5 & Hms). cbn in E1, E2, E3, E4, E5. split_and!; try done.
  exists (StreamIdWithdrawal (fe_link e) (fe_stream e) :: ms). rewrite E5, <- app_assoc. split; [done|by constructor].
Qed.

Lemma drop_peer_gone l s x s' : drop_peer l s = Ret (x, s') -> gone l s s'.
Proof.
  unfold drop_peer, mbind, M_bind, gets, lift. cbn.
  assert (forall s1, links_from (peer_table s) (peer_table s1) -> tasks s1 = tasks s -> next_uid s1 = next_uid s ->
    elt s1 = elt s -> sends s s1 ->
    match (a ← remove (peer_table s1) l; Ret (a, s1)) with
    | Ret (a, s'0) => put_peers a s'0 | Panic => Panic end = Ret (x, s') -> gone l s s') as Hrem.
  { intros s1 Hfrom Et Eu Ee Hse. destruct (remove (peer_table s1) l) as [t'|] eqn:Er; [|done]. cbn. intros [= _ <-].
    destruct (remove_gone _ _ _ Er) as [Hfr Hg]. split; cbn; try done. by etrans. }
  destruct (decide (ph_mode s = Node)); [|by apply Hrem; try done; apply sends_same].
  destruct (revoke_for_link _ l _) as [[[vt' t'] w]|] eqn:Er; [|done]. cbn.
  destruct (withdraw_streams w (Some l) _) as [[u s1]|] eqn:Ew; [|done].
  destruct (withdraw_inert _ _ _ _ _ Ew) as (E1 & E2 & E3 & E4 & E5). cbn in E1, E2, E3, E4. apply Hrem; [|done|done|done|done].
  rewrite E1. by eapply links_from_link.
Qed.

End drop.
End LinkDrop.
