(* ===== verification/LinkProtocol.v ===== *)
(** * Links: the protocol

    The state machine of a link as a table: which states an event may lead to
    ([allowed]).  [LinkHandlers] shows that the handlers keep to it.  Also what every
    handler keeps of a peer ([evolve]), and what must be pending for a link not to
    hang ([armed]). *)
From Stdlib Require Import ZArith Lia.
From stdpp Require Import base tactics option list numbers gmap.
From S2P Require Import Prelude Slab NetDefs Tc ForwardingTables TxnMgr Auth LinkTypes PeerTable PeerTableProps VisaTable AddressPool ZdprReceiver Assembly NodeBindInv LinkFsm.
From stdpp Require Import list.
Import ForwardingTables Auth LinkTypes PeerTable PeerTableProps Asm NodeBindInv LinkFsm.

Local Open Scope Z_scope.

Module LinkProtocol.

(** ** The table *)

Definition closing (ty : LinkType) (reason : Z) (st st' : LinkState) : bool :=
  match ty with
  | Internal => bool_decide (st' = st)
  | NodeToAdapter =>
      bool_decide (st' = Closing)
      || ((reason =? TerminateReason.Shutdown) && bool_decide (st' = Disconnecting reason))
  | _ => bool_decide (st' = Closing)
  end.

(** The states [st'] of a link of type [ty] that [ev] may lead to from [st]. *)
Definition allowed (ty : LinkType) (st : LinkState) (ev : LinkEvent) (st' : LinkState) : bool :=
  let stays := bool_decide (st' = st) in
  let one_of l := existsb (fun x => bool_decide (st' = x)) l in
  match ev with
  | Start =>
      match st, ty with
      | Inactive, NodeToNode => one_of [Error]
      | Inactive, _ => one_of [Keying]
      | _, _ => stays
      end
  | KeyingDone => match st with Keying => one_of [Keying; Helloing] | _ => stays end
  | ReceivedHelloRequest =>
      match ty, st with
      | NodeToNode, Helloing => one_of [Active]
      | NodeToAdapter, Helloing => one_of [WaitForAcquireZprAddress]
      | _, _ => stays
      end
  | ReceivedHelloResponse code _ _ =>
      if code =? ResponseCode.Other then closing ty TerminateReason.Other st st'
      else
        match ty, st with
        | AdapterToNode, Helloing => one_of [WaitForInitAuth; WaitForUserAuth; RegisterAA; Closing]
        | NodeToNode, Helloing => one_of [Active]
        | _, _ => stays
        end
  | ReceivedInitAuth _ _ =>
      match ty, st with
      | AdapterToNode, WaitForInitAuth => one_of [WaitForUserAuth; RegisterAA; Closing]
      | _, _ => stays
      end
  | ReceivedInitAuthTimeout =>
      match ty, st with NodeToAdapter, WaitForAcquireZprAddress => one_of [Closing] | _, _ => stays end
  | ReceivedAcquireZprAddressRequest _ _ =>
      match ty, st with
      | NodeToAdapter, WaitForAcquireZprAddress => one_of [Closing; RegisterAA; Active]
      | _, _ => stays
      end
  | ReceivedGrantZprAddressRequest _ =>
      match ty, st with AdapterToNode, RegisterAA => one_of [Active; Closing] | _, _ => stays end
  | AuthenticationSuccess _ =>
      match st with RegisterAA | WaitForUserAuth => one_of [RegisterAA] | _ => stays end
  | AuthenticationFailure _ => closing ty TerminateReason.Other Error st'
  | ReceivedAuthorizeResponse _ =>
      match ty, st with NodeToAdapter, RegisterAA => one_of [Active] | _, _ => stays end
  | ReceivedAuthorizeFailure _ =>
      match ty, st with NodeToAdapter, RegisterAA => one_of [Closing] | _, _ => stays end
  | ReceivedTerminateLink _ => one_of [Closing]
  | ReceivedDisconnectAck =>
      match ty, st with NodeToAdapter, Disconnecting _ => one_of [Closing] | _, _ => stays end
  | Close reason => closing ty reason st st'
  | EventError => closing ty TerminateReason.Other st st'
  | CloseDone => match st with Closing => one_of [Inactive] | Resetting => false | _ => stays end
  | Timeout _ =>
      stays ||
      match ty, st with
      | AdapterToNode, (WaitForUserAuth | RegisterAA | Helloing) => one_of [Closing]
      | NodeToAdapter, Keying => one_of [Closing]
      | Internal, Active => one_of [Error]
      | _, Active => one_of [Closing]
      | _, _ => false
      end
  | AssignedAAA _ | ReceivedInitAuthAck | ReceivedRenewAuthRequest _ | ReceivedRenewAuthResponse _ _
  | ReceivedKeepAliveResponse | ReceivedTerminateAck => stays
  end.

(** A closed link whose entry is removed has no next state: nothing is allowed for the
    end of a reset. *)

(** ** What is pending *)

(** Tasks that bring a close to its end. *)
Definition finishes (l : Z) (k : Task) : bool :=
  match k with DropLinkTask j | CloseDoneTask j => j =? l | _ => false end.
Definition stops (l : Z) (k : Task) : bool :=
  match k with StopVsConnTask j => j =? l | _ => false end.
Definition authorizes (l : Z) (k : Task) : bool :=
  match k with AuthorizeConnectTask j _ => j =? l | _ => false end.

Definition timer (lk : LinkStateWrapper) : bool :=
  match timeout_handle (locked_fsm lk) with Some _ => true | None => false end.

(** A node is never in the states in which an adapter waits for its user. *)
Definition legal (lk : LinkStateWrapper) : bool :=
  match link_type lk, get_state lk with
  | NodeToAdapter, (WaitForUserAuth | WaitForInitAuth) => false
  | _, _ => true
  end.

(** A timeout is set, or a task will come back to the link. *)
Definition armed (l : Z) (lk : LinkStateWrapper) (ts : list Task) : bool :=
  match link_type lk, get_state lk with
  | (AdapterToNode | NodeToAdapter), Active => timer lk
  | AdapterToNode, (WaitForUserAuth | RegisterAA | Helloing) => timer lk
  | NodeToAdapter, Keying => timer lk
  | NodeToAdapter, RegisterAA => existsb (authorizes l) ts
  | NodeToAdapter, Disconnecting _ => existsb (stops l) ts
  | (AdapterToNode | NodeToAdapter), Closing => timer lk || existsb (finishes l) ts
  | _, Resetting => existsb (finishes l) ts
  | _, _ => true
  end.

(** ** What handlers keep *)

Definition data_ok (d : LinkData) : Prop :=
  (auth_renewal_deadline d <> None -> auth_expires d <> None) /\
  authenticated_namespaces d <> Some (mkNS false false).

Section evolve.
Context `{SlabOps slab}.
Implicit Types p q r : PeerState slab.

Definition peer_inv p : Prop :=
  data_ok (locked_data (link_state_machine p)) /\ Rx.reset (zdpr_recv p) <> Panic.

(** The entry is the same one, [n] ticks of its logical clock later. *)
Record evolve (n : Z) p q : Prop := {
  e_id : id (link_state_machine q) = id (link_state_machine p);
  e_uid : uid (link_state_machine q) = uid (link_state_machine p);
  e_type : link_type (link_state_machine q) = link_type (link_state_machine p);
  e_key : auth_key q = auth_key p;
  e_inv : peer_inv p -> peer_inv q;
  e_clock : logical_clock (locked_fsm (link_state_machine q)) =
    wrap 64 (logical_clock (locked_fsm (link_state_machine p)) + n)
}.

Definition clock_ok p : Prop := u64 (logical_clock (locked_fsm (link_state_machine p))).

Lemma evolve_refl p : clock_ok p -> evolve 0 p p.
Proof. intros Hc. split; try done. by rewrite Z.add_0_r, wrap_small. Qed.

Lemma evolve_trans n m p q r : evolve n p q -> evolve m q r -> evolve (n + m) p r.
Proof.
  intros [] []. split; try congruence; [auto|]. rewrite e_clock1, e_clock0. unfold wrap.
  rewrite Zplus_mod_idemp_l. f_equal. lia.
Qed.

Lemma evolve_clock n p q : evolve n p q -> clock_ok q.
Proof. intros []. unfold clock_ok. rewrite e_clock0. unfold wrap, u64. apply Z.mod_pos_bound. lia. Qed.

(** One tick, none, a change of the data kept. *)
Lemma evolve_tick (f : LinkStateMachine -> LinkStateMachine) p :
  (forall x, logical_clock (f x) = wrapping_add 64 (logical_clock x) 1) ->
  evolve 1 p (on_link (on_fsm f) p).
Proof. intros Hf. split; try done. cbn. apply Hf. Qed.
Lemma evolve_fsm (f : LinkStateMachine -> LinkStateMachine) p :
  clock_ok p -> (forall x, logical_clock (f x) = logical_clock x) -> evolve 0 p (on_link (on_fsm f) p).
Proof. intros Hc Hf. split; try done. cbn. rewrite Hf, Z.add_0_r, wrap_small; done. Qed.
Lemma evolve_link (f : LinkStateWrapper -> LinkStateWrapper) p :
  clock_ok p ->
  (forall x, id (f x) = id x /\ uid (f x) = uid x /\ link_type (f x) = link_type x /\
     locked_fsm (f x) = locked_fsm x) ->
  (data_ok (locked_data (link_state_machine p)) -> data_ok (locked_data (f (link_state_machine p)))) ->
  evolve 0 p (on_link f p).
Proof.
  intros Hc Hf Hd. destruct (Hf (link_state_machine p)) as (E1 & E2 & E3 & E4). split; try done.
  - intros [H1 H2]. split; [by apply Hd|done].
  - cbn. rewrite E4, Z.add_0_r, wrap_small; done.
Qed.

End evolve.
End LinkProtocol.
