(* ===== verification/LinkHandlers.v ===== *)
(** * Links: the handlers keep to the protocol

    Every handler, run on any peer: it leaves the link in a state the table allows,
    keeps what must be pending, and panics only for a listed reason. *)
From Stdlib Require Import ZArith Lia.
From stdpp Require Import base tactics option list numbers gmap.
From S2P Require Import Prelude Slab NetDefs Tc ForwardingTables TxnMgr Auth LinkTypes PeerTable PeerTableProps VisaTable AddressPool ZdprReceiver ZdprSender Assembly NodeBindInv LinkFsm LinkInv LinkDrop LinkProtocol.
From stdpp Require Import list.
Import ForwardingTables Auth LinkTypes PeerTable PeerTableProps Asm NodeBindInv LinkFsm LinkInv LinkDrop LinkProtocol.

Local Open Scope Z_scope.

Module LinkHandlers.

(** The link a task comes back to. *)
Definition task_link (k : Task) : option Z :=
  match k with
  | VisaRequestTask l _ _ | VisaPushRequestTask l _ _ | AuthorizeConnectTask l _ | InitAuthTask l
  | EchoTask _ l | TerminateTask l | StopVsConnTask l | OidcTask l _ _ _ _ | RenewalAgentTask l _ _ _
  | RenewalTimeoutTask l _ _ | AdapterRenewalTask _ l _ _ _ _ | ReauthorizeTask l _ _
  | ReauthorizeWaitTask l _ _ _ | DropLinkTask l | CloseDoneTask l | RestartTask l
  | ZdprWorkerTask l => Some l
  | RestartVsConnTask | ActorDisconnectTask _ | SelfReauthTask => None
  end.
(** Tasks of other parts of the program. *)
Definition bind_task (k : Task) : bool :=
  match k with VisaRequestTask _ _ _ | VisaPushRequestTask _ _ _ => true | _ => false end.
Definition task_of (l : Z) (k : Task) : bool :=
  negb (bind_task k) && match task_link k with Some j => j =? l | None => true end.

Section handlers.
Context `{NetDefs} `{Crypto} `{VisaEnv} `{TunCtl} `{FlowTables} `{Slab slab}.
Context (VISA_SERVICE_DN : list Z) (env : Env) (l : Z) (Hl : u32 l) (E : Prop).
(** The reasons for a panic. *)
Hypothesis E_noise : noise_new env = None -> E.

Notation M := (M slab).
Notation R := (unit + LinkStateError)%type.
Notation at_link := (at_link l).
Implicit Types (s : Assembly slab) (p : PeerState slab) (ts : list Task).

Notation lk p := (link_state_machine p).
Notation st p := (get_state (link_state_machine p)).
Notation ty p := (link_type (link_state_machine p)).

(** ** Closing *)

Definition closing_peer p : PeerState slab :=
  on_link (on_fsm (set_timeout_callback DEFAULT_TERMINATE_TIMEOUT)) (on_link (on_fsm (set_state Closing)) p).

Lemma w_continue_close reason s0 p ts s (Q : R -> Assembly slab -> Prop) :
  at_link s0 p ts s ->
  (forall s', at_link s0 (closing_peer p) (ts ++ [TerminateTask l]) s' -> Q (inl tt) s') ->
  wpe E (continue_close l reason) s Q.
Proof.
  intros Hat HQ. unfold continue_close. link_steps. by apply HQ.
Qed.

Lemma evolve_state x p : evolve 1 p (on_link (on_fsm (set_state x)) p).
Proof. by apply evolve_tick. Qed.
Lemma evolve_timeout d p : evolve 1 p (on_link (on_fsm (set_timeout_callback d)) p).
Proof. by apply evolve_tick. Qed.

(** What closing does to a peer, and the tasks it adds. *)
Record closed (reason : Z) p p' ts : Prop := {
  c_evolve : exists n, 1 <= n <= 2 /\ evolve n p p';
  c_state : (st p' = Closing /\ timer (lk p') = true) \/
    (ty p = NodeToAdapter /\ reason = TerminateReason.Shutdown /\ st p' = Disconnecting reason /\
     existsb (stops l) ts = true);
  c_tasks : Forall (fun k => task_of l k = true) ts
}.

Lemma closed_after n reason p q p' ts :
  evolve n p q -> n = 0 -> closed reason q p' ts -> closed reason p p' ts.
Proof.
  intros Hn -> [(m & Hm & He) Hs Ht]. split; [|by rewrite <- (e_type _ _ _ Hn)|done].
  exists m. split; [done|]. by apply (evolve_trans 0 m p q).
Qed.

Lemma closed_continue reason p ts :
  Forall (fun k => task_of l k = true) ts -> closed reason p (closing_peer p) (ts ++ [TerminateTask l]).
Proof.
  intros Ht. split.
  - exists (1 + 1). split; [lia|]. eapply evolve_trans; [apply evolve_state|apply evolve_timeout].
  - by left.
  - apply list.Forall_app. split; [done|]. constructor; [|done]. cbn. apply Z.eqb_refl.
Qed.

Lemma w_disconnect reason s0 p ts s (Q : R -> Assembly slab -> Prop) :
  at_link s0 p ts s -> clock_ok p ->
  (forall p' ts' s', at_link s0 p' (ts ++ ts') s' -> closed reason p p' ts' -> Q (inl tt) s') ->
  wpe E (maybe_disconnect_visa_service_client l reason) s Q.
Proof.
  intros Hat Hc HQ. unfold maybe_disconnect_visa_service_client. apply wpe_bind.
  set (q := if reason =? TerminateReason.Shutdown then on_link (on_fsm (set_shutting_down true)) p else p).
  assert (evolve 0 p q) as Hq by (unfold q; destruct (_ =? _); [by apply evolve_fsm|by apply evolve_refl]).
  assert (forall ts' s', at_link s0 q (ts ++ ts') s' -> Forall (fun k => task_of l k = true) ts' ->
    wpe E (continue_close l reason) s' Q) as Hcc.
  { intros ts' s' Hs' Ht. eapply w_continue_close; [done|]. intros s2 Hs2. rewrite <- app_assoc in Hs2.
    eapply HQ; [done|]. eapply closed_after; [done|done|]. by apply closed_continue. }
  assert (forall s', at_link s0 q ts s' -> wpe E (continue_close l reason) s' Q) as Hcc0
    by (intros s' Hs'; apply (Hcc []); [by rewrite app_nil_r|done]).
  apply (wpe_mono E E _ s (fun _ => at_link s0 q ts)); [|done|].
  { unfold q. destruct (reason =? TerminateReason.Shutdown); cbn [when]; link_steps; done. }
  intros [] s1 Hs1. link_steps; [|by auto|..|by auto|by auto].
  - apply (Hcc [RestartVsConnTask]); [done|by constructor].
  - eapply HQ; [done|]. eapply closed_after; [done|done|].
    apply andb_true_iff in Heqb as [Hty%bool_decide_eq_true _]. apply negb_false_iff, Z.eqb_eq in Heqb0.
    split; [exists 1; split; [lia|apply evolve_state]|right|].
    + split_and!; [done|done|done|]. cbn. by rewrite Z.eqb_refl.
    + constructor; [|done]. cbn. apply Z.eqb_refl.
Qed.

Lemma w_initiate_close reason s0 p ts s (Q : R -> Assembly slab -> Prop) :
  at_link s0 p ts s -> clock_ok p -> ty p <> Internal ->
  (forall p' ts' s', at_link s0 p' (ts ++ ts') s' -> closed reason p p' ts' -> Q (inl tt) s') ->
  wpe E (initiate_close l reason) s Q.
Proof.
  intros Hat Hc Hty HQ. unfold initiate_close. link_steps.
  - by apply bool_decide_eq_true in Heqb.
  - eapply w_disconnect; [done| |].
    + by eapply evolve_clock, evolve_link.
    + intros p' ts' s' Hs' Hcl. eapply HQ; [done|]. eapply closed_after; [|done|done]. by apply evolve_link.
  - by eapply w_disconnect.
Qed.

Lemma w_fail_close reason s0 p ts s (Q : R -> Assembly slab -> Prop) :
  at_link s0 p ts s -> ty p <> Internal ->
  (forall p' ts' s', at_link s0 p' (ts ++ ts') s' ->
     closed reason (on_link (on_fsm (set_state Error)) p) p' ts' -> Q (inl tt) s') ->
  wpe E (fail_close l reason) s Q.
Proof.
  intros Hat Hty HQ. unfold fail_close. link_steps. eapply w_initiate_close; [done| |done|done].
  eapply evolve_clock, evolve_state.
Qed.

(** ** Peers and tasks along a handler *)

Lemma evolve_tick' n (f : LinkStateMachine -> LinkStateMachine) p q :
  evolve n p q -> (forall x, logical_clock (f x) = wrapping_add 64 (logical_clock x) 1) ->
  evolve (n + 1) p (on_link (on_fsm f) q).
Proof. intros Hn Hf. eapply evolve_trans; [done|]. by apply evolve_tick. Qed.
Lemma evolve_fsm' n (f : LinkStateMachine -> LinkStateMachine) p q :
  evolve n p q -> (forall x, logical_clock (f x) = logical_clock x) -> evolve n p (on_link (on_fsm f) q).
Proof.
  intros Hn Hf. replace n with (n + 0) by lia. eapply evolve_trans; [done|].
  apply evolve_fsm; [by eapply evolve_clock|done].
Qed.
Lemma evolve_link' n (f : LinkStateWrapper -> LinkStateWrapper) p q :
  evolve n p q ->
  (forall x, id (f x) = id x /\ uid (f x) = uid x /\ link_type (f x) = link_type x /\
     locked_fsm (f x) = locked_fsm x) ->
  (data_ok (locked_data (lk q)) -> data_ok (locked_data (f (lk q)))) ->
  evolve n p (on_link f q).
Proof.
  intros Hn Hf Hd. replace n with (n + 0) by lia. eapply evolve_trans; [done|].
  apply evolve_link; [by eapply evolve_clock|done|done].
Qed.

Lemma evolve_km n h p q : evolve n p q -> evolve n p (set_km_handle_field h q).
Proof. intros []. by split. Qed.
Lemma ns_nonempty (bs : list AuthBlob) : bs <> [] -> blob_namespaces bs <> mkNS false false.
Proof. by destruct bs as [|[] bs]; intros Hne [=]. Qed.
Lemma evolve_namespaces n (ns : NamespaceSet) p q :
  evolve n p q -> ns <> mkNS false false -> evolve n p (on_link (set_authenticated_namespaces ns) q).
Proof. intros Hn Hns. eapply evolve_link'; [done|done|]. intros [Hd _]. split; [done|]. cbn. congruence. Qed.

(** Tasks are added for this link; only tasks with an identifier are aborted. *)
Record tasks_ok ts ts' : Prop := {
  t_kept : forall k, k ∈ ts -> task_id k = None -> k ∈ ts';
  t_new : forall k, k ∈ ts' -> k ∈ ts \/ task_of l k = true
}.

Lemma tasks_ok_refl ts : tasks_ok ts ts.
Proof. split; auto. Qed.
Lemma tasks_ok_app ts ts1 ts2 :
  tasks_ok ts ts1 -> Forall (fun k => task_of l k = true) ts2 -> tasks_ok ts (ts1 ++ ts2).
Proof.
  intros [Hk Hn] Hf. rewrite list.Forall_forall in Hf. split.
  - intros k Hin Hid. apply elem_of_app. auto.
  - intros k [Hin|Hin]%elem_of_app; auto.
Qed.
Lemma tasks_ok_abort ts ts1 n :
  tasks_ok ts ts1 -> tasks_ok ts (filter (fun k => task_id k <> Some n) ts1).
Proof.
  intros [Hk Hn]. split.
  - intros k Hin Hid. apply list_elem_of_filter. rewrite Hid. auto.
  - intros k [_ Hin]%list_elem_of_filter. auto.
Qed.
Lemma tasks_ok_exists (f : Task -> bool) ts ts' :
  tasks_ok ts ts' -> (forall k, f k = true -> task_id k = None) ->
  existsb f ts = true -> existsb f ts' = true.
Proof.
  intros Hok Hf (k & Hin & Hk)%existsb_exists. apply existsb_exists. exists k. split; [|done].
  apply list_elem_of_In. apply (t_kept _ _ Hok); [by apply list_elem_of_In|auto].
Qed.

(** The same state with the same timeout stays armed. *)
Lemma armed_same p p' ts ts' :
  tasks_ok ts ts' -> ty p' = ty p -> st p' = st p -> (timer (lk p) = true -> timer (lk p') = true) ->
  armed l (lk p) ts = true -> armed l (lk p') ts' = true.
Proof.
  intros Hok Ht Hs Hti. unfold armed. rewrite Ht, Hs.
  assert (existsb (finishes l) ts = true -> existsb (finishes l) ts' = true) as Hx1
    by (apply tasks_ok_exists; [done|by intros []]).
  assert (existsb (stops l) ts = true -> existsb (stops l) ts' = true) as Hx2
    by (apply tasks_ok_exists; [done|by intros []]).
  assert (existsb (authorizes l) ts = true -> existsb (authorizes l) ts' = true) as Hx3
    by (apply tasks_ok_exists; [done|by intros []]).
  destruct (ty p), (st p); auto; rewrite !orb_true_iff; intuition.
Qed.

(** ** What an event does to its link *)

Record good ev s0 p0 p' ts' (n : Z) : Prop := {
  g_evolve : evolve n p0 p';
  g_ticks : 0 <= n <= 8;
  g_moved : st p' <> st p0 -> 1 <= n;
  g_allowed : allowed (ty p0) (st p0) ev (st p') = true;
  g_armed : legal (lk p0) = true -> armed l (lk p0) (tasks s0) = true \/ st p' <> st p0 ->
    armed l (lk p') ts' = true;
  g_tasks : tasks_ok (tasks s0) ts'
}.
Definition settles ev s0 p0 s' : Prop :=
  exists p' ts' n, at_link s0 p' ts' s' /\ good ev s0 p0 p' ts' n.

Lemma settles_stay ev s0 p0 p' ts' n s' :
  at_link s0 p' ts' s' -> evolve n p0 p' -> 0 <= n <= 8 -> tasks_ok (tasks s0) ts' ->
  st p' = st p0 -> (timer (lk p0) = true -> timer (lk p') = true) ->
  allowed (ty p0) (st p0) ev (st p0) = true -> settles ev s0 p0 s'.
Proof.
  intros Hat He Hn Ht Hs Hti Ha. exists p', ts', n. split; [done|]. split; try done.
  - by rewrite Hs.
  - intros _ [Harm|]; [|done]. revert Harm. apply armed_same; try done. apply He.
Qed.

Lemma settles_closed ev reason s0 p0 p ts n p' ts' s' :
  at_link s0 p' (ts ++ ts') s' -> closed reason p p' ts' -> evolve n p0 p -> 0 <= n <= 6 ->
  tasks_ok (tasks s0) ts -> ty p0 <> Internal ->
  allowed (ty p0) (st p0) ev Closing = true ->
  (reason = TerminateReason.Shutdown -> ty p0 = NodeToAdapter ->
     allowed (ty p0) (st p0) ev (Disconnecting reason) = true) ->
  settles ev s0 p0 s'.
Proof.
  intros Hat [(m & Hm & Hem) Hst Hf] He Hn Ht Hty Ha1 Ha2. exists p', (ts ++ ts'), (n + m).
  pose proof (evolve_trans _ _ _ _ _ He Hem) as Hev.
  split; [done|]. split; [done|lia|lia| | |by apply tasks_ok_app].
  - destruct Hst as [[-> _]|(Et & Er & -> & _)]; [done|]. apply Ha2; [done|]. by rewrite <- (e_type _ _ _ He).
  - intros _ _. unfold armed. rewrite (e_type _ _ _ Hev). destruct Hst as [[-> Hti]|(Et & Er & -> & Hx)].
    + rewrite Hti. by destruct (ty p0).
    + rewrite <- (e_type _ _ _ He), Et, existsb_app, Hx. apply orb_true_r.
Qed.

(** ** Cleaning up *)

Lemma w_set_carrier up s0 p ts s (Q : unit -> Assembly slab -> Prop) :
  (forall t b, tun_reaches (tun s0) t -> (tun_set_carrier t b).1 = false -> E) ->
  at_link s0 p ts s -> (forall s', at_link s0 p ts s' -> Q tt s') -> wpe E (set_carrier up) s Q.
Proof.
  intros E_carrier Hat HQ. unfold set_carrier. link_step. eapply w_tun; [done|intros ?; constructor|]. intros s1 Hs1.
  apply wpe_assert; [by auto|]. apply E_carrier, Hat.
Qed.

Lemma w_clear_flows s0 p ts s (Q : unit -> Assembly slab -> Prop) :
  at_link s0 p ts s -> (forall s', at_link s0 p ts s' -> Q tt s') -> wpe E clear_flows s Q.
Proof.
  intros Hat HQ. unfold clear_flows. do 3 link_step. destruct (elt_clear_ok (elt s)) as (e & He & Hok); [apply Hat|].
  rewrite He. apply wpe_lift; [|done]. intros e' [= <-]. apply wpe_bind. unfold wpe at 1. cbn.
  assert (at_link s0 p ts (set_elt e s)) as Hat1 by (destruct Hat; by split). clear Hat.
  do 2 link_step. destruct (dlt_clear_ok (dlt (set_elt e s))) as (d & Hd & _). apply wpe_bind, wpe_lift; [|by rewrite Hd].
  intros d' Hd'. link_steps. by apply HQ.
Qed.

Lemma w_spawn_disconnects addrs : forall s0 p ts s (Q : unit -> Assembly slab -> Prop),
  at_link s0 p ts s ->
  (forall ts' s', at_link s0 p (ts ++ ts') s' -> Forall (fun k => task_of l k = true) ts' -> Q tt s') ->
  wpe E (spawn_disconnects addrs) s Q.
Proof.
  induction addrs as [|a r IH]; intros s0 p ts s Q Hat HQ; cbn [spawn_disconnects].
  - apply wpe_ret, (HQ []); [by rewrite app_nil_r|done].
  - link_steps. eapply IH; [done|]. intros ts' s' Hs' Hf. rewrite <- app_assoc in Hs'.
    eapply HQ; [done|]. by constructor.
Qed.

(** The peer and the tasks after [clean_up_link_state]. *)
Record cleaned p p' ts : Prop := {
  cl_evolve : evolve 0 p p';
  cl_state : st p' = st p;
  cl_timer : timer (lk p') = timer (lk p);
  cl_aaa : (st p = Closing \/ st p = Resetting) -> aaa_address (locked_data (lk p')) = None;
  cl_tasks : Forall (fun k => task_of l k = true) ts;
  cl_finish : (st p = Closing \/ st p = Resetting) -> existsb (finishes l) ts = true
}.

Lemma w_release_aaa s0 p ts s (Q : unit -> Assembly slab -> Prop) :
  at_link s0 p ts s -> clock_ok p ->
  (forall p' s', at_link s0 p' ts s' -> evolve 0 p p' -> locked_fsm (lk p') = locked_fsm (lk p) ->
     aaa_address (locked_data (lk p')) = None -> Q tt s') ->
  wpe E (release_aaa l) s Q.
Proof.
  intros Hat Hc HQ. unfold release_aaa. link_steps.
  destruct (aaa_address (locked_data (lk p))) as [a|] eqn:Ea; cycle 1.
  { apply wpe_ret. eapply HQ; [done|by apply evolve_refl|done|done]. }
  link_steps. assert (evolve 0 p (on_link (on_data (set_aaa_address None)) p)) as He by (by apply evolve_link).
  destruct (address_pool _) as [q|]; [|by link_steps; eapply HQ].
  destruct (AddressPool.release_address q a); link_steps; by eapply HQ.
Qed.

Lemma w_clean_up s0 p ts s (Q : unit -> Assembly slab -> Prop) :
  (forall t b, tun_reaches (tun s0) t -> (tun_set_carrier t b).1 = false -> E) ->
  at_link s0 p ts s -> clock_ok p ->
  (forall p' ts' s', at_link s0 p' (ts ++ ts') s' -> cleaned p p' ts' -> Q tt s') ->
  wpe E (clean_up_link_state l) s Q.
Proof.
  intros E_carrier Hat Hc HQ. unfold clean_up_link_state. link_step. link_step.
  assert (~ (st p = Closing \/ st p = Resetting) -> Q tt s) as Hno.
  { intros Hn. apply (HQ p []); [by rewrite app_nil_r|]. split; try done. by apply evolve_refl. }
  assert ((st p = Closing \/ st p = Resetting) -> wpe E
    (_ ← release_aaa l;
     _ ← modify (fun s => set_peers (clear_peer_state (peer_table s) l) s);
     _ ← match ty p with
         | AdapterToNode => _ ← set_carrier false; clear_flows
         | NodeToAdapter => deregister_actor_addresses l
         | _ => mret tt
         end;
     spawn (DropLinkTask l)) s Q) as Hyes.
  2: { destruct (st p); try (apply wpe_ret, Hno; intros []; done); apply Hyes; auto. }
  intros Hs. apply wpe_bind. eapply w_release_aaa; [done|done|]. intros p1 s1 Hs1 He1 Ef1 Ea1.
  apply wpe_bind. change (modify _) with (update_peer l (fun p => set_pft (pft_clear (pft p)) p)).
  eapply w_update; [done|done|by intros|by intros|]. intros s2 Hs2.
  set (p2 := set_pft _ p1) in Hs2.
  assert (evolve 0 p p2 /\ locked_fsm (lk p2) = locked_fsm (lk p)) as [He2 Ef2]
    by (split; [destruct He1; by split|done]).
  assert (forall p' ts' s', at_link s0 p' (ts ++ ts') s' -> evolve 0 p p' -> st p' = st p ->
    timer (lk p') = timer (lk p) -> aaa_address (locked_data (lk p')) = None ->
    Forall (fun k => task_of l k = true) ts' ->
    wpe E (spawn (DropLinkTask l)) s' Q) as Hend.
  { intros p' ts' s' Hs' He Est Eti Eaa Hf. link_steps. rewrite <- app_assoc in Hat0. eapply HQ; [done|].
    split; try done.
    - apply list.Forall_app. split; [done|]. constructor; [|done]. cbn. apply Z.eqb_refl.
    - intros _. rewrite existsb_app. cbn. rewrite Z.eqb_refl. apply orb_true_r. }
  assert (st p2 = st p /\ timer (lk p2) = timer (lk p)) as [Es Et] by (unfold get_state, timer; by rewrite Ef2).
  apply wpe_bind. destruct (ty p).
  - apply wpe_ret, (Hend p2 []); try done. by rewrite app_nil_r.
  - apply wpe_bind. eapply w_set_carrier; [exact E_carrier|done|]. intros s3 Hs3. eapply w_clear_flows; [done|].
    intros s4 Hs4. apply (Hend p2 []); try done. by rewrite app_nil_r.
  - apply wpe_ret, (Hend p2 []); try done. by rewrite app_nil_r.
  - unfold deregister_actor_addresses. apply wpe_bind, w_is_vs. intros []; cbn beta iota.
    { apply wpe_ret, (Hend p2 []); try done. by rewrite app_nil_r. }
    do 5 link_step. eapply w_spawn_disconnects; [done|]. intros ts' s4 Hs4 Hf.
    eapply Hend; [done| |done|done|done|done]. by apply evolve_fsm'.
Qed.

Lemma settles_cleaned ev s0 p0 p ts n p' ts' s' :
  at_link s0 p' (ts ++ ts') s' -> cleaned p p' ts' -> evolve n p0 p -> 0 <= n <= 8 ->
  tasks_ok (tasks s0) ts -> st p = Closing -> (st p0 <> Closing -> 1 <= n) ->
  allowed (ty p0) (st p0) ev Closing = true -> settles ev s0 p0 s'.
Proof.
  intros Hat Hcl He Hn Ht Hst Hm Ha. pose proof (cl_state _ _ _ Hcl) as Es. rewrite Hst in Es.
  exists p', (ts ++ ts'), (n + 0).
  pose proof (evolve_trans _ _ _ _ _ He (cl_evolve _ _ _ Hcl)) as Hev. split; [done|]. split.
  - done.
  - lia.
  - rewrite Es. intros Hne. rewrite Z.add_0_r. auto.
  - by rewrite Es.
  - intros _ _. unfold armed. rewrite Es, existsb_app, (cl_finish _ _ _ Hcl), !orb_true_r by auto.
    by destruct (ty p').
  - apply tasks_ok_app; [done|]. apply Hcl.
Qed.

(** ** Starting *)

Lemma w_reset_session s0 p ts s (Q : unit -> Assembly slab -> Prop) :
  at_link s0 p ts s -> clock_ok p -> peer_inv p ->
  (forall p' s', at_link s0 p' ts s' -> evolve 0 p p' -> lk p' = lk p -> Q tt s') ->
  wpe E (reset_session l) s Q.
Proof.
  intros Hat Hc [Hd Hr] HQ. unfold reset_session, reset_zdpr_session. link_steps.
  destruct (Tx.reset _) as [snd ws]. destruct (Rx.reset (zdpr_recv p)) as [r|] eqn:Er; [|done].
  apply wpe_lift; [|done]. intros [p' w] [= <- <-]. cbn beta iota.
  eapply w_update; [done|done|by intros|by intros|]. intros s1 Hs1. eapply HQ; [exact Hs1| |done].
  split; try done; [|cbn; by rewrite Z.add_0_r, wrap_small]. intros _. split; [done|]. cbn. unfold Rx.reset, Rx.new in Er |- *.
  destruct (1 <=? _) eqn:E1; [|done]. destruct (Rx.window_size (zdpr_recv p) <=? _) eqn:E2; [|done].
  cbn in Er. injection Er as <-. cbn. by rewrite E1, E2.
Qed.

Lemma w_add_link s0 p ts s (Q : unit -> Assembly slab -> Prop) :
  at_link s0 p ts s ->
  (forall h s', at_link s0 (set_km_handle_field (Some h) p) ts s' -> Q tt s') ->
  wpe E (add_link env l) s Q.
Proof.
  intros Hat HQ. unfold add_link. link_step. apply wpe_lift; [|by destruct (noise_new env); auto].
  intros h Hh. do 3 link_step. apply wpe_assert; [|done]. intros _. link_step. link_step.
  unfold set_km_handle. rewrite (a_peer _ _ _ _ _ Hat). apply wpe_bind.
  change (wpe E (update_peer l (set_km_handle_field (Some h))) s (fun a s' => wpe E (mret tt) s' Q)).
  eapply w_update; [done|done|by intros|by intros|]. intros s1 Hs1. apply wpe_ret. by eapply HQ.
Qed.

Lemma w_assign names : forall s0 p ts s (Q : unit -> Assembly slab -> Prop),
  at_link s0 p ts s -> keying l s0 -> (forall s', at_link s0 p ts s' -> Q tt s') ->
  wpe E (assign_special_names l names) s Q.
Proof.
  induction names as [|n r IH]; intros s0 p ts s Q Hat Hkey HQ; cbn [assign_special_names]; [by link_steps; auto|].
  do 3 link_step. eapply w_put_peers; [done| | |done|].
  - intros Hok. by apply assign_special_ok.
  - intros j. unfold assign_special_name. by destruct (_ =? _).
  - intros s1 Hs1. by eapply IH.
Qed.

Lemma decode_items_nonempty (items : list jvalue) bs :
  decode_items items = inl bs -> items <> [] -> bs <> [].
Proof.
  destruct items as [|v r]; [done|]. cbn. destruct (decode_blob_value v); [|done].
  destruct (decode_items r); [|done]. by intros [= <-].
Qed.
Lemma decode_blobs_nonempty (b : list Z) bs : decode_blobs b = inl bs -> bs <> [].
Proof.
  unfold decode_blobs. destruct (base64_decode b); [|done]. destruct (json_from_slice _) as [v|]; [|done].
  assert (match decode_blob_value v with inl x => inl [x] | inr e => inr e end = inl bs -> bs <> []) as Hone
    by (destruct (decode_blob_value v); [by intros [= <-]|done]).
  destruct v as [| |[|v r]| |]; try done. by intros Hd%decode_items_nonempty.
Qed.

(** ** The handlers, one by one *)

Section each.
Context (s0 : Assembly slab) (p0 : PeerState slab).
Hypothesis (E_zero : l = 0 -> E) (Hat0 : at_link s0 p0 (tasks s0) s0) (Hc0 : clock_ok p0) (Hi0 : peer_inv p0).
Hypothesis E_carrier : forall t b, tun_reaches (tun s0) t -> (tun_set_carrier t b).1 = false -> E.
Hypothesis E_pool : forall q, address_pool s0 = Some q ->
  AddressPool.get_aaa_address q (pool_rnd env) = None -> E.

Ltac tasks :=
  repeat first
    [ apply tasks_ok_refl | apply tasks_ok_abort
    | apply tasks_ok_app; [|repeat first [apply list.Forall_nil | constructor]; cbn; rewrite ?Z.eqb_refl; done] ].
Ltac evolves :=
  repeat first
    [ apply evolve_refl; done
    | eassumption
    | eapply evolve_km
    | eapply evolve_tick'; [|done]
    | eapply evolve_fsm'; [|done]
    | eapply evolve_namespaces; [|first [done|by apply ns_nonempty]]
    | eapply evolve_link'; [|done|intros Hdata; exact Hdata] ].
Ltac table :=
  repeat match goal with
         | Hx : link_type _ = _ |- _ => rewrite Hx
         | Hx : get_state _ = _ |- _ => rewrite Hx
         end; cbn; rewrite ?bool_decide_eq_true_2 by done; rewrite ?orb_true_r; done.
Ltac stay := eapply settles_stay; [eassumption|evolves|lia|tasks|done|done|table].
Ltac name_peer p := match goal with Hx : LinkInv.at_link _ _ ?q _ _ |- _ => set (p := q) in Hx end.
Ltac cases := destruct (ty p0) eqn:Hty, (st p0) eqn:Hst.

Lemma h_assigned_aaa a : wpe E (process_assigned_aaa l a) s0 (fun _ => settles (AssignedAAA a) s0 p0).
Proof. unfold process_assigned_aaa. link_steps. stay. Qed.

Lemma h_init_auth_ack : wpe E (process_init_auth_ack l) s0 (fun _ => settles ReceivedInitAuthAck s0 p0).
Proof. unfold process_init_auth_ack. link_steps. cases; link_steps; stay. Qed.

Ltac closes :=
  eapply settles_closed;
    [eassumption|eassumption|evolves|lia|tasks|congruence|table|first [done|intros; table]].
Ltac fails := eapply w_fail_close; [eassumption|cbn; congruence|intros ???? Hclosed; closes].

Lemma h_close reason ev :
  (forall x, allowed (ty p0) (st p0) ev x = closing (ty p0) reason (st p0) x) ->
  wpe E (initiate_close l reason) s0 (fun _ => settles ev s0 p0).
Proof.
  intros Ha. destruct (decide (ty p0 = Internal)) as [Hty|Hty].
  - unfold initiate_close. do 2 link_step. unfold is_internal. rewrite bool_decide_eq_true_2 by done.
    eapply settles_stay; [eassumption|evolves|lia|tasks|done|done|]. rewrite Ha, Hty. cbn.
    by apply bool_decide_eq_true_2.
  - eapply w_initiate_close; [done..|]. intros p' ts' s' Hs' Hcl.
    eapply settles_closed; [eassumption|eassumption|evolves|lia|tasks|done|..]; rewrite Ha.
    + by destruct (ty p0).
    + intros -> ->. cbn. done.
Qed.

Lemma h_error : wpe E (process_error_response l) s0 (fun _ => settles EventError s0 p0).
Proof. by apply h_close. Qed.

Lemma h_authentication_failure r :
  wpe E (process_authentication_failure l r) s0 (fun _ => settles (AuthenticationFailure r) s0 p0).
Proof.
  unfold process_authentication_failure. link_steps. destruct (decide (ty p0 = Internal)) as [Hty|Hty].
  - unfold fail_close, initiate_close. do 6 link_step. unfold is_internal.
    rewrite bool_decide_eq_true_2 by done. link_steps. eexists _, _, _. split; [eassumption|]. split.
    + evolves.
    + lia.
    + lia.
    + by rewrite Hty.
    + intros _ _. unfold armed. cbn. by rewrite Hty.
    + tasks.
  - destruct (ty p0) eqn:Hty'; fails.
Qed.

Lemma h_init_auth_timeout :
  wpe E (process_init_auth_timeout l) s0 (fun _ => settles ReceivedInitAuthTimeout s0 p0).
Proof. unfold process_init_auth_timeout. link_steps. cases; link_steps; (stay || fails). Qed.

Lemma h_authorize_failure code :
  wpe E (process_authorize_failure l code) s0 (fun _ => settles (ReceivedAuthorizeFailure code) s0 p0).
Proof. unfold process_authorize_failure. link_steps. cases; link_steps; (stay || fails). Qed.

Lemma h_disconnect_ack : wpe E (process_disconnect_ack l) s0 (fun _ => settles ReceivedDisconnectAck s0 p0).
Proof.
  unfold process_disconnect_ack. link_steps. cases; link_steps; try stay.
  eapply w_continue_close; [done|]. intros s' Hs'. eapply settles_closed with (p := p0) (reason := TerminateReason.Other);
    [exact Hs'|by apply (closed_continue _ _ [])|evolves|lia|tasks|congruence|table|done].
Qed.

Lemma h_terminate_ack : wpe E (process_terminate_ack l) s0 (fun _ => settles ReceivedTerminateAck s0 p0).
Proof.
  unfold process_terminate_ack. link_steps. destruct (st p0) eqn:Hst; link_steps; try stay.
  eapply w_clean_up; [done|done|by eapply evolve_clock, evolve_tick|]. intros p' ts' s' Hs' Hcl. link_steps.
  eapply settles_cleaned; [done|done|evolves|lia|tasks|done|done|table].
Qed.

Lemma h_terminate_link r :
  wpe E (process_terminate_link l r) s0 (fun _ => settles (ReceivedTerminateLink r) s0 p0).
Proof.
  unfold process_terminate_link. link_steps. eapply w_clean_up; [done|done|eapply evolve_clock, evolve_state|].
  intros p' ts' s' Hs' Hcl. link_steps.
  eapply settles_cleaned; [done|done|evolves|lia|tasks|done|lia|done].
Qed.

(** Another state, armed by its timeout or as before. *)
Ltac arms :=
  let Hleg := fresh "Hleg" in let Harm := fresh "Harm" in
  intros Hleg Harm; unfold legal in Hleg; unfold armed in Harm |- *;
  repeat match goal with
         | Hx : link_type _ = _ |- _ => rewrite Hx in Harm, Hleg
         | Hx : get_state _ = _ |- _ => rewrite Hx in Harm, Hleg
         end; cbn in Harm |- *;
  repeat match goal with Hx : link_type _ = _ |- _ => rewrite Hx end;
  first [done|by destruct Harm].
Ltac moves :=
  eexists _, _, _; split; [eassumption|]; split;
    [evolves|lia|lia|table|arms|tasks].

Lemma h_authentication_success bs :
  bs <> [] ->
  wpe E (process_authentication_success l bs) s0 (fun _ => settles (AuthenticationSuccess bs) s0 p0).
Proof.
  intros Hbs. unfold process_authentication_success. link_steps.
  cases; link_steps; try stay; moves.
Qed.

Lemma h_start : wpe E (process_start env l) s0 (fun _ => settles Start s0 p0).
Proof.
  unfold process_start. link_step. apply wpe_assert; [intros _|intros Hz%negb_false_iff%Z.eqb_eq; auto].
  do 3 link_step.
  { apply negb_true_iff, bool_decide_eq_false in Heqb. destruct (st p0) eqn:Hst; link_steps; try done; stay. }
  apply negb_false_iff, bool_decide_eq_true in Heqb as Hst. clear Heqb. do 7 link_step.
  name_peer p1.
  assert (evolve (0 + 1) p0 p1) as He1 by (unfold p1; evolves).
  eapply w_reset_session; [done|by eapply evolve_clock|by apply He1|]. intros p2 s2 Hs2 He2 Elk.
  pose proof (evolve_trans _ _ _ _ _ He1 He2) as He.
  assert (st p2 = Keying) as Es2 by (by rewrite Elk).
  destruct (ty p0) eqn:Hty; link_steps; try (eapply w_add_link; [done|]; intros h s3 Hs3; link_steps).
  all: assert (ty p2 = ty p0) as Et2 by apply He; rewrite Hty in Et2.
  all: eexists _, _, _; split; [eassumption|]; split; [evolves|lia|lia|cbn; fold (st p2); table
    |intros _ _; unfold armed, timer; cbn; rewrite ?Elk; cbn; rewrite ?Hty; done|tasks].
Qed.

Lemma h_keying_done : wpe E (process_keying_done VISA_SERVICE_DN l) s0 (fun _ => settles KeyingDone s0 p0).
Proof.
  unfold process_keying_done. do 3 link_step.
  { apply negb_true_iff, bool_decide_eq_false in Heqb. link_steps. destruct (st p0) eqn:Hst; try done; stay. }
  apply negb_false_iff, bool_decide_eq_true in Heqb as Hst. link_steps.
  destruct (get_established_transport_association p0) as [sa|]; [|by link_steps; stay].
  apply wpe_bind. apply (wpe_mono E E _ s0 (fun _ => at_link s0 p0 (tasks s0))); [|done|].
  { destruct (peer_cert sa) as [c|]; [|done]. destruct (cert_verified c); [|done].
    eapply w_assign; [done| |done]. exists p0. split; [apply Hat0|done]. }
  clear Hat0. intros [] s1 Hs1. link_steps; destruct (ty p0) eqn:Hty; try done; moves.
Qed.

Lemma w_allocate (Q : option (list Z) -> Assembly slab -> Prop) :
  (forall a s', at_link s0 p0 (tasks s0) s' -> Q a s') -> wpe E (allocate_aaa env) s0 Q.
Proof.
  intros HQ. unfold allocate_aaa. link_steps. destruct (address_pool s0) as [q|]; [|by apply wpe_ret, HQ].
  link_step. apply wpe_lift; [|destruct (AddressPool.get_aaa_address _ _) eqn:Eq; [done|]; intros _; by eapply E_pool; [done|]].
  intros [q' a] _. cbn beta iota. link_steps. by apply HQ.
Qed.

Lemma h_hello_request : wpe E (process_hello_request env l) s0 (fun _ => settles ReceivedHelloRequest s0 p0).
Proof.
  unfold process_hello_request. do 2 link_step. cases; try (link_steps; stay); [link_steps; moves|].
  apply wpe_bind. eapply w_allocate. clear Hat0. intros a s1 Hs1.
  destruct a as [a|]; unfold process_assigned_aaa, get_available_oidc_idps, send_init_authentication_request;
    link_steps; moves.
Qed.

Lemma w_fails_at ev q m reason s ts :
  at_link s0 q ts s -> evolve m p0 q -> 0 <= m <= 5 -> tasks_ok (tasks s0) ts -> ty p0 <> Internal ->
  allowed (ty p0) (st p0) ev Closing = true ->
  (reason = TerminateReason.Shutdown -> ty p0 <> NodeToAdapter) ->
  wpe E (fail_close l reason) s (fun _ => settles ev s0 p0).
Proof.
  intros Hat Hq Hm Ht Hty Ha Hr. eapply w_fail_close; [done|by rewrite (e_type _ _ _ Hq)|].
  intros p' ts' s' Hs' Hcl.
  eapply settles_closed; [done|done|by eapply evolve_tick'|lia|done|done|done|].
  intros Hx Hy. by destruct (Hr Hx).
Qed.

(** Authentication by the adapter begins in [p], some ticks after [p0]. *)
Section init_auth.
Context (ev : LinkEvent) (n : Z) (p : PeerState slab).
Hypothesis (He : evolve n p0 p) (Hn : 0 <= n <= 3) (Hty : ty p0 = AdapterToNode).
Hypothesis (Hallowed : forall x, x = WaitForUserAuth \/ x = RegisterAA \/ x = Closing ->
  allowed AdapterToNode (st p0) ev x = true).

Lemma init_type : ty p = AdapterToNode.
Proof. by rewrite (e_type _ _ _ He). Qed.

Lemma w_fails q m reason s ts :
  at_link s0 q ts s -> evolve m p0 q -> 0 <= m <= 5 -> tasks_ok (tasks s0) ts ->
  wpe E (fail_close l reason) s (fun _ => settles ev s0 p0).
Proof.
  intros Hat Hq Hm Ht. eapply w_fails_at; try done; rewrite Hty; [done|by apply Hallowed; auto|done].
Qed.

Lemma w_auth_failure q m r s ts :
  at_link s0 q ts s -> evolve m p0 q -> 0 <= m <= 5 -> tasks_ok (tasks s0) ts ->
  wpe E (process_authentication_failure l r) s (fun _ => settles ev s0 p0).
Proof.
  intros Hat Hq Hm Ht. unfold process_authentication_failure. link_steps. eapply w_fails; [done|evolves|done|done].
Qed.

Ltac goes := eexists _, _, _; split; [eassumption|]; split;
  [evolves|lia|lia|rewrite Hty; by apply Hallowed; auto|intros _ _; unfold armed; cbn; by rewrite init_type|by tasks].

Lemma w_bootstrap b c s ts :
  at_link s0 p ts s -> tasks_ok (tasks s0) ts ->
  wpe E (bootstrap_auth env l b c) s (fun _ => settles ev s0 p0).
Proof.
  intros Hat Ht. unfold bootstrap_auth. do 2 link_step.
  destruct b, (bootstrap s) as [bs|]; try (eapply w_auth_failure; [done|done|lia|done]).
  destruct c as [c|]; [|eapply w_fails; [done|done|lia|done]]. link_steps. goes.
Qed.

Lemma w_init_auth b c s ts :
  at_link s0 p ts s -> tasks_ok (tasks s0) ts -> st p = WaitForInitAuth ->
  wpe E (process_init_auth env l b c) s (fun _ => settles ev s0 p0).
Proof.
  intros Hat Ht Hst. unfold process_init_auth. do 2 link_step. rewrite init_type, Hst. link_steps.
  destruct (default [] _) as [|i idps]; [by eapply w_bootstrap|].
  destruct c as [c|]; [|eapply w_fails; [done|done|lia|done]].
  destruct (auth_agent _) as [agent|].
  - unfold do_oidc_authenticate. link_steps.
    + goes.
    + eapply w_via_table; [eassumption|]. apply (wpe_mono E E _ _ (fun _ => settles ev s0 p0)); [|done|].
      { eapply w_auth_failure; [eassumption|evolves|lia|done]. }
      intros a s' Hset. by apply wpe_ret.
  - destruct (bootstrap s) as [bs|]; [by eapply w_bootstrap|]. eapply w_auth_failure; [done|done|lia|done].
Qed.
End init_auth.

Lemma h_init_auth b c : wpe E (process_init_auth env l b c) s0 (fun _ => settles (ReceivedInitAuth b c) s0 p0).
Proof.
  destruct (decide (ty p0 = AdapterToNode /\ st p0 = WaitForInitAuth)) as [[Hty Hst]|Hn].
  - eapply (w_init_auth _ 0 p0); [by apply evolve_refl|lia|done| |done|tasks|done].
    intros x Hx. rewrite Hst. by destruct Hx as [-> |[-> | ->]].
  - unfold process_init_auth. do 2 link_step. cases; try (by destruct Hn); link_steps; stay.
Qed.

Lemma h_hello_response code a idps :
  wpe E (process_hello_response env l code a idps) s0
    (fun _ => settles (ReceivedHelloResponse code a idps) s0 p0).
Proof.
  unfold process_hello_response. destruct (code =? ResponseCode.Other) eqn:Ecode.
  { apply h_close. intros x. unfold allowed. by rewrite Ecode. }
  do 2 link_step.
  assert (forall x y, ty p0 = x -> st p0 = y -> forall z, allowed x y (ReceivedHelloResponse code a idps) z =
    match x, y with
    | AdapterToNode, Helloing =>
        existsb (fun w => bool_decide (z = w)) [WaitForInitAuth; WaitForUserAuth; RegisterAA; Closing]
    | NodeToNode, Helloing => existsb (fun w => bool_decide (z = w)) [Active]
    | _, _ => bool_decide (z = y)
    end) as Ha by (intros x y _ _ z; unfold allowed; by rewrite Ecode).
  cases; specialize (Ha _ _ eq_refl eq_refl);
    try (link_steps; eapply settles_stay; [eassumption|evolves|lia|tasks|done|done|];
         rewrite Hty, Hst, Ha; by apply bool_decide_eq_true_2).
  - link_steps. match goal with Hx : LinkInv.at_link _ _ ?q _ _ |- _ => pose proof Hx as Hat1; set (p1 := q) in Hat1 end.
    assert (evolve (0 + 1) p0 p1) as He1 by (unfold p1; evolves).
    destruct (stowed_init_auth _) as [i|]; link_steps.
    + eapply (w_init_auth _ _ p1); [done|lia|done| |done|tasks|done].
      intros x Hx. rewrite Hst, Ha. by destruct Hx as [-> |[-> | ->]].
    + eexists _, _, _. split; [exact Hat1|]. split; [done|lia|lia|by rewrite Hty, Hst, Ha| |tasks].
      intros _ _. unfold armed, p1. cbn. by rewrite Hty.
  - link_steps. eexists _, _, _. split; [eassumption|].
    split; [evolves|lia|lia|by rewrite Hty, Hst, Ha| |tasks]. intros _ _. unfold armed. cbn. by rewrite Hty.
Qed.

(** Entering [Active]: always with a timeout. *)
Lemma w_run_active ev q m s ts (Q : R -> Assembly slab -> Prop) :
  at_link s0 q ts s -> evolve m p0 q -> 0 <= m <= 5 -> tasks_ok (tasks s0) ts ->
  allowed (ty p0) (st p0) ev Active = true ->
  (forall r s', settles ev s0 p0 s' -> Q r s') -> wpe E (run_active l) s Q.
Proof.
  intros Hat Hq Hm Ht Ha HQ. unfold run_active. do 7 link_step.
  apply (wpe_mono E E _ _ (fun _ s' => exists ts', tasks_ok (tasks s0) ts' /\
    at_link s0 (on_link (on_fsm (set_state Active)) q) ts' s')); [|done|].
  { destruct (echo_handle _) as [[t0 k]|]; link_steps; (eexists; split; [|eassumption]); [by apply tasks_ok_abort|done]. }
  intros [] s2 (ts' & Ht' & Hs2). link_steps. apply HQ. eexists _, _, _. split; [eassumption|].
  split; [evolves|lia|lia|done| |done]. intros _ _. unfold armed. cbn. by destruct (ty q).
Qed.

Lemma h_authorize_response a :
  wpe E (process_authorize_response l a) s0 (fun _ => settles (ReceivedAuthorizeResponse a) s0 p0).
Proof.
  unfold process_authorize_response. link_steps. cases; link_steps; try stay.
  eapply (w_run_active (ReceivedAuthorizeResponse a)); [eassumption|evolves|lia|tasks|table|done].
Qed.

Lemma h_grant result :
  (result = inl [] -> E) ->
  wpe E (process_grant_zpr_address_request l result) s0
    (fun _ => settles (ReceivedGrantZprAddressRequest result) s0 p0).
Proof.
  intros Hempty. unfold process_grant_zpr_address_request. do 2 link_step.
  cases; try (link_steps; stay). set (ev := ReceivedGrantZprAddressRequest result).
  assert (forall q m reason s ts, at_link s0 q ts s -> evolve m p0 q -> 0 <= m <= 5 -> tasks_ok (tasks s0) ts ->
    wpe E (fail_close l reason) s (fun _ => settles ev s0 p0)) as Hfail.
  { intros q m reason s ts Ha Hq Hm Ht. eapply w_fails_at; try done; rewrite Hty; [done|by rewrite Hst|done]. }
  destruct result as [addrs|code]; [|link_steps; eapply Hfail; [eassumption|evolves|lia|tasks]].
  assert (forall s, at_link s0 p0 (tasks s0) s -> wpe E (activation_failed l) s (fun _ => settles ev s0 p0)) as Hact.
  { intros s Hs. unfold activation_failed. clear Hat0. link_steps. eapply Hfail; [eassumption|evolves|lia|tasks]. }
  do 2 link_step. destruct (_ && _).
  - do 4 link_step. unfold signal_fatal_error. do 3 link_step. apply wpe_bind.
    eapply w_modify; [eassumption|by intros s'; cbn; destruct (fatal_error s')|]. next_state.
    eapply w_initiate_close; [eassumption|eapply evolve_clock; evolves|cbn; congruence|].
    intros p' ts' s' Hs' Hcl.
    eapply settles_closed; [done|done|evolves|lia|tasks|congruence|table|done].
  - unfold activate. do 2 link_step. apply wpe_bind.
    apply (wpe_mono E E _ _ (fun _ => at_link s0 p0 (tasks s0))); [|done|].
    { destruct (aaa_address _); link_steps; done. }
    clear Hat0. intros [] s1 Hs1. link_step. apply wpe_lift; cycle 1.
    { unfold index. destruct addrs; cbn; [by auto|done]. }
    intros a0 _. link_step. link_step. destruct (negb _); [by apply Hact|].
    unfold route_conflict. do 4 link_step. destruct (_ && _); [by apply Hact|].
    do 2 link_step. destruct (_ && _); [by apply Hact|].
    unfold set_local_zpr_addrs. do 3 link_step. eapply w_set_carrier; [exact E_carrier|eassumption|]. next_state.
    do 4 link_step. destruct (_ && _).
    + link_step. eapply w_set_carrier; [exact E_carrier|eassumption|]. next_state. by apply Hact.
    + eapply (w_run_active ev); [eassumption|evolves|lia|tasks|unfold ev; table|done].
Qed.

Lemma w_stash o s p ts (Q : unit -> Assembly slab -> Prop) :
  at_link s0 p ts s -> (forall q s', at_link s0 q ts s' -> evolve 0 p q -> lk q = lk p \/
    locked_fsm (lk q) = locked_fsm (lk p) -> Q tt s') -> clock_ok p ->
  wpe E (stash_renewal_identity env l o) s Q.
Proof.
  intros Hat HQ Hc. unfold stash_renewal_identity, get_available_oidc_idps. link_steps.
  destruct (List.find _ _); link_steps; (eapply HQ; [eassumption|evolves|by auto]).
Qed.

Lemma h_acquire addrs blob :
  wpe E (process_acquire_zpr_address_request env l addrs blob) s0
    (fun _ => settles (ReceivedAcquireZprAddressRequest addrs blob) s0 p0).
Proof.
  unfold process_acquire_zpr_address_request. do 4 link_step. cases; try (link_steps; stay).
  set (ev := ReceivedAcquireZprAddressRequest addrs blob).
  assert (wpe E (process_error_response l) s0 (fun _ => settles ev s0 p0)) as Herr.
  { eapply w_initiate_close; [done|done|congruence|]. intros p' ts' s' Hs' Hcl.
    eapply settles_closed; [done|done|evolves|lia|tasks|congruence|unfold ev; table|done]. }
  destruct (requested_addr addrs) as [addr|]; [|done]. destruct (decode_blobs blob) as [bs|] eqn:Ed; [|done].
  apply decode_blobs_nonempty in Ed. destruct (negb _); [done|]. clear Herr.
  apply wpe_bind. apply (wpe_mono E E _ _ (fun _ s' => exists q, evolve 0 p0 q /\
    at_link s0 q (tasks s0) s')); [|done|].
  { destruct (first_oidc bs).
    - eapply w_stash; [done| |done]. intros q s' Hs' He _. by exists q.
    - apply wpe_ret. exists p0. split; [evolves|done]. }
  clear Hat0. intros [] s1 (q & Hq & Hs1). assert (ty q = NodeToAdapter) as Htq by (by rewrite (e_type _ _ _ Hq)).
  do 6 link_step. unfold build_connect_request, get_local_dock_addr. do 6 link_step.
  destruct (negb vs).
  - link_steps. eexists _, _, _. split; [eassumption|]. split; [evolves|lia|lia|unfold ev; table| |tasks].
    intros _ _. unfold armed. cbn. rewrite Htq, existsb_app. cbn. rewrite Z.eqb_refl. apply orb_true_r.
  - do 3 link_step. eapply w_via_table; [eassumption|]. unfold process_authorize_response. do 2 link_step.
    cbn. rewrite Htq. link_steps.
    eapply (w_run_active ev); [eassumption|evolves|lia|tasks|unfold ev; table|]. intros r s' Hs'. by link_steps.
Qed.

(** An echo keeps the link active for another timeout. *)
Lemma w_send_echo ev q m s ts :
  at_link s0 q ts s -> evolve m p0 q -> 0 <= m <= 5 -> tasks_ok (tasks s0) ts -> st q = st p0 ->
  allowed (ty p0) (st p0) ev (st p0) = true ->
  wpe E (send_echo env l) s (fun _ => settles ev s0 p0).
Proof.
  intros Hat Hq Hm Ht Hs Ha. unfold send_echo. link_steps.
  eapply settles_stay; [eassumption|evolves|lia|by tasks|done|done|done].
Qed.

Lemma h_timeout clock : wpe E (process_timeout env l clock) s0 (fun _ => settles (Timeout clock) s0 p0).
Proof.
  unfold process_timeout. do 2 link_step.
  assert (allowed (ty p0) (st p0) (Timeout clock) (st p0) = true) as Hstay
    by (unfold allowed; by rewrite bool_decide_eq_true_2).
  destruct (negb _). { link_steps. eapply settles_stay; [eassumption|evolves|lia|tasks|done|done|done]. }
  assert (st p0 = Active -> wpe E
    match echo_handle (locked_fsm (lk p0)) with
    | Some (_, n) =>
        _ ← abort n;
        _ ← upd_data l (fun d => set_echo_timeout (wrapping_add 64 (echo_timeout d) 1) d);
        let misses := wrapping_add 32 (keep_alive_misses (locked_fsm (lk p0))) 1 in
        _ ← upd_fsm l (fun f => set_keep_alive_misses misses (set_echo_handle None f));
        if KEEP_ALIVE_MAX_MISSES <=? misses then fail_close l TerminateReason.RequestTimedOut
        else send_echo env l
    | None => send_echo env l
    end s0 (fun _ => settles (Timeout clock) s0 p0)) as Hactive.
  { intros Hst. destruct (echo_handle _) as [[t0 k]|]; cycle 1.
    { eapply w_send_echo; [done|evolves|lia|tasks|done|done]. }
    do 8 link_step. destruct (KEEP_ALIVE_MAX_MISSES <=? _); cycle 1.
    { eapply w_send_echo; [eassumption|evolves|lia|tasks|done|done]. }
    destruct (decide (ty p0 = Internal)) as [Hty|Hty].
    - unfold fail_close, initiate_close. do 6 link_step. unfold is_internal.
      rewrite bool_decide_eq_true_2 by done. link_steps. eexists _, _, _. split; [eassumption|].
      split; [evolves|lia|lia|table| |tasks]. intros _ _. unfold armed. cbn. by rewrite Hty.
    - eapply w_fails_at; [eassumption|evolves|lia|tasks|done| |done]. rewrite Hst. by destruct (ty p0). }
  cases; try (link_steps; stay); try fails; try (by apply Hactive).
  all: try (unfold process_authentication_failure; link_steps; fails).
  all: apply wpe_bind; eapply w_clean_up; [done|eassumption|done|]; intros p' ts' s' Hs' Hcl; link_steps;
    eapply settles_cleaned; [done|done|evolves|lia|tasks|done|done|table].
Qed.

Section renewal.
Context (q : PeerState slab) (Q : unit -> Assembly slab -> Prop).
Hypothesis (Hcq : clock_ok q).
Hypothesis (HQ : forall q' ts' s', at_link s0 q' ts' s' -> evolve 0 q q' ->
  locked_fsm (lk q') = locked_fsm (lk q) -> tasks_ok (tasks s0) ts' -> Q tt s').

Lemma w_renewal_request e q1 s ts :
  at_link s0 q1 ts s -> tasks_ok (tasks s0) ts -> evolve 0 q q1 -> locked_fsm (lk q1) = locked_fsm (lk q) ->
  wpe E (send_renewal_credential_request env l e) s Q.
Proof.
  intros Hat Ht He Ef. unfold send_renewal_credential_request. link_steps.
  eapply HQ; [eassumption|evolves|done|by tasks].
Qed.

Lemma w_maybe_renew s ts :
  at_link s0 q ts s -> peer_inv q -> tasks_ok (tasks s0) ts -> wpe E (maybe_renew_auth env l) s Q.
Proof.
  intros Hat [[Hdl _] _] Ht. unfold maybe_renew_auth. do 2 link_step.
  destruct (auth_renewal_deadline _) as [dl|] eqn:Edl; [|by apply wpe_ret; eapply HQ; [done|apply evolve_refl|..]].
  destruct (auth_expires (locked_data (lk q))) as [ex|] eqn:Eex; [|by destruct (Hdl ltac:(done))].
  destruct (_ || _); [by apply wpe_ret; eapply HQ; [done|apply evolve_refl|..]|].
  assert (wpe E (warn_no_agent l) s Q) as Hwarn.
  { unfold warn_no_agent. link_steps. eapply HQ; [eassumption| |done|done].
    apply evolve_link; [done|done|]. intros Hdata. cbn. by destruct (renewal_no_agent_warned _). }
  destruct (renewal_identity _) as [i|]; [|done]. destruct (auth_agent _) as [agent|].
  - do 4 link_step. apply wpe_lift; [|done]. intros ex' _. cbn beta. destruct (agent_alive env agent); link_steps;
      (eapply HQ; [eassumption|by evolves|done|by tasks]).
  - destruct (bool_decide _); [|done]. do 4 link_step. apply wpe_lift; [|done]. intros ex' _. cbn beta.
    eapply w_renewal_request; [eassumption|done|by evolves|done].
Qed.
End renewal.

Lemma h_keep_alive :
  wpe E (process_keep_alive_response env l) s0 (fun _ => settles ReceivedKeepAliveResponse s0 p0).
Proof.
  unfold process_keep_alive_response. do 2 link_step.
  destruct (st p0) eqn:Hst; try (link_steps; stay).
  destruct (echo_handle _) as [[t0 k]|]; [|by link_steps; stay]. do 11 link_step.
  eapply w_maybe_renew; [|..|eassumption| |tasks].
  - eapply evolve_clock. by evolves.
  - intros q' ts' s' Hs' He Ef Ht. link_step.
    eapply settles_stay; [eassumption|eapply evolve_trans; [|exact He]; evolves|lia|done|..].
    + unfold get_state. by rewrite Ef.
    + intros _. unfold timer. by rewrite Ef.
    + by rewrite Hst.
  - by apply Hi0.
Qed.

(** Changes of the data kept, by cases on it. *)
Lemma w_data (f : LinkStateWrapper -> LinkStateWrapper) q s ts (Q : unit -> Assembly slab -> Prop) :
  at_link s0 q ts s ->
  (forall x, id (f x) = id x /\ uid (f x) = uid x /\ link_type (f x) = link_type x /\ locked_fsm (f x) = locked_fsm x) ->
  (forall s', at_link s0 (on_link f q) ts s' -> Q tt s') -> wpe E (update_peer l (on_link f)) s Q.
Proof.
  intros Hat Hf HQ. eapply w_update; [done|done| | |done]; intros p; destruct (Hf (lk p)) as (E1 & E2 & E3 & E4).
  - by repeat split.
  - by repeat split.
Qed.
Lemma clear_agent_same a x : let f := fun lk => (clear_auth_agent_if a lk).1 in
  id (f x) = id x /\ uid (f x) = uid x /\ link_type (f x) = link_type x /\ locked_fsm (f x) = locked_fsm x.
Proof. unfold clear_auth_agent_if. by destruct (bool_decide _). Qed.
Lemma take_challenge_same c x : let f := fun lk => (take_renewal_challenge_if c lk).1 in
  id (f x) = id x /\ uid (f x) = uid x /\ link_type (f x) = link_type x /\ locked_fsm (f x) = locked_fsm x.
Proof. unfold take_renewal_challenge_if. by destruct (bool_decide _). Qed.
Lemma clear_agent_ok a x :
  data_ok (locked_data x) -> data_ok (locked_data (clear_auth_agent_if a x).1).
Proof. unfold clear_auth_agent_if. by destruct (bool_decide _). Qed.
Lemma take_challenge_ok c x :
  data_ok (locked_data x) -> data_ok (locked_data (take_renewal_challenge_if c x).1).
Proof. unfold take_renewal_challenge_if. by destruct (bool_decide _). Qed.

(** Nothing of the state machine has changed. *)
Lemma settles_data ev q ts s' :
  at_link s0 q ts s' -> evolve 0 p0 q -> locked_fsm (lk q) = locked_fsm (lk p0) -> tasks_ok (tasks s0) ts ->
  allowed (ty p0) (st p0) ev (st p0) = true -> settles ev s0 p0 s'.
Proof.
  intros Hat He Ef Ht Ha. eapply settles_stay; [done|done|lia|done|..]; [| |done].
  - unfold get_state. by rewrite Ef.
  - unfold timer. by rewrite Ef.
Qed.

Lemma h_renew_request c :
  wpe E (process_renew_auth_request env l c) s0 (fun _ => settles (ReceivedRenewAuthRequest c) s0 p0).
Proof.
  unfold process_renew_auth_request. do 2 link_step. cases; try (link_steps; stay).
  set (ev := ReceivedRenewAuthRequest c).
  assert (allowed (ty p0) (st p0) ev (st p0) = true) as Ha by (by apply bool_decide_eq_true_2).
  set (q := on_link (on_data (set_adapter_renewal_task None)) p0).
  assert (evolve 0 p0 q) as Hq by (unfold q; evolves).
  do 3 link_step. fold q in Hat. apply wpe_bind.
  apply (wpe_mono E E _ _ (fun _ s' => exists ts, tasks_ok (tasks s0) ts /\ at_link s0 q ts s')); [|done|].
  { destruct (adapter_renewal_task _) as [k|]; link_steps; (eexists; split; [|eassumption]); tasks. }
  clear Hat. intros [] s1 (ts & Ht & Hs1). do 2 link_step.
  assert (forall q' ts' s ch, at_link s0 q' ts' s -> evolve 0 p0 q' -> locked_fsm (lk q') = locked_fsm (lk p0) ->
    tasks_ok (tasks s0) ts' -> wpe E (answer_unavailable l ch) s (fun _ => settles ev s0 p0)) as Hun.
  { intros q' ts' s' ch Hs' He Ef Ht'. unfold answer_unavailable. clear Hs1. link_steps. by eapply settles_data. }
  assert (default (mkNS false true) (get_authenticated_namespaces (lk p0)) <> mkNS false false) as Hns.
  { destruct Hi0 as [[_ Hns] _]. unfold get_authenticated_namespaces.
    destruct (authenticated_namespaces _) as [ns|]; [|done]. cbn. congruence. }
  set (ns := default _ _) in Hns |- *.
  assert (forall ss, (has_device ns = true -> ss <> None) -> wpe E
    (if negb (ns_contains ns User)
     then b ← lift (unwrap ss);
          _ ← send (RenewAuthenticationResponse l ResponseCode.Success (challenge_bytes c) (encode_blobs [b])); ok
     else renew_with_agent env l (lk p0) (challenge_bytes c) ss) s1 (fun _ => settles ev s0 p0)) as Hrest.
  { intros ss Hss. destruct ns as [dv us] eqn:Ens. cbn. destruct us; cbn; cycle 1.
    - destruct dv; [|done]. destruct ss as [b|]; [|by destruct (Hss eq_refl)]. link_step. apply wpe_lift; [|done].
      intros b' _. link_steps. by eapply settles_data.
    - unfold renew_with_agent. destruct (auth_agent _) as [agent|]; [|by eapply Hun].
      destruct (_ ≫= head) as [i|]; [|by eapply Hun]. destruct (agent_alive env agent).
      + link_steps. eapply settles_data; [eassumption|evolves|done|by tasks|done].
      + apply wpe_bind. eapply w_data; [done|apply clear_agent_same|]. intros s2 Hs2.
        assert (evolve 0 p0 (on_link (fun lk => (clear_auth_agent_if agent lk).1) q)) as He2
          by (eapply evolve_link'; [done|apply clear_agent_same|apply clear_agent_ok]).
        eapply Hun; [done|done| |done]. apply (clear_agent_same agent (lk q)). }
  destruct ns as [[] us]; cbn [ns_contains has_device has_user] in *.
  - destruct (bootstrap s1) as [r|]; [|by eapply Hun].
    by apply (Hrest (Some (SelfSigned (authenticate_blob (now_secs env) r c)))).
  - by apply (Hrest None).
Qed.

Lemma h_renew_response c r :
  wpe E (process_renew_auth_response env l c r) s0 (fun _ => settles (ReceivedRenewAuthResponse c r) s0 p0).
Proof.
  unfold process_renew_auth_response. do 2 link_step. cases; try (link_steps; stay).
  destruct (negb _); [by link_steps; stay|].
  set (q := on_link (fun lk => (take_renewal_challenge_if c lk).1) p0).
  assert (evolve 0 p0 q) as Hq
    by (eapply evolve_link'; [evolves|apply take_challenge_same|apply take_challenge_ok]).
  assert (locked_fsm (lk q) = locked_fsm (lk p0)) as Ef by apply (take_challenge_same c (lk p0)).
  apply wpe_bind. eapply w_data; [done|apply take_challenge_same|]. intros s1 Hs1. fold q in Hs1. clear Hat0.
  set (ev := ReceivedRenewAuthResponse c r).
  assert (allowed (ty p0) (st p0) ev (st p0) = true) as Ha by (by apply bool_decide_eq_true_2).
  assert (forall reason, wpe E (_ ← renewal_failed l reason; ok) s1 (fun _ => settles ev s0 p0)) as Hfail.
  { intros reason. link_steps. eapply settles_data; [eassumption|evolves|done|tasks|done]. }
  destruct r as [blob|code]; [|done]. destruct (decode_blobs blob) as [bs|]; [|done].
  do 2 link_step. destruct (renewal_ok _ _ _ _ _); [|done]. link_steps.
  eapply settles_data; [eassumption|done|done|tasks|done].
Qed.

(** The end of a close: the link is idle, or the peer is gone. *)
Lemma h_close_done :
  (drop_peer l s0 = Panic -> E) ->
  (drop_peer l (set_peers (update (peer_table s0) l
     (on_link (on_fsm (fun f => set_state Inactive (set_silent false f))))) s0) = Panic -> E) ->
  wpe E (complete_close l) s0 (fun _ s' => settles CloseDone s0 p0 s' \/ gone l s0 s').
Proof.
  intros HE1 HE2. unfold complete_close. do 2 link_step.
  assert (wpe E (drop_peer l) s0 (fun _ s' => settles CloseDone s0 p0 s' \/ gone l s0 s')) as Hdrop.
  { unfold wpe. destruct (drop_peer l s0) as [[u s']|] eqn:Ed; [|by auto]. right. by eapply drop_peer_gone. }
  assert (wpe E (mret tt) s0 (fun _ s' => settles CloseDone s0 p0 s' \/ gone l s0 s') \/
    st p0 = Closing \/ st p0 = Resetting) as Hno.
  { destruct (decide (st p0 = Closing \/ st p0 = Resetting)) as [|Hn]; [by right|left]. apply wpe_ret. left.
    destruct (st p0) eqn:Hst; try (by destruct Hn; auto); stay. }
  set (f := fun f => set_state Inactive (set_silent false f)) in *.
  assert (st p0 = Closing -> ty p0 <> NodeToAdapter -> wpe E
    (_ ← upd_fsm l f;
     if shutting_down (locked_fsm (lk p0)) then drop_peer l
     else auto ← gets auto_connect;
       if bool_decide (ty p0 = AdapterToNode) && negb auto then mret tt
       else if bool_decide (ty p0 = AdapterToNode) && is_activation_failure (get_last_auth_failure (lk p0))
       then mret tt else setup_restart l) s0 (fun _ s' => settles CloseDone s0 p0 s' \/ gone l s0 s')) as Hclose.
  { intros Hst Hty. destruct (shutting_down _).
    - apply wpe_bind. unfold wpe at 1. cbn. unfold wpe.
      destruct (drop_peer l (set_peers _ _)) as [[u s']|] eqn:Ed; [|by apply HE2]. right.
      destruct (drop_peer_gone _ _ _ _ Ed) as [Hfr Hg Ht Hu He]. cbn in Ht, Hu, He. split; try done.
      intros k q' Hq'. destruct (Hfr k q' Hq') as (q & Hq & Ec). cbn in Hq. rewrite update_slab_get in Hq.
      destruct (decide (k = slot l)) as [-> |]; [|by eauto]. unfold get in Hg. congruence.
    - assert (forall p' ts' s', at_link s0 p' ts' s' -> p' = on_link (on_fsm f) p0 -> tasks_ok (tasks s0) ts' ->
        settles CloseDone s0 p0 s') as Hidle.
      { intros p' ts' s' Hs' -> Ht. eexists _, _, _. split; [exact Hs'|].
        split; [unfold f; evolves|lia|lia|by rewrite Hst| |done].
        intros _ _. unfold armed. cbn. by destruct (ty p0). }
      unfold setup_restart. link_steps; left; (eapply Hidle; [eassumption|done|tasks]). }
  destruct (st p0) eqn:Hst; try (destruct Hno as [Hno|[|]]; done); destruct (ty p0) eqn:Hty; try done; by apply Hclose.
Qed.

End each.

End handlers.

(** ** Any event *)

Section dispatch.
Context `{NetDefs} `{Crypto} `{VisaEnv} `{TunCtl} `{FlowTables} `{Slab slab}.
Context (VISA_SERVICE_DN : list Z) (env : Env) (l : Z) (Hl : u32 l).
Implicit Types (s : Assembly slab) (p : PeerState slab).

(** The events whose handlers set the carrier of the TUN device. *)
Definition sets_carrier (ev : LinkEvent) : bool :=
  match ev with
  | ReceivedGrantZprAddressRequest _ | ReceivedTerminateLink _ | ReceivedTerminateAck | Timeout _ => true
  | _ => false
  end.

(** Why an event may panic: the identifier zero, key management that cannot be set up,
    an exhausted address pool, the TUN device that refuses its carrier (in the state it
    is in, or that operations on it have led to), an empty grant,
    or a peer that cannot be removed. *)
Inductive trouble s : LinkEvent -> Prop :=
| NoLink : l = 0 -> trouble s Start
| NoKeys : noise_new env = None -> trouble s Start
| NoAddress q : address_pool s = Some q -> AddressPool.get_aaa_address q (pool_rnd env) = None ->
    trouble s ReceivedHelloRequest
| NoCarrier ev t b : sets_carrier ev = true -> tun_reaches (tun s) t -> (tun_set_carrier t b).1 = false -> trouble s ev
| NoGrant : trouble s (ReceivedGrantZprAddressRequest (inl []))
| NoRemoval : drop_peer l s = Panic -> trouble s CloseDone
| NoRemovalIdle :
    drop_peer l (set_peers (update (peer_table s) l
      (on_link (on_fsm (fun f => set_state Inactive (set_silent false f))))) s) = Panic ->
    trouble s CloseDone.

(** The events the rest of the program raises: authentication succeeds with at least
    one blob. *)
Definition event_ok (ev : LinkEvent) : Prop :=
  match ev with AuthenticationSuccess bs => bs <> [] | _ => True end.

Lemma event_settles s0 p0 ev :
  at_link l s0 p0 (tasks s0) s0 -> clock_ok p0 -> peer_inv p0 -> event_ok ev ->
  wpe (trouble s0 ev) (process_event VISA_SERVICE_DN env l ev) s0
    (fun _ s' => settles l ev s0 p0 s' \/ (ev = CloseDone /\ gone l s0 s')).
Proof.
  intros Hat Hc Hi Hok.
  assert (ev = CloseDone \/ ev <> CloseDone) as [-> |Hne] by (destruct ev; (by left) || (by right)).
  { cbn [process_event]. apply wpe_bind.
    eapply wpe_mono; [eapply (h_close_done l Hl (trouble s0 CloseDone) s0 p0); try done; by constructor|done|].
    intros [] s' [Hs|Hs]; apply wpe_ret; auto. }
  apply (wpe_mono (trouble s0 ev) (trouble s0 ev) _ _ (fun _ => settles l ev s0 p0)); [|done|by auto].
  assert (sets_carrier ev = true -> forall t b, tun_reaches (tun s0) t -> (tun_set_carrier t b).1 = false -> trouble s0 ev) as Hcar
    by (intros; by eapply NoCarrier).
  destruct ev; cbn [process_event]; try done; try specialize (Hcar eq_refl).
  - by apply h_start; try done; constructor.
  - by apply h_keying_done.
  - apply h_hello_request; try done. intros q Hq. by apply NoAddress.
  - by apply h_assigned_aaa.
  - by apply h_hello_response.
  - by apply h_init_auth.
  - by apply h_init_auth_ack.
  - by apply h_init_auth_timeout.
  - by apply h_renew_request.
  - by apply h_renew_response.
  - by apply h_acquire.
  - apply h_grant; try done. intros ->. apply NoGrant.
  - by apply h_authentication_success.
  - by apply h_authentication_failure.
  - by apply h_authorize_response.
  - by apply h_authorize_failure.
  - by apply h_keep_alive.
  - by apply h_terminate_link.
  - by apply h_terminate_ack.
  - by apply h_disconnect_ack.
  - by apply h_close.
  - by apply h_error.
  - by apply h_timeout.
Qed.

End dispatch.
End LinkHandlers.
