(* ===== verification/LinkRun.v ===== *)
(** * Links: runs of the program

    The program as a sequence of steps: events of the outside world, tasks whose wait
    is over, requests of the visa service, new tethers and resets.  Each step has its
    own readings of the outside world.  The invariant of all runs is proved here;
    [LinkThms] draws the conclusions. *)
From Stdlib Require Import ZArith Lia.
From stdpp Require Import base tactics option list numbers gmap.
From S2P Require Import Prelude Slab NetDefs Tc ForwardingTables TxnMgr Auth LinkTypes PeerTable PeerTableProps VisaTable AddressPool ZdprReceiver Assembly NodeBindInv LinkFsm LinkTasks LinkInv LinkDrop LinkProtocol LinkHandlers.
From stdpp Require Import list.
Import ForwardingTables Auth LinkTypes PeerTable PeerTableProps Asm NodeBindInv LinkFsm LinkTasks LinkInv LinkDrop LinkProtocol LinkHandlers.

Local Open Scope Z_scope.

Module LinkRun.

(** ** Steps *)

(** The events that come from the network, the timers and the administrator. *)
Definition external (ev : LinkEvent) : bool :=
  match ev with
  | Start | ReceivedHelloRequest | ReceivedHelloResponse _ _ _ | ReceivedInitAuth _ _
  | ReceivedRenewAuthRequest _ | ReceivedRenewAuthResponse _ _ | ReceivedAcquireZprAddressRequest _ _
  | ReceivedGrantZprAddressRequest _ | ReceivedTerminateLink _ | Close _ | EventError | Timeout _ => true
  | _ => false
  end.

(** What a task waits for. *)
Definition fits (k : Task) (c : Completion) : bool :=
  match k, c with
  | (InitAuthTask _ | EchoTask _ _ | TerminateTask _), CAck _ => true
  | (AuthorizeConnectTask _ _ | ReauthorizeWaitTask _ _ _ _), CConnect _ => true
  | (OidcTask _ _ _ _ _ | RenewalAgentTask _ _ _ _ | AdapterRenewalTask _ _ _ _ _ _), CAgent _ => true
  | (StopVsConnTask _ | RenewalTimeoutTask _ _ _ | ReauthorizeTask _ _ _ | ActorDisconnectTask _
    | DropLinkTask _ | CloseDoneTask _ | RestartTask _ | SelfReauthTask), CDone => true
  | _, _ => false
  end.

(** What a run has established: the blobs of the link with this [uid] were checked; it
    was let in as the visa service's own adapter; the visa service has granted an
    address to the link with this identifier. *)
Inductive Mark := Verified (link_uid : Z) | SelfAuthorized (link_uid : Z) | Authorized (l : Z) (a : list Z).

Section run.
Context `{NetDefs} `{Crypto} `{VisaEnv} `{TunCtl} `{FlowTables} `{Slab slab}.
Context (VISA_SERVICE_DN AAA_PREFIX : list Z) (parse : list Z -> option (list Z * Z)).

Notation M := (M slab).
Implicit Types (s : Assembly slab) (p : PeerState slab) (ts : list Task).
Notation lk p := (link_state_machine p).
Notation st p := (get_state (link_state_machine p)).
Notation ty p := (link_type (link_state_machine p)).

Inductive Step :=
| SEvent (l : Z) (ev : LinkEvent)
| SComplete (i : nat) (c : Completion)
| SKeyed (l : Z) (sa : KmTransportSA)
| STether (adapter_addr interface : list Z * Z) (ty : LinkType) (auto_start : bool) (rnd : list Z)
| SReset (l : Z)
| SDeferred (l : Z) (assigned_addr : list Z) (r : ConnectResult)
| SRevokeAuth (addrs : list (list Z))
| SRequestAuth (addrs : list (list Z))
| SConfigure (params : list Param)
| SStartLink (l : Z) (agent : option Z)
| SAgentGone (l agent : Z).

Definition ignore {A} (m : M A) : M unit := _ ← m; mret tt.

(** The administrator starts a link, with an agent that speaks for the user or without;
    the agent is forgotten when the administrator's connection closes. *)
Definition start_link (env : Env) (l : Z) (agent : option Z) : M (unit + LinkStateError) :=
  _ ← match agent with
      | Some a => update_peer l (on_link (set_auth_agent a))
      | None => mret tt
      end;
  process_link_state_event VISA_SERVICE_DN env l Start.
Definition agent_gone (l agent : Z) : M unit :=
  update_peer l (on_link (fun lk => (clear_auth_agent_if agent lk).1)).

Definition run_step (env : Env) (x : Step) : M unit :=
  match x with
  | SEvent l ev => event VISA_SERVICE_DN env l ev
  | SComplete i c => finish_task i (fun k => complete_task VISA_SERVICE_DN env k c)
  | SKeyed l sa => sa_established VISA_SERVICE_DN env l sa
  | STether a i ty auto rnd => ignore (start_tether VISA_SERVICE_DN env a i ty auto rnd)
  | SReset l => reset_peer l
  | SDeferred l a r => ignore (send_deferred_vs_connect env l a r)
  | SRevokeAuth addrs => ignore (process_revoke_auth VISA_SERVICE_DN env addrs)
  | SRequestAuth addrs => ignore (process_request_authentication env addrs)
  | SConfigure params => ignore (process_configuration AAA_PREFIX parse params)
  | SStartLink l agent => ignore (start_link env l agent)
  | SAgentGone l agent => agent_gone l agent
  end.

Definition step_ok s (x : Step) : Prop :=
  match x with
  | SEvent l ev => u32 l /\ external ev = true
  | SComplete i c => exists k, tasks s !! i = Some k /\ fits k c = true
  | SKeyed l _ | SReset l | SDeferred l _ _ | SStartLink l _ | SAgentGone l _ => u32 l
  | _ => True
  end.

(** One address at most is asked for, and every blob verifies against the peer's entry. *)
Definition accepted (env : Env) p (addrs : option (list (list Z))) (blob : list Z) : bool :=
  match requested_addr addrs, decode_blobs blob with
  | Some _, inl bs => forallb (check_blob env (Some p) MAX_BLOB_AGE_SECONDS) bs
  | _, _ => false
  end.
Definition is_vs s (l : Z) : bool :=
  bool_decide (lookup_special_peer (peer_table s) VisaServiceAdapter = Some l).

(** What an address request on the peer [p] at [l] shows. *)
Definition acquire_marks (env : Env) s (l : Z) p (addrs : option (list (list Z))) (blob : list Z) : list Mark :=
  if accepted env p addrs blob then
    Verified (uid (lk p)) :: (if is_vs s l then [SelfAuthorized (uid (lk p))] else [])
  else [].

Definition marks (env : Env) s (x : Step) : list Mark :=
  match x with
  | SEvent l (ReceivedAcquireZprAddressRequest addrs blob) =>
      match get (peer_table s) l with Some p => acquire_marks env s l p addrs blob | None => [] end
  | SComplete i (CConnect (Connection a _)) =>
      match tasks s !! i with Some (AuthorizeConnectTask l _) => [Authorized l a] | _ => [] end
  | _ => []
  end.

(** The peers of a program that starts: its own actor and, at a node, the dock of its
    own actor, who may use the configured addresses.  (The tether of an adapter is a
    step of the run.) *)
Fixpoint own_addresses (addrs : list (list Z)) (lk0 : LinkStateWrapper) : outcome LinkStateWrapper :=
  match addrs with
  | [] => mret lk0
  | a :: r => lk1 ← add_internal_actor_address a lk0; own_addresses r lk1
  end.
Definition boot (mode : PhMode) (addrs : list (list Z)) (first_uid : Z) : outcome (PeerTable slab * Z) :=
  match mode with
  | Adapter =>
      '(l, t, u) ← insert_internal_peer first_uid PeerTable.new;
      _ ← rust_assert (l =? LOCAL_ACTOR_LINK_ID);
      mret (t, u)
  | Node =>
      '(ls, t, u) ← insert_internal_peer_pair first_uid PeerTable.new;
      _ ← rust_assert (ls.1 =? LOCAL_ACTOR_LINK_ID);
      _ ← rust_assert (ls.2 =? DOCK_LINK_ID);
      p ← unwrap (get t LOCAL_ACTOR_LINK_ID);
      lk ← own_addresses addrs (link_state_machine p);
      mret (update t LOCAL_ACTOR_LINK_ID (on_link (fun _ => lk)), u)
  end.

(** The states a program can be in from its start, with what was established on the
    way. *)
Inductive reach : list Mark -> Assembly slab -> Prop :=
| reach_start s u :
    boot (ph_mode s) (zpr_addr s) u = Ret (peer_table s, next_uid s) -> tasks s = [] -> elt_ok (elt s) -> reach [] s
| reach_step log env x s s' u :
    reach log s -> step_ok s x -> run_step env x s = Ret (u, s') -> reach (marks env s x ++ log) s'.

(** ** The invariant *)

(** The links of an authenticated node are those whose blobs were checked. *)
Record authentic (log : list Mark) (l : Z) p : Prop := {
  au_verified : ty p = NodeToAdapter -> st p = RegisterAA \/ st p = Active -> Verified (uid (lk p)) ∈ log;
  au_granted : ty p = NodeToAdapter -> st p = Active ->
    SelfAuthorized (uid (lk p)) ∈ log \/ exists a, Authorized l a ∈ log
}.

(** The state of a link in which it waits for the task. *)
Definition serves (k : Task) (l : Z) (lk0 : LinkStateWrapper) : bool :=
  match k, link_type lk0, get_state lk0 with
  | (DropLinkTask j | CloseDoneTask j), _, (Closing | Resetting) => j =? l
  | StopVsConnTask j, NodeToAdapter, Disconnecting _ => j =? l
  | AuthorizeConnectTask j _, NodeToAdapter, RegisterAA => j =? l
  | _, _, _ => false
  end.

(** [x]: the task that is running, which does not count as pending any more. *)
Record peer_ok (log : list Mark) (x : option Task) (ts : list Task) (l : Z) p : Prop := {
  po_clock : clock_ok p;
  po_inv : peer_inv p;
  po_legal : legal (lk p) = true;
  po_armed : armed l (lk p) ts = true \/ exists k, x = Some k /\ serves k l (lk p) = true;
  po_auth : authentic log l p
}.

Definition task_ok (k : Task) : Prop := match task_link k with Some l => u32 l | None => True end.

Record Inv (log : list Mark) (x : option Task) s : Prop := {
  i_elt : elt_ok (elt s);
  i_tasks : Forall task_ok (tasks s);
  i_peers : forall l p, u32 l -> get (peer_table s) l = Some p -> peer_ok log x (tasks s) l p
}.

(** *** What it does not depend on *)

Lemma armed_more l lk0 ts ts' :
  (forall k, k ∈ ts -> task_id k = None -> k ∈ ts') -> armed l lk0 ts = true -> armed l lk0 ts' = true.
Proof.
  intros Hk. unfold armed.
  assert (forall f : Task -> bool, (forall k, f k = true -> task_id k = None) ->
    existsb f ts = true -> existsb f ts' = true) as Hx.
  { intros f Hf (k & Hin & Hfk)%existsb_exists. apply existsb_exists. exists k. split; [|done].
    apply list_elem_of_In, Hk; [by apply list_elem_of_In|auto]. }
  pose proof (Hx (finishes l) ltac:(by intros [])). pose proof (Hx (stops l) ltac:(by intros [])).
  pose proof (Hx (authorizes l) ltac:(by intros [])).
  destruct (link_type lk0), (get_state lk0); auto; rewrite !orb_true_iff; intuition.
Qed.

(** Only the link proper, the key and the receiver matter. *)
Lemma peer_ok_core log x ts ts' l p p' :
  core p' = core p -> (forall k, k ∈ ts -> task_id k = None -> k ∈ ts') ->
  peer_ok log x ts l p -> peer_ok log x ts' l p'.
Proof.
  unfold core. intros [= E1 E2 E3] Hk [Hc [Hd Hr] Hl Ha [Hv Hg]].
  unfold clock_ok, peer_inv in *. split; unfold clock_ok, peer_inv; rewrite ?E1, ?E3; try done.
  - destruct Ha as [Ha|]; [left|by right]. by eapply armed_more.
  - split; by rewrite E1.
Qed.

Lemma Inv_log log log' x s : Inv log x s -> (forall m, m ∈ log -> m ∈ log') -> Inv log' x s.
Proof.
  intros [He Ht Hp] Hl. split; try done. intros l p Hu Hg. destruct (Hp l p Hu Hg) as [Hc Hi Hle Ha [Hv Hgr]].
  split; try done. split; [auto|]. intros Hty Hst. destruct (Hgr Hty Hst) as [|[a Ha']]; eauto.
Qed.

(** A state whose links are among those of the other. *)
Lemma Inv_from log x s s' :
  Inv log x s -> elt_ok (elt s') -> Forall task_ok (tasks s') ->
  (forall k, k ∈ tasks s -> task_id k = None -> k ∈ tasks s') ->
  (forall j q', u32 j -> get (peer_table s') j = Some q' ->
     exists q, get (peer_table s) j = Some q /\ core q' = core q) ->
  Inv log x s'.
Proof.
  intros [He Ht Hp] He' Ht' Hk Hf. split; [done|done|]. intros j q' Hj Hq'.
  destruct (Hf j q' Hj Hq') as (q & Hq & Ec). eapply peer_ok_core; [done|done|auto].
Qed.

(** ** The verdict on an address request *)

(** What the node sends to the visa service, up to its own address. *)
Definition asks (p : PeerState slab) (addrs : option (list (list Z))) (blob : list Z) (req : ConnectRequest) : Prop :=
  exists addr bs dock, requested_addr addrs = Some addr /\ decode_blobs blob = inl bs /\
    req = build_connect_request_from_parts addr bs (a2a_dh_pubkey p) dock.

Lemma w_active l E s0 p ts s (Q : unit + LinkStateError -> Assembly slab -> Prop) :
  u32 l -> at_link l s0 p ts s ->
  (forall p' ts' s', at_link l s0 p' ts' s' -> uid (lk p') = uid (lk p) -> st p' = Active ->
     actor_addresses (locked_fsm (lk p')) = actor_addresses (locked_fsm (lk p)) -> Q (inl tt) s') ->
  wpe E (run_active l) s Q.
Proof.
  intros Hl Hat HQ. unfold run_active. do 7 link_step.
  destruct (echo_handle _) as [[t0 k]|]; link_steps; by eapply HQ.
Qed.

Lemma acquire_decides env l s0 p0 addrs blob :
  u32 l -> at_link l s0 p0 (tasks s0) s0 -> clock_ok p0 -> ty p0 = NodeToAdapter ->
  st p0 = WaitForAcquireZprAddress ->
  wpe False (process_acquire_zpr_address_request env l addrs blob) s0 (fun _ s' =>
    exists p' ts', at_link l s0 p' ts' s' /\ uid (lk p') = uid (lk p0) /\
      if accepted env p0 addrs blob then
        if is_vs s0 l then st p' = Active
        else st p' = RegisterAA /\ exists req, asks p0 addrs blob req /\ ts' = tasks s0 ++ [AuthorizeConnectTask l req]
      else st p' = Closing).
Proof.
  intros Hl Hat Hc Hty Hst. unfold process_acquire_zpr_address_request, accepted. do 4 link_step. rewrite Hty, Hst.
  assert (forall Q : Assembly slab -> Prop, (forall p' ts' s', at_link l s0 p' ts' s' ->
    uid (lk p') = uid (lk p0) -> st p' = Closing -> Q s') -> wpe False (process_error_response l) s0 (fun _ => Q)) as Herr.
  { intros Q HQ. eapply w_initiate_close; [done|done|done|congruence|]. intros p' ts' s' Hs' [(n & _ & He) Hs _].
    eapply HQ; [done|apply He|]. destruct Hs as [[? _]|(_ & Hr & _)]; done. }
  destruct (requested_addr addrs) as [addr|] eqn:Er; [|apply Herr; by eauto 6].
  destruct (decode_blobs blob) as [bs|] eqn:Ed; [|apply Herr; by eauto 6].
  destruct (forallb _ bs); cbn [negb]; [|apply Herr; by eauto 6]. clear Herr.
  apply wpe_bind. apply (wpe_mono False False _ _ (fun _ s' => exists q, at_link l s0 q (tasks s0) s' /\
    uid (lk q) = uid (lk p0) /\ ty q = NodeToAdapter)); [|done|].
  { destruct (first_oidc bs) as [o|].
    - eapply w_stash; [done..| |done]. intros q s' Hs' He _. exists q. split_and!; [done|apply He|].
      by rewrite (e_type _ _ _ He).
    - apply wpe_ret. by exists p0. }
  assert (~ keying l s0) as Hk by (intros (q & Hq & Hs); rewrite (a_peer _ _ _ _ _ Hat) in Hq; congruence).
  clear Hat. intros [] s1 (q & Hs1 & Hu & Htq). do 7 link_step. eapply w_is_vs_exact; [eassumption|done|].
  fold (is_vs s0 l). link_step. unfold build_connect_request, get_local_dock_addr. do 3 link_step.
  destruct (is_vs s0 l); cbn [negb].
  - do 3 link_step. eapply w_via_table; [eassumption|]. unfold process_authorize_response. do 2 link_step.
    cbn. rewrite Htq. link_steps. eapply w_active; [done|eassumption|]. intros p' ts' s' Hs' Hu' Hst' _. link_steps.
    exists p', ts'. split_and!; [done|by rewrite Hu'|done].
  - link_steps. eexists _, _. split_and!; [eassumption|done|done|]. eexists. split; [|done]. by eexists _, _, _.
Qed.

(** ** Events *)

Lemma wpe_both {A} (m : M A) s (P Q : A -> Assembly slab -> Prop) :
  wpe True m s P -> wpe True m s Q -> wpe True m s (fun a s' => P a s' /\ Q a s').
Proof. unfold wpe. destruct (m s) as [[a s']|]; auto. Qed.

(** Where a link of a node may become authenticated. *)
Lemma allowed_auth st0 ev st1 :
  allowed NodeToAdapter st0 ev st1 = true -> st0 <> WaitForUserAuth -> st1 <> st0 -> st1 = RegisterAA \/ st1 = Active ->
  (exists addrs blob, ev = ReceivedAcquireZprAddressRequest addrs blob /\ st0 = WaitForAcquireZprAddress) \/
  (exists a, ev = ReceivedAuthorizeResponse a /\ st0 = RegisterAA /\ st1 = Active).
Proof.
  intros Ha Hw Hne Hs. destruct ev, st0, Hs as [-> | ->]; cbn in Ha; try done; try naive_solver.
  all: repeat case_match; try done; first [naive_solver|by destruct (_ =? _)].
Qed.
Lemma allowed_legal t0 st0 ev st1 :
  allowed t0 st0 ev st1 = true -> legal (mkLink 0 0 t0 (set_state_field st0 (fsm_new 0)) data_new None) = true ->
  legal (mkLink 0 0 t0 (set_state_field st1 (fsm_new 0)) data_new None) = true.
Proof.
  unfold legal. cbn. destruct t0; try done. intros Ha Hl. destruct st1; try done; exfalso.
  all: destruct ev, st0; cbn in Ha; try done; repeat case_match; first [done|by destruct (_ =? _)].
Qed.

(** What an event must be backed by. *)
Definition backed (log : list Mark) (env : Env) s (l : Z) (ev : LinkEvent) : Prop :=
  match ev with
  | ReceivedAcquireZprAddressRequest addrs blob => forall p, get (peer_table s) l = Some p ->
      forall m, m ∈ acquire_marks env s l p addrs blob -> m ∈ log
  | ReceivedAuthorizeResponse _ => exists a, Authorized l a ∈ log
  | _ => True
  end.

(** The running task is for the link [l]. *)
Definition running (x : option Task) (l : Z) : Prop :=
  forall k j lk0, x = Some k -> serves k j lk0 = true -> j = l.

Lemma Inv_clear log x l s :
  Inv log x s -> running x l -> (forall p, get (peer_table s) l = Some p -> armed l (lk p) (tasks s) = true) ->
  Inv log None s.
Proof.
  intros [He Ht Hp] Hx Ha. split; [done|done|]. intros j q Hj Hq. destruct (Hp j q Hj Hq) as [Hc Hi Hl Har Hau].
  split; try done. destruct Har as [|(k & Hk & Hs)]; [by left|]. pose proof (Hx _ _ _ Hk Hs) as ->. auto.
Qed.

Lemma settled_inv log x s l ev p s' :
  u32 l -> Inv log x s -> get (peer_table s) l = Some p -> running x l ->
  (forall k, x = Some k -> serves k l (lk p) = true -> allowed (ty p) (st p) ev (st p) = false) ->
  settles l ev s p s' -> (forall p', get (peer_table s') l = Some p' -> authentic log l p') ->
  Inv log None s'.
Proof.
  intros Hl [He Ht Hp] Hg Hx Hmove (p' & ts' & n & Hat & Hgood) Hau.
  destruct Hat as [Hp' Hfr _ _ <- _ _ _ _ He' _ _ _]. destruct Hgood as [Hev _ _ Hal Har [Hk Hn]].
  destruct (Hp l p Hl Hg) as [Hc Hi Hle Ha _]. split; [done| |].
  - rewrite list.Forall_forall in Ht |- *. intros k Hin. destruct (Hn k Hin) as [|Hof]; [auto|].
    unfold task_of in Hof. unfold task_ok. apply andb_true_iff in Hof as [_ Hof].
    destruct (task_link k) as [j|]; [|done]. apply Z.eqb_eq in Hof as ->. done.
  - intros j q Hj Hq. destruct (decide (j = l)) as [-> |Hne].
    + assert (q = p') as -> by congruence. split.
      * by eapply evolve_clock.
      * by apply Hev.
      * pose proof (allowed_legal _ _ _ _ Hal) as Hleg. unfold legal in *. cbn in Hleg.
        rewrite (e_type _ _ _ Hev). auto.
      * left. apply Har; [done|]. destruct Ha as [|(k & Ek & Hs)]; [by left|right]. intros Es.
        rewrite Es, (Hmove k Ek Hs) in Hal. done.
      * auto.
    + rewrite Hfr in Hq by done. eapply peer_ok_core; [done|exact Hk|].
      destruct (Hp j q Hj Hq) as [Hc2 Hi2 Hl2 Ha2 Hau2]. split; try done.
      destruct Ha2 as [|(k & Ek & Hs)]; [by left|]. exfalso. by apply Hne, (Hx k j (lk q)).
Qed.

Lemma gone_inv log x s l s' : Inv log x s -> u32 l -> running x l -> gone l s s' -> Inv log None s'.
Proof.
  intros Hi Hl Hx [Hf Hg Ht _ He _]. apply (Inv_clear _ x l); [|done|intros p Hp; congruence].
  eapply Inv_from; [exact Hi|rewrite He; apply Hi|rewrite Ht; apply Hi|by rewrite Ht|].
  intros j q' _ Hq'. by apply Hf in Hq'.
Qed.

(** The authentication of the link after an event. *)
Lemma event_authentic log env s l p ev :
  u32 l -> at_link l s p (tasks s) s -> clock_ok p -> legal (lk p) = true -> authentic log l p ->
  backed log env s l ev ->
  wpe True (process_event VISA_SERVICE_DN env l ev) s (fun _ s' => settles l ev s p s' ->
    forall p', get (peer_table s') l = Some p' -> authentic log l p').
Proof.
  intros Hl Hat Hc Hle [Hv Hgr] Hb.
  assert (forall s', settles l ev s p s' -> forall p', get (peer_table s') l = Some p' ->
    uid (lk p') = uid (lk p) /\ ty p' = ty p /\ allowed (ty p) (st p) ev (st p') = true) as Hset.
  { intros s' (q & ts' & n & Ha' & Hgood) p' Hp'. rewrite (a_peer _ _ _ _ _ Ha') in Hp'. injection Hp' as <-.
    destruct Hgood as [Hev _ _ Hal _ _]. split_and!; [apply Hev|apply Hev|done]. }
  assert (forall Q : Assembly slab -> Prop, (forall s', Q s') -> wpe True (process_event VISA_SERVICE_DN env l ev) s (fun _ => Q)) as Hany.
  { intros Q HQ. unfold wpe. by destruct (process_event _ _ _ _ _) as [[]|]. }
  destruct (decide (ty p = NodeToAdapter)) as [Hty|Hty]; cycle 1.
  { apply Hany. intros s' Hs p' Hp'. destruct (Hset s' Hs p' Hp') as (_ & E2 & _). split; congruence. }
  assert (st p <> WaitForUserAuth) as Hwu by (intros E1; unfold legal in Hle; by rewrite Hty, E1 in Hle).
  destruct (decide (st p = WaitForAcquireZprAddress)) as [Hst|Hst]; cycle 1.
  - apply Hany. intros s' Hs p' Hp'. destruct (Hset s' Hs p' Hp') as (E1 & E2 & E3). rewrite Hty in E3.
    split; rewrite E1, E2; intros _ Hs'; destruct (decide (st p' = st p)) as [Es|Hne].
    + apply Hv; [done|]. by rewrite <- Es.
    + destruct (allowed_auth _ _ _ E3 Hwu Hne Hs') as [(? & ? & _ & ?)|(a & _ & Ha & _)]; [done|auto].
    + apply Hgr; [done|congruence].
    + destruct (allowed_auth _ _ _ E3 Hwu Hne ltac:(auto)) as [(? & ? & _ & ?)|(a & -> & _)]; [done|auto].
  - assert ((exists addrs blob, ev = ReceivedAcquireZprAddressRequest addrs blob) \/
      forall addrs blob, ev <> ReceivedAcquireZprAddressRequest addrs blob) as [(addrs & blob & ->)|Hn]
      by (destruct ev; eauto; by right).
    + cbn [process_event]. eapply wpe_mono; [by apply acquire_decides|done|].
      intros _ s' (q & ts' & Ha' & E1 & Hq) _ p' Hp'. rewrite (a_peer _ _ _ _ _ Ha') in Hp'. injection Hp' as <-.
      pose proof (Hb p (a_peer _ _ _ _ _ Hat)) as Hm. unfold acquire_marks in Hm.
      destruct (accepted _ _ _ _); [|split; rewrite Hq; [intros _ [|]; done|done]].
      split; rewrite E1; intros _ Hs'; [apply Hm; by left|left].
      destruct (is_vs s l); [apply Hm; set_solver|]. destruct Hq. congruence.
    + apply Hany. intros s' Hs p' Hp'. destruct (Hset s' Hs p' Hp') as (E1 & E2 & E3). rewrite Hty in E3.
      assert (st p' = RegisterAA \/ st p' = Active -> False) as Hno.
      { intros Hs'. destruct (allowed_auth _ _ _ E3 Hwu ltac:(rewrite Hst; by destruct Hs' as [-> | ->]) Hs')
          as [(addrs & blob & He & _)|(a & _ & Ha & _)]; [by eapply Hn|congruence]. }
      split; intros _ Hs'; exfalso; auto.
Qed.

Section event.
Context (env : Env) (log : list Mark) (x : option Task) (s : Assembly slab) (l : Z) (ev : LinkEvent).
Hypothesis (Hi : Inv log x s) (Hl : u32 l) (Hok : event_ok ev) (Hx : running x l).
Hypothesis (Hmove : forall k p, x = Some k -> serves k l (lk p) = true -> allowed (ty p) (st p) ev (st p) = false).
Hypothesis (Hb : backed log env s l ev).

Lemma self_event_inv p :
  get (peer_table s) l = Some p -> wpe True (process_event VISA_SERVICE_DN env l ev) s (fun _ => Inv log None).
Proof.
  intros Hp. destruct (i_peers _ _ _ Hi l p Hl Hp) as [Hc Hpi Hle _ Hau].
  assert (at_link l s p (tasks s) s) as Hat by (apply at_start; [done|apply Hi]).
  assert (wpe True (process_event VISA_SERVICE_DN env l ev) s (fun _ s' => settles l ev s p s' \/
    (ev = CloseDone /\ gone l s s'))) as Hs by (eapply wpe_mono; [by apply event_settles|done|done]).
  pose proof (event_authentic log env s l p ev Hl Hat Hc Hle Hau Hb) as Ha.
  eapply wpe_mono; [exact (wpe_both _ _ _ _ Hs Ha)|done|]. intros r s' [[Hset|[_ Hgone]] Hauth].
  - eapply settled_inv; eauto.
  - by eapply gone_inv.
Qed.

Lemma link_event_inv : wpe True (process_link_state_event VISA_SERVICE_DN env l ev) s (fun _ => Inv log None).
Proof.
  pose proof self_event_inv as Hself. unfold process_link_state_event, via_table. apply wpe_bind, wpe_get_peer.
  destruct (get (peer_table s) l) as [p|] eqn:Ep; [by apply (Hself p)|]. clear Hself Hb Hmove.
  apply wpe_ret, (Inv_clear _ x l); [done|done|]. intros p Hp. congruence.
Qed.

Lemma event_inv : wpe True (event VISA_SERVICE_DN env l ev) s (fun _ => Inv log None).
Proof. apply wpe_bind. eapply wpe_mono; [apply link_event_inv|done|]. intros r s' Hs'. by apply wpe_ret. Qed.

End event.

(** An event while nothing else is running. *)
Lemma event_inv' env log s l ev :
  Inv log None s -> u32 l -> event_ok ev -> backed log env s l ev ->
  wpe True (event VISA_SERVICE_DN env l ev) s (fun _ => Inv log None).
Proof. intros Hi Hl Hok Hb. by apply (event_inv env log None). Qed.

(** ** Changes of a link's data *)

Lemma update_inv log x s l f :
  Inv log x s -> u32 l ->
  (forall p, peer_inv p -> peer_inv (f p)) ->
  (forall p, uid (lk (f p)) = uid (lk p) /\ ty (f p) = ty p /\ locked_fsm (lk (f p)) = locked_fsm (lk p)) ->
  wpe True (update_peer l f) s (fun _ s' => Inv log x s' /\ tasks s' = tasks s).
Proof.
  intros [He Ht Hp] Hl Hf1 Hf2. unfold wpe. cbn. split; [|done]. split; [done|done|]. cbn. intros j q Hj.
  rewrite get_update by done. destruct (decide (j = l)) as [-> |]; [|by apply Hp].
  destruct (get (peer_table s) l) as [p|] eqn:Ep; [|done]. cbn. intros [= <-].
  destruct (Hf2 p) as (E1 & E2 & E3). destruct (Hp l p Hl Ep) as [Hc Hi Hle Ha [Hv Hg]].
  unfold clock_ok, legal, armed, timer, serves, get_state in *.
  split; unfold clock_ok, legal, armed, timer, serves, get_state; rewrite ?E1, ?E2, ?E3; auto.
  split; unfold get_state; by rewrite E1, E2, E3.
Qed.

Lemma data_inv log x s l (f : LinkStateWrapper -> LinkStateWrapper) :
  Inv log x s -> u32 l -> (forall k, data_ok (locked_data k) -> data_ok (locked_data (f k))) ->
  (forall k, uid (f k) = uid k /\ link_type (f k) = link_type k /\ locked_fsm (f k) = locked_fsm k) ->
  wpe True (update_peer l (on_link f)) s (fun _ s' => Inv log x s' /\ tasks s' = tasks s).
Proof.
  intros Hi Hl Hd Hf. apply update_inv; [done|done| |].
  - intros p [Hp1 Hp2]. split; [by apply Hd|done].
  - intros p. apply Hf.
Qed.

Lemma put_inv log x s t :
  Inv log x s -> links_from (peer_table s) t -> wpe True (put_peers t) s (fun _ => Inv log x).
Proof.
  intros Hi Hf. unfold wpe. cbn. eapply Inv_from; [exact Hi|apply Hi|apply Hi|done|]. intros j q' _ Hq'. by apply Hf in Hq'.
Qed.

Lemma spawn_inv log x s k : Inv log x s -> task_ok k -> wpe True (spawn k) s (fun _ => Inv log x).
Proof.
  intros Hi Hk. unfold wpe. cbn. eapply Inv_from; [done|apply Hi| | |]; cbn.
  - apply list.Forall_app. split; [apply Hi|by constructor].
  - intros j Hj _. apply elem_of_app. auto.
  - by eauto.
Qed.

(** Changes of other parts of the program. *)
Definition elsewhere (f : Assembly slab -> Assembly slab) : Prop :=
  forall s, peer_table (f s) = peer_table s /\ tasks (f s) = tasks s /\ elt (f s) = elt s.
Lemma modify_inv log x s f : Inv log x s -> elsewhere f -> wpe True (modify f) s (fun _ => Inv log x).
Proof.
  intros [He Ht Hp] Hf. destruct (Hf s) as (E1 & E2 & E3).
  split; rewrite ?E1, ?E2, ?E3; done.
Qed.

(** ** Tasks *)

Lemma delete_exists (f : Task -> bool) ts i k :
  ts !! i = Some k -> existsb f ts = true -> existsb f (delete i ts) = true \/ f k = true.
Proof.
  intros Hk. revert i Hk. induction ts as [|y ts IH]; intros [|i] Hk; cbn in *; simplify_eq.
  - destruct (f k); auto.
  - destruct (f y); [by left|]. cbn. eauto.
Qed.

Lemma armed_delete l lk0 ts i k :
  ts !! i = Some k -> armed l lk0 ts = true -> armed l lk0 (delete i ts) = true \/ serves k l lk0 = true.
Proof.
  intros Hk. unfold armed, serves.
  pose proof (delete_exists (finishes l) ts i k Hk) as H1x. pose proof (delete_exists (stops l) ts i k Hk) as H2x.
  pose proof (delete_exists (authorizes l) ts i k Hk) as H3x.
  destruct (link_type lk0), (get_state lk0); auto; rewrite ?orb_true_iff.
  all: try (intros Ha; apply H1x in Ha as [|Ha]; [by left|right; by destruct k]).
  all: try (intros Ha; apply H2x in Ha as [|Ha]; [by left|right; by destruct k]).
  all: try (intros Ha; apply H3x in Ha as [|Ha]; [by left|right; by destruct k]).
  all: intros [|Ha]; [by left; left|]; apply H1x in Ha as [|Ha]; [by left; right|right; by destruct k].
Qed.

Lemma finish_inv log s i k :
  Inv log None s -> tasks s !! i = Some k ->
  Inv log (Some k) (set_tasks (delete i (tasks s)) s) /\ task_ok k.
Proof.
  intros [He Ht Hp] Hk. rewrite list.Forall_forall in Ht.
  split; [|by apply Ht, (list_elem_of_lookup_2 _ i)]. split; [done| |].
  - cbn. apply list.Forall_forall. intros y Hy. apply Ht. rewrite list_elem_of_lookup in *.
    destruct Hy as [j Hj]. rewrite list_lookup_delete in Hj. by eauto.
  - cbn. intros l p Hl Hg. destruct (Hp l p Hl Hg) as [Hc Hi Hle Ha Hau]. split; try done.
    destruct Ha as [Ha|(y & [=] & _)]. destruct (armed_delete _ _ _ _ _ Hk Ha); [by left|right; eauto].
Qed.

(** A task no link waits for. *)
Lemma Inv_idle log k s : (forall l lk0, serves k l lk0 = false) -> Inv log (Some k) s -> Inv log None s.
Proof.
  intros Hk [He Ht Hp]. split; [done|done|]. intros l p Hl Hg. destruct (Hp l p Hl Hg) as [Hc Hi Hle Ha Hau].
  split; try done. destruct Ha as [|(y & [= <-] & Hs)]; [by left|]. by rewrite Hk in Hs.
Qed.

Ltac next_inv := let s' := fresh "s" in let Hs := fresh "Hi" in intros [] s' Hs;
  lazymatch type of Hs with _ /\ _ => destruct Hs as [Hs _] | _ => idtac end.
Ltac inv_step :=
  lazymatch goal with
  | |- wpe _ (mbind _ _) _ _ => apply wpe_bind
  | |- wpe _ (mret _) _ _ => apply wpe_ret
  | |- wpe _ (gets _) _ _ => apply wpe_gets
  | |- wpe _ (get_peer _) _ _ => apply wpe_get_peer
  | |- wpe _ (link_if_uid _ _) _ _ => unfold link_if_uid
  | |- wpe _ (finish_failure _ _) _ _ => unfold finish_failure
  | |- wpe _ (assert _) _ _ => apply wpe_assert; [intros _|done]
  | |- wpe _ (lift _) _ _ => apply wpe_lift; [intros ? _|done]
  | |- wpe _ (send _) _ _ => eapply wpe_mono; [eapply modify_inv; [eassumption|by intros ?]|done|next_inv]
  | |- wpe _ (modify _) _ _ => eapply wpe_mono; [eapply modify_inv; [eassumption|by intros ?]|done|next_inv]
  | |- wpe _ (spawn _) _ _ => eapply wpe_mono; [eapply spawn_inv; [eassumption|done]|done|next_inv]
  | |- wpe _ (when _ _) _ _ => apply wpe_when; intros ?
  | |- wpe _ (update_peer _ (on_link _)) _ _ =>
      eapply wpe_mono; [eapply data_inv; [eassumption|done|intros ? []; by split|done]|done|next_inv]
  | |- wpe _ (if ?b then _ else _) _ _ => destruct b eqn:?
  | |- wpe _ (match ?b with Some _ => _ | None => _ end) _ _ => destruct b eqn:?
  | |- wpe _ (event _ _ _ _) _ _ => eapply event_inv'; [eassumption|done|done|done]
  end; cbn beta.
Ltac inv_steps := repeat inv_step.

Section completions.
Context (env : Env) (log : list Mark).
Notation process_event := (process_event VISA_SERVICE_DN env).
Implicit Type x : option Task.

Lemma expires_inv x s l e : Inv log x s -> u32 l -> wpe True (record_auth_expires env l e) s (fun _ => Inv log x).
Proof. intros Hi Hl. unfold record_auth_expires. inv_steps; done. Qed.

Lemma links_from_clear_sa (t : PeerTable slab) l : links_from t (clear_security_association t l).1.
Proof. unfold clear_security_association. destruct (get t l); [by apply links_from_update|apply links_from_refl]. Qed.
Lemma links_from_set_sa (t : PeerTable slab) l sa : links_from t (set_security_association t l sa).1.
Proof. unfold set_security_association. destruct (get t l); [by apply links_from_update|apply links_from_refl]. Qed.
Lemma links_from_remove_km (t : PeerTable slab) l : links_from t (remove_km_state t l).1.
Proof.
  unfold remove_km_state. pose proof (links_from_clear_sa t l) as Hc.
  destruct (get _ l) as [p|]; [|done]. destruct (km_handle p); [|done].
  eapply links_from_trans; [done|]. by apply links_from_update.
Qed.

(** A task is replaced by one that the same links wait for. *)
Lemma respawn_inv s k k' :
  Inv log (Some k) s -> task_ok k' ->
  (forall l lk0 ts, serves k l lk0 = true -> armed l lk0 (ts ++ [k']) = true) ->
  wpe True (spawn k') s (fun _ => Inv log None).
Proof.
  intros Hi Hk Hs. eapply wpe_mono; [apply (wpe_both _ _ (fun _ => Inv log (Some k)) (fun _ s' => tasks s' = tasks s ++ [k']))|done|].
  - by apply spawn_inv.
  - done.
  - intros [] s' [[He Ht Hp] Ets]. split; [done|done|]. intros l p Hl Hg. destruct (Hp l p Hl Hg) as [Hc Hpi Hle Ha Hau].
    split; try done. left. destruct Ha as [|(y & [= <-] & Hy)]; [done|]. rewrite Ets. auto.
Qed.

Lemma running_of k l : (forall lk0 j, serves k j lk0 = true -> j = l) -> running (Some k) l.
Proof. intros Hs k' j lk0 [= <-]. apply Hs. Qed.
Ltac runs := apply running_of; intros lk0 j; cbn; destruct (link_type lk0), (get_state lk0); intros Hs;
  by try (apply Z.eqb_eq in Hs).
(** The event moves the link out of the state it waits in. *)
Ltac moves := intros k p [= <-] Hs; cbn in Hs |- *; destruct (ty p), (st p) eqn:Est; try done; cbn;
  rewrite ?bool_decide_eq_false_2 by done; done.

Lemma drop_link_inv s l : Inv log (Some (DropLinkTask l)) s -> u32 l ->
  wpe True (drop_link VISA_SERVICE_DN env l) s (fun _ => Inv log None).
Proof.
  intros Hi Hl. unfold drop_link. do 2 inv_step.
  destruct (remove_km_state _ l) as [t' h] eqn:Ek. apply wpe_bind.
  eapply wpe_mono; [apply put_inv; [exact Hi|]|done|].
  { eapply links_from_trans; [apply links_from_clear_sa|]. pose proof (links_from_remove_km
      (clear_security_association (peer_table s) l).1 l) as Hk. by rewrite Ek in Hk. }
  intros [] s1 Hi1. destruct h as [h|].
  - eapply respawn_inv; [exact Hi1|done|]. intros j lk0 ts Hs. unfold armed. rewrite existsb_app. cbn in Hs |- *.
    destruct (link_type lk0), (get_state lk0); try done; by rewrite Hs, !orb_true_r.
  - eapply event_inv; [exact Hi1|done|done|runs|moves|done].
Qed.

Lemma authorized_inv s l req r : Inv log (Some (AuthorizeConnectTask l req)) s -> u32 l ->
  (forall a e, r = Connection a e -> Authorized l a ∈ log) ->
  wpe True (authorize_connect_done VISA_SERVICE_DN env l r) s (fun _ => Inv log None).
Proof.
  intros Hi Hl Hlog. unfold authorize_connect_done. do 4 inv_step.
  assert (forall ev s', Inv log (Some (AuthorizeConnectTask l req)) s' -> event_ok ev -> backed log env s' l ev ->
    (ev = EventError \/ (exists a, ev = ReceivedAuthorizeResponse a) \/ exists c, ev = ReceivedAuthorizeFailure c) ->
    wpe True (event VISA_SERVICE_DN env l ev) s' (fun _ => Inv log None)) as Hev.
  { intros ev s' Hi' Hok Hb Hc. eapply event_inv; [exact Hi'|done|done|runs| |done].
    destruct Hc as [-> |[(a & ->)|(c & ->)]]; moves. }
  destruct r as [a e|c|]; cbn [authorize_failure_event].
  - inv_step; [apply Hev; try done; by left|]. inv_step. eapply wpe_mono; [by apply expires_inv|done|]. intros [] s1 Hi1.
    apply Hev; [done|done| |eauto]. exists a. eauto.
  - destruct (response_code_for_vs_error c); apply Hev; try done; eauto.
  - apply Hev; try done; by left.
Qed.

Section idle.
Context (s : Assembly slab) (l : Z) (Hi : Inv log None s) (Hl : u32 l).
Notation keeps m := (wpe True m s (fun _ => Inv log None)).

Lemma oidc_inv clock iss ch bs r : keeps (oidc_done VISA_SERVICE_DN env l clock iss ch bs r).
Proof.
  unfold oidc_done. inv_steps; try done. destruct r as [[]|]; (eapply event_inv'; [done|done| |done]); try done.
  cbn. by destruct bs.
Qed.
Lemma submit_inv u bs : keeps (submit_renewal_reauthorize l u bs).
Proof.
  unfold submit_renewal_reauthorize. do 6 inv_step. destruct (match get _ _ with Some _ => _ | None => _ end) as [k|]; [|done].
  inv_steps; [done|]. destruct (get_actor_addresses k); inv_steps; done.
Qed.
Lemma reply_inv u iss n r : keeps (handle_renewal_reply l u iss n r).
Proof.
  unfold handle_renewal_reply. do 5 inv_step. destruct (match get _ _ with Some _ => _ | None => _ end) as [k|]; [|done].
  destruct r; [apply submit_inv|]. inv_steps; done.
Qed.
Lemma renewal_timeout_inv u ch : keeps (renewal_timeout_done l u ch).
Proof.
  unfold renewal_timeout_done. do 5 inv_step. destruct (match get _ _ with Some _ => _ | None => _ end) as [k|]; [|done].
  inv_step; [|done]. inv_step. eapply wpe_mono; [eapply data_inv; [done|done| |]|done|].
  - intros k' Hd. by apply take_challenge_ok.
  - intros k'. by destruct (take_challenge_same ch k').
  - intros [] s1 [Hi1 _]. inv_steps. done.
Qed.
Lemma adapter_renewal_inv u iss ch ss r : keeps (adapter_renewal_done l u iss ch ss r).
Proof.
  unfold adapter_renewal_done. do 5 inv_step. destruct (match get _ _ with Some _ => _ | None => _ end) as [k|]; [|done].
  destruct (match r with Some _ => _ | None => _ end) as [status blob]. inv_steps. done.
Qed.
Lemma reauthorize_inv u r : keeps (reauthorize_done env l u r).
Proof.
  unfold reauthorize_done. do 4 inv_step. destruct r; inv_steps; try done;
    destruct (match get _ _ with Some _ => _ | None => _ end); inv_steps; done.
Qed.
Lemma restart_inv : keeps (restart_done VISA_SERVICE_DN env l).
Proof. unfold restart_done. inv_steps; done. Qed.
End idle.

Lemma complete_inv s k c :
  Inv log (Some k) s -> task_ok k -> fits k c = true ->
  (forall l req a e, k = AuthorizeConnectTask l req -> c = CConnect (Connection a e) -> Authorized l a ∈ log) ->
  wpe True (complete_task VISA_SERVICE_DN env k c) s (fun _ => Inv log None).
Proof.
  intros Hi Hk Hf Hlog.
  assert ((forall l lk0, serves k l lk0 = false) -> Inv log None s) as Hidle by (intros; by eapply Inv_idle).
  assert ((forall l lk0, serves k l lk0 = false) -> forall l ev, u32 l -> event_ok ev -> backed log env s l ev ->
    wpe True (event VISA_SERVICE_DN env l ev) s (fun _ => Inv log None)) as Hev
    by (intros Hs l ev Hl Hok Hb; apply event_inv'; auto).
  destruct k, c; try done; cbn [complete_task].
  - eapply authorized_inv; [exact Hi|done|]. intros a e ->. by eapply Hlog.
  - destruct r; [by apply Hev|by apply Hev|by apply wpe_ret, Hidle].
  - destruct r; [by apply Hev|by apply wpe_ret, Hidle..].
  - destruct r; [by apply Hev|by apply wpe_ret, Hidle..].
  - eapply event_inv; [exact Hi|done|done|runs|moves|done].
  - by apply oidc_inv; [apply Hidle|].
  - by apply reply_inv; [apply Hidle|].
  - by apply renewal_timeout_inv; [apply Hidle|].
  - by apply adapter_renewal_inv, Hidle.
  - by apply submit_inv; [apply Hidle|].
  - by apply reauthorize_inv; [apply Hidle|].
  - unfold actor_disconnect. inv_steps. by apply Hidle.
  - by apply drop_link_inv.
  - eapply event_inv; [exact Hi|done|done|runs|moves|done].
  - apply modify_inv; [by apply Hidle|done].
  - by apply restart_inv; [apply Hidle|].
Qed.

End completions.
(** ** Links that start, are reset, and requests of the visa service *)

Section callers.
Context (env : Env) (log : list Mark).
Implicit Type x : option Task.

Lemma keyed_inv s l sa : Inv log None s -> u32 l ->
  wpe True (sa_established VISA_SERVICE_DN env l sa) s (fun _ => Inv log None).
Proof.
  intros Hi Hl. unfold sa_established. do 3 inv_step.
  eapply wpe_mono; [apply put_inv; [exact Hi|apply links_from_set_sa]|done|]. intros [] s1 Hi1. by apply event_inv'.
Qed.

Lemma reset_inv s l : Inv log None s -> u32 l -> wpe True (reset_peer l) s (fun _ => Inv log None).
Proof.
  intros Hi Hl. unfold reset_peer. do 2 inv_step. destruct (get (peer_table s) l) as [p|] eqn:Ep; [|done].
  assert (at_link l s p (tasks s) s) as Hat by (apply at_start; [done|apply Hi]).
  destruct (i_peers _ _ _ Hi l p Hl Ep) as [Hc Hpi Hle _ _]. unfold reset. do 6 link_step.
  set (p1 := on_link (on_fsm (set_state Resetting)) p) in Hat.
  assert (evolve 1 p p1) as Hev1 by apply evolve_state.
  eapply w_clean_up; [done|done..|by eapply evolve_clock|]. intros p' ts' s' Hat' [He Hst _ _ Htk Hfin].
  pose proof (evolve_trans _ _ _ _ _ Hev1 He) as Hev. cbn in Hst.
  destruct Hat' as [Hp' Hfr _ _ Hts _ _ _ _ Hel _ _ _]. destruct Hi as [_ Ht Hp]. split; [done| |].
  - rewrite Hts. apply list.Forall_app. split; [done|]. rewrite list.Forall_forall in Htk |- *.
    intros k Hk%Htk. apply andb_true_iff in Hk as [_ Hk]. unfold task_ok.
    destruct (task_link k) as [j|]; [|done]. by apply Z.eqb_eq in Hk as ->.
  - intros j q Hj Hq. destruct (decide (j = l)) as [-> |Hne].
    + assert (q = p') as -> by congruence. split.
      * by eapply evolve_clock.
      * by apply Hev.
      * unfold legal. rewrite Hst. by destruct (ty p').
      * left. unfold armed. rewrite Hst, Hts, existsb_app, (Hfin ltac:(by right)), orb_true_r. by destruct (ty p').
      * split; rewrite Hst; [by intros _ []|done].
    + rewrite Hfr in Hq by done. eapply peer_ok_core; [done| |by apply Hp].
      intros k Hk _. rewrite Hts. apply elem_of_app. by left.
Qed.

Lemma deferred_inv s l a r : Inv log None s -> u32 l ->
  wpe True (send_deferred_vs_connect env l a r) s (fun _ => Inv log None).
Proof.
  intros Hi Hl. unfold send_deferred_vs_connect. do 4 inv_step. destruct r; inv_steps; try done.
  eapply wpe_mono; [by apply expires_inv|done|]. intros [] s1 Hi1. by apply wpe_ret.
Qed.

(** A link found in the table has an identifier of 32 bits. *)
Lemma docked_u32 (t : PeerTable slab) a l p : docked_link t a = Some (l, p) -> u32 l.
Proof.
  unfold docked_link, PeerTable.find. destruct (List.find _ _) as [[k q]|]; [|done]. cbn. intros [= <- _].
  unfold stream_of, u32, wrap. apply Z.mod_pos_bound. lia.
Qed.

Lemma revoke_auth_inv addrs : forall s, Inv log None s ->
  wpe True (terminate_docked VISA_SERVICE_DN env addrs) s (fun _ => Inv log None).
Proof.
  induction addrs as [|a r IH]; intros s Hi; cbn [terminate_docked]; [by apply wpe_ret|]. do 3 inv_step.
  destruct (docked_link _ a) as [[l p]|] eqn:Ed; [|by apply wpe_ret, IH].
  eapply wpe_mono; [apply event_inv'; [done|by eapply docked_u32|done|done]|done|]. intros [] s1. apply IH.
Qed.

Lemma renew_now_inv s l : Inv log None s -> u32 l ->
  wpe True (request_renewal_now env l) s (fun _ => Inv log None).
Proof.
  intros Hi Hl. unfold request_renewal_now, self. do 4 inv_step.
  inv_step; [by apply wpe_ret|]. inv_step; [by apply wpe_ret|]. inv_step; [by apply wpe_ret|].
  unfold upd_data, send_renewal_credential_request. inv_steps.
  all: unfold renewal_failed; inv_steps; done.
Qed.

Lemma request_auth_inv addrs : forall s n b, Inv log None s ->
  wpe True (request_authentication env addrs n b) s (fun _ => Inv log None).
Proof.
  induction addrs as [|a r IH]; intros s n b Hi; cbn [request_authentication]; [by apply wpe_ret|]. do 2 inv_step.
  destruct (bool_decide _).
  - destruct (_ && _); inv_steps; by apply IH.
  - destruct (docked_link _ a) as [[l p]|] eqn:Ed; [|by apply IH]. inv_step.
    eapply wpe_mono; [apply renew_now_inv; [done|by eapply docked_u32]|done|]. intros y s1 Hi1. by apply IH.
Qed.

Lemma request_all_inv s addrs : Inv log None s ->
  wpe True (process_request_authentication env addrs) s (fun _ => Inv log None).
Proof.
  intros Hi. unfold process_request_authentication. inv_step.
  eapply wpe_mono; [by apply request_auth_inv|done|]. intros [n b] s1 Hi1. inv_step. inv_step.
  - unfold spawn_self_reauth. inv_steps; done.
  - by apply wpe_ret.
Qed.

Lemma configure_inv s params : Inv log None s ->
  wpe True (process_configuration AAA_PREFIX parse params) s (fun _ => Inv log None).
Proof.
  intros Hi. unfold process_configuration. destruct (aaa_prefix _ _ _) as [[net|]|]; [|by apply wpe_ret..].
  destruct (parse net) as [[segs plen]|]; [|by apply wpe_ret]. destruct (AddressPool.new segs plen); inv_steps; done.
Qed.

Lemma insert_entry (t : PeerTable slab) p l t' : vacant_entry_insert t p = Ret (l, t') ->
  u32 l /\ forall j q, get t' j = Some q -> q = p \/ get t j = Some q.
Proof.
  unfold vacant_entry_insert. pose proof (insert_spec _ (peer_slab t) p) as Hs.
  destruct (slab_insert (peer_slab t) p) as [[k sl]|]; [|done]. destruct Hs as (_ & _ & Hg).
  assert (forall l0, link_of k = Ret l0 -> u32 l0) as Hu.
  { intros l0. unfold link_of. destruct (_ =? 0); [done|]. intros [= <-]. unfold u32, wrap. apply Z.mod_pos_bound. lia. }
  assert (forall j q, slab_get sl (slot j) = Some q -> q = p \/ get t j = Some q) as Hq.
  { intros j q. rewrite Hg. destruct (decide _); [intros [= <-]; by left|by right]. }
  intros Hr. cbn [unwrap] in Hr. rewrite bind_Ret in Hr. destruct (slab_get sl k) as [r|]; [|done].
  cbn [unwrap] in Hr. rewrite bind_Ret in Hr. apply bind_ret in Hr as (l0 & Hl0 & Hr).
  repeat case_match; simplify_eq; try done; injection Hr as <- <-; (split; [by apply Hu|]); intros j q; apply Hq.
Qed.

Lemma fresh_ok u l ty sa ia rnd p u' j ts :
  peer_new u l ty sa ia rnd = Ret (p, u') -> ty <> Internal -> peer_ok log None ts j p.
Proof.
  intros Hn Hty. unfold peer_new, link_new in Hn. destruct (Rx.new _) as [rx|] eqn:Er; [|done].
  rewrite decide_False in Hn by done. injection Hn as <- _. split; try done.
  - split; [done|]. cbn. unfold Rx.new in Er. destruct (1 <=? _) eqn:E1; [|done]. destruct (_ <=? _) eqn:E2; [|done].
    injection Er as <-. done.
  - unfold legal. cbn. by destruct ty.
  - left. unfold armed. cbn. by destruct ty.
  - split; cbn; [by intros _ []|done].
Qed.

(** The peers at the start: internal links, which are up for good. *)
Definition inside p : Prop := clock_ok p /\ peer_inv p /\ ty p = Internal /\ st p = Active.

Lemma inside_ok ts j p : inside p -> peer_ok log None ts j p.
Proof.
  intros (Hc & Hi & Hty & Hst). split; [done|done| | |].
  - unfold legal. by rewrite Hty.
  - left. unfold armed. by rewrite Hty, Hst.
  - split; congruence.
Qed.

Lemma internal_inside u l o p u' : new_internal_peer u l o = Ret (p, u') -> inside p.
Proof.
  unfold new_internal_peer, peer_new. destruct (Rx.new _) as [rx|] eqn:Er; [|done]. intros [= <- _].
  split_and!; try done. split; [done|]. cbn. unfold Rx.new in Er. repeat case_match; try done. by injection Er as <-.
Qed.

Lemma own_addresses_inside addrs : forall p lk1,
  inside p -> own_addresses addrs (lk p) = Ret lk1 -> inside (on_link (fun _ => lk1) p).
Proof.
  induction addrs as [|a r IH]; intros p lk1 Hp; cbn [own_addresses].
  - intros [= <-]. by destruct p.
  - intros (lk0 & E0 & Ha)%bind_ret. apply (IH (on_link (fun _ => lk0) p)); [|done].
    unfold add_internal_actor_address, rust_assert in E0. destruct (is_internal (lk p)); [|done]. by injection E0 as <-.
Qed.

Lemma boot_inside mode addrs u t u' :
  boot mode addrs u = Ret (t, u') -> forall j p, u32 j -> get t j = Some p -> inside p.
Proof.
  assert (forall v p t0 k t1 l o w, new_internal_peer v l o = Ret (p, w) -> vacant_entry_insert t0 p = Ret (k, t1) ->
    (forall j q, get t0 j = Some q -> inside q) -> forall j q, get t1 j = Some q -> inside q) as Hins.
  { intros v p t0 k t1 l o w Hn Hi Hold j q Hq. destruct (insert_entry _ _ _ _ Hi) as [_ Hg].
    apply Hg in Hq as [-> |]; [by eapply internal_inside|by eapply Hold]. }
  assert (forall j q, get (PeerTable.new (slab:=slab)) j = Some q -> inside q) as Hnew.
  { intros j q Hq. unfold get in Hq. cbn in Hq. by rewrite get_new in Hq. }
  unfold boot. destruct mode.
  - intros (((ls & t2) & u2) & Hpair & Hb)%bind_ret. unfold insert_internal_peer_pair in Hpair.
    destruct (vacant_entry _); [|done]. apply bind_ret in Hpair as (k1 & _ & Hpair).
    apply bind_ret in Hpair as (_ & _ & Hpair). apply bind_ret in Hpair as ((p1 & u1) & Hp1 & Hpair).
    apply bind_ret in Hpair as ((k1' & t1) & Ht1 & Hpair). destruct (vacant_entry t1); [|done].
    apply bind_ret in Hpair as (k2 & _ & Hpair). apply bind_ret in Hpair as (_ & _ & Hpair).
    apply bind_ret in Hpair as ((p2 & u2') & Hp2 & Hpair). apply bind_ret in Hpair as ((k2' & t2') & Ht2 & Hpair).
    injection Hpair as <- <- <-.
    assert (forall j q, get t2' j = Some q -> inside q) as Hall
      by (refine (Hins _ _ _ _ _ _ _ _ Hp2 Ht2 _); exact (Hins _ _ _ _ _ _ _ _ Hp1 Ht1 Hnew)).
    apply bind_ret in Hb as (_ & _ & Hb). apply bind_ret in Hb as (_ & _ & Hb). apply bind_ret in Hb as (p & Hp & Hb).
    apply bind_ret in Hb as (lk1 & Hlk & [= <- <-]). destruct (get t2' _) as [p'|] eqn:Hp'; [|done]. injection Hp as ->.
    intros j q Hj. rewrite get_update by (done || by vm_compute). destruct (decide _) as [-> |]; [|by apply Hall].
    rewrite Hp'. intros [= <-]. eapply own_addresses_inside; [by eapply Hall|done].
  - intros (((l & t2) & u2) & Hone & Hb)%bind_ret. unfold insert_internal_peer in Hone.
    destruct (vacant_entry _); [|done]. apply bind_ret in Hone as (k1 & _ & Hone).
    apply bind_ret in Hone as ((p1 & u1) & Hp1 & Hone). apply bind_ret in Hone as ((k1' & t1) & Ht1 & [= <- <- <-]).
    apply bind_ret in Hb as (_ & _ & [= <- <-]). intros j q _. by eapply Hins.
Qed.

Lemma start_link_inv s l agent : Inv log None s -> u32 l ->
  wpe True (start_link env l agent) s (fun _ => Inv log None).
Proof.
  intros Hi Hl. unfold start_link. apply wpe_bind. apply (wpe_mono True True _ _ (fun _ => Inv log None)); [|done|].
  - destruct agent as [a|]; [|by apply wpe_ret]. inv_steps. done.
  - intros [] s1 Hi1. by apply (link_event_inv _ _ None).
Qed.

Lemma agent_gone_inv s l a : Inv log None s -> u32 l -> wpe True (agent_gone l a) s (fun _ => Inv log None).
Proof.
  intros Hi Hl. eapply wpe_mono; [apply data_inv; [exact Hi|done|..]|done|].
  - intros k. apply clear_agent_ok.
  - intros k. by destruct (clear_agent_same a k).
  - by intros [] s1 [Hi1 _].
Qed.

Lemma add_inv s ty sa ia rnd : ty <> Internal -> Inv log None s ->
  wpe True (add_peer ty sa ia rnd) s (fun r s' => Inv log None s' /\ match r with inl l => u32 l | inr _ => True end).
Proof.
  intros Hty Hi. unfold add_peer. do 2 inv_step. destruct (vacant_entry _); [|by apply wpe_ret].
  inv_step. apply wpe_lift; [|done]. intros key _. do 3 inv_step. apply wpe_lift; [|done]. intros [p u'] Hn.
  inv_step. apply wpe_lift; [|done]. intros [l t'] Hins. destruct (insert_entry _ _ _ _ Hins) as [Hl Hg].
  inv_step.
  eapply (wpe_mono True True _ _ (fun _ => Inv log None)); [|done|].
  - destruct Hi as [He Ht Hp]. split; [done|done|]. cbn. intros j q Hj [-> |Hq]%Hg; [by eapply fresh_ok|by apply Hp].
  - intros [] s1 Hi1. inv_steps. done.
Qed.

Lemma tether_inv s a i ty auto rnd : Inv log None s ->
  wpe True (start_tether VISA_SERVICE_DN env a i ty auto rnd) s (fun _ => Inv log None).
Proof.
  intros Hi. unfold start_tether. inv_step. apply wpe_assert; [|done]. intros Hty. inv_step.
  eapply wpe_mono; [apply add_inv; [by intros -> |done]|done|]. intros [l|e] s1 [Hi1 Hl]; [|by apply wpe_ret].
  do 2 inv_step. destruct (get (peer_table s1) l) as [p|] eqn:Ep; [|by apply wpe_ret].
  inv_step; [by apply wpe_ret|]. inv_step.
  eapply wpe_mono; [by eapply (self_event_inv env log None)|done|]. intros [u|er] s2 Hi2; [by apply wpe_ret|].
  inv_step. destruct (get (peer_table s2) l) as [q|] eqn:Eq.
  - eapply wpe_mono; [by eapply (self_event_inv env log None)|done|]. intros [u|er'] s3 Hi3; [by apply wpe_ret|done].
  - cbn [process_event]. unfold process_error_response, initiate_close, self, wpe, mbind, M_bind, get_peer, gets, lift. cbn.
    by rewrite Eq.
Qed.

End callers.

(** ** Every run *)

Lemma ignore_inv {A} (m : M A) log s : wpe True m s (fun _ => Inv log None) -> wpe True (ignore m) s (fun _ => Inv log None).
Proof. intros Hm. apply wpe_bind. eapply wpe_mono; [exact Hm|done|]. intros a s' Hs'. by apply wpe_ret. Qed.

Lemma step_inv env log x s :
  Inv log None s -> step_ok s x ->
  wpe True (run_step env x) s (fun _ => Inv (marks env s x ++ log) None).
Proof.
  intros Hi0 Hok. assert (Inv (marks env s x ++ log) None s) as Hi
    by (eapply Inv_log; [exact Hi0|intros m Hm; apply elem_of_app; by right]).
  destruct x; cbn [run_step step_ok] in *.
  - destruct Hok as [Hl Hext]. apply event_inv'; [done|done|by destruct ev|].
    destruct ev; try done. intros p Hp m Hm. cbn. rewrite Hp. apply elem_of_app. by left.
  - destruct Hok as (k & Hk & Hf). unfold finish_task. apply wpe_bind, wpe_gets. rewrite Hk. apply wpe_bind.
    destruct (finish_inv _ _ _ _ Hi Hk) as [Hi1 Htk]. unfold wpe at 1. cbn.
    apply complete_inv; [exact Hi1|done|done|]. intros l req a e -> ->. cbn. rewrite Hk. by left.
  - by apply keyed_inv.
  - by apply ignore_inv, tether_inv.
  - by apply reset_inv.
  - by apply ignore_inv, deferred_inv.
  - apply ignore_inv, wpe_bind. eapply wpe_mono; [by apply revoke_auth_inv|done|]. intros [] s1 Hs1. by apply wpe_ret.
  - by apply ignore_inv, request_all_inv.
  - by apply ignore_inv, configure_inv.
  - by apply ignore_inv, start_link_inv.
  - by apply agent_gone_inv.
Qed.

Lemma reach_inv log s : reach log s -> Inv log None s.
Proof.
  induction 1 as [s u Hb Ht He|log env x s s' u Hr IH Hok Hrun].
  - split; [done|by rewrite Ht|]. intros l p Hl Hg. by eapply inside_ok, boot_inside.
  - pose proof (step_inv env log x s IH Hok) as Hs. unfold wpe in Hs. by rewrite Hrun in Hs.
Qed.

End run.
End LinkRun.
