(* ===== verification/LinkThms.v ===== *)
(** * Links: theorems

    What [LinkHandlers] and [LinkRun] show of the link state machine, and the
    behaviour of single events where the code promises something of it. *)
From Stdlib Require Import ZArith Lia.
From stdpp Require Import base tactics option list numbers gmap.
From S2P Require Import Prelude Slab NetDefs Tc ForwardingTables TxnMgr Auth LinkTypes PeerTable PeerTableProps VisaTable AddressPool ZdprReceiver Assembly NodeBindInv LinkFsm LinkTasks LinkInv LinkDrop LinkProtocol LinkHandlers LinkRun.
From stdpp Require Import list.
Import ForwardingTables Auth LinkTypes PeerTable PeerTableProps Asm NodeBindInv LinkFsm LinkTasks LinkInv LinkDrop LinkProtocol LinkHandlers LinkRun.

Local Open Scope Z_scope.

Module LinkThms.

Section thms.
Context `{NetDefs} `{Crypto} `{VisaEnv} `{TunCtl} `{FlowTables} `{Slab slab}.
Context (VISA_SERVICE_DN AAA_PREFIX : list Z) (parse : list Z -> option (list Z * Z)).

Notation M := (M slab).
Implicit Types (s : Assembly slab) (p : PeerState slab) (ts : list Task).
Notation lk p := (link_state_machine p).
Notation st p := (get_state (link_state_machine p)).
Notation ty p := (link_type (link_state_machine p)).
Notation clock p := (logical_clock (locked_fsm (link_state_machine p))).

(** ** The protocol *)

(** The state of a peer that links depend on. *)
Definition link_ok s p : Prop := elt_ok (elt s) /\ clock_ok p /\ peer_inv p.

Lemma settles_result env l s p ev :
  u32 l -> get (peer_table s) l = Some p -> link_ok s p -> event_ok ev ->
  wpe (trouble env l s ev) (process_link_state_event VISA_SERVICE_DN env l ev) s
    (fun _ s' => settles l ev s p s' \/ (ev = CloseDone /\ gone l s s')).
Proof.
  intros Hl Hp (He & Hc & Hi) Hok. unfold process_link_state_event.
  eapply w_via_table; [by apply at_start|]. apply event_settles; try done. by apply at_start.
Qed.

(** ** Runs *)

Notation reach := (reach VISA_SERVICE_DN AAA_PREFIX parse).


(** C1. A node never lets an adapter in unauthenticated: a docking session that is
    active got there by an address request all of whose blobs were verified against the
    session's own key and certificate, and either the visa service granted an address to
    the link, or the adapter is the one the visa service itself runs on. *)
Theorem active_means_authenticated log s l p :
  reach log s -> u32 l -> get (peer_table s) l = Some p -> ty p = NodeToAdapter -> st p = Active ->
  Verified (uid (lk p)) ∈ log /\
  (SelfAuthorized (uid (lk p)) ∈ log \/ exists a, Authorized l a ∈ log).
Proof.
  intros Hr Hl Hp Hty Hst. destruct (i_peers _ _ _ (reach_inv _ _ _ _ _ Hr) l p Hl Hp) as [_ _ _ _ [Hv Hg]].
  split; [by apply Hv; [|right]|by apply Hg].
Qed.

(** ** Timeouts *)

(** A timeout never reaches into another state: when an event has moved a link to a
    new state, the timeouts set before it find another logical clock and do nothing,
    however the clock wraps. *)
Theorem timeouts_stay_in_their_state env env' l s p ev r s' p' :
  u32 l -> get (peer_table s) l = Some p -> link_ok s p -> event_ok ev ->
  process_link_state_event VISA_SERVICE_DN env l ev s = Ret (r, s') ->
  get (peer_table s') l = Some p' -> st p' <> st p ->
  process_link_state_event VISA_SERVICE_DN env' l (Timeout (clock p)) s' = Ret (inl tt, s').
Proof.
  intros Hl Hp Hok Hev Hr Hp' Hne. pose proof (settles_result env l s p ev Hl Hp Hok Hev) as Hs. unfold wpe in Hs.
  rewrite Hr in Hs. destruct Hs as [(q & ts' & n & Hat & [Hevo Hn Hm _ _ _])|[_ [_ Hg _ _ _]]]; [|congruence].
  rewrite (a_peer _ _ _ _ _ Hat) in Hp'. injection Hp' as <-. specialize (Hm Hne).
  unfold process_link_state_event, via_table, mbind, M_bind, get_peer, gets. rewrite (a_peer _ _ _ _ _ Hat).
  cbn [process_event]. unfold process_timeout, self, mbind, M_bind, get_peer, gets, lift.
  rewrite (a_peer _ _ _ _ _ Hat). cbn.
  assert (clock q <> clock p) as Hclock.
  { rewrite (e_clock _ _ _ Hevo). destruct Hok as (_ & Hc & _). unfold clock_ok, u64 in Hc. unfold wrap.
    intros Heq. assert (exists k, clock p + n = clock p + k * 2 ^ 64) as [k Hk].
    { exists ((clock p + n) / 2 ^ 64). rewrite <- Heq at 2. pose proof (Z.div_mod (clock p + n) (2 ^ 64)). lia. }
    lia. }
  rewrite (proj2 (Z.eqb_neq (clock p) (clock q))) by congruence. done.
Qed.

(** The timeout that is running fires. *)
Definition fire (env : Env) (l : Z) : M (unit + LinkStateError) :=
  p ← get_peer l;
  process_link_state_event VISA_SERVICE_DN env l (Timeout (default 0 ((fun p => clock p) <$> p))).
Fixpoint fires (envs : list Env) (l : Z) : M unit :=
  match envs with [] => mret tt | e :: r => _ ← fire e l; fires r l end.

(** An active link that has missed [m] echoes, with or without one in flight. *)
Record pinging s l p (m : Z) (echo : bool) : Prop := {
  pi_peer : get (peer_table s) l = Some p;
  pi_ok : link_ok s p;
  pi_type : ty p <> Internal;
  pi_state : st p = Active;
  pi_misses : keep_alive_misses (locked_fsm (lk p)) = m;
  pi_echo : (match echo_handle (locked_fsm (lk p)) with Some _ => true | None => false end) = echo
}.

Lemma wpe_get_some E l s p (Q : option (PeerState slab) -> Assembly slab -> Prop) :
  get (peer_table s) l = Some p -> Q (Some p) s -> wpe E (get_peer l) s Q.
Proof. intros Hp HQ. unfold wpe, get_peer, gets. by rewrite Hp. Qed.

Lemma pinging_at s0 s' l p p' ts' m b :
  LinkInv.at_link l s0 p' ts' s' -> clock_ok p' -> (peer_inv p -> peer_inv p') -> ty p' = ty p ->
  link_ok s0 p -> ty p <> Internal -> st p' = Active ->
  keep_alive_misses (locked_fsm (lk p')) = m ->
  (match echo_handle (locked_fsm (lk p')) with Some _ => true | None => false end) = b -> pinging s' l p' m b.
Proof.
  intros Hat Hc Hi Hty (_ & _ & Hok) Hint Hst Hm Hb. split; try done; [apply Hat| |congruence].
  split_and!; [apply Hat|done|auto].
Qed.

Lemma tick_clock f p : (forall x, u64 (logical_clock (f x))) -> clock_ok (on_link (on_fsm f) p).
Proof. intros Hf. apply Hf. Qed.
Lemma u64_wrap x : u64 (wrap 64 x).
Proof. unfold u64, wrap. apply Z.mod_pos_bound. lia. Qed.

Lemma w_fire env l s p m echo :
  u32 l -> pinging s l p m echo -> 0 <= m < KEEP_ALIVE_MAX_MISSES ->
  wpe False (fire env l) s (fun _ s' => exists p',
    if echo && (KEEP_ALIVE_MAX_MISSES <=? m + 1)
    then get (peer_table s') l = Some p' /\ st p' = Closing
    else pinging s' l p' (if echo then m + 1 else m) true).
Proof.
  intros Hl [Hp Hok Hty Hst Hm He] Hb. pose proof Hok as (Hel & Hc & Hi).
  assert (LinkInv.at_link l s p (tasks s) s) as Hat by by apply at_start.
  unfold fire. apply wpe_bind. eapply wpe_get_some; [done|]. cbn [fmap option_fmap option_map default].
  eapply w_via_table; [done|]. cbn [process_event]. unfold process_timeout. do 2 link_step.
  rewrite Z.eqb_refl. cbn [negb]. rewrite Hst.
  assert (forall q ts s1 k, LinkInv.at_link l s q ts s1 -> peer_inv q -> ty q = ty p -> st q = Active ->
    keep_alive_misses (locked_fsm (lk q)) = k ->
    wpe False (send_echo env l) s1 (fun _ s' => exists p', pinging s' l p' k true)) as Hecho.
  { intros q ts s1 k Hs1 Hq Htq Hsq Hk. unfold send_echo. clear Hat. link_steps. eexists.
    eapply (pinging_at s _ l p); [eassumption|apply tick_clock; intros; apply u64_wrap|done|done|done|done|done|done|done]. }
  destruct (echo_handle (locked_fsm (lk p))) as [[t0 k]|] eqn:Eh; subst echo; cbn [andb].
  - assert (wrapping_add 32 (keep_alive_misses (locked_fsm (lk p))) 1 = m + 1) as Ew.
    { rewrite Hm. unfold wrapping_add. apply wrap_small. unfold KEEP_ALIVE_MAX_MISSES in Hb. lia. }
    destruct (ty p) eqn:Et; try done; cbn beta iota; rewrite Ew.
    all: do 8 link_step.
    all: destruct (KEEP_ALIVE_MAX_MISSES <=? m + 1).
    all: try (eapply w_fail_close; [done|eassumption|cbn; congruence|]; intros p' ts' s' Hs' [_ Hcl _];
      exists p'; split; [apply Hs'|]; destruct Hcl as [[? _]|(_ & Hr & _)]; [done|by cbv in Hr]).
    all: eapply Hecho; [eassumption|done|done|done|done].
  - destruct (ty p) eqn:Et; try done; cbn beta iota; subst m; by eapply Hecho.
Qed.

Lemma w_answered env l s p m :
  u32 l -> pinging s l p m true ->
  wpe False (process_link_state_event VISA_SERVICE_DN env l ReceivedKeepAliveResponse) s
    (fun _ s' => exists p', pinging s' l p' 0 false).
Proof.
  intros Hl [Hp Hok Hty Hst Hm He]. pose proof Hok as (Hel & Hc & Hi).
  assert (LinkInv.at_link l s p (tasks s) s) as Hat by by apply at_start.
  eapply w_via_table; [done|]. cbn [process_event]. unfold process_keep_alive_response. do 2 link_step. rewrite Hst.
  destruct (echo_handle (locked_fsm (lk p))) as [[t0 k]|]; [|done]. do 11 link_step.
  eapply (w_maybe_renew env l Hl False s); [| |eassumption|done|].
  - apply tick_clock; intros; apply u64_wrap.
  - intros q' ts' s' Hs' Hev Ef _. link_step. exists q'.
    eapply (pinging_at s _ l p); [eassumption|by eapply evolve_clock|by apply Hev|by rewrite (e_type _ _ _ Hev)|done|done|..].
    + unfold get_state. by rewrite Ef.
    + by rewrite Ef.
    + by rewrite Ef.
  - apply tasks_ok_refl.
Qed.

Lemma fires_cons env envs l s p (Q : unit -> Assembly slab -> Prop) m echo :
  u32 l -> pinging s l p m echo -> 0 <= m < KEEP_ALIVE_MAX_MISSES -> echo && (KEEP_ALIVE_MAX_MISSES <=? m + 1) = false ->
  (forall p' s', pinging s' l p' (if echo then m + 1 else m) true -> wpe False (fires envs l) s' Q) ->
  wpe False (fires (env :: envs) l) s Q.
Proof.
  intros Hl Hp Hm He HQ. cbn [fires]. apply wpe_bind. eapply wpe_mono; [by eapply w_fire|done|].
  intros r s' [p' Hp']. rewrite He in Hp'. by eapply HQ.
Qed.

(** Keep-alives: on an active link the timeout sends an echo; two echoes in a row
    may go unanswered, the third closes the link, whatever the clocks read; and an
    answer at any time before it sets the count back. *)
Theorem keep_alive_three_misses env0 env1 env2 env3 l s p :
  u32 l -> pinging s l p 0 false ->
  wpe False (fires [env0; env1; env2] l) s (fun _ s' => exists p', pinging s' l p' 2 true) /\
  wpe False (fires [env0; env1; env2; env3] l) s
    (fun _ s' => exists p', get (peer_table s') l = Some p' /\ st p' = Closing) /\
  forall s1 p1 m env, pinging s1 l p1 m true ->
    wpe False (process_link_state_event VISA_SERVICE_DN env l ReceivedKeepAliveResponse) s1
      (fun _ s' => exists p', pinging s' l p' 0 false).
Proof.
  intros Hl Hp. split_and!.
  - do 3 (eapply fires_cons; [done|eassumption|done|done|]; clear dependent s p; intros p s Hp). apply wpe_ret. by exists p.
  - do 3 (eapply fires_cons; [done|eassumption|done|done|]; clear dependent s p; intros p s Hp).
    cbn [fires]. apply wpe_bind. eapply wpe_mono; [by eapply w_fire|done|]. intros r s' [p' Hp']. apply wpe_ret. by exists p'.
  - intros s1 p1 m env Hp1. by eapply w_answered.
Qed.

(** ** Authentication at a node *)

(** C14. A node decides an address request by the blobs alone: if more than one address
    is asked for, the blobs do not decode or one of them does not verify, the link
    closes; otherwise the visa service is asked, or, for the visa service's own adapter,
    the link is active at once. *)
Theorem address_request_decided env l s p addrs blob :
  u32 l -> get (peer_table s) l = Some p -> link_ok s p -> ty p = NodeToAdapter ->
  st p = WaitForAcquireZprAddress ->
  exists r s' p',
    process_link_state_event VISA_SERVICE_DN env l (ReceivedAcquireZprAddressRequest addrs blob) s = Ret (r, s') /\
    get (peer_table s') l = Some p' /\ uid (lk p') = uid (lk p) /\
    if accepted env p addrs blob then
      if is_vs s l then st p' = Active
      else st p' = RegisterAA /\ exists req, asks p addrs blob req /\ tasks s' = tasks s ++ [AuthorizeConnectTask l req]
    else st p' = Closing.
Proof.
  intros Hl Hp (He & Hc & _) Hty Hst. assert (LinkInv.at_link l s p (tasks s) s) as Hat by by apply at_start.
  pose proof (acquire_decides env l s p addrs blob Hl Hat Hc Hty Hst) as Hd. apply (w_via_table l False _ _ _ _ Hat) in Hd.
  fold (process_event VISA_SERVICE_DN env l (ReceivedAcquireZprAddressRequest addrs blob)) in Hd.
  unfold process_link_state_event, wpe in *. destruct (via_table _ _ s) as [[r s']|]; [|done].
  destruct Hd as (p' & ts' & Hat' & Hu & Hd). exists r, s', p'. split_and!; [done|apply Hat'|done|].
  by rewrite (a_tasks _ _ _ _ _ Hat').
Qed.

(** *** The handshake of two sides *)

Ltac said :=
  rewrite !get_update, !decide_True by done;
  match goal with Hx : get _ _ = Some _ |- _ => rewrite Hx end; cbn; eexists _, _; split; [done|]; cbn;
  rewrite !get_update, !decide_True by done;
  match goal with Hx : get _ _ = Some _ |- _ => rewrite Hx end; cbn;
  split; [apply elem_of_app; right; by left|by eexists].

(** A node challenges the adapter that says hello. *)
Lemma hello_challenges env l s p :
  u32 l -> get (peer_table s) l = Some p -> ty p = NodeToAdapter -> st p = Helloing ->
  (forall q, address_pool s = Some q -> AddressPool.get_aaa_address q (pool_rnd env) <> None) ->
  exists s' r, process_link_state_event VISA_SERVICE_DN env l ReceivedHelloRequest s = Ret (r, s') /\
    InitAuthenticationRequest l (payload_new (auth_key p) (now_secs env) (nonce_rnd env)) ∈ sent s' /\
    exists p', get (peer_table s') l = Some p' /\ st p' = WaitForAcquireZprAddress /\ auth_key p' = auth_key p.
Proof.
  intros Hl Hp Hty Hst Hpool. unfold process_link_state_event, via_table, mbind, M_bind, get_peer, gets. rewrite Hp.
  cbn [process_event]. unfold process_hello_request, self, mbind, M_bind, get_peer, gets, lift. rewrite Hp. cbn.
  rewrite Hty, Hst. unfold allocate_aaa, mbind, M_bind, gets, lift.
  destruct (address_pool s) as [q|] eqn:Eq.
  - destruct (AddressPool.get_aaa_address q (pool_rnd env)) as [[q' a]|] eqn:Ea; [|by destruct (Hpool q)].
    cbn. unfold process_assigned_aaa, get_available_oidc_idps, send_init_authentication_request, upd_data, mbind, M_bind.
    cbn. said.
  - cbn. unfold get_available_oidc_idps, send_init_authentication_request, mbind, M_bind. cbn. said.
Qed.

(** An adapter with a device key answers a challenge when there is no user to ask. *)
Lemma adapter_answers env l s p key c :
  u32 l -> get (peer_table s) l = Some p -> ty p = AdapterToNode -> st p = WaitForInitAuth ->
  (oidc_idps (locked_data (lk p)) = None \/ auth_agent (locked_data (lk p)) = None) -> bootstrap s = Some key ->
  exists s' r, process_link_state_event VISA_SERVICE_DN env l (ReceivedInitAuth true (Some c)) s = Ret (r, s') /\
    sent s' = sent s ++ [AcquireZprAddressRequest l (zpr_addr s) (authenticate (now_secs env) key c)] /\
    exists p', get (peer_table s') l = Some p' /\ st p' = RegisterAA.
Proof.
  intros Hl Hp Hty Hst Hag Hkey. unfold process_link_state_event, via_table, mbind, M_bind, get_peer, gets. rewrite Hp.
  cbn [process_event]. unfold process_init_auth, self, mbind, M_bind, get_peer, gets, lift. rewrite Hp. cbn.
  rewrite Hty, Hst. unfold mbind, M_bind, gets.
  assert (exists s' r, bootstrap_auth env l true (Some c) s = Ret (r, s') /\
    sent s' = sent s ++ [AcquireZprAddressRequest l (zpr_addr s) (authenticate (now_secs env) key c)] /\
    exists p', get (peer_table s') l = Some p' /\ st p' = RegisterAA) as Hb.
  { unfold bootstrap_auth, mbind, M_bind, gets. rewrite Hkey. cbn. eexists _, _. split; [done|]. split; [done|]. cbn.
    rewrite !get_update, !decide_True, Hp by done. by eexists. }
  destruct (oidc_idps (locked_data (lk p))) as [[|i idps]|]; cbn; try done.
  destruct Hag as [?|Hag]; [done|]. by rewrite Hag, Hkey.
Qed.

(** The name in the certificate of the peer's security association. *)
Definition peer_name (p : PeerState slab) : option (option (option (list Z))) :=
  (fun sa => cert_common_name <$> peer_cert sa) <$> get_established_transport_association p.

Lemma answer_accepted env p addrs key minted rnd signed :
  length rnd = 8%nat -> 0 <= minted -> minted + MAX_BLOB_AGE_SECONDS < 2 ^ 64 -> u64 signed ->
  accepted env p (Some addrs) (authenticate signed key (payload_new (auth_key p) minted rnd)) = true <->
  zlen addrs <= 1 /\ now_secs env <= minted + MAX_BLOB_AGE_SECONDS /\
  (peer_name p = Some None \/ peer_name p = Some (Some (Some (cn key)))).
Proof.
  intros Hr Hm Hb Hs. unfold accepted, authenticate. rewrite decode_ss_encode by (split; done).
  cbn [forallb check_blob]. rewrite andb_true_r. unfold check_self_signed_blob, peer_name.
  pose proof (fun n => verify_blob_minted (auth_key p) rnd minted (now_secs env) signed MAX_BLOB_AGE_SECONDS key n
    Hr Hm ltac:(done) Hb) as Hv. cbn zeta in Hv.
  assert ((match requested_addr (Some addrs) with Some _ => true | None => false end) = true <-> zlen addrs <= 1) as Hra.
  { destruct addrs as [|a [|b r]]; cbn; unfold zlen; cbn; split; try done; try lia. }
  destruct (requested_addr (Some addrs)) as [a|]; [|split; [done|]; intros (Hz & _); by apply Hra in Hz].
  destruct (get_established_transport_association p) as [sa|]; cbn; [|split; [done|]; intros (_ & _ & [|]); done].
  specialize (Hv (cert_common_name <$> peer_cert sa)).
  assert (zlen addrs <= 1) as Hz by by apply Hra.
  destruct (verify_blob_challenge _ _ _ _ _) as [[]|e].
  - split; [|done]. intros _. destruct (proj1 Hv eq_refl) as [Hn Hc]. split_and!; [done|done|].
    destruct (peer_cert sa) as [c|]; cbn in *; [right; by rewrite Hc|by left].
  - split; [done|]. intros (_ & Hn & Hc). exfalso. assert (inr e = inl tt) as [=]. apply Hv. split; [done|].
    destruct (peer_cert sa) as [c|]; cbn in *; [|done]. destruct Hc as [|Hc]; [done|congruence].
Qed.

(** C16. The device handshake works, across both programs: an adapter that says hello is
    challenged by the node; the adapter, having its device key and no user to ask, answers
    with one address request; and at the same session of the node that request is
    accepted exactly when it asks for at most one address, arrives within the allowed age
    of the challenge, and the security association names no other device than the one
    that signed. *)
Theorem device_handshake env_n l s p env_a la sa q key env_n' p' :
  u32 l -> get (peer_table s) l = Some p -> ty p = NodeToAdapter -> st p = Helloing ->
  (forall q, address_pool s = Some q -> AddressPool.get_aaa_address q (pool_rnd env_n) <> None) ->
  u32 la -> get (peer_table sa) la = Some q -> ty q = AdapterToNode -> st q = WaitForInitAuth ->
  (oidc_idps (locked_data (lk q)) = None \/ auth_agent (locked_data (lk q)) = None) -> bootstrap sa = Some key ->
  length (nonce_rnd env_n) = 8%nat -> 0 <= now_secs env_n -> now_secs env_n + MAX_BLOB_AGE_SECONDS < 2 ^ 64 ->
  u64 (now_secs env_a) -> auth_key p' = auth_key p ->
  exists c s' r sa' r' blob,
    process_link_state_event VISA_SERVICE_DN env_n l ReceivedHelloRequest s = Ret (r, s') /\
    InitAuthenticationRequest l c ∈ sent s' /\
    process_link_state_event VISA_SERVICE_DN env_a la (ReceivedInitAuth true (Some c)) sa = Ret (r', sa') /\
    sent sa' = sent sa ++ [AcquireZprAddressRequest la (zpr_addr sa) blob] /\
    (accepted env_n' p' (Some (zpr_addr sa)) blob = true <->
     zlen (zpr_addr sa) <= 1 /\ now_secs env_n' <= now_secs env_n + MAX_BLOB_AGE_SECONDS /\
     (peer_name p' = Some None \/ peer_name p' = Some (Some (Some (cn key))))).
Proof.
  intros Hl Hp Hty Hst Hpool Hla Hq Htq Hsq Hag Hkey Hr Hm Hb Hs Hk.
  destruct (hello_challenges env_n l s p Hl Hp Hty Hst Hpool) as (s' & r & H1r & Hin & _).
  destruct (adapter_answers env_a la sa q key (payload_new (auth_key p) (now_secs env_n) (nonce_rnd env_n))
    Hla Hq Htq Hsq Hag Hkey) as (sa' & r' & H2r & Hsent & _).
  eexists _, s', r, sa', r', _. split_and!; [exact H1r|exact Hin|exact H2r|exact Hsent|].
  rewrite <- Hk. by apply answer_accepted.
Qed.

(** ** Renewals *)

(** The verdict on a renewal response. *)
Definition renewal_accepted (env : Env) p (challenge : list Z) (result : list Z + Z) : option (list AuthBlob) :=
  if bool_decide (renewal_challenge (locked_data (lk p)) = Some challenge) then
    match result with
    | inl b =>
        match decode_blobs b with
        | inl bs => if renewal_ok env (Some p) (lk p) challenge bs then Some bs else None
        | inr _ => None
        end
    | inr _ => None
    end
  else None.

Lemma renewal_ok_link env f p k c bs :
  renewal_ok env (Some (on_link f p)) k c bs = renewal_ok env (Some p) k c bs.
Proof. done. Qed.

(** A renewal is sent on to the visa service exactly when it answers the challenge
    that is outstanding with blobs of the namespaces the link was first authenticated
    with, all of them fresh, over that very challenge and by the same identity provider;
    the challenge is used up by any answer to it, so that none is accepted twice. *)
Theorem renewal_sent_on_iff_checked env l s p challenge result :
  u32 l -> get (peer_table s) l = Some p -> elt_ok (elt s) -> ty p = NodeToAdapter -> st p = Active ->
  wpe False (process_link_state_event VISA_SERVICE_DN env l (ReceivedRenewAuthResponse challenge result)) s
    (fun r s' => r = inl tt /\
      tasks s' = tasks s ++ match renewal_accepted env p challenge result with
                           | Some bs => [ReauthorizeTask l (uid (lk p)) (vst_blobs_for_renewal bs)]
                           | None => []
                           end /\
      exists p', get (peer_table s') l = Some p' /\ locked_fsm (lk p') = locked_fsm (lk p) /\
        renewal_challenge (locked_data (lk p')) <> Some challenge).
Proof.
  intros Hl Hp He Hty Hst. assert (LinkInv.at_link l s p (tasks s) s) as Hat by by apply at_start.
  eapply w_via_table; [done|]. cbn [process_event]. unfold process_renew_auth_response, renewal_accepted.
  do 2 link_step. rewrite Hty, Hst. unfold take_renewal_challenge_if at 1.
  destruct (bool_decide_reflect (renewal_challenge (locked_data (lk p)) = Some challenge)) as [Hch|Hch]; cbn [negb snd].
  2: { link_steps. rewrite app_nil_r. split_and!; [done|done|]. exists p. split_and!; [apply Hat|done|done]. }
  apply wpe_bind. eapply w_data; [done|done|intros x; apply take_challenge_same|]. intros s1 Hs1. clear Hat.
  set (p1 := on_link _ p) in Hs1.
  assert (locked_fsm (lk p1) = locked_fsm (lk p) /\ renewal_challenge (locked_data (lk p1)) = None) as [Ef Ec].
  { unfold p1, take_renewal_challenge_if. cbn. by rewrite bool_decide_eq_true_2. }
  assert (forall reason, wpe False (_ ← renewal_failed l reason; ok) s1 (fun r s' => r = inl tt /\
    tasks s' = tasks s ++ [] /\ exists p', get (peer_table s') l = Some p' /\ locked_fsm (lk p') = locked_fsm (lk p) /\
      renewal_challenge (locked_data (lk p')) <> Some challenge)) as Hfail.
  { intros reason. link_steps. rewrite app_nil_r. split_and!; [done|apply Hat|].
    eexists. split_and!; [apply Hat|done|]. intros Hx.
    change (renewal_challenge (locked_data (lk p1)) = Some challenge) in Hx. congruence. }
  destruct result as [b|code]; [|apply Hfail]. destruct (decode_blobs b) as [bs|e]; [|apply Hfail].
  do 2 link_step. unfold p1. rewrite renewal_ok_link. destruct (renewal_ok _ _ _ _ _); [|apply Hfail].
  link_steps. split_and!; [done|apply Hat|]. eexists. split_and!; [apply Hat|done|]. fold p1. by rewrite Ec.
Qed.

(** ** Waits that do not end *)

(** The wait for an adapter's authentication is not bounded: the node sets the
    timeout when its challenge is acknowledged, but when the timeout fires nothing
    happens, and no other one is set. *)
Theorem authentication_wait_unbounded env env' l s p :
  u32 l -> get (peer_table s) l = Some p -> ty p = NodeToAdapter -> st p = WaitForAcquireZprAddress ->
  exists s' p', process_link_state_event VISA_SERVICE_DN env l ReceivedInitAuthAck s = Ret (inl tt, s') /\
    get (peer_table s') l = Some p' /\ st p' = WaitForAcquireZprAddress /\
    timeout_handle (locked_fsm (lk p')) = Some ACTOR_AUTHENTICATION_TIMEOUT /\
    fire env' l s' = Ret (inr InvalidOperation, s').
Proof.
  intros Hl Hp Hty Hst. unfold process_link_state_event, via_table, mbind, M_bind, get_peer, gets. rewrite Hp.
  cbn [process_event]. unfold process_init_auth_ack, self, mbind, M_bind, get_peer, gets, lift. rewrite Hp. cbn.
  rewrite Hty, Hst. cbn. set (s' := set_peers _ s). set (p' := on_link (on_fsm (set_timeout_callback ACTOR_AUTHENTICATION_TIMEOUT)) p).
  assert (get (peer_table s') l = Some p') as Hp' by (unfold s'; cbn; by rewrite get_update, decide_True, Hp).
  exists s', p'. split_and!; [done|done|done|done|]. unfold fire, mbind, M_bind, get_peer, gets. rewrite Hp'.
  unfold process_link_state_event, via_table, mbind, M_bind, get_peer, gets. rewrite Hp'.
  cbn [process_event fmap option_fmap option_map default].
  unfold process_timeout, self, mbind, M_bind, get_peer, gets, lift. rewrite Hp'. cbn [fmap option_fmap option_map unwrap].
  rewrite bind_Ret, Z.eqb_refl. cbn [negb]. unfold p' at 1 2. cbn. unfold get_state in Hst. cbn. by rewrite Hty, Hst.
Qed.

Lemma refusal_ignored env l s p req code :
  get (peer_table s) l = Some p -> st p = Active -> vsconn s = true -> response_code_for_vs_error code <> None ->
  complete_task VISA_SERVICE_DN env (AuthorizeConnectTask l req) (CConnect (CodedError code)) s = Ret (tt, s).
Proof.
  intros Hp Hst Hvs Hc. cbn [complete_task]. unfold authorize_connect_done, mbind, M_bind, gets, assert, lift. rewrite Hvs.
  cbn. unfold authorize_failure_event. destruct (response_code_for_vs_error code); [|done].
  unfold event, process_link_state_event, via_table, mbind, M_bind, get_peer, gets. rewrite Hp.
  cbn [process_event]. unfold process_authorize_failure, self, mbind, M_bind, get_peer, gets, lift. rewrite Hp. cbn.
  rewrite Hst. by destruct (ty p).
Qed.

(** An answer of the visa service is given to whatever link has the identifier: when
    an authorization that was asked for an earlier session ends while a new session of
    the same identifier registers, the new session becomes active with the address of
    the old one, and the refusal of its own request is then ignored. *)
Theorem stale_grant_activates env env' l s p i req req' a e code :
  u32 l -> get (peer_table s) l = Some p -> elt_ok (elt s) -> ty p = NodeToAdapter -> st p = RegisterAA ->
  vsconn s = true -> zlen a <> 4 -> e < 2 ^ 63 -> response_code_for_vs_error code <> None ->
  tasks s !! i = Some (AuthorizeConnectTask l req) ->
  wpe False (finish_task i (fun k => complete_task VISA_SERVICE_DN env k (CConnect (Connection a e)))) s (fun _ s1 =>
    exists p1, get (peer_table s1) l = Some p1 /\ uid (lk p1) = uid (lk p) /\
      st p1 = Active /\ actor_addresses (locked_fsm (lk p1)) = [a] /\
      complete_task VISA_SERVICE_DN env' (AuthorizeConnectTask l req') (CConnect (CodedError code)) s1 = Ret (tt, s1)).
Proof.
  intros Hl Hp He Hty Hst Hvs Ha Hexp Hcode Hi. unfold finish_task. apply wpe_bind, wpe_gets. rewrite Hi.
  apply wpe_bind. unfold wpe at 1. cbn [modify]. cbn [complete_task]. set (s0 := set_tasks _ s).
  assert (LinkInv.at_link l s0 p (tasks s0) s0) as Hat by by apply at_start.
  unfold authorize_connect_done. do 2 link_step. link_step. apply wpe_assert; [|cbn; congruence]. intros _.
  rewrite (proj2 (Z.eqb_neq _ _)) by done. link_step. unfold record_auth_expires, epoch_plus. do 2 link_step.
  rewrite (proj2 (Z.ltb_lt _ _)) by done. link_step. apply wpe_lift; [|done]. intros ex _. link_steps.
  unfold event. link_step. eapply w_via_table; [eassumption|]. cbn [process_event].
  unfold process_authorize_response. do 2 link_step.
  change (link_type (lk (on_link (set_auth_expires (now env) ex (auth_renewal_lead s0)) p))) with (ty p).
  change (get_state (lk (on_link (set_auth_expires (now env) ex (auth_renewal_lead s0)) p))) with (st p).
  rewrite Hty, Hst. link_steps. eapply w_active; [done|eassumption|]. intros p1 ts' s' Hs' Hu Hs1 Haddr. link_steps.
  exists p1. split_and!; [apply Hs'|done|done|done|]. apply (refusal_ignored env' l s' p1 req' code); [apply Hs'|done| |done].
  by rewrite (a_conn _ _ _ _ _ Hs').
Qed.

End thms.
End LinkThms.
