(* ===== verification/LinkExample.v ===== *)
(** * Links: a node that lets an adapter in

    A concrete run: an adapter docks, keys, says hello, is challenged, answers with a
    self-signed blob and is authorized by the visa service.  The theorems of [LinkThms]
    are applied to the states on the way. *)
From Stdlib Require Import ZArith Lia.
From stdpp Require Import base tactics option list numbers gmap.
From S2P Require Import Prelude Slab NetDefs Tc ForwardingTables TxnMgr Auth LinkTypes PeerTable PeerTableProps VisaTable VisaTableProps AddressPool ZdprReceiver Assembly NodeBindInv NodeBindExample LinkFsm LinkTasks LinkInv LinkDrop LinkProtocol LinkHandlers LinkRun LinkThms.
From stdpp Require Import list.
Import ForwardingTables Auth LinkTypes PeerTable PeerTableProps VisaTableProps Asm NodeBindExample LinkFsm LinkTasks LinkInv LinkDrop LinkProtocol LinkHandlers LinkRun LinkThms.

Local Open Scope Z_scope.

Module LinkExample.

#[local] Existing Instance iana.
#[local] Existing Instance Auth.toy_crypto.
#[local] Existing Instance toy_visas.
#[local] Existing Instance toy_tun.
#[local] Existing Instance toy_flows.

Definition no_parse (l : list Z) : option (list Z * Z) := None.
(** The readings of the outside world, at a time in seconds. *)
Definition at_time (t : Z) : Env :=
  mkEnv (secs t) (secs t) (replicate 8 7) [] (fun _ => true) (Some (mkKm 1 1)) true.

Definition device : RsaBootstrapAuth := mkRsa [9] [8].
Definition session_key : list Z := replicate 32 3.
Definition link_sa : KmTransportSA :=
  mkSA 1 (mkZpis 131 4) (mkZpis 133 6) (replicate 32 1) (replicate 32 2) 1 (Some (mkCert false None (Some [8]))).
Definition granted_addr : list Z := replicate 16 2.
Definition answer : list Z := authenticate 101 device (payload_new session_key 100 (replicate 8 7)).

Notation go t x := (run_to (run_step [] [] no_parse (at_time t) x)).

(** A program that has just started. *)
Definition booted (mode : PhMode) : asm :=
  let s := set_ph_mode mode (set_vsconn true (set_visas VisaTable.VisaTable.new (set_zpr_addr [replicate 16 7] start))) in
  match boot mode (zpr_addr s) 0 with Ret (t, u) => set_next_uid u (set_peers t s) | Panic => s end.
Definition keying : asm := go 99 (STether (adapter_address 21) (adapter_address 9) NodeToAdapter true session_key) (booted Node).
Definition helloing : asm := go 100 (SKeyed 3 link_sa) keying.
Definition challenged : asm := go 100 (SEvent 3 ReceivedHelloRequest) helloing.
Definition registering : asm := go 102 (SEvent 3 (ReceivedAcquireZprAddressRequest (Some []) answer)) challenged.
Definition active : asm := go 103 (SComplete 2 (CConnect (Connection granted_addr 1000))) registering.

(** The adapter's side of it. *)
Definition tethered : asm := go 99 (STether (adapter_address 9) (adapter_address 21) AdapterToNode true []) (set_bootstrap (Some device) (booted Adapter)).
Definition adapter : asm :=
  go 100 (SEvent 2 (ReceivedHelloResponse ResponseCode.Success None None)) (go 100 (SKeyed 2 link_sa) tethered).

(** An adapter whose administrator starts the link with an agent for its user. *)
Definition tethered_idle : asm := go 99 (STether (adapter_address 9) (adapter_address 21) AdapterToNode false []) (booted Adapter).
Definition started_by_user : asm := go 99 (SStartLink 2 (Some 5)) tethered_idle.
Definition keyed_with_user : asm := go 100 (SKeyed 2 link_sa) started_by_user.
Definition offered_login : asm := go 100 (SEvent 2 (ReceivedHelloResponse ResponseCode.Success None (Some [mkIdp [1] [2] None [] false]))) keyed_with_user.
Definition waiting_for_user : asm :=
  go 101 (SEvent 2 (ReceivedInitAuth true (Some (payload_new session_key 100 (replicate 8 7))))) offered_login.

Definition state_of (s : asm) : LinkState := get_state (link_state_machine (peer_at s 3)).
Definition tether_state (s : asm) : LinkState := get_state (link_state_machine (peer_at s 2)).
Example run_states :
  (state_of keying, state_of helloing, state_of challenged, state_of registering, state_of active) =
  (Keying, Helloing, WaitForAcquireZprAddress, RegisterAA, Active).
Proof. vm_compute. reflexivity. Qed.

Example user_states :
  (tether_state tethered_idle, tether_state started_by_user, tether_state keyed_with_user, tether_state offered_login,
   tether_state waiting_for_user) = (Inactive, Keying, Helloing, WaitForInitAuth, WaitForUserAuth).
Proof. vm_compute. reflexivity. Qed.

(** ** The run *)

Definition returns {A} (o : outcome A) : bool := match o with Ret _ => true | Panic => false end.
Lemma ran (m : M FirstFit.table unit) (s : asm) : returns (m s) = true -> m s = Ret (tt, run_to m s).
Proof. unfold run_to. by destruct (m s) as [[[] s']|]. Qed.

Definition there (s : asm) (l : Z) : bool := match get (peer_table s) l with Some _ => true | None => false end.
Lemma peer_there (s : asm) l : there s l = true -> get (peer_table s) l = Some (peer_at s l).
Proof. unfold there, peer_at. by destruct (get (peer_table s) l). Qed.

Notation reach := (reach (slab:=FirstFit.table) [] [] no_parse).
Lemma reach_go log t x (s : asm) :
  reach log s -> step_ok s x -> returns (run_step [] [] no_parse (at_time t) x s) = true ->
  exists log', reach log' (go t x s).
Proof. intros Hr Hok Hx. eexists. by eapply reach_step; [..|apply ran]. Qed.

Lemma three_u32 : u32 3.
Proof. unfold u32. lia. Qed.
Lemma two_u32 : u32 2.
Proof. unfold u32. lia. Qed.

Lemma reach_booted mode : returns (boot (slab:=FirstFit.table) mode [replicate 16 7] 0) = true -> reach [] (booted mode).
Proof.
  intros Hb. unfold booted. cbn zeta. cbn [zpr_addr set_ph_mode set_vsconn set_visas set_zpr_addr].
  destruct (boot mode _ 0) as [[t u]|] eqn:E; [|done]. eapply reach_start; [exact E|done|done].
Qed.

Lemma reach_keying : exists log, reach log keying.
Proof. apply (reach_go [] 99); [apply reach_booted; by vm_compute|done|by vm_compute]. Qed.
Lemma reach_helloing : exists log, reach log helloing.
Proof. destruct reach_keying as [log Hr]. refine (reach_go log 100 _ _ Hr _ _); [exact three_u32|by vm_compute]. Qed.
Lemma reach_challenged : exists log, reach log challenged.
Proof. destruct reach_helloing as [log Hr]. refine (reach_go log 100 _ _ Hr _ _); [exact (conj three_u32 eq_refl)|by vm_compute]. Qed.
Lemma reach_registering : exists log, reach log registering.
Proof. destruct reach_challenged as [log Hr]. refine (reach_go log 102 _ _ Hr _ _); [exact (conj three_u32 eq_refl)|by vm_compute]. Qed.
Lemma registering_task : exists req, tasks registering !! 2%nat = Some (AuthorizeConnectTask 3 req).
Proof. vm_compute. by eexists. Qed.
Lemma reach_active : exists log, reach log active.
Proof.
  destruct reach_registering as [log Hr]. refine (reach_go log 103 _ _ Hr _ _); [|by vm_compute].
  destruct registering_task as [req Hreq]. exists (AuthorizeConnectTask 3 req). exact (conj Hreq eq_refl).
Qed.

Lemma reach_waiting : exists log, reach log waiting_for_user.
Proof.
  assert (exists log, reach log tethered_idle) as [l1 H1]
    by (apply (reach_go [] 99); [apply reach_booted; by vm_compute|done|by vm_compute]).
  assert (exists log, reach log started_by_user) as [l2 H2] by (refine (reach_go l1 99 _ _ H1 _ _); [exact two_u32|by vm_compute]).
  assert (exists log, reach log keyed_with_user) as [l3 H3] by (refine (reach_go l2 100 _ _ H2 _ _); [exact two_u32|by vm_compute]).
  assert (exists log, reach log offered_login) as [l4 H4]
    by (refine (reach_go l3 100 _ _ H3 _ _); [exact (conj two_u32 eq_refl)|by vm_compute]).
  refine (reach_go l4 101 _ _ H4 _ _); [exact (conj two_u32 eq_refl)|by vm_compute].
Qed.

(** The state of the link on the way is consistent. *)
Lemma reached_ok (s : asm) : (exists log, reach log s) -> there s 3 = true -> link_ok s (peer_at s 3).
Proof.
  intros [log Hr] Hp%peer_there. destruct (reach_inv _ _ _ _ _ Hr) as [He _ Hi].
  destruct (Hi 3 _ three_u32 Hp) as [Hc Hpi _ _ _]. by split_and!.
Qed.

(** ** The theorems at these states *)


Lemma active_means_authenticated_witness :
  exists log, reach log active /\ Verified (uid (link_state_machine (peer_at active 3))) ∈ log.
Proof.
  destruct reach_active as [log Hr]. exists log. split; [exact Hr|].
  apply (active_means_authenticated [] [] no_parse log active 3 (peer_at active 3) Hr three_u32).
  - apply peer_there. by vm_compute.
  - by vm_compute.
  - by vm_compute.
Defined.

Lemma timeouts_stay_in_their_state_witness :
  let s' := run_to (process_link_state_event [] (at_time 104) 3 (ReceivedTerminateLink 0)) active in
  process_link_state_event [] (at_time 105) 3
    (Timeout (logical_clock (locked_fsm (link_state_machine (peer_at active 3))))) s' = Ret (inl tt, s').
Proof.
  cbn zeta. set (m := process_link_state_event [] (at_time 104) 3 (ReceivedTerminateLink 0)).
  assert (m active = Ret (inl tt, run_to m active)) as Hm.
  { unfold run_to. assert (match m active with Ret (inl tt, _) => true | _ => false end = true) as Hb by by vm_compute.
    by destruct (m active) as [[[[]|] s']|]. }
  apply (timeouts_stay_in_their_state [] (at_time 104) (at_time 105) 3 active (peer_at active 3)
    (ReceivedTerminateLink 0) (inl tt) (run_to m active) (peer_at (run_to m active) 3)).
  - exact three_u32.
  - apply peer_there. by vm_compute.
  - apply reached_ok; [exact reach_active|by vm_compute].
  - exact I.
  - exact Hm.
  - apply peer_there. by vm_compute.
  - by vm_compute.
Defined.

Lemma pinging_active : pinging active 3 (peer_at active 3) 0 false.
Proof.
  split; [apply peer_there|apply reached_ok; [exact reach_active|]|..]; by vm_compute.
Qed.
Lemma keep_alive_three_misses_witness :
  wpe False (fires [] [at_time 106; at_time 109; at_time 112; at_time 115] 3) active
    (fun _ s' => exists p', get (peer_table s') 3 = Some p' /\ get_state (link_state_machine p') = Closing).
Proof.
  exact (proj1 (proj2 (keep_alive_three_misses [] (at_time 106) (at_time 109) (at_time 112) (at_time 115) 3 active
    (peer_at active 3) three_u32 pinging_active))).
Defined.

Lemma address_request_decided_witness :
  exists r s' p', process_link_state_event [] (at_time 102) 3
      (ReceivedAcquireZprAddressRequest (Some []) answer) challenged = Ret (r, s') /\
    get (peer_table s') 3 = Some p' /\ get_state (link_state_machine p') = RegisterAA.
Proof.
  destruct (address_request_decided [] (at_time 102) 3 challenged (peer_at challenged 3) (Some []) answer)
    as (r & s' & p' & Hr & Hp & _ & Hv).
  - exact three_u32.
  - apply peer_there. by vm_compute.
  - apply reached_ok; [exact reach_challenged|by vm_compute].
  - by vm_compute.
  - by vm_compute.
  - exists r, s', p'. split; [exact Hr|]. split; [exact Hp|].
    assert (accepted (at_time 102) (peer_at challenged 3) (Some []) answer = true) as Ea by by vm_compute.
    assert (is_vs challenged 3 = false) as Ev by by vm_compute. rewrite Ea, Ev in Hv. exact (proj1 Hv).
Defined.

Lemma device_handshake_witness :
  exists c s' r sa' r' blob,
    process_link_state_event [] (at_time 100) 3 ReceivedHelloRequest helloing = Ret (r, s') /\
    InitAuthenticationRequest 3 c ∈ sent s' /\
    process_link_state_event [] (at_time 101) 2 (ReceivedInitAuth true (Some c)) adapter = Ret (r', sa') /\
    sent sa' = sent adapter ++ [AcquireZprAddressRequest 2 (zpr_addr adapter) blob] /\
    accepted (at_time 102) (peer_at challenged 3) (Some (zpr_addr adapter)) blob = true.
Proof.
  destruct (device_handshake [] (at_time 100) 3 helloing (peer_at helloing 3) (at_time 101) 2 adapter
    (peer_at adapter 2) device (at_time 102) (peer_at challenged 3)) as (c & s' & r & sa' & r' & blob & E1 & E2 & E3 & E4 & E5).
  1: exact three_u32.
  5: exact two_u32.
  1,5: apply peer_there; by vm_compute.
  1,2,4,5: by vm_compute.
  - intros q Hq. by vm_compute in Hq.
  - left. by vm_compute.
  - by vm_compute.
  - reflexivity.
  - by vm_compute.
  - by vm_compute.
  - by vm_compute.
  - by vm_compute.
  - exists c, s', r, sa', r', blob. split; [exact E1|]. split; [exact E2|]. split; [exact E3|]. split; [exact E4|].
    apply E5. split; [by vm_compute|]. split; [by vm_compute|]. right. by vm_compute.
Defined.

Lemma renewal_sent_on_iff_checked_witness :
  wpe False (process_link_state_event [] (at_time 104) 3 (ReceivedRenewAuthResponse [1] (inl answer))) active
    (fun r s' => r = inl tt /\ tasks s' = tasks active ++ []).
Proof.
  pose proof (renewal_sent_on_iff_checked [] (at_time 104) 3 active (peer_at active 3) [1] (inl answer) three_u32) as Hr.
  eapply wpe_mono; [apply Hr|done|].
  - apply peer_there. by vm_compute.
  - exact I.
  - by vm_compute.
  - by vm_compute.
  - assert (renewal_accepted (at_time 104) (peer_at active 3) [1] (inl answer) = None) as -> by by vm_compute.
    intros r s' (E1 & E2 & _). exact (conj E1 E2).
Defined.

Lemma authentication_wait_unbounded_witness :
  exists s' p', process_link_state_event [] (at_time 101) 3 ReceivedInitAuthAck challenged = Ret (inl tt, s') /\
    get (peer_table s') 3 = Some p' /\ get_state (link_state_machine p') = WaitForAcquireZprAddress /\
    timeout_handle (locked_fsm (link_state_machine p')) = Some ACTOR_AUTHENTICATION_TIMEOUT /\
    fire [] (at_time 431) 3 s' = Ret (inr InvalidOperation, s').
Proof.
  apply (authentication_wait_unbounded [] (at_time 101) (at_time 431) 3 challenged (peer_at challenged 3)).
  - exact three_u32.
  - apply peer_there. by vm_compute.
  - by vm_compute.
  - by vm_compute.
Defined.

Lemma stale_grant_activates_witness :
  wpe False (finish_task 2 (fun k => complete_task [] (at_time 103) k (CConnect (Connection granted_addr 1000)))) registering
    (fun _ s1 => exists p1, get (peer_table s1) 3 = Some p1 /\ get_state (link_state_machine p1) = Active).
Proof.
  destruct registering_task as [req Hreq].
  eapply wpe_mono; [eapply (stale_grant_activates [] (at_time 103) (at_time 104) 3 registering (peer_at registering 3) 2
    req req granted_addr 1000 VsPolicyDenied)|exact (fun e => e)|].
  - exact three_u32.
  - apply peer_there. by vm_compute.
  - exact I.
  - by vm_compute.
  - by vm_compute.
  - by vm_compute.
  - by vm_compute.
  - by vm_compute.
  - by vm_compute.
  - exact Hreq.
  - intros [] s1 (p1 & E1 & _ & E2 & _). exists p1. exact (conj E1 E2).
Defined.

End LinkExample.
