(* ===== verification/Pkt.v ===== *)
(** * Packets of the data path ([packet.rs])

    A packet as the fast path sees it: the buffer it occupies, its metadata, its
    body, and the room before and after it.  The bytes outside the body are only
    counted; that the operations of [PacketBuf] on whole buffers agree with the
    ones here is proved at the end. *)
From Stdlib Require Import ZArith Lia.
From stdpp Require Import base tactics option list.
From S2P Require Import Prelude NetDefs PacketBuf.
From stdpp Require Import list.
Import PacketBuf(Layout, md_size).

Local Open Scope Z_scope.

Module Pkt.

(** [config::PACKET_BUFFER_SIZE], [config::DEFAULT_MESSAGE_HEADROOM]. *)
Definition PACKET_BUFFER_SIZE : Z := 4096 * 3.
Definition DEFAULT_MESSAGE_HEADROOM : Z := 256.

(** [packet::flags]. *)
Definition PRIORITY : Z := 1.
Definition CONFIRM : Z := 2.

(** [PacketMetadata], without the extent of the body. *)
Record Metadata := mkMd {
  five_tuple : FiveTuple;
  ingress_lane_id : Z;
  flags : Z;
  ingress_link_id : Z;
  egress_link_id : Z;
  ingress_stream_id : Z
}.
Definition set_five_tuple (v : FiveTuple) (m : Metadata) : Metadata :=
  mkMd v (ingress_lane_id m) (flags m) (ingress_link_id m) (egress_link_id m) (ingress_stream_id m).
Definition set_ingress_lane_id (v : Z) (m : Metadata) : Metadata :=
  mkMd (five_tuple m) v (flags m) (ingress_link_id m) (egress_link_id m) (ingress_stream_id m).
Definition set_flags (v : Z) (m : Metadata) : Metadata :=
  mkMd (five_tuple m) (ingress_lane_id m) v (ingress_link_id m) (egress_link_id m) (ingress_stream_id m).
Definition set_ingress_link_id (v : Z) (m : Metadata) : Metadata :=
  mkMd (five_tuple m) (ingress_lane_id m) (flags m) v (egress_link_id m) (ingress_stream_id m).
Definition set_egress_link_id (v : Z) (m : Metadata) : Metadata :=
  mkMd (five_tuple m) (ingress_lane_id m) (flags m) (ingress_link_id m) v (ingress_stream_id m).
Definition set_ingress_stream_id (v : Z) (m : Metadata) : Metadata :=
  mkMd (five_tuple m) (ingress_lane_id m) (flags m) (ingress_link_id m) (egress_link_id m) v.

(** A buffer that is not in use: which one it is, and the metadata that the
    packet it held last left behind. *)
Record PacketBuffer := mkBuffer { buf_id : Z; stale : Metadata }.

Record Packet := mkPacket {
  buf : Z;
  metadata : Metadata;
  headroom : Z;
  body : list Z;
  tailroom : Z
}.

Definition on_metadata (f : Metadata -> Metadata) (p : Packet) : Packet :=
  mkPacket (buf p) (f (metadata p)) (headroom p) (body p) (tailroom p).

(** [Packet::destroy]. *)
Definition destroy (p : Packet) : PacketBuffer := mkBuffer (buf p) (metadata p).

(** [Packet::flowhash]. *)
Definition flowhash (p : Packet) : Z := ingress_stream_id (metadata p).

(** [flags & bit != 0]. *)
Definition has_flag (bit : Z) (p : Packet) : bool := negb (Z.land (flags (metadata p)) bit =? 0).

Section packet.
Context `{Layout}.

(** [Packet::new] in a buffer of [size] bytes: only the extent of the body, the
    ingress link and the stream are reset. *)
Definition new (size : Z) (b : PacketBuffer) (hr : Z) : outcome Packet :=
  _ ← rust_assert (md_size <=? size);
  _ ← rust_assert (md_size + hr <=? size);
  mret (mkPacket (buf_id b) (set_ingress_link_id 0 (set_ingress_stream_id 0 (stale b)))
          hr [] (size - md_size - hr)).

End packet.

(** [*pkt.alloc_zeroed_header() = hdr], and [push_header]. *)
Definition push_header (hdr : list Z) (p : Packet) : outcome Packet :=
  _ ← rust_assert (zlen hdr <=? headroom p);
  mret (mkPacket (buf p) (metadata p) (headroom p - zlen hdr) (hdr ++ body p) (tailroom p)).

(** [BufMut::put]. *)
Definition put (xs : list Z) (p : Packet) : outcome Packet :=
  _ ← rust_assert (zlen xs <=? tailroom p);
  mret (mkPacket (buf p) (metadata p) (headroom p) (body p ++ xs) (tailroom p - zlen xs)).

Definition shrink_by (cnt : Z) (p : Packet) : outcome Packet :=
  _ ← rust_assert (cnt <=? zlen (body p));
  mret (mkPacket (buf p) (metadata p) (headroom p) (take (Z.to_nat (zlen (body p) - cnt)) (body p))
          (tailroom p + cnt)).

(** [Buf::advance]. *)
Definition advance (cnt : Z) (p : Packet) : outcome Packet :=
  _ ← rust_assert (cnt <=? zlen (body p));
  mret (mkPacket (buf p) (metadata p) (headroom p + cnt) (drop (Z.to_nat cnt) (body p)) (tailroom p)).

(** [read_from_buf] of a header of [n] bytes: [None] leaves the packet as it is. *)
Definition read_header (n : Z) (p : Packet) : option (list Z * Packet) :=
  if zlen (body p) <? n then None
  else Some (take (Z.to_nat n) (body p),
             mkPacket (buf p) (metadata p) (headroom p + n) (drop (Z.to_nat n) (body p)) (tailroom p)).

(** [adopt_tailroom_with_header], [out] being what was written to the tailroom. *)
Definition adopt_tailroom_with_header (hdr_len : Z) (out : list Z) (p : Packet) : outcome Packet :=
  _ ← rust_assert (hdr_len <=? zlen (body p));
  _ ← rust_assert (zlen out <=? tailroom p);
  mret (mkPacket (buf p) (metadata p) (headroom p + zlen (body p) - hdr_len)
          (take (Z.to_nat hdr_len) (body p) ++ out) (tailroom p - zlen out)).

(** A function on bodies that first consumes bytes from the front and then
    pushes headers, as [compress] and [expand] do: it runs out of headroom
    exactly when the body it leaves would not fit. *)
Definition refront (f : list Z -> outcome (list Z)) (p : Packet) : outcome Packet :=
  b ← f (body p);
  let hr := headroom p + zlen (body p) - zlen b in
  _ ← rust_assert (0 <=? hr);
  mret (mkPacket (buf p) (metadata p) hr b (tailroom p)).

(** ** Well-formed packets

    A packet in a buffer of [size] bytes. *)
Section facts.
Context `{Layout}.

Definition wf (size : Z) (p : Packet) : Prop :=
  0 <= headroom p /\ 0 <= tailroom p /\
  headroom p + zlen (body p) + tailroom p = size - md_size.

(** The whole buffer [raw] holds the packet [p]. *)
Definition holds (raw : list Z) (p : Packet) : Prop :=
  exists m h b t, PacketBuf.Rep raw m h b t /\
    zlen h = headroom p /\ b = body p /\ zlen t = tailroom p.

(** An operation on buffers and one on packets do the same: both panic, or both
    leave a buffer that holds the packet. *)
Definition agree (raw' : outcome (list Z)) (p' : outcome Packet) : Prop :=
  match raw', p' with
  | Ret raw', Ret p' => holds raw' p'
  | Panic, Panic => True
  | _, _ => False
  end.

Lemma take_all_of {A} (l1 l2 : list A) n : zlen l1 = n -> take (Z.to_nat n) (l1 ++ l2) = l1.
Proof. intros <-. rewrite take_app_length'; [done|unfold zlen; lia]. Qed.

(** Writing [out] at the start of the tailroom of a buffer. *)
Lemma write_tailroom raw m h b t out :
  PacketBuf.Rep raw m h b t -> zlen out <= zlen t ->
  exists raw', write_at raw (md_size + zlen h + zlen b) out = Ret raw' /\
    PacketBuf.Rep raw' m h b (out ++ drop (length out) t).
Proof.
  intros HR Hl. pose proof (PacketBuf.rep_bounds _ _ _ _ _ HR). pose proof (zlen_nonneg out).
  destruct (PacketBuf.split_front t (zlen out)) as (t1 & t2 & Et & Hl1 & _ & Ht2); [lia|].
  replace (Z.to_nat (zlen out)) with (length out) in Ht2 by (unfold zlen; lia). rewrite <- Ht2.
  destruct HR as [Hraw Hm Hu]. subst raw. rewrite Et, app_assoc in *.
  rewrite (PacketBuf.write_mk _ _ _ (h ++ b) t1) by (done || (rewrite ?zlen_app; lia)).
  eexists. split; [done|]. split; [by rewrite <- app_assoc|done|].
  rewrite PacketBuf.zlen_mk, !zlen_app in * by done. lia.
Qed.

(** The view of packets agrees with the operations on whole buffers. *)
Lemma view_agrees raw p :
  holds raw p ->
  (forall hdr, agree (PacketBuf.push_header raw hdr) (push_header hdr p)) /\
  (forall xs, agree (PacketBuf.put raw xs) (put xs p)) /\
  (forall n, 0 <= n -> agree (PacketBuf.advance raw n) (advance n p)) /\
  (forall n, 0 <= n -> agree (PacketBuf.shrink_by raw n) (shrink_by n p)) /\
  (forall n out, 0 <= n <= zlen (body p) -> zlen out <= tailroom p ->
     agree (raw' ← write_at raw (md_size + headroom p + zlen (body p)) out;
            PacketBuf.adopt_tailroom_with_header raw' n (zlen out))
           (adopt_tailroom_with_header n out p)).
Proof.
  intros (m & h & b & t & HR & Hh & -> & Ht).
  unfold agree, push_header, put, advance, shrink_by, adopt_tailroom_with_header, rust_assert.
  rewrite <- !Hh, <- !Ht. repeat split.
  - intros hdr. pose proof (PacketBuf.push_spec _ _ _ _ _ hdr HR) as S.
    destruct (Z.leb_spec (zlen hdr) (zlen h)); [|by rewrite S].
    destruct S as (raw' & -> & HR'). rewrite bind_Ret. eexists _, _, _, _. split; [done|]. cbn.
    repeat split; try lia. pose proof (zlen_nonneg hdr). unfold zlen in *. rewrite length_take. lia.
  - intros xs. pose proof (PacketBuf.put_spec _ _ _ _ _ xs HR) as S.
    destruct (Z.leb_spec (zlen xs) (zlen t)); [|by rewrite S].
    destruct S as (raw' & -> & HR'). rewrite bind_Ret. eexists _, _, _, _. split; [done|]. cbn.
    repeat split; try lia. unfold zlen in *. rewrite length_drop. lia.
  - intros n Hn. pose proof (PacketBuf.advance_spec _ _ _ _ _ n HR Hn) as S.
    destruct (Z.leb_spec n (zlen (body p))); [|by rewrite S].
    destruct S as (raw' & b1 & -> & Eb & HR'). rewrite bind_Ret.
    eexists _, _, _, _. split; [done|]. cbn. repeat split; try lia.
    rewrite zlen_app. apply (f_equal zlen) in Eb. rewrite zlen_app in Eb.
    unfold zlen in *. rewrite length_drop in Eb. lia.
  - intros n Hn. pose proof (PacketBuf.shrink_spec _ _ _ _ _ n HR Hn) as S.
    destruct (Z.leb_spec n (zlen (body p))); [|by rewrite S].
    destruct S as (raw' & b2 & -> & Eb & HR'). rewrite bind_Ret.
    eexists _, _, _, _. split; [done|]. cbn. repeat split; try lia.
    rewrite zlen_app. apply (f_equal zlen) in Eb. rewrite zlen_app in Eb.
    unfold zlen in *. rewrite length_take in Eb. lia.
  - intros n out Hn Hout. pose proof (zlen_nonneg out).
    destruct (write_tailroom _ _ _ _ _ out HR) as (raw1 & -> & HR1); [lia|]. rewrite bind_Ret.
    assert (zlen (out ++ drop (length out) t) = zlen t) as Zt.
    { rewrite zlen_app. unfold zlen in *. rewrite length_drop. lia. }
    destruct (PacketBuf.adopt_spec _ _ _ _ _ n (zlen out) HR1) as (raw2 & h' & -> & HR2 & Hh'); [lia|lia|].
    rewrite (proj2 (Z.leb_le _ _)), bind_Ret, (proj2 (Z.leb_le _ _)), bind_Ret by lia.
    rewrite take_all_of in HR2 by done. eexists _, _, _, _. split; [done|]. cbn. repeat split; [lia|].
    unfold zlen in *. rewrite length_drop. lia.
Qed.

End facts.
End Pkt.
