(* ===== verification/Queues.v ===== *)
(** * Queues between the fast path and management
    ([queues.rs], [two_way_queue.rs], [packet_queue.rs])

    Bounded channels, queues whose items go back to their sender, queues that
    copy packets, the capture pool, and the notification that lets a queue be
    waited for.  The operations of the receiving side run next to senders in
    other threads: [Wake] has their interleavings. *)
From Stdlib Require Import ZArith Lia.
From stdpp Require Import base tactics option list relations.
From S2P Require Import Prelude NetDefs PacketBuf Pkt.
From stdpp Require Import list.
Import PacketBuf(Layout, md_size).
Import Pkt.

Local Open Scope Z_scope.

Module Queues.

(** ** Bounded channels ([tokio::sync::mpsc]) *)

Record Chan (T : Type) := mkChan { items : list T; capacity : Z; closed : bool }.
Arguments mkChan {T} items capacity closed.
Arguments items {T} c.
Arguments capacity {T} c.
Arguments closed {T} c.

Inductive TrySendError (T : Type) := Full (item : T) | Closed (item : T).
Arguments Full {T} item.
Arguments Closed {T} item.

Definition chan_try_send {T} (c : Chan T) (x : T) : Chan T + TrySendError T :=
  if closed c then inr (Closed x)
  else if capacity c <=? zlen (items c) then inr (Full x)
  else inl (mkChan (items c ++ [x]) (capacity c) (closed c)).

(** ** Two-way queues *)

(** A [Sender]: the channel, the return queue its items name, and the count of
    items out, which all senders of a return queue share. *)
Definition try_send {T} (q : Chan (T * Z)) (return_q : Z) (outstanding : Z) (x : T)
    : (Chan (T * Z) * Z) + TrySendError T :=
  match chan_try_send q (x, return_q) with
  | inl q' => inl (q', wrapping_add 64 outstanding 1)
  | inr (Full (item, _)) => inr (Full item)
  | inr (Closed (item, _)) => inr (Closed item)
  end.

(** [Receiver::try_recv], and [recv] when an item is there. *)
Definition recv {T} (q : Chan (T * Z)) : option (T * Z * Chan (T * Z)) :=
  match items q with
  | [] => None
  | x :: r => Some (x, mkChan r (capacity q) (closed q))
  end.

Record ReturnQueue (U : Type) := mkReturns { incoming : list U; notified : bool; outstanding : Z }.
Arguments mkReturns {U} incoming notified outstanding.
Arguments incoming {U} r.
Arguments notified {U} r.
Arguments outstanding {U} r.

Definition returns_new {U} : ReturnQueue U := mkReturns [] false 0.

(** Dropping an [ItemGuard]: the item, converted, goes back to its sender. *)
Definition drop_guard {T U} (convert : T -> U) (x : T) (r : ReturnQueue U) : ReturnQueue U :=
  mkReturns (incoming r ++ [convert x]) true (outstanding r).

Definition try_recv_return {U} (r : ReturnQueue U) : option U * ReturnQueue U :=
  if negb (notified r) then (None, r)
  else
    let avail := zlen (incoming r) in
    match incoming r with
    | [] => (None, mkReturns [] false (outstanding r))
    | x :: rest => (Some x, mkReturns rest (1 <? avail) (wrapping_sub 64 (outstanding r) 1))
    end.

(** The items received are appended to the caller's vector. *)
Definition try_recv_many_returns {U} (r : ReturnQueue U) (limit : Z) : list U * ReturnQueue U :=
  if negb (notified r) then ([], r)
  else
    let avail := zlen (incoming r) in
    if avail =? 0 then ([], mkReturns [] false (outstanding r))
    else
      let got := take (Z.to_nat limit) (incoming r) in
      (got, mkReturns (drop (Z.to_nat limit) (incoming r)) (zlen got <? avail)
              (wrapping_sub 64 (outstanding r) (zlen got))).

(** ** Packet queues *)

(** A packet in its serialized form: metadata, offset of the body and body. *)
Record Serialized := mkSerialized { s_metadata : Metadata; s_headroom : Z; s_body : list Z }.

Record PacketQueue := mkPacketQueue { packets : Chan Serialized; posted : bool }.

Inductive PqSendError := PqFull | PqClosed | PqOversize.
Inductive PqRecvError := PqEmpty (b : PacketBuffer) | PqRecvOversize (b : PacketBuffer).

Section packet_queue.
Context `{Layout}.

(** [packet_queue::Sender::try_send], the channel's buffers being of [bufsize] bytes. *)
Definition pq_try_send (bufsize : Z) (q : PacketQueue) (p : Packet) : PacketQueue + PqSendError :=
  if bufsize <? md_size + zlen (body p) then inr PqOversize
  else match chan_try_send (packets q) (mkSerialized (metadata p) (headroom p) (body p)) with
       | inl c => inl (mkPacketQueue c true)
       | inr (Full _) => inr PqFull
       | inr (Closed _) => inr PqClosed
       end.

(** [packet_queue::Receiver::try_recv] into the buffer [b] of [size] bytes; a
    queue whose senders are gone is [PqEmpty] too, as [avail] is zero. *)
Definition pq_try_recv (size : Z) (q : PacketQueue) (b : PacketBuffer)
    : (Packet + PqRecvError) * PacketQueue :=
  if negb (posted q) then (inr (PqEmpty b), q)
  else
    let avail := zlen (items (packets q)) in
    match items (packets q) with
    | [] => (inr (PqEmpty b), mkPacketQueue (packets q) false)
    | s :: rest =>
        let q' := mkPacketQueue (mkChan rest (capacity (packets q)) (closed (packets q))) (1 <? avail) in
        let tail := size - md_size - s_headroom s - zlen (s_body s) in
        if tail <? 0 then (inr (PqRecvOversize (mkBuffer (buf_id b) (s_metadata s))), q')
        else (inl (mkPacket (buf_id b) (s_metadata s) (s_headroom s) (s_body s) tail), q')
    end.

(** [MgmtSubstrateEgress::enqueue_packet], once there is room, and
    [try_enqueue_packet]: a packet that does not fit panics. *)
Definition mgmt_enqueue_packet (bufsize : Z) (q : PacketQueue) (link_id : Z) (p : Packet)
    : outcome (option PacketQueue) :=
  let p' := on_metadata (fun m => set_flags (Z.lor (flags m) PRIORITY) (set_egress_link_id link_id m)) p in
  match pq_try_send bufsize q p' with
  | inl q' => mret (Some q')
  | inr PqFull => mret None
  | inr _ => Panic
  end.
Definition mgmt_try_enqueue_packet (bufsize : Z) (q : PacketQueue) (link_id : Z) (p : Packet)
    : outcome (PacketQueue * bool) :=
  match pq_try_send bufsize q (on_metadata (set_egress_link_id link_id) p) with
  | inl q' => mret (q', true)
  | inr PqFull => mret (q, false)
  | inr _ => Panic
  end.

(** [ActorOutputRequeue::try_enqueue_packet]: the queue of the lane the packet
    came in on. *)
Definition requeue_try_enqueue_packet (bufsize : Z) (qs : list PacketQueue) (p : Packet)
    : outcome (list PacketQueue * bool) :=
  let lane := ingress_lane_id (metadata p) in
  q ← index qs lane;
  match pq_try_send bufsize q p with
  | inl q' => mret (<[Z.to_nat lane := q']> qs, true)
  | inr PqFull => mret (qs, false)
  | inr _ => Panic
  end.

End packet_queue.

(** ** Management messages *)

Inductive MgmtDispatchMessage :=
| WithLink (p : Packet)
| WithAddr (peer_sa interface_addr : list Z * Z) (p : Packet).

(** [TwoWayReturnable] for [PacketBuffer]. *)
Definition convert_dispatch (m : MgmtDispatchMessage) : PacketBuffer :=
  match m with WithLink p => destroy p | WithAddr _ _ p => destroy p end.
Definition convert_adapter (p : Packet) : PacketBuffer := destroy p.

(** ** Capture *)

(** [size_of::<PcaprecHdr>()]. *)
Definition PCAPREC_HDR : Z := 16.
Definition MAX_CAPTURE_LEN : Z := PACKET_BUFFER_SIZE - PCAPREC_HDR.

(** [PcaprecHdr::new] on seconds and microseconds since the epoch; the four
    fields are 32 bits wide. *)
Record PcaprecHdr := mkRec { ts_sec : Z; ts_usec : Z; incl_len : Z; orig_len : Z }.
Definition U32_MAX : Z := 2 ^ 32 - 1.
Definition rec_new (time : Z * Z) (incl orig : Z) : PcaprecHdr :=
  mkRec (wrap 32 (time.1)) (wrap 32 (time.2)) (Z.min incl U32_MAX) (Z.min orig U32_MAX).

Record CapturedPacket := mkCaptured { cap_buf : Z; cap_hdr : PcaprecHdr; cap_data : list Z }.

(** [CaptureShared] and [worker_gone]; [contended] says of each coming
    [try_lock] whether another thread holds the lock. *)
Record Capture := mkCapture {
  free : list Z;
  filled : list CapturedPacket;
  worker_gone : bool;
  contended : list bool
}.

Definition capture_queue (bufs : list Z) : Capture := mkCapture bufs [] false [].

(** [Capture::try_enqueue_packet]; [false] is [Full]. *)
Definition capture_try_enqueue (c : Capture) (packet : list Z) (time : Z * Z) (len : Z)
    : outcome (Capture * bool) :=
  if worker_gone c then Panic
  else
    let incl := Z.min (Z.min len (zlen packet)) MAX_CAPTURE_LEN in
    match contended c with
    | true :: rest => mret (mkCapture (free c) (filled c) (worker_gone c) rest, false)
    | _ =>
        let rest := tail (contended c) in
        match last (free c) with
        | None => mret (mkCapture (free c) (filled c) (worker_gone c) rest, false)
        | Some b =>
            captured ← slice packet 0 incl;
            mret (mkCapture (take (length (free c) - 1) (free c))
                    (filled c ++ [mkCaptured b (rec_new time incl (zlen packet)) captured])
                    (worker_gone c) rest, true)
        end
    end.

(** [CaptureReceiver::recv], when a packet is there, and [recycle]. *)
Definition capture_recv (c : Capture) : option (CapturedPacket * Capture) :=
  match filled c with
  | [] => None
  | p :: rest => Some (p, mkCapture (free c) rest (worker_gone c) (contended c))
  end.
Definition capture_recycle (c : Capture) (p : CapturedPacket) : Capture :=
  mkCapture (free c ++ [cap_buf p]) (filled c) (worker_gone c) (contended c).

(** The buffers of the pool, given the packets the worker holds. *)
Definition pool (c : Capture) (held : list CapturedPacket) : list Z :=
  free c ++ (cap_buf <$> filled c) ++ (cap_buf <$> held).

End Queues.
