(* ===== verification/QueueWake.v ===== *)
(** * Waiting for a queue ([two_way_queue.rs], [packet_queue.rs])

    The queues of the fast path are read by a thread that sleeps until a
    notification is posted.  Senders push an item and then post, in two steps; the
    reader takes the notification, counts the items, receives some and posts again
    if it left any.  Here the steps of any number of senders and of the reader
    interleave freely. *)
From Stdlib Require Import ZArith Lia.
From stdpp Require Import base tactics option list relations.
From S2P Require Import Prelude Queues.
From stdpp Require Import list.
Import Queues.

Local Open Scope Z_scope.

Module QueueWake.

Section wake.
Context {U : Type}.

(** Where the reader is in [try_recv_return] ([limit] 1) or
    [try_recv_many_returns]: not in it; past [consume]; past [len]; past the
    receive, with what it counted and received. *)
Inductive Phase :=
| Idle
| Consumed (limit : nat)
| Counted (limit : nat) (avail : Z)
| Received (avail : Z) (got : list U).

(** The queue, the number of senders that have pushed and not yet posted, the
    reader, everything it has received and everything that was sent. *)
Record State := mkState {
  queue : ReturnQueue U; posting : nat; reader : Phase; received : list U; sent : list U
}.

Definition set_notified (b : bool) (r : ReturnQueue U) : ReturnQueue U := mkReturns (incoming r) b (outstanding r).

(** A round of the reader takes at least one item if there is one. *)
Inductive step : State -> State -> Prop :=
| push x r k ph l all :
    step (mkState r k ph l all)
      (mkState (mkReturns (incoming r ++ [x]) (notified r) (outstanding r)) (S k) ph l (all ++ [x]))
| post r k ph l all :
    step (mkState r (S k) ph l all) (mkState (set_notified true r) k ph l all)
| not_notified r k l all : notified r = false ->
    step (mkState r k Idle l all) (mkState r k Idle l all)
| consume r k l all limit : notified r = true -> (0 < limit)%nat ->
    step (mkState r k Idle l all) (mkState (set_notified false r) k (Consumed limit) l all)
| count r k l all limit :
    step (mkState r k (Consumed limit) l all) (mkState r k (Counted limit (zlen (incoming r))) l all)
(** [try_recv_many_returns] stops when it counted none; [try_recv_return] does not. *)
| count_none r k l all limit :
    step (mkState r k (Counted limit 0) l all) (mkState r k Idle l all)
| receive r k l all limit avail :
    step (mkState r k (Counted limit avail) l all)
      (mkState (mkReturns (drop limit (incoming r)) (notified r)
                  (wrapping_sub 64 (outstanding r) (zlen (take limit (incoming r))))) k
         (Received avail (take limit (incoming r))) (l ++ take limit (incoming r)) all)
| repost r k l all avail got :
    step (mkState r k (Received avail got) l all)
      (mkState (if zlen got <? avail then set_notified true r else r) k Idle l all).

Definition start : State := mkState returns_new 0 Idle [] [].

(** Some notification is posted or will be. *)
Definition alerted (s : State) : Prop := notified (queue s) = true \/ (0 < posting s)%nat.

(** An item that waits is one that the reader will see: the notification is there
    or on its way, or the reader is about to look. *)
Definition watched (s : State) : Prop :=
  match reader s with
  | Idle => incoming (queue s) <> [] -> alerted s
  | Consumed limit => (0 < limit)%nat
  | Counted limit avail =>
      (0 < limit)%nat /\ 0 <= avail <= zlen (incoming (queue s)) /\ (avail < zlen (incoming (queue s)) -> alerted s)
  | Received avail got => incoming (queue s) <> [] -> alerted s \/ zlen got < avail
  end.

Lemma nonempty_zlen {A} (l : list A) : l <> [] <-> 0 < zlen l.
Proof. destruct l; unfold zlen; cbn; split; intros; (done || lia). Qed.

Lemma step_watched s s' : step s s' -> watched s -> watched s'.
Proof.
  intros [] Hw; unfold watched, alerted in *; cbn [reader queue posting incoming notified set_notified] in *.
  - destruct ph as [|limit|limit avail|avail got]; try done; try (intros; by right; lia).
    + destruct Hw as (? & ? & ?). rewrite zlen_app. change (zlen [x]) with 1. split; [done|]. split; [lia|]. intros _. right. lia.
    + intros _. left. right. lia.
  - destruct ph as [|limit|limit avail|avail got]; try done; try (intros; by left).
    + destruct Hw as (? & ? & ?). split; [done|]. split; [done|]. intros. by left.
    + intros _. left. by left.
  - done.
  - done.
  - split; [done|]. split; [pose proof (zlen_nonneg (incoming r)); lia|lia].
  - destruct Hw as (_ & _ & Ha). rewrite nonempty_zlen. exact Ha.
  - destruct Hw as (Hl & Hr & Ha). intros Hne. apply nonempty_zlen in Hne. unfold zlen in *. rewrite length_drop in Hne.
    rewrite length_take. destruct (decide (avail < Z.of_nat (length (incoming r)))); [left; auto|right; lia].
  - intros Hne. destruct (Z.ltb_spec (zlen got) avail); cbn in *; [by left|]. destruct (Hw Hne) as [?|?]; [done|lia].
Qed.

Lemma step_fifo s s' :
  step s s' -> received s ++ incoming (queue s) = sent s -> received s' ++ incoming (queue s') = sent s'.
Proof.
  intros [] E; cbn in *; try done.
  - by rewrite app_assoc, E.
  - by rewrite <- app_assoc, take_drop.
  - by destruct (_ <? _).
Qed.

Lemma reachable_ok s : rtc step start s -> watched s /\ received s ++ incoming (queue s) = sent s.
Proof.
  intros Hr. assert (watched start /\ received start ++ incoming (queue start) = sent start) as H0 by (split; [by intros []|done]).
  revert H0. induction Hr as [|s1 s2 s3 Hs _ IH]; [done|]. intros [Hw Hf]. apply IH.
  split; [by eapply step_watched|by eapply step_fifo].
Qed.

(** C37. No wake-up is lost, and no item.  However the steps of senders and
    reader interleave: what the reader has received is what was sent, in the order of
    the pushes, up to what is still in the queue; and when it is not in a call and no
    sender is between its push and its post, a queue that is not empty has its
    notification posted, so that a sleeping reader is woken, and its next call,
    undisturbed, receives the oldest item and, if it may, more. *)
Theorem no_lost_wakeup s x rest :
  rtc step start s -> reader s = Idle -> posting s = 0%nat -> incoming (queue s) = x :: rest ->
  received s ++ x :: rest = sent s /\
  notified (queue s) = true /\
  (try_recv_return (queue s)).1 = Some x /\
  (forall limit, 0 < limit ->
     (try_recv_many_returns (queue s) limit).1 = take (Z.to_nat limit) (x :: rest)).
Proof.
  intros Hr Hi Hp Hq. destruct (reachable_ok s Hr) as [Hw Hf]. unfold watched, alerted in Hw. rewrite Hi, Hq, Hp in Hw.
  rewrite Hq in Hf. split; [done|].
  destruct Hw as [Hn|Hn]; [done| |lia]. split; [done|]. split.
  - unfold try_recv_return. by rewrite Hn, Hq.
  - intros limit Hl. unfold try_recv_many_returns. rewrite Hn, Hq. cbn [negb].
    destruct (Z.eqb_spec (zlen (x :: rest)) 0) as [E|_]; [unfold zlen in E; cbn in E; lia|done].
Qed.

(** ** The calls of the sequential model are rounds of the reader *)

Lemma many_is_rounds r k l all limit :
  0 < limit ->
  let '(got, r') := try_recv_many_returns r limit in
  rtc step (mkState r k Idle l all) (mkState r' k Idle (l ++ got) all).
Proof.
  intros Hl. unfold try_recv_many_returns. destruct (notified r) eqn:En; cbn [negb]; [|by rewrite app_nil_r].
  cbv zeta. assert (0 < Z.to_nat limit)%nat as Hn by lia.
  destruct (Z.eqb_spec (zlen (incoming r)) 0) as [Ez|Ez].
  - destruct (incoming r) as [|y ys] eqn:Ei; [|unfold zlen in Ez; cbn in Ez; lia]. rewrite app_nil_r.
    eapply rtc_l; [by apply (consume r k l all (Z.to_nat limit))|]. eapply rtc_l; [apply count|].
    cbn [incoming set_notified]. rewrite Ei. eapply rtc_l; [apply count_none|].
    unfold set_notified. rewrite Ei. apply rtc_refl.
  - eapply rtc_l; [by apply (consume r k l all (Z.to_nat limit))|]. eapply rtc_l; [apply count|].
    eapply rtc_l; [apply receive|]. eapply rtc_l; [apply repost|]. cbn [incoming set_notified outstanding notified].
    destruct (_ <? _); apply rtc_refl.
Qed.

Lemma one_is_rounds r k l all :
  let '(got, r') := try_recv_return r in
  rtc step (mkState r k Idle l all) (mkState r' k Idle (l ++ option_list got) all).
Proof.
  unfold try_recv_return. destruct (notified r) eqn:En; cbn [negb]; [|by rewrite app_nil_r].
  cbv zeta. destruct (incoming r) as [|y ys] eqn:Ei.
  - rewrite app_nil_r. eapply rtc_l; [apply (consume r k l all 1); [done|lia]|]. eapply rtc_l; [apply count|].
    cbn [incoming set_notified]. rewrite Ei. eapply rtc_l; [apply count_none|].
    unfold set_notified. rewrite Ei. apply rtc_refl.
  - eapply rtc_l; [apply (consume r k l all 1); [done|lia]|]. eapply rtc_l; [apply count|].
    eapply rtc_l; [apply receive|]. eapply rtc_l; [apply repost|]. cbn [incoming set_notified outstanding notified].
    rewrite Ei. cbn [take drop]. rewrite drop_0. change (zlen [y]) with 1.
    destruct (_ <? _); apply rtc_refl.
Qed.

End wake.

(** Two senders: one is done, the reader has been in between, the other is done too. *)
Lemma two_sends : rtc step start
  (mkState (mkReturns [2; 3] true (wrapping_sub 64 0 1)) 0 Idle [1] [1; 2; 3]).
Proof.
  eapply rtc_l; [apply (push 1)|]. eapply rtc_l; [apply post|].
  eapply rtc_l; [apply (consume _ _ _ _ 1); [done|lia]|]. eapply rtc_l; [apply (push 2)|]. eapply rtc_l; [apply count|].
  eapply rtc_l; [apply receive|]. eapply rtc_l; [apply (push 3)|]. eapply rtc_l; [apply repost|].
  eapply rtc_l; [apply post|]. eapply rtc_l; [apply post|]. apply rtc_refl.
Qed.

Lemma no_lost_wakeup_witness :
  (try_recv_return (mkReturns [2; 3] true (wrapping_sub 64 0 1))).1 = Some 2.
Proof. by apply (no_lost_wakeup _ 2 [3] two_sends). Defined.

End QueueWake.
