(* ===== verification/LinkCrypt.v ===== *)
(** * Protecting packets on a link ([fastpath.rs], [km.rs], [km_noise.rs])

    The three ways a packet goes over a link: with a checksum (ZPI 0), with a
    link MAC (transit packets), or encrypted in full by the codec of the security
    association; and the codecs themselves over the transport state of [snow]. *)
From Stdlib Require Import ZArith Lia.
From stdpp Require Import base tactics option list.
From S2P Require Import Prelude NetDefs PacketBuf Pkt PeerTable.
From stdpp Require Import list.
Import Pkt.

Local Open Scope Z_scope.

(** [snow::StatelessTransportState] and [blake3]: the errors the code tells
    apart, and what the crates promise.  A Noise message has at most 65535 bytes,
    16 of them a tag; the last nonce is reserved. *)
Inductive SnowError := SnowInput | SnowDecrypt | SnowOther.

Class Ciphers := {
  write_message : Z -> Z -> list Z -> Z -> list Z + SnowError;
  read_message : Z -> Z -> list Z -> Z -> list Z + SnowError;
  blake3_hash : list Z -> list Z;
  blake3_keyed_hash : list Z -> list Z -> list Z;
  (** [peered s s']: [s'] was made by the other end of the handshake of [s]. *)
  peered : Z -> Z -> Prop;
  write_ok : forall s n p room, 0 <= n < 2 ^ 64 - 1 -> zlen p + 16 <= 65535 -> zlen p + 16 <= room ->
    exists c, write_message s n p room = inl c /\ zlen c = zlen p + 16;
  write_room : forall s n p room room' c,
    write_message s n p room = inl c -> zlen c <= room' -> write_message s n p room' = inl c;
  write_fits : forall s n p room c, write_message s n p room = inl c -> zlen c = zlen p + 16 /\ zlen c <= room;
  read_fits : forall s n c room p, read_message s n c room = inl p -> zlen p <= room /\ zlen c = zlen p + 16;
  read_room : forall s n c room room', zlen c <= room -> zlen c <= room' ->
    read_message s n c room = read_message s n c room';
  read_write : forall s s' n p room room' c, peered s s' ->
    write_message s n p room = inl c -> zlen c <= room' -> read_message s' n c room' = inl p;
  hash_length : forall l, length (blake3_hash l) = 32%nat;
  keyed_hash_length : forall k l, length (blake3_keyed_hash k l) = 32%nat
}.

Module LinkCrypt.

Definition NOISE_NONCE_LEN : Z := 8.
Definition NOISE_PADLEN : Z := 16 + NOISE_NONCE_LEN.
Definition ZDP_A2A_MAC_SIZE : Z := 8.
Definition ZDP_PACKET_MAC_SIZE : Z := 8.
(** [size_of::<ZdpZpiHeader>()]. *)
Definition ZPI_HDR : Z := 1.

Inductive EncryptionError := InternalError | MessageTooLarge | ParseError.
Inductive DecryptionError := DecInternalError | MessageTooShort | DecParseError | DecryptFailed.

(** The implementations of [Codec]; the name of a Noise state is that of [snow]'s. *)
Inductive Codec := NoiseCodec (snow_state : Z) | NullCodec | UnimplCodec.

Definition max_overhead (c : Codec) : Z :=
  match c with NoiseCodec _ => NOISE_PADLEN | NullCodec | UnimplCodec => 0 end.

Section crypt.
Context `{NetDefs} `{Ciphers}.

(** ** Codecs

    [nonce] is what the codec's counter holds when it is incremented; [room] the
    length of the output buffer; the result is what was written to it. *)

Definition encrypt_transport_stateless (c : Codec) (nonce : Z) (payload : list Z) (room : Z)
    : outcome (list Z + EncryptionError) :=
  match c with
  | NoiseCodec s =>
      _ ← rust_assert (NOISE_NONCE_LEN <=? room);
      match write_message s nonce payload (room - NOISE_NONCE_LEN) with
      | inl out => mret (inl (be_bytes 8 nonce ++ out))
      | inr SnowInput => mret (inr MessageTooLarge)
      | inr _ => Panic
      end
  | NullCodec => mret (if room <? zlen payload then inr ParseError else inl payload)
  | UnimplCodec => mret (inr InternalError)
  end.

Definition decrypt_transport_stateless (c : Codec) (payload : list Z) (room : Z)
    : list Z + DecryptionError :=
  match c with
  | NoiseCodec s =>
      if zlen payload <? NOISE_NONCE_LEN then inr MessageTooShort
      else match read_message s (from_be (take 8 payload)) (drop 8 payload) room with
           | inl out => inl out
           | inr SnowDecrypt => inr DecryptFailed
           | inr _ => inr DecInternalError
           end
  | NullCodec => if room <? zlen payload then inr DecParseError else inl payload
  | UnimplCodec => inr DecInternalError
  end.

(** ** Encryption of packets *)

(** [&pkt.body()[size_of::<ZdpZpiHeader>()..]]. *)
Definition after_zpi (p : Packet) : outcome (list Z) := slice (body p) ZPI_HDR (zlen (body p)).

Definition swap_bytes (l : list Z) : list Z := match l with [a; b] => [b; a] | _ => l end.

Definition encrypt_null (p : Packet) : outcome Packet :=
  rest ← after_zpi p;
  let csum := be_bytes 2 (ip4sum_checksum rest) in
  put (if (zlen (body p) - ZPI_HDR) mod 2 =? 0 then csum else swap_bytes csum) p.

Definition link_mac (key bytes : list Z) : list Z :=
  take (Z.to_nat ZDP_PACKET_MAC_SIZE) (blake3_keyed_hash key bytes).

Definition encrypt_hmac (send_hmac_key : list Z) (p : Packet) : outcome Packet :=
  put (link_mac send_hmac_key (body p)) p.

(** Into the tailroom when the ciphertext is sure to fit there, else through a
    buffer of its own; on an error the packet stays as it is. *)
Definition encrypt_full (c : Codec) (nonce : Z) (p : Packet) : outcome (Packet + EncryptionError) :=
  if zlen (body p) <? ZPI_HDR then mret (inr ParseError)
  else
    let encr_len := zlen (body p) - ZPI_HDR in
    payload ← after_zpi p;
    if encr_len + max_overhead c <=? tailroom p then
      r ← encrypt_transport_stateless c nonce payload (tailroom p);
      match r with
      | inl out => inl <$> adopt_tailroom_with_header ZPI_HDR out p
      | inr e => mret (inr e)
      end
    else
      r ← encrypt_transport_stateless c nonce payload PACKET_BUFFER_SIZE;
      match r with
      | inl out => p1 ← shrink_by encr_len p; inl <$> put out p1
      | inr e => mret (inr e)
      end.

(** ** Decryption of packets *)

Inductive DecryptError := BadStructure | UnknownZpi | DecryptionFailure | MicvFailure | BadChecksum.

(** The packet as it is left, and the error if there is one. *)
Notation DecRes := (outcome (Packet * option DecryptError)).
Definition dec_ok (p : Packet) : DecRes := mret (p, None).
Definition dec_err (e : DecryptError) (p : Packet) : DecRes := mret (p, Some e).

Definition decrypt_null (p : Packet) : DecRes :=
  if zlen (body p) <? ZPI_HDR + 2 then dec_err BadStructure p
  else
    rest ← after_zpi p;
    if negb (ip4sum_checksum rest =? 0) then dec_err BadChecksum p
    else p1 ← shrink_by 2 p; dec_ok p1.

Definition decrypt_hmac (recv_hmac_key : list Z) (p : Packet) : DecRes :=
  if zlen (body p) <? ZDP_PACKET_MAC_SIZE then dec_err BadStructure p
  else
    mac ← slice (body p) (zlen (body p) - ZDP_PACKET_MAC_SIZE) (zlen (body p));
    p1 ← shrink_by ZDP_PACKET_MAC_SIZE p;
    if bool_decide (link_mac recv_hmac_key (body p1) = mac) then dec_ok p1 else dec_err MicvFailure p1.

Definition decrypt_full (c : Codec) (padlen : Z) (p : Packet) : DecRes :=
  if zlen (body p) <? ZPI_HDR then dec_err BadStructure p
  else
    let encr_len := zlen (body p) - ZPI_HDR in
    if encr_len <? padlen then dec_err BadStructure p
    else
      payload ← after_zpi p;
      if encr_len <=? tailroom p then
        match decrypt_transport_stateless c payload (tailroom p) with
        | inl out => p1 ← adopt_tailroom_with_header ZPI_HDR out p; dec_ok p1
        | inr _ => dec_err DecryptionFailure p
        end
      else
        match decrypt_transport_stateless c payload PACKET_BUFFER_SIZE with
        | inl out => p1 ← shrink_by encr_len p; p2 ← put out p1; dec_ok p2
        | inr _ => dec_err DecryptionFailure p
        end.

End crypt.
End LinkCrypt.
