(* ===== verification/LinkCryptProps.v ===== *)
(** * What protects packets on a link: round trips

    The internet checksum of a packet with its checksum appended, and, for each
    of the three protections, that removing it undoes adding it, whichever way
    the packet's buffer is used. *)
From Stdlib Require Import ZArith Lia.
From stdpp Require Import base tactics option list.
From S2P Require Import Prelude NetDefs PacketBuf Pkt PeerTable LinkCrypt.
From stdpp Require Import list.
Import PacketBuf(Layout, md_size).
Import Pkt LinkCrypt.

Local Open Scope Z_scope.

Module LinkCryptProps.

(** ** The internet checksum *)

Lemma sum16_app_even (l r : list Z) : Nat.even (length l) = true -> sum16 (l ++ r) = sum16 l + sum16 r.
Proof.
  remember (length l) as n eqn:E. revert l E.
  induction n as [n IH] using lt_wf_ind. intros [|a [|b l]] E Hev; cbn in E; subst n; [done|done|].
  cbn [app sum16]. rewrite (IH (length l)); [lia|lia|done|]. done.
Qed.

Lemma sum16_app_odd (l : list Z) (b c : Z) : Nat.even (length l) = false ->
  sum16 (l ++ [b; c]) = sum16 l + b + c * 256.
Proof.
  intros Ho. destruct (exists_last (l:=l)) as (l' & a & ->); [by intros ->|].
  assert (Nat.even (length l') = true) as He.
  { rewrite length_app, Nat.even_add in Ho. cbn [length Nat.even] in Ho. by destruct (Nat.even (length l')). }
  rewrite <- app_assoc, (sum16_app_even l' ([a] ++ _)), (sum16_app_even l' [a]) by done. cbn [app sum16]. lia.
Qed.

Lemma sum16_nonneg l : bytes_ok l -> 0 <= sum16 l.
Proof.
  remember (length l) as n eqn:E. revert l E.
  induction n as [n IH] using lt_wf_ind. intros [|a [|b l]] E Hb; cbn in *; subst; [lia| |].
  - apply list.Forall_cons in Hb as [Ha _]. unfold is_byte in Ha. lia.
  - unfold bytes_ok in Hb. rewrite !list.Forall_cons in Hb. destruct Hb as (Ha & Hb & Hl). unfold is_byte in *.
    specialize (IH (length l) ltac:(lia) l eq_refl Hl). lia.
Qed.

Lemma fold16_spec x : 0 <= x -> 0 <= fold16 x <= 65535 /\ (x - fold16 x) mod 65535 = 0 /\ (0 < x -> 0 < fold16 x).
Proof.
  intros Hx. unfold fold16. destruct (Z.eqb_spec x 0); [subst; repeat split; (done || lia)|].
  pose proof (Z.mod_pos_bound (x - 1) 65535 ltac:(lia)). repeat split; try lia.
  replace (x - (1 + (x - 1) mod 65535)) with ((x - 1) / 65535 * 65535).
  - apply Z.mod_mul. lia.
  - pose proof (Z.div_mod (x - 1) 65535 ltac:(lia)). lia.
Qed.

(** A sum completed by its checksum is all ones. *)
Lemma fold16_complete x : 0 <= x -> fold16 (x + (65535 - fold16 x)) = 65535.
Proof.
  intros Hx. destruct (fold16_spec x Hx) as (Hr & Hm & Hp).
  assert (0 < x + (65535 - fold16 x)) as Hpos by (destruct (Z.eq_dec x 0); [subst; cbn; lia|lia]).
  set (y := x + (65535 - fold16 x)) in *. destruct (fold16_spec y ltac:(lia)) as (Hr' & Hm' & Hp').
  assert (y mod 65535 = 0) as Hy.
  { unfold y. replace (x + (65535 - fold16 x)) with (x - fold16 x + 1 * 65535) by lia.
    by rewrite Z.mod_add. }
  assert (fold16 y mod 65535 = 0) as Hf.
  { replace (fold16 y) with (y - (y - fold16 y)) by lia. rewrite Zminus_mod, Hy, Hm'. done. }
  specialize (Hp' Hpos). apply Z.mod_divide in Hf as [k Hk]; [|lia]. nia.
Qed.

Lemma rfc1071_range l : bytes_ok l -> 0 <= rfc1071 l <= 65535.
Proof. intros Hb. unfold rfc1071. pose proof (fold16_spec _ (sum16_nonneg l Hb)). lia. Qed.

Lemma be_bytes_2 x : 0 <= x < 65536 -> be_bytes 2 x = [x / 256; x mod 256].
Proof.
  intros Hx. cbn. rewrite (Z.mod_small (x / 256)); [done|].
  split; [apply Z.div_pos; lia|apply Z.div_lt_upper_bound; lia].
Qed.

(** The checksum bytes, swapped behind an odd number of bytes, bring the
    checksum to zero. *)
Definition trailer (l : list Z) : list Z :=
  if zlen l mod 2 =? 0 then be_bytes 2 (rfc1071 l) else swap_bytes (be_bytes 2 (rfc1071 l)).

Lemma even_zlen {A} (l : list A) : (zlen l mod 2 =? 0) = Nat.even (length l).
Proof.
  unfold zlen. rewrite Zmod_even. rewrite <- Nat2Z.inj_0 at 1.
  destruct (Nat.even (length l)) eqn:E; [apply Nat.even_spec in E as [k ->]|].
  - rewrite Nat2Z.inj_mul, Z.even_mul. done.
  - assert (Nat.odd (length l) = true) as O by (by rewrite <- Nat.negb_even, E).
    apply Nat.odd_spec in O as [k ->]. rewrite Nat2Z.inj_add, Nat2Z.inj_mul, Z.even_add, Z.even_mul. done.
Qed.

Lemma checksum_complete l : bytes_ok l -> rfc1071 (l ++ trailer l) = 0.
Proof.
  intros Hb. pose proof (rfc1071_range l Hb) as Hr. pose proof (sum16_nonneg l Hb) as Hs.
  assert (sum16 (l ++ trailer l) = sum16 l + rfc1071 l) as E.
  { unfold trailer. rewrite even_zlen, be_bytes_2 by lia.
    pose proof (Z.div_mod (rfc1071 l) 256 ltac:(lia)) as D.
    destruct (Nat.even (length l)) eqn:Ev.
    - rewrite sum16_app_even by done. cbn [sum16]. lia.
    - cbn [swap_bytes]. rewrite sum16_app_odd by done. lia. }
  unfold rfc1071 at 1. rewrite E. unfold rfc1071. rewrite fold16_complete by done. lia.
Qed.

Lemma trailer_bytes l : bytes_ok l -> bytes_ok (trailer l) /\ length (trailer l) = 2%nat.
Proof.
  intros Hb. pose proof (rfc1071_range l Hb). unfold trailer. rewrite be_bytes_2 by lia.
  pose proof (Z.mod_pos_bound (rfc1071 l) 256 ltac:(lia)).
  assert (0 <= rfc1071 l / 256 < 256) by (split; [apply Z.div_pos|apply Z.div_lt_upper_bound]; lia).
  destruct (zlen l mod 2 =? 0); (split; [|done]); repeat constructor; unfold is_byte; lia.
Qed.

(** ** Packets *)

(** The packet with another extent of its body. *)
Definition resize (p : Packet) (hr : Z) (b : list Z) (tr : Z) : Packet :=
  mkPacket (buf p) (metadata p) hr b tr.

Section props.
Context `{NetDefs} `{Ciphers}.

Lemma after_zpi_ok p z r : body p = z :: r -> after_zpi p = Ret r.
Proof.
  intros E. unfold after_zpi, slice, ZPI_HDR. rewrite E, zlen_cons. pose proof (zlen_nonneg r).
  rewrite !(proj2 (Z.leb_le _ _)) by lia. cbn [andb]. change (Z.to_nat 1) with 1%nat.
  cbn [drop]. rewrite drop_0, take_ge; [done|unfold zlen in *; lia].
Qed.

Lemma take_front {A} (l r : list A) n : n = zlen l -> take (Z.to_nat n) (l ++ r) = l.
Proof. intros ->. apply take_app_length'. unfold zlen. lia. Qed.

Lemma shrink_ok (p : Packet) b r :
  body p = b ++ r -> shrink_by (zlen r) p = Ret (resize p (headroom p) b (tailroom p + zlen r)).
Proof.
  intros E. unfold shrink_by, rust_assert. rewrite E, zlen_app. pose proof (zlen_nonneg b).
  rewrite (proj2 (Z.leb_le _ _)) by lia. cbn. unfold resize. do 2 f_equal. apply take_front. lia.
Qed.

Lemma put_ok (p : Packet) xs :
  zlen xs <= tailroom p ->
  put xs p = Ret (resize p (headroom p) (body p ++ xs) (tailroom p - zlen xs)).
Proof. intros Hl. unfold put, rust_assert. by rewrite (proj2 (Z.leb_le _ _)). Qed.

Lemma push_ok (p : Packet) xs :
  zlen xs <= headroom p ->
  push_header xs p = Ret (resize p (headroom p - zlen xs) (xs ++ body p) (tailroom p)).
Proof. intros Hl. unfold push_header, rust_assert. by rewrite (proj2 (Z.leb_le _ _)). Qed.

Lemma adopt_ok (p : Packet) z r out :
  body p = z :: r -> zlen out <= tailroom p ->
  adopt_tailroom_with_header ZPI_HDR out p =
    Ret (resize p (headroom p + zlen r) (z :: out) (tailroom p - zlen out)).
Proof.
  intros E Hl. unfold adopt_tailroom_with_header, rust_assert, ZPI_HDR. rewrite E, zlen_cons.
  pose proof (zlen_nonneg r). rewrite !(proj2 (Z.leb_le _ _)) by lia. cbn.
  unfold resize. do 2 f_equal. lia.
Qed.

(** *** Checksums *)

Lemma encrypt_null_ok p z r :
  body p = z :: r -> bytes_ok r -> 2 <= tailroom p ->
  encrypt_null p = Ret (resize p (headroom p) (z :: r ++ trailer r) (tailroom p - 2)).
Proof.
  intros E Hb Ht. destruct (trailer_bytes r Hb) as [_ Hl].
  unfold encrypt_null. rewrite (after_zpi_ok p z r E), bind_Ret, checksum_rfc1071 by done.
  rewrite E, zlen_cons. unfold ZPI_HDR. replace (1 + zlen r - 1) with (zlen r) by lia. fold (trailer r).
  assert (zlen (trailer r) = 2) as Hz by (unfold zlen; lia).
  rewrite put_ok by lia. by rewrite Hz, E.
Qed.

Lemma decrypt_null_ok p z r :
  body p = z :: r ++ trailer r -> bytes_ok r ->
  decrypt_null p = Ret (resize p (headroom p) (z :: r) (tailroom p + 2), None).
Proof.
  intros E Hb. destruct (trailer_bytes r Hb) as [Ht Hl].
  assert (zlen (trailer r) = 2) as Hz by (unfold zlen; lia). pose proof (zlen_nonneg r).
  unfold decrypt_null, ZPI_HDR. rewrite E, zlen_cons, zlen_app, Hz.
  rewrite (proj2 (Z.ltb_ge _ _)) by lia. rewrite (after_zpi_ok p z _ E), bind_Ret.
  rewrite checksum_rfc1071, checksum_complete by (done || by apply list.Forall_app). cbn [Z.eqb negb].
  rewrite <- Hz, (shrink_ok p (z :: r)) by done. by rewrite bind_Ret.
Qed.

(** *** Link MACs *)

Lemma zlen_mac k b : zlen (link_mac k b) = ZDP_PACKET_MAC_SIZE.
Proof. unfold link_mac, zlen. rewrite length_take, keyed_hash_length. done. Qed.

Lemma encrypt_hmac_ok k p :
  ZDP_PACKET_MAC_SIZE <= tailroom p ->
  encrypt_hmac k p = Ret (resize p (headroom p) (body p ++ link_mac k (body p))
                            (tailroom p - ZDP_PACKET_MAC_SIZE)).
Proof. intros Hl. unfold encrypt_hmac. rewrite put_ok; rewrite zlen_mac; done. Qed.

Lemma decrypt_hmac_ok k p b :
  body p = b ++ link_mac k b ->
  decrypt_hmac k p = Ret (resize p (headroom p) b (tailroom p + ZDP_PACKET_MAC_SIZE), None).
Proof.
  intros E. pose proof (zlen_mac k b) as Hz. pose proof (zlen_nonneg b).
  unfold decrypt_hmac. rewrite E, zlen_app, Hz. rewrite (proj2 (Z.ltb_ge _ _)) by lia.
  replace (zlen b + ZDP_PACKET_MAC_SIZE - ZDP_PACKET_MAC_SIZE) with (zlen b) by lia.
  assert (slice (b ++ link_mac k b) (zlen b) (zlen b + ZDP_PACKET_MAC_SIZE) = Ret (link_mac k b)) as ->.
  { unfold slice. rewrite zlen_app, Hz. unfold ZDP_PACKET_MAC_SIZE in *.
    rewrite !(proj2 (Z.leb_le _ _)) by lia. cbn [andb].
    rewrite drop_app_length' by (unfold zlen; lia). rewrite take_ge; [done|unfold zlen in *; lia]. }
  rewrite bind_Ret, <- Hz, (shrink_ok p b) by done. rewrite bind_Ret. cbn [body resize].
  by rewrite bool_decide_true.
Qed.

(** *** Codecs *)

(** The two ends of a security association. *)
Inductive ends : Codec -> Codec -> Prop :=
| ends_noise s s' : peered s s' -> ends (NoiseCodec s) (NoiseCodec s')
| ends_null : ends NullCodec NullCodec.

(** Enough output room: the ciphertext is the same whatever the room. *)
Lemma encrypt_any_room c c' n payload :
  ends c c' -> 0 <= n < 2 ^ 64 - 1 -> zlen payload + NOISE_PADLEN <= 65535 ->
  exists out, zlen out = zlen payload + max_overhead c /\
    (forall room, zlen payload + max_overhead c <= room ->
       encrypt_transport_stateless c n payload room = Ret (inl out)) /\
    (forall room, zlen out <= room -> decrypt_transport_stateless c' out room = inl payload).
Proof.
  intros He Hn Hl. pose proof (zlen_nonneg payload). unfold NOISE_PADLEN, NOISE_NONCE_LEN in *.
  destruct He as [s s' Hp|]; unfold encrypt_transport_stateless, decrypt_transport_stateless, max_overhead,
    NOISE_PADLEN, NOISE_NONCE_LEN.
  - destruct (write_ok s n payload (zlen payload + 16)) as (c & Hw & Hc); [done|lia|lia|].
    assert (zlen (be_bytes 8 n) = 8) as Hb by (unfold zlen; by rewrite length_be_bytes).
    exists (be_bytes 8 n ++ c). rewrite zlen_app, Hb. split; [lia|]. split.
    + intros room Hr. unfold rust_assert. rewrite (proj2 (Z.leb_le _ _)) by lia. rewrite bind_Ret.
      by rewrite (write_room _ _ _ _ _ _ Hw) by lia.
    + intros room Hr. rewrite (proj2 (Z.ltb_ge _ _)) by lia.
      rewrite take_app_length', drop_app_length' by (by rewrite length_be_bytes).
      rewrite from_be_be_bytes, Z.mod_small by (change (8 * Z.of_nat 8) with 64; lia).
      by rewrite (read_write s s' n payload (zlen payload + 16)) by (done || lia).
  - exists payload. split; [lia|]. split; intros room Hr; by rewrite (proj2 (Z.ltb_ge _ _)) by lia.
Qed.

(** Encryption in full gives the header and the ciphertext, in the tailroom or
    through the scratch buffer alike. *)
Lemma encrypt_full_ok c n p z r out :
  body p = z :: r -> max_overhead c <= tailroom p -> zlen r + max_overhead c <= PACKET_BUFFER_SIZE ->
  zlen out <= zlen r + max_overhead c ->
  (forall room, zlen r + max_overhead c <= room -> encrypt_transport_stateless c n r room = Ret (inl out)) ->
  exists hr tr, encrypt_full c n p = Ret (inl (resize p hr (z :: out) tr)) /\
    headroom p <= hr /\ 0 <= tr /\ hr + zlen out + tr = headroom p + zlen r + tailroom p.
Proof.
  intros E Ht Hs Ho Hc. pose proof (zlen_nonneg r). unfold encrypt_full, ZPI_HDR. rewrite E, zlen_cons.
  rewrite (proj2 (Z.ltb_ge _ _)) by lia. rewrite (after_zpi_ok p z r E), bind_Ret.
  replace (1 + zlen r - 1) with (zlen r) by lia.
  destruct (Z.leb_spec (zlen r + max_overhead c) (tailroom p)).
  - rewrite Hc, bind_Ret by lia. change 1 with ZPI_HDR. rewrite (adopt_ok p z r) by (done || lia). cbn.
    eexists _, _. split; [done|]. lia.
  - rewrite Hc, bind_Ret by lia. rewrite (shrink_ok p [z] r) by done. rewrite bind_Ret.
    rewrite put_ok by (cbn [tailroom resize]; lia). cbn. eexists _, _. split; [done|]. lia.
Qed.

Lemma decrypt_full_ok c pad p z r out :
  body p = z :: out -> pad <= zlen out -> 0 <= tailroom p -> zlen out <= PACKET_BUFFER_SIZE -> zlen r <= zlen out ->
  (forall room, zlen out <= room -> decrypt_transport_stateless c out room = inl r) ->
  exists hr tr, decrypt_full c pad p = Ret (resize p hr (z :: r) tr, None) /\
    headroom p <= hr /\ zlen out - zlen r <= tr /\ hr + zlen r + tr = headroom p + zlen out + tailroom p.
Proof.
  intros E Hp Ht Hs Ho Hc. pose proof (zlen_nonneg out). unfold decrypt_full, ZPI_HDR. rewrite E, zlen_cons.
  rewrite (proj2 (Z.ltb_ge _ _)) by lia. replace (1 + zlen out - 1) with (zlen out) by lia.
  rewrite (proj2 (Z.ltb_ge _ _)) by lia. rewrite (after_zpi_ok p z out E), bind_Ret.
  destruct (Z.leb_spec (zlen out) (tailroom p)).
  - rewrite Hc by lia. change 1 with ZPI_HDR. rewrite (adopt_ok p z out) by (done || lia). rewrite bind_Ret.
    eexists _, _. split; [done|]. lia.
  - rewrite Hc by lia. rewrite (shrink_ok p [z] out) by done. rewrite bind_Ret.
    rewrite put_ok by (cbn [tailroom resize]; lia). rewrite bind_Ret. cbn. eexists _, _. split; [done|]. lia.
Qed.

End props.
End LinkCryptProps.
