(* ===== verification/Fastpath.v ===== *)
(** * The fast path ([fastpath.rs], [flow_control.rs], [counters.rs])

    The worker that moves packets between the actor and the substrate: its
    state, and every operation on it, as computations that may panic.  The parts
    of the program it reads ([Shared]) are an argument: management may change
    them between two packets.  Debug-only tracking of flows and the features for
    security tests are left out, as in release builds. *)
From Stdlib Require Import ZArith Lia.
From stdpp Require Import base tactics option list gmap.
From S2P Require Import Prelude Slab NetDefs Classifier Compress Tc AdapterTables ForwardingTables PacketBuf Pkt Queues Zdp PeerTable Assembly LinkCrypt.
From stdpp Require Import list.
Import PacketBuf(Layout, md_size).
Import Pkt Queues LinkCrypt.

Local Open Scope Z_scope.

Module Fastpath.

(** [FastpathCounterType]. *)
Inductive FastpathCounterType :=
| InPacksRec | InPacksDrop | InPacksSent | OutPacksRec | OutPacksDrop | OutPacksSent
| RequeuedPacketsReceived | MgmtPacketsSent
| InCapPacksWrite | OutCapPacksWrite | InCapPacksDrop | OutCapPacksDrop | InCapPacksFilt | OutCapPacksFilt
| DroppedOversize | QueueBackpressure | DroppedAwaitingBind | DispatchedToMgmt | ActorSlowpath
| UnknownPeer | PeerRemoved | UnknownZpi | MicvFailure | BadChecksum | DecryptionFailure
| EncryptionFailure | UnknownStreamId | BadStructure | OtherError | TtlExpired.
#[export] Instance FastpathCounterType_eq_dec : EqDecision FastpathCounterType.
Proof. solve_decision. Defined.

Notation FastpathCounters := (FastpathCounterType -> Z).
Definition no_counts : FastpathCounters := fun _ => 0.
(** [Counter::increase_by]. *)
Definition increase_by (c : FastpathCounterType) (n : Z) (cs : FastpathCounters) : FastpathCounters :=
  fun x => if bool_decide (x = c) then wrapping_add 64 (cs x) n else cs x.
(** [Aggregate::aggregate]. *)
Definition aggregate_counters (total batch : FastpathCounters) : FastpathCounters :=
  fun x => wrapping_add 64 (total x) (batch x).

(** [From<DecryptError>]. *)
Definition counter_of (e : DecryptError) : FastpathCounterType :=
  match e with
  | LinkCrypt.BadStructure => BadStructure
  | LinkCrypt.UnknownZpi => UnknownZpi
  | LinkCrypt.DecryptionFailure => DecryptionFailure
  | LinkCrypt.MicvFailure => MicvFailure
  | LinkCrypt.BadChecksum => BadChecksum
  end.

Inductive Direction := Inbound | Outbound.
(** [Direction as usize] ([zdp_ll.rs]). *)
Definition encode_direction (d : Direction) : Z := match d with Inbound => 0 | Outbound => 1 end.

Definition ZPI_0 : Z := 0.
Notation SubstrateAddr := (list Z * Z)%type.
Notation ScopedIpAddr := (list Z * Z)%type.

(** [dst] and the flow information its [SocketAddrV6] carries. *)
Record QueuedEgressPacket := mkQueued {
  q_pkt : Packet; dst : SubstrateAddr; dst_flowinfo : Z; src : ScopedIpAddr
}.

Section fastpath.
Context `{NetDefs} `{Layout} `{Ciphers} {slab : Type -> Type} `{SlabOps slab}.
(** [size_of::<A2aSaid>()]. *)
Context (A2A_SAID_SIZE : nat).

(** What the fast path reads of the [Assembly]: the tables, whether Noise is the
    key manager, the codecs by identifier, the capture filter, the time. *)
Record Shared := mkShared {
  ph_mode : PhMode;
  peer_table : PeerTable.PeerTable slab;
  elt : gmap FiveTuple (@AdapterTables.EltEntry Packet);
  dlt : ForwardingTables.DockLookupTable slab;
  km_is_noise : bool;
  codecs : Z -> Codec;
  flow_control : option (list Z -> Z);
  capture_time : Z * Z
}.

(** A worker: its own fields, then what it shares with other workers and
    management: the channels, the capture pool, the nonce counters of the codecs
    and the totals of the counters. *)
Record Worker := mkWorker {
  worker_index : Z;
  batch_size : Z;
  buffer_count : Z;
  buffers : list PacketBuffer;
  batch_counters : FastpathCounters;
  return_q : ReturnQueue PacketBuffer;
  actor_input_q : list Packet;
  substrate_egress_q : list QueuedEgressPacket;
  mgmt_dispatch : Chan (MgmtDispatchMessage * Z);
  adapter_manager : Chan (Packet * Z);
  capture_q : Capture;
  encr_nonce : Z -> Z;
  fastpaths : list FastpathCounters
}.
Definition set_buffers v w := mkWorker (worker_index w) (batch_size w) (buffer_count w) v (batch_counters w) (return_q w) (actor_input_q w) (substrate_egress_q w) (mgmt_dispatch w) (adapter_manager w) (capture_q w) (encr_nonce w) (fastpaths w).
Definition set_batch_counters v w := mkWorker (worker_index w) (batch_size w) (buffer_count w) (buffers w) v (return_q w) (actor_input_q w) (substrate_egress_q w) (mgmt_dispatch w) (adapter_manager w) (capture_q w) (encr_nonce w) (fastpaths w).
Definition set_return_q v w := mkWorker (worker_index w) (batch_size w) (buffer_count w) (buffers w) (batch_counters w) v (actor_input_q w) (substrate_egress_q w) (mgmt_dispatch w) (adapter_manager w) (capture_q w) (encr_nonce w) (fastpaths w).
Definition set_actor_input_q v w := mkWorker (worker_index w) (batch_size w) (buffer_count w) (buffers w) (batch_counters w) (return_q w) v (substrate_egress_q w) (mgmt_dispatch w) (adapter_manager w) (capture_q w) (encr_nonce w) (fastpaths w).
Definition set_substrate_egress_q v w := mkWorker (worker_index w) (batch_size w) (buffer_count w) (buffers w) (batch_counters w) (return_q w) (actor_input_q w) v (mgmt_dispatch w) (adapter_manager w) (capture_q w) (encr_nonce w) (fastpaths w).
Definition set_mgmt_dispatch v w := mkWorker (worker_index w) (batch_size w) (buffer_count w) (buffers w) (batch_counters w) (return_q w) (actor_input_q w) (substrate_egress_q w) v (adapter_manager w) (capture_q w) (encr_nonce w) (fastpaths w).
Definition set_adapter_manager v w := mkWorker (worker_index w) (batch_size w) (buffer_count w) (buffers w) (batch_counters w) (return_q w) (actor_input_q w) (substrate_egress_q w) (mgmt_dispatch w) v (capture_q w) (encr_nonce w) (fastpaths w).
Definition set_capture_q v w := mkWorker (worker_index w) (batch_size w) (buffer_count w) (buffers w) (batch_counters w) (return_q w) (actor_input_q w) (substrate_egress_q w) (mgmt_dispatch w) (adapter_manager w) v (encr_nonce w) (fastpaths w).
Definition set_encr_nonce v w := mkWorker (worker_index w) (batch_size w) (buffer_count w) (buffers w) (batch_counters w) (return_q w) (actor_input_q w) (substrate_egress_q w) (mgmt_dispatch w) (adapter_manager w) (capture_q w) v (fastpaths w).
Definition set_fastpaths v w := mkWorker (worker_index w) (batch_size w) (buffer_count w) (buffers w) (batch_counters w) (return_q w) (actor_input_q w) (substrate_egress_q w) (mgmt_dispatch w) (adapter_manager w) (capture_q w) (encr_nonce w) v.

(** ** Computations *)

Definition M (A : Type) : Type := Worker -> outcome (A * Worker).

#[global] Instance M_ret : MRet M := fun A a w => Ret (a, w).
#[global] Instance M_bind : MBind M := fun A B f m w =>
  match m w with Ret (a, w') => f a w' | Panic => Panic end.

Definition gets {A} (f : Worker -> A) : M A := fun w => Ret (f w, w).
Definition modify (f : Worker -> Worker) : M unit := fun w => Ret (tt, f w).
Definition lift {A} (o : outcome A) : M A := fun w => a ← o; Ret (a, w).

Definition count_by (c : FastpathCounterType) (n : Z) : M unit :=
  modify (fun w => set_batch_counters (increase_by c n (batch_counters w)) w).
(** [self.batch_counters[c].increment()]. *)
Definition count (c : FastpathCounterType) : M unit := count_by c 1.
Definition give_back (b : PacketBuffer) : M unit :=
  modify (fun w => set_buffers (buffers w ++ [b]) w).

(** Drop a packet and count the drop with the given reason. *)
Definition drop_and_count (p : Packet) (reason : FastpathCounterType) : M unit :=
  _ ← give_back (destroy p); count reason.

(** [Packet::new] for each of some buffers. *)
Fixpoint fresh (bs : list PacketBuffer) : outcome (list Packet) :=
  match bs with
  | [] => mret []
  | b :: r => p ← new PACKET_BUFFER_SIZE b DEFAULT_MESSAGE_HEADROOM; ps ← fresh r; mret (p :: ps)
  end.
(** The packets, which the caller's vector is extended by. *)
Definition get_fresh_packets (n : Z) : M (list Packet) :=
  bs ← gets buffers;
  let nbufs := Z.min (zlen bs) n in
  let keep := Z.to_nat (zlen bs - nbufs) in
  _ ← modify (set_buffers (take keep bs));
  lift (fresh (rev (drop keep bs))).

(** ** Management queues *)

(** [true] when the message was sent, [false] when the queue is full. *)
Definition send_mgmt (m : MgmtDispatchMessage) : M bool := fun w =>
  match try_send (mgmt_dispatch w) (worker_index w) (outstanding (return_q w)) m with
  | inl (q, out) =>
      Ret (true, set_mgmt_dispatch q (set_return_q (mkReturns (incoming (return_q w))
                   (notified (return_q w)) out) w))
  | inr (Full _) => Ret (false, w)
  | inr (Closed _) => Panic
  end.
Definition try_dispatch_mgmt_packet_with_link (p : Packet) : M bool := send_mgmt (WithLink p).
Definition try_dispatch_mgmt_packet_with_addr (peer_sa : SubstrateAddr) (interface_addr : ScopedIpAddr)
    (p : Packet) : M bool := send_mgmt (WithAddr peer_sa interface_addr p).
Definition try_request_tether_id (p : Packet) : M bool := fun w =>
  match try_send (adapter_manager w) (worker_index w) (outstanding (return_q w)) p with
  | inl (q, out) =>
      Ret (true, set_adapter_manager q (set_return_q (mkReturns (incoming (return_q w))
                   (notified (return_q w)) out) w))
  | inr (Full _) => Ret (false, w)
  | inr (Closed _) => Panic
  end.

Section ops.
Context (asm : Shared).

(** ** Capture *)

(** [FlowControl::program_exists] and [check_packet]. *)
Definition program_exists : bool := match flow_control asm with Some _ => true | None => false end.
Definition check_packet (bytes : list Z) : Z :=
  match flow_control asm with Some program => program bytes | None => 0 end.

(** The loop over a batch: packets captured, filtered, and left over when the
    capture queue was full. *)
Fixpoint capture_loop (dir : Direction) (ps : list Packet) (captured filtered : Z) : M (Z * Z * Z) :=
  match ps with
  | [] => mret (captured, filtered, 0)
  | p :: rest =>
      p1 ← lift (push_header [encode_direction dir] p);
      let caplen := check_packet (body p1) in
      if 0 <? caplen then
        c ← gets capture_q;
        '(c', done) ← lift (capture_try_enqueue c (body p1) (capture_time asm) caplen);
        _ ← modify (set_capture_q c');
        if (done : bool) then capture_loop dir rest (captured + 1) filtered
        else mret (captured, filtered, zlen rest)
      else capture_loop dir rest captured (filtered + 1)
  end.

Definition maybe_capture_batch (dir : Direction) (ps : list Packet) : M unit :=
  if negb program_exists then mret tt
  else
    '(captured, filtered, dropped) ← capture_loop dir ps 0 0;
    match dir with
    | Inbound =>
        _ ← count_by InCapPacksWrite captured;
        _ ← count_by InCapPacksDrop dropped;
        count_by InCapPacksFilt filtered
    | Outbound =>
        _ ← count_by OutCapPacksWrite captured;
        _ ← count_by OutCapPacksDrop dropped;
        count_by OutCapPacksFilt filtered
    end.

Definition maybe_capture (dir : Direction) (p : Packet) : M unit := maybe_capture_batch dir [p].

(** ** Decryption *)

Definition decrypt_with_sa (zpi : Z) (sa : PeerTable.KmTransportSA) (p : Packet)
    : outcome (Packet * option DecryptError) :=
  if zpi =? PeerTable.hmac (PeerTable.recv_zpis sa) then decrypt_hmac (PeerTable.recv_hmac_key sa) p
  else if zpi =? PeerTable.encr (PeerTable.recv_zpis sa) then
    decrypt_full (codecs asm (PeerTable.codec sa)) (if km_is_noise asm then NOISE_PADLEN else 0) p
  else dec_err LinkCrypt.UnknownZpi p.

Definition association (link_id : Z) : option PeerTable.KmTransportSA :=
  PeerTable.get (peer_table asm) link_id ≫= PeerTable.get_established_transport_association.

Definition decrypt (zpi : Z) (p : Packet) : outcome (Packet * option DecryptError) :=
  match association (ingress_link_id (metadata p)) with
  | Some sa => decrypt_with_sa zpi sa p
  | None =>
      if negb (zpi =? ZPI_0) && negb (ingress_link_id (metadata p) =? PeerTable.LINK_ID_UNKNOWN)
      then dec_err LinkCrypt.UnknownZpi p
      else decrypt_null p
  end.

(** ** Substrate egress *)

Definition encap_zpi (zpi : Z) (p : Packet) : outcome Packet := push_header [zpi] p.

(** A v4 socket address has none. *)
Definition set_flowinfo (addr : SubstrateAddr) (flowinfo : Z) : Z :=
  if zlen (addr.1) =? 4 then 0 else flowinfo.

(** Draw a nonce from a codec's counter, when it has one. *)
Definition next_nonce (codec : Z) : M Z :=
  n ← gets (fun w => encr_nonce w codec);
  _ ← modify (fun w => set_encr_nonce (fun c => if c =? codec then wrapping_add 64 n 1 else encr_nonce w c) w);
  mret n.

Inductive EgressResult :=
| Egress (dst : SubstrateAddr) (flowinfo : Z) (src : ScopedIpAddr)
| NoPeer
| EgressError (e : EncryptionError).

Definition substrate_egress_common (link_id : Z) (p : Packet) : M (Packet * EgressResult) :=
  match Zdp.read_base (body p) with
  | None => mret (p, EgressError ParseError)
  | Some (hdr, _) =>
      let ty := Zdp.packet_type hdr in
      let transit := ty =? Zdp.TransitPacket in
      match PeerTable.get (peer_table asm) link_id with
      | None => mret (p, NoPeer)
      | Some peer =>
          let sa := if ty =? Zdp.KeyManagement then None
                    else PeerTable.get_established_transport_association peer in
          let real_zpi := match sa with
                          | Some sa => if transit then PeerTable.hmac (PeerTable.send_zpis sa)
                                       else PeerTable.encr (PeerTable.send_zpis sa)
                          | None => ZPI_0
                          end in
          _ ← lift (rust_assert (match sa with Some _ => negb (real_zpi =? ZPI_0) | None => true end));
          p1 ← lift (encap_zpi real_zpi p);
          _ ← maybe_capture Outbound p1;
          r ← match sa with
              | Some sa =>
                  if transit then lift (inl <$> encrypt_hmac (PeerTable.send_hmac_key sa) p1)
                  else
                    n ← next_nonce (PeerTable.codec sa);
                    lift (encrypt_full (codecs asm (PeerTable.codec sa)) n p1)
              | None => lift (inl <$> encrypt_null p1)
              end;
          match r with
          | inl p2 =>
              mret (p2, Egress (PeerTable.substrate_addr peer)
                              (set_flowinfo (PeerTable.substrate_addr peer) (flowhash p2))
                              (PeerTable.interface_addr peer))
          | inr e => mret (p1, EgressError e)
          end
      end
  end.

Definition substrate_egress (p : Packet) : M unit :=
  '(p', r) ← substrate_egress_common (egress_link_id (metadata p)) p;
  match r with
  | Egress dst flowinfo src =>
      _ ← lift (rust_assert (negb (PeerTable.is_unspecified (dst.1))));
      _ ← lift (rust_assert (negb (PeerTable.is_unspecified (src.1))));
      modify (fun w => set_substrate_egress_q (substrate_egress_q w ++ [mkQueued p' dst flowinfo src]) w)
  | NoPeer => drop_and_count p' PeerRemoved
  | EgressError _ => drop_and_count p' EncryptionFailure
  end.

(** ** Between the actor and the substrate *)

Definition micv (key : option (list Z)) (bytes : list Z) : list Z :=
  take (Z.to_nat ZDP_A2A_MAC_SIZE)
    match key with Some k => blake3_keyed_hash k bytes | None => blake3_hash bytes end.

(** Send a compressed actor packet to the actor. *)
Definition actor_input (tether_id : Z) (p : Packet) : M unit :=
  match read_header (Z.of_nat A2A_SAID_SIZE) p with
  | None => drop_and_count p BadStructure
  | Some (a2a_said, p1) =>
      if negb (forallb (fun b => b =? 0) a2a_said) then lift Panic (* todo!("A2A SAID") *)
      else if zlen (body p1) <? ZDP_A2A_MAC_SIZE then drop_and_count p1 BadStructure
      else
        a2a_mac ← lift (slice (body p1) (zlen (body p1) - ZDP_A2A_MAC_SIZE) (zlen (body p1)));
        p2 ← lift (shrink_by ZDP_A2A_MAC_SIZE p1);
        match ForwardingTables.dlt_get (dlt asm) tether_id with
        | None => drop_and_count p2 UnknownStreamId
        | Some pep =>
            p3 ← lift (refront (Compress.expand (Tc.compression_mode (ForwardingTables.dlt_tc pep))
                                 (Tc.five_tuple (ForwardingTables.dlt_tc pep))) p2);
            if bool_decide (micv (ForwardingTables.dlt_micv_key pep) (body p3) = a2a_mac)
            then modify (fun w => set_actor_input_q (actor_input_q w ++ [p3]) w)
            else drop_and_count p3 MicvFailure
        end
  end.

(** Forward actor packets to the tether and vice-versa. *)
Definition adapter_next_hop_link (ingress_link_id : Z) : Z := ingress_link_id mod 2 + 1.

(** Where a compressed packet goes, or why it is dropped. *)
Definition next_hop_of (p : Packet) : (Z * Z) + FastpathCounterType :=
  match ph_mode asm with
  | Adapter => inl (adapter_next_hop_link (ingress_link_id (metadata p)), ingress_stream_id (metadata p))
  | Node =>
      match PeerTable.get (peer_table asm) (ingress_link_id (metadata p)) with
      | None => inr UnknownPeer
      | Some peer =>
          match ForwardingTables.pft_get (PeerTable.pft peer) (ingress_stream_id (metadata p)) with
          | None => inr UnknownStreamId
          | Some pep => inl (ForwardingTables.fe_link (ForwardingTables.next_hop pep),
                             ForwardingTables.fe_stream (ForwardingTables.next_hop pep))
          end
      end
  end.

(** Forward compressed packet. *)
Definition forward (p : Packet) : M unit :=
  match next_hop_of p with
  | inr reason => drop_and_count p reason
  | inl (link, stream) =>
      if link =? PeerTable.LOCAL_ACTOR_LINK_ID then actor_input stream p
      else
        p1 ← lift (push_header (be_bytes 4 stream) p);
        p2 ← lift (push_header (Zdp.base_bytes (Zdp.mkBase Zdp.TransitPacket 0)) p1);
        substrate_egress (on_metadata (set_egress_link_id link) p2)
  end.

(** Post-classification portion of [actor_output]. *)
Definition actor_output_post_classify (p : Packet) (allow_bind_request : bool) : M unit :=
  let ft := five_tuple (metadata p) in
  match elt asm !! ft with
  | None =>
      if negb allow_bind_request then drop_and_count p OtherError
      else
        sent ← try_request_tether_id p;
        if (sent : bool) then count ActorSlowpath else drop_and_count p QueueBackpressure
  | Some (AdapterTables.Active pep) =>
      let a2a_mac := micv (AdapterTables.a2a_micv_key pep) (body p) in
      p1 ← lift (refront (Compress.compress (AdapterTables.pep_compression_mode pep) (l3_type ft)
                           (l4_protocol ft)) p);
      p2 ← lift (put a2a_mac p1);
      p3 ← lift (push_header (replicate A2A_SAID_SIZE 0) p2);
      forward (on_metadata (set_ingress_stream_id (AdapterTables.tether_id pep)) p3)
  | Some (AdapterTables.Pending _ _) => drop_and_count p DroppedAwaitingBind
  end.

(** Decrement the byte at [i] of a header of [n] bytes. *)
Definition decrement_at (n : Z) (i : nat) (p : Packet) : outcome (Packet * bool) :=
  _ ← slice (body p) 0 n;
  let t := Classifier.byte_at (body p) i in
  let t' := if 0 <? t then t - 1 else t in
  b ← write_at (body p) (Z.of_nat i) [t'];
  mret (mkPacket (buf p) (metadata p) (headroom p) b (tailroom p), t' =? 0).

Definition decrement_ttl (p : Packet) : outcome (Packet * bool) :=
  if l3_type (five_tuple (metadata p)) =? Ipv4 then decrement_at Classifier.IPV4_HEADER 8 p
  else if l3_type (five_tuple (metadata p)) =? Ipv6 then decrement_at Classifier.IPV6_HEADER 7 p
  else mret (p, false).

(** Process uncompressed packet from the actor. *)
Definition actor_output (p0 : Packet) : M unit :=
  lane ← gets (fun w => wrap 8 (worker_index w));
  let p := on_metadata (fun m => set_ingress_lane_id lane
                          (set_ingress_link_id PeerTable.LOCAL_ACTOR_LINK_ID m)) p0 in
  '(ft, r) ← lift (Classifier.classify (five_tuple (metadata p)) (body p));
  let p := on_metadata (set_five_tuple ft) p in
  match r with
  | inr _ => drop_and_count p InPacksDrop
  | inl (Classifier.OK | Classifier.UnclassifiedL4) =>
      '(p, expired) ← lift (decrement_ttl p);
      if (expired : bool) then drop_and_count p TtlExpired
      else actor_output_post_classify p true
  | inl _ => drop_and_count p InPacksDrop
  end.

(** ** From the substrate *)

(** Hand a packet to management, or drop it. *)
Definition dispatched (sent : M bool) (p : Packet) : M unit :=
  ok ← sent;
  if (ok : bool) then count DispatchedToMgmt else drop_and_count p QueueBackpressure.

(** The part of [substrate_ingress] after decryption, the packet still having its ZPI. *)
Definition ingress_decrypted (peer_sa : SubstrateAddr) (interface_addr : ScopedIpAddr) (zpi : Z)
    (p : Packet) : M unit :=
  match read_header ZPI_HDR p with
  | None => drop_and_count p BadStructure
  | Some (_, p1) =>
      if ingress_link_id (metadata p1) =? PeerTable.LINK_ID_UNKNOWN
      then dispatched (try_dispatch_mgmt_packet_with_addr peer_sa interface_addr p1) p1
      else match Zdp.read_base (body p1), read_header 2 p1 with
      | Some (hdr, _), Some (_, p2) =>
          let ty := Zdp.packet_type hdr in
          if (zpi =? ZPI_0) && negb (ty =? Zdp.KeyManagement) then drop_and_count p2 OtherError
          else if negb (ty =? Zdp.TransitPacket) then
            p3 ← lift (push_header (Zdp.base_bytes hdr) p2);
            dispatched (try_dispatch_mgmt_packet_with_link p3) p3
          else match read_header 4 p2 with
               | None => drop_and_count p2 BadStructure
               | Some (stream, p3) => forward (on_metadata (set_ingress_stream_id (from_be stream)) p3)
               end
      | _, _ => drop_and_count p1 BadStructure
      end
  end.

(** Process packet ingressing from the specified address. *)
Definition substrate_ingress (peer_sa : SubstrateAddr) (interface_addr : ScopedIpAddr) (p0 : Packet)
    : M unit :=
  let p := on_metadata (set_ingress_link_id
                          (default 0 (PeerTable.lookup_peer (peer_table asm) peer_sa interface_addr))) p0 in
  match body p with
  | [] => drop_and_count p BadStructure
  | zpi :: _ =>
      '(p1, e) ← lift (decrypt zpi p);
      match e with
      | Some err => drop_and_count p1 (counter_of err)
      | None =>
          _ ← maybe_capture Inbound p1;
          ingress_decrypted peer_sa interface_addr zpi p1
      end
  end.

End ops.

Definition substrate_egress_packets_queued (w : Worker) : bool :=
  negb (bool_decide (substrate_egress_q w = [])).

Definition aggregate : M unit := fun w =>
  total ← index (fastpaths w) (worker_index w);
  Ret (tt, set_batch_counters no_counts
             (set_fastpaths (<[Z.to_nat (worker_index w) := aggregate_counters total (batch_counters w)]>
                               (fastpaths w)) w)).

(** [FastpathWorker::new], given the buffers and what is shared. *)
Definition worker_new (index batch bufcount : Z) (bufs : list PacketBuffer)
    (md : Chan (MgmtDispatchMessage * Z)) (am : Chan (Packet * Z)) (c : Capture) (nonces : Z -> Z)
    (totals : list FastpathCounters) : Worker :=
  mkWorker index batch bufcount bufs no_counts returns_new [] [] md am c nonces
    (totals ++ replicate (Z.to_nat (index + 1) - length totals) no_counts).

End fastpath.
Arguments Shared slab : clear implicits.
End Fastpath.
