(* ===== verification/FastpathProps.v ===== *)
(** * What becomes of a packet in the fast path

    Rules to run the worker's operations, the five ways in which an operation can
    leave the packet it was given, and that every operation leaves it in exactly
    one of them. *)
From Stdlib Require Import ZArith Lia.
From stdpp Require Import base tactics option list gmap.
From S2P Require Import Prelude Slab NetDefs Classifier Compress Tc AdapterTables ForwardingTables PacketBuf Pkt Queues Zdp PeerTable Assembly LinkCrypt LinkCryptProps Fastpath.
From stdpp Require Import list.
Import PacketBuf(Layout, md_size).
Import Pkt Queues LinkCrypt LinkCryptProps Fastpath.

Local Open Scope Z_scope.

Module FastpathProps.

(** ** Fates *)

Definition is_capture (c : FastpathCounterType) : bool :=
  match c with
  | InCapPacksWrite | OutCapPacksWrite | InCapPacksDrop | OutCapPacksDrop | InCapPacksFilt
  | OutCapPacksFilt => true
  | _ => false
  end.

(** The states differ at most in what capture and the codecs keep. *)
Record quiet (w w' : Worker) : Prop := {
  q_worker_index : worker_index w = worker_index w';
  q_batch_size : batch_size w = batch_size w';
  q_buffer_count : buffer_count w = buffer_count w';
  q_buffers : buffers w = buffers w';
  q_counters : forall c, is_capture c = false -> batch_counters w c = batch_counters w' c;
  q_return_q : return_q w = return_q w';
  q_actor_input_q : actor_input_q w = actor_input_q w';
  q_substrate_egress_q : substrate_egress_q w = substrate_egress_q w';
  q_mgmt_dispatch : mgmt_dispatch w = mgmt_dispatch w';
  q_adapter_manager : adapter_manager w = adapter_manager w';
  q_worker_gone : worker_gone (capture_q w) = worker_gone (capture_q w');
  q_fastpaths : fastpaths w = fastpaths w'
}.

#[export] Instance quiet_equiv : Equivalence quiet.
Proof.
  split.
  - intros w. by split.
  - intros w w' []. split; try congruence. intros c Hc. by rewrite q_counters0.
  - intros w1 w2 w3 [] []. split; try congruence. intros c Hc. rewrite q_counters0 by done. auto.
Qed.

Definition incr (c : FastpathCounterType) (w : Worker) : Worker :=
  set_batch_counters (increase_by c 1 (batch_counters w)) w.
(** One more item of this worker's is out. *)
Definition one_out (w : Worker) : Worker :=
  set_return_q (mkReturns (incoming (return_q w)) (notified (return_q w))
                  (wrapping_add 64 (outstanding (return_q w)) 1)) w.
Definition enqueue {A} (x : A) (q : Chan A) : Chan A := mkChan (items q ++ [x]) (capacity q) (closed q).

(** What can become of a packet: it waits for the actor or the substrate, it was
    handed to management or to the adapter manager, or it was dropped. *)
Inductive fate :=
| ToActor (p : Packet)
| ToSubstrate (q : QueuedEgressPacket)
| ToMgmt (m : MgmtDispatchMessage)
| ToAdapter (p : Packet)
| Dropped (b : PacketBuffer) (reason : FastpathCounterType).

Definition buffer_of (f : fate) : Z :=
  match f with
  | ToActor p | ToAdapter p => buf p
  | ToSubstrate q => buf (q_pkt q)
  | ToMgmt m => buf_id (convert_dispatch m)
  | Dropped b _ => buf_id b
  end.

(** The worker's state after that. *)
Definition after (f : fate) (w : Worker) : Worker :=
  match f with
  | ToActor p => set_actor_input_q (actor_input_q w ++ [p]) w
  | ToSubstrate q => set_substrate_egress_q (substrate_egress_q w ++ [q]) w
  | ToMgmt m => incr DispatchedToMgmt (one_out (set_mgmt_dispatch (enqueue (m, worker_index w) (mgmt_dispatch w)) w))
  | ToAdapter p => incr ActorSlowpath (one_out (set_adapter_manager (enqueue (p, worker_index w) (adapter_manager w)) w))
  | Dropped b reason => incr reason (set_buffers (buffers w ++ [b]) w)
  end.

(** [w'] is [w] after a packet in buffer [b] met a fate. *)
Definition handled (b : Z) (w w' : Worker) : Prop :=
  exists f, buffer_of f = b /\ quiet (after f w) w'.

Lemma incr_quiet c : Proper (quiet ==> quiet) (incr c).
Proof.
  intros w w' []. split; try done. intros x Hx. cbn. unfold increase_by.
  case_bool_decide; [|auto]. by rewrite q_counters0.
Qed.

Lemma after_quiet f : Proper (quiet ==> quiet) (after f).
Proof.
  intros w w' Q. destruct f; cbn [after]; try apply incr_quiet; destruct Q; split; cbn; try done; try congruence.
Qed.

#[export] Instance handled_quiet b : Proper (quiet ==> quiet ==> iff) (handled b).
Proof.
  intros w1 w2 Q1 w3 w4 Q2. split; intros (f & Hb & Hf); exists f; (split; [done|]).
  - rewrite <- Q2, <- Hf. symmetry. by apply after_quiet.
  - rewrite Q2, <- Hf. by apply after_quiet.
Qed.

(** ** Running operations *)

Section wp.
Context (P : Prop).

(** [m] ends in [Q], or panics and [P] holds. *)
Definition wp {A} (m : M A) (w : Worker) (Q : A -> Worker -> Prop) : Prop :=
  match m w with Ret (a, w') => Q a w' | Panic => P end.

Lemma tr_ret {A} (a : A) w (Q : A -> Worker -> Prop) : Q a w -> wp (mret a) w Q.
Proof. done. Qed.
Lemma tr_bind {A B} (m : M A) (f : A -> M B) w Q :
  wp m w (fun a w' => wp (f a) w' Q) -> wp (m ≫= f) w Q.
Proof. unfold wp, mbind, M_bind. destruct (m w) as [[a w']|]; done. Qed.
Lemma tr_lift {A} (o : outcome A) w (Q : A -> Worker -> Prop) :
  match o with Ret a => Q a w | Panic => P end -> wp (lift o) w Q.
Proof. unfold wp, lift. by destruct o. Qed.
Lemma tr_gets {A} (f : Worker -> A) w (Q : A -> Worker -> Prop) : Q (f w) w -> wp (gets f) w Q.
Proof. done. Qed.
Lemma tr_modify f w (Q : unit -> Worker -> Prop) : Q tt (f w) -> wp (modify f) w Q.
Proof. done. Qed.
Lemma tr_mono {A} (m : M A) w (Q Q' : A -> Worker -> Prop) :
  wp m w Q -> (forall a w', Q a w' -> Q' a w') -> wp m w Q'.
Proof. unfold wp. destruct (m w) as [[a w']|]; auto. Qed.

Lemma tr_drop p reason w (Q : unit -> Worker -> Prop) :
  Q tt (after (Dropped (destroy p) reason) w) -> wp (drop_and_count p reason) w Q.
Proof. done. Qed.

Lemma dropped p reason b w : buf p = b -> wp (drop_and_count p reason) w (fun _ w' => handled b w w').
Proof. intros <-. apply tr_drop. by exists (Dropped (destroy p) reason). Qed.

(** A handler that works on a state that differs only quietly. *)
Lemma tr_quiet {A} (m : M A) b w w1 :
  quiet w w1 -> wp m w1 (fun _ w' => handled b w1 w') -> wp m w1 (fun _ w' => handled b w w').
Proof. intros Q Hm. eapply tr_mono; [exact Hm|]. intros a w' Hh. by rewrite Q. Qed.

End wp.

Lemma tr_weaken (P P' : Prop) {A} (m : M A) w Q : (P -> P') -> wp P m w Q -> wp P' m w Q.
Proof. unfold wp. destruct (m w) as [[a w']|]; auto. Qed.

(** Run the next operation of a computation. *)
Ltac fp_step :=
  lazymatch goal with
  | |- wp _ (_ ≫= _) _ _ => apply tr_bind
  | |- wp _ (mret _) _ _ => apply tr_ret
  | |- wp _ (gets _) _ _ => apply tr_gets
  | |- wp _ (modify _) _ _ => apply tr_modify
  | |- wp _ (count_by _ _) _ _ => apply tr_modify
  | |- wp _ (count _) _ _ => apply tr_modify
  | |- wp _ (lift (mret _)) _ _ => apply tr_lift
  | |- wp _ (lift ?o) _ _ => let E := fresh "E" in apply tr_lift; destruct o eqn:E
  end; cbv beta.

(** ** Operations on packets keep their buffer and metadata *)

Definition same (p p' : Packet) : Prop := buf p' = buf p /\ metadata p' = metadata p.

Lemma push_same hdr p p' : push_header hdr p = Ret p' -> same p p'.
Proof. unfold push_header, rust_assert. destruct (_ <=? _); [|done]. intros [= <-]. by split. Qed.
Lemma put_same xs p p' : put xs p = Ret p' -> same p p'.
Proof. unfold put, rust_assert. destruct (_ <=? _); [|done]. intros [= <-]. by split. Qed.
Lemma shrink_same n p p' : shrink_by n p = Ret p' -> same p p'.
Proof. unfold shrink_by, rust_assert. destruct (_ <=? _); [|done]. intros [= <-]. by split. Qed.
Lemma refront_same f p p' : refront f p = Ret p' -> same p p'.
Proof.
  unfold refront, rust_assert. destruct (f (body p)) as [b|]; [|done]. rewrite bind_Ret. cbv zeta.
  destruct (_ <=? _); [|done]. intros [= <-]. by split.
Qed.
Lemma read_same n p h p' : read_header n p = Some (h, p') -> same p p'.
Proof. unfold read_header. destruct (_ <? _); [done|]. intros [= <- <-]. by split. Qed.
Lemma adopt_same n out p p' : adopt_tailroom_with_header n out p = Ret p' -> same p p'.
Proof.
  unfold adopt_tailroom_with_header, rust_assert. destruct (n <=? zlen (body p)); [|done]. rewrite bind_Ret.
  destruct (_ <=? _); [|done]. intros [= <-]. by split.
Qed.
Lemma same_trans p1 p2 p3 : same p1 p2 -> same p2 p3 -> same p1 p3.
Proof. intros [E1 F1] [E2 F2]. split; congruence. Qed.

#[export] Hint Resolve push_same put_same shrink_same refront_same read_same adopt_same : zpr.

Lemma push_panics hdr p : push_header hdr p = Panic -> headroom p < zlen hdr.
Proof. unfold push_header, rust_assert. destruct (Z.leb_spec (zlen hdr) (headroom p)); done. Qed.
Lemma put_panics xs p : put xs p = Panic -> tailroom p < zlen xs.
Proof. unfold put, rust_assert. destruct (Z.leb_spec (zlen xs) (tailroom p)); done. Qed.

Section crypt.
Context `{NetDefs} `{Ciphers}.

Lemma encrypt_null_same p p' : encrypt_null p = Ret p' -> same p p'.
Proof. unfold encrypt_null. destruct (after_zpi p); [|done]. rewrite bind_Ret. apply put_same. Qed.
Lemma encrypt_hmac_same k p p' : encrypt_hmac k p = Ret p' -> same p p'.
Proof. apply put_same. Qed.
Lemma encrypt_full_same c n p p' : encrypt_full c n p = Ret (inl p') -> same p p'.
Proof.
  unfold encrypt_full. destruct (_ <? _); [done|]. destruct (after_zpi p) as [pl|]; [|done].
  rewrite bind_Ret. destruct (_ <=? _).
  - destruct (encrypt_transport_stateless _ _ _ _) as [[out|]|]; [| |done]; rewrite bind_Ret; [|done].
    destruct (adopt_tailroom_with_header _ _ _) as [p1|] eqn:E; [|done]. intros [= <-]. by eapply adopt_same.
  - destruct (encrypt_transport_stateless _ _ _ _) as [[out|]|]; [| |done]; rewrite bind_Ret; [|done].
    destruct (shrink_by _ _) as [p1|] eqn:E1; [|done]. rewrite bind_Ret.
    destruct (put _ _) as [p2|] eqn:E2; [|done]. intros [= <-].
    eapply same_trans; [by eapply shrink_same|by eapply put_same].
Qed.

Lemma decrypt_null_same p p' e : decrypt_null p = Ret (p', e) -> same p p'.
Proof.
  unfold decrypt_null, dec_err, dec_ok. destruct (_ <? _); [intros [= <- <-]; by split|].
  destruct (after_zpi p); [|done]. rewrite bind_Ret. destruct (negb _); [intros [= <- <-]; by split|].
  destruct (shrink_by _ _) as [p1|] eqn:E; [|done]. intros [= <- <-]. by eapply shrink_same.
Qed.
Lemma decrypt_hmac_same k p p' e : decrypt_hmac k p = Ret (p', e) -> same p p'.
Proof.
  unfold decrypt_hmac, dec_err, dec_ok. destruct (_ <? _); [intros [= <- <-]; by split|].
  destruct (slice _ _ _); [|done]. rewrite bind_Ret.
  destruct (shrink_by _ _) as [p1|] eqn:E; [|done]. rewrite bind_Ret.
  case_bool_decide; intros [= <- <-]; by eapply shrink_same.
Qed.
Lemma decrypt_full_same c pad p p' e : decrypt_full c pad p = Ret (p', e) -> same p p'.
Proof.
  unfold decrypt_full, dec_err, dec_ok. destruct (_ <? _); [intros [= <- <-]; by split|].
  destruct (_ <? _); [intros [= <- <-]; by split|]. destruct (after_zpi p) as [pl|]; [|done].
  rewrite bind_Ret. destruct (_ <=? _).
  - destruct (decrypt_transport_stateless _ _ _) as [out|]; [|intros [= <- <-]; by split].
    destruct (adopt_tailroom_with_header _ _ _) as [p1|] eqn:E; [|done]. intros [= <- <-]. by eapply adopt_same.
  - destruct (decrypt_transport_stateless _ _ _) as [out|]; [|intros [= <- <-]; by split].
    destruct (shrink_by _ _) as [p1|] eqn:E1; [|done]. rewrite bind_Ret.
    destruct (put _ _) as [p2|] eqn:E2; [|done]. intros [= <- <-].
    eapply same_trans; [by eapply shrink_same|by eapply put_same].
Qed.

(** When the encryptions panic. *)
Lemma encrypt_null_panics p : encrypt_null p = Panic -> body p <> [] -> tailroom p < 2.
Proof.
  intros E Hb. destruct (body p) as [|z r] eqn:Eb; [done|]. unfold encrypt_null in E.
  rewrite (after_zpi_ok p z r Eb), bind_Ret in E. apply put_panics in E.
  eapply Z.lt_le_trans; [exact E|].
  assert (zlen (be_bytes 2 (ip4sum_checksum r)) = 2) as Hz by (unfold zlen; by rewrite length_be_bytes).
  destruct (_ =? 0); [lia|]. revert Hz. generalize (be_bytes 2 (ip4sum_checksum r)).
  intros [|? [|? [|? ?]]] Hz; cbn [swap_bytes]; rewrite ?zlen_cons in *; lia.
Qed.
Lemma encrypt_hmac_panics k p : encrypt_hmac k p = Panic -> tailroom p < ZDP_PACKET_MAC_SIZE.
Proof. intros E. apply put_panics in E. by rewrite zlen_mac in E. Qed.

Lemma encrypt_transport_panics c n pl room :
  encrypt_transport_stateless c n pl room = Panic -> 0 <= n < 2 ^ 64 - 1 ->
  zlen pl + NOISE_PADLEN <= 65535 -> zlen pl + max_overhead c <= room -> False.
Proof.
  intros E Hn Hl Hr. pose proof (zlen_nonneg pl). destruct c as [s| |]; cbn in E; try done.
  unfold max_overhead, NOISE_PADLEN, NOISE_NONCE_LEN, rust_assert in *.
  rewrite (proj2 (Z.leb_le _ _)), bind_Ret in E by lia.
  destruct (write_ok s n pl (room - 8)) as (out & Hw & _); [done|lia|lia|]. by rewrite Hw in E.
Qed.

Lemma encrypt_transport_length c n pl room out :
  encrypt_transport_stateless c n pl room = Ret (inl out) -> zlen out <= room /\ zlen out <= zlen pl + max_overhead c.
Proof.
  destruct c as [s| |]; cbn; [|destruct (Z.ltb_spec room (zlen pl))|]; unfold rust_assert.
  - destruct (Z.leb_spec NOISE_NONCE_LEN room); [|done]. rewrite bind_Ret.
    destruct (write_message _ _ _ _) as [o|[]] eqn:E; [|done..]. intros [= <-].
    apply write_fits in E. change (zlen (be_bytes 8 n ++ o) <= room /\ zlen (be_bytes 8 n ++ o) <= zlen pl + NOISE_PADLEN).
    rewrite zlen_app.
    assert (zlen (be_bytes 8 n) = 8) by (unfold zlen; by rewrite length_be_bytes).
    unfold NOISE_PADLEN, NOISE_NONCE_LEN in *. lia.
  - done.
  - intros [= <-]. lia.
  - done.
Qed.

Lemma encrypt_full_panics c n p :
  encrypt_full c n p = Panic -> 0 <= n < 2 ^ 64 - 1 ->
  NOISE_PADLEN <= tailroom p -> zlen (body p) + tailroom p <= PACKET_BUFFER_SIZE -> False.
Proof.
  intros E Hn Ht Hs. unfold encrypt_full in E. destruct (Z.ltb_spec (zlen (body p)) ZPI_HDR); [done|].
  destruct (body p) as [|z r] eqn:Eb; [done|]. rewrite (after_zpi_ok p z r Eb), bind_Ret in E.
  rewrite zlen_cons in *. pose proof (zlen_nonneg r).
  assert (max_overhead c <= NOISE_PADLEN) as Hov by (unfold max_overhead, NOISE_PADLEN, NOISE_NONCE_LEN; destruct c; lia).
  unfold ZPI_HDR, PACKET_BUFFER_SIZE, NOISE_PADLEN, NOISE_NONCE_LEN in *.
  replace (1 + zlen r - 1) with (zlen r) in E by lia.
  destruct (Z.leb_spec (zlen r + max_overhead c) (tailroom p)).
  - destruct (encrypt_transport_stateless c n r (tailroom p)) as [[out|e]|] eqn:Ec.
    + rewrite bind_Ret in E. apply encrypt_transport_length in Ec as [? _]. change 1 with ZPI_HDR in E.
      by rewrite (adopt_ok p z r) in E.
    + done.
    + eapply encrypt_transport_panics; try done. unfold NOISE_PADLEN, NOISE_NONCE_LEN. lia.
  - destruct (encrypt_transport_stateless c n r (4096 * 3)) as [[out|e]|] eqn:Ec.
    + rewrite bind_Ret, (shrink_ok p [z] r), bind_Ret in E by done.
      apply encrypt_transport_length in Ec as [_ ?].
      rewrite put_ok in E by (cbn [tailroom resize]; lia). done.
    + done.
    + eapply encrypt_transport_panics; try done; unfold NOISE_PADLEN, NOISE_NONCE_LEN; lia.
Qed.

End crypt.

End FastpathProps.
