(* ===== verification/FastpathFates.v ===== *)
(** * Every packet meets one fate

    For each operation of the fast path: it leaves its packet in exactly one
    place, and it panics only for the reasons listed. *)
From Stdlib Require Import ZArith Lia.
From stdpp Require Import base tactics option list gmap.
From S2P Require Import Prelude Slab NetDefs Classifier Compress Tc AdapterTables ForwardingTables PacketBuf Pkt Queues Zdp PeerTable Assembly LinkCrypt LinkCryptProps Fastpath FastpathProps.
From stdpp Require Import list.
Import PacketBuf(Layout, md_size).
Import Pkt Queues LinkCrypt LinkCryptProps Fastpath FastpathProps.

Local Open Scope Z_scope.

Module FastpathFates.

Section fates.
Context `{NetDefs} `{Layout} `{Ciphers} {slab : Type -> Type} `{SlabOps slab}.
Context (A2A_SAID_SIZE : nat) (asm : Shared slab).

(** ** Capture *)

Lemma capture_enqueue_cases c bytes time len :
  0 < len ->
  match capture_try_enqueue c bytes time len with
  | Ret (c', _) => worker_gone c' = worker_gone c
  | Panic => worker_gone c = true
  end.
Proof.
  intros Hl. unfold capture_try_enqueue. destruct (worker_gone c) eqn:E; [done|].
  pose proof (zlen_nonneg bytes).
  destruct (slice_lt bytes 0 (Z.min (Z.min len (zlen bytes)) MAX_CAPTURE_LEN)) as [x Hx];
    [unfold MAX_CAPTURE_LEN, PACKET_BUFFER_SIZE, PCAPREC_HDR; lia|lia|].
  destruct (contended c) as [|[] rest]; [|done|]; (destruct (last (free c)); [|done]); cbv zeta; by rewrite Hx.
Qed.

Lemma count_quiet c n w : is_capture c = true -> quiet w (set_batch_counters (increase_by c n (batch_counters w)) w).
Proof.
  intros Hc. split; try done. intros x Hx. cbn. unfold increase_by. case_bool_decide; [congruence|done].
Qed.

Lemma capture_loop_ok dir p w :
  wp (headroom p < 1 \/ worker_gone (capture_q w) = true) (capture_loop asm dir [p] 0 0) w
    (fun _ w' => quiet w w' /\ encr_nonce w' = encr_nonce w).
Proof.
  cbn [capture_loop]. fp_step. fp_step; [|left; by apply push_panics in E].
  destruct (Z.ltb_spec 0 (check_packet asm (body a))); [|done].
  do 2 fp_step. fp_step.
  pose proof (capture_enqueue_cases (capture_q w) (body a) (capture_time asm) (check_packet asm (body a)) H3) as C.
  fp_step; [|by right]. destruct a0 as [c' ok]. do 2 fp_step.
  assert (quiet w (set_capture_q c' w)) by (split; done). by destruct ok.
Qed.

Lemma capture_ok dir p w :
  wp (program_exists asm = true /\ (headroom p < 1 \/ worker_gone (capture_q w) = true))
    (maybe_capture asm dir p) w (fun _ w' => quiet w w' /\ encr_nonce w' = encr_nonce w).
Proof.
  unfold maybe_capture, maybe_capture_batch. destruct (program_exists asm); [|done]. cbn [negb]. fp_step.
  apply (tr_weaken (headroom p < 1 \/ worker_gone (capture_q w) = true)); [done|].
  eapply tr_mono; [apply capture_loop_ok|]. intros [[c f] d] w' [Q En].
  destruct dir; repeat fp_step; (split; [|exact En]);
    (etransitivity; [exact Q|]); repeat (etransitivity; [|by apply count_quiet]); done.
Qed.

(** ** Substrate egress *)

Definition is_transit (p : Packet) : bool :=
  match Zdp.read_base (body p) with Some (h, _) => Zdp.packet_type h =? Zdp.TransitPacket | None => false end.

(** The room that protecting a packet can take after it. *)
Definition egress_tailroom (p : Packet) : Z := if is_transit p then ZDP_PACKET_MAC_SIZE else NOISE_PADLEN.

(** Why sending a packet over a link can panic: no room for the ZPI and the
    capture header before it or the protection after it, a capture worker that
    ended, a peer that asked for ZPI 0, a link without an address, a codec out of
    nonces. *)
Inductive egress_trouble (w : Worker) (link : Z) (p : Packet) : Prop :=
| no_headroom : headroom p < 2 -> egress_trouble w link p
| no_tailroom : tailroom p < egress_tailroom p -> egress_trouble w link p
| oversize : is_transit p = false -> PACKET_BUFFER_SIZE <= zlen (body p) + tailroom p -> egress_trouble w link p
| capture_gone : program_exists asm = true -> worker_gone (capture_q w) = true -> egress_trouble w link p
| zero_zpi peer sa : PeerTable.get (peer_table asm) link = Some peer ->
    PeerTable.get_established_transport_association peer = Some sa ->
    PeerTable.hmac (PeerTable.send_zpis sa) = ZPI_0 \/ PeerTable.encr (PeerTable.send_zpis sa) = ZPI_0 ->
    egress_trouble w link p
| no_address peer : PeerTable.get (peer_table asm) link = Some peer ->
    PeerTable.is_unspecified (PeerTable.substrate_addr peer).1 = true \/
    PeerTable.is_unspecified (PeerTable.interface_addr peer).1 = true -> egress_trouble w link p
| no_nonce peer sa : PeerTable.get (peer_table asm) link = Some peer ->
    PeerTable.get_established_transport_association peer = Some sa ->
    is_transit p = false -> ~ 0 <= encr_nonce w (PeerTable.codec sa) < 2 ^ 64 - 1 -> egress_trouble w link p.

Lemma egress_common_ok link p w :
  wp (egress_trouble w link p) (substrate_egress_common asm link p) w
    (fun '(p', r) w' => buf p' = buf p /\ quiet w w' /\
       match r with
       | Egress dst _ src => exists peer, PeerTable.get (peer_table asm) link = Some peer /\
           dst = PeerTable.substrate_addr peer /\ src = PeerTable.interface_addr peer
       | _ => True
       end).
Proof.
  unfold substrate_egress_common. destruct (Zdp.read_base (body p)) as [[hdr rest]|] eqn:Eb; [|done].
  destruct (PeerTable.get (peer_table asm) link) as [peer|] eqn:Ep; [|done]. cbv zeta.
  assert (is_transit p = (Zdp.packet_type hdr =? Zdp.TransitPacket)) as Et by (unfold is_transit; by rewrite Eb).
  set (osa := if Zdp.packet_type hdr =? Zdp.KeyManagement then None else
    PeerTable.get_established_transport_association peer).
  assert (forall sa, osa = Some sa -> PeerTable.get_established_transport_association peer = Some sa) as Hsa.
  { intros sa. unfold osa. destruct (Zdp.packet_type hdr =? Zdp.KeyManagement); [discriminate|auto]. }
  clearbody osa. fp_step. fp_step.
  2: { unfold rust_assert in E. destruct osa as [sa|]; [|done]. specialize (Hsa sa eq_refl).
    eapply zero_zpi; try done. destruct (_ =? Zdp.TransitPacket).
    - left. by destruct (Z.eqb_spec (PeerTable.hmac (PeerTable.send_zpis sa)) ZPI_0).
    - right. by destruct (Z.eqb_spec (PeerTable.encr (PeerTable.send_zpis sa)) ZPI_0). }
  clear E a. fp_step. fp_step; [|apply push_panics in E; unfold zlen in E; cbn [length] in E; apply no_headroom; lia].
  rename a into p1. pose proof (push_same _ _ _ E) as [Hb1 _].
  assert (headroom p1 = headroom p - 1 /\ tailroom p1 = tailroom p /\ zlen (body p1) = 1 + zlen (body p) /\
          body p1 <> []) as (Hh & Ht & Hz & Hne).
  { unfold encap_zpi, push_header, rust_assert in E. destruct (_ <=? _); [|done]. injection E as <-. cbn.
    unfold zlen. cbn. repeat split; lia || done. }
  fp_step. eapply tr_weaken; [|eapply tr_mono; [apply capture_ok|]].
  { intros [Hpr [Hl|Hg]]; [apply no_headroom; lia|by apply capture_gone]. }
  intros _ w1 [Q1 En]. cbv beta. fp_step.
  destruct osa as [sa|].
  - specialize (Hsa sa eq_refl). destruct (Zdp.packet_type hdr =? Zdp.TransitPacket) eqn:Ety.
    + fp_step; [|destruct (encrypt_hmac _ p1) eqn:Em; [done|]; apply encrypt_hmac_panics in Em;
        apply no_tailroom; unfold egress_tailroom; rewrite Et; lia].
      destruct (encrypt_hmac _ p1) as [p2|] eqn:Em; [|done]. injection E0 as <-.
      apply encrypt_hmac_same in Em as [Hb2 _]. fp_step. split; [congruence|]. split; [done|]. eauto.
    + unfold next_nonce. do 6 fp_step. fp_step.
      2: { destruct (decide (0 <= encr_nonce w (PeerTable.codec sa) < 2 ^ 64 - 1)); [|eapply no_nonce; [done|done|by rewrite Et|done]].
        destruct (decide (NOISE_PADLEN <= tailroom p)); [|apply no_tailroom; unfold egress_tailroom; rewrite Et; lia].
        destruct (decide (zlen (body p) + tailroom p < PACKET_BUFFER_SIZE)); [|apply oversize; [done|lia]].
        exfalso. eapply encrypt_full_panics; [exact E0|by rewrite En|lia|lia]. }
      destruct a as [p2|e]; fp_step.
      * apply encrypt_full_same in E0 as [Hb2 _]. split; [congruence|]. split; [|eauto].
        etransitivity; [exact Q1|by split].
      * split; [done|]. split; [|done]. etransitivity; [exact Q1|by split].
  - fp_step; [|destruct (encrypt_null p1) eqn:Em; [done|]; apply encrypt_null_panics in Em; [|done];
      apply no_tailroom; unfold egress_tailroom, ZDP_PACKET_MAC_SIZE, NOISE_PADLEN, NOISE_NONCE_LEN;
      destruct (is_transit p); lia].
    destruct (encrypt_null p1) as [p2|] eqn:Em; [|done]. injection E0 as <-.
    apply encrypt_null_same in Em as [Hb2 _]. fp_step. split; [congruence|]. split; [done|]. eauto.
Qed.

Lemma substrate_egress_ok p w :
  wp (egress_trouble w (egress_link_id (metadata p)) p) (substrate_egress asm p) w
    (fun _ w' => handled (buf p) w w').
Proof.
  unfold substrate_egress. fp_step. eapply tr_mono; [apply egress_common_ok|].
  intros [p' r] w1 (Hb & Q1 & Hr). apply tr_quiet; [done|]. destruct r as [dst fi src| |e].
  - destruct Hr as (peer & Hp & -> & ->). do 2 fp_step.
    2: { eapply no_address; [done|]. left. revert E. unfold rust_assert. by destruct (PeerTable.is_unspecified (PeerTable.substrate_addr peer).1). }
    do 2 fp_step.
    2: { eapply no_address; [done|]. right. revert E0. unfold rust_assert. by destruct (PeerTable.is_unspecified (PeerTable.interface_addr peer).1). }
    fp_step. by exists (ToSubstrate (mkQueued p' (PeerTable.substrate_addr peer) fi (PeerTable.interface_addr peer))).
  - by apply dropped.
  - by apply dropped.
Qed.

(** ** Towards the actor *)

(** The packet without its A2A header and MAC, if it is long enough. *)
Definition stripped (p : Packet) : option Packet :=
  '(_, p1) ← read_header (Z.of_nat A2A_SAID_SIZE) p;
  if zlen (body p1) <? ZDP_A2A_MAC_SIZE then None
  else match shrink_by ZDP_A2A_MAC_SIZE p1 with Ret p2 => Some p2 | Panic => None end.

(** Why handing a packet to the actor can panic: an A2A association it names, or
    a body that cannot be expanded. *)
Inductive input_trouble (tether : Z) (p : Packet) : Prop :=
| names_a2a_said said p1 : read_header (Z.of_nat A2A_SAID_SIZE) p = Some (said, p1) ->
    forallb (fun b => b =? 0) said = false -> input_trouble tether p
| cannot_expand p2 pep : stripped p = Some p2 -> ForwardingTables.dlt_get (dlt asm) tether = Some pep ->
    refront (Compress.expand (Tc.compression_mode (ForwardingTables.dlt_tc pep))
               (Tc.five_tuple (ForwardingTables.dlt_tc pep))) p2 = Panic -> input_trouble tether p.

Lemma shrink_total n p : 0 <= n <= zlen (body p) -> exists p', shrink_by n p = Ret p'.
Proof. intros Hn. unfold shrink_by, rust_assert. rewrite (proj2 (Z.leb_le _ _)) by lia. by eexists. Qed.

Lemma actor_input_ok tether p w :
  wp (input_trouble tether p) (actor_input A2A_SAID_SIZE asm tether p) w (fun _ w' => handled (buf p) w w').
Proof.
  unfold actor_input. destruct (read_header _ p) as [[said p1]|] eqn:Er; [|by apply dropped].
  pose proof (read_same _ _ _ _ Er) as [Hb1 _].
  destruct (forallb _ said) eqn:Es; cbn [negb]; [|by apply tr_lift; eapply names_a2a_said].
  destruct (Z.ltb_spec (zlen (body p1)) ZDP_A2A_MAC_SIZE); [by apply dropped|].
  unfold ZDP_A2A_MAC_SIZE in *. do 2 fp_step.
  2: { destruct (slice_lt (body p1) (zlen (body p1) - 8) (zlen (body p1))); [lia|lia|congruence]. }
  do 2 fp_step; [|destruct (shrink_total 8 p1); [lia|congruence]]. rename a into mac, a0 into p2.
  pose proof (shrink_same _ _ _ E0) as [Hb2 _].
  destruct (ForwardingTables.dlt_get _ _) as [pep|] eqn:Ed; [|apply dropped; congruence].
  do 2 fp_step.
  2: { eapply cannot_expand; [|done|exact E1]. unfold stripped. rewrite Er. cbn.
    unfold ZDP_A2A_MAC_SIZE. rewrite (proj2 (Z.ltb_ge _ _)) by lia. by rewrite E0. }
  pose proof (refront_same _ _ _ E1) as [Hb3 _].
  case_bool_decide; [|apply dropped; congruence]. fp_step. exists (ToActor a). split; [cbn; congruence|done].
Qed.

(** ** Forwarding *)

(** The transit packet that [forward] sends on. *)
Definition transit_of (link stream : Z) (p : Packet) : Packet :=
  on_metadata (set_egress_link_id link)
    (resize p (headroom p - 6) (Zdp.base_bytes (Zdp.mkBase Zdp.TransitPacket 0) ++ be_bytes 4 stream ++ body p)
       (tailroom p)).

Inductive forward_trouble (w : Worker) (p : Packet) : Prop :=
| input_fails stream : next_hop_of asm p = inl (PeerTable.LOCAL_ACTOR_LINK_ID, stream) ->
    input_trouble stream p -> forward_trouble w p
| no_header_room link stream : next_hop_of asm p = inl (link, stream) -> link <> PeerTable.LOCAL_ACTOR_LINK_ID ->
    headroom p < 6 -> forward_trouble w p
| egress_fails link stream : next_hop_of asm p = inl (link, stream) -> link <> PeerTable.LOCAL_ACTOR_LINK_ID ->
    egress_trouble w link (transit_of link stream p) -> forward_trouble w p.

Lemma forward_pushes link stream p p1 p2 :
  push_header (be_bytes 4 stream) p = Ret p1 ->
  push_header (Zdp.base_bytes (Zdp.mkBase Zdp.TransitPacket 0)) p1 = Ret p2 ->
  on_metadata (set_egress_link_id link) p2 = transit_of link stream p.
Proof.
  assert (zlen (be_bytes 4 stream) = 4) as Hz by (unfold zlen; by rewrite length_be_bytes).
  unfold push_header, rust_assert. rewrite Hz. destruct (4 <=? headroom p); [|done]. intros [= <-].
  cbn [headroom]. destruct (_ <=? _); [|done]. intros [= <-]. unfold transit_of, on_metadata, resize.
  cbn [buf metadata headroom body tailroom Zdp.base_bytes]. f_equal. change (zlen (Zdp.base_bytes (Zdp.mkBase Zdp.TransitPacket 0))) with 2. lia.
Qed.

Lemma forward_ok p w :
  wp (forward_trouble w p) (forward A2A_SAID_SIZE asm p) w (fun _ w' => handled (buf p) w w').
Proof.
  assert (forall stream, zlen (be_bytes 4 stream) = 4) as Hz by (intros; unfold zlen; by rewrite length_be_bytes).
  unfold forward. destruct (next_hop_of asm p) as [[link stream]|reason] eqn:En; [|by apply dropped].
  destruct (Z.eqb_spec link PeerTable.LOCAL_ACTOR_LINK_ID) as [->|Hl].
  { eapply tr_weaken; [|apply actor_input_ok]. intros. by eapply input_fails. }
  do 2 fp_step; [|eapply no_header_room; [done|done|]; apply push_panics in E; rewrite Hz in E; lia].
  do 2 fp_step; [|eapply no_header_room; [done|done|]; apply push_panics in E0].
  - rewrite (forward_pushes link stream p a a0 E E0).
    eapply tr_weaken; [|apply (substrate_egress_ok (transit_of link stream p))].
    intros Ht. eapply egress_fails; [done|done|exact Ht].
  - unfold push_header, rust_assert in E. rewrite Hz in E. destruct (4 <=? _); [|done]. injection E as <-.
    change (zlen (Zdp.base_bytes (Zdp.mkBase Zdp.TransitPacket 0))) with 2 in E0. cbn [headroom] in E0. lia.
Qed.

(** ** From the actor *)

(** The packet [actor_output_post_classify] forwards on an active tether. *)
Definition encapsulate (pep : AdapterTables.EltPep) (p : Packet) : outcome Packet :=
  let ft := five_tuple (metadata p) in
  p1 ← refront (Compress.compress (AdapterTables.pep_compression_mode pep) (l3_type ft) (l4_protocol ft)) p;
  p2 ← put (micv (AdapterTables.a2a_micv_key pep) (body p)) p1;
  p3 ← push_header (replicate A2A_SAID_SIZE 0) p2;
  mret (on_metadata (set_ingress_stream_id (AdapterTables.tether_id pep)) p3).

Inductive output_trouble (w : Worker) (p : Packet) : Prop :=
| adapter_closed : closed (adapter_manager w) = true -> output_trouble w p
| cannot_encapsulate pep : elt asm !! five_tuple (metadata p) = Some (AdapterTables.Active pep) ->
    encapsulate pep p = Panic -> output_trouble w p
| forward_fails pep q : elt asm !! five_tuple (metadata p) = Some (AdapterTables.Active pep) ->
    encapsulate pep p = Ret q -> forward_trouble w q -> output_trouble w p.

Lemma encapsulate_same pep p q : encapsulate pep p = Ret q -> buf q = buf p.
Proof.
  unfold encapsulate. cbv zeta. destruct (refront _ p) as [p1|] eqn:E1; [|done]. rewrite bind_Ret.
  destruct (put _ p1) as [p2|] eqn:E2; [|done]. rewrite bind_Ret.
  destruct (push_header _ p2) as [p3|] eqn:E3; [|done]. intros [= <-]. cbn.
  apply refront_same in E1 as [? _]. apply put_same in E2 as [? _]. apply push_same in E3 as [? _]. congruence.
Qed.

Lemma try_send_cases {T} (q : Chan (T * Z)) r out x :
  match try_send q r out x with
  | inl (q', out') => q' = enqueue (x, r) q /\ out' = wrapping_add 64 out 1
  | inr (Full _) => True
  | inr (Closed _) => closed q = true
  end.
Proof.
  unfold try_send, chan_try_send. destruct (closed q) eqn:Ec; [done|]. destruct (_ <=? _); [done|].
  unfold enqueue. by rewrite Ec.
Qed.

Lemma post_classify_ok p allow w :
  wp (output_trouble w p) (actor_output_post_classify A2A_SAID_SIZE asm p allow) w (fun _ w' => handled (buf p) w w').
Proof.
  unfold actor_output_post_classify. cbv zeta.
  destruct (elt asm !! five_tuple (metadata p)) as [[pk tx|pep]|] eqn:Ee; [by apply dropped| |].
  - match goal with |- wp ?P ?m w ?Q => assert (m w = (lift (encapsulate pep p) ≫= forward A2A_SAID_SIZE asm) w) as Em end.
    { unfold encapsulate, lift, mbind, M_bind, outcome_bind. destruct (refront _ p); [|done].
      destruct (put _ a); [|done]. by destruct (push_header _ a0). }
    unfold wp. rewrite Em. apply tr_bind, tr_lift. destruct (encapsulate pep p) as [q|] eqn:Eq; [|by eapply cannot_encapsulate].
    rewrite <- (encapsulate_same _ _ _ Eq). eapply tr_weaken; [|apply forward_ok]. intros. by eapply forward_fails.
  - destruct allow; cbn [negb]; [|by apply dropped]. fp_step.
    pose proof (try_send_cases (adapter_manager w) (worker_index w) (outstanding (return_q w)) p) as C.
    unfold wp at 1, try_request_tether_id.
    destruct (try_send _ _ _ _) as [[q out]|[]]; [| |by apply adapter_closed].
    + destruct C as [-> ->]. fp_step. by exists (ToAdapter p).
    + by apply dropped.
Qed.

(** The classified packet of an actor, on the lane of the worker. *)
Definition classified (lane : Z) (ft : FiveTuple) (p : Packet) : Packet :=
  on_metadata (set_five_tuple ft)
    (on_metadata (fun m => set_ingress_lane_id lane (set_ingress_link_id PeerTable.LOCAL_ACTOR_LINK_ID m)) p).

Inductive actor_trouble (w : Worker) (p : Packet) : Prop :=
| cannot_classify : Classifier.classify (five_tuple (metadata p)) (body p) = Panic -> actor_trouble w p
| cannot_decrement ft r : Classifier.classify (five_tuple (metadata p)) (body p) = Ret (ft, inl r) ->
    decrement_ttl (classified (wrap 8 (worker_index w)) ft p) = Panic -> actor_trouble w p
| output_fails ft r q : Classifier.classify (five_tuple (metadata p)) (body p) = Ret (ft, inl r) ->
    decrement_ttl (classified (wrap 8 (worker_index w)) ft p) = Ret (q, false) ->
    output_trouble w q -> actor_trouble w p.

Lemma decrement_same p q e : decrement_ttl p = Ret (q, e) -> same p q.
Proof.
  unfold decrement_ttl, decrement_at. cbv zeta.
  destruct (_ =? Ipv4); [|destruct (_ =? Ipv6); [|intros [= <- <-]; by split]];
    (destruct (slice _ _ _); [|done]); rewrite bind_Ret; (destruct (write_at _ _ _); [|done]);
    intros [= <- <-]; by split.
Qed.

Lemma decrement_output_ok ft r p w :
  Classifier.classify (five_tuple (metadata p)) (body p) = Ret (ft, inl r) ->
  wp (actor_trouble w p)
    ('(q, expired) ← lift (decrement_ttl (classified (wrap 8 (worker_index w)) ft p));
     if (expired : bool) then drop_and_count q TtlExpired
     else actor_output_post_classify A2A_SAID_SIZE asm q true) w
    (fun _ w' => handled (buf p) w w').
Proof.
  intros Ec. fp_step. apply tr_lift.
  destruct (decrement_ttl _) as [[q expired]|] eqn:Ed; [|by eapply cannot_decrement].
  pose proof (decrement_same _ _ _ Ed) as [Hb _]. cbn in Hb. destruct expired; [by apply dropped|].
  rewrite <- Hb. eapply tr_weaken; [|apply post_classify_ok]. intros. by eapply output_fails.
Qed.

Lemma actor_output_ok p w :
  wp (actor_trouble w p) (actor_output A2A_SAID_SIZE asm p) w (fun _ w' => handled (buf p) w w').
Proof.
  unfold actor_output. do 2 fp_step. cbv zeta. fp_step. apply tr_lift.
  cbn [metadata on_metadata body five_tuple set_ingress_lane_id set_ingress_link_id].
  destruct (Classifier.classify (five_tuple (metadata p)) (body p)) as [[ft r]|] eqn:Ec; [|by apply cannot_classify].
  fold (classified (wrap 8 (worker_index w)) ft p).
  destruct r as [[]|]; first [by apply dropped|by eapply decrement_output_ok].
Qed.

(** ** From the substrate *)

Lemma decrypt_transport_fits c pl room out :
  decrypt_transport_stateless c pl room = inl out -> zlen out <= room /\ zlen out + max_overhead c <= zlen pl.
Proof.
  destruct c as [s| |]; cbn; [|destruct (Z.ltb_spec room (zlen pl)); [done|]; intros [= <-]; lia|done].
  destruct (Z.ltb_spec (zlen pl) NOISE_NONCE_LEN); [done|].
  destruct (read_message _ _ _ _) as [o|[]] eqn:E; [|done..]. intros [= <-].
  apply read_fits in E as [? Hl]. unfold zlen in Hl at 1. rewrite length_drop in Hl.
  unfold NOISE_PADLEN, NOISE_NONCE_LEN, zlen in *. lia.
Qed.

(** Decryption does not panic, and leaves at least as much headroom; what
    protected an accepted packet becomes tailroom. *)
Definition opened (pad : Z) (p p' : Packet) (e : option DecryptError) : Prop :=
  same p p' /\ headroom p <= headroom p' /\ 0 <= tailroom p' /\ (e = None -> pad <= tailroom p').

Lemma opened_err pad p e : 0 <= tailroom p -> opened pad p p (Some e).
Proof. by repeat split. Qed.

Lemma decrypt_full_total c padlen p :
  0 <= tailroom p -> exists p' e, decrypt_full c padlen p = Ret (p', e) /\ opened (max_overhead c) p p' e.
Proof.
  intros Ht. pose proof (fun e => opened_err (max_overhead c) p e Ht) as Hx.
  assert (0 <= max_overhead c) as Ho by (by destruct c).
  unfold decrypt_full, dec_err, dec_ok, ZPI_HDR.
  destruct (Z.ltb_spec (zlen (body p)) 1); [by eauto|]. destruct (_ <? padlen); [by eauto|].
  destruct (body p) as [|z r] eqn:Eb; [done|]. rewrite (after_zpi_ok p z r Eb), bind_Ret, zlen_cons.
  replace (1 + zlen r - 1) with (zlen r) by lia. pose proof (zlen_nonneg r).
  destruct (Z.leb_spec (zlen r) (tailroom p)).
  - destruct (decrypt_transport_stateless _ _ _) as [out|] eqn:Ed; [|by eauto].
    pose proof (decrypt_transport_fits _ _ _ _ Ed) as [? ?]. change 1 with ZPI_HDR.
    rewrite (adopt_ok p z r) by done. rewrite bind_Ret. eexists _, _. split; [done|]. cbn.
    repeat split; cbn; lia.
  - destruct (decrypt_transport_stateless _ _ _) as [out|] eqn:Ed; [|by eauto].
    pose proof (decrypt_transport_fits _ _ _ _ Ed) as [_ ?].
    rewrite (shrink_ok p [z] r), bind_Ret by done. rewrite put_ok by (cbn; lia). rewrite bind_Ret.
    eexists _, _. split; [done|]. repeat split; cbn; lia.
Qed.

Lemma decrypt_hmac_total k p :
  0 <= tailroom p -> exists p' e, decrypt_hmac k p = Ret (p', e) /\ opened ZDP_PACKET_MAC_SIZE p p' e.
Proof.
  intros Ht. unfold decrypt_hmac, dec_err, dec_ok, ZDP_PACKET_MAC_SIZE.
  destruct (Z.ltb_spec (zlen (body p)) 8); [eauto using opened_err|].
  destruct (slice_lt (body p) (zlen (body p) - 8) (zlen (body p))) as [mac ->]; [lia|lia|]. rewrite bind_Ret.
  unfold shrink_by, rust_assert. rewrite (proj2 (Z.leb_le _ _)), !bind_Ret by lia. cbn.
  case_bool_decide; eexists _, _; (split; [done|]); repeat split; cbn; lia.
Qed.

Lemma decrypt_null_total p :
  0 <= tailroom p -> exists p' e, decrypt_null p = Ret (p', e) /\ opened 2 p p' e.
Proof.
  intros Ht. unfold decrypt_null, dec_err, dec_ok, ZPI_HDR.
  destruct (Z.ltb_spec (zlen (body p)) (1 + 2)); [eauto using opened_err|].
  destruct (body p) as [|z r] eqn:Eb; [done|]. rewrite (after_zpi_ok p z r Eb), bind_Ret.
  destruct (negb _); [eauto using opened_err|].
  unfold shrink_by, rust_assert. rewrite Eb, (proj2 (Z.leb_le _ _)), !bind_Ret by lia.
  eexists _, _; split; [done|]. repeat split; cbn; lia.
Qed.

(** What the packet is opened with: with an association, its ZPI says which. *)
Definition opening (zpi link : Z) : Z :=
  match association asm link with
  | Some sa => if zpi =? PeerTable.hmac (PeerTable.recv_zpis sa) then ZDP_PACKET_MAC_SIZE
               else max_overhead (codecs asm (PeerTable.codec sa))
  | None => 2
  end.

Lemma decrypt_total zpi p :
  0 <= tailroom p ->
  exists p' e, decrypt asm zpi p = Ret (p', e) /\ opened (opening zpi (ingress_link_id (metadata p))) p p' e.
Proof.
  intros Ht. unfold decrypt, opening. destruct (association asm _) as [sa|].
  - unfold decrypt_with_sa. destruct (_ =? _); [by apply decrypt_hmac_total|].
    destruct (_ =? _); [by apply decrypt_full_total|]. unfold dec_err. eauto using opened_err.
  - destruct (_ && _); [unfold dec_err; eauto using opened_err|]. by apply decrypt_null_total.
Qed.

(** The packet a transit packet carries: without ZPI, base and per-flow header. *)
Definition flow_packet (p : Packet) : option Packet :=
  '(_, p1) ← read_header ZPI_HDR p;
  '(_, p2) ← read_header 2 p1;
  '(stream, p3) ← read_header 4 p2;
  Some (on_metadata (set_ingress_stream_id (from_be stream)) p3).

Inductive decrypted_trouble (w : Worker) (zpi : Z) (p : Packet) : Prop :=
| dispatch_closed : closed (mgmt_dispatch w) = true -> decrypted_trouble w zpi p
| relay_fails q : flow_packet p = Some q -> zpi <> ZPI_0 ->
    ingress_link_id (metadata p) <> PeerTable.LINK_ID_UNKNOWN -> forward_trouble w q -> decrypted_trouble w zpi p.

Lemma dispatched_ok (P : Prop) p m w :
  (closed (mgmt_dispatch w) = true -> P) -> buf_id (convert_dispatch m) = buf p ->
  wp P (dispatched (send_mgmt m) p) w (fun _ w' => handled (buf p) w w').
Proof.
  intros HP Hb. unfold dispatched. fp_step.
  pose proof (try_send_cases (mgmt_dispatch w) (worker_index w) (outstanding (return_q w)) m) as C.
  unfold wp at 1, send_mgmt. destruct (try_send _ _ _ _) as [[q out]|[]]; [| |by apply HP].
  - destruct C as [-> ->]. fp_step. by exists (ToMgmt m).
  - by apply dropped.
Qed.

Lemma ingress_decrypted_ok peer_sa ia zpi p w :
  0 <= headroom p ->
  wp (decrypted_trouble w zpi p) (ingress_decrypted A2A_SAID_SIZE asm peer_sa ia zpi p) w
    (fun _ w' => handled (buf p) w w').
Proof.
  intros Hh. unfold ingress_decrypted.
  pose proof (relay_fails w zpi p) as Hr. unfold flow_packet in Hr.
  destruct (read_header ZPI_HDR p) as [[z p1]|] eqn:E1; [|by apply dropped].
  pose proof (read_same _ _ _ _ E1) as [Hb1 Hm1]. rewrite <- Hb1. cbn [mbind option_bind] in Hr.
  destruct (Z.eqb_spec (ingress_link_id (metadata p1)) PeerTable.LINK_ID_UNKNOWN); [by apply dispatched_ok; [apply dispatch_closed|]|].
  destruct (Zdp.read_base (body p1)) as [[hdr rest]|]; [|by apply dropped].
  destruct (read_header 2 p1) as [[h p2]|] eqn:E2; [|by apply dropped].
  pose proof (read_same _ _ _ _ E2) as [Hb2 _]. rewrite <- Hb2. cbn [mbind option_bind] in Hr.
  destruct ((zpi =? ZPI_0) && _) eqn:Ez; [by apply dropped|]. destruct (negb (_ =? Zdp.TransitPacket)) eqn:Et.
  - do 2 fp_step.
    + pose proof (push_same _ _ _ E) as [Hb3 _]. rewrite <- Hb3. apply dispatched_ok; [apply dispatch_closed|done].
    + exfalso. apply push_panics in E. change (zlen (Zdp.base_bytes hdr)) with 2 in E.
      unfold read_header in E1, E2. destruct (_ <? ZPI_HDR); [done|]. injection E1 as <- <-.
      destruct (_ <? 2); [done|]. injection E2 as <- <-. cbn in E. unfold ZPI_HDR in E. lia.
  - destruct (read_header 4 p2) as [[st p3]|] eqn:E3; [|by apply dropped].
    pose proof (read_same _ _ _ _ E3) as [Hb3 _]. rewrite <- Hb3. cbn [mbind option_bind] in Hr.
    eapply tr_weaken; [|apply (forward_ok (on_metadata _ p3))]. intros Hf. eapply Hr; [done| |congruence|exact Hf].
    intros ->. apply negb_false_iff, Z.eqb_eq in Et. by rewrite Et in Ez.
Qed.

(** Why receiving a packet can panic. *)
Inductive ingress_trouble (w : Worker) (link : Z) (p : Packet) : Prop :=
| capture_fails : program_exists asm = true -> worker_gone (capture_q w) = true \/ headroom p < 1 ->
    ingress_trouble w link p
| rest_fails zpi rest w1 p1 : body p = zpi :: rest -> quiet w w1 -> encr_nonce w1 = encr_nonce w ->
    decrypt asm zpi (on_metadata (set_ingress_link_id link) p) = Ret (p1, None) ->
    decrypted_trouble w1 zpi p1 -> ingress_trouble w link p.

(** The link a packet from an address belongs to. *)
Definition ingress_link (peer_sa : SubstrateAddr) (ia : ScopedIpAddr) : Z :=
  default 0 (PeerTable.lookup_peer (peer_table asm) peer_sa ia).

Lemma substrate_ingress_ok peer_sa ia p w :
  0 <= headroom p -> 0 <= tailroom p ->
  wp (ingress_trouble w (ingress_link peer_sa ia) p) (substrate_ingress A2A_SAID_SIZE asm peer_sa ia p) w
    (fun _ w' => handled (buf p) w w').
Proof.
  intros Hh Ht. unfold substrate_ingress. cbv zeta. fold (ingress_link peer_sa ia).
  set (q := on_metadata _ p). change (body q) with (body p). change (buf p) with (buf q).
  destruct (body p) as [|zpi rest] eqn:Eb; [by apply dropped|]. fp_step. apply tr_lift.
  destruct (decrypt_total zpi q Ht) as (p1 & e & Ed & [Hb _] & Hh1 & Ht1 & _). rewrite Ed.
  destruct e as [e|]; [by apply dropped|]. fp_step.
  eapply tr_weaken; [|eapply tr_mono; [apply capture_ok|]].
  - intros [Hp [Hl|Hg]]; apply capture_fails; [done|right; cbn in Hh1; lia|done|by left].
  - intros _ w1 [Q1 En]. apply tr_quiet; [done|]. rewrite <- Hb.
    eapply tr_weaken; [|apply ingress_decrypted_ok; cbn in *; lia].
    intros. by eapply rest_fails.
Qed.

End fates.
End FastpathFates.
