(* ===== verification/FastpathIo.v ===== *)
(** * Input and output of the fast path ([fastpath_io.rs], [fastpath_worker.rs])

    What the worker does with the batches the operating system hands it, and the
    loop around it.  The results of the system calls are arguments.  The TUN
    device carries the packet information of Linux ([sys/linux/tun_pi.rs]). *)
From Stdlib Require Import ZArith Lia.
From stdpp Require Import base tactics option list gmap.
From S2P Require Import Prelude Slab NetDefs Classifier Pkt PacketBuf Queues PeerTable LinkCrypt Fastpath.
From stdpp Require Import list.
Import PacketBuf(Layout, md_size).
Import Pkt Queues Fastpath.

Local Open Scope Z_scope.

Module FastpathIo.

(** [std::io::ErrorKind], as far as the code tells errors apart. *)
Inductive ErrorKind := WouldBlock | ResourceBusy | ConnectionRefused | OtherKind.
#[export] Instance ErrorKind_eq_dec : EqDecision ErrorKind.
Proof. solve_decision. Defined.

(** [batch_io::ReceivedPacket], and the bytes that went into the packet. *)
Record ReceivedPacket := mkReceived {
  truncated : bool;
  source : option (SubstrateAddr * Z);
  destination : option ScopedIpAddr;
  data : list Z
}.

(** [TunPi] and its Linux form. *)
Record TunPi := mkPi { strip : bool; proto : Z }.
Definition PI_SIZE : Z := 4.
Definition TUN_PKT_STRIP : Z := 1.
Definition TUN_HAS_PI : bool := 0 <? PI_SIZE.
Definition pi_of_bytes (b : list Z) : TunPi :=
  mkPi (negb (Z.land (from_le (take 2 b)) TUN_PKT_STRIP =? 0)) (from_be (take 2 (drop 2 b))).
Definition pi_bytes (pi : TunPi) : list Z := [0; 0] ++ be_bytes 2 (proto pi).

(** A batch-level [WouldBlock] is an empty batch; other errors are fatal for the
    callers, which [expect] or [panic!]. *)
Definition wouldblock_as_empty_batch {A} (r : list A + ErrorKind) : list A + ErrorKind :=
  match r with inr WouldBlock => inl [] | _ => r end.
Definition expect_batch {A} (r : list A + ErrorKind) : outcome (list A) :=
  match wouldblock_as_empty_batch r with inl l => Ret l | inr _ => Panic end.

Definition clear_flowinfo (a : SubstrateAddr * Z) : SubstrateAddr := a.1.

Section io.
Context `{NetDefs} `{Layout} `{Ciphers} {slab : Type -> Type} `{SlabOps slab}.
Context (A2A_SAID_SIZE : nat).
(** [net_defs::ethertype] and [net_defs::ip_ethertype] of the version of a packet. *)
Context (ETHERTYPE_IP ETHERTYPE_IPV6 : Z) (ip_ethertype : list Z -> Z).

Section ops.
Context (asm : Shared slab).

Definition is_ip (pi : TunPi) : bool := (proto pi =? ETHERTYPE_IP) || (proto pi =? ETHERTYPE_IPV6).

(** What a read puts into a fresh packet. *)
Definition fill (bytes : list Z) (p : Packet) : outcome Packet :=
  put (take (Z.to_nat (tailroom p)) bytes) p.

(** [read_pi]: [copy_to_slice] panics on a packet that is too short. *)
Definition read_pi (p : Packet) : outcome (TunPi * Packet) :=
  match read_header PI_SIZE p with
  | Some (b, p') => Ret (pi_of_bytes b, p')
  | None => Panic
  end.

(** ** Input *)

Definition process_received (p : Packet) (r : ReceivedPacket + ErrorKind) : M unit :=
  match r with
  | inl res =>
      p1 ← lift (fill (data res) p);
      if truncated res then drop_and_count p1 DroppedOversize
      else
        src ← lift (unwrap (source res));
        dst ← lift (unwrap (destination res));
        _ ← count InPacksRec;
        substrate_ingress A2A_SAID_SIZE asm (clear_flowinfo src) dst p1
  | inr (WouldBlock | ResourceBusy | ConnectionRefused) => give_back (destroy p)
  | inr OtherKind => lift Panic
  end.

Fixpoint process_each {A} (f : Packet -> A -> M unit) (ps : list Packet) (rs : list A) : M unit :=
  match ps, rs with
  | p :: ps, r :: rs => _ ← f p r; process_each f ps rs
  | _, _ => mret tt
  end.

(** Fill a batch of fresh packets, return the unused buffers, process the rest. *)
Definition process_batch {A} (f : Packet -> A -> M unit) (r : list A + ErrorKind) : M unit :=
  n ← gets batch_size;
  ps ← get_fresh_packets n;
  rs ← lift (expect_batch r);
  _ ← modify (fun w => set_buffers (buffers w ++ (destroy <$> rev (drop (length rs) ps))) w);
  process_each f (take (length rs) ps) rs.

(** Substrate ingress. *)
Definition process_substrate_socket_in (r : list (ReceivedPacket + ErrorKind) + ErrorKind) : M unit :=
  process_batch process_received r.

Definition process_tun_packet (p : Packet) (r : list Z + ErrorKind) : M unit :=
  match r with
  | inr (WouldBlock | ResourceBusy) => give_back (destroy p)
  | inr _ => lift Panic
  | inl bytes =>
      p1 ← lift (fill bytes p);
      if TUN_HAS_PI then
        '(pi, p2) ← lift (read_pi p1);
        if strip pi || negb (is_ip pi) then drop_and_count p2 OutPacksDrop
        else _ ← count OutPacksRec; actor_output A2A_SAID_SIZE asm p2
      else
        b ← lift (index (body p1) 0);
        if negb (Z.shiftr b 4 =? 4) && negb (Z.shiftr b 4 =? 6) then drop_and_count p1 OutPacksDrop
        else _ ← count OutPacksRec; actor_output A2A_SAID_SIZE asm p1
  end.

(** Actor output. *)
Definition process_actor_tun_in (r : list (list Z + ErrorKind) + ErrorKind) : M unit :=
  process_batch process_tun_packet r.

(** At most [limit] packets of a queue, each into a free buffer. *)
Fixpoint batch_process_packet_queue (limit : nat) (q : PacketQueue) (f : Packet -> M unit) : M PacketQueue :=
  match limit with
  | O => mret q
  | S limit =>
      bs ← gets buffers;
      match last bs with
      | None => mret q
      | Some b =>
          _ ← modify (set_buffers (take (length bs - 1) bs));
          match pq_try_recv PACKET_BUFFER_SIZE q b with
          | (inl p, q') => _ ← f p; batch_process_packet_queue limit q' f
          | (inr (PqEmpty b), q') => _ ← give_back b; mret q'
          | (inr (PqRecvOversize _), _) => lift Panic
          end
      end
  end.

Definition process_requeue_in (q : PacketQueue) : M PacketQueue :=
  n ← gets batch_size;
  batch_process_packet_queue (Z.to_nat n) q
    (fun p => _ ← count RequeuedPacketsReceived; actor_output_post_classify A2A_SAID_SIZE asm p false).

Definition process_mgmt_substrate_in (q : PacketQueue) : M PacketQueue :=
  n ← gets batch_size;
  batch_process_packet_queue (Z.to_nat n) q
    (fun p => _ ← count MgmtPacketsSent; substrate_egress asm p).

End ops.

(** ** Output *)

(** Add the packet information the TUN device expects. *)
Fixpoint write_pis (ps : list Packet) : outcome (list Packet) :=
  match ps with
  | [] => mret []
  | p :: r =>
      p' ← push_header (pi_bytes (mkPi false (ip_ethertype (body p)))) p;
      ps' ← write_pis r;
      mret (p' :: ps')
  end.

(** The number of writes that would block; other errors are fatal. *)
Fixpoint count_blocked {A} (rs : list (A + ErrorKind)) : outcome Z :=
  match rs with
  | [] => mret 0
  | inl _ :: r => count_blocked r
  | inr WouldBlock :: r => n ← count_blocked r; mret (n + 1)
  | inr _ :: _ => Panic
  end.

(** Egress queued actor input packets only. *)
Definition process_actor_input_queue (r : list (Z + ErrorKind) + ErrorKind) : M unit :=
  q0 ← gets actor_input_q;
  q ← lift (if PI_SIZE =? 0 then mret q0 else write_pis q0);
  rs ← lift (expect_batch r);
  blocked ← lift (count_blocked rs);
  let dropped := zlen q - zlen rs + blocked in
  _ ← count_by InPacksSent (zlen q - dropped);
  _ ← count_by InPacksDrop dropped;
  modify (fun w => set_buffers (buffers w ++ (destroy <$> q)) (set_actor_input_q [] w)).

(** [Vec::swap]. *)
Definition swap {A} (l : list A) (i j : nat) : outcome (list A) :=
  match l !! i, l !! j with
  | Some x, Some y => Ret (<[j := x]> (<[i := y]> l))
  | _, _ => Panic
  end.

(** Whether packet [i] of the queue was sent; an error other than [WouldBlock] is fatal. *)
Definition was_sent (rs : list (Z + ErrorKind)) (i : nat) : outcome bool :=
  match rs !! i with
  | None => Ret false
  | Some (inl _) => Ret true
  | Some (inr WouldBlock) => Ret false
  | Some (inr _) => Panic
  end.

(** The loop over the queue: unsent priority packets move to the front. *)
Fixpoint tally (k : nat) (i : nat) (rs : list (Z + ErrorKind)) (q : list QueuedEgressPacket)
    (dropped : Z) (retained : nat) : outcome (list QueuedEgressPacket * Z * nat) :=
  match k with
  | O => mret (q, dropped, retained)
  | S k =>
      sent ← was_sent rs i;
      if (sent : bool) then tally k (S i) rs q dropped retained
      else
        x ← unwrap (q !! i);
        if has_flag PRIORITY (q_pkt x) then
          q' ← swap q i retained;
          tally k (S i) rs q' dropped (S retained)
        else tally k (S i) rs q (dropped + 1) retained
  end.

(** Egress queued substrate egress packets only. *)
Definition process_substrate_egress_queue (r : list (Z + ErrorKind) + ErrorKind) : M unit :=
  q ← gets substrate_egress_q;
  rs ← lift (expect_batch r);
  '(q', dropped, retained) ← lift (tally (length q) 0 rs q 0 0);
  _ ← count_by OutPacksSent (zlen q - dropped - Z.of_nat retained);
  _ ← count_by OutPacksDrop dropped;
  modify (fun w => set_buffers (buffers w ++ (destroy <$> (q_pkt <$> drop retained q')))
                     (set_substrate_egress_q (take retained q') w)).

Definition process_out_queues (tun sock : list (Z + ErrorKind) + ErrorKind) : M unit :=
  _ ← process_actor_input_queue tun;
  process_substrate_egress_queue sock.

(** ** One turn of the worker's loop *)

(** What is ready after the wait, and the results of the calls made then. *)
Record Ready := mkReady {
  returns_readable : bool;
  substrate_writable : option (list (Z + ErrorKind) + ErrorKind);
  mgmt_readable : bool;
  requeue_readable : bool;
  tun_readable : option (list (list Z + ErrorKind) + ErrorKind);
  substrate_readable : option (list (ReceivedPacket + ErrorKind) + ErrorKind)
}.

Definition recv_returns : M unit := fun w =>
  let '(bs, r) := try_recv_many_returns (return_q w) (buffer_count w) in
  Ret (tt, set_buffers (buffers w ++ bs) (set_return_q r w)).

(** The requeue and management queues are passed through; an interrupted wait
    ([None]) starts the loop over. *)
Definition fastpath_turn (asm : Shared slab) (tun sock : list (Z + ErrorKind) + ErrorKind)
    (ready : option Ready) (requeue mgmt : PacketQueue) : M (PacketQueue * PacketQueue) :=
  _ ← process_out_queues tun sock;
  match ready with
  | None => mret (requeue, mgmt)
  | Some r =>
      _ ← (if returns_readable r then recv_returns else mret tt);
      _ ← match substrate_writable r with
          | Some res => process_substrate_egress_queue res
          | None => mret tt
          end;
      mgmt' ← (if mgmt_readable r then process_mgmt_substrate_in asm mgmt else mret mgmt);
      requeue' ← (if requeue_readable r then process_requeue_in asm requeue else mret requeue);
      _ ← match tun_readable r with Some res => process_actor_tun_in asm res | None => mret tt end;
      _ ← match substrate_readable r with Some res => process_substrate_socket_in asm res | None => mret tt end;
      _ ← aggregate;
      mret (requeue', mgmt')
  end.

End io.
End FastpathIo.
