(* ===== verification/FastpathIoProps.v ===== *)
(** * Batches and the worker's loop: buffers are conserved

    The loop over the egress queue against a plain filter, and that no turn of
    the worker loses or duplicates a buffer. *)
From Stdlib Require Import ZArith Lia.
From stdpp Require Import base tactics option list gmap gmultiset.
From S2P Require Import Prelude Slab NetDefs Classifier Compress Tc AdapterTables ForwardingTables PacketBuf Pkt Queues Zdp PeerTable Assembly LinkCrypt LinkCryptProps Fastpath FastpathProps FastpathFates FastpathIo.
From stdpp Require Import list.
Import PacketBuf(Layout, md_size).
Import Pkt Queues LinkCrypt LinkCryptProps Fastpath FastpathProps FastpathFates FastpathIo.

Local Open Scope Z_scope.

Module FastpathIoProps.

(** ** The egress queue *)

(** Packet [i] did not go out. *)
Definition unsent (rs : list (Z + ErrorKind)) (i : nat) : bool :=
  match rs !! i with Some (inl _) => false | _ => true end.

(** A result other than success and [WouldBlock]. *)
Definition fatal (r : Z + ErrorKind) : bool :=
  match r with inl _ | inr WouldBlock => false | inr _ => true end.

(** The packets to keep for the next time, and the number to drop. *)
Fixpoint kept (rs : list (Z + ErrorKind)) (i : nat) (q : list QueuedEgressPacket) : list QueuedEgressPacket :=
  match q with
  | [] => []
  | x :: r => if unsent rs i && has_flag PRIORITY (q_pkt x) then x :: kept rs (S i) r else kept rs (S i) r
  end.
Fixpoint lost (rs : list (Z + ErrorKind)) (i : nat) (q : list QueuedEgressPacket) : Z :=
  match q with
  | [] => 0
  | x :: r => (if unsent rs i && negb (has_flag PRIORITY (q_pkt x)) then 1 else 0) + lost rs (S i) r
  end.

Lemma was_sent_ok rs i :
  forallb (fun r => negb (fatal r)) rs = true -> was_sent rs i = Ret (negb (unsent rs i)).
Proof.
  intros Hf. unfold was_sent, unsent. destruct (rs !! i) as [r|] eqn:E; [|done].
  rewrite forallb_forall in Hf. apply list_elem_of_lookup_2, list_elem_of_In, Hf in E.
  by destruct r as [|[]].
Qed.

Lemma insert_here {A} (l1 l2 : list A) x y n : n = length l1 -> <[n := y]> (l1 ++ x :: l2) = l1 ++ y :: l2.
Proof. intros ->. by rewrite insert_app_r_alt, Nat.sub_diag by lia. Qed.

(** Swapping the first of the discarded packets with the one kept. *)
Lemma swap_kept {A} (R X rest : list A) x :
  exists X', swap (R ++ X ++ x :: rest) (length R + length X) (length R) = Ret ((R ++ [x]) ++ X' ++ rest) /\ X' ≡ₚ X.
Proof.
  unfold swap. rewrite !lookup_app_r by lia. replace (length R + length X - length R)%nat with (length X) by lia.
  rewrite !Nat.sub_diag. cbn [lookup list_lookup]. destruct X as [|y X]; cbn.
  - exists []. split; [|done]. rewrite Nat.add_0_r, !insert_here by done. by rewrite <- app_assoc.
  - exists (X ++ [y]). split; [|by rewrite Permutation_app_comm]. f_equal.
    rewrite (app_comm_cons X), (app_assoc R), (insert_here (R ++ y :: X)) by (rewrite length_app; done).
    rewrite <- app_assoc. cbn. rewrite insert_here by done. by rewrite <- !app_assoc.
Qed.

Lemma tally_ok rs rest : forallb (fun r => negb (fatal r)) rs = true ->
  forall R X i d, i = (length R + length X)%nat ->
  exists X', tally (length rest) i rs (R ++ X ++ rest) d (length R) =
    Ret (R ++ kept rs i rest ++ X', d + lost rs i rest, (length R + length (kept rs i rest))%nat) /\
    R ++ kept rs i rest ++ X' ≡ₚ R ++ X ++ rest.
Proof.
  intros Hf. induction rest as [|x rest IH]; intros R X i d ->; cbn [tally length kept lost].
  - exists X. rewrite app_nil_r, Z.add_0_r, Nat.add_0_r. done.
  - rewrite was_sent_ok, bind_Ret by done. destruct (unsent rs _) eqn:Eu; cbn [negb andb].
    + rewrite (app_assoc R), list_lookup_middle by (by rewrite length_app). cbn [unwrap]. rewrite bind_Ret.
      destruct (has_flag PRIORITY (q_pkt x)); cbn [negb].
      * destruct (swap_kept R X rest x) as (X1 & Hs & Hx). rewrite <- app_assoc, Hs, bind_Ret.
        destruct (IH (R ++ [x]) X1 (S (length R + length X)) d) as (X' & Ht & Hp).
        { rewrite length_app, (Permutation_length Hx). cbn. lia. }
        rewrite length_app in Ht. cbn [length] in Ht. rewrite Nat.add_1_r in Ht. rewrite Ht. exists X'.
        rewrite <- !(app_assoc R [x]) in *. cbn [app length] in *. rewrite Z.add_0_l, Nat.add_succ_r.
        split; [done|]. rewrite Hp, Hx. by rewrite Permutation_middle.
      * rewrite <- app_assoc. destruct (IH R (X ++ [x]) (S (length R + length X)) (d + 1)) as (X' & Ht & Hp).
        { rewrite length_app. cbn. lia. }
        rewrite <- (app_assoc X) in Ht. cbn in Ht. rewrite Ht. exists X'. rewrite <- Z.add_assoc.
        rewrite <- (app_assoc X) in Hp. done.
    + destruct (IH R (X ++ [x]) (S (length R + length X)) d) as (X' & Ht & Hp).
      { rewrite length_app. cbn. lia. }
      rewrite <- (app_assoc X) in Ht. cbn in Ht. rewrite Ht. exists X'. rewrite Z.add_0_l.
      rewrite <- (app_assoc X) in Hp. done.
Qed.

(** ** Buffers *)

Definition bag (l : list Z) : gmultiset Z := list_to_set_disj l.

Lemma bag_app l r : bag (l ++ r) = bag l ⊎ bag r.
Proof. apply list_to_set_disj_app. Qed.
Lemma bag_perm l r : l ≡ₚ r -> bag l = bag r.
Proof. intros E. unfold bag. by rewrite E. Qed.
Lemma bag_cons x l : bag (x :: l) = {[+ x +]} ⊎ bag l.
Proof. done. Qed.

Lemma bag_one x : bag [x] = {[+ x +]}.
Proof. change (bag [x]) with ({[+ x +]} ⊎ ∅ : gmultiset Z). multiset_solver. Qed.

(** Where the buffers are: free, in the queues for the actor and the substrate,
    with management, or on the way back. *)
Definition owned (w : Worker) : gmultiset Z :=
  bag (buf_id <$> buffers w) ⊎ bag (buf <$> actor_input_q w) ⊎
  bag ((fun q => buf (q_pkt q)) <$> substrate_egress_q w) ⊎
  bag ((fun m => buf_id (convert_dispatch (m.1))) <$> items (mgmt_dispatch w)) ⊎
  bag ((fun m => buf (m.1)) <$> items (adapter_manager w)) ⊎
  bag (buf_id <$> incoming (return_q w)).

Lemma owned_quiet w w' : quiet w w' -> owned w' = owned w.
Proof. intros []. unfold owned. congruence. Qed.

Lemma owned_after f w : owned (after f w) = owned w ⊎ {[+ buffer_of f +]}.
Proof.
  destruct f; unfold owned; cbn [after incr one_out buffers actor_input_q substrate_egress_q mgmt_dispatch
    adapter_manager return_q incoming set_batch_counters set_return_q set_mgmt_dispatch set_adapter_manager
    set_actor_input_q set_substrate_egress_q set_buffers enqueue items buffer_of];
    rewrite ?fmap_app, ?bag_app; cbn [fmap list_fmap fst]; rewrite ?bag_one; multiset_solver.
Qed.

Lemma handled_owned b w w' : handled b w w' -> owned w' = owned w ⊎ {[+ b +]}.
Proof. intros (f & <- & Q). by rewrite (owned_quiet _ _ Q), owned_after. Qed.

(** [m] takes the buffers [S] and leaves the buffers [R a] to its caller. *)
Definition conserves (S : gmultiset Z) {A} (m : M A) (R : A -> gmultiset Z) : Prop :=
  forall w, wp True m w (fun a w' => owned w' ⊎ R a = owned w ⊎ S).

Lemma conserves_bind {A B} S (m : M A) R (f : A -> M B) T :
  conserves S m R -> (forall a, conserves (R a) (f a) T) -> conserves S (m ≫= f) T.
Proof.
  intros Hm Hf w. apply tr_bind. eapply tr_mono; [apply Hm|]. intros a w1 E. cbv beta.
  eapply tr_mono; [apply Hf|]. intros b w2 E2. cbv beta in *. by rewrite E2.
Qed.
Lemma conserves_ret {A} (a : A) R : conserves (R a) (mret a) R.
Proof. by intros w. Qed.
Lemma conserves_gets {A} (f : Worker -> A) S : conserves S (gets f) (fun _ => S).
Proof. by intros w. Qed.
Lemma conserves_lift {A} (o : outcome A) S R : (forall a, o = Ret a -> R a = S) -> conserves S (lift o) R.
Proof. intros Ho w. apply tr_lift. destruct o; [|done]. by rewrite Ho. Qed.
Lemma conserves_modify f S :
  (forall w, owned (f w) = owned w ⊎ S) -> conserves S (modify f) (fun _ => ∅).
Proof. intros Hf w. apply tr_modify. rewrite Hf. multiset_solver. Qed.
Lemma conserves_quiet f : (forall w, owned (f w) = owned w) -> conserves ∅ (modify f) (fun _ => ∅).
Proof. intros Hf w. apply tr_modify. by rewrite Hf. Qed.
Lemma conserves_frame {A} F S (m : M A) R :
  conserves S m R -> conserves (F ⊎ S) m (fun a => F ⊎ R a).
Proof.
  intros Hm w. eapply tr_mono; [apply Hm|]. intros a w' E. cbv beta in *.
  rewrite (gmultiset_disj_union_assoc (owned w')), (gmultiset_disj_union_comm (owned w')), <- gmultiset_disj_union_assoc, E.
  multiset_solver.
Qed.
Lemma conserves_eq {A} S S' (m : M A) R R' :
  S = S' -> (forall a, R a = R' a) -> conserves S m R -> conserves S' m R'.
Proof. intros <- HR Hm w. eapply tr_mono; [apply Hm|]. intros a w' E. cbv beta in *. by rewrite <- HR. Qed.

Lemma conserves_handled (m : M unit) b P :
  (forall w, wp (P w) m w (fun _ w' => handled b w w')) -> conserves {[+ b +]} m (fun _ => ∅).
Proof.
  intros Hm w. eapply tr_weaken; [|eapply tr_mono; [apply Hm|]]; [done|].
  intros a w' Hh. rewrite (handled_owned _ _ _ Hh). multiset_solver.
Qed.

Lemma conserves_count_by c n : conserves ∅ (count_by c n) (fun _ => ∅).
Proof. by apply conserves_quiet. Qed.
Lemma conserves_count c : conserves ∅ (count c) (fun _ => ∅).
Proof. by apply conserves_quiet. Qed.
Lemma conserves_give_back b : conserves {[+ buf_id b +]} (give_back b) (fun _ => ∅).
Proof. apply conserves_modify. intros w. unfold owned. cbn [buffers set_buffers actor_input_q substrate_egress_q mgmt_dispatch adapter_manager return_q].
  rewrite fmap_app, bag_app. cbn [fmap list_fmap]. rewrite bag_one. multiset_solver. Qed.
Lemma conserves_drop p c : conserves {[+ buf p +]} (drop_and_count p c) (fun _ => ∅).
Proof. eapply conserves_bind; [apply (conserves_give_back (destroy p))|]. intros. apply conserves_count. Qed.

Section io.
Context `{NetDefs} `{Layout} `{Ciphers} {slab : Type -> Type} `{SlabOps slab}.
Context (A2A_SAID_SIZE : nat) (ETHERTYPE_IP ETHERTYPE_IPV6 : Z) (ip_ethertype : list Z -> Z).

Lemma fresh_bufs bs ps : fresh bs = Ret ps -> buf <$> ps = buf_id <$> bs.
Proof.
  revert ps. induction bs as [|b bs IH]; intros ps; cbn; [by intros [= <-]|].
  destruct (new _ _ _) as [p|] eqn:En; [|done]. rewrite bind_Ret.
  destruct (fresh bs) as [qs|]; [|done]. intros [= <-]. cbn. rewrite (IH qs) by done. f_equal.
  unfold new, rust_assert in En. destruct (md_size <=? _); [|done]. rewrite bind_Ret in En.
  destruct (_ <=? _); [|done]. by injection En as <-.
Qed.

Lemma conserves_fresh n : conserves ∅ (get_fresh_packets n) (fun ps => bag (buf <$> ps)).
Proof.
  intros w. unfold get_fresh_packets. apply tr_bind, tr_gets. cbv zeta. apply tr_bind, tr_modify, tr_lift.
  destruct (fresh _) as [ps|] eqn:E; [|done]. rewrite (fresh_bufs _ _ E). set (k := Z.to_nat _).
  rewrite (bag_perm (buf_id <$> rev (drop k (buffers w))) (buf_id <$> drop k (buffers w)))
    by (symmetry; apply Permutation_map, Permutation_rev).
  assert (bag (buf_id <$> buffers w) = bag (buf_id <$> take k (buffers w)) ⊎ bag (buf_id <$> drop k (buffers w))) as Eb.
  { by rewrite <- bag_app, <- fmap_app, take_drop. }
  unfold owned. rewrite Eb. cbn [buffers set_buffers actor_input_q substrate_egress_q mgmt_dispatch adapter_manager return_q].
  multiset_solver.
Qed.

(** *** Input *)

Definition room (p : Packet) : Prop := 0 <= headroom p /\ 0 <= tailroom p.

Lemma fresh_room bs ps : fresh bs = Ret ps -> Forall room ps.
Proof.
  revert ps. induction bs as [|b bs IH]; intros ps; cbn; [intros [= <-]; constructor|].
  destruct (new _ _ _) as [p|] eqn:En; [|done]. rewrite bind_Ret.
  destruct (fresh bs) as [qs|]; [|done]. intros [= <-]. constructor; [|by apply IH].
  unfold new, rust_assert in En. destruct (md_size <=? _); [|done]. rewrite bind_Ret in En.
  destruct (Z.leb_spec (md_size + DEFAULT_MESSAGE_HEADROOM) PACKET_BUFFER_SIZE); [|done]. injection En as <-.
  split; cbn; unfold DEFAULT_MESSAGE_HEADROOM, PACKET_BUFFER_SIZE in *; lia.
Qed.

Lemma get_fresh_room n w : wp True (get_fresh_packets n) w (fun ps _ => Forall room ps).
Proof.
  unfold get_fresh_packets. apply tr_bind, tr_gets. cbv zeta. apply tr_bind, tr_modify, tr_lift.
  destruct (fresh _) eqn:E; [|done]. by eapply fresh_room.
Qed.

Lemma fill_room bytes p p' : fill bytes p = Ret p' -> room p -> room p' /\ buf p' = buf p.
Proof.
  unfold fill. intros E [Hh Ht]. split; [|by eapply put_same]. unfold put, rust_assert in E.
  destruct (Z.leb_spec (zlen (take (Z.to_nat (tailroom p)) bytes)) (tailroom p)); [|done].
  injection E as <-. split; cbn; lia.
Qed.

Lemma conserves_seq {A} S (m : M unit) (f : M A) R :
  conserves ∅ m (fun _ => ∅) -> conserves S f R -> conserves S (_ ← m; f) R.
Proof.
  intros Hm Hf. eapply conserves_bind; [|intros ?; exact Hf].
  eapply conserves_eq; [| |apply (conserves_frame S), Hm]; multiset_solver.
Qed.

Lemma conserves_received asm p r :
  room p -> conserves {[+ buf p +]} (process_received A2A_SAID_SIZE asm p r) (fun _ => ∅).
Proof.
  intros Hp. destruct r as [res|[]]; cbn [process_received].
  - intros w. apply tr_bind, tr_lift. destruct (fill (data res) p) as [p1|] eqn:E; [|done].
    destruct (fill_room _ _ _ E Hp) as [[? ?] <-]. revert w.
    change (conserves {[+ buf p1 +]} (if truncated res then drop_and_count p1 DroppedOversize else
      src ← lift (unwrap (source res)); dst ← lift (unwrap (destination res)); _ ← count InPacksRec;
      substrate_ingress A2A_SAID_SIZE asm (clear_flowinfo src) dst p1) (fun _ => ∅)).
    destruct (truncated res); [apply conserves_drop|].
    eapply conserves_bind; [by apply (conserves_lift _ {[+ buf p1 +]} (fun _ => {[+ buf p1 +]}))|]. intros src.
    eapply conserves_bind; [by apply (conserves_lift _ {[+ buf p1 +]} (fun _ => {[+ buf p1 +]}))|]. intros dst.
    apply conserves_seq; [apply conserves_count|].
    eapply conserves_handled. intros w. by apply substrate_ingress_ok.
  - apply (conserves_give_back (destroy p)).
  - apply (conserves_give_back (destroy p)).
  - apply (conserves_give_back (destroy p)).
  - by intros w.
Qed.

Lemma conserves_tun asm p r :
  room p -> conserves {[+ buf p +]} (process_tun_packet A2A_SAID_SIZE ETHERTYPE_IP ETHERTYPE_IPV6 asm p r) (fun _ => ∅).
Proof.
  intros Hp. destruct r as [bytes|[]]; cbn [process_tun_packet].
  - intros w. apply tr_bind, tr_lift. destruct (fill bytes p) as [p1|] eqn:E; [|done].
    destruct (fill_room _ _ _ E Hp) as [_ <-]. cbn [TUN_HAS_PI]. apply tr_bind, tr_lift.
    unfold read_pi. destruct (read_header PI_SIZE p1) as [[b p2]|] eqn:Er; [|done].
    apply read_same in Er as [<- _]. revert w.
    change (conserves {[+ buf p2 +]} (if strip (pi_of_bytes b) || negb (is_ip ETHERTYPE_IP ETHERTYPE_IPV6 (pi_of_bytes b))
      then drop_and_count p2 OutPacksDrop else _ ← count OutPacksRec; actor_output A2A_SAID_SIZE asm p2) (fun _ => ∅)).
    destruct (_ || _); [apply conserves_drop|]. apply conserves_seq; [apply conserves_count|].
    eapply conserves_handled. intros w. by apply actor_output_ok.
  - apply (conserves_give_back (destroy p)).
  - apply (conserves_give_back (destroy p)).
  - by intros w.
  - by intros w.
Qed.

Lemma conserves_each {A} (f : Packet -> A -> M unit) ps : forall rs,
  (forall p r, room p -> conserves {[+ buf p +]} (f p r) (fun _ => ∅)) -> Forall room ps ->
  (length ps <= length rs)%nat -> conserves (bag (buf <$> ps)) (process_each f ps rs) (fun _ => ∅).
Proof.
  induction ps as [|p ps IH]; intros [|r rs] Hf Hr Hl; cbn in Hl; try lia; try by intros w.
  apply list.Forall_cons in Hr as [Hp Hr]. cbn [process_each fmap list_fmap]. rewrite bag_cons.
  eapply conserves_bind; [|intros ?; apply (IH rs); [done|done|lia]].
  eapply conserves_eq; [| |apply (conserves_frame (bag (buf <$> ps))), (Hf p r Hp)]; multiset_solver.
Qed.

Lemma conserves_batch {A} (f : Packet -> A -> M unit) r :
  (forall p x, room p -> conserves {[+ buf p +]} (f p x) (fun _ => ∅)) ->
  conserves ∅ (process_batch f r) (fun _ => ∅).
Proof.
  intros Hf w. unfold process_batch. apply tr_bind, tr_gets, tr_bind.
  pose proof (conserves_fresh (batch_size w) w) as Hc. pose proof (get_fresh_room (batch_size w) w) as Hr.
  unfold wp in Hc, Hr |- * at 1. destruct (get_fresh_packets _ w) as [[ps w1]|]; [|done].
  apply tr_bind, tr_lift. destruct (expect_batch r) as [rs|]; [|done]. apply tr_bind, tr_modify.
  eapply tr_mono; [apply (conserves_each f (take (length rs) ps) rs Hf)|].
  - by apply Forall_take.
  - rewrite length_take. lia.
  - intros ? w2 E. cbv beta in *. rewrite E.
    assert (bag (buf <$> ps) = bag (buf <$> take (length rs) ps) ⊎ bag (buf <$> drop (length rs) ps)) as Eb
      by (by rewrite <- bag_app, <- fmap_app, take_drop). rewrite Eb in Hc.
    assert (bag (buf_id <$> (destroy <$> rev (drop (length rs) ps))) = bag (buf <$> drop (length rs) ps)) as Ed.
    { rewrite <- list_fmap_compose. apply bag_perm. symmetry. apply Permutation_map, Permutation_rev. }
    unfold owned in *. cbn [buffers set_buffers actor_input_q substrate_egress_q mgmt_dispatch adapter_manager return_q].
    rewrite fmap_app, bag_app, Ed. multiset_solver.
Qed.

Lemma conserves_packet_queue limit : forall q f,
  (forall p, conserves {[+ buf p +]} (f p) (fun _ => ∅)) ->
  conserves ∅ (batch_process_packet_queue limit q f) (fun _ => ∅).
Proof.
  induction limit as [|limit IH]; intros q f Hf; cbn [batch_process_packet_queue]; [by intros w|].
  intros w. apply tr_bind, tr_gets. destruct (last (buffers w)) as [b|] eqn:El; [|by apply tr_ret].
  apply last_Some in El as [l El]. apply tr_bind, tr_modify.
  assert (take (length (buffers w) - 1) (buffers w) = l) as ->.
  { rewrite El, length_app. cbn. rewrite Nat.add_sub. by apply take_app_length'. }
  assert (owned (set_buffers l w) ⊎ {[+ buf_id b +]} = owned w) as Ew.
  { unfold owned. rewrite El. cbn [buffers set_buffers actor_input_q substrate_egress_q mgmt_dispatch adapter_manager return_q].
    rewrite fmap_app, bag_app. cbn [fmap list_fmap]. rewrite bag_one. multiset_solver. }
  assert (conserves {[+ buf_id b +]} (match pq_try_recv PACKET_BUFFER_SIZE q b with
    | (inl p, q') => _ ← f p; batch_process_packet_queue limit q' f
    | (inr (PqEmpty b), q') => _ ← give_back b; mret q'
    | (inr (PqRecvOversize _), _) => lift Panic
    end) (fun _ => ∅)) as Hk.
  { unfold pq_try_recv. destruct (posted q); cbn [negb]; [|].
    - destruct (items (packets q)) as [|s rest]; [|cbv zeta; destruct (_ <? 0); [by intros ?|]].
      + eapply conserves_bind; [apply conserves_give_back|]. by intros ? ?.
      + eapply conserves_bind; [apply (Hf (mkPacket _ _ _ _ _))|]. intros ?. by apply IH.
    - eapply conserves_bind; [apply conserves_give_back|]. by intros ? ?. }
  eapply tr_mono; [apply Hk|]. intros a w' E. cbv beta in *. rewrite E, Ew. multiset_solver.
Qed.

(** *** Output *)

Lemma write_pis_bufs ps qs : write_pis ip_ethertype ps = Ret qs -> buf <$> qs = buf <$> ps.
Proof.
  revert qs. induction ps as [|p ps IH]; intros qs; cbn; [by intros [= <-]|].
  destruct (push_header _ p) as [p'|] eqn:E; [|done]. rewrite bind_Ret.
  destruct (write_pis _ ps) as [ps'|]; [|done]. intros [= <-]. cbn. rewrite (IH ps') by done. f_equal.
  by eapply push_same.
Qed.

Lemma conserves_actor_queue r : conserves ∅ (process_actor_input_queue ip_ethertype r) (fun _ => ∅).
Proof.
  intros w. unfold process_actor_input_queue. apply tr_bind, tr_gets, tr_bind, tr_lift. cbn [PI_SIZE Z.eqb].
  destruct (write_pis _ _) as [q|] eqn:Ew; [|done]. apply write_pis_bufs in Ew.
  apply tr_bind, tr_lift. destruct (expect_batch r) as [rs|]; [|done].
  apply tr_bind, tr_lift. destruct (count_blocked rs) as [n|]; [|done].
  do 2 apply tr_bind, tr_modify. apply tr_modify. unfold owned.
  cbn [buffers set_buffers actor_input_q set_actor_input_q substrate_egress_q mgmt_dispatch adapter_manager return_q
    set_batch_counters].
  rewrite fmap_app, bag_app, <- list_fmap_compose. change (buf_id ∘ destroy <$> q) with (buf <$> q).
  rewrite Ew. change (bag (buf <$> [])) with (∅ : gmultiset Z). multiset_solver.
Qed.

Lemma swap_perm {A} (l l' : list A) i j : swap l i j = Ret l' -> l' ≡ₚ l.
Proof.
  unfold swap. destruct (l !! i) as [x|] eqn:Ei; [|done]. destruct (l !! j) as [y|] eqn:Ej; [|done].
  intros [= <-]. apply Permutation_inj. rewrite !length_insert. split; [done|].
  exists (fun k => if decide (k = i) then j else if decide (k = j) then i else k). split.
  - intros a b. repeat case_decide; congruence.
  - intros k. pose proof (lookup_lt_Some _ _ _ Ei). pose proof (lookup_lt_Some _ _ _ Ej).
    destruct (decide (k = j)) as [->|Hj].
    + rewrite list_lookup_insert_eq by (by rewrite length_insert). case_decide; [subst; congruence|done].
    + rewrite list_lookup_insert_ne by done. case_decide as Hi; [subst; by rewrite list_lookup_insert_eq|].
      by rewrite list_lookup_insert_ne.
Qed.

Lemma tally_perm k rs : forall i q d r q' d' r', tally k i rs q d r = Ret (q', d', r') -> q' ≡ₚ q.
Proof.
  induction k as [|k IH]; intros i q d r q' d' r'; cbn; [by intros [= <- <- <-]|].
  destruct (was_sent rs i) as [[]|]; [| |done]; rewrite bind_Ret; [by apply IH|].
  destruct (unwrap (q !! i)) as [x|]; [|done]. rewrite bind_Ret.
  destruct (has_flag _ _); [|by apply IH]. destruct (swap q i r) as [q1|] eqn:E; [|done]. rewrite bind_Ret.
  intros Ht. apply IH in Ht. rewrite Ht. by eapply swap_perm.
Qed.

Lemma conserves_egress_queue r : conserves ∅ (process_substrate_egress_queue r) (fun _ => ∅).
Proof.
  intros w. unfold process_substrate_egress_queue. apply tr_bind, tr_gets, tr_bind, tr_lift.
  destruct (expect_batch r) as [rs|]; [|done]. apply tr_bind, tr_lift.
  destruct (tally _ _ _ _ _ _) as [[[q' d] n]|] eqn:Et; [|done]. apply tally_perm in Et.
  do 2 apply tr_bind, tr_modify. apply tr_modify. unfold owned.
  cbn [buffers set_buffers actor_input_q substrate_egress_q set_substrate_egress_q mgmt_dispatch adapter_manager
    return_q set_batch_counters].
  rewrite fmap_app, bag_app, <- !list_fmap_compose.
  change (buf_id ∘ destroy ∘ q_pkt <$> drop n q') with ((fun q => buf (q_pkt q)) <$> drop n q').
  assert (bag ((fun q => buf (q_pkt q)) <$> substrate_egress_q w) =
    bag ((fun q => buf (q_pkt q)) <$> take n q') ⊎ bag ((fun q => buf (q_pkt q)) <$> drop n q')) as Eb.
  { rewrite <- bag_app, <- fmap_app, take_drop. apply bag_perm. by rewrite Et. }
  rewrite Eb. multiset_solver.
Qed.

Lemma conserves_returns : conserves ∅ recv_returns (fun _ => ∅).
Proof.
  intros w. unfold wp, recv_returns, try_recv_many_returns. unfold owned.
  destruct (notified (return_q w)); cbn [negb].
  - cbv zeta. destruct (Z.eqb_spec (zlen (incoming (return_q w))) 0) as [E|E];
      cbn [buffers set_buffers actor_input_q substrate_egress_q mgmt_dispatch adapter_manager return_q set_return_q incoming].
    + destruct (incoming (return_q w)) eqn:Ei; [|unfold zlen in E; cbn in E; lia]. by rewrite app_nil_r.
    + rewrite fmap_app, bag_app. rewrite <- (take_drop (Z.to_nat (buffer_count w)) (incoming (return_q w))) at 3.
      rewrite fmap_app, bag_app. multiset_solver.
  - cbn [buffers set_buffers actor_input_q substrate_egress_q mgmt_dispatch adapter_manager return_q set_return_q incoming].
    by rewrite app_nil_r.
Qed.

Lemma conserves_aggregate : conserves ∅ aggregate (fun _ => ∅).
Proof. intros w. unfold wp, aggregate. by destruct (index _ _). Qed.

Lemma conserves_out r1 r2 : conserves ∅ (process_out_queues ip_ethertype r1 r2) (fun _ => ∅).
Proof. apply conserves_seq; [apply conserves_actor_queue|apply conserves_egress_queue]. Qed.

Lemma conserves_turn asm tun sock ready rq mq :
  conserves ∅ (fastpath_turn A2A_SAID_SIZE ETHERTYPE_IP ETHERTYPE_IPV6 ip_ethertype asm tun sock ready rq mq)
    (fun _ => ∅).
Proof.
  unfold fastpath_turn. apply conserves_seq; [apply conserves_out|]. destruct ready as [r|]; [|by intros w].
  apply conserves_seq; [destruct (returns_readable r); [apply conserves_returns|by intros w]|].
  apply conserves_seq; [destruct (substrate_writable r); [apply conserves_egress_queue|by intros w]|].
  eapply (conserves_bind _ _ (fun _ => ∅)).
  { destruct (mgmt_readable r); [|by intros w]. eapply conserves_bind; [apply conserves_gets|]. intros n.
    apply conserves_packet_queue. intros p. apply conserves_seq; [apply conserves_count|].
    eapply conserves_handled. intros w. apply substrate_egress_ok. }
  intros mq'. eapply (conserves_bind _ _ (fun _ => ∅)).
  { destruct (requeue_readable r); [|by intros w]. eapply conserves_bind; [apply conserves_gets|]. intros n.
    apply conserves_packet_queue. intros p. apply conserves_seq; [apply conserves_count|].
    eapply conserves_handled. intros w. apply post_classify_ok. }
  intros rq'. apply conserves_seq.
  { destruct (tun_readable r); [|by intros w]. apply conserves_batch. intros. by apply conserves_tun. }
  apply conserves_seq.
  { destruct (substrate_readable r); [|by intros w]. apply conserves_batch. intros. by apply conserves_received. }
  apply conserves_seq; [apply conserves_aggregate|]. by intros w.
Qed.

End io.
End FastpathIoProps.
