(* ===== verification/FastpathThms.v ===== *)
(** * What the fast path guarantees

    Fates of packets, conservation of buffers, the egress queue against a
    filter, links with a security association, and that a node is not brought
    down by what it receives. *)
From Stdlib Require Import ZArith Lia.
From stdpp Require Import base tactics option list gmap gmultiset.
From S2P Require Import Prelude Slab NetDefs Classifier Compress Tc AdapterTables ForwardingTables PacketBuf Pkt Queues Zdp PeerTable Assembly LinkCrypt LinkCryptProps Fastpath FastpathProps FastpathFates FastpathIo FastpathIoProps.
From stdpp Require Import list.
Import PacketBuf(Layout, md_size).
Import Pkt Queues LinkCrypt LinkCryptProps Fastpath FastpathProps FastpathFates FastpathIo FastpathIoProps.

Local Open Scope Z_scope.

Module FastpathThms.

Section thms.
Context `{NetDefs} `{Layout} `{Ciphers} {slab : Type -> Type} `{SlabOps slab}.
Context (A2A_SAID_SIZE : nat) (asm : Shared slab).

(** How an operation on the packet in buffer [b] ends: the packet is in one place
    and nothing else has changed, or it panicked for one of the reasons listed. *)
Definition ends_well {A} (trouble : Prop) (b : Z) (w : Worker) (r : outcome (A * Worker)) : Prop :=
  match r with Ret (_, w') => handled b w w' | Panic => trouble end.

(** C8. Whatever enters the fast path meets one fate.  A packet from the
    substrate, from the actor, back from management after a bind, or from
    management for the substrate ends in exactly one place: the queue for the
    actor, the queue for the substrate, the management channel (then it counts as
    outstanding), the adapter manager's channel, or dropped, its buffer free again
    and one counter incremented; nothing else of the worker's state changes but
    what capture and the codecs' nonces keep.  A panic has one of the reasons
    listed ([ingress_trouble], [actor_trouble], [output_trouble],
    [egress_trouble]). *)
Theorem packets_meet_one_fate peer_sa ia p w allow :
  0 <= headroom p -> 0 <= tailroom p ->
  ends_well (ingress_trouble A2A_SAID_SIZE asm w (ingress_link asm peer_sa ia) p) (buf p) w
    (substrate_ingress A2A_SAID_SIZE asm peer_sa ia p w) /\
  ends_well (actor_trouble A2A_SAID_SIZE asm w p) (buf p) w (actor_output A2A_SAID_SIZE asm p w) /\
  ends_well (output_trouble A2A_SAID_SIZE asm w p) (buf p) w
    (actor_output_post_classify A2A_SAID_SIZE asm p allow w) /\
  ends_well (egress_trouble asm w (egress_link_id (metadata p)) p) (buf p) w (substrate_egress asm p w).
Proof.
  intros Hh Ht. split; [by apply substrate_ingress_ok|]. split; [apply actor_output_ok|].
  split; [apply post_classify_ok|apply substrate_egress_ok].
Qed.

(** C17. A turn of the worker neither loses nor duplicates a buffer: whatever
    the system calls return, whatever is ready and whatever packets come in, if the
    turn does not panic then the buffers that are free, queued for the actor or the
    substrate, with management, with the adapter manager or on their way back are
    the ones of before, each as often. *)
Theorem turn_conserves_buffers ETHERTYPE_IP ETHERTYPE_IPV6 ip_ethertype tun sock ready rq mq w r w' :
  fastpath_turn A2A_SAID_SIZE ETHERTYPE_IP ETHERTYPE_IPV6 ip_ethertype asm tun sock ready rq mq w = Ret (r, w') ->
  owned w' = owned w.
Proof.
  intros E. pose proof (conserves_turn A2A_SAID_SIZE ETHERTYPE_IP ETHERTYPE_IPV6 ip_ethertype asm tun sock ready rq mq w) as C.
  unfold wp in C. rewrite E in C. multiset_solver.
Qed.

(** C38. The loop that swaps packets about in the egress queue computes a
    filter.  After a batch was handed to the socket, the queue holds exactly the
    packets that did not go out and are marked for priority, in their order; all
    other buffers are free again, and the two counters tell how many packets were
    sent and how many lost.  A batch that would block as a whole counts as one of
    which nothing went out. *)
Theorem egress_queue_retains_priority rs w :
  forallb (fun r => negb (fatal r)) rs = true ->
  let q := substrate_egress_q w in
  exists gone,
    kept rs 0 q ++ gone ≡ₚ q /\
    process_substrate_egress_queue (inl rs) w =
      Ret (tt, set_buffers (buffers w ++ (destroy <$> (q_pkt <$> gone)))
                 (set_substrate_egress_q (kept rs 0 q)
                    (set_batch_counters
                       (increase_by OutPacksDrop (lost rs 0 q)
                          (increase_by OutPacksSent (zlen q - lost rs 0 q - zlen (kept rs 0 q)) (batch_counters w))) w))) /\
    process_substrate_egress_queue (inr WouldBlock) w = process_substrate_egress_queue (inl []) w.
Proof.
  intros Hf q. destruct (tally_ok rs q Hf [] [] 0 0 eq_refl) as (gone & Ht & Hp). cbn [app length] in Ht, Hp.
  rewrite Z.add_0_l, Nat.add_0_l in Ht.
  exists gone. split; [done|]. split; [|done].
  unfold process_substrate_egress_queue, mbind, M_bind, gets, lift, modify, count_by.
  fold q. cbn [expect_batch wouldblock_as_empty_batch]. rewrite bind_Ret, Ht, bind_Ret.
  by rewrite take_app_length, drop_app_length.
Qed.

(** ** Links with a security association *)

(** What makes a packet authentic under an association: the link MAC of its
    bytes, or a ciphertext the codec opens. *)
Inductive authentic (sa : PeerTable.KmTransportSA) : list Z -> Prop :=
| authentic_mac bytes : head (bytes ++ link_mac (PeerTable.recv_hmac_key sa) bytes) =
      Some (PeerTable.hmac (PeerTable.recv_zpis sa)) ->
    authentic sa (bytes ++ link_mac (PeerTable.recv_hmac_key sa) bytes)
| authentic_encr zpi out plain room : zpi = PeerTable.encr (PeerTable.recv_zpis sa) ->
    decrypt_transport_stateless (codecs asm (PeerTable.codec sa)) out room = inl plain ->
    authentic sa (zpi :: out).

(** Which drop is counted for a packet that is not. *)
Definition rejected (reason : FastpathCounterType) : Prop :=
  reason = BadStructure \/ reason = UnknownZpi \/ reason = MicvFailure \/ reason = DecryptionFailure.

Lemma decrypt_hmac_cases key p :
  (exists b, body p = b ++ link_mac key b) \/
  exists q e, decrypt_hmac key p = Ret (q, Some e) /\ same p q /\ rejected (counter_of e).
Proof.
  unfold decrypt_hmac, dec_err, dec_ok, ZDP_PACKET_MAC_SIZE.
  destruct (Z.ltb_spec (zlen (body p)) 8).
  { right. eexists _, _. split; [done|]. split; [done|by left]. }
  pose proof (slice_lt (body p) (zlen (body p) - 8) (zlen (body p)) ltac:(lia) ltac:(lia)) as [mac Hmac].
  rewrite Hmac, bind_Ret. unfold shrink_by, rust_assert. rewrite (proj2 (Z.leb_le _ _)), !bind_Ret by lia.
  cbn [body]. case_bool_decide as E; [left|right].
  - exists (take (Z.to_nat (zlen (body p) - 8)) (body p)). rewrite E. unfold slice in Hmac.
    destruct (_ && _); [|done]. injection Hmac as <-.
    rewrite (take_ge (drop _ _)) by (rewrite length_drop; unfold zlen; lia). by rewrite take_drop.
  - eexists _, _. split; [done|]. split; [done|]. right. right. by left.
Qed.

Lemma decrypt_full_cases c pad p z r :
  body p = z :: r -> 0 <= tailroom p ->
  (exists plain room, decrypt_transport_stateless c r room = inl plain) \/
  exists q e, decrypt_full c pad p = Ret (q, Some e) /\ same p q /\ rejected (counter_of e).
Proof.
  intros Eb Ht. unfold decrypt_full, dec_err, ZPI_HDR.
  assert (forall e, e = LinkCrypt.BadStructure \/ e = LinkCrypt.DecryptionFailure -> exists q e', Ret (p, Some e) = Ret (q, Some e') /\ same p q /\ rejected (counter_of e')) as Hx.
  { intros e He. exists p, e. split; [done|]. split; [done|]. unfold rejected. destruct He as [-> | ->]; cbn; auto. }
  destruct (_ <? 1); [right; apply Hx; auto|]. destruct (_ <? pad); [right; apply Hx; auto|].
  rewrite (after_zpi_ok p z r Eb), bind_Ret.
  destruct (_ <=? _).
  - destruct (decrypt_transport_stateless c r (tailroom p)) eqn:E; [left; eauto|right; apply Hx; auto].
  - destruct (decrypt_transport_stateless c r PACKET_BUFFER_SIZE) eqn:E; [left; eauto|right; apply Hx; auto].
Qed.

(** C36. On a link with a security association only authentic packets come
    through.  A packet received on such a link carries the link MAC of the
    association over its bytes, or a ciphertext that the association's codec opens;
    otherwise it is dropped at once, for a bad structure, an unknown ZPI, a wrong
    MAC or a failed decryption, and nothing else happens: no capture, no dispatch,
    no forwarding.  In particular a packet under ZPI 0 is dropped when the
    association's ZPIs are not 0. *)
Theorem secured_link_authentic peer_sa ia p w sa :
  0 <= tailroom p ->
  association asm (ingress_link asm peer_sa ia) = Some sa ->
  authentic sa (body p) \/
  exists q reason,
    substrate_ingress A2A_SAID_SIZE asm peer_sa ia p w = Ret (tt, after (Dropped q reason) w) /\
    buf_id q = buf p /\ rejected reason.
Proof.
  intros Ht Hs. unfold substrate_ingress. cbv zeta. fold (ingress_link asm peer_sa ia).
  set (q := on_metadata _ p). change (body q) with (body p). change (buf p) with (buf q).
  destruct (body p) as [|zpi r] eqn:Eb; [right; eexists _, _; split; [done|]; by split; [|left]|].
  unfold decrypt. change (ingress_link_id (metadata q)) with (ingress_link asm peer_sa ia). rewrite Hs.
  assert (forall e q1, same q q1 -> rejected (counter_of e) ->
    exists b reason, ('(p1, e) ← lift (Ret (q1, Some e));
      match e with Some err => drop_and_count p1 (counter_of err) | None => _ ← maybe_capture asm Inbound p1;
        ingress_decrypted A2A_SAID_SIZE asm peer_sa ia zpi p1 end) w = Ret (tt, after (Dropped b reason) w) /\
      buf_id b = buf q /\ rejected reason) as Hx.
  { intros e q1 [Hb _] Hr. exists (destroy q1), (counter_of e). done. }
  unfold decrypt_with_sa. destruct (Z.eqb_spec zpi (PeerTable.hmac (PeerTable.recv_zpis sa))) as [Ez|_].
  - destruct (decrypt_hmac_cases (PeerTable.recv_hmac_key sa) q) as [[b Hb]|(q1 & e & Hd & Hq & Hr)].
    + left. change (body q) with (body p) in Hb. rewrite Eb in Hb. rewrite Hb. constructor. by rewrite <- Hb, Ez.
    + right. rewrite Hd. by apply Hx.
  - destruct (Z.eqb_spec zpi (PeerTable.encr (PeerTable.recv_zpis sa))) as [Ez|_].
    + destruct (decrypt_full_cases (codecs asm (PeerTable.codec sa)) (if km_is_noise asm then NOISE_PADLEN else 0)
        q zpi r Eb Ht) as [(pl & room & Hd)|(q1 & e & Hd & Hq & Hr)].
      * left. by eapply authentic_encr.
      * right. rewrite Hd. by apply Hx.
    + right. apply Hx; [done|]. right. by left.
Qed.

(** ** What a node survives *)

(** A node in good order: management listens, the capture worker runs if there is
    a filter, the ZPIs that peers chose are not 0, the codecs are those of the Noise
    protocol, and no route leads to a link whose peer has no address.  The two
    internal peers of a node have none; routes to the first of them, the node's
    own actor, are not sent on the substrate and are allowed. *)
Record healthy (w : Worker) : Prop := {
  h_open : closed (mgmt_dispatch w) = false;
  h_capture : program_exists asm = true -> worker_gone (capture_q w) = false;
  h_secured link peer sa : PeerTable.get (peer_table asm) link = Some peer ->
    PeerTable.get_established_transport_association peer = Some sa ->
    PeerTable.hmac (PeerTable.send_zpis sa) <> ZPI_0 /\ PeerTable.encr (PeerTable.send_zpis sa) <> ZPI_0 /\
    exists s, codecs asm (PeerTable.codec sa) = NoiseCodec s;
  h_routes link peer stream pep next : PeerTable.get (peer_table asm) link = Some peer ->
    ForwardingTables.pft_get (PeerTable.pft peer) stream = Some pep ->
    ForwardingTables.fe_link (ForwardingTables.next_hop pep) <> PeerTable.LOCAL_ACTOR_LINK_ID ->
    PeerTable.get (peer_table asm) (ForwardingTables.fe_link (ForwardingTables.next_hop pep)) = Some next ->
    PeerTable.is_unspecified (PeerTable.substrate_addr next).1 = false /\
    PeerTable.is_unspecified (PeerTable.interface_addr next).1 = false;
  h_node : ph_mode asm = Node
}.

Lemma healthy_quiet w w1 : quiet w w1 -> healthy w -> healthy w1.
Proof. intros Q []. split; try done; [by rewrite <- (q_mgmt_dispatch _ _ Q)|by rewrite <- (q_worker_gone _ _ Q)]. Qed.

Lemma healthy_next_hop w p link stream next :
  healthy w -> next_hop_of asm p = inl (link, stream) -> link <> PeerTable.LOCAL_ACTOR_LINK_ID ->
  PeerTable.get (peer_table asm) link = Some next ->
  PeerTable.is_unspecified (PeerTable.substrate_addr next).1 = false /\
  PeerTable.is_unspecified (PeerTable.interface_addr next).1 = false.
Proof.
  intros Hw. unfold next_hop_of. rewrite (h_node w Hw).
  destruct (PeerTable.get _ _) as [peer|] eqn:Ep; [|done].
  destruct (ForwardingTables.pft_get _ _) as [pep|] eqn:Ef; [|done]. intros [= <- <-].
  by eapply (h_routes w Hw _ peer).
Qed.

Lemma transit_of_transit link stream p : is_transit (transit_of link stream p) = true.
Proof. done. Qed.

Lemma healthy_egress w link stream p :
  healthy w -> next_hop_of asm p = inl (link, stream) -> link <> PeerTable.LOCAL_ACTOR_LINK_ID -> 8 <= headroom p -> ZDP_PACKET_MAC_SIZE <= tailroom p ->
  ~ egress_trouble asm w link (transit_of link stream p).
Proof.
  intros Hw Hn Hne Hh Ht. destruct 1 as [Hl|Hl|Hl _|Hp Hg|peer sa Hp Hs Hz|peer Hp Hz|peer sa Hp Hs Hl _].
  - cbn in Hl. lia.
  - cbn [tailroom transit_of resize on_metadata] in Hl. unfold egress_tailroom in Hl. rewrite transit_of_transit in Hl. lia.
  - done.
  - by rewrite (h_capture w Hw) in Hg.
  - destruct (h_secured w Hw _ _ _ Hp Hs) as (? & ? & _). by destruct Hz.
  - destruct (healthy_next_hop w _ _ _ _ Hw Hn Hne Hp). destruct Hz; congruence.
  - done.
Qed.

(** A packet that was opened under a ZPI other than 0 has room for a link MAC. *)
Lemma opened_room w zpi link p p1 :
  healthy w -> 0 <= tailroom p -> zpi <> ZPI_0 -> link <> PeerTable.LINK_ID_UNKNOWN ->
  ingress_link_id (metadata p) = link ->
  decrypt asm zpi p = Ret (p1, None) -> headroom p <= headroom p1 /\ ZDP_PACKET_MAC_SIZE <= tailroom p1.
Proof.
  intros Hw Ht Hz Hl El Ed. destruct (decrypt_total asm zpi p Ht) as (q & e & Eq & _ & Hh & _ & Ho).
  rewrite Ed in Eq. injection Eq as <- <-. split; [done|]. specialize (Ho eq_refl). revert Ho. unfold opening.
  unfold decrypt in Ed. rewrite El in *. destruct (association asm link) as [sa|] eqn:Ea.
  - unfold association in Ea. destruct (PeerTable.get _ link) as [peer|] eqn:Ep; [|done].
    destruct (h_secured w Hw _ _ _ Ep Ea) as (_ & _ & s & ->).
    unfold ZDP_PACKET_MAC_SIZE, max_overhead, NOISE_PADLEN, NOISE_NONCE_LEN. destruct (_ =? _); lia.
  - apply Z.eqb_neq in Hz, Hl. by rewrite Hz, Hl in Ed.
Qed.

Lemma flow_packet_room p q : flow_packet p = Some q ->
  headroom q = headroom p + 7 /\ tailroom q = tailroom p.
Proof.
  unfold flow_packet, read_header, ZPI_HDR. destruct (zlen (body p) <? 1); [done|].
  cbn [mbind option_bind body]. destruct (_ <? 2); [done|]. cbn [mbind option_bind body].
  destruct (_ <? 4); [done|]. intros [= <-]. cbn. lia.
Qed.

(** A packet that its sender's route hands to the node's own actor, where it names an
    A2A association or cannot be expanded (see [actor_input_panics_iff]). *)
Definition own_actor_chokes (peer_sa : SubstrateAddr) (ia : ScopedIpAddr) (p : Packet) : Prop :=
  exists zpi rest p1 q stream, body p = zpi :: rest /\ zpi <> ZPI_0 /\
    decrypt asm zpi (on_metadata (set_ingress_link_id (ingress_link asm peer_sa ia)) p) = Ret (p1, None) /\
    flow_packet p1 = Some q /\ next_hop_of asm q = inl (PeerTable.LOCAL_ACTOR_LINK_ID, stream) /\
    input_trouble A2A_SAID_SIZE asm stream q.

(** C40. What arrives from the substrate brings a node in good order down in one
    case only.  Whatever bytes arrive, from whatever address, in a buffer with a byte
    of headroom: either [substrate_ingress] returns, and the packet was forwarded,
    given to the node's actor, handed to management, or dropped for one reason; or the
    packet was accepted on a secured link, its route leads to the node's own actor,
    and there it names an A2A association or cannot be expanded. *)
Theorem node_survives_ingress peer_sa ia p w :
  healthy w -> 1 <= headroom p -> 0 <= tailroom p ->
  (exists w', substrate_ingress A2A_SAID_SIZE asm peer_sa ia p w = Ret (tt, w') /\ handled (buf p) w w') \/
  (substrate_ingress A2A_SAID_SIZE asm peer_sa ia p w = Panic /\ own_actor_chokes peer_sa ia p).
Proof.
  intros Hw Hh Ht. pose proof (substrate_ingress_ok A2A_SAID_SIZE asm peer_sa ia p w ltac:(lia) Ht) as C.
  unfold wp in C. destruct (substrate_ingress _ _ _ _ _ _) as [[[] w']|]; [left; eauto|right; split; [done|]].
  destruct C as [Hp [Hg|Hl]|zpi rest w1 p1 Eb Q En Ed C];
    [by rewrite (h_capture w Hw) in Hg|lia|pose proof (healthy_quiet _ _ Q Hw) as Hw1].
  assert (zpi <> ZPI_0 -> ingress_link_id (metadata p1) <> PeerTable.LINK_ID_UNKNOWN ->
    1 <= headroom p1 /\ ZDP_PACKET_MAC_SIZE <= tailroom p1) as Hroom.
  { intros Hz Hl. pose proof (decrypt_total asm zpi (on_metadata (set_ingress_link_id (ingress_link asm peer_sa ia)) p) Ht) as (? & ? & Eq & [_ Hm] & _).
    rewrite Ed in Eq. injection Eq as <- <-. rewrite Hm in Hl.
    destruct (opened_room w zpi _ (on_metadata (set_ingress_link_id (ingress_link asm peer_sa ia)) p) p1 Hw Ht Hz Hl eq_refl Ed). cbn in *. lia. }
  destruct C as [Hc|q Hf Hz Hl [s Hn Hi|link s Hn Hnl Hr|link s Hn Hnl He]].
  - by rewrite (h_open _ Hw1) in Hc.
  - by exists zpi, rest, p1, q, s.
  - destruct (Hroom Hz Hl). apply flow_packet_room in Hf. cbn in *. lia.
  - destruct (Hroom Hz Hl). apply flow_packet_room in Hf as [? ?].
    exfalso. revert He. apply healthy_egress; [done|done|done|cbn in *; lia..].
Qed.

(** When handing a packet to the actor panics: exactly when it names an
    A2A association, whatever its number, or when the body behind its A2A header
    cannot be expanded, which is tried before its MAC is checked.  Both are in the
    hands of whoever sends the packet. *)
Theorem actor_input_panics_iff tether p w :
  actor_input A2A_SAID_SIZE asm tether p w = Panic <-> input_trouble A2A_SAID_SIZE asm tether p.
Proof.
  split.
  - intros E. pose proof (actor_input_ok A2A_SAID_SIZE asm tether p w) as C. unfold wp in C. by rewrite E in C.
  - unfold actor_input. destruct 1 as [said p1 Er Es|p2 pep Es Ed Ex].
    + by rewrite Er, Es.
    + unfold stripped in Es. destruct (read_header _ p) as [[said p1]|]; [|done]. cbn [mbind option_bind] in Es.
      destruct (forallb _ said); cbn [negb]; [|done]. destruct (_ <? _); [done|].
      unfold mbind, M_bind, lift. destruct (slice _ _ _); [|done]. rewrite bind_Ret.
      destruct (shrink_by _ p1) as [p2'|]; [|done]. injection Es as ->. by rewrite bind_Ret, Ed, Ex.
Qed.

End thms.
End FastpathThms.
