(* ===== verification/FastpathPath.v ===== *)
(** * Packets from one end to the other

    One link: what is sent over it is what comes out.  A whole tether: from the
    actor of one adapter over a node to the actor of another. *)
From Stdlib Require Import ZArith Lia.
From stdpp Require Import base tactics option list gmap.
From S2P Require Import Prelude Slab NetDefs Classifier Compress CompressProps Tc TcProps AdapterTables ForwardingTables PacketBuf Pkt Queues Zdp PeerTable Assembly LinkCrypt LinkCryptProps Fastpath FastpathProps FastpathFates.
From stdpp Require Import list.
Import PacketBuf(Layout, md_size).
Import Pkt Queues LinkCrypt LinkCryptProps Fastpath FastpathProps FastpathFates.

Local Open Scope Z_scope.

Module FastpathPath.

Section link.
Context `{NetDefs} `{Layout} `{Ciphers} {slab : Type -> Type} `{SlabOps slab}.

(** The two ends of an association, at [asm] and [asm']. *)
Record mirrored (asm asm' : Shared slab) (sa sa' : PeerTable.KmTransportSA) : Prop := {
  m_zpis : PeerTable.send_zpis sa = PeerTable.recv_zpis sa';
  m_key : PeerTable.send_hmac_key sa = PeerTable.recv_hmac_key sa';
  m_codec : ends (codecs asm (PeerTable.codec sa)) (codecs asm' (PeerTable.codec sa'));
  m_noise : km_is_noise asm' = true -> exists s, codecs asm' (PeerTable.codec sa') = NoiseCodec s;
  m_apart : PeerTable.hmac (PeerTable.recv_zpis sa') <> PeerTable.encr (PeerTable.recv_zpis sa');
  m_hmac : PeerTable.hmac (PeerTable.recv_zpis sa') <> ZPI_0;
  m_encr : PeerTable.encr (PeerTable.recv_zpis sa') <> ZPI_0
}.

(** A link between [asm] and [asm']: an association at both ends, or at none. *)
Inductive linked (asm asm' : Shared slab) (link link' : Z) (peer : PeerTable.PeerState slab) (ty : Z) : Prop :=
| linked_secured sa sa' : ty <> Zdp.KeyManagement ->
    PeerTable.get_established_transport_association peer = Some sa ->
    association asm' link' = Some sa' -> mirrored asm asm' sa sa' -> linked asm asm' link link' peer ty
| linked_open : PeerTable.get_established_transport_association peer = None ->
    association asm' link' = None -> linked asm asm' link link' peer ty.

(** What comes out at the other end of what went in. *)
Definition comes_out (asm' : Shared slab) (link' : Z) (sent : list Z) (plain : list Z) : Prop :=
  exists zpi rest, sent = zpi :: rest /\
    forall q, body q = sent -> 0 <= tailroom q -> ingress_link_id (metadata q) = link' ->
    exists q', decrypt asm' zpi q = Ret (q', None) /\ same q q' /\ body q' = zpi :: plain /\
      headroom q <= headroom q' /\ 0 <= tailroom q'.

Lemma null_comes_out asm' link' plain :
  association asm' link' = None -> bytes_ok plain ->
  comes_out asm' link' (ZPI_0 :: plain ++ trailer plain) plain.
Proof.
  intros Ha Hb. eexists _, _. split; [done|]. intros q Eq Ht El. unfold decrypt. rewrite El, Ha, Z.eqb_refl. cbn [negb andb].
  rewrite (decrypt_null_ok q ZPI_0 plain Eq Hb). eexists. split; [done|]. repeat split; cbn; lia.
Qed.

Lemma hmac_comes_out asm' link' sa' plain :
  association asm' link' = Some sa' ->
  let zpi := PeerTable.hmac (PeerTable.recv_zpis sa') in
  comes_out asm' link' ((zpi :: plain) ++ link_mac (PeerTable.recv_hmac_key sa') (zpi :: plain)) plain.
Proof.
  intros Ha zpi. eexists _, _. split; [done|]. intros q Eq Ht El. unfold decrypt. rewrite El, Ha.
  unfold decrypt_with_sa. fold zpi. rewrite Z.eqb_refl, (decrypt_hmac_ok _ _ _ Eq).
  eexists. split; [done|]. unfold ZDP_PACKET_MAC_SIZE. repeat split; cbn; lia.
Qed.

Lemma encr_comes_out asm asm' link' sa sa' plain out :
  association asm' link' = Some sa' -> mirrored asm asm' sa sa' ->
  zlen out <= PACKET_BUFFER_SIZE -> zlen plain + max_overhead (codecs asm' (PeerTable.codec sa')) <= zlen out ->
  (forall room, zlen out <= room -> decrypt_transport_stateless (codecs asm' (PeerTable.codec sa')) out room = inl plain) ->
  comes_out asm' link' (PeerTable.encr (PeerTable.recv_zpis sa') :: out) plain.
Proof.
  intros Ha Hm Hs Ho Hd. eexists _, _. split; [done|]. intros q Eq Ht El. unfold decrypt. rewrite El, Ha.
  unfold decrypt_with_sa. rewrite (proj2 (Z.eqb_neq _ _)) by (apply not_eq_sym, (m_apart _ _ _ _ Hm)).
  rewrite Z.eqb_refl. pose proof (zlen_nonneg plain).
  assert (0 <= max_overhead (codecs asm' (PeerTable.codec sa'))) by (by destruct (codecs _ _)).
  assert ((if km_is_noise asm' then NOISE_PADLEN else 0) <= zlen out) as Hp.
  { pose proof (m_noise _ _ _ _ Hm) as Hn. destruct (km_is_noise asm'); [|lia].
    destruct (Hn eq_refl) as [s Es]. rewrite Es in Ho. cbn in Ho. lia. }
  destruct (decrypt_full_ok _ _ q _ plain out Eq Hp Ht Hs ltac:(lia) Hd) as (hr & tr & -> & ? & ? & _).
  eexists. split; [done|]. repeat split; cbn; lia.
Qed.

Definition capture_runs (asm : Shared slab) (w : Worker) : Prop :=
  program_exists asm = true -> worker_gone (capture_q w) = false.

(** A worker that can send: a running capture worker, if any, and nonces left. *)
Definition can_send (asm : Shared slab) (w : Worker) : Prop :=
  capture_runs asm w /\
  forall c, 0 <= encr_nonce w c < 2 ^ 64 - 1.

(** The room that sending needs around a packet. *)
Definition room_to_send (p : Packet) : Prop :=
  2 <= headroom p /\ NOISE_PADLEN <= tailroom p /\ zlen (body p) + tailroom p < PACKET_BUFFER_SIZE.

(** A packet under a link MAC. *)
Definition sealed (zpi : Z) (key bytes : list Z) : list Z := (zpi :: bytes) ++ link_mac key (zpi :: bytes).

Definition egress_to (peer : PeerTable.PeerState slab) (flow : Z) : EgressResult :=
  Egress (PeerTable.substrate_addr peer) (set_flowinfo (PeerTable.substrate_addr peer) flow)
    (PeerTable.interface_addr peer).

(** Capture of a packet that just got its ZPI. *)
Lemma captured asm w p z (Q : unit -> Worker -> Prop) :
  capture_runs asm w -> 2 <= headroom p ->
  (forall w', quiet w w' -> encr_nonce w' = encr_nonce w -> Q tt w') ->
  wp False (maybe_capture asm Outbound (resize p (headroom p - 1) (z :: body p) (tailroom p))) w Q.
Proof.
  intros Hc Hh HQ. eapply tr_weaken; [|eapply tr_mono; [apply capture_ok|]].
  - intros [Hp [Hg|Hg]]; [cbn in Hg; lia|by rewrite Hc in Hg].
  - intros [] w' [Hq He]. by apply HQ.
Qed.

Lemma zpi_pushed p z :
  2 <= headroom p -> encap_zpi z p = Ret (resize p (headroom p - 1) (z :: body p) (tailroom p)).
Proof. intros Hh. apply (push_ok p [z]). unfold zlen. cbn [length]. lia. Qed.

(** A transit packet leaves under the MAC of the association. *)
Lemma transit_sent asm link peer sa hdr rest p w :
  capture_runs asm w -> 2 <= headroom p -> ZDP_PACKET_MAC_SIZE <= tailroom p ->
  Zdp.read_base (body p) = Some (hdr, rest) -> Zdp.packet_type hdr = Zdp.TransitPacket ->
  PeerTable.get (peer_table asm) link = Some peer ->
  PeerTable.get_established_transport_association peer = Some sa ->
  PeerTable.hmac (PeerTable.send_zpis sa) <> ZPI_0 ->
  wp False (substrate_egress_common asm link p) w
    (fun '(p', r) w' => quiet w w' /\ buf p' = buf p /\
       body p' = sealed (PeerTable.hmac (PeerTable.send_zpis sa)) (PeerTable.send_hmac_key sa) (body p) /\
       r = egress_to peer (flowhash p)).
Proof.
  intros Hc Hh Ht Eb Et Ep Ha Hz. unfold substrate_egress_common. rewrite Eb, Ep. cbv zeta. rewrite Et.
  change (Zdp.TransitPacket =? Zdp.KeyManagement) with false. change (Zdp.TransitPacket =? Zdp.TransitPacket) with true.
  cbv iota. rewrite Ha. fp_step. unfold rust_assert. rewrite (proj2 (Z.eqb_neq _ _) Hz). apply tr_lift. cbn [negb].
  fp_step. rewrite zpi_pushed by done. apply tr_lift. fp_step. apply captured; [done..|]. intros w' Q _. fp_step.
  rewrite encrypt_hmac_ok by done. apply tr_lift. cbn [fmap outcome_fmap]. fp_step. done.
Qed.

(** What [substrate_egress_common] sends comes out at the other end. *)
Lemma link_carries asm asm' link link' peer hdr rest p w :
  can_send asm w -> room_to_send p -> (association asm' link' = None -> bytes_ok (body p)) ->
  Zdp.read_base (body p) = Some (hdr, rest) ->
  PeerTable.get (peer_table asm) link = Some peer ->
  linked asm asm' link link' peer (Zdp.packet_type hdr) ->
  wp False (substrate_egress_common asm link p) w
    (fun '(p', r) w' => quiet w w' /\ buf p' = buf p /\
       comes_out asm' link' (body p') (body p) /\
       r = egress_to peer (flowhash p)).
Proof.
  intros [Hc Hn] (Hh & Ht & Hs) Hb Eb Ep Hl. unfold NOISE_PADLEN, NOISE_NONCE_LEN in *.
  destruct Hl as [sa sa' Hkm Ha Ha' Hm|Ha Ha'].
  - destruct (Z.eqb_spec (Zdp.packet_type hdr) Zdp.TransitPacket) as [Et|Et].
    { eapply tr_mono; [eapply (transit_sent asm link peer sa); try done; [unfold ZDP_PACKET_MAC_SIZE; lia|]|].
      - rewrite (m_zpis _ _ _ _ Hm). apply (m_hmac _ _ _ _ Hm).
      - intros [p' r] w' (Q & Hbuf & -> & ->). rewrite (m_key _ _ _ _ Hm), (m_zpis _ _ _ _ Hm).
        repeat split; [apply Q..|done|]. by apply hmac_comes_out. }
    unfold substrate_egress_common. rewrite Eb, Ep. cbv zeta. rewrite (proj2 (Z.eqb_neq _ _) Hkm), Ha, (m_zpis _ _ _ _ Hm).
    rewrite (proj2 (Z.eqb_neq _ _) Et). fp_step.
    unfold rust_assert. rewrite (proj2 (Z.eqb_neq _ _) (m_encr _ _ _ _ Hm)). cbn [negb]. apply tr_lift.
    fp_step. rewrite zpi_pushed by done. apply tr_lift. fp_step. apply captured; [done..|]. intros w' Q En. fp_step.
    unfold next_nonce. do 6 fp_step. apply tr_lift. rewrite En.
    assert (max_overhead (codecs asm (PeerTable.codec sa)) <= 24) as Ho by (by destruct (codecs _ _)).
    pose proof (zlen_nonneg (body p)). unfold PACKET_BUFFER_SIZE in *.
    destruct (encrypt_any_room _ _ (encr_nonce w (PeerTable.codec sa)) (body p) (m_codec _ _ _ _ Hm) (Hn _))
      as (out & Hlen & He & Hd); [unfold NOISE_PADLEN, NOISE_NONCE_LEN; lia|].
    destruct (encrypt_full_ok (codecs asm (PeerTable.codec sa)) (encr_nonce w (PeerTable.codec sa))
      (resize p (headroom p - 1) (PeerTable.encr (PeerTable.recv_zpis sa') :: body p) (tailroom p))
      (PeerTable.encr (PeerTable.recv_zpis sa')) (body p) out) as (hr & tr & -> & _ & _ & _);
      [done|cbn; lia|unfold PACKET_BUFFER_SIZE; lia|lia|done|]. fp_step.
    split; [by etransitivity; [exact Q|split]|]. split; [done|]. split; [|done].
    eapply encr_comes_out; [done|done|unfold PACKET_BUFFER_SIZE; lia| |done].
    assert (max_overhead (codecs asm' (PeerTable.codec sa')) = max_overhead (codecs asm (PeerTable.codec sa))) as ->
      by (by destruct (m_codec _ _ _ _ Hm)). lia.
  - unfold substrate_egress_common. rewrite Eb, Ep. cbv zeta. rewrite Ha.
    assert ((if Zdp.packet_type hdr =? Zdp.KeyManagement then None else None) =
      @None PeerTable.KmTransportSA) as -> by (by destruct (_ =? _)).
    fp_step. apply tr_lift. cbn [rust_assert]. fp_step. rewrite zpi_pushed by done. apply tr_lift. fp_step.
    apply captured; [done..|]. intros w' Q _. fp_step.
    rewrite (encrypt_null_ok _ ZPI_0 (body p)) by (auto || cbn; lia).
    apply tr_lift. cbn [fmap outcome_fmap]. fp_step. split; [done|]. split; [done|]. split; [|done].
    apply null_comes_out; auto.
Qed.

(** C9. What goes into a link comes out of it.  Between two ends that hold the
    two halves of one security association, or neither of them one: a packet that
    [substrate_egress_common] sends is accepted by [decrypt] at the other end, which
    gives back the packet behind its ZPI byte for byte.  This covers the three
    protections (checksums, also over an odd number of bytes; link MACs of transit
    packets; encryption in full) and both ways of using the buffers (in the
    tailroom or through a scratch buffer).  Key-management packets always go under
    ZPI 0, so for them the link must not have an association yet. *)
Theorem link_roundtrip asm asm' link link' peer hdr rest p w :
  can_send asm w -> room_to_send p -> (association asm' link' = None -> bytes_ok (body p)) ->
  Zdp.read_base (body p) = Some (hdr, rest) ->
  PeerTable.get (peer_table asm) link = Some peer ->
  linked asm asm' link link' peer (Zdp.packet_type hdr) ->
  exists p' w',
    substrate_egress_common asm link p w = Ret ((p', egress_to peer (flowhash p)), w') /\
    comes_out asm' link' (body p') (body p).
Proof.
  intros Hc Hr Hb Eb Ep Hl. pose proof (link_carries asm asm' link link' peer hdr rest p w Hc Hr Hb Eb Ep Hl) as C.
  unfold wp in C. destruct (substrate_egress_common asm link p w) as [[[p' r] w']|]; [|done].
  destruct C as (_ & _ & Ho & ->). eauto.
Qed.

(** ** Relaying *)

Definition transit_bytes (stream : Z) (payload : list Z) : list Z :=
  Zdp.base_bytes (Zdp.mkBase Zdp.TransitPacket 0) ++ be_bytes 4 stream ++ payload.

(** One direction of a secured link: what the sender and the receiver have. *)
Record secured (asm asm' : Shared slab) (link : Z) (peer : PeerTable.PeerState slab)
    (sa : PeerTable.KmTransportSA) (link' : Z) (sa' : PeerTable.KmTransportSA) : Prop := {
  s_peer : PeerTable.get (peer_table asm) link = Some peer;
  s_sa : PeerTable.get_established_transport_association peer = Some sa;
  s_sa' : association asm' link' = Some sa';
  s_mirrored : mirrored asm asm' sa sa';
  s_dst : PeerTable.is_unspecified (PeerTable.substrate_addr peer).1 = false;
  s_src : PeerTable.is_unspecified (PeerTable.interface_addr peer).1 = false;
  s_link : link <> PeerTable.LOCAL_ACTOR_LINK_ID;
  s_link' : link' <> PeerTable.LINK_ID_UNKNOWN
}.

(** The queued packet [q] carries [bytes] to the receiver's end of a link. *)
Definition carries (sa' : PeerTable.KmTransportSA) (peer : PeerTable.PeerState slab) (bytes : list Z)
    (q : QueuedEgressPacket) : Prop :=
  body (q_pkt q) = sealed (PeerTable.hmac (PeerTable.recv_zpis sa')) (PeerTable.recv_hmac_key sa') bytes /\
  dst q = PeerTable.substrate_addr peer /\ src q = PeerTable.interface_addr peer.

Context (A2A_SAID_SIZE : nat).

(** [m] queues a packet for the substrate. *)
Definition queues (m : M unit) (w : Worker) (Q : QueuedEgressPacket -> Prop) : Prop :=
  wp False m w (fun _ w' => exists q, quiet (after (ToSubstrate q) w) w' /\ Q q).

Lemma read_ok n p h r :
  body p = h ++ r -> zlen h = n -> read_header n p = Some (h, resize p (headroom p + n) r (tailroom p)).
Proof.
  intros E <-. unfold read_header. rewrite E, zlen_app. pose proof (zlen_nonneg r).
  rewrite (proj2 (Z.ltb_ge _ _)) by lia. rewrite take_front by done.
  rewrite drop_app_length' by (unfold zlen; lia). done.
Qed.

Lemma forward_sends asm asm' link peer sa link' sa' stream p w :
  secured asm asm' link peer sa link' sa' ->
  capture_runs asm w -> 8 <= headroom p -> ZDP_PACKET_MAC_SIZE <= tailroom p ->
  next_hop_of asm p = inl (link, stream) ->
  queues (forward A2A_SAID_SIZE asm p) w (carries sa' peer (transit_bytes stream (body p))).
Proof.
  intros Hs Hc Hh Ht Hn. unfold queues, forward. rewrite Hn, (proj2 (Z.eqb_neq _ _) (s_link _ _ _ _ _ _ _ Hs)).
  assert (zlen (be_bytes 4 stream) = 4) as Hz by (unfold zlen; by rewrite length_be_bytes).
  fp_step. apply tr_lift. rewrite push_ok by lia. fp_step. apply tr_lift.
  rewrite push_ok by (cbn [headroom resize]; change (zlen (Zdp.base_bytes (Zdp.mkBase Zdp.TransitPacket 0))) with 2; lia).
  set (p2 := on_metadata _ _). unfold substrate_egress. fp_step.
  pose proof (s_mirrored _ _ _ _ _ _ _ Hs) as Hm.
  eapply tr_mono; [eapply (transit_sent asm link peer sa (Zdp.mkBase Zdp.TransitPacket 0) (be_bytes 4 stream ++ body p));
    [done| | |done|done|by apply Hs|by apply Hs|]|].
  - cbn [p2 on_metadata headroom resize]. change (zlen (Zdp.base_bytes (Zdp.mkBase Zdp.TransitPacket 0))) with 2. lia.
  - done.
  - rewrite (m_zpis _ _ _ _ Hm). apply (m_hmac _ _ _ _ Hm).
  - intros [p' r] w' (Q & Hb & Eb & ->). cbn [egress_to]. fp_step. apply tr_lift.
    unfold rust_assert at 1. rewrite (s_dst _ _ _ _ _ _ _ Hs). cbn [negb]. fp_step. apply tr_lift.
    unfold rust_assert at 1. rewrite (s_src _ _ _ _ _ _ _ Hs). cbn [negb]. fp_step.
    eexists. split; [by apply (after_quiet (ToSubstrate _))|]. repeat split.
    cbn [q_pkt]. rewrite Eb, (m_key _ _ _ _ Hm), (m_zpis _ _ _ _ Hm). done.
Qed.

(** A sealed transit packet goes on to [forward] at the receiver. *)
Lemma ingress_forwards (P : Prop) asm' peer_sa ia link' sa' stream payload p w (Q : unit -> Worker -> Prop) :
  capture_runs asm' w -> 1 <= headroom p -> 0 <= stream < 2 ^ 32 ->
  ingress_link asm' peer_sa ia = link' -> link' <> PeerTable.LINK_ID_UNKNOWN ->
  association asm' link' = Some sa' -> PeerTable.hmac (PeerTable.recv_zpis sa') <> ZPI_0 ->
  body p = sealed (PeerTable.hmac (PeerTable.recv_zpis sa')) (PeerTable.recv_hmac_key sa') (transit_bytes stream payload) ->
  (forall q w1, quiet w w1 -> body q = payload -> buf q = buf p -> ingress_link_id (metadata q) = link' ->
     ingress_stream_id (metadata q) = stream -> headroom q = headroom p + 7 ->
     tailroom q = tailroom p + ZDP_PACKET_MAC_SIZE -> wp P (forward A2A_SAID_SIZE asm' q) w1 Q) ->
  wp P (substrate_ingress A2A_SAID_SIZE asm' peer_sa ia p) w Q.
Proof.
  intros Hc Hh Hst El Hl Ha Hz Eb Hk. unfold substrate_ingress. cbv zeta. fold (ingress_link asm' peer_sa ia).
  rewrite El. set (p1 := on_metadata _ p). change (body p1) with (body p). rewrite Eb at 1. cbn [sealed app].
  unfold decrypt. change (ingress_link_id (metadata p1)) with link'. rewrite Ha. unfold decrypt_with_sa.
  rewrite Z.eqb_refl. fp_step. rewrite (decrypt_hmac_ok _ p1 _ Eb). apply tr_lift. fp_step.
  eapply tr_weaken; [|eapply tr_mono; [apply capture_ok|]].
  { intros [Hp [Hg|Hg]]; [cbn in Hg; lia|by rewrite Hc in Hg]. }
  intros [] w1 [Q1 _]. unfold ingress_decrypted.
  set (p2 := resize p1 _ _ _). rewrite (read_ok ZPI_HDR p2 [PeerTable.hmac (PeerTable.recv_zpis sa')] (transit_bytes stream payload)) by done.
  change (ingress_link_id (metadata (resize p2 _ _ _))) with link'. rewrite (proj2 (Z.eqb_neq _ _) Hl).
  set (p3 := resize p2 _ _ _).
  rewrite (read_ok 2 p3 (Zdp.base_bytes (Zdp.mkBase Zdp.TransitPacket 0)) (be_bytes 4 stream ++ payload)) by done.
  change (Zdp.read_base (body p3)) with (Some (Zdp.mkBase Zdp.TransitPacket 0, be_bytes 4 stream ++ payload)).
  cbv beta iota zeta. rewrite (proj2 (Z.eqb_neq _ _) Hz). cbn [andb Zdp.packet_type].
  change (negb (Zdp.TransitPacket =? Zdp.TransitPacket)) with false. cbv iota. set (p4 := resize p3 _ _ _).
  rewrite (read_ok 4 p4 (be_bytes 4 stream) payload) by (done || unfold zlen; by rewrite length_be_bytes).
  rewrite from_be_be_bytes, Z.mod_small by (change (8 * Z.of_nat 4) with 32; lia).
  apply Hk; try done. cbn. unfold ZPI_HDR. lia.
Qed.

End link.
End FastpathPath.
