(* ===== verification/FastpathTether.v ===== *)
(** * A tether from actor to actor

    What becomes of an actor's packet on the way to the actor of another adapter:
    an IPv6 packet is delivered with its hop limit decremented, an IPv4 packet is
    not delivered. *)
From Stdlib Require Import ZArith Lia.
From stdpp Require Import base tactics option list gmap.
From S2P Require Import Prelude Slab NetDefs Classifier Compress CompressProps Tc TcProps AdapterTables ForwardingTables PacketBuf Pkt Queues Zdp PeerTable Assembly LinkCrypt LinkCryptProps Fastpath FastpathProps FastpathFates FastpathPath.
From stdpp Require Import list.
Import PacketBuf(Layout, md_size).
Import Classifier Compress CompressProps.
Import Pkt Queues LinkCrypt LinkCryptProps Fastpath FastpathProps FastpathFates FastpathPath.

Local Open Scope Z_scope.

Module FastpathTether.

Section bytes.
Context `{NetDefs}.

(** ** How much compression changes the size *)

Lemma advance_size b n b' : Compress.advance b n = Ret b' -> zlen b' = zlen b - Z.of_nat n.
Proof.
  unfold Compress.advance. destruct (Z.ltb_spec (zlen b) (Z.of_nat n)); [done|]. intros [= <-].
  unfold zlen in *. rewrite length_drop. lia.
Qed.
Lemma get_u16_size b x b' : get_u16 b = Ret (x, b') -> zlen b' = zlen b - 2.
Proof.
  unfold get_u16, get_array. destruct (Z.ltb_spec (zlen b) (Z.of_nat 2)); [done|]. rewrite bind_Ret. intros [= <- <-].
  unfold zlen in *. rewrite length_drop. lia.
Qed.
Lemma write_size {A} (l xs l' : list A) a : write_at l a xs = Ret l' -> zlen l' = zlen l.
Proof.
  unfold write_at. destruct (Z.leb_spec 0 a); [|done]. destruct (Z.leb_spec (a + zlen xs) (zlen l)); [|done].
  intros [= <-]. unfold zlen in *. rewrite !length_app, length_take, length_drop. lia.
Qed.
Lemma push_ports_size mode s d b : zlen b <= zlen (push_ports mode s d b) <= zlen b + 4.
Proof.
  unfold push_ports, push_u16. destruct (port_absent _ DESTINATION_PORT_PRESENT), (port_absent _ SOURCE_PORT_PRESENT);
    rewrite ?zlen_app; unfold zlen; rewrite ?length_be_bytes; lia.
Qed.

Lemma compress_l4_size mode l4 b c : compress_l4 mode l4 b = Ret c -> zlen b - 6 <= zlen c <= zlen b.
Proof.
  unfold compress_l4, compress_tcp, compress_udp. destruct (_ =? TCP); [|destruct (_ =? UDP); [|intros [= <-]; lia]];
    (destruct (get_u16 b) as [[s b1]|] eqn:E1; [|done]); rewrite bind_Ret;
    (destruct (get_u16 b1) as [[d b2]|] eqn:E2; [|done]); rewrite bind_Ret;
    apply get_u16_size in E1, E2.
  - unfold copy_within. destruct (slice b2 0 12) as [xs|]; [|done]. rewrite bind_Ret.
    destruct (write_at b2 2 xs) as [b3|] eqn:E3; [|done]. rewrite bind_Ret. apply write_size in E3.
    destruct (Compress.advance b3 2) as [b4|] eqn:E4; [|done]. intros [= <-]. apply advance_size in E4.
    pose proof (push_ports_size mode s d b4). lia.
  - destruct (Compress.advance b2 2) as [b4|] eqn:E4; [|done]. intros [= <-]. apply advance_size in E4.
    pose proof (push_ports_size mode s d b4). lia.
Qed.

Lemma range_size l i n : zlen (range l i n) <= Z.of_nat n.
Proof. unfold range, zlen. rewrite length_take. lia. Qed.

Lemma compress_size mode l3 l4 b c : compress mode l3 l4 b = Ret c -> zlen b - 43 <= zlen c <= zlen b.
Proof.
  unfold compress, compress_ipv4, compress_ipv6. destruct (l3 =? Ipv4); [|destruct (l3 =? Ipv6); [|intros [= <-]; lia]].
  - destruct (slice b 0 IPV4_HEADER) as [h|]; [|done]. rewrite bind_Ret. cbv zeta.
    destruct (Compress.advance b 20) as [b1|] eqn:E1; [|done]. rewrite bind_Ret.
    destruct (compress_l4 mode l4 b1) as [b2|] eqn:E2; [|done]. intros [= <-].
    apply advance_size in E1. apply compress_l4_size in E2. pose proof (range_size h 4 2).
    pose proof (zlen_nonneg (range h 4 2)).
    assert (forall x, zlen (be_bytes 2 x) = 2) as Hz by (intros; unfold zlen; by rewrite length_be_bytes).
    destruct (negb _); unfold push_u16; repeat (rewrite Hz || rewrite zlen_app || rewrite zlen_cons);
      change (zlen (@nil Z)) with 0; lia.
  - destruct (slice b 0 IPV6_HEADER) as [h|]; [|done]. rewrite bind_Ret.
    destruct (Compress.advance b 40) as [b1|] eqn:E1; [|done]. rewrite bind_Ret.
    destruct (compress_l4 mode l4 b1) as [b2|] eqn:E2; [|done]. intros [= <-].
    apply advance_size in E1. apply compress_l4_size in E2. pose proof (range_size h 2 2).
    pose proof (zlen_nonneg (range h 2 2)).
    repeat (rewrite zlen_app || rewrite zlen_cons). change (zlen (@nil Z)) with 0. lia.
Qed.

(** ** Packets with a lower time to live *)

Definition lowered (i : nat) (b : list Z) : list Z := take i b ++ [byte_at b i - 1] ++ drop (S i) b.

Lemma classify_version ft0 v rest :
  is_byte v -> classify ft0 (v :: rest) =
    if Z.shiftr v 4 =? 4 then classify_ipv4 default_options ft0 (v :: rest)
    else if Z.shiftr v 4 =? 6 then classify_ipv6 default_options ft0 (v :: rest)
    else Classifier.ok ft0 NonIP.
Proof.
  intros Hv. unfold classify, classify_with_options, classify_zdp, classify_l3, get_ip_version.
  assert (index (v :: rest) 0 = Ret v) as Hi by done. rewrite Hi, bind_Ret. cbn [mret outcome_ret].
  rewrite bind_Ret, version_of_byte by done. done.
Qed.

Lemma lowered_bytes i b : bytes_ok b -> 1 <= byte_at b i -> bytes_ok (lowered i b).
Proof.
  intros Hb Ht. unfold lowered, bytes_ok. apply list.Forall_app. split; [by apply Forall_take|].
  constructor; [|by apply Forall_drop]. unfold byte_at in *. destruct (b !! i) as [x|] eqn:E; [|cbn in Ht; lia].
  pose proof (Forall_lookup_1 _ _ _ _ Hb E) as Hx. unfold is_byte in *. cbn in *. lia.
Qed.

Lemma accepted_ipv6 ft0 body ft r :
  bytes_ok body -> classify ft0 body = Ret (ft, inl r) ->
  plain_headers body = true -> Z.shiftr (byte_at body 0) 4 = 6 ->
  l3_type ft = Ipv6 /\ IPV6_HEADER <= zlen body.
Proof.
  intros Hb Hc Hp Hv. destruct body as [|v rest]; [done|]. change (byte_at (v :: rest) 0) with v in Hv.
  rewrite classify_version, Hv in Hc by (by apply list.Forall_cons in Hb as [? _]). cbn [Z.eqb Pos.eqb] in Hc.
  unfold plain_headers, protocol_of in Hp. change (byte_at (v :: rest) 0) with v in Hp. rewrite Hv in Hp.
  cbn [Z.eqb Pos.eqb negb orb] in Hp. rewrite andb_true_r in Hp. apply negb_true_iff in Hp.
  unfold classify_ipv6 in Hc. destruct (Z.ltb_spec (zlen (v :: rest)) IPV6_HEADER); [done|].
  destruct (_ || _); [done|]. destruct (_ && _); [done|]. destruct (_ || _); [done|].
  apply l4_fields in Hc as (_ & _ & E3 & _); done.
Qed.

(** An IPv6 packet with its hop limit lowered survives the tether like the
    packet itself: nothing in it depends on the hop limit. *)
Lemma lowered_ipv6 mode ft0 body ft r g :
  bytes_ok body -> classify ft0 body = Ret (ft, inl r) -> r = OK \/ r = UnclassifiedL4 ->
  plain_headers body = true -> checksums_canonical ft body -> agrees mode ft g ->
  Z.shiftr (byte_at body 0) 4 = 6 -> 1 <= byte_at body 7 ->
  exists c, compress mode (l3_type ft) (l4_protocol ft) (lowered 7 body) = Ret c /\
            expand mode g c = Ret (lowered 7 body).
Proof.
  intros Hb Hc Hr Hp Hs Hg Hv Ht. destruct (accepted_ipv6 ft0 body ft r Hb Hc Hp Hv) as [H3 Hlen].
  refine (classified_back mode ft0 _ ft r g (lowered_bytes 7 body Hb Ht) _ Hr _ _ Hg).
  all: do 8 (destruct body as [|? body]; [done|]); unfold lowered in *; cbn [take drop app] in *; rewrite drop_0 in *.
  - apply list.Forall_cons in Hb as [Hb _]. cbn in Hv.
    rewrite classify_version, Hv in Hc by done. by rewrite classify_version, Hv by done.
  - done.
  - destruct Hs as [Hs3 Hs4]. rewrite H3 in *. rewrite (proj2 (Z.eqb_neq _ _) (not_eq_sym l3_distinct)) in *.
    split; [intros E; rewrite H3 in E; by apply (not_eq_sym l3_distinct) in E|]. rewrite H3.
    by rewrite (proj2 (Z.eqb_neq _ _) (not_eq_sym l3_distinct)).
Qed.

(** Lowering the time to live of an IPv4 header changes its checksum. *)
Lemma fold16_shift x : 256 < x -> fold16 x <> fold16 (x - 256).
Proof.
  intros Hx E. unfold fold16 in E. rewrite !(proj2 (Z.eqb_neq _ _)) in E by lia.
  assert ((x - 1) mod 65535 = (x - 256 - 1) mod 65535) as E' by lia.
  pose proof (Z.div_mod (x - 1) 65535 ltac:(lia)). pose proof (Z.div_mod (x - 256 - 1) 65535 ltac:(lia)). nia.
Qed.

Lemma be_bytes_2_inj x y : 0 <= x < 65536 -> 0 <= y < 65536 -> be_bytes 2 x = be_bytes 2 y -> x = y.
Proof.
  intros Hx Hy E. apply (f_equal from_be) in E. rewrite !from_be_be_bytes in E.
  change (2 ^ (8 * Z.of_nat 2)) with 65536 in E. rewrite !Z.mod_small in E by lia. done.
Qed.

Lemma ipv4_sum_shift tos t1 t2 i1 i2 f1 f2 ttl pr (tl : list Z) :
  let hdr ttl := [0x45; tos; t1; t2; i1; i2; f1; f2; ttl; pr; 0; 0] ++ tl in
  bytes_ok (hdr ttl) -> bytes_ok (hdr (ttl - 1)) ->
  be_bytes 2 (ip4sum_checksum (hdr ttl)) <> be_bytes 2 (ip4sum_checksum (hdr (ttl - 1))).
Proof.
  intros hdr Hb Hb' E. rewrite !checksum_rfc1071 in E by done.
  pose proof (rfc1071_range _ Hb). pose proof (rfc1071_range _ Hb'). apply be_bytes_2_inj in E; [|lia..].
  unfold rfc1071 in E. assert (fold16 (sum16 (hdr ttl)) = fold16 (sum16 (hdr (ttl - 1)))) as E' by lia.
  revert E'. replace (sum16 (hdr (ttl - 1))) with (sum16 (hdr ttl) - 256) by (unfold hdr; cbn [app sum16]; lia).
  apply fold16_shift. unfold bytes_ok, hdr in Hb. cbn [app] in Hb. rewrite !list.Forall_cons in Hb.
  destruct Hb as (?&?&?&?&?&?&?&?&?&?&?&?&Htl). pose proof (sum16_nonneg tl Htl).
  unfold is_byte in *. unfold hdr. cbn [app sum16]. lia.
Qed.

(** Compression does not look at the checksum of an IPv4 header. *)
Lemma compress_ipv4_checksum mode l4 (h : list Z) c1 c2 d1 d2 (tl rest : list Z) :
  length h = 10%nat -> length tl = 8%nat ->
  compress_ipv4 mode l4 ((h ++ [c1; c2] ++ tl) ++ rest) = compress_ipv4 mode l4 ((h ++ [d1; d2] ++ tl) ++ rest).
Proof.
  intros Hh Ht. unfold compress_ipv4.
  assert (forall a b, slice ((h ++ [a; b] ++ tl) ++ rest) 0 IPV4_HEADER = Ret (h ++ [a; b] ++ tl)) as Hs.
  { intros a b. apply (slice_mid []); [done|]. unfold zlen, IPV4_HEADER. rewrite !length_app, Hh, Ht. done. }
  rewrite !Hs. clear Hs.
  rewrite !bind_Ret. do 10 (destruct h as [|? h]; [done|]). destruct h; [|done].
  do 8 (destruct tl as [|? tl]; [done|]). by destruct tl.
Qed.

(** [e] is the IPv4 packet [d] with another header checksum. *)
Definition other_checksum (d e : list Z) : Prop :=
  exists c1 c2, e = take 10 d ++ [c1; c2] ++ drop 12 d.

(** An IPv4 packet with its time to live lowered and its checksum left alone is
    expanded to another packet, the one with the right checksum. *)
Lemma lowered_ipv4 mode ft0 body ft r g :
  bytes_ok body -> classify ft0 body = Ret (ft, inl r) -> r = OK \/ r = UnclassifiedL4 ->
  plain_headers body = true -> checksums_canonical ft body -> agrees mode ft g ->
  Z.shiftr (byte_at body 0) 4 = 4 -> 1 <= byte_at body 8 ->
  l3_type ft = Ipv4 /\ IPV4_HEADER <= zlen body /\
  exists c e, compress mode (l3_type ft) (l4_protocol ft) (lowered 8 body) = Ret c /\
              expand mode g c = Ret e /\ e <> lowered 8 body /\ other_checksum (lowered 8 body) e.
Proof.
  intros Hb Hc Hr Hp [Hs3 Hs4] Hg Hv Ht. pose proof Hg as (_ & _ & G3 & G4 & _).
  destruct body as [|v rest]; [done|]. change (byte_at (v :: rest) 0) with v in Hv.
  rewrite classify_version, Hv in Hc by (by apply list.Forall_cons in Hb as [? _]). cbn [Z.eqb Pos.eqb] in Hc.
  unfold plain_headers, protocol_of in Hp. change (byte_at (v :: rest) 0) with v in Hp. rewrite Hv in Hp.
  cbn [Z.eqb Pos.eqb negb orb] in Hp. apply andb_true_iff in Hp as [Hx H45]. apply negb_true_iff in Hx. apply Z.eqb_eq in H45.
  destruct (ipv4_shape mode ft0 (v :: rest) ft r g Hb Hc) as (E3 & tos & t1 & t2 & i1 & i2 & f1 & f2 & ttl & c1 & c2 &
    src & dst & l4 & Eb & Bt1 & Bt2 & Bf1 & Bf2 & Hsrc & Hdst & Hlen & Rs & Rd & C4); [by intros ->; destruct Hr..|done|done| |done|].
  { intros E. by rewrite E, Z.eqb_refl in Hs4. }
  specialize (Hs3 E3). rewrite Eb in *. clear Eb v rest Hv H45.
  split; [done|]. split.
  { unfold zlen, IPV4_HEADER. rewrite !length_app, Hsrc, Hdst. cbn [length]. lia. }
  do 4 (destruct src as [|? src]; [done|]). destruct src; [|done].
  do 4 (destruct dst as [|? dst]; [done|]). destruct dst; [|done].
  set (src := [z; z0; z1; z2]) in *. set (dst := [z3; z4; z5; z6]) in *.
  set (hdr ttl := [0x45; tos; t1; t2; i1; i2; f1; f2; ttl; l4_protocol g; 0; 0] ++ src ++ dst).
  assert (exists d1 d2, [d1; d2] = be_bytes 2 (ip4sum_checksum (hdr (ttl - 1)))) as (d1 & d2 & Hd).
  { pose proof (length_be_bytes 2 (ip4sum_checksum (hdr (ttl - 1)))) as L. destruct (be_bytes 2 _) as [|x [|y [|]]]; try done. eauto. }
  destruct (ipv4_back mode g tos t1 t2 i1 i2 f1 f2 (ttl - 1) d1 d2 src dst l4) as (c & Ec & Ee); try done.
  change (byte_at _ 8) with ttl in Ht.
  eexists c, _. split; [|split; [|split]]; cycle 3.
  { by exists d1, d2. }
  - rewrite <- G4, E3. unfold compress. rewrite Z.eqb_refl, <- Ec.
    apply (compress_ipv4_checksum mode (l4_protocol g) [0x45; tos; t1; t2; i1; i2; f1; f2; ttl - 1; l4_protocol g] c1 c2 d1 d2 (src ++ dst) l4); done.
  - unfold expand. rewrite G3, E3, Z.eqb_refl. exact Ee.
  - assert (bytes_ok (hdr ttl) /\ bytes_ok (hdr (ttl - 1))) as [B1 B2].
    { unfold bytes_ok, hdr, src, dst in *. cbn [app] in *. rewrite !list.Forall_cons in Hb. rewrite !list.Forall_cons. unfold is_byte in *.
      destruct Hb as (?&?&?&?&?&?&?&?&?&?&?&?&?&?&?&?&?&?&?&?&_). repeat split; try lia; try constructor. }
    intros E. apply (ipv4_sum_shift tos t1 t2 i1 i2 f1 f2 ttl (l4_protocol g) (src ++ dst) B1 B2).
    fold (hdr ttl) (hdr (ttl - 1)). rewrite <- Hd.
    change (range _ 10 2) with [c1; c2] in Hs3. transitivity [c1; c2]; [symmetry; exact Hs3|].
    unfold lowered in E. cbn in E. injection E; intros; congruence.
Qed.

End bytes.
Section tether.
Context `{NetDefs} `{Layout} `{Ciphers} {slab : Type -> Type} `{SlabOps slab}.
Context (A2A_SAID_SIZE : nat).

Lemma zlen_micv k b : zlen (micv k b) = ZDP_A2A_MAC_SIZE.
Proof. unfold micv, zlen. rewrite length_take. destruct k; rewrite ?keyed_hash_length, ?hash_length; done. Qed.

Lemma refront_ok f p b :
  f (body p) = Ret b -> zlen b <= headroom p + zlen (body p) ->
  refront f p = Ret (resize p (headroom p + zlen (body p) - zlen b) b (tailroom p)).
Proof.
  intros E Hl. unfold refront, rust_assert. rewrite E, bind_Ret. cbv zeta. by rewrite (proj2 (Z.leb_le _ _)) by lia.
Qed.

(** What a tether carries: a zero A2A association, the compressed packet, its MAC. *)
Definition tether_payload (c mac : list Z) : list Z := replicate A2A_SAID_SIZE 0 ++ c ++ mac.

(** ** The sender *)

Lemma decrement_ok n i p :
  n <= zlen (body p) -> Z.of_nat i < n -> 2 <= byte_at (body p) i ->
  decrement_at n i p = Ret (resize p (headroom p) (lowered i (body p)) (tailroom p), false).
Proof.
  intros Hn Hi Ht. unfold decrement_at. destruct (slice_lt (body p) 0 n) as [h ->]; [lia|lia|]. rewrite bind_Ret.
  cbv zeta. rewrite (proj2 (Z.ltb_lt _ _)) by lia. unfold write_at. rewrite (proj2 (Z.leb_le _ _)) by lia.
  change (zlen [byte_at (body p) i - 1]) with 1. rewrite (proj2 (Z.leb_le _ _)) by lia. cbn [andb]. rewrite bind_Ret.
  rewrite (proj2 (Z.eqb_neq _ _)) by lia. unfold resize, lowered. rewrite Nat2Z.id, Nat.add_1_r. done.
Qed.

Lemma actor_sends A N peer sa link' sa' p w ft r pep d c :
  secured A N PeerTable.DOCK_LINK_ID peer sa link' sa' -> ph_mode A = Adapter -> capture_runs A w ->
  Z.of_nat A2A_SAID_SIZE + 8 <= headroom p -> 16 <= tailroom p ->
  classify (five_tuple (metadata p)) (body p) = Ret (ft, inl r) -> r = OK \/ r = UnclassifiedL4 ->
  (forall lane, decrement_ttl (classified lane ft p) =
     Ret (resize (classified lane ft p) (headroom p) d (tailroom p), false)) ->
  elt A !! ft = Some (AdapterTables.Active pep) ->
  compress (AdapterTables.pep_compression_mode pep) (l3_type ft) (l4_protocol ft) d = Ret c ->
  queues (actor_output A2A_SAID_SIZE A p) w
    (carries sa' peer (transit_bytes (AdapterTables.tether_id pep)
       (tether_payload c (micv (AdapterTables.a2a_micv_key pep) d)))).
Proof.
  intros Hs Hmode Hc Hh Ht Ec Hr Hd He Ez. unfold queues, actor_output. do 2 fp_step. cbv zeta. fp_step. apply tr_lift.
  cbn [metadata on_metadata body five_tuple set_ingress_lane_id set_ingress_link_id]. rewrite Ec.
  fold (classified (wrap 8 (worker_index w)) ft p). set (p1 := classified _ ft p).
  assert (wp False (actor_output_post_classify A2A_SAID_SIZE A (resize p1 (headroom p) d (tailroom p)) true) w
    (fun _ w' => exists q, quiet (after (ToSubstrate q) w) w' /\ carries sa' peer (transit_bytes (AdapterTables.tether_id pep)
       (tether_payload c (micv (AdapterTables.a2a_micv_key pep) d))) q)) as Hk.
  { unfold actor_output_post_classify. change (five_tuple (metadata _)) with ft. rewrite He. cbv zeta. cbn [body resize].
    pose proof (compress_size _ _ _ _ _ Ez). pose proof (zlen_nonneg d).
    pose proof (zlen_micv (AdapterTables.a2a_micv_key pep) d) as Hm. unfold ZDP_A2A_MAC_SIZE in Hm.
    fp_step. apply tr_lift. rewrite (refront_ok (compress _ _ _) (resize p1 (headroom p) d (tailroom p)) c Ez) by (cbn; lia). fp_step. apply tr_lift.
    rewrite put_ok by (cbn; lia). fp_step. apply tr_lift.
    assert (zlen (replicate A2A_SAID_SIZE 0) = Z.of_nat A2A_SAID_SIZE) as Hz by (unfold zlen; by rewrite length_replicate).
    rewrite push_ok by (cbn; lia). rewrite Hz, Hm.
    match goal with |- wp _ (forward _ _ ?q) _ _ =>
      refine (forward_sends A2A_SAID_SIZE A N PeerTable.DOCK_LINK_ID peer sa link' sa' (AdapterTables.tether_id pep) q w Hs Hc _ _ _) end;
      [cbn; lia|cbn; unfold ZDP_PACKET_MAC_SIZE; lia|].
    unfold next_hop_of. rewrite Hmode. done. }
  destruct Hr as [-> | ->]; fp_step; unfold p1; rewrite Hd; apply tr_lift; exact Hk.
Qed.

(** ** The receiver *)

Lemma actor_receives B stream pep c mac e p w :
  ForwardingTables.dlt_get (dlt B) stream = Some pep -> zlen mac = ZDP_A2A_MAC_SIZE ->
  body p = tether_payload c mac ->
  expand (Tc.compression_mode (ForwardingTables.dlt_tc pep)) (Tc.five_tuple (ForwardingTables.dlt_tc pep)) c = Ret e ->
  zlen e <= headroom p + zlen c ->
  wp False (actor_input A2A_SAID_SIZE B stream p) w
    (fun _ w' => exists f, quiet (after f w) w' /\ buffer_of f = buf p /\
       if bool_decide (micv (ForwardingTables.dlt_micv_key pep) e = mac)
       then exists r, f = ToActor r /\ body r = e else exists b, f = Dropped b MicvFailure).
Proof.
  intros Hd Hm Eb Ee Hl. unfold actor_input. pose proof (zlen_nonneg c).
  assert (zlen (replicate A2A_SAID_SIZE 0) = Z.of_nat A2A_SAID_SIZE) as Hz by (unfold zlen; by rewrite length_replicate).
  rewrite (read_ok _ p (replicate A2A_SAID_SIZE 0) (c ++ mac)) by done.
  assert (forallb (fun b => b =? 0) (replicate A2A_SAID_SIZE 0) = true) as ->.
  { apply forallb_forall. intros x Hx. apply list_elem_of_In, elem_of_replicate in Hx as [-> _]. done. }
  cbn [negb]. set (p1 := resize p _ _ _). change (body p1) with (c ++ mac). rewrite zlen_app, Hm.
  rewrite (proj2 (Z.ltb_ge _ _)) by lia. fp_step. apply tr_lift.
  replace (zlen c + ZDP_A2A_MAC_SIZE - ZDP_A2A_MAC_SIZE) with (zlen c) by lia.
  assert (slice (c ++ mac) (zlen c) (zlen c + ZDP_A2A_MAC_SIZE) = Ret mac) as ->.
  { rewrite <- (app_nil_r (c ++ mac)), <- app_assoc. apply slice_mid; [done|lia]. }
  fp_step. apply tr_lift. rewrite <- Hm, (shrink_ok p1 c mac) by done. rewrite Hd. fp_step. apply tr_lift.
  rewrite (refront_ok (expand _ _) (resize p1 (headroom p1) c (tailroom p1 + zlen mac)) e Ee) by (cbn; lia). cbn [body resize]. case_bool_decide.
  - fp_step. eexists (ToActor _). split; [done|]. split; [done|]. eauto.
  - apply tr_drop. eexists (Dropped _ _). split; [done|]. split; [done|]. eauto.
Qed.

(** ** The whole way *)

(** What two adapters and the node between them keep of a tether: the sender's
    entry and its dock's association; at the node the link the packets come in on,
    the link and stream they leave on and the association there; the receiver's
    association and entry. *)
Record Tether := mkTether {
  t_pep : AdapterTables.EltPep;
  t_dock : PeerTable.PeerState slab; t_sa : PeerTable.KmTransportSA;
  t_from : Z; t_sa' : PeerTable.KmTransportSA;
  t_to : Z; t_stream : Z;
  t_peer : PeerTable.PeerState slab; t_sb : PeerTable.KmTransportSA;
  t_sb' : PeerTable.KmTransportSA;
  t_dpep : ForwardingTables.DltPep
}.

(** The tables of adapter [A], node [N] and adapter [B] agree on the tether [t]
    for packets with the five-tuple [ft]. *)
Record tethered (A N B : Shared slab) (ft : FiveTuple) (t : Tether) : Prop := {
  t_modes : ph_mode A = Adapter /\ ph_mode N = Node /\ ph_mode B = Adapter;
  t_first : secured A N PeerTable.DOCK_LINK_ID (t_dock t) (t_sa t) (t_from t) (t_sa' t);
  t_second : secured N B (t_to t) (t_peer t) (t_sb t) PeerTable.DOCK_LINK_ID (t_sb' t);
  t_entry : elt A !! ft = Some (AdapterTables.Active (t_pep t));
  t_route : exists peer pep, PeerTable.get (peer_table N) (t_from t) = Some peer /\
    ForwardingTables.pft_get (PeerTable.pft peer) (AdapterTables.tether_id (t_pep t)) = Some pep /\
    ForwardingTables.fe_link (ForwardingTables.next_hop pep) = t_to t /\
    ForwardingTables.fe_stream (ForwardingTables.next_hop pep) = t_stream t;
  t_exit : ForwardingTables.dlt_get (dlt B) (t_stream t) = Some (t_dpep t);
  t_match : Tc.classify_5t (ForwardingTables.dlt_tc (t_dpep t)) ft = true;
  t_mode : AdapterTables.pep_compression_mode (t_pep t) = Tc.compression_mode (ForwardingTables.dlt_tc (t_dpep t));
  t_key : AdapterTables.a2a_micv_key (t_pep t) = ForwardingTables.dlt_micv_key (t_dpep t);
  t_id : 0 <= AdapterTables.tether_id (t_pep t) < 2 ^ 32;
  t_stream_id : 0 <= t_stream t < 2 ^ 32
}.

(** The actor's packet [p] is queued for the node at [A]; whenever those bytes
    arrive at the node, in any buffer with a byte of headroom, they are queued for
    [B]; and whenever those arrive at [B], the packet ends there as [final] says. *)
Definition travels (A N B : Shared slab) (t : Tether) (p : Packet) (w : Worker) (final : fate -> Prop) : Prop :=
  queues (actor_output A2A_SAID_SIZE A p) w (fun qa =>
    dst qa = PeerTable.substrate_addr (t_dock t) /\ src qa = PeerTable.interface_addr (t_dock t) /\
    forall a_sa a_ia pn wn,
      body pn = body (q_pkt qa) -> ingress_link N a_sa a_ia = t_from t -> capture_runs N wn ->
      1 <= headroom pn -> 0 <= tailroom pn ->
      queues (substrate_ingress A2A_SAID_SIZE N a_sa a_ia pn) wn (fun qn =>
        dst qn = PeerTable.substrate_addr (t_peer t) /\ src qn = PeerTable.interface_addr (t_peer t) /\
        forall n_sa n_ia pb wb,
          body pb = body (q_pkt qn) -> ingress_link B n_sa n_ia = PeerTable.DOCK_LINK_ID -> capture_runs B wb ->
          43 <= headroom pb -> 0 <= tailroom pb ->
          wp False (substrate_ingress A2A_SAID_SIZE B n_sa n_ia pb) wb
            (fun _ wb' => exists f, quiet (after f wb) wb' /\ buffer_of f = buf pb /\ final f))).

(** With the packet's time to live lowered ([d]), compressed ([c]) and expanded
    again ([e]): it is delivered if the MACs of [d] and [e] agree. *)
Lemma tether_carries A N B t p w ft r d c e :
  tethered A N B ft t -> capture_runs A w ->
  Z.of_nat A2A_SAID_SIZE + 8 <= headroom p -> 16 <= tailroom p ->
  classify (five_tuple (metadata p)) (body p) = Ret (ft, inl r) -> r = OK \/ r = UnclassifiedL4 ->
  (forall lane, decrement_ttl (classified lane ft p) =
     Ret (resize (classified lane ft p) (headroom p) d (tailroom p), false)) ->
  compress (Tc.compression_mode (ForwardingTables.dlt_tc (t_dpep t))) (l3_type ft) (l4_protocol ft) d = Ret c ->
  expand (Tc.compression_mode (ForwardingTables.dlt_tc (t_dpep t)))
    (Tc.five_tuple (ForwardingTables.dlt_tc (t_dpep t))) c = Ret e -> zlen e = zlen d ->
  travels A N B t p w (fun f =>
    if bool_decide (micv (ForwardingTables.dlt_micv_key (t_dpep t)) e = micv (ForwardingTables.dlt_micv_key (t_dpep t)) d)
    then exists r, f = ToActor r /\ body r = e else exists b, f = Dropped b MicvFailure).
Proof.
  intros T Hc Hh Ht Ec Hr Hd Ez Ee Hz. destruct (t_modes _ _ _ _ _ T) as (MA & MN & MB).
  pose proof (compress_size _ _ _ _ _ Ez) as Hsz. rewrite <- (t_mode _ _ _ _ _ T) in Ez.
  pose proof (actor_sends A N _ _ _ _ p w ft r _ d c (t_first _ _ _ _ _ T) MA Hc Hh Ht Ec Hr Hd (t_entry _ _ _ _ _ T) Ez) as HA.
  unfold travels. eapply tr_mono; [exact HA|]. intros [] wa (qa & Qa & Ba & Da & Sa). exists qa. split; [done|].
  split; [done|]. split; [done|]. intros a_sa a_ia pn wn Bn Ln Cn Hn Tn.
  destruct (t_route _ _ _ _ _ T) as (peer & pep & Rp & Rf & Rl & Rs).
  pose proof (t_first _ _ _ _ _ T) as [_ _ SA' M1 _ _ _ L1]. pose proof (t_second _ _ _ _ _ T) as S2.
  eapply (ingress_forwards A2A_SAID_SIZE); [done|done|apply (t_id _ _ _ _ _ T)|exact Ln|done|exact SA'|apply (m_hmac _ _ _ _ M1)|by rewrite Bn|].
  intros q w1 Q1 Bq _ Lq Sq Hq Tq.
  eapply tr_mono; [eapply (forward_sends A2A_SAID_SIZE N B _ _ _ _ _ (t_stream t) q w1 S2)|].
  - unfold capture_runs. by rewrite <- (q_worker_gone _ _ Q1).
  - lia.
  - lia.
  - unfold next_hop_of. rewrite MN, Lq, Rp, Sq, Rf, Rl, Rs. done.
  - intros [] wn' (qn & Qn & Bqn & Dn & Sn). exists qn.
    split; [rewrite <- Qn; by apply (after_quiet (ToSubstrate qn))|]. split; [done|]. split; [done|].
    intros n_sa n_ia pb wb Bb Lb Cb Hb Tb. destruct S2 as [_ _ SB' M2 _ _ _ L2].
    eapply (ingress_forwards A2A_SAID_SIZE); [done|lia|apply (t_stream_id _ _ _ _ _ T)|exact Lb|done|exact SB'|apply (m_hmac _ _ _ _ M2)|by rewrite Bb, Bqn|].
    intros q2 w2 Q2 Bq2 Bufq2 Lq2 Sq2 Hq2 Tq2. unfold forward, next_hop_of. rewrite MB, Lq2, Sq2.
    change (adapter_next_hop_link PeerTable.DOCK_LINK_ID =? PeerTable.LOCAL_ACTOR_LINK_ID) with true. cbv iota.
    eapply tr_mono; [apply (actor_receives B (t_stream t) (t_dpep t) c (micv (ForwardingTables.dlt_micv_key (t_dpep t)) d) e);
      [apply (t_exit _ _ _ _ _ T)|apply zlen_micv| |done|lia]|].
    + by rewrite Bq2, Bq, (t_key _ _ _ _ _ T).
    + intros [] w' (f & Qf & Bf & Hf). exists f. split; [rewrite <- Qf; by apply after_quiet|]. split; [congruence|done].
Qed.

(** C10. An actor's IPv6 packet reaches the other actor.  Take two adapters and
    a node whose tables agree on a tether, and a packet of the actor at one of them
    that the classifier accepts whole, without extension headers, with canonical
    checksums, matching the tether and with a hop limit of at least 2.  The adapter
    queues it for the node; the node, on receiving those bytes, queues them for the
    other adapter; and that one, on receiving those, queues for its actor exactly
    the packet sent with the hop limit one lower.  Nothing else happens to the
    workers on the way. *)
Theorem ipv6_delivered A N B t p w ft r :
  tethered A N B ft t -> capture_runs A w ->
  Z.of_nat A2A_SAID_SIZE + 8 <= headroom p -> 16 <= tailroom p -> bytes_ok (body p) ->
  classify (five_tuple (metadata p)) (body p) = Ret (ft, inl r) -> r = OK \/ r = UnclassifiedL4 ->
  plain_headers (body p) = true -> checksums_canonical ft (body p) ->
  Z.shiftr (byte_at (body p) 0) 4 = 6 -> 2 <= byte_at (body p) 7 ->
  travels A N B t p w (fun f => exists p', f = ToActor p' /\ body p' = lowered 7 (body p)).
Proof.
  intros T Hc Hh Ht Hb Ec Hr Hp Hs Hv Hhop.
  destruct (accepted_ipv6 _ _ _ _ Hb Ec Hp Hv) as [H3 Hlen].
  destruct (lowered_ipv6 (Tc.compression_mode (ForwardingTables.dlt_tc (t_dpep t))) _ _ _ _
    (Tc.five_tuple (ForwardingTables.dlt_tc (t_dpep t))) Hb Ec Hr Hp Hs) as (c & Ez & Ee);
    [by apply TcProps.matching_agrees, (t_match _ _ _ _ _ T)|done|lia|].
  pose proof (tether_carries A N B t p w ft r (lowered 7 (body p)) c (lowered 7 (body p)) T Hc Hh Ht Ec Hr) as C.
  rewrite bool_decide_true in C by done. apply C; [|done..]. intros lane. unfold decrement_ttl.
  change (five_tuple (metadata (classified lane ft p))) with ft. rewrite H3, (proj2 (Z.eqb_neq _ _) (not_eq_sym l3_distinct)), Z.eqb_refl.
  by apply (decrement_ok IPV6_HEADER 7 (classified lane ft p)).
Qed.

(** An actor's IPv4 packet does not.  Under the same conditions, for an
    IPv4 packet without options, the far adapter drops what arrives for a MAC
    failure: the first adapter lowers the time to live but leaves the header checksum
    as it was, and computes its MAC over that; the expansion at the other end, which
    has not got the checksum, computes the right one; so the two packets differ, and
    (unless their MACs collide) so do the MACs. *)
Theorem ipv4_never_delivered A N B t p w ft r :
  tethered A N B ft t -> capture_runs A w ->
  Z.of_nat A2A_SAID_SIZE + 8 <= headroom p -> 16 <= tailroom p -> bytes_ok (body p) ->
  classify (five_tuple (metadata p)) (body p) = Ret (ft, inl r) -> r = OK \/ r = UnclassifiedL4 ->
  plain_headers (body p) = true -> checksums_canonical ft (body p) ->
  Z.shiftr (byte_at (body p) 0) 4 = 4 -> 2 <= byte_at (body p) 8 ->
  (forall e, other_checksum (lowered 8 (body p)) e -> e <> lowered 8 (body p) ->
     micv (ForwardingTables.dlt_micv_key (t_dpep t)) e <>
     micv (ForwardingTables.dlt_micv_key (t_dpep t)) (lowered 8 (body p))) ->
  travels A N B t p w (fun f => exists b, f = Dropped b MicvFailure).
Proof.
  intros T Hc Hh Ht Hb Ec Hr Hp Hs Hv Hhop Hinj.
  destruct (lowered_ipv4 (Tc.compression_mode (ForwardingTables.dlt_tc (t_dpep t))) _ _ _ _
    (Tc.five_tuple (ForwardingTables.dlt_tc (t_dpep t))) Hb Ec Hr Hp Hs) as (H3 & Hlen & c & e & Ez & Ee & Hne & Ho);
    [by apply TcProps.matching_agrees, (t_match _ _ _ _ _ T)|done|lia|].
  pose proof (tether_carries A N B t p w ft r (lowered 8 (body p)) c e T Hc Hh Ht Ec Hr) as C.
  rewrite bool_decide_false in C by (by apply Hinj). apply C; [|done|done|].
  - intros lane. unfold decrement_ttl.
    change (five_tuple (metadata (classified lane ft p))) with ft. rewrite H3, Z.eqb_refl.
    by apply (decrement_ok IPV4_HEADER 8 (classified lane ft p)).
  - destruct Ho as (c1 & c2 & ->). unfold IPV4_HEADER, lowered, zlen in *.
    rewrite !length_app, length_take, length_drop, !length_app, length_take, length_drop. cbn [length]. lia.
Qed.

End tether.
End FastpathTether.
