(* ===== verification/FastpathExample.v ===== *)
(** * The fast path at work

    Two adapters and a node with concrete tables, ciphers and packets, on which
    the theorems about the fast path are applied. *)
From Stdlib Require Import ZArith Lia.
From stdpp Require Import base tactics option list gmap gmultiset.
From S2P Require Import Prelude Slab NetDefs Classifier Compress CompressProps Tc TcProps AdapterTables ForwardingTables PacketBuf Pkt Queues Zdp PeerTable PeerTableProps Assembly LinkCrypt LinkCryptProps Fastpath FastpathProps FastpathFates FastpathIo FastpathIoProps FastpathThms FastpathPath FastpathTether.
From stdpp Require Import list.
Import PacketBuf(Layout, md_size).
Import Classifier Compress CompressProps.
Import Pkt Queues LinkCrypt LinkCryptProps Fastpath FastpathProps FastpathFates FastpathIo FastpathIoProps FastpathThms FastpathPath FastpathTether.

Local Open Scope Z_scope.

Module FastpathExample.

(** ** A cipher that only appends its tag, and a hash that only copies *)

Definition tag (n : Z) : list Z := replicate 16 (n mod 256).
Definition copy_hash (l : list Z) : list Z := take 32 (drop 10 l ++ replicate 32 0).

Lemma length_copy_hash l : length (copy_hash l) = 32%nat.
Proof. unfold copy_hash. rewrite length_take, length_app, length_replicate. lia. Qed.

Definition toy_write (s n : Z) (p : list Z) (room : Z) : list Z + SnowError :=
  if (zlen p + 16 <=? 65535) && (zlen p + 16 <=? room) then inl (p ++ tag n) else inr SnowInput.
Definition toy_read (s n : Z) (c : list Z) (room : Z) : list Z + SnowError :=
  if zlen c <? 16 then inr SnowDecrypt
  else
    let p := take (length c - 16) c in
    if bool_decide (drop (length c - 16) c = tag n) then (if zlen p <=? room then inl p else inr SnowInput)
    else inr SnowDecrypt.

Lemma zlen_tag n : zlen (tag n) = 16.
Proof. done. Qed.

Lemma toy_write_inv s n p room c : toy_write s n p room = inl c -> c = p ++ tag n /\ zlen p + 16 <= 65535 /\ zlen c = zlen p + 16 /\ zlen c <= room.
Proof.
  unfold toy_write. destruct (Z.leb_spec (zlen p + 16) 65535); [|done]. destruct (Z.leb_spec (zlen p + 16) room); [|done].
  intros [= <-]. rewrite zlen_app, zlen_tag. split; [done|lia].
Qed.

#[local] Instance toy_ciphers : Ciphers.
Proof.
  refine {| write_message := toy_write; read_message := toy_read; blake3_hash := copy_hash;
            blake3_keyed_hash _ := copy_hash; peered := eq |}.
  - intros s n p room _ H1 H2. exists (p ++ tag n). unfold toy_write.
    rewrite !(proj2 (Z.leb_le _ _)) by lia. rewrite zlen_app, zlen_tag. done.
  - intros s n p room room' c E Hr. apply toy_write_inv in E as (-> & H1 & H2 & _). unfold toy_write.
    by rewrite !(proj2 (Z.leb_le _ _)) by lia.
  - intros s n p room c E. apply toy_write_inv in E as (_ & _ & ? & ?). done.
  - intros s n c room p. unfold toy_read. destruct (Z.ltb_spec (zlen c) 16); [done|]. cbv zeta.
    case_bool_decide; [|done]. destruct (Z.leb_spec (zlen (take (length c - 16) c)) room); [|done].
    intros [= <-]. split; [done|]. unfold zlen in *. rewrite length_take. lia.
  - intros s n c room room' H1 H2. unfold toy_read. destruct (_ <? 16); [done|]. cbv zeta. case_bool_decide; [|done].
    assert (zlen (take (length c - 16) c) <= zlen c) by (unfold zlen; rewrite length_take; lia).
    by rewrite !(proj2 (Z.leb_le _ _)) by lia.
  - intros s s' n p room room' c <- E Hr. apply toy_write_inv in E as (-> & H1 & H2 & _). unfold toy_read.
    pose proof (zlen_nonneg p). rewrite (proj2 (Z.ltb_ge _ _)) by lia. cbv zeta. rewrite length_app.
    change (length (tag n)) with 16%nat. rewrite Nat.add_sub, take_app_length, drop_app_length, bool_decide_true by done.
    by rewrite (proj2 (Z.leb_le _ _)) by lia.
  - apply length_copy_hash.
  - intros _. apply length_copy_hash.
Defined.

#[local] Existing Instance iana.
#[local] Existing Instance PacketBuf.demo_layout.

(** ** The tables *)

Notation shared := (Shared FirstFit.table).

(** The two halves of an association; the codec's number is that of its state. *)
Definition half (encr_recv hmac_recv encr_send hmac_send : Z) (recv_key send_key : list Z) : PeerTable.KmTransportSA :=
  PeerTable.mkSA 1 (PeerTable.mkZpis encr_recv hmac_recv) (PeerTable.mkZpis encr_send hmac_send) send_key recv_key 1 None.
Definition key1 : list Z := replicate 32 1.
Definition key2 : list Z := replicate 32 2.

Definition addr (host port : Z) : list Z * Z := (replicate 15 0 ++ [host], port).
Definition peer_of (host : Z) (routes : gmap Z ForwardingTables.PftPep) (sa : option PeerTable.KmTransportSA)
    : PeerTable.PeerState FirstFit.table :=
  PeerTable.set_transport_sa sa
    (PeerTable.set_pft (FirstFit.mkTable 8 routes)
       (PeerTable.set_substrate_addr (addr host 500) (PeerTable.set_interface_addr (addr 9 0) PeerTableProps.example_peer))).

Definition table_of (peers : gmap Z (PeerTable.PeerState FirstFit.table)) (links : list (Z * Z)) : PeerTable.PeerTable FirstFit.table :=
  PeerTable.mkTable (FirstFit.mkTable 8 peers)
    (list_to_map ((fun '(host, link) => ((addr host 500, addr 9 0), link)) <$> links)) (fun _ => 0).

Definition shared_of (mode : PhMode) (t : PeerTable.PeerTable FirstFit.table)
    (e : gmap FiveTuple (@AdapterTables.EltEntry Packet)) (d : gmap Z ForwardingTables.DltPep) : shared :=
  mkShared mode t e (FirstFit.mkTable 8 d) true NoiseCodec None (0, 0).

(** UDP over IPv6 and TCP over IPv4, with their five-tuples. *)
Definition host_a : list Z := 32 :: replicate 14 0 ++ [1].
Definition host_b : list Z := 32 :: replicate 14 0 ++ [2].
Definition udp6_packet : list Z :=
  [96; 0; 0; 0; 0; 12; 17; 64] ++ host_a ++ host_b ++ [31; 144; 0; 53; 0; 12; 0; 0; 1; 2; 3; 4].
Definition udp6_tuple : FiveTuple := mkFT host_a host_b Ipv6 UDP 8080 53.
Definition tcp4_tuple : FiveTuple := v4_tuple TCP 8080 80.

Definition sa_a : PeerTable.KmTransportSA := half 11 12 13 14 key1 key2.
Definition sa_na : PeerTable.KmTransportSA := half 13 14 11 12 key2 key1.
Definition sa_nb : PeerTable.KmTransportSA := half 21 22 23 24 key1 key2.
Definition sa_b : PeerTable.KmTransportSA := half 23 24 21 22 key2 key1.

Definition tc6 : Tc.Ip5TupleTc := Tc.new udp6_tuple.
Definition tc4 : Tc.Ip5TupleTc := Tc.new tcp4_tuple.
Definition pep6 : AdapterTables.EltPep := AdapterTables.mkPep (Tc.compression_mode tc6) 1 None None.
Definition pep4 : AdapterTables.EltPep := AdapterTables.mkPep (Tc.compression_mode tc4) 2 None None.
Definition dpep6 : ForwardingTables.DltPep := ForwardingTables.mkDltPep tc6 None None.
Definition dpep4 : ForwardingTables.DltPep := ForwardingTables.mkDltPep tc4 None None.

Definition no_elt : gmap FiveTuple (@AdapterTables.EltEntry Packet) := ∅.
Definition dock_a : PeerTable.PeerState FirstFit.table := peer_of 30 ∅ (Some sa_a).
Definition dock_b : PeerTable.PeerState FirstFit.table := peer_of 30 ∅ (Some sa_b).
(** The node routes streams 1 and 2 of link 3 to streams 5 and 6 of link 4. *)
Definition routes_a : gmap Z ForwardingTables.PftPep :=
  {[0 := ForwardingTables.mkPftPep (ForwardingTables.FE 4 5) 1; 1 := ForwardingTables.mkPftPep (ForwardingTables.FE 4 6) 1]}.
Definition node_a : PeerTable.PeerState FirstFit.table := peer_of 10 routes_a (Some sa_na).
(** Stream 1 of link 4 leads to the node's own actor. *)
Definition routes_b : gmap Z ForwardingTables.PftPep :=
  {[0 := ForwardingTables.mkPftPep (ForwardingTables.FE PeerTable.LOCAL_ACTOR_LINK_ID 9) 1]}.
Definition node_b : PeerTable.PeerState FirstFit.table := peer_of 20 routes_b (Some sa_nb).
(** The internal peers that every node has, for its actor and its dock. *)
Definition internal (link other : Z) : PeerTable.PeerState FirstFit.table :=
  match PeerTable.new_internal_peer 0 link (Some other) with Ret (p, _) => p | Panic => node_b end.

Definition adapter_a : shared := shared_of Adapter (table_of {[1 := dock_a]} [(30, 2)])
  (<[udp6_tuple := AdapterTables.Active pep6]> (<[tcp4_tuple := AdapterTables.Active pep4]> no_elt)) ∅.
Definition node : shared := shared_of Node (table_of {[0 := internal 1 2; 1 := internal 2 1; 2 := node_a; 3 := node_b]} [(10, 3); (20, 4)]) no_elt ∅.
Definition adapter_b : shared := shared_of Adapter (table_of {[1 := dock_b]} [(30, 2)]) no_elt {[4 := dpep6; 5 := dpep4]}.

Definition blank : Metadata := mkMd (mkFT [] [] 0 0 0 0) 0 0 0 0 0.
Definition packet (b : Z) (bytes : list Z) : Packet := mkPacket b blank 256 bytes (4096 - zlen bytes).
Definition worker : Worker :=
  worker_new 0 4 8 [mkBuffer 1 blank; mkBuffer 2 blank; mkBuffer 3 blank]
    (mkChan [] 16 false) (mkChan [] 16 false) (capture_queue []) (fun _ => 7) [].

(** ** The tether of the example *)

Lemma first_link : secured adapter_a node 2 dock_a sa_a 3 sa_na.
Proof.
  split; try reflexivity; try discriminate. split; try reflexivity; try discriminate.
  - by constructor.
  - intros _. by eexists.
Qed.
Lemma second_link : secured node adapter_b 4 node_b sa_nb 2 sa_b.
Proof.
  split; try reflexivity; try discriminate. split; try reflexivity; try discriminate.
  - by constructor.
  - intros _. by eexists.
Qed.

Definition tether6 : Tether := mkTether pep6 dock_a sa_a 3 sa_na 4 5 node_b sa_nb sa_b dpep6.
Definition tether4 : Tether := mkTether pep4 dock_a sa_a 3 sa_na 4 6 node_b sa_nb sa_b dpep4.

Lemma tethered6 : tethered adapter_a node adapter_b udp6_tuple tether6.
Proof.
  split; try reflexivity; try (cbn; lia).
  - repeat split.
  - exact first_link.
  - exact second_link.
  - exists node_a, (ForwardingTables.mkPftPep (ForwardingTables.FE 4 5) 1). repeat split.
Qed.
Lemma tethered4 : tethered adapter_a node adapter_b tcp4_tuple tether4.
Proof.
  split; try reflexivity; try (cbn; lia).
  - repeat split.
  - exact first_link.
  - exact second_link.
  - exists node_a, (ForwardingTables.mkPftPep (ForwardingTables.FE 4 6) 1). repeat split.
Qed.

Lemma all_bytes l : forallb (fun b => (0 <=? b) && (b <? 256)) l = true -> bytes_ok l.
Proof.
  intros Hl. apply Forall_forall. intros x Hx. rewrite forallb_forall in Hl. apply list_elem_of_In, Hl in Hx.
  unfold is_byte. lia.
Qed.

Lemma ipv6_delivered_witness :
  travels 4 adapter_a node adapter_b tether6 (packet 1 udp6_packet) worker
    (fun f => exists p', f = ToActor p' /\ body p' = lowered 7 udp6_packet).
Proof.
  apply (ipv6_delivered 4 adapter_a node adapter_b tether6 (packet 1 udp6_packet) worker udp6_tuple OK tethered6).
  - done.
  - vm_compute. done.
  - vm_compute. done.
  - by apply all_bytes; vm_compute.
  - vm_compute. reflexivity.
  - by left.
  - vm_compute. reflexivity.
  - split; intros E; discriminate E.
  - by vm_compute.
  - by vm_compute.
Defined.

Lemma ipv4_never_delivered_witness :
  travels 4 adapter_a node adapter_b tether4 (packet 1 tcp_packet) worker (fun f => exists b, f = Dropped b MicvFailure).
Proof.
  apply (ipv4_never_delivered 4 adapter_a node adapter_b tether4 (packet 1 tcp_packet) worker tcp4_tuple OK tethered4).
  - done.
  - vm_compute. done.
  - vm_compute. done.
  - by apply all_bytes; vm_compute.
  - vm_compute. reflexivity.
  - by left.
  - vm_compute. reflexivity.
  - split; intros _; vm_compute; reflexivity.
  - by vm_compute.
  - by vm_compute.
  - intros e (c1 & c2 & ->) Hne E. apply Hne. vm_compute in E. injection E as -> ->. by vm_compute.
Defined.

(** ** The other theorems *)

Lemma packets_meet_one_fate_witness :
  ends_well (output_trouble 4 adapter_a worker (packet 1 udp6_packet)) 1 worker
    (actor_output_post_classify 4 adapter_a (packet 1 udp6_packet) true worker).
Proof.
  apply (packets_meet_one_fate 4 adapter_a (addr 30 500) (addr 9 0) (packet 1 udp6_packet) worker true); vm_compute; discriminate.
Defined.

(** A turn in which the actor's packet comes in and two packets leave. *)
Definition queued (b flags : Z) : QueuedEgressPacket :=
  mkQueued (mkPacket b (set_flags flags blank) 9 [1; 2] 9) (addr 30 500) 0 (addr 9 0).
Definition busy : Worker :=
  set_substrate_egress_q [queued 11 0; queued 12 PRIORITY; queued 13 0; queued 14 PRIORITY] worker.
Definition tun_read : list Z := [0; 0] ++ be_bytes 2 0x86DD ++ udp6_packet.
Definition ready : Ready := mkReady true (Some (inl [inl 2])) true true (Some (inl [inl tun_read])) None.
Definition no_queue : PacketQueue := mkPacketQueue (mkChan [] 4 false) false.
Notation turn := (fastpath_turn 4 0x0800 0x86DD (fun _ => 0x86DD) adapter_a (inl []) (inl [inl 2; inr WouldBlock; inl 2]) (Some ready) no_queue no_queue).

Definition after_turn : outcome Worker := '(_, w) ← turn busy; mret w.
(** The priority packet that blocked goes out at the second attempt, the other one
    is still waiting; the actor's packet comes in in the buffer freed last. *)
Example turn_runs :
  match after_turn with
  | Ret w => (zlen (buffers w), (fun q => buf (q_pkt q)) <$> substrate_egress_q w,
              batch_counters w OutPacksSent, default no_counts (head (fastpaths w)) OutPacksSent)
  | Panic => (0, [], 0, 0)
  end = (5, [14; 12], 0, 3).
Proof. vm_compute. reflexivity. Qed.

Lemma turn_returns : exists r w', turn busy = Ret (r, w').
Proof.
  assert (match turn busy with Ret _ => true | Panic => false end = true) as E by (by vm_compute).
  revert E. generalize (turn busy). intros [[r w']|]; [eauto|discriminate].
Qed.

Lemma turn_conserves_buffers_witness :
  exists r w', turn busy = Ret (r, w') /\ owned w' = owned busy.
Proof.
  destruct (turn_returns) as (r & w' & Et). exists r, w'. split; [exact Et|].
  exact (turn_conserves_buffers 4 adapter_a 0x0800 0x86DD (fun _ => 0x86DD) (inl []) (inl [inl 2; inr WouldBlock; inl 2])
    (Some ready) no_queue no_queue busy r w' Et).
Defined.

Lemma egress_queue_retains_priority_witness :
  exists gone, kept [inl 2; inr WouldBlock] 0 (substrate_egress_q busy) = [queued 12 PRIORITY; queued 14 PRIORITY] /\
    kept [inl 2; inr WouldBlock] 0 (substrate_egress_q busy) ++ gone ≡ₚ substrate_egress_q busy.
Proof.
  destruct (egress_queue_retains_priority [inl 2; inr WouldBlock] busy eq_refl) as (gone & Hp & _).
  exists gone. split; [reflexivity|exact Hp].
Defined.

(** A forged packet on the adapter's link. *)
Lemma secured_link_authentic_witness :
  authentic adapter_b sa_b [24; 1; 2; 3; 4; 5; 6; 7; 8; 9] \/
  exists q reason,
    substrate_ingress 4 adapter_b (addr 30 500) (addr 9 0) (packet 1 [24; 1; 2; 3; 4; 5; 6; 7; 8; 9]) worker =
      Ret (tt, after (Dropped q reason) worker) /\ buf_id q = 1 /\ rejected reason.
Proof.
  apply (secured_link_authentic 4 adapter_b (addr 30 500) (addr 9 0) (packet 1 [24; 1; 2; 3; 4; 5; 6; 7; 8; 9]) worker sa_b).
  - vm_compute. discriminate.
  - reflexivity.
Defined.

(** What the peers of the node are. *)
Lemma node_peers link peer : PeerTable.get (peer_table node) link = Some peer ->
  peer = internal 1 2 \/ peer = internal 2 1 \/ peer = node_a \/ peer = node_b.
Proof.
  intros Hg.
  change (({[0 := internal 1 2; 1 := internal 2 1; 2 := node_a; 3 := node_b]} : gmap Z (PeerTable.PeerState FirstFit.table))
    !! ForwardingTables.slot link = Some peer) in Hg.
  apply lookup_insert_Some in Hg as [[_ <-]|[_ Hg]]; [by left|right].
  apply lookup_insert_Some in Hg as [[_ <-]|[_ Hg]]; [by left|right].
  apply lookup_insert_Some in Hg as [[_ <-]|[_ Hg]]; [by left|right].
  by apply lookup_singleton_Some in Hg as [_ <-].
Qed.

(** Routes lead to link 4 or to the actor. *)
Lemma node_routes link peer stream pep : PeerTable.get (peer_table node) link = Some peer ->
  ForwardingTables.pft_get (PeerTable.pft peer) stream = Some pep ->
  ForwardingTables.fe_link (ForwardingTables.next_hop pep) = 4 \/
  ForwardingTables.fe_link (ForwardingTables.next_hop pep) = PeerTable.LOCAL_ACTOR_LINK_ID.
Proof.
  intros [-> |[-> |[-> | ->]]]%node_peers Hp.
  - by change ((∅ : gmap Z ForwardingTables.PftPep) !! ForwardingTables.slot stream = Some pep) in Hp.
  - by change ((∅ : gmap Z ForwardingTables.PftPep) !! ForwardingTables.slot stream = Some pep) in Hp.
  - left. change (routes_a !! ForwardingTables.slot stream = Some pep) in Hp. unfold routes_a in Hp.
    apply lookup_insert_Some in Hp as [[_ <-]|[_ Hp]]; [done|]. by apply lookup_singleton_Some in Hp as [_ <-].
  - right. change (routes_b !! ForwardingTables.slot stream = Some pep) in Hp. unfold routes_b in Hp.
    by apply lookup_singleton_Some in Hp as [_ <-].
Qed.

Lemma node_healthy : healthy node worker.
Proof.
  split; try done.
  - intros link peer sa [-> |[-> |[-> | ->]]]%node_peers [= <-]; by repeat split; eauto.
  - intros link peer stream pep next Hg Hp Hne Hn.
    destruct (node_routes _ _ _ _ Hg Hp) as [E|E]; [|done]. rewrite E in Hn.
    change (Some node_b = Some next) in Hn. by injection Hn as <-.
Qed.

Lemma node_survives_ingress_witness :
  exists w', substrate_ingress 4 node (addr 10 500) (addr 9 0) (packet 1 [14; 0; 0; 1]) worker = Ret (tt, w') /\ handled 1 worker w'.
Proof.
  destruct (node_survives_ingress 4 node (addr 10 500) (addr 9 0) (packet 1 [14; 0; 0; 1]) worker node_healthy)
    as [Hr|[E _]]; [vm_compute; discriminate|vm_compute; discriminate|exact Hr|].
  assert (match substrate_ingress 4 node (addr 10 500) (addr 9 0) (packet 1 [14; 0; 0; 1]) worker with
          | Ret _ => true | Panic => false end = true) as F by (vm_compute; reflexivity).
  rewrite E in F. discriminate F.
Defined.

(** A management packet from the adapter to the node, encrypted. *)
Definition mgmt_bytes : list Z := [5; 0; 1; 2; 3; 4; 5; 6; 7; 8; 9].
Lemma link_roundtrip_witness :
  exists p' w', substrate_egress_common adapter_a 2 (packet 1 mgmt_bytes) worker =
    Ret ((p', egress_to dock_a 0), w') /\ comes_out node 3 (body p') mgmt_bytes.
Proof.
  apply (link_roundtrip adapter_a node 2 3 dock_a (Zdp.mkBase 5 0) (drop 2 mgmt_bytes) (packet 1 mgmt_bytes) worker).
  - split; [discriminate|]. intros c. vm_compute. split; [discriminate|reflexivity].
  - vm_compute. repeat split; discriminate.
  - intros E. discriminate E.
  - reflexivity.
  - reflexivity.
  - pose proof first_link as F. eapply linked_secured; [discriminate|exact (s_sa _ _ _ _ _ _ _ F)|exact (s_sa' _ _ _ _ _ _ _ F)|exact (s_mirrored _ _ _ _ _ _ _ F)].
Defined.

End FastpathExample.
