(* ===== verification/Steering.v ===== *)
(** * Steering packets to worker sockets ([packet_steering.rs])

    The filter programs attached to the substrate sockets, as the data they are,
    and what the operating system's filter machine computes from them.  The machine
    is an interface: the semantics of the seven instructions used, as documented for
    classic BPF. *)
From Stdlib Require Import ZArith Lia.
From stdpp Require Import base tactics option list.
From S2P Require Import Prelude Zdp LinkCrypt.
From stdpp Require Import list.

Local Open Scope Z_scope.

Module Steering.

Inductive SteeringMethod := OsDefault | PacketHash | ZdpStreamId.

(** The [code]s used: load a half-word or word at an absolute offset, jump on bits
    set or on equality, modulo a constant, return the accumulator or a constant. *)
Inductive Code := LD_H_ABS | LD_W_ABS | JMP_JSET_K | JMP_JEQ_K | ALU_MOD_K | RET_A | RET_K.
(** [libc::sock_filter]. *)
Record sock_filter := sf { code : Code; jt : nat; jf : nat; k : Z }.

Definition U32_MAX : Z := 2 ^ 32 - 1.

(** The filter machine: [run program packet pc a] is what is returned from
    instruction [pc] on, with [a] in the accumulator.  A load outside the packet
    ends the program with 0. *)
Class Machine := {
  run : list sock_filter -> list Z -> nat -> Z -> Z;
  run_ld_h : forall prog pkt pc a i, prog !! pc = Some i -> code i = LD_H_ABS ->
    run prog pkt pc a = if k i + 2 <=? zlen pkt then run prog pkt (S pc) (from_be (take 2 (drop (Z.to_nat (k i)) pkt))) else 0;
  run_ld_w : forall prog pkt pc a i, prog !! pc = Some i -> code i = LD_W_ABS ->
    run prog pkt pc a = if k i + 4 <=? zlen pkt then run prog pkt (S pc) (from_be (take 4 (drop (Z.to_nat (k i)) pkt))) else 0;
  run_jset : forall prog pkt pc a i, prog !! pc = Some i -> code i = JMP_JSET_K ->
    run prog pkt pc a = run prog pkt (S pc + (if Z.land a (k i) =? 0 then jf i else jt i)) a;
  run_jeq : forall prog pkt pc a i, prog !! pc = Some i -> code i = JMP_JEQ_K ->
    run prog pkt pc a = run prog pkt (S pc + (if a =? k i then jt i else jf i)) a;
  run_mod : forall prog pkt pc a i, prog !! pc = Some i -> code i = ALU_MOD_K -> k i <> 0 ->
    run prog pkt pc a = run prog pkt (S pc) (a mod k i);
  run_ret_a : forall prog pkt pc a i, prog !! pc = Some i -> code i = RET_A -> run prog pkt pc a = a;
  run_ret_k : forall prog pkt pc a i, prog !! pc = Some i -> code i = RET_K -> run prog pkt pc a = k i
}.

(** [size_of] of the headers; the stream identifier is at the start of its own. *)
Definition BASE_HEADER : Z := 2.
Definition MGMT_HEADER : Z := 8.
Definition STREAM_ID_OFFSET : Z := 0.

Section steering.
(** [zpr::packet_info::ZPI_ENCRYPTED_HEADER_FLAG]. *)
Context (ZPI_ENCRYPTED_HEADER_FLAG : Z).

(** The program [set_steering] attaches. *)
Definition set_steering (num_queues : Z) (method : SteeringMethod) : list sock_filter :=
  match method with
  | OsDefault | PacketHash => [sf RET_K 0 0 U32_MAX]
  | ZdpStreamId =>
      [sf LD_H_ABS 0 0 0;
       sf JMP_JSET_K 5 0 (Z.lor (Z.shiftl ZPI_ENCRYPTED_HEADER_FLAG 8) Zdp.ZDP_PACKET_TYPE_NON_FLOW_FLAG);
       sf LD_W_ABS 0 0 (LinkCrypt.ZPI_HDR + BASE_HEADER + STREAM_ID_OFFSET);
       sf JMP_JEQ_K 1 0 Zdp.TransitPacket;
       sf LD_W_ABS 0 0 (LinkCrypt.ZPI_HDR + BASE_HEADER + MGMT_HEADER + STREAM_ID_OFFSET);
       sf ALU_MOD_K 0 0 (wrap 32 num_queues);
       sf RET_A 0 0 0;
       sf RET_K 0 0 U32_MAX]
  end.

Context `{Machine}.

(** The queue for a packet; a number that is not one of a queue leaves the choice to
    the system's hash. *)
Definition steer (num_queues : Z) (method : SteeringMethod) (pkt : list Z) : Z :=
  run (set_steering num_queues method) pkt 0 0.

(** ** What the program computes *)

Lemma land_above x : Z.land (Z.shiftl x 8) Zdp.ZDP_PACKET_TYPE_NON_FLOW_FLAG = 0.
Proof.
  apply Z.bits_inj'. intros n Hn. rewrite Z.land_spec, Z.bits_0. unfold Zdp.ZDP_PACKET_TYPE_NON_FLOW_FLAG.
  destruct (Z.lt_ge_cases n 8); [by rewrite Z.shiftl_spec_low|].
  change 0x80 with (2 ^ 7). rewrite (Z.pow2_bits_false 7 n) by lia. apply andb_false_r.
Qed.

Lemma from_be_two x y : from_be [x; y] = x * 256 + y.
Proof. cbn. lia. Qed.

(** A transit packet in the clear passes the first test. *)
Lemma transit_flags zpi :
  Z.land zpi ZPI_ENCRYPTED_HEADER_FLAG = 0 ->
  Z.land (from_be [zpi; Zdp.TransitPacket])
    (Z.lor (Z.shiftl ZPI_ENCRYPTED_HEADER_FLAG 8) Zdp.ZDP_PACKET_TYPE_NON_FLOW_FLAG) = 0.
Proof.
  intros Hz. rewrite from_be_two. unfold Zdp.TransitPacket. replace (zpi * 256 + 0) with (Z.shiftl zpi 8)
    by (rewrite Z.shiftl_mul_pow2 by lia; lia).
  by rewrite Z.land_lor_distr_r, <- Z.shiftl_land, Hz, land_above.
Qed.

(** Transit packets are steered by four bytes of their payload, not by
    their stream.  The program is to pick the queue by the stream identifier; but it
    has loaded the stream identifier over the packet type when it tests for a transit
    packet, so it tests whether the stream is 0, and for every other stream goes on
    to load the word where a management packet would have its stream.  For a transit
    packet the queue is 0 for stream 0 or a payload of less than 8 bytes, and
    otherwise the second word of the payload, modulo the number of queues: packets of
    one stream go to different queues. *)
Theorem transit_steered_by_payload n zpi excess stream payload :
  Z.land zpi ZPI_ENCRYPTED_HEADER_FLAG = 0 -> 0 < n < 2 ^ 32 -> 0 <= stream < 2 ^ 32 ->
  steer n ZdpStreamId ([zpi; Zdp.TransitPacket; excess] ++ be_bytes 4 stream ++ payload) =
    if (stream =? 0) || (zlen payload <? 8) then 0
    else from_be (take 4 (drop 4 payload)) mod n.
Proof.
  intros Hz Hn Hs. set (pkt := [zpi; Zdp.TransitPacket; excess] ++ be_bytes 4 stream ++ payload).
  assert (zlen (be_bytes 4 stream) = 4) as Hl4 by (unfold zlen; by rewrite length_be_bytes).
  assert (zlen pkt = 7 + zlen payload) as Hlen by (unfold pkt; rewrite !zlen_app, Hl4; change (zlen [zpi; Zdp.TransitPacket; excess]) with 3; lia).
  pose proof (zlen_nonneg payload). unfold steer. set (prog := set_steering n ZdpStreamId).
  assert (wrap 32 n = n) as Hw by (apply wrap_small; lia).
  rewrite (run_ld_h prog pkt 0 0 _ eq_refl eq_refl). cbn [k]. rewrite (proj2 (Z.leb_le _ _)) by lia.
  change (from_be (take 2 (drop (Z.to_nat 0) pkt))) with (from_be [zpi; Zdp.TransitPacket]).
  rewrite (run_jset prog pkt 1 _ _ eq_refl eq_refl). cbn [k jf jt]. rewrite transit_flags by done. cbn [Z.eqb Nat.add].
  rewrite (run_ld_w prog pkt 2 _ _ eq_refl eq_refl). cbn [k].
  unfold LinkCrypt.ZPI_HDR, BASE_HEADER, MGMT_HEADER, STREAM_ID_OFFSET. rewrite (proj2 (Z.leb_le _ _)) by lia.
  assert (from_be (take 4 (drop (Z.to_nat (1 + 2 + 0)) pkt)) = stream) as ->.
  { change (drop (Z.to_nat (1 + 2 + 0)) pkt) with (be_bytes 4 stream ++ payload). rewrite take_app_length' by (by rewrite length_be_bytes).
    rewrite from_be_be_bytes, Z.mod_small by (change (8 * Z.of_nat 4) with 32; lia). done. }
  rewrite (run_jeq prog pkt 3 _ _ eq_refl eq_refl). cbn [k jf jt]. unfold Zdp.TransitPacket.
  assert (forall a, run prog pkt 5 a = a mod n) as Hend.
  { intros a. rewrite (run_mod prog pkt 5 _ _ eq_refl eq_refl) by (cbn; lia). cbn [k]. rewrite Hw.
    by rewrite (run_ret_a prog pkt 6 _ _ eq_refl eq_refl). }
  destruct (Z.eqb_spec stream 0) as [-> |Hne]; cbn [orb Nat.add]; [by rewrite Hend, Z.mod_0_l by lia|].
  rewrite (run_ld_w prog pkt 4 _ _ eq_refl eq_refl). cbn [k].
  unfold LinkCrypt.ZPI_HDR, BASE_HEADER, MGMT_HEADER, STREAM_ID_OFFSET.
  destruct (Z.ltb_spec (zlen payload) 8); [by rewrite (proj2 (Z.leb_gt _ _)) by lia|].
  rewrite (proj2 (Z.leb_le _ _)) by lia. rewrite Hend.
  change (drop (Z.to_nat (1 + 2 + 8 + 0)) pkt) with (drop 8 (be_bytes 4 stream ++ payload)).
  rewrite drop_app_ge by (by rewrite length_be_bytes; lia). rewrite length_be_bytes. done.
Qed.

End steering.

(** ** A machine *)

(** Jumps go forward, so the length of the program is fuel enough. *)
Fixpoint exec (fuel : nat) (prog : list sock_filter) (pkt : list Z) (pc : nat) (a : Z) : Z :=
  match fuel, prog !! pc with
  | S fuel, Some i =>
      match code i with
      | LD_H_ABS => if k i + 2 <=? zlen pkt
                    then exec fuel prog pkt (S pc) (from_be (take 2 (drop (Z.to_nat (k i)) pkt))) else 0
      | LD_W_ABS => if k i + 4 <=? zlen pkt
                    then exec fuel prog pkt (S pc) (from_be (take 4 (drop (Z.to_nat (k i)) pkt))) else 0
      | JMP_JSET_K => exec fuel prog pkt (S pc + (if Z.land a (k i) =? 0 then jf i else jt i)) a
      | JMP_JEQ_K => exec fuel prog pkt (S pc + (if a =? k i then jt i else jf i)) a
      | ALU_MOD_K => exec fuel prog pkt (S pc) (a mod k i)
      | RET_A => a
      | RET_K => k i
      end
  | _, _ => 0
  end.

Lemma exec_fuel f g prog pkt pc a :
  (length prog - pc <= f)%nat -> (length prog - pc <= g)%nat -> exec f prog pkt pc a = exec g prog pkt pc a.
Proof.
  revert g pc a. induction f as [|f IH]; intros g pc a Hf Hg.
  - destruct g; cbn; [done|]. by rewrite lookup_ge_None_2 by lia.
  - destruct g; cbn.
    + by rewrite lookup_ge_None_2 by lia.
    + destruct (prog !! pc) as [i|]; [|done].
      destruct (code i); try done; try (case_match; [|done]); apply IH; lia.
Qed.

#[local] Instance forward_machine : Machine.
Proof.
  refine {| run prog pkt pc a := exec (length prog - pc) prog pkt pc a |};
    intros prog pkt pc a i Hi Hc; pose proof (lookup_lt_Some _ _ _ Hi);
    (destruct (length prog - pc)%nat as [|n] eqn:En; [lia|]); cbn [exec]; rewrite Hi, Hc;
    first [done|case_match; [apply exec_fuel; lia|done]|apply exec_fuel; lia|intros; apply exec_fuel; lia].
Defined.

(** Two packets of stream 1, of four queues: one goes to queue 2, the other to 3. *)
Definition transit_packet (x : Z) : list Z := [5; Zdp.TransitPacket; 0] ++ be_bytes 4 1 ++ [0; 0; 0; 0; 0; 0; 0; x].
Lemma transit_steered_by_payload_witness :
  steer 128 4 ZdpStreamId (transit_packet 6) = 2 /\ steer 128 4 ZdpStreamId (transit_packet 7) = 3.
Proof.
  split.
  - refine (eq_trans (transit_steered_by_payload 128 4 5 0 1 [0; 0; 0; 0; 0; 0; 0; 6] _ _ _) _); [reflexivity|lia|lia|reflexivity].
  - refine (eq_trans (transit_steered_by_payload 128 4 5 0 1 [0; 0; 0; 0; 0; 0; 0; 7] _ _ _) _); [reflexivity|lia|lia|reflexivity].
Defined.

End Steering.
