(* ===== verification/KmNoise.v ===== *)
(** * Setting up a security association ([km_noise.rs], [km_cert_exchange.rs], [km.rs])

    The Noise key manager: its state, the payloads that carry the ZPIs, the key for
    link MACs and the certificate, and the operations [reset], [handle_message] and
    [tick] of [KeyManagerStateMachine].  The handshake itself is that of [snow], the
    certificates those of [x509_cert]: interfaces with the behaviour relied on. *)
From Stdlib Require Import ZArith Lia.
From stdpp Require Import base tactics option list.
From S2P Require Import Prelude LinkTypes PeerTable LinkCrypt.
From stdpp Require Import list.
Import LinkTypes PeerTable LinkCrypt.

Local Open Scope Z_scope.

Definition NOISE_KEY_LEN : nat := 32.

(** [snow]'s handshake in the pattern XX.  [paired ski skr n w r]: the ends [w] and
    [r] of one handshake, of an initiator with the private key [ski] and a responder
    with [skr], have exchanged [n] messages and [w] writes the next.  A message adds
    at most 96 bytes to its payload. *)
Class Snow `{Ciphers} := {
  HandshakeState : Type;
  pattern_parses : bool;
  build_initiator : list Z -> Z -> option HandshakeState;
  build_responder : list Z -> Z -> option HandshakeState;
  hs_write : HandshakeState -> list Z -> Z -> option (list Z) * HandshakeState;
  hs_read : HandshakeState -> list Z -> Z -> option (list Z) * HandshakeState;
  is_handshake_finished : HandshakeState -> bool;
  get_remote_static : HandshakeState -> option (list Z);
  into_stateless_transport_mode : HandshakeState -> option Z;
  public_of : list Z -> list Z;
  paired : list Z -> list Z -> nat -> HandshakeState -> HandshakeState -> Prop;
  pattern_ok : pattern_parses = true;
  built : forall ski ei skr er, length ski = NOISE_KEY_LEN -> length skr = NOISE_KEY_LEN ->
    exists i r, build_initiator ski ei = Some i /\ build_responder skr er = Some r /\ paired ski skr 0 i r;
  (** Reading fails or gives at most as many bytes as there is room for. *)
  read_payload : forall s m room p s', hs_read s m room = (Some p, s') -> zlen p <= room;
  paired_step : forall ski skr n w r p room, paired ski skr n w r -> (n < 3)%nat ->
    zlen p + 96 <= room -> zlen p + 96 <= 65535 ->
    exists m w', hs_write w p room = (Some m, w') /\ is_handshake_finished w' = (n =? 2)%nat /\
      zlen m <= zlen p + 96 /\
      forall room', zlen m <= room' -> exists r', hs_read r m room' = (Some p, r') /\
        is_handshake_finished r' = (n =? 2)%nat /\ paired ski skr (S n) r' w';
  (** The peer's static key, once known, stays. *)
  write_static : forall s p room o s', hs_write s p room = (o, s') -> get_remote_static s' = get_remote_static s;
  read_static : forall s m room o s' k, hs_read s m room = (o, s') -> get_remote_static s = Some k ->
    get_remote_static s' = Some k;
  paired_static1 : forall ski skr w r, paired ski skr 2 w r -> get_remote_static w = Some (public_of skr);
  paired_static2 : forall ski skr w r, paired ski skr 3 w r -> get_remote_static w = Some (public_of ski);
  paired_transport : forall ski skr w r, paired ski skr 3 w r ->
    exists s s', into_stateless_transport_mode w = Some s /\ into_stateless_transport_mode r = Some s' /\
      peered s s' /\ peered s' s
}.

(** [x509_cert] and [pki.rs], as far as the exchange of certificates goes. *)
Class Pki := {
  Certificate : Type;
  to_der : Certificate -> option (list Z);
  from_der : list Z -> option Certificate;
  (** [verify(cert, public_key(authority))]: [None] is an error. *)
  verify : Certificate -> Certificate -> option bool;
  public_key : Certificate -> list Z;
  subject_der : Certificate -> option (list Z);
  common_name : Certificate -> option (list Z);
  der_back : forall c der, to_der c = Some der -> from_der der = Some c;
  der_nonempty : forall c, to_der c <> Some []
}.

Module KmNoise.

Definition MSG_BUF_SIZE : Z := 4096.
Definition HANDSHAKE_TIMEOUT : Z := secs 15.
Definition HMAC_KEY_LEN : nat := 32.

Inductive KmError := ConfigurationError | InvalidState | HandshakeError | CertExchangeError | MachineError | EnqueueFailed.

(** ** Exchanging certificates *)
Section certs.
Context `{Pki}.

Inductive CertError :=
| CertificateFormatError | CertificateParseError | InvalidPayloadError | ShortPayloadError | BufferSizeError
| KeyMismatchError.

Inductive PeerCertificate := Verified (c : Certificate) | Unverified (c : Certificate).
Definition get_cert (p : PeerCertificate) : Certificate := match p with Verified c | Unverified c => c end.
Definition is_verified (p : PeerCertificate) : bool := match p with Verified _ => true | Unverified _ => false end.

Record KmCertExchange := mkCertx { local_cert : option Certificate; authority_cert : option Certificate }.

(** The payload, when the buffer has [remaining] bytes left. *)
Definition write_payload (x : KmCertExchange) (remaining : Z) : list Z + CertError :=
  match match local_cert x with Some c => to_der c | None => Some [] end with
  | None => inr CertificateFormatError
  | Some der =>
      if 65535 <? zlen der then inr CertificateFormatError
      else if remaining <? 2 + zlen der then inr BufferSizeError
      else inl (be_bytes 2 (zlen der) ++ der)
  end.

Definition process_payload (x : KmCertExchange) (payload expected_peer_public_key : list Z)
    : option PeerCertificate + CertError :=
  if zlen payload <? 2 then inr ShortPayloadError
  else
    let cert_len := from_be (take 2 payload) in
    if cert_len =? 0 then inl None
    else if zlen payload <? 2 + cert_len then inr ShortPayloadError
    else match from_der (take (Z.to_nat cert_len) (drop 2 payload)) with
    | None => inr CertificateParseError
    | Some c =>
        let verified := match authority_cert x with
                        | Some a => match verify c a with Some b => b | None => false end
                        | None => false
                        end in
        if negb (bool_decide (public_key c = expected_peer_public_key)) then inr KeyMismatchError
        else inl (Some (if verified then Verified c else Unverified c))
    end.

(** Are we configured with an authority certificate? *)
Definition requires_verification (x : KmCertExchange) : bool :=
  match authority_cert x with Some _ => true | None => false end.

(** ** The state machine *)

Context `{Snow}.
(** [zpr::packet_info]. *)
Context (KM_ID_NOISE KM_ID_NULL : Z).

(** A [KmTransportSA] before it has an identifier, with the codec itself. *)
Record TransportSA := mkTransport {
  t_send_zpis : ZPIPair; t_recv_zpis : ZPIPair; t_send_hmac_key : list Z; t_recv_hmac_key : list Z;
  t_codec : Codec; t_peer_cert : option PeerCertificate
}.

Inductive KmSMState := Configuring | Transport (sa : TransportSA) | Error.

Record KmNoise := mkNoise {
  state : KmSMState;
  msg_nr : Z;
  initiate : bool;
  verify_cert : bool;
  local_private : list Z;
  hs_sent_t : option Z;
  hs_state : option HandshakeState;
  recv_hmac_key : list Z;
  send_hmac_key : option (list Z);
  recv_zpis : ZPIPair;
  send_zpis : option ZPIPair;
  certx : KmCertExchange;
  peer_cert : option PeerCertificate
}.
Definition set_state v x := mkNoise v (msg_nr x) (initiate x) (verify_cert x) (local_private x) (hs_sent_t x) (hs_state x) (recv_hmac_key x) (send_hmac_key x) (recv_zpis x) (send_zpis x) (certx x) (peer_cert x).
Definition set_msg_nr v x := mkNoise (state x) v (initiate x) (verify_cert x) (local_private x) (hs_sent_t x) (hs_state x) (recv_hmac_key x) (send_hmac_key x) (recv_zpis x) (send_zpis x) (certx x) (peer_cert x).
Definition set_hs_sent_t v x := mkNoise (state x) (msg_nr x) (initiate x) (verify_cert x) (local_private x) v (hs_state x) (recv_hmac_key x) (send_hmac_key x) (recv_zpis x) (send_zpis x) (certx x) (peer_cert x).
Definition set_hs_state v x := mkNoise (state x) (msg_nr x) (initiate x) (verify_cert x) (local_private x) (hs_sent_t x) v (recv_hmac_key x) (send_hmac_key x) (recv_zpis x) (send_zpis x) (certx x) (peer_cert x).
Definition set_recv_hmac_key v x := mkNoise (state x) (msg_nr x) (initiate x) (verify_cert x) (local_private x) (hs_sent_t x) (hs_state x) v (send_hmac_key x) (recv_zpis x) (send_zpis x) (certx x) (peer_cert x).
Definition set_send_hmac_key v x := mkNoise (state x) (msg_nr x) (initiate x) (verify_cert x) (local_private x) (hs_sent_t x) (hs_state x) (recv_hmac_key x) v (recv_zpis x) (send_zpis x) (certx x) (peer_cert x).
Definition set_send_zpis v x := mkNoise (state x) (msg_nr x) (initiate x) (verify_cert x) (local_private x) (hs_sent_t x) (hs_state x) (recv_hmac_key x) (send_hmac_key x) (recv_zpis x) v (certx x) (peer_cert x).
Definition set_peer_cert v x := mkNoise (state x) (msg_nr x) (initiate x) (verify_cert x) (local_private x) (hs_sent_t x) (hs_state x) (recv_hmac_key x) (send_hmac_key x) (recv_zpis x) (send_zpis x) (certx x) v.

Definition new (initiate verify_cert : bool) (keypair : list Z) (zpis : ZPIPair) (x : KmCertExchange) : KmNoise :=
  mkNoise Configuring 0 initiate verify_cert keypair None None (replicate HMAC_KEY_LEN 0) None zpis None x None.

(** The 2nd and 3rd messages carry the parameters. *)
Definition msg_carries_zpi_payload (nr : Z) : bool := (nr =? 1) || (nr =? 2).

(** [KeyMsg]. *)
Definition KEY_MSG : Z := 34.
Definition key_msg (zpis : ZPIPair) (key : list Z) : list Z := [encr zpis; hmac zpis] ++ key.

Notation Res A := (A + KmError)%type.

Definition create_hs_message (hs : HandshakeState) (x : KmNoise)
    : Res (list Z) * HandshakeState * KmNoise :=
  match (if msg_carries_zpi_payload (msg_nr x) then
           match write_payload (certx x) (2 ^ 64 - 1 - KEY_MSG) with
           | inl cert => inl (key_msg (recv_zpis x) (recv_hmac_key x) ++ cert)
           | inr _ => inr CertExchangeError
           end
         else inl []) with
  | inr e => (inr e, hs, x)
  | inl payload =>
      match hs_write hs payload MSG_BUF_SIZE with
      | (Some m, hs') => (inl m, hs', set_msg_nr (wrapping_add 8 (msg_nr x) 1) x)
      | (None, hs') => (inr HandshakeError, hs', x)
      end
  end.

Definition parse_km_payload (payload peer_public_key : list Z) (x : KmNoise) : Res unit * KmNoise :=
  if zlen payload <? KEY_MSG then (inr HandshakeError, x)
  else
    let x1 := set_send_hmac_key (Some (take 32 (drop 2 payload)))
                (set_send_zpis (Some (mkZpis (nth 0 payload 0) (nth 1 payload 0))) x) in
    match process_payload (certx x) (drop 34 payload) peer_public_key with
    | inl c => (inl tt, set_peer_cert c x1)
    | inr _ => (inr CertExchangeError, x1)
    end.

(** [rnd] is what the random number generator fills the key with, [seed] what
    [snow] draws its ephemeral key from. *)
Definition reset (rnd : list Z) (seed now : Z) (x0 : KmNoise) : Res (option (list Z)) * KmNoise :=
  let x1 := set_msg_nr 0 (set_state Configuring x0) in
  if negb pattern_parses then (inr ConfigurationError, set_state Error x1)
  else
    let x := set_send_hmac_key None (set_recv_hmac_key rnd x1) in
    if initiate x then
      match build_initiator (local_private x) seed with
      | None => (inr MachineError, set_state Error x)
      | Some hs =>
          match create_hs_message hs x with
          | (inr _, _, x') => (inr HandshakeError, set_state Error x')
          | (inl m, hs', x') => (inl (Some m), set_hs_sent_t (Some now) (set_hs_state (Some hs') x'))
          end
      end
    else
      match build_responder (local_private x) seed with
      | None => (inr MachineError, set_state Error x)
      | Some hs => (inl None, set_hs_sent_t None (set_hs_state (Some hs) x))
      end.

(** The end of [handle_message]: the handshake is finished, [hs_state] is empty. *)
Definition finish (km_impl : Z) (hs : HandshakeState) (hs_msg : option (list Z)) (x : KmNoise)
    : Res (option (list Z)) * KmNoise :=
  match send_zpis x with
  | None => (inr HandshakeError, set_state Error x)
  | Some zpis =>
      match send_hmac_key x with
      | None => (inr HandshakeError, set_state Error x)
      | Some key =>
          match into_stateless_transport_mode hs with
          | None => (inr HandshakeError, set_state Error x)
          | Some t =>
              if km_impl =? KM_ID_NOISE then
                (inl hs_msg, set_state (Transport (mkTransport zpis (recv_zpis x) key (recv_hmac_key x)
                                                     (NoiseCodec t) (peer_cert x))) x)
              else if km_impl =? KM_ID_NULL then
                (inl hs_msg, set_state (Transport (mkTransport zpis (recv_zpis x) key (recv_hmac_key x)
                                                     NullCodec (peer_cert x))) x)
              else (inr HandshakeError, x)
          end
      end
  end.

(** The answer, if the handshake goes on, and its end, if it does not. *)
Definition answer (km_impl now : Z) (hs : HandshakeState) (x : KmNoise) : Res (option (list Z)) * KmNoise :=
  match (if is_handshake_finished hs then inl (None, hs, x)
         else match create_hs_message hs x with
              | (inl m, hs', x') => inl (Some m, hs', set_hs_sent_t (Some now) x')
              | (inr _, hs', x') => inr (set_state Error (set_hs_state (Some hs') x'))
              end) with
  | inr x' => (inr HandshakeError, x')
  | inl (hs_msg, hs', x') =>
      if is_handshake_finished hs' then finish km_impl hs' hs_msg x'
      else (inl hs_msg, set_hs_state (Some hs') x')
  end.

Definition handle_message (message : list Z) (km_impl now : Z) (x0 : KmNoise)
    : outcome (Res (option (list Z)) * KmNoise) :=
  match state x0 with
  | Configuring =>
      hs ← unwrap (hs_state x0);
      let x := set_hs_state None (set_hs_sent_t None x0) in
      match hs_read hs message MSG_BUF_SIZE with
      | (None, hs') => mret (inr HandshakeError, set_hs_state (Some hs') (set_state Error x))
      | (Some payload, hs') =>
          let x1 := set_msg_nr (wrapping_add 8 (msg_nr x) 1) x in
          if msg_carries_zpi_payload (msg_nr x) then
            match get_remote_static hs' with
            | None => mret (inr CertExchangeError, set_hs_state (Some hs') (set_state Error x1))
            | Some peer_pubkey =>
                match parse_km_payload payload peer_pubkey x1 with
                | (inr _, x2) => mret (inr HandshakeError, set_hs_state (Some hs') (set_state Error x2))
                | (inl _, x2) =>
                    if verify_cert x2 && requires_verification (certx x2) &&
                       negb (match peer_cert x2 with Some c => is_verified c | None => false end)
                    then mret (inr CertExchangeError, set_hs_state (Some hs') (set_state Error x2))
                    else mret (answer km_impl now hs' x2)
                end
            end
          else mret (answer km_impl now hs' x1)
      end
  | _ => mret (inr InvalidState, x0)
  end.

Definition tick (now : Z) (x : KmNoise) : Res (option (list Z)) * KmNoise :=
  match state x, hs_state x, hs_sent_t x with
  | Configuring, Some _, Some t =>
      if HANDSHAKE_TIMEOUT <? now - t
      then (inr HandshakeError, set_state Error (set_hs_sent_t None (set_hs_state None x)))
      else (inl None, x)
  | _, _, _ => (inl None, x)
  end.

End certs.
End KmNoise.
