(* ===== verification/KmNoiseProps.v ===== *)
(** * What the Noise key manager guarantees

    That it keeps going whatever it receives, that a transport association means a
    verified certificate where one is required, and that an undisturbed handshake
    gives the two ends the two halves of one association. *)
From Stdlib Require Import ZArith Lia.
From stdpp Require Import base tactics option list relations.
From S2P Require Import Prelude LinkTypes PeerTable LinkCrypt LinkCryptProps KmNoise.
From stdpp Require Import list.
Import LinkTypes PeerTable LinkCrypt LinkCryptProps KmNoise.

Local Open Scope Z_scope.

Module KmNoiseProps.

Section props.
Context `{Pki} `{Snow}.
Context (KM_ID_NOISE KM_ID_NULL : Z).

Notation handle := (handle_message KM_ID_NOISE KM_ID_NULL).

(** ** Runs *)

(** One operation on the state machine, with any inputs; [km_impl] is one of the
    two that the configuration accepts. *)
Inductive step : KmNoise -> KmNoise -> Prop :=
| step_reset rnd seed now x : step x (reset rnd seed now x).2
| step_message m km now x r x' : km = KM_ID_NOISE \/ km = KM_ID_NULL ->
    handle m km now x = Ret (r, x') -> step x x'
| step_tick now x : step x (tick now x).2.

(** The states of a machine that was reset after it was made. *)
Definition started (x : KmNoise) : Prop :=
  exists initiate verify key zpis cx rnd seed now,
    rtc step (reset rnd seed now (new initiate verify key zpis cx)).2 x.

(** What the certificate of the peer must be: accepted under the authority, if the
    peer is to be verified, and in any case for the key the peer has proven to have. *)
Definition peer_ok (x : KmNoise) (c : option PeerCertificate) (hs : HandshakeState) : Prop :=
  (verify_cert x = true -> forall a, authority_cert (certx x) = Some a ->
     exists crt, c = Some (Verified crt) /\ verify crt a = Some true) /\
  (forall p, c = Some p -> get_remote_static hs = Some (public_key (get_cert p))).

(** While it configures there is a handshake; once the peer's key for link MACs is
    there, so is its certificate, checked; and what transports was checked. *)
Definition km_inv (x : KmNoise) : Prop :=
  match state x with
  | Configuring => exists hs, hs_state x = Some hs /\
      forall k, send_hmac_key x = Some k -> peer_ok x (peer_cert x) hs
  | Transport sa => exists hs t, into_stateless_transport_mode hs = Some t /\
      (t_codec sa = NoiseCodec t \/ t_codec sa = NullCodec) /\ peer_ok x (t_peer_cert sa) hs
  | Error => True
  end.

(** ** The operations keep the invariant *)

Lemma create_cases hs x r hs' x' :
  create_hs_message hs x = (r, hs', x') ->
  get_remote_static hs' = get_remote_static hs /\
  (x' = x \/ exists n, x' = set_msg_nr n x).
Proof.
  unfold create_hs_message. destruct (if msg_carries_zpi_payload _ then _ else _) as [payload|e];
    [|intros [= <- <- <-]; auto].
  destruct (hs_write hs payload MSG_BUF_SIZE) as [[m|] hs1] eqn:E; intros [= <- <- <-];
    apply write_static in E; eauto.
Qed.

(** A certificate that is accepted is for the peer's key; verified means verified
    under the authority. *)
Lemma process_cases cx payload key p :
  process_payload cx payload key = inl (Some p) ->
  public_key (get_cert p) = key /\
  forall c a, p = Verified c -> authority_cert cx = Some a -> verify c a = Some true.
Proof.
  unfold process_payload. destruct (_ <? 2); [done|]. cbv zeta.
  destruct (_ =? 0); [done|]. destruct (_ <? _); [done|]. destruct (from_der _) as [c|]; [|done].
  case_bool_decide as Ek; [|done]. cbn [negb]. destruct (authority_cert cx) as [a|]; [|intros [= <-]; by split].
  destruct (verify c a) as [[]|] eqn:Ev; intros [= <-]; (split; [done|]); try done.
  by intros c' a' [= <-] [= <-].
Qed.

Lemma parse_cases payload key x r x' :
  parse_km_payload payload key x = (r, x') ->
  state x' = state x /\ verify_cert x' = verify_cert x /\ certx x' = certx x /\ hs_state x' = hs_state x /\
  forall u, r = inl u -> (exists z k, send_zpis x' = Some z /\ send_hmac_key x' = Some k) /\
    forall p, peer_cert x' = Some p -> public_key (get_cert p) = key /\
      forall c a, p = Verified c -> authority_cert (certx x) = Some a -> verify c a = Some true.
Proof.
  unfold parse_km_payload. destruct (_ <? _); [by intros [= <- <-]|].
  destruct (process_payload (certx x) (drop 34 payload) key) as [c|e] eqn:E; intros [= <- <-]; [|done].
  do 4 (split; [done|]). intros [] _. split; [by eexists _, _|]. cbn [peer_cert set_peer_cert]. intros p ->.
  by apply process_cases in E.
Qed.

(** What [answer] and [finish] need: a checked certificate, if the peer's key is there. *)
Definition checked (x : KmNoise) (hs : HandshakeState) : Prop :=
  forall k, send_hmac_key x = Some k -> peer_ok x (peer_cert x) hs.

Lemma checked_static x hs hs' :
  (forall k, get_remote_static hs = Some k -> get_remote_static hs' = Some k) -> checked x hs -> checked x hs'.
Proof. intros Hs Hc k Hk. destruct (Hc k Hk) as [Hv Hp]. split; [done|]. eauto. Qed.

Lemma km_finish_inv km hs o x :
  km = KM_ID_NOISE \/ km = KM_ID_NULL -> checked x hs -> km_inv (finish KM_ID_NOISE KM_ID_NULL km hs o x).2.
Proof.
  intros Hk Hc. unfold finish. destruct (send_zpis x); [|done]. destruct (send_hmac_key x) as [k|] eqn:Ek; [|done].
  destruct (into_stateless_transport_mode hs) as [t|] eqn:Et; [|done]. specialize (Hc k Ek).
  destruct (Z.eqb_spec km KM_ID_NOISE); [exists hs, t; cbn; auto|].
  destruct (Z.eqb_spec km KM_ID_NULL); [exists hs, t; cbn; auto|]. by destruct Hk.
Qed.

Lemma answer_inv km now hs x :
  km = KM_ID_NOISE \/ km = KM_ID_NULL -> state x = Configuring -> checked x hs ->
  km_inv (answer KM_ID_NOISE KM_ID_NULL km now hs x).2.
Proof.
  intros Hk Hs Hc. unfold answer. destruct (is_handshake_finished hs) eqn:Ef.
  { rewrite Ef. by apply km_finish_inv. }
  destruct (create_hs_message hs x) as [[r hs'] x'] eqn:Ec. apply create_cases in Ec as [Hst Hx].
  destruct r as [m|e]; [|done].
  assert (state x' = Configuring /\ checked x' hs') as [Hs' Hc'].
  { assert (checked x hs') by (eapply checked_static; [|exact Hc]; by rewrite Hst).
    destruct Hx as [-> |[n ->]]; by split. }
  destruct (is_handshake_finished hs'); [by apply km_finish_inv|]. unfold km_inv. cbn. rewrite Hs'. exists hs'. by split.
Qed.

Lemma handle_inv m km now x :
  km = KM_ID_NOISE \/ km = KM_ID_NULL -> km_inv x ->
  exists r x', handle m km now x = Ret (r, x') /\ km_inv x'.
Proof.
  intros Hk Hi. unfold handle_message. destruct (state x) eqn:Es; [|by eexists _, _..].
  unfold km_inv in Hi. rewrite Es in Hi. destruct Hi as (hs & Eh & Hc). rewrite Eh. cbn [unwrap]. rewrite bind_Ret. cbv zeta.
  set (x0 := set_hs_state None (set_hs_sent_t None x)).
  destruct (hs_read hs m MSG_BUF_SIZE) as [[payload|] hs'] eqn:Er; [|by eexists _, _].
  assert (checked x0 hs') as Hc0 by (eapply (checked_static x0 hs); [intros; by eapply read_static|exact Hc]).
  assert (state x0 = Configuring) as Es0 by done.
  destruct (msg_carries_zpi_payload (msg_nr x0)).
  - destruct (get_remote_static hs') as [key|] eqn:Ek; [|by eexists _, _].
    destruct (parse_km_payload payload key _) as [r x2] eqn:Ep. apply parse_cases in Ep as (S2 & V2 & C2 & _ & Hp).
    destruct r as [u|]; [|by eexists _, _]. destruct (Hp u eq_refl) as [_ Hcert]. cbn [certx set_msg_nr] in C2, Hcert.
    destruct (verify_cert x2 && requires_verification (certx x2) && _) eqn:Ev; [by eexists _, _|].
    eexists _, _. split; [apply (f_equal Ret), surjective_pairing|]. apply answer_inv; [done|by rewrite S2|].
    intros k _. split; [|intros p Hpc; destruct (Hcert p Hpc) as [-> _]; done].
    intros Hv a Ha. rewrite Hv in Ev. unfold requires_verification in Ev. rewrite Ha in Ev. cbn [andb] in Ev.
    rewrite C2 in Ha. destruct (peer_cert x2) as [[c|c]|] eqn:Epc; [|done|done].
    exists c. split; [done|]. by apply (Hcert (Verified c) eq_refl).
  - eexists _, _. split; [apply (f_equal Ret), surjective_pairing|]. by apply answer_inv.
Qed.

Lemma tick_inv now x : km_inv x -> km_inv (tick now x).2.
Proof.
  unfold tick. destruct (state x) eqn:Es; [|done|done]. destruct (hs_state x); [|done]. destruct (hs_sent_t x); [|done].
  by destruct (_ <? _).
Qed.

Lemma fresh_inv x hs :
  state x = Configuring -> hs_state x = Some hs -> send_hmac_key x = None -> km_inv x.
Proof. intros Es Eh Ek. unfold km_inv. rewrite Es. exists hs. split; [done|]. intros k. by rewrite Ek. Qed.

Lemma error_inv x : km_inv (set_state Error x).
Proof. exact I. Qed.

Lemma km_reset_inv rnd seed now x : km_inv (reset rnd seed now x).2.
Proof.
  unfold reset. cbv zeta. destruct (negb pattern_parses); [apply error_inv|].
  set (y := set_send_hmac_key None _).
  assert (state y = Configuring /\ send_hmac_key y = None) as [Ey Ky] by done. clearbody y.
  destruct (initiate y).
  - destruct (build_initiator _ _) as [hs|]; [|apply error_inv].
    destruct (create_hs_message hs y) as [[r hs'] x'] eqn:Ec. apply create_cases in Ec as [_ Hx].
    destruct r as [m|]; [|apply error_inv]. by destruct Hx as [-> |[n ->]]; apply (fresh_inv _ hs').
  - destruct (build_responder _ _) as [hs|]; [|apply error_inv]. by apply (fresh_inv _ hs).
Qed.

Lemma km_step_inv x x' : step x x' -> km_inv x -> km_inv x'.
Proof.
  intros [rnd seed now y|m km now y r y' Hk E|now y] Hi; [apply km_reset_inv| |by apply tick_inv].
  destruct (handle_inv m km now y Hk Hi) as (r' & x2 & E' & Hi'). rewrite E in E'. by injection E' as <- <-.
Qed.

Lemma started_inv x : started x -> km_inv x.
Proof.
  intros (i & v & k & z & cx & rnd & seed & now & Hr). pose proof (km_reset_inv rnd seed now (new i v k z cx)) as Hi.
  revert Hi. induction Hr; eauto using km_step_inv.
Qed.

(** C39. The key manager goes on whatever it receives.  In every state that any
    sequence of messages, ticks and resets leads to, with any bytes in the messages,
    the next message is handled without a panic (the handshake it relies on is there),
    and in the transport and error states it changes nothing. *)
Theorem km_never_panics x m km now :
  started x -> km = KM_ID_NOISE \/ km = KM_ID_NULL ->
  exists r x', handle m km now x = Ret (r, x') /\
    (state x <> Configuring -> r = inr InvalidState /\ x' = x).
Proof.
  intros Hs Hk. destruct (handle_inv m km now x Hk (started_inv x Hs)) as (r & x' & E & _). exists r, x'.
  split; [done|]. intros Hn. unfold handle_message in E. destruct (state x); [done|by injection E as <- <-..].
Qed.

(** C6. A transport association means a verified peer.  In every state that any
    sequence of messages, ticks and resets leads to: if the machine transports, is to
    verify certificates and has an authority, then the association's certificate was
    verified under that authority, and its key is the one that the peer has proven to
    have in the very handshake that the association's codec comes from.  Where no
    verification is asked for, a certificate is still for the peer's proven key. *)
Theorem transport_means_verified x sa :
  started x -> state x = Transport sa ->
  exists hs t, into_stateless_transport_mode hs = Some t /\
    (t_codec sa = NoiseCodec t \/ t_codec sa = NullCodec) /\
    (forall p, t_peer_cert sa = Some p -> get_remote_static hs = Some (public_key (get_cert p))) /\
    (verify_cert x = true -> forall a, authority_cert (certx x) = Some a ->
       exists c, t_peer_cert sa = Some (Verified c) /\ verify c a = Some true).
Proof.
  intros Hs Et. pose proof (started_inv x Hs) as Hi. unfold km_inv in Hi. rewrite Et in Hi.
  destruct Hi as (hs & t & Ht & Hc & Hv & Hp). eauto 8.
Qed.


(** ** A handshake that nobody disturbs *)

(** Read and update fields. *)
Ltac fields := cbn [state msg_nr initiate verify_cert local_private hs_sent_t hs_state recv_hmac_key send_hmac_key recv_zpis send_zpis certx
  peer_cert set_state set_msg_nr set_hs_sent_t set_hs_state set_recv_hmac_key set_send_hmac_key set_send_zpis set_peer_cert].


(** The certificate of the other end [cx'] as [cx] sees it. *)
Definition presented (cx cx' : KmCertExchange) : option PeerCertificate :=
  c ← local_cert cx';
  Some (if match authority_cert cx with Some a => bool_decide (verify c a = Some true) | None => false end
        then Verified c else Unverified c).

(** An end's certificate is for its own key, and small enough for a message; the
    other end can verify it, if it has to. *)
Definition presentable (key : list Z) (cx : KmCertExchange) : Prop :=
  forall c, local_cert cx = Some c -> public_key c = public_of key /\
    exists der, to_der c = Some der /\ zlen der <= 3900.
Definition acceptable (verify_cert : bool) (cx cx' : KmCertExchange) : Prop :=
  verify_cert = true -> requires_verification cx = true ->
  match presented cx cx' with Some p => is_verified p | None => false end = true.

(** The payload of the 2nd and 3rd message. *)
Definition full_payload (zpis : ZPIPair) (key : list Z) (cx : KmCertExchange) : list Z + CertError :=
  match write_payload cx (2 ^ 64 - 1 - KEY_MSG) with
  | inl cert => inl (key_msg zpis key ++ cert)
  | inr e => inr e
  end.

Lemma payload_ok zpis key cx k :
  presentable k cx -> length key = 32%nat ->
  exists p, full_payload zpis key cx = inl p /\ zlen p + 96 <= MSG_BUF_SIZE /\
    forall x, parse_km_payload p (public_of k) x =
        (inl tt, set_peer_cert (presented (certx x) cx) (set_send_hmac_key (Some key) (set_send_zpis (Some zpis) x))).
Proof.
  intros Hp Hk. unfold full_payload, write_payload.
  assert (exists der, match local_cert cx with Some c => to_der c | None => Some [] end = Some der /\ zlen der <= 3900 /\
    forall y, process_payload y (be_bytes 2 (zlen der) ++ der) (public_of k) = inl (presented y cx)) as (der & -> & Hl & Hd).
  { destruct (local_cert cx) as [c|] eqn:Ec.
    - destruct (Hp c Ec) as (Hpk & der & Ed & Hl). exists der. split; [done|]. split; [done|]. intros y.
      pose proof (zlen_nonneg der). unfold process_payload, presented. rewrite Ec. cbn [mbind option_bind].
      assert (zlen (be_bytes 2 (zlen der)) = 2) as Hb2 by (unfold zlen; by rewrite length_be_bytes).
      rewrite zlen_app, Hb2, (proj2 (Z.ltb_ge _ _)) by lia. rewrite take_app_length' by (by rewrite length_be_bytes).
      rewrite from_be_be_bytes, Z.mod_small by (change (8 * Z.of_nat 2) with 16; lia).
      assert (0 < zlen der) by (destruct der; [by apply der_nonempty in Ed|unfold zlen; cbn; lia]).
      rewrite (proj2 (Z.eqb_neq _ _)), (proj2 (Z.ltb_ge _ _)) by lia.
      rewrite drop_app_length' by (by rewrite length_be_bytes).
      rewrite take_ge by (unfold zlen; lia). rewrite (der_back _ _ Ed), bool_decide_true by done. cbn [negb].
      do 2 f_equal. destruct (authority_cert y) as [a|]; [|done].
      destruct (verify c a) as [[]|]; [rewrite bool_decide_true by done|rewrite bool_decide_false by done..]; done.
    - exists []. split; [done|]. split; [by vm_compute|]. intros y. unfold presented. by rewrite Ec. }
  pose proof (zlen_nonneg der). rewrite (proj2 (Z.ltb_ge 65535 _)) by lia. unfold KEY_MSG.
  rewrite (proj2 (Z.ltb_ge _ _)) by lia. eexists. split; [done|].
  assert (zlen (key_msg zpis key) = 34) as H34 by (unfold zlen, key_msg; rewrite length_app, Hk; done).
  assert (zlen (be_bytes 2 (zlen der)) = 2) as Hb2 by (unfold zlen; by rewrite length_be_bytes).
  split; [rewrite !zlen_app, H34, Hb2; unfold MSG_BUF_SIZE; lia|]. intros x.
  unfold parse_km_payload, KEY_MSG. rewrite !zlen_app, H34, Hb2, (proj2 (Z.ltb_ge _ _)) by lia. cbv zeta.
  rewrite drop_app_length' by (unfold zlen in H34; lia). rewrite Hd. do 3 f_equal.
  - unfold key_msg. cbn [app drop]. by rewrite drop_0, take_app_length'.
  - unfold key_msg. cbn. by destruct zpis.
Qed.

(** The messages of a machine whose next message carries parameters, or not. *)
Lemma create_full x hs k p m hs' :
  msg_carries_zpi_payload (msg_nr x) = true ->
  full_payload (recv_zpis x) (recv_hmac_key x) (certx x) = inl p -> hs_write hs p MSG_BUF_SIZE = (Some m, hs') ->
  k = wrapping_add 8 (msg_nr x) 1 ->
  create_hs_message hs x = (inl m, hs', set_msg_nr k x).
Proof.
  intros Hc Hp Hw ->. unfold create_hs_message. rewrite Hc. unfold full_payload in Hp.
  destruct (write_payload _ _) as [cert|]; [|done]. assert (key_msg (recv_zpis x) (recv_hmac_key x) ++ cert = p) as -> by congruence.
  by rewrite Hw.
Qed.
Lemma create_empty x hs k m hs' :
  msg_carries_zpi_payload (msg_nr x) = false -> hs_write hs [] MSG_BUF_SIZE = (Some m, hs') ->
  k = wrapping_add 8 (msg_nr x) 1 ->
  create_hs_message hs x = (inl m, hs', set_msg_nr k x).
Proof. intros Hc Hw ->. unfold create_hs_message. by rewrite Hc, Hw. Qed.

Lemma accepted vc cx cx' :
  acceptable vc cx cx' ->
  vc && requires_verification cx && negb (match presented cx cx' with Some p => is_verified p | None => false end) = false.
Proof.
  intros Ha. destruct vc; [|done]. destruct (requires_verification cx) eqn:E; [|done]. by rewrite (Ha eq_refl E).
Qed.

Definition codec_of (km t : Z) : Codec := if km =? KM_ID_NOISE then NoiseCodec t else NullCodec.

Lemma km_finish_ok km hs o x z k t :
  km = KM_ID_NOISE \/ km = KM_ID_NULL ->
  send_zpis x = Some z -> send_hmac_key x = Some k -> into_stateless_transport_mode hs = Some t ->
  finish KM_ID_NOISE KM_ID_NULL km hs o x =
    (inl o, set_state (Transport (mkTransport z (recv_zpis x) k (recv_hmac_key x) (codec_of km t) (peer_cert x))) x).
Proof.
  intros Hk Ez Ek Et. unfold finish, codec_of. rewrite Ez, Ek, Et. destruct (Z.eqb_spec km KM_ID_NOISE); [done|].
  destruct (Z.eqb_spec km KM_ID_NULL); [done|]. by destruct Hk.
Qed.

(** The machines on the way: just reset, and with the peer's parameters. *)
Definition waiting (nr : Z) (initiate vc : bool) (key : list Z) (t : option Z) (hs : HandshakeState) (mk : list Z)
    (z : ZPIPair) (cx : KmCertExchange) : KmNoise :=
  mkNoise Configuring nr initiate vc key t (Some hs) mk None z None cx None.
Definition done_with (nr : Z) (initiate vc : bool) (key : list Z) (t : option Z) (mk mk' : list Z)
    (z z' : ZPIPair) (cx cx' : KmCertExchange) (codec : Codec) : KmNoise :=
  mkNoise (Transport (mkTransport z' z mk' mk codec (presented cx cx'))) nr initiate vc key t None mk (Some mk') z (Some z')
    cx (presented cx cx').

(** The responder on the first message. *)
Lemma responder_first vc key hs mk z cx m0 hs1 p m1 hs2 km now :
  hs_read hs m0 MSG_BUF_SIZE = (Some [], hs1) -> is_handshake_finished hs1 = false ->
  full_payload z mk cx = inl p -> hs_write hs1 p MSG_BUF_SIZE = (Some m1, hs2) -> is_handshake_finished hs2 = false ->
  handle m0 km now (waiting 0 false vc key None hs mk z cx) =
    Ret (inl (Some m1), waiting 2 false vc key (Some now) hs2 mk z cx).
Proof.
  intros Hr F1 Hp Hw F2. unfold handle_message, waiting. fields. cbn [unwrap]. rewrite bind_Ret. fields. rewrite Hr.
  change (msg_carries_zpi_payload 0) with false. cbv iota.
  unfold answer. rewrite F1. rewrite (create_full _ hs1 2 p m1 hs2) by done. rewrite F2. done.
Qed.

(** An end on the message that brings the other end's parameters. *)
Lemma parameters_read nr ini vc key t hs mk z cx m p hs' km now z' mk' cx' key' :
  nr = 1 \/ nr = 2 -> presentable key' cx' -> length mk' = 32%nat -> full_payload z' mk' cx' = inl p ->
  acceptable vc cx cx' -> hs_read hs m MSG_BUF_SIZE = (Some p, hs') -> get_remote_static hs' = Some (public_of key') ->
  handle m km now (waiting nr ini vc key t hs mk z cx) =
    mret (answer KM_ID_NOISE KM_ID_NULL km now hs'
      (mkNoise Configuring (nr + 1) ini vc key None None mk (Some mk') z (Some z') cx (presented cx cx'))).
Proof.
  intros Hn Hpr Hl Hp Ha Hr Hs. unfold handle_message, waiting. fields. cbn [unwrap]. rewrite bind_Ret. fields. rewrite Hr.
  destruct (payload_ok z' mk' cx' key' Hpr Hl) as (p' & Ep & _ & Hparse). rewrite Hp in Ep. injection Ep as <-.
  assert (msg_carries_zpi_payload nr = true /\ wrapping_add 8 nr 1 = nr + 1) as [-> ->] by (by destruct Hn as [-> | ->]).
  rewrite Hs, Hparse. fields. by rewrite (accepted vc cx cx' Ha).
Qed.

(** The three messages of a handshake, and what the two ends have then. *)
Lemma handshake_runs km vi vr ki kr zi zr cxi cxr rndi rndr ei er t0 t1 t2 t3 t4 :
  km = KM_ID_NOISE \/ km = KM_ID_NULL ->
  length ki = NOISE_KEY_LEN -> length kr = NOISE_KEY_LEN -> length rndi = 32%nat -> length rndr = 32%nat ->
  presentable ki cxi -> presentable kr cxr -> acceptable vi cxi cxr -> acceptable vr cxr cxi ->
  exists m0 m1 m2 i1 r1 r2 i2 r3 ci cr,
    reset rndi ei t0 (new true vi ki zi cxi) = (inl (Some m0), i1) /\
    reset rndr er t1 (new false vr kr zr cxr) = (inl None, r1) /\
    handle m0 km t2 r1 = Ret (inl (Some m1), r2) /\
    handle m1 km t3 i1 = Ret (inl (Some m2), i2) /\
    handle m2 km t4 r2 = Ret (inl None, r3) /\
    state i2 = Transport (mkTransport zr zi rndr rndi ci (presented cxi cxr)) /\
    state r3 = Transport (mkTransport zi zr rndi rndr cr (presented cxr cxi)) /\
    ends ci cr /\ ends cr ci /\ (km = KM_ID_NOISE -> exists s s', ci = NoiseCodec s /\ cr = NoiseCodec s').
Proof.
  intros Hk Li Lr Mi Mr Pi Pr Ai Ar. unfold NOISE_KEY_LEN in *.
  destruct (built ki ei kr er Li Lr) as (hi & hr & Bi & Br & P0).
  destruct (paired_step _ _ _ _ _ [] MSG_BUF_SIZE P0) as (m0 & hi1 & W0 & _ & L0 & R0); [lia|by vm_compute|by vm_compute|].
  destruct (R0 MSG_BUF_SIZE) as (hr1 & R0' & F0 & P1); [change (zlen (@nil Z)) with 0 in L0; unfold MSG_BUF_SIZE; lia|]. clear R0.
  destruct (payload_ok zr rndr cxr kr Pr Mr) as (pr & Epr & Lpr & _). unfold MSG_BUF_SIZE in Lpr.
  destruct (paired_step _ _ _ _ _ pr MSG_BUF_SIZE P1) as (m1 & hr2 & W1 & F1 & L1 & R1); [lia|unfold MSG_BUF_SIZE; lia|lia|].
  destruct (R1 MSG_BUF_SIZE) as (hi2 & R1' & F1' & P2); [unfold MSG_BUF_SIZE; lia|]. clear R1.
  destruct (payload_ok zi rndi cxi ki Pi Mi) as (pi & Epi & Lpi & _). unfold MSG_BUF_SIZE in Lpi.
  destruct (paired_step _ _ _ _ _ pi MSG_BUF_SIZE P2) as (m2 & hi3 & W2 & F2 & L2 & R2); [lia|unfold MSG_BUF_SIZE; lia|lia|].
  destruct (R2 MSG_BUF_SIZE) as (hr3 & R2' & F2' & P3); [unfold MSG_BUF_SIZE; lia|]. clear R2.
  destruct (paired_transport _ _ _ _ P3) as (sr & si & Tr & Ti & E1 & E2).
  exists m0, m1, m2, (waiting 1 true vi ki (Some t0) hi1 rndi zi cxi), (waiting 0 false vr kr None hr rndr zr cxr),
    (waiting 2 false vr kr (Some t2) hr2 rndr zr cxr),
    (done_with 3 true vi ki (Some t3) rndi rndr zi zr cxi cxr (codec_of km si)),
    (done_with 3 false vr kr None rndr rndi zr zi cxr cxi (codec_of km sr)), (codec_of km si), (codec_of km sr).
  cbn in F0, F1, F1', F2, F2'. repeat split.
  - unfold reset. rewrite pattern_ok. cbn [negb]. unfold new. fields.
    rewrite Bi. by rewrite (create_empty _ hi 1 m0 hi1).
  - unfold reset. rewrite pattern_ok. cbn [negb]. unfold new. fields.
    by rewrite Br.
  - by eapply (responder_first vr kr hr rndr zr cxr m0 hr1 pr m1 hr2).
  - rewrite (parameters_read 1 true vi ki _ hi1 rndi zi cxi m1 pr hi2 km t3 zr rndr cxr kr) by (eauto using paired_static1).
    unfold answer. rewrite F1'. rewrite (create_full _ hi2 3 pi m2 hi3) by done. rewrite F2.
    by rewrite (km_finish_ok km hi3 _ _ zr rndr si).
  - rewrite (parameters_read 2 false vr kr _ hr2 rndr zr cxr m2 pi hr3 km t4 zi rndi cxi ki) by (eauto using paired_static2).
    unfold answer. rewrite F2', F2'. by rewrite (km_finish_ok km hr3 _ _ zi rndi sr).
  - unfold codec_of. destruct (km =? KM_ID_NOISE); by constructor.
  - unfold codec_of. destruct (km =? KM_ID_NOISE); by constructor.
  - intros ->. unfold codec_of. rewrite Z.eqb_refl. eauto.
Qed.

End props.
End KmNoiseProps.
