(* ===== verification/KmLink.v ===== *)
(** * From a handshake to a link

    The associations that a handshake leaves are the two halves of one that the
    fast path needs; and a concrete handshake. *)
From Stdlib Require Import ZArith Lia.
From stdpp Require Import base tactics option list relations.
From S2P Require Import Prelude Slab NetDefs LinkTypes PeerTable PacketBuf Pkt LinkCrypt LinkCryptProps Fastpath FastpathPath KmNoise KmNoiseProps.
From stdpp Require Import list.
Import LinkTypes LinkCrypt LinkCryptProps Fastpath FastpathPath KmNoise KmNoiseProps.

Local Open Scope Z_scope.

Module KmLink.

Section link.
Context `{Pki} `{Snow} `{NetDefs} `{PacketBuf.Layout} {slab : Type -> Type} `{SlabOps slab}.
Context (KM_ID_NOISE KM_ID_NULL : Z).

Definition cert_of (p : PeerCertificate) : PeerTable.PeerCert :=
  PeerTable.mkCert (is_verified p) (subject_der (get_cert p)) (common_name (get_cert p)).

(** The association with its identifier, the codec being the number [codec]. *)
Definition sa_of (id codec : Z) (t : TransportSA) : PeerTable.KmTransportSA :=
  PeerTable.mkSA id (t_recv_zpis t) (t_send_zpis t) (t_send_hmac_key t) (t_recv_hmac_key t) codec
    (cert_of <$> t_peer_cert t).

Definition zpis_ok (z : PeerTable.ZPIPair) : Prop :=
  PeerTable.hmac z <> ZPI_0 /\ PeerTable.encr z <> ZPI_0 /\ PeerTable.hmac z <> PeerTable.encr z.

Lemma halves_mirrored (A B : Shared slab) a b n n' id id' :
  codecs A n = t_codec a -> codecs B n' = t_codec b ->
  t_send_zpis a = t_recv_zpis b -> t_send_hmac_key a = t_recv_hmac_key b -> ends (t_codec a) (t_codec b) ->
  (km_is_noise B = true -> exists s, t_codec b = NoiseCodec s) -> zpis_ok (t_recv_zpis b) ->
  mirrored A B (sa_of id n a) (sa_of id' n' b).
Proof. intros EA EB Ez Ek Hc Hn (Z1 & Z2 & Z3). split; cbn; rewrite ?EA, ?EB; done. Qed.

(** C5. A handshake that nobody disturbs secures the link.  An initiator and a
    responder, each with a private key, a certificate for it (or none) that the other
    end accepts, fresh keys for link MACs and ZPIs of its own, exchange exactly three
    messages: the initiator's on [reset], the responder's answer, and the initiator's
    answer to that.  Then both transport, each with the certificate that the other
    presented, and their associations are the two halves of one: each sends with the
    ZPIs and the key that the other receives with, and their codecs undo each other.
    With ZPIs that are not 0 and differ, this is what [link_roundtrip] asks for, in
    both directions.  The certificate has at most 3900 bytes in DER, which
    leaves room for the rest of the message it travels in ([presentable]). *)
Theorem handshake_mirrors km vi vr ki kr zi zr cxi cxr rndi rndr ei er t0 t1 t2 t3 t4 :
  km = KM_ID_NOISE \/ km = KM_ID_NULL ->
  length ki = NOISE_KEY_LEN -> length kr = NOISE_KEY_LEN -> length rndi = 32%nat -> length rndr = 32%nat ->
  presentable ki cxi -> presentable kr cxr -> acceptable vi cxi cxr -> acceptable vr cxr cxi ->
  zpis_ok zi -> zpis_ok zr ->
  exists m0 m1 m2 i1 r1 r2 i2 r3 a b,
    reset rndi ei t0 (new true vi ki zi cxi) = (inl (Some m0), i1) /\
    reset rndr er t1 (new false vr kr zr cxr) = (inl None, r1) /\
    handle_message KM_ID_NOISE KM_ID_NULL m0 km t2 r1 = Ret (inl (Some m1), r2) /\
    handle_message KM_ID_NOISE KM_ID_NULL m1 km t3 i1 = Ret (inl (Some m2), i2) /\
    handle_message KM_ID_NOISE KM_ID_NULL m2 km t4 r2 = Ret (inl None, r3) /\
    state i2 = Transport a /\ t_peer_cert a = presented cxi cxr /\
    state r3 = Transport b /\ t_peer_cert b = presented cxr cxi /\
    forall (A B : Shared slab) n n' id id',
      codecs A n = t_codec a -> codecs B n' = t_codec b ->
      km_is_noise A = (km =? KM_ID_NOISE) -> km_is_noise B = (km =? KM_ID_NOISE) ->
      mirrored A B (sa_of id n a) (sa_of id' n' b) /\ mirrored B A (sa_of id' n' b) (sa_of id n a).
Proof.
  intros Hk Li Lr Mi Mr Pi Pr Ai Ar Zi Zr.
  destruct (handshake_runs KM_ID_NOISE KM_ID_NULL km vi vr ki kr zi zr cxi cxr rndi rndr ei er t0 t1 t2 t3 t4)
    as (m0 & m1 & m2 & i1 & r1 & r2 & i2 & r3 & ci & cr & E1 & E2 & E3 & E4 & E5 & Si & Sr & C1 & C2 & Hn); try done.
  exists m0, m1, m2, i1, r1, r2, i2, r3, (mkTransport zr zi rndr rndi ci (presented cxi cxr)),
    (mkTransport zi zr rndi rndr cr (presented cxr cxi)).
  repeat (split; [done|]). intros A B n n' id id' EA EB NA NB.
  assert (km_is_noise A = true \/ km_is_noise B = true -> km = KM_ID_NOISE) as Hkm.
  { intros Hx. destruct (Z.eqb_spec km KM_ID_NOISE); [done|]. destruct Hx; congruence. }
  split; apply halves_mirrored; try done; intros Hx; destruct Hn as (s & s' & -> & ->); eauto.
Qed.

End link.
End KmLink.
