(* ===== verification/KeyManager.v ===== *)
(** * The key manager of a link ([km.rs], [km_multiplexor.rs])

    The loop that runs a key-management state machine for a link, passing messages
    in and out and signalling what becomes of the association; and the worker that
    watches the signals of all links.  The state machine is a class, as the trait is
    in the code; the Noise machine is an instance. *)
From Stdlib Require Import ZArith Lia.
From stdpp Require Import base tactics option list gmap.
From S2P Require Import Prelude LinkTypes PeerTable LinkCrypt KmNoise.
From stdpp Require Import list.
Import LinkTypes LinkCrypt KmNoise.

Local Open Scope Z_scope.

Module KeyManager.

(** What the operations of a machine read of the outside: random bytes, a seed, the
    time, and the configured implementation. *)
Record Env := mkEnv { rnd : list Z; seed : Z; now : Z; km_impl : Z }.

#[export] Instance ZPIPair_eq_dec : EqDecision PeerTable.ZPIPair.
Proof. solve_decision. Defined.

Section manager.
Context `{Pki}.
(** The width of [zpr]'s [SaId]. *)
Context (SA_ID_BITS : Z).

(** [KeyManagerStateMachine]. *)
Class KeyManagerStateMachine (X : Type) := {
  get_state : X -> KmSMState;
  sm_reset : Env -> X -> (option (list Z) + KmError) * X;
  sm_handle_message : Env -> list Z -> X -> outcome ((option (list Z) + KmError) * X);
  sm_tick : Env -> X -> (option (list Z) + KmError) * X
}.

(** An association with its identifier. *)
Notation SA := (Z * TransportSA)%type.

Inductive KmSignal :=
| Reset
| ErrorSignal
| SaIdChange (old new : Z)
| SaEstablished (sa : SA)
| Termination.

(** What the manager sends on its two channels. *)
Inductive Out := Buffer (bytes : list Z) | Signal (s : KmSignal).

Context {X : Type} `{KeyManagerStateMachine X}.

(** [KmState]; [ts] is the default association until there is one. *)
Record KmState := mkKm {
  statemachine : X;
  sa_id : Z;
  ts : option SA;
  restart_request : bool;
  error_signaled : bool
}.
Definition set_statemachine v s := mkKm v (sa_id s) (ts s) (restart_request s) (error_signaled s).
Definition set_sa v t s := mkKm (statemachine s) v (Some (v, t)) (restart_request s) (error_signaled s).
Definition set_restart_request v s := mkKm (statemachine s) (sa_id s) (ts s) v (error_signaled s).
Definition set_error_signaled v s := mkKm (statemachine s) (sa_id s) (ts s) (restart_request s) v.

(** [KeyManager::new]. *)
Definition manager_new (x : X) : KmState := mkKm x 0 None false false.

Definition get_transport_state (s : KmState) : option SA :=
  if sa_id s =? 0 then None else (fun t => (sa_id s, t.2)) <$> ts s.

(** [KmSMState] compares associations without their identifiers, codecs and
    certificates. *)
Definition sa_eqb (a b : TransportSA) : bool :=
  bool_decide (t_send_zpis a = t_send_zpis b) && bool_decide (t_recv_zpis a = t_recv_zpis b) &&
  bool_decide (t_send_hmac_key a = t_send_hmac_key b) && bool_decide (t_recv_hmac_key a = t_recv_hmac_key b).
Definition state_eqb (a b : KmSMState) : bool :=
  match a, b with
  | Configuring, Configuring | Error, Error => true
  | Transport a, Transport b => sa_eqb a b
  | _, _ => false
  end.

(** Ask the machine to restart out of the error state. *)
Definition restart (s : KmState) : KmState * (unit + KmError) :=
  match get_state (statemachine s) with
  | Error => (set_restart_request true s, inl tt)
  | _ => (s, inr InvalidState)
  end.

(** ** Computations: state, output, errors, panics *)

Definition KM (A : Type) : Type := KmState -> outcome ((A + KmError) * list Out * KmState).
#[global] Instance KM_ret : MRet KM := fun A a s => Ret (inl a, [], s).
#[global] Instance KM_bind : MBind KM := fun A B f m s =>
  match m s with
  | Ret (inl a, out, s1) =>
      match f a s1 with Ret (r, out', s2) => Ret (r, out ++ out', s2) | Panic => Panic end
  | Ret (inr e, out, s1) => Ret (inr e, out, s1)
  | Panic => Panic
  end.
Definition fail {A} (e : KmError) : KM A := fun s => Ret (inr e, [], s).
Definition gets {A} (f : KmState -> A) : KM A := fun s => Ret (inl (f s), [], s).
Definition modify (f : KmState -> KmState) : KM unit := fun s => Ret (inl tt, [], f s).
(** [true] when the receiver is still there. *)
Definition send (is_open : bool) (o : Out) : KM bool := fun s => Ret (inl is_open, if is_open then [o] else [], s).
Definition send_or_fail (is_open : bool) (o : Out) : KM unit :=
  ok ← send is_open o; if (ok : bool) then mret tt else fail EnqueueFailed.
Definition send_response (is_open : bool) (r : option (list Z)) : KM unit :=
  match r with Some m => send_or_fail is_open (Buffer m) | None => mret tt end.

(** An operation of the machine. *)
Definition on_machine (f : X -> (option (list Z) + KmError) * X) : KM (option (list Z) + KmError) :=
  fun s => let '(r, x) := f (statemachine s) in Ret (inl r, [], set_statemachine x s).

Section loop.
(** Whether the two channels are open. *)
Context (buffers_open signals_open : bool) (env : Env).

Definition start_state_machine_internal : KM unit :=
  r ← on_machine (sm_reset env);
  match r with
  | inr _ => fail MachineError
  | inl handshake => _ ← send signals_open (Signal Reset); send_response buffers_open handshake
  end.

Definition tick_statemachine (cur_state : KmSMState) : KM unit :=
  did_reset ← match cur_state with
              | Error =>
                  requested ← gets restart_request;
                  if (requested : bool) then
                    r ← on_machine (sm_reset env);
                    match r with
                    | inr _ => fail MachineError
                    | inl h =>
                        _ ← modify (set_restart_request false);
                        _ ← send_response buffers_open h;
                        _ ← send_or_fail signals_open (Signal Reset);
                        mret true
                    end
                  else mret false
              | _ => mret false
              end;
  if (did_reset : bool) then mret tt
  else
    r ← on_machine (sm_tick env);
    send_response buffers_open (match r with inl h => h | inr _ => None end).

(** [state.sa_id += 1], not 0. *)
Definition next_sa_id (id : Z) : Z := let n := wrapping_add SA_ID_BITS id 1 in if n =? 0 then 1 else n.

Definition handle_state_transition (prev_state next_state : KmSMState) : KM unit :=
  _ ← match prev_state with
      | Error => modify (fun s => set_restart_request false (set_error_signaled false s))
      | _ => mret tt
      end;
  match next_state with
  | Transport t =>
      prev_id ← gets sa_id;
      let cur_id := next_sa_id prev_id in
      _ ← modify (set_sa cur_id t);
      _ ← send_or_fail signals_open (Signal (SaIdChange prev_id cur_id));
      send_or_fail signals_open (Signal (SaEstablished (cur_id, t)))
  | Error =>
      signaled ← gets error_signaled;
      if (signaled : bool) then mret tt
      else _ ← send_or_fail signals_open (Signal ErrorSignal); modify (set_error_signaled true)
  | Configuring => mret tt
  end.

Definition dispatch_km_message (inmsg : list Z) : KM unit :=
  r ← (fun s => '(r, x) ← sm_handle_message env inmsg (statemachine s); Ret (inl r, [], set_statemachine x s));
  send_response buffers_open (match r with inl h => h | inr _ => None end).

(** What the loop waits for. *)
Inductive Event := Cancelled | Inbound (inmsg : list Z) | Tick.

(** One turn of the loop; [false] ends it. *)
Definition turn (ev : Event) : KM bool :=
  prev_state ← gets (fun s => get_state (statemachine s));
  continue ← match ev with
             | Cancelled => _ ← send signals_open (Signal Termination); mret false
             | Inbound m => _ ← dispatch_km_message m; mret true
             | Tick => _ ← tick_statemachine prev_state; mret true
             end;
  if (continue : bool) then
    next_state ← gets (fun s => get_state (statemachine s));
    _ ← (if state_eqb next_state prev_state then mret tt else handle_state_transition prev_state next_state);
    mret true
  else mret false.

End loop.
End manager.
Arguments KmState {_} X.

(** ** The worker that watches the signals *)

Section worker.
Context `{Pki}.

Record ErrorStatus := mkStatus { error_count : Z; last_error_t : Z; restart_t : Z }.

(** Whether the key manager of a link is to be restarted, at a time: not since its
    last error, and after one second for each error so far. *)
Definition due (now : Z) (s : ErrorStatus) : bool :=
  (0 <? error_count s) && (restart_t s <=? last_error_t s) && (secs (error_count s) <? now - last_error_t s).

(** What [restart] says of a link's manager, if it has one. *)
Definition interval_tick (now : Z) (restart_result : Z -> option (unit + KmError)) (status : gmap Z ErrorStatus)
    : gmap Z ErrorStatus :=
  map_imap (fun l s => Some
    (if due now s then
       match restart_result l with
       | Some (inl _) => mkStatus (error_count s) (last_error_t s) now
       | Some (inr _) => mkStatus (error_count s + 1) (last_error_t s) (restart_t s)
       | None => s
       end
     else s)) status.

(** The statuses after a signal; what [SaEstablished] does to the peer table and the
    link is [LinkTasks.sa_established]. *)
Definition on_signal (now l : Z) (sig : KmSignal) (status : gmap Z ErrorStatus) : gmap Z ErrorStatus :=
  match sig with
  | SaIdChange old _ => if old =? 0 then delete l status else status
  | SaEstablished _ =>
      match status !! l with
      | Some s => if error_count s =? 0 then <[l := mkStatus 0 (last_error_t s) (restart_t s)]> status else status
      | None => status
      end
  | Reset => status
  | ErrorSignal =>
      let s := default (mkStatus 0 now now) (status !! l) in
      <[l := mkStatus (error_count s + 1) now (restart_t s)]> status
  | Termination => delete l status
  end.

End worker.

(** ** The Noise machine *)
Section noise.
Context `{Pki} `{Snow}.
Context (KM_ID_NOISE KM_ID_NULL : Z).

#[global] Instance noise_machine : KeyManagerStateMachine KmNoise := {
  get_state := state;
  sm_reset e := reset (rnd e) (seed e) (now e);
  sm_handle_message e m := handle_message KM_ID_NOISE KM_ID_NULL m (km_impl e) (now e);
  sm_tick e := tick (now e)
}.

End noise.
End KeyManager.
