(* ===== verification/KeyManagerProps.v ===== *)
(** * The signals of a key manager

    Against the contract of a state machine: what a manager has signalled is what
    its machine is at, associations are numbered in order and the last is the one in
    use, and a restart that was asked for happens.  The Noise machine meets the
    contract, and never leaves an association once it has one. *)
From Stdlib Require Import ZArith Lia.
From stdpp Require Import base tactics option list gmap.
From S2P Require Import Prelude LinkTypes PeerTable LinkCrypt KmNoise KmNoiseProps KeyManager.
From stdpp Require Import list.
Import LinkTypes LinkCrypt KmNoise KeyManager.

Local Open Scope Z_scope.

Module KeyManagerProps.

Section props.
Context `{Pki}.

(** What the manager relies on, the edges of the diagram at [KmSMState]: a successful
    reset starts configuring, and nothing else goes back to it.  A machine may fail
    out of transport, and may change its association (re-key). *)
Class MachineLaws (X : Type) {machine : KeyManagerStateMachine X} := {
  reset_configures : forall e x h x', sm_reset e x = (inl h, x') -> get_state x' = Configuring;
  handle_forward : forall e m x r x', sm_handle_message e m x = Ret (r, x') ->
    get_state x' = Configuring -> get_state x = Configuring;
  tick_forward : forall e x r x', sm_tick e x = (r, x') -> get_state x' = Configuring -> get_state x = Configuring
}.

(** A machine that stays where it is once it has configured. *)
Definition settles X {machine : KeyManagerStateMachine X} : Prop :=
  (forall e m (x : X) r x', sm_handle_message e m x = Ret (r, x') -> get_state x <> Configuring ->
     get_state x' = get_state x) /\
  (forall e (x : X) r x', sm_tick e x = (r, x') -> get_state x <> Configuring -> get_state x' = get_state x).

Context {X : Type} {machine : KeyManagerStateMachine X} {laws : MachineLaws X} (SA_ID_BITS : Z) (Hbits : 1 <= SA_ID_BITS).

(** ** Runs of a manager *)

(** A state of a manager whose channels are open, and all it has sent. *)
Inductive running : KmState X -> list Out -> Prop :=
| run_start e x out s : start_state_machine_internal true true e (manager_new x) = Ret (inl tt, out, s) -> running s out
| run_turn e ev s out out' s' : running s out ->
    turn SA_ID_BITS true true e ev s = Ret (inl true, out', s') -> running s' (out ++ out')
| run_restart s out : running s out -> running (restart s).1 out.

(** What someone knows who has followed the signals: the state, the identifier of the
    association and the associations so far.  [None] when a change of identifier
    did not start from the one known, or an association has another one. *)
Record Seen := mkSeen { at_state : KmSMState; at_id : Z; associations : list (Z * TransportSA) }.
Definition follow (v : option Seen) (o : Out) : option Seen :=
  v ← v;
  match o with
  | Signal Reset => Some (mkSeen Configuring (at_id v) (associations v))
  | Signal ErrorSignal => Some (mkSeen Error (at_id v) (associations v))
  | Signal (SaIdChange old new) =>
      if old =? at_id v then Some (mkSeen (at_state v) new (associations v)) else None
  | Signal (SaEstablished sa) =>
      if sa.1 =? at_id v then Some (mkSeen (Transport sa.2) (at_id v) (associations v ++ [sa])) else None
  | Signal Termination | Buffer _ => Some v
  end.
Definition known (out : list Out) : option Seen := foldl follow (Some (mkSeen Configuring 0 [])) out.

(** Consecutive identifiers, after [id]. *)
Fixpoint ids (id : Z) (n : nat) : list Z :=
  match n with O => [] | S n => next_sa_id SA_ID_BITS id :: ids (next_sa_id SA_ID_BITS id) n end.

Lemma ids_snoc id n : ids id (S n) = ids id n ++ [next_sa_id SA_ID_BITS (List.last (ids id n) id)].
Proof.
  assert (forall (l : list Z) a d, List.last (a :: l) d = List.last l a) as Hlast.
  { induction l as [|b l IH]; intros a d; [done|]. change (List.last (b :: l) d = List.last (b :: l) a).
    by rewrite (IH b d), (IH b a). }
  revert id. induction n as [|n IH]; intros id; [done|].
  change (ids id (S (S n))) with (next_sa_id SA_ID_BITS id :: ids (next_sa_id SA_ID_BITS id) (S n)).
  rewrite IH. change (ids id (S n)) with (next_sa_id SA_ID_BITS id :: ids (next_sa_id SA_ID_BITS id) n).
  by rewrite Hlast.
Qed.

(** What is true of the state, and known. *)
Record truth (s : KmState X) (v : Seen) : Prop := {
  t_state : state_eqb (at_state v) (get_state (statemachine s)) = true;
  t_id : at_id v = sa_id s;
  t_ids : (associations v).*1 = ids 0 (length (associations v));
  t_last : sa_id s = List.last (associations v).*1 0;
  t_ts : associations v <> [] -> ts s = last (associations v);
  t_error : error_signaled s = match get_state (statemachine s) with Error => true | _ => false end;
  t_settled : settles X ->
    associations v = match get_state (statemachine s) with Transport t => [(1, t)] | _ => [] end
}.

Lemma known_app out out' : known (out ++ out') = foldl follow (known out) out'.
Proof. apply foldl_app. Qed.

Lemma state_eqb_refl st : state_eqb st st = true.
Proof. destruct st as [|t|]; [done| |done]. cbn. unfold sa_eqb. by rewrite !bool_decide_true. Qed.

Lemma state_eqb_trans a b c : state_eqb a b = true -> state_eqb b c = true -> state_eqb a c = true.
Proof.
  destruct a as [|a|], b as [|b|], c as [|c|]; try done. cbn. unfold sa_eqb.
  rewrite !andb_true_iff, !bool_decide_eq_true. intuition congruence.
Qed.

Lemma state_eqb_sym a b : state_eqb a b = true -> state_eqb b a = true.
Proof.
  destruct a as [|a|], b as [|b|]; try done. cbn. unfold sa_eqb.
  rewrite !andb_true_iff, !bool_decide_eq_true. intuition congruence.
Qed.

Lemma next_nonzero id : next_sa_id SA_ID_BITS id <> 0.
Proof. unfold next_sa_id. by destruct (Z.eqb_spec (wrapping_add SA_ID_BITS id 1) 0). Qed.

Lemma first_id : next_sa_id SA_ID_BITS 0 = 1.
Proof.
  unfold next_sa_id, wrapping_add. rewrite wrap_small; [done|]. split; [lia|].
  change (0 + 1) with (2 ^ 0). apply Z.pow_lt_mono_r; lia.
Qed.

(** Only buffers leave a machine's ordinary operations. *)
Lemma response_sent r (s : KmState X) : exists out, send_response true r s = Ret (inl tt, out, s) /\ Forall (fun o => exists m, o = Buffer m) out.
Proof. destruct r as [m|]; eexists; (split; [done|]); [constructor; [by eexists|constructor]|constructor]. Qed.

Lemma known_buffers v out : Forall (fun o => exists m, o = Buffer m) out -> foldl follow v out = v.
Proof. induction 1 as [|o out [m ->] _ IH]; [done|]. cbn [foldl]. by destruct v. Qed.

Lemma bind_inv {A B} (m : KM A) (f : A -> KM B) (s : KmState X) b out s' :
  (m ≫= f) s = Ret (inl b, out, s') ->
  exists a out1 s1 out2, m s = Ret (inl a, out1, s1) /\ f a s1 = Ret (inl b, out2, s') /\ out = out1 ++ out2.
Proof.
  unfold mbind, KM_bind. destruct (m s) as [[[[a|e] out1] s1]|]; [|done..].
  destruct (f a s1) as [[[r out2] s2]|] eqn:E; [|done]. intros [= -> <- <-]. eauto 8.
Qed.

Definition buffers_only (out : list Out) : Prop := Forall (fun o => exists m, o = Buffer m) out.

Lemma response_inv r (s : KmState X) u out s' :
  send_response true r s = Ret (inl u, out, s') -> s' = s /\ buffers_only out.
Proof.
  intros E. destruct (response_sent r s) as (out0 & E0 & Hb). rewrite E0 in E. by injection E as <- <- <-.
Qed.

(** What a turn does before it looks at the state again. *)
Inductive worked (s : KmState X) : list Out -> KmState X -> Prop :=
| worked_on out x' : buffers_only out ->
    (get_state x' = Configuring -> get_state (statemachine s) = Configuring) ->
    (settles X -> get_state (statemachine s) <> Configuring -> get_state x' = get_state (statemachine s)) ->
    worked s out (set_statemachine x' s)
| worked_reset out s' : get_state (statemachine s) = Error -> buffers_only out ->
    get_state (statemachine s') = Configuring -> sa_id s' = sa_id s -> ts s' = ts s -> error_signaled s' = error_signaled s ->
    worked s (out ++ [Signal Reset]) s'.

Lemma dispatch_worked e m s u out s' : dispatch_km_message true e m s = Ret (inl u, out, s') -> worked s out s'.
Proof.
  intros E. unfold dispatch_km_message in E. apply bind_inv in E as (r & out1 & s1 & out2 & E1 & E2 & ->).
  destruct (sm_handle_message e m (statemachine s)) as [[r' x]|] eqn:Eh; [|done]. rewrite bind_Ret in E1.
  injection E1 as <- <- <-. apply response_inv in E2 as [-> Hb]. cbn [app]. apply worked_on; [done| |].
  - by eapply handle_forward.
  - intros [Hh _] Hn. by eapply Hh.
Qed.

Lemma tick_worked e s u out s' :
  tick_statemachine true true e (get_state (statemachine s)) s = Ret (inl u, out, s') -> worked s out s'.
Proof.
  intros E. unfold tick_statemachine in E. apply bind_inv in E as (did & out1 & s1 & out2 & E1 & E2 & ->).
  destruct did.
  - injection E2 as <- <- <-. rewrite app_nil_r. destruct (get_state (statemachine s)) eqn:Es; [done|done|].
    apply bind_inv in E1 as (rq & o1 & s2 & o2 & E1 & E3 & ->). injection E1 as <- <- <-. destruct (restart_request s); [|done].
    apply bind_inv in E3 as (r & o3 & s3 & o4 & E3 & E4 & ->). unfold on_machine in E3.
    destruct (sm_reset e (statemachine s)) as [r' x] eqn:Er. injection E3 as <- <- <-. destruct r' as [h|]; [|done].
    apply reset_configures in Er. apply bind_inv in E4 as ([] & o5 & s4 & o6 & E4 & E5 & ->). injection E4 as <- <-.
    apply bind_inv in E5 as ([] & o7 & s5 & o8 & E5 & E6 & ->). apply response_inv in E5 as [-> Hb].
    injection E6 as <- <-. cbn [app]. by apply worked_reset.
  - apply bind_inv in E2 as (r & o1 & s2 & o2 & E2 & E3 & ->). unfold on_machine in E2.
    assert (s1 = s /\ out1 = []) as [-> ->].
    { destruct (get_state (statemachine s)); try (by injection E1 as <- <-).
      apply bind_inv in E1 as (rq & o3 & s3 & o4 & E1 & E4 & ->). injection E1 as <- <- <-.
      destruct (restart_request s); [|by injection E4 as <- <-].
      apply bind_inv in E4 as (r' & o5 & s4 & o6 & E4 & E5 & ->). destruct r'; [|done].
      apply bind_inv in E5 as ([] & ? & ? & ? & _ & E5 & _). apply bind_inv in E5 as ([] & ? & ? & ? & _ & E5 & _).
      by apply bind_inv in E5 as ([] & ? & ? & ? & _ & [=] & _). }
    destruct (sm_tick e (statemachine s)) as [r' x] eqn:Et. injection E2 as <- <- <-. apply response_inv in E3 as [-> Hb].
    cbn [app]. apply worked_on; [done|by eapply tick_forward|]. intros [_ Hk] Hn. by eapply Hk.
Qed.

(** The transition that follows. *)
Lemma establish_known v id t :
  at_id v = id ->
  foldl follow (Some v) [Signal (SaIdChange id (next_sa_id SA_ID_BITS id));
                         Signal (SaEstablished (next_sa_id SA_ID_BITS id, t))] =
  Some (mkSeen (Transport t) (next_sa_id SA_ID_BITS id) (associations v ++ [(next_sa_id SA_ID_BITS id, t)])).
Proof. intros <-. cbn. rewrite Z.eqb_refl. cbn. by rewrite Z.eqb_refl. Qed.

Lemma establish_truth s v x' t f :
  truth s v -> get_state x' = Transport t ->
  (settles X -> get_state (statemachine s) = Configuring) ->
  let id := next_sa_id SA_ID_BITS (sa_id s) in
  truth (mkKm x' id (Some (id, t)) f false) (mkSeen (Transport t) id (associations v ++ [(id, t)])).
Proof.
  intros [Hs Hi Hids Hl Ht He Hst] Ex Hfrom id. split; cbn; rewrite ?Ex; try done.
  - exact (state_eqb_refl (Transport t)).
  - rewrite fmap_app, length_app, Nat.add_1_r, ids_snoc, <- Hids. cbn. by rewrite <- Hl.
  - rewrite fmap_app. symmetry. apply List.last_last.
  - intros _. by rewrite last_snoc.
  - intros Hset. specialize (Hfrom Hset). rewrite (Hst Hset), Hfrom. cbn. do 2 f_equal.
    unfold id. rewrite Hl, (Hst Hset), Hfrom. apply first_id.
Qed.

Lemma error_truth s v x' f :
  truth s v -> get_state x' = Error -> (settles X -> associations v = []) ->
  truth (mkKm x' (sa_id s) (ts s) f true) (mkSeen Error (at_id v) (associations v)).
Proof. intros [Hs Hi Hids Hl Ht He Hst] Ex Hno. split; cbn; rewrite ?Ex; try done. Qed.

Lemma same_truth s v x' :
  truth s v -> state_eqb (get_state x') (get_state (statemachine s)) = true ->
  (settles X -> get_state x' = get_state (statemachine s)) -> truth (set_statemachine x' s) v.
Proof.
  intros [Hs Hi Hids Hl Ht He Hst] Heq Hk. split; cbn; try done.
  - eapply state_eqb_trans; [exact Hs|]. by apply state_eqb_sym.
  - rewrite He. by destruct (get_state x'), (get_state (statemachine s)).
  - intros Hset. by rewrite (Hk Hset), (Hst Hset).
Qed.

Lemma transition_truth s v s1 out1 u out2 s2 :
  truth s v -> worked s out1 s1 ->
  (if state_eqb (get_state (statemachine s1)) (get_state (statemachine s)) then mret tt
   else handle_state_transition SA_ID_BITS true (get_state (statemachine s)) (get_state (statemachine s1))) s1 =
    Ret (inl u, out2, s2) ->
  exists v', foldl follow (Some v) (out1 ++ out2) = Some v' /\ truth s2 v'.
Proof.
  intros Ht Hw E. rewrite foldl_app. destruct Hw as [out1 x' Hb Hf Hk|out1 s' Es Hb Ec Ei Et Ee].
  - rewrite (known_buffers _ _ Hb). cbn [statemachine set_statemachine] in E.
    destruct (state_eqb (get_state x') (get_state (statemachine s))) eqn:Eq.
    { injection E as <- <- <-. exists v. split; [done|]. apply same_truth; [done|done|]. intros Hset.
      destruct (get_state (statemachine s)) eqn:Es; [|by apply Hk..]. by destruct (get_state x'). }
    destruct (get_state x') as [|t|] eqn:Ex.
    { by rewrite Hf in Eq. }
    + assert (exists f, s2 = mkKm x' (next_sa_id SA_ID_BITS (sa_id s)) (Some (next_sa_id SA_ID_BITS (sa_id s), t)) f false /\
        out2 = [Signal (SaIdChange (sa_id s) (next_sa_id SA_ID_BITS (sa_id s)));
                Signal (SaEstablished (next_sa_id SA_ID_BITS (sa_id s), t))]) as (f & -> & ->).
      { unfold handle_state_transition, mbind, KM_bind in E.
        destruct (get_state (statemachine s)) eqn:Es; cbn in E; injection E as <- <- <-;
          eexists; (split; [|done]); unfold set_sa; cbn; rewrite ?(t_error _ _ Ht), ?Es; done. }
      rewrite (establish_known v _ t) by apply Ht. eexists. split; [done|]. apply establish_truth; [done|done|].
      intros Hset. destruct (get_state (statemachine s)) eqn:Es; [done|exfalso..]; specialize (Hk Hset ltac:(done));
        simplify_eq. by rewrite state_eqb_refl in Eq.
    + assert (exists f, s2 = mkKm x' (sa_id s) (ts s) f true /\ out2 = [Signal ErrorSignal]) as (f & -> & ->).
      { unfold handle_state_transition, mbind, KM_bind in E.
        destruct (get_state (statemachine s)) eqn:Es; [| |done]; cbn in E; rewrite (t_error _ _ Ht), Es in E;
          injection E as <- <- <-; by eexists. }
      eexists. split; [done|]. apply error_truth; [done|done|].
      intros Hset. rewrite (t_settled _ _ Ht Hset). destruct (get_state (statemachine s)) eqn:Es; [done| |done].
      by specialize (Hk Hset ltac:(done)).
  - rewrite Es, Ec in E. cbn in E. injection E as <- <- <-. rewrite foldl_app, (known_buffers _ _ Hb). cbn.
    eexists. split; [done|]. destruct Ht as [Hs Hi Hids Hl Hts He Hst]. rewrite Es in Hst.
    split; cbn [at_state at_id associations statemachine sa_id ts error_signaled set_restart_request set_error_signaled];
      rewrite ?Ec, ?Ei, ?Et; done.
Qed.

Lemma turn_truth e ev s v out' s' :
  truth s v -> turn SA_ID_BITS true true e ev s = Ret (inl true, out', s') ->
  exists v', foldl follow (Some v) out' = Some v' /\ truth s' v'.
Proof.
  intros Ht E. unfold turn in E. apply bind_inv in E as (prev & o1 & s1 & o2 & E1 & E & ->). injection E1 as <- <- <-.
  apply bind_inv in E as (c & o3 & s2 & o4 & E1 & E & ->).
  assert (worked s o3 s2 /\ c = true) as [Hw ->].
  { destruct ev as [|m|].
    - injection E1 as <- <- <-. by apply bind_inv in E as (? & ? & ? & ? & _ & [=] & _) || done.
    - apply bind_inv in E1 as (u & o5 & s3 & o6 & E1 & E3 & ->). injection E3 as <- <- <-. rewrite app_nil_r.
      split; [by eapply dispatch_worked|done].
    - apply bind_inv in E1 as (u & o5 & s3 & o6 & E1 & E3 & ->). injection E3 as <- <- <-. rewrite app_nil_r.
      split; [by eapply tick_worked|done]. }
  apply bind_inv in E as (next & o5 & s3 & o6 & E1' & E & ->). injection E1' as <- <- <-.
  apply bind_inv in E as (u & o7 & s4 & o8 & E2 & E & ->). injection E as <- <-. rewrite app_nil_r. cbn [app].
  by eapply transition_truth.
Qed.

Lemma running_truth s out : running s out -> exists v, known out = Some v /\ truth s v.
Proof.
  induction 1 as [e x out s E|e ev s out out' s' _ (v & Hv & IH) E|s out _ (v & Hv & IH)].
  - unfold start_state_machine_internal in E. apply bind_inv in E as (r & o1 & s1 & o2 & E1 & E & ->).
    unfold on_machine in E1. destruct (sm_reset e _) as [r' x'] eqn:Er. injection E1 as <- <- <-. destruct r' as [h|]; [|done].
    apply reset_configures in Er. apply bind_inv in E as (b & o3 & s2 & o4 & E2 & E & ->). injection E2 as <- <- <-.
    apply response_inv in E as [-> Hb]. exists (mkSeen Configuring 0 []). unfold known. cbn [app foldl].
    split; [by rewrite (known_buffers _ _ Hb)|]. split; cbn [statemachine set_statemachine]; rewrite ?Er; done.
  - rewrite known_app, Hv. by eapply turn_truth.
  - exists v. split; [done|]. unfold restart. destruct (get_state (statemachine s)) eqn:Es; [done|done|].
    destruct IH as [Hs Hi Hids Hl Hts He Hst]. by split.
Qed.

Lemma last_known v : List.last (associations v).*1 0 = match last (associations v) with Some sa => sa.1 | None => 0 end.
Proof.
  destruct (associations v) as [|sa l _] using rev_ind; [done|]. rewrite fmap_app, last_snoc. apply List.last_last.
Qed.

(** C15. A key manager's signals tell the truth, for every machine whose edges are
    those of the diagram at [KmSMState], a failing or changed association included.
    At every turn of its loop, whatever messages and ticks came and however often a
    restart was asked for, what the signals sent so far say is what the machine is at:
    configuring, in error, or transporting with the association that was signalled (up
    to what [KmSMState] compares).  Every change of identifier starts from the one
    before, associations are numbered consecutively from 1, and
    [get_transport_state] returns the last one signalled, nothing before the first;
    it still does after the machine has failed, for no signal withdraws one.  A
    machine that stays where it is once configured, as the Noise machine does, has at
    most one association, exactly when it transports. *)
Theorem signals_tell_state s out :
  running s out ->
  exists v, known out = Some v /\
    state_eqb (at_state v) (get_state (statemachine s)) = true /\
    (associations v).*1 = ids 0 (length (associations v)) /\
    get_transport_state s = last (associations v) /\
    (settles X -> associations v = match get_state (statemachine s) with Transport t => [(1, t)] | _ => [] end).
Proof.
  intros Hr. destruct (running_truth s out Hr) as (v & Hv & [Hs Hi Hids Hl Hts He Hst]).
  exists v. split_and!; [done|done|done| |done]. unfold get_transport_state. rewrite Hl, last_known.
  destruct (associations v) as [|sa l _] using rev_ind; [done|]. rewrite Hts, last_snoc by (by destruct l).
  cbn [fmap option_fmap option_map]. rewrite fmap_app, length_app, Nat.add_1_r, ids_snoc in Hids. cbn [fmap list_fmap] in Hids.
  apply app_inj_tail in Hids as [_ E]. rewrite E. destruct (Z.eqb_spec (next_sa_id SA_ID_BITS (List.last (ids 0 (length l)) 0)) 0) as [E0|_].
  - by apply next_nonzero in E0.
  - rewrite <- E. by destruct sa.
Qed.

(** A restart that was asked for happens.  In the error state the manager
    has signalled the error, [restart] is accepted, and the next tick resets the
    machine: if the machine can be reset, the manager sends its first message (if it
    has one), signals the reset, and configures again. *)
Theorem restart_restarts s out e h x' :
  running s out -> get_state (statemachine s) = Error ->
  sm_reset e (statemachine s) = (inl h, x') ->
  (at_state <$> known out) = Some Error /\
  exists s1 s2 out', restart s = (s1, inl tt) /\
    turn SA_ID_BITS true true e Tick s1 = Ret (inl true, out', s2) /\
    out' = match h with Some m => [Buffer m] | None => [] end ++ [Signal Reset] /\
    get_state (statemachine s2) = Configuring /\ restart_request s2 = false.
Proof.
  intros Hr Es Er. destruct (running_truth s out Hr) as (v & Hv & Ht). split.
  { rewrite Hv. cbn. pose proof (t_state _ _ Ht) as He. rewrite Es in He. by destruct (at_state v). }
  unfold restart. rewrite Es. pose proof (reset_configures _ _ _ _ Er) as Hc.
  destruct h as [m|]; eexists _, _, _; (split; [done|]);
    unfold turn, tick_statemachine, handle_state_transition, on_machine, send_response, send_or_fail, mbind, KM_bind;
    cbn; rewrite Es; cbn; rewrite Er; cbn; rewrite Hc; cbn; done.
Qed.

End props.

(** ** The Noise machine meets the contract *)
Section noise.
Context `{Pki} `{Snow} (KM_ID_NOISE KM_ID_NULL : Z).

#[export] Instance noise_laws :
  MachineLaws KmNoise (machine := noise_machine KM_ID_NOISE KM_ID_NULL).
Proof.
  split.
  - intros e x h x' E. cbn in *. unfold reset in E. cbv zeta in E. destruct (negb pattern_parses); [done|].
    set (y := set_send_hmac_key None _) in E. assert (state y = Configuring) as Ey by done. clearbody y.
    destruct (initiate y).
    + destruct (build_initiator _ _) as [hs|]; [|done]. destruct (create_hs_message hs y) as [[r hs'] x1] eqn:Ec.
      apply KmNoiseProps.create_cases in Ec as [_ Hx]. destruct r; [|done]. injection E as <- <-.
      by destruct Hx as [-> |[n ->]].
    + destruct (build_responder _ _) as [hs|]; [|done]. by injection E as <- <-.
  - intros e m x r x' E Hc. cbn in *. unfold handle_message in E. destruct (state x) eqn:Es; [done| |];
      injection E as <- <-; congruence.
  - intros e x r x' E Hc. cbn in *. unfold tick in E. destruct (state x) eqn:Es; [done| |]; injection E as <- <-; congruence.
Qed.

Lemma noise_settles : settles KmNoise (machine := noise_machine KM_ID_NOISE KM_ID_NULL).
Proof.
  split.
  - intros e m x r x' E Hn. cbn in *. unfold handle_message in E. destruct (state x) eqn:Es; [done| |];
      injection E as <- <-; congruence.
  - intros e x r x' E Hn. cbn in *. unfold tick in E. destruct (state x) eqn:Es; [done| |]; injection E as <- <-; congruence.
Qed.

End noise.
End KeyManagerProps.
