(* ===== verification/KmExample.v ===== *)
(** * Key management at work

    A handshake that sends keys and payloads in the clear and certificates that
    name their issuer, on which the theorems about key management are applied. *)
From Stdlib Require Import ZArith Lia.
From stdpp Require Import base tactics option list relations gmap.
From S2P Require Import Prelude Slab NetDefs LinkTypes PeerTable PacketBuf Pkt LinkCrypt LinkCryptProps Fastpath FastpathPath FastpathExample KmNoise KmNoiseProps KmLink KeyManager KeyManagerProps.
From stdpp Require Import list.
Import LinkTypes LinkCrypt LinkCryptProps Fastpath FastpathPath KmNoise KmNoiseProps KmLink KeyManager KeyManagerProps.

Local Open Scope Z_scope.

Module KmExample.

#[local] Existing Instance FastpathExample.toy_ciphers.
#[local] Existing Instance iana.
#[local] Existing Instance PacketBuf.demo_layout.

(** ** A handshake in the clear *)

(** The own key, the number of messages so far, and the peer's key. *)
Record Hs := mkHs { own : list Z; turns : nat; remote : option (list Z) }.

Definition with_key (n : nat) : bool := (n =? 1)%nat || (n =? 2)%nat.
Definition toy_hs_write (s : Hs) (p : list Z) (room : Z) : option (list Z) * Hs :=
  let m := (if with_key (turns s) then own s else []) ++ p in
  if (turns s <? 3)%nat && (zlen m <=? room) && (zlen m <=? 65535)
  then (Some m, mkHs (own s) (S (turns s)) (remote s)) else (None, s).
Definition toy_hs_read (s : Hs) (m : list Z) (room : Z) : option (list Z) * Hs :=
  let k := if with_key (turns s) then NOISE_KEY_LEN else 0%nat in
  let p := drop k m in
  if (turns s <? 3)%nat && (k <=? length m)%nat && (zlen p <=? room)
  then (Some p, mkHs (own s) (S (turns s))
                  (match remote s with Some r => Some r | None => if (k =? 0)%nat then None else Some (take k m) end))
  else (None, s).

(** The ends of a handshake after [n] messages. *)
Definition initiator_at (ski skr : list Z) (n : nat) : Hs := mkHs ski n (if (2 <=? n)%nat then Some skr else None).
Definition responder_at (ski skr : list Z) (n : nat) : Hs := mkHs skr n (if (3 <=? n)%nat then Some ski else None).
Definition toy_paired (ski skr : list Z) (n : nat) (w r : Hs) : Prop :=
  length ski = NOISE_KEY_LEN /\ length skr = NOISE_KEY_LEN /\
  if Nat.even n then w = initiator_at ski skr n /\ r = responder_at ski skr n
  else w = responder_at ski skr n /\ r = initiator_at ski skr n.

(** Writing and reading a message, with or without a key. *)
Lemma write_in_turn k n rem p room :
  (n < 3)%nat -> length k = NOISE_KEY_LEN -> zlen p + 96 <= room -> zlen p + 96 <= 65535 ->
  toy_hs_write (mkHs k n rem) p room = (Some ((if with_key n then k else []) ++ p), mkHs k (S n) rem) /\
  zlen ((if with_key n then k else []) ++ p) <= zlen p + 96.
Proof.
  intros Hn Hk Hr Hm. unfold NOISE_KEY_LEN in Hk. unfold toy_hs_write. cbn [turns own remote].
  rewrite (proj2 (Nat.ltb_lt _ _)) by done.
  assert (zlen ((if with_key n then k else []) ++ p) <= zlen p + 32) as Hz.
  { rewrite zlen_app. assert (zlen k = 32) by (unfold zlen; by rewrite Hk). destruct (with_key n); [lia|]. unfold zlen. cbn. lia. }
  rewrite !(proj2 (Z.leb_le _ _)) by lia. split; [done|lia].
Qed.

Lemma read_in_turn k k' n p room :
  (n < 3)%nat -> length k = NOISE_KEY_LEN -> zlen ((if with_key n then k else []) ++ p) <= room ->
  toy_hs_read (mkHs k' n None) ((if with_key n then k else []) ++ p) room =
    (Some p, mkHs k' (S n) (if with_key n then Some k else None)).
Proof.
  intros Hn Hk Hr. rewrite zlen_app in Hr. unfold toy_hs_read. cbn [turns own remote]. rewrite (proj2 (Nat.ltb_lt _ _)) by done.
  destruct (with_key n).
  - rewrite drop_app_length', take_app_length' by done. rewrite (proj2 (Nat.leb_le _ _)) by (rewrite length_app; lia).
    pose proof (zlen_nonneg k). by rewrite (proj2 (Z.leb_le _ _)) by lia.
  - change (zlen []) with 0 in Hr. change (drop 0 ([] ++ p)) with p. by rewrite (proj2 (Z.leb_le _ _)) by lia.
Qed.

#[local] Instance toy_snow : Snow.
Proof.
  refine {| HandshakeState := Hs; pattern_parses := true;
    build_initiator k _ := Some (mkHs k 0 None); build_responder k _ := Some (mkHs k 0 None);
    hs_write := toy_hs_write; hs_read := toy_hs_read; is_handshake_finished s := (3 <=? turns s)%nat;
    get_remote_static := remote; into_stateless_transport_mode s := if (3 <=? turns s)%nat then Some 1 else None;
    public_of k := k; paired := toy_paired |}.
  - done.
  - intros ski _ skr _ Hi Hr. eexists _, _. by repeat split.
  - intros s m room p s'. unfold toy_hs_read. destruct (_ <? 3)%nat; [|done]. destruct (_ <=? length m)%nat; [|done].
    cbn [andb]. destruct (Z.leb_spec (zlen (drop (if with_key (turns s) then NOISE_KEY_LEN else 0%nat) m)) room); [|done].
    by intros [= <- _].
  - intros ski skr n w r p room (Hi & Hr & He) Hn Hp Hm.
    destruct n as [|[|[|]]]; [| | |lia]; destruct He as [-> ->]; unfold initiator_at, responder_at; cbn [Nat.leb];
      (edestruct write_in_turn as [-> Hz]; [done|..|done|done|]; [done|]);
      (eexists _, _; do 2 (split; [done|]); split; [done|]); intros room' Hroom;
      (rewrite read_in_turn by done); (eexists; split; [done|]); by repeat split.
  - intros s p room o s'. unfold toy_hs_write. destruct (_ && _); by intros [= <- <-].
  - intros s m room o s' k. unfold toy_hs_read. destruct (_ && _); intros [= <- <-]; [|done]. by intros ->.
  - by intros ski skr w r (_ & _ & -> & _).
  - by intros ski skr w r (_ & _ & -> & _).
  - intros ski skr w r (_ & _ & -> & ->). by eexists _, _.
Defined.

(** ** Certificates: a key and the issuer's key *)

#[local] Instance toy_pki : Pki.
Proof.
  refine {| Certificate := list Z * list Z; to_der c := Some (zlen c.1 :: c.1 ++ c.2);
    from_der d := match d with n :: l => Some (take (Z.to_nat n) l, drop (Z.to_nat n) l) | [] => None end;
    verify c a := Some (bool_decide (c.2 = a.1)); public_key c := c.1;
    subject_der _ := None; common_name _ := None |}.
  - intros [k i] der [= <-]. cbn. unfold zlen. rewrite Nat2Z.id. by rewrite take_app_length, drop_app_length.
  - done.
Defined.

(** ** Two ends *)

Definition key_i : list Z := replicate 32 1.
Definition key_r : list Z := replicate 32 2.
Definition authority : list Z * list Z := (replicate 32 9, replicate 32 9).
Definition cert_i : list Z * list Z := (key_i, replicate 32 9).
Definition cert_r : list Z * list Z := (key_r, replicate 32 9).
Definition certs_i : KmCertExchange := mkCertx (Some cert_i) (Some authority).
Definition certs_r : KmCertExchange := mkCertx (Some cert_r) (Some authority).
Definition zpis_i : PeerTable.ZPIPair := PeerTable.mkZpis 11 12.
Definition zpis_r : PeerTable.ZPIPair := PeerTable.mkZpis 13 14.
Definition mac_i : list Z := replicate 32 5.
Definition mac_r : list Z := replicate 32 6.

Definition made_i : KmNoise := new true true key_i zpis_i certs_i.
Definition made_r : KmNoise := new false true key_r zpis_r certs_r.
Definition KM_NOISE : Z := 1.
Definition KM_NULL : Z := 2.

(** The messages of the handshake and the initiator's states. *)
Definition at_i : KmNoise := (reset mac_i 0 0 made_i).2.
Definition at_r : KmNoise := (reset mac_r 0 0 made_r).2.
Definition message1 : list Z := key_r ++ [13; 14] ++ mac_r ++ be_bytes 2 65 ++ 32 :: key_r ++ replicate 32 9.
Definition done_i : (option (list Z) + KmError) * KmNoise :=
  match handle_message KM_NOISE KM_NULL message1 KM_NOISE 0 at_i with Ret v => v | Panic => (inl None, at_i) end.

(** What a computation gives, of types without the handshake in them. *)
Definition returned {A} (o : outcome A) : bool := match o with Ret _ => true | Panic => false end.
Lemma returned_ret {A} (o : outcome A) d :
  returned o = true -> o = Ret (match o with Ret v => v | Panic => d end).
Proof. by destruct o. Qed.

Definition flat (s : KmSMState) : option (PeerTable.ZPIPair * PeerTable.ZPIPair * list Z * list Z * Codec * option (bool * (list Z * list Z))) :=
  match s with
  | Transport t => Some (t_send_zpis t, t_recv_zpis t, t_send_hmac_key t, t_recv_hmac_key t, t_codec t,
                         match t_peer_cert t with Some p => Some (is_verified p, get_cert p) | None => None end)
  | _ => None
  end.
Lemma flat_inj s t : flat s = flat (Transport t) -> s = Transport t.
Proof.
  destruct s as [|[z1 z2 k1 k2 c p] |], t as [z1' z2' k1' k2' c' p']; try done. cbn. intros [= -> -> -> -> -> Hp].
  do 2 f_equal. destruct p as [[]|], p' as [[]|]; cbn in Hp; congruence.
Qed.

Lemma started_i : started KM_NOISE KM_NULL at_i.
Proof. exists true, true, key_i, zpis_i, certs_i, mac_i, 0, 0. apply rtc_refl. Qed.
Lemma runs_i : handle_message KM_NOISE KM_NULL message1 KM_NOISE 0 at_i = Ret done_i.
Proof. apply returned_ret. by vm_compute. Qed.
Lemma started_done : started KM_NOISE KM_NULL done_i.2.
Proof.
  exists true, true, key_i, zpis_i, certs_i, mac_i, 0, 0. apply rtc_once.
  apply (step_message _ _ message1 KM_NOISE 0 _ done_i.1); [by left|]. rewrite <- surjective_pairing. exact runs_i.
Qed.
Definition sa_i : TransportSA := mkTransport zpis_r zpis_i mac_r mac_i (NoiseCodec 1) (Some (Verified cert_r)).
Lemma done_transports : state done_i.2 = Transport sa_i.
Proof. apply flat_inj. vm_compute. reflexivity. Qed.

Lemma km_never_panics_witness :
  (exists r x', handle_message KM_NOISE KM_NULL [1; 2; 3] KM_NOISE 4 at_i = Ret (r, x')) /\
  (exists r x', handle_message KM_NOISE KM_NULL [1; 2; 3] KM_NOISE 4 done_i.2 = Ret (r, x') /\ r = inr InvalidState).
Proof.
  split.
  - destruct (km_never_panics KM_NOISE KM_NULL at_i [1; 2; 3] KM_NOISE 4 started_i (or_introl eq_refl)) as (r & x' & E & _).
    by exists r, x'.
  - destruct (km_never_panics KM_NOISE KM_NULL done_i.2 [1; 2; 3] KM_NOISE 4 started_done (or_introl eq_refl))
      as (r & x' & E & Hx). exists r, x'. split; [exact E|]. apply Hx. by rewrite done_transports.
Defined.

Lemma transport_means_verified_witness :
  state done_i.2 = Transport sa_i /\
  exists c, t_peer_cert sa_i = Some (Verified c) /\ verify c authority = Some true.
Proof.
  split; [exact done_transports|].
  destruct (transport_means_verified KM_NOISE KM_NULL done_i.2 sa_i started_done done_transports)
    as (hs & t & _ & _ & _ & Hv). by apply Hv.
Defined.

Lemma presentable_i : presentable key_i certs_i.
Proof. intros c [= <-]. split; [done|]. eexists. split; [done|]. by vm_compute. Qed.
Lemma presentable_r : presentable key_r certs_r.
Proof. intros c [= <-]. split; [done|]. eexists. split; [done|]. by vm_compute. Qed.

(** The associations are the halves of one, with the other's certificate verified. *)
Lemma handshake_mirrors_witness :
  exists m1 m2 r1 r2 i2 r3 a b,
    handle_message KM_NOISE KM_NULL m1 KM_NOISE 2 at_i = Ret (inl (Some m2), i2) /\
    handle_message KM_NOISE KM_NULL m2 KM_NOISE 3 r2 = Ret (inl None, r3) /\ r1 = at_r /\
    state i2 = Transport a /\ t_peer_cert a = Some (Verified cert_r) /\
    state r3 = Transport b /\ t_peer_cert b = Some (Verified cert_i).
Proof.
  destruct (handshake_mirrors (slab := FirstFit.table) KM_NOISE KM_NULL KM_NOISE true true key_i key_r zpis_i zpis_r certs_i certs_r
              mac_i mac_r 0 0 0 0 1 2 3 (or_introl eq_refl) eq_refl eq_refl eq_refl eq_refl presentable_i presentable_r)
    as (m0 & m1 & m2 & i1 & r1 & r2 & i2 & r3 & a & b & E1 & E2 & E3 & E4 & E5 & Si & Ci & Sr & Cr & _); [done|done|done|done|].
  exists m1, m2, r1, r2, i2, r3, a, b.
  assert (i1 = at_i) as <- by (unfold at_i, made_i; by rewrite E1).
  assert (r1 = at_r) as Er by (unfold at_r, made_r; by rewrite E2). done.
Defined.

(** ** A manager with the initiator's machine *)

#[local] Instance toy_machine : KeyManagerStateMachine KmNoise := noise_machine KM_NOISE KM_NULL.
#[local] Instance toy_laws : MachineLaws KmNoise := noise_laws KM_NOISE KM_NULL.

Notation result A := (outcome ((A + KmError) * list Out * KmState KmNoise)).
Definition is_ok {A} (r : result A) : bool := match r with Ret (inl _, _, _) => true | _ => false end.
Definition sent {A} (r : result A) : list Out := match r with Ret (_, out, _) => out | Panic => [] end.
Definition after {A} (d : KmState KmNoise) (r : result A) : KmState KmNoise := match r with Ret (_, _, s) => s | Panic => d end.
Lemma is_ok_ret (r : result unit) d : is_ok r = true -> r = Ret (inl tt, sent r, after d r).
Proof. by destruct r as [[[[[]|] ?] ?]|]. Qed.
Definition goes_on (r : result bool) : bool := match r with Ret (inl true, _, _) => true | _ => false end.
Lemma goes_on_ret (r : result bool) d : goes_on r = true -> r = Ret (inl true, sent r, after d r).
Proof. by destruct r as [[[[[]|] ?] ?]|]. Qed.

Definition env : Env := mkEnv mac_i 0 0 KM_NOISE.
Notation begin := (start_state_machine_internal true true env (manager_new made_i)).
Notation begun := (after (manager_new made_i) begin).
Lemma running_begun : running 8 begun (sent begin).
Proof. apply (run_start 8 env made_i). refine (is_ok_ret begin (manager_new made_i) _). by vm_compute. Qed.

(** The manager after the message of the peer, and after one that is too short. *)
Notation heard := (turn 8 true true env (Inbound message1) begun).
Notation established := (after begun heard).
Lemma running_established : running 8 established (sent begin ++ sent heard).
Proof. apply (run_turn 8 env (Inbound message1) begun); [exact running_begun|]. refine (goes_on_ret heard begun _). by vm_compute. Qed.
Lemma established_transports : get_state (statemachine established) = Transport sa_i.
Proof. apply flat_inj. vm_compute. reflexivity. Qed.

Lemma signals_tell_state_witness :
  exists v, known (sent begin ++ sent heard) = Some v /\ associations v = [(1, sa_i)] /\
    get_transport_state established = Some (1, sa_i).
Proof.
  destruct (signals_tell_state 8 ltac:(lia) established _ running_established) as (v & Hv & _ & _ & Hg & Hs).
  specialize (Hs (noise_settles KM_NOISE KM_NULL)). rewrite established_transports in Hs. rewrite Hs in Hg.
  exists v. exact (conj Hv (conj Hs Hg)).
Defined.

Notation garbled := (turn 8 true true env (Inbound [1]) begun).
Notation failed := (after begun garbled).
Lemma running_failed : running 8 failed (sent begin ++ sent garbled).
Proof. apply (run_turn 8 env (Inbound [1]) begun); [exact running_begun|]. refine (goes_on_ret garbled begun _). by vm_compute. Qed.
Definition failure (s : KmSMState) : bool := match s with Error => true | _ => false end.
Lemma failure_error s : failure s = true -> s = Error.
Proof. by destruct s. Qed.
Lemma failed_error : get_state (statemachine failed) = Error.
Proof. apply failure_error. by vm_compute. Qed.
Lemma failed_resets : sm_reset env (statemachine failed) = (inl (Some []), (sm_reset env (statemachine failed)).2).
Proof.
  assert ((sm_reset env (statemachine failed)).1 = inl (Some [])) as <- by (vm_compute; reflexivity).
  apply surjective_pairing.
Qed.

Lemma restart_restarts_witness :
  exists s1 s2 out, restart failed = (s1, inl tt) /\ turn 8 true true env Tick s1 = Ret (inl true, out, s2) /\
    out = [Buffer []; Signal Reset] /\ get_state (statemachine s2) = Configuring.
Proof.
  destruct (restart_restarts 8 ltac:(lia) failed _ env (Some []) _ running_failed failed_error failed_resets)
    as (_ & s1 & s2 & out & E1 & E2 & E3 & E4 & _).
  exists s1, s2, out. done.
Defined.

End KmExample.
