(* ===== verification/Requests.v ===== *)
(** * Sending management messages ([mgmt/requests.rs], [mgmt/helpers.rs])

    How each message that [Assembly] records as sent is written into a packet: the
    message's own header and what follows it, in a heap packet of fixed size that
    panics when it overflows.  The headers in front are those of [MgmtCore]. *)
From Stdlib Require Import ZArith Lia Ascii String.
From stdpp Require Import base tactics option list numbers gmap strings.
From S2P Require Import Prelude Slab NetDefs Tc Tlv PacketBuf Pkt Zdp MgmtCore ZdprReceiver ForwardingTables Auth LinkTypes PeerTable VisaTable Assembly.
From stdpp Require Import list.
Import PacketBuf(Layout, md_size) LinkTypes.
Import Tc Tlv.

Local Open Scope Z_scope.

(** What comes from other crates: the numbers of [zpr::packet_info], the conversion
    of an [IpAddress] to a standard address and back, the JSON of an identity
    provider, a zeroed buffer, and visas in TLVs. *)
Class Wire `{NetDefs} := {
  TCST_IP5TUPLE : Z;
  idp_to_string : Auth.OidcIdpInfo -> option (list Z);
  idp_from_str : list Z -> option Auth.OidcIdpInfo;
  zeroed : Pkt.PacketBuffer;
  TlvVisa : Type;
  visa_message : TlvVisa -> list Z;
  read_visa : list Z -> option TlvVisa;
  visa_back : forall v, read_visa (visa_message v) = Some v;
  VERSION_STRING : list Z;
  l3_bytes : is_byte Ipv4 /\ is_byte Ipv6;
  idp_back : forall i s, idp_to_string i = Some s -> utf8_valid s = true /\ idp_from_str s = Some i;
  (** An IPv4 address is its four bytes in the mapped form. *)
  v4_bytes : forall a, length a = 16%nat -> is_v4 a = true ->
    length (read_as_v4 a) = 4%nat /\ new_from_v4 (read_as_v4 a) = a /\
    (bytes_ok a -> bytes_ok (read_as_v4 a));
  version_ok : utf8_valid VERSION_STRING = true /\ zlen VERSION_STRING <= 255
}.

Module Requests.

(** [config::SMALL_PACKET_BUFFER_SIZE], [config::BIND_REQUEST_MAX_PAYLOAD_LENGTH]. *)
Definition SMALL_PACKET_BUFFER_SIZE : Z := 4096.
Definition BIND_REQUEST_MAX_PAYLOAD_LENGTH : Z := 256.
(** In [send_hello_success_response]. *)
Definition HELLO_RESPONSE_TAILROOM : Z := 32.

(** The bytes of a string literal. *)
Definition text (s : string) : list Z := map (fun c => Z.of_nat (nat_of_ascii c)) (list_ascii_of_string s).

(** A packet on its way to [send_mgmt_helper]. *)
Record Request := mkRequest { rq_type : Z; rq_stream : option Z; rq_txn : option Z; rq_packet : Pkt.Packet }.

Section requests.
Context `{Wire} `{Layout}.

Definition new_heap_packet : outcome Pkt.Packet :=
  Pkt.new SMALL_PACKET_BUFFER_SIZE zeroed Pkt.DEFAULT_MESSAGE_HEADROOM.

Definition send_non_flow_mgmt (packet_type : Z) (p : Pkt.Packet) : outcome Request :=
  mret (mkRequest packet_type None None p).
Definition send_per_flow_mgmt (packet_type stream_id : Z) (p : Pkt.Packet) : outcome Request :=
  mret (mkRequest packet_type (Some stream_id) None p).
Definition send_per_flow_txn_mgmt (packet_type stream_id txn_id : Z) (p : Pkt.Packet) : outcome Request :=
  mret (mkRequest packet_type (Some stream_id) (Some txn_id) p).

Definition put_tlv (e : @TlvEncoding TlvVisa) (p : Pkt.Packet) : outcome Pkt.Packet :=
  bs ← Tlv.put visa_message e; Pkt.put bs p.

(** [&s[..n]] of a string: [n] must be at a character's boundary. *)
Definition str_prefix (s : list Z) (n : Z) : outcome (list Z) :=
  _ ← rust_assert ((n <=? zlen s) && ((n =? zlen s) || negb (cont s (Z.to_nat n))));
  mret (take (Z.to_nat n) s).

(** The key at the end of a message, after its length. *)
Definition put_key (key : option (list Z)) (p : Pkt.Packet) : outcome Pkt.Packet :=
  match key with
  | Some k => p ← Pkt.put (be_bytes 2 (zlen k)) p; Pkt.put k p
  | None => Pkt.put (be_bytes 2 0) p
  end.

(** [put_window_size_tlv]: [window_size] is that of the link's receiver, if the link
    is there. *)
Definition put_window_size_tlv (window_size : option Z) (p : Pkt.Packet) : outcome Pkt.Packet :=
  match window_size with
  | Some w => put_tlv (new_window_size (Z.min w 65535)) p
  | None => mret p
  end.

(** [IpAddr::from(&IpAddress)]. *)
Definition to_std (a : list Z) : IpAddr := if is_v4 a then V4 (read_as_v4 a) else V6 a.
Definition ip_version_of (addrs : list IpAddr) : Z :=
  match addrs with V4 _ :: _ => Ipv4 | _ => Ipv6 end.
Fixpoint put_addrs (ip_version : Z) (addrs : list IpAddr) (p : Pkt.Packet) : outcome Pkt.Packet :=
  match addrs with
  | [] => mret p
  | V4 a :: r => if negb (ip_version =? Ipv4) then Panic else p' ← Pkt.put a p; put_addrs ip_version r p'
  | V6 a :: r => if negb (ip_version =? Ipv6) then Panic else p' ← Pkt.put a p; put_addrs ip_version r p'
  end.

(** ** Messages outside flows *)

(** [send_key_management]: past ZDPR, so with its own headers. *)
Definition send_key_management (km_id : Z) (payload : list Z) : outcome Pkt.Packet :=
  p ← new_heap_packet;
  p ← Pkt.push_header (be_bytes 2 km_id ++ be_bytes 2 (zlen payload)) p;
  p ← Pkt.put payload p;
  Pkt.push_header (Zdp.base_bytes (Zdp.mkBase Zdp.KeyManagement 0)) p.

Definition send_discard : outcome Request :=
  p ← new_heap_packet; send_non_flow_mgmt Zdp.Discard p.

Definition send_echo_request : outcome Request :=
  p ← new_heap_packet; p ← Pkt.push_header (be_bytes 2 0) p; send_non_flow_mgmt Zdp.Echo p.

Definition send_hello_request (window_size : option Z) (a2a_dh_pubkey : list Z) : outcome Request :=
  p ← new_heap_packet;
  p ← put_window_size_tlv window_size p;
  p ← put_tlv (new_a2a_dh_pubkey a2a_dh_pubkey) p;
  send_non_flow_mgmt Zdp.HelloRequest p.

Fixpoint put_oidc_idps (oidc_idps : list Auth.OidcIdpInfo) (p : Pkt.Packet) : outcome Pkt.Packet :=
  match oidc_idps with
  | [] => mret p
  | idp :: r =>
      match @new_oidc_idp TlvVisa (idp_to_string idp) with
      | inl enc =>
          len ← encoded_len enc;
          if Pkt.tailroom p <? len + HELLO_RESPONSE_TAILROOM then mret p
          else p' ← put_tlv enc p; put_oidc_idps r p'
      | inr _ => put_oidc_idps r p
      end
  end.
Definition send_hello_success_response (window_size : option Z) (policy_id : Z)
    (oidc_idps : list Auth.OidcIdpInfo) (aaa_address : option (list Z)) : outcome Request :=
  p ← new_heap_packet;
  p ← Pkt.push_header [ResponseCode.Success] p;
  p ← put_tlv (new_policy_id policy_id) p;
  p ← put_tlv (new_version VERSION_STRING) p;
  p ← put_window_size_tlv window_size p;
  p ← put_oidc_idps oidc_idps p;
  p ← match aaa_address with Some a => put_tlv (new_aaa (to_std a)) p | None => mret p end;
  send_non_flow_mgmt Zdp.HelloResponse p.

Definition send_init_authentication_request (flags : Z) (payload : Auth.ZdpInitAuthenticationPayload)
    : outcome Request :=
  p ← new_heap_packet;
  p ← Pkt.put ([flags] ++ be_bytes 2 48) p;
  p ← Pkt.put (Auth.challenge_bytes payload) p;
  send_non_flow_mgmt Zdp.InitAuthenticationRequest p.

Definition send_renew_authentication_request (payload : Auth.ZdpInitAuthenticationPayload) : outcome Request :=
  p ← new_heap_packet;
  p ← Pkt.put (be_bytes 2 48) p;
  p ← Pkt.put (Auth.challenge_bytes payload) p;
  send_non_flow_mgmt Zdp.RenewAuthenticationRequest p.

Definition send_renew_authentication_response (status_code : Z) (challenge blob : list Z) : outcome Request :=
  p ← new_heap_packet;
  p ← Pkt.put ([status_code] ++ be_bytes 2 (zlen blob) ++ challenge) p;
  p ← Pkt.put blob p;
  send_non_flow_mgmt Zdp.RenewAuthenticationResponse p.

Definition send_acquire_zpr_address_request (actor_addrs : list IpAddr) (blob : list Z) : outcome Request :=
  p ← new_heap_packet;
  p ← Pkt.put (be_bytes 2 (zlen blob) ++ [ip_version_of actor_addrs; wrap 8 (zlen actor_addrs)]) p;
  p ← Pkt.put blob p;
  p ← put_addrs (ip_version_of actor_addrs) actor_addrs p;
  send_non_flow_mgmt Zdp.AcquireZprAddress p.

Definition send_grant_zpr_address_request (status_code : Z) (actor_addrs : list IpAddr) : outcome Request :=
  p ← new_heap_packet;
  p ← Pkt.put [status_code; ip_version_of actor_addrs; wrap 8 (zlen actor_addrs)] p;
  p ← put_addrs (ip_version_of actor_addrs) actor_addrs p;
  send_non_flow_mgmt Zdp.GrantZprAddress p.

Definition send_terminate_link_or_docking_session (reason : Z) : outcome Request :=
  p ← new_heap_packet;
  p ← Pkt.push_header [reason; 0] p;
  send_non_flow_mgmt Zdp.TerminateLinkOrDockingSession p.

Definition send_report (report : list Z) : outcome Request :=
  p ← new_heap_packet;
  p ← Pkt.push_header (be_bytes 2 (zlen report)) p;
  p ← Pkt.put report p;
  send_non_flow_mgmt Zdp.Report p.

(** ** Messages of flows *)

Definition send_bind_actor_address_request (txn_id l3_type : Z) (packet_body : list Z) : outcome Request :=
  p ← new_heap_packet;
  let endpoint_packet_length := Z.min BIND_REQUEST_MAX_PAYLOAD_LENGTH (zlen packet_body) in
  p ← Pkt.push_header ([l3_type] ++ be_bytes 2 endpoint_packet_length) p;
  p ← Pkt.put (take (Z.to_nat endpoint_packet_length) packet_body) p;
  send_per_flow_txn_mgmt Zdp.BindActorAddressRequest 0 txn_id p.

Definition send_bind_actor_address_success_response (txn_id tether_id : Z) (tc : Ip5TupleTc)
    (key : option (list Z)) : outcome Request :=
  p ← new_heap_packet;
  p ← Pkt.put [ResponseCode.Success; 0] p;
  p ← Pkt.put [TCST_IP5TUPLE] p;
  bs ← serialize tc;
  p ← Pkt.put bs p;
  p ← put_key key p;
  send_per_flow_txn_mgmt Zdp.BindActorAddressResponse tether_id txn_id p.

(** The error response of three kinds of requests. *)
Definition error_response (packet_type txn_id : Z) (reason : list Z) : outcome Request :=
  p ← new_heap_packet;
  reason ← str_prefix reason (Z.min (zlen reason) 255);
  p ← Pkt.put [ResponseCode.Other; wrap 8 (zlen reason)] p;
  p ← Pkt.put reason p;
  send_per_flow_txn_mgmt packet_type 0 txn_id p.
Definition send_bind_actor_address_error_response : Z -> list Z -> outcome Request :=
  error_response Zdp.BindActorAddressResponse.

Definition send_stream_id_request (txn_id visa_id : Z) : outcome Request :=
  p ← new_heap_packet;
  p ← Pkt.push_header (be_bytes 8 visa_id) p;
  send_per_flow_txn_mgmt Zdp.StreamIdRequest 0 txn_id p.

(** The success response of two kinds of requests. *)
Definition success_response (packet_type txn_id tether_id : Z) : outcome Request :=
  p ← new_heap_packet;
  p ← Pkt.put [ResponseCode.Success; 0] p;
  send_per_flow_txn_mgmt packet_type tether_id txn_id p.
Definition send_stream_id_success_response : Z -> Z -> outcome Request := success_response Zdp.StreamIdResponse.
Definition send_stream_id_error_response : Z -> list Z -> outcome Request := error_response Zdp.StreamIdResponse.

Definition send_bind_egress_stream_request (txn_id : Z) (tc : Ip5TupleTc) (key : option (list Z)) : outcome Request :=
  p ← new_heap_packet;
  p ← Pkt.push_header [TCST_IP5TUPLE] p;
  bs ← serialize tc;
  p ← Pkt.put bs p;
  p ← put_key key p;
  send_per_flow_txn_mgmt Zdp.BindEgressStreamRequest 0 txn_id p.
Definition send_bind_egress_stream_success_response : Z -> Z -> outcome Request :=
  success_response Zdp.BindEgressStreamResponse.
Definition send_bind_egress_stream_error_response : Z -> list Z -> outcome Request :=
  error_response Zdp.BindEgressStreamResponse.

Definition send_unbind_egress_stream_request (stream_id : Z) : outcome Request :=
  p ← new_heap_packet; send_per_flow_mgmt Zdp.UnbindEgressStreamIndication stream_id p.
Definition send_stream_id_withdrawal (stream_id : Z) : outcome Request :=
  p ← new_heap_packet; send_per_flow_mgmt Zdp.StreamIdWithdrawal stream_id p.

(** ** The messages that the assembly records *)

Definition reason_text (r : RejectReason) : list Z :=
  match r with
  | PolicyErrorReason => text "policy error"
  | PftFullReason => text "PFT full"
  | DltFullReason => text "DLT full"
  | PeerReason t => t
  end.

(** [zdpr_recv.window_size()] of a link. *)
Definition window_of `{SlabOps slab} (t : PeerTable.PeerTable slab) (link : Z) : option Z :=
  p ← PeerTable.get t link; Some (Rx.window_size (PeerTable.zdpr_recv p)).

(** The link a message goes to, and its packet. *)
Definition link_of (m : Msg) : Z :=
  match m with
  | StreamIdRequest l _ _ | BindEgressStreamRequest l _ _ _ | BindEgressStreamSuccessResponse l _ _
  | BindEgressStreamErrorResponse l _ _ | StreamIdSuccessResponse l _ _
  | StreamIdErrorResponse l _ _ | BindActorAddressSuccessResponse l _ _ _ _ | BindActorAddressErrorResponse l _ _
  | UnbindEgressStreamRequest l _ | StreamIdWithdrawal l _ | HelloRequest l _ | HelloSuccessResponse l _ _
  | InitAuthenticationRequest l _ | RenewAuthenticationRequest l _ | RenewAuthenticationResponse l _ _ _
  | AcquireZprAddressRequest l _ _ | GrantZprAddressRequest l _ _ | TerminateLink l _ | EchoRequest l => l
  end.

Definition request (window_size : option Z) (m : Msg) : outcome Request :=
  match m with
  | StreamIdRequest _ txn visa => send_stream_id_request txn visa
  | BindEgressStreamRequest _ txn tc key => send_bind_egress_stream_request txn tc key
  | BindEgressStreamSuccessResponse _ txn tether => send_bind_egress_stream_success_response txn tether
  | BindEgressStreamErrorResponse _ txn r => send_bind_egress_stream_error_response txn (reason_text r)
  | StreamIdSuccessResponse _ txn tether => send_stream_id_success_response txn tether
  | StreamIdErrorResponse _ txn r => send_stream_id_error_response txn (reason_text r)
  | BindActorAddressSuccessResponse _ txn tether tc key => send_bind_actor_address_success_response txn tether tc key
  | BindActorAddressErrorResponse _ txn r => send_bind_actor_address_error_response txn (reason_text r)
  | UnbindEgressStreamRequest _ stream => send_unbind_egress_stream_request stream
  | StreamIdWithdrawal _ stream => send_stream_id_withdrawal stream
  | HelloRequest _ key => send_hello_request window_size key
  | HelloSuccessResponse _ idps aaa => send_hello_success_response window_size 0 idps aaa
  | InitAuthenticationRequest _ p => send_init_authentication_request 1 p
  | RenewAuthenticationRequest _ p => send_renew_authentication_request p
  | RenewAuthenticationResponse _ code challenge blob => send_renew_authentication_response code challenge blob
  | AcquireZprAddressRequest _ addrs blob => send_acquire_zpr_address_request (to_std <$> addrs) blob
  | GrantZprAddressRequest _ code addrs => send_grant_zpr_address_request code (to_std <$> addrs)
  | TerminateLink _ reason => send_terminate_link_or_docking_session reason
  | EchoRequest _ => send_echo_request
  end.

(** What goes to the peer. *)
Definition packet_bytes (r : Request) : outcome (list Z) :=
  MgmtCore.mgmt_packet (rq_type r) (rq_stream r) (rq_txn r) (Pkt.body (rq_packet r)).
Definition message_bytes (window_size : option Z) (m : Msg) : outcome (list Z) :=
  r ← request window_size m; packet_bytes r.

End requests.

(** ** Handlers with their packets *)

Section packets.
Context `{NetDefs} `{Auth.Crypto} `{VisaEnv} `{TunCtl} `{FlowTables} `{SlabOps slab} `{!Wire} `{Layout}.

Fixpoint write_all (t : PeerTable.PeerTable slab) (ms : list Msg) : outcome (list (list Z)) :=
  match ms with
  | [] => mret []
  | m :: r =>
      bs ← message_bytes (window_of t (link_of m)) m;
      rest ← write_all t r;
      mret (bs :: rest)
  end.

(** [m] with the packets of what it sends: the handlers of [Assembly] only record a
    message, whose packet the code writes on the spot; it stops the program when the
    message does not fit.  (The window in a hello is the only thing a packet takes from
    the state; no handler changes a receiver's.) *)
Definition with_packets {A} (m : Asm.M slab A) : Asm.M slab A := fun s =>
  '(a, s') ← m s;
  _ ← write_all (Asm.peer_table s') (drop (length (Asm.sent s)) (Asm.sent s'));
  Ret (a, s').

End packets.
End Requests.
