(* ===== verification/Handlers.v ===== *)
(** * Handling management messages ([mgmt/handlers.rs], [mgmt_processor_worker.rs], [mgmt/adapter.rs])

    What a link's management processor does with a packet: the headers, the message,
    and the call of the state machine, the node or the adapter that it leads to.  A
    packet is its bytes; the link it came in on and, for flows, the stream are its
    metadata.  The handlers of bind requests and of a next hop's answers are those of
    [NodeBind]. *)
From Stdlib Require Import ZArith Lia.
From stdpp Require Import base tactics option list numbers gmap.
From S2P Require Import Prelude Slab NetDefs Tc Tlv Zdp ZdprSender MgmtCore ForwardingTables TxnMgr AdapterTables Auth LinkTypes PeerTable VisaTable Assembly LinkFsm NodeBind Requests.
From stdpp Require Import list.
Import Tc Tlv ForwardingTables Auth LinkTypes PeerTable Asm.

Local Open Scope Z_scope.

(** The adapter's endpoint lookup table, as the table of [AdapterTables], with the
    packets that wait in it and its order of iteration; the Diffie-Hellman exchange
    and the derivation of the key for end-to-end MACs. *)
Class AdapterFlows `{FlowTables} := {
  FlowPacket : Type;
  elt_table : Elt -> gmap FiveTuple (@AdapterTables.EltEntry FlowPacket);
  elt_pending : Elt -> gmap Z FiveTuple;
  elt_make : gmap FiveTuple (@AdapterTables.EltEntry FlowPacket) -> gmap Z FiveTuple -> Elt;
  elt_iter : gmap FiveTuple (@AdapterTables.EltEntry FlowPacket) -> list (FiveTuple * @AdapterTables.EltEntry FlowPacket);
  derive_key : list Z -> list Z;
  diffie_hellman : list Z -> list Z;
  table_made : forall t p, elt_table (elt_make t p) = t /\ elt_pending (elt_make t p) = p
}.

Module Handlers.

Inductive HandleMgmtError :=
| UnknownType (t : Z)
| MessageNotPermitted
| BadStructure
| UnknownTransaction
| LinkError (e : LinkStateError)
| LinkClosed.

Definition X25519_KEY_LEN : Z := 32.
Definition BOOTSTRAP_SUPPORT : Z := 1.

Section handlers.
Context `{NetDefs} `{Crypto} `{VisaEnv} `{TunCtl} `{FlowTables} `{SlabOps slab} `{!Wire} `{!AdapterFlows}.
Context (VISA_SERVICE_DN : list Z) (default_ft : FiveTuple) (env : Env).
(** The order in which a [HashMap] of TLVs is iterated. *)
Context (tlv_iter : gmap Z (list (@TlvValue TlvVisa)) -> list (Z * list (@TlvValue TlvVisa))).

Notation M := (M slab).
Notation HandleMgmtResult := (unit + HandleMgmtError)%type.

Definition handled : M HandleMgmtResult := mret (inl tt).
Definition refused (e : HandleMgmtError) : M HandleMgmtResult := mret (inr e).

(** [asm.process_link_state_event(link_id, event)?; Ok(())]. *)
Definition link_event (link_id : Z) (event : LinkEvent) : M HandleMgmtResult :=
  r ← LinkFsm.process_link_state_event VISA_SERVICE_DN env link_id event;
  mret match r with inl _ => inl tt | inr e => inr (LinkError e) end.

(** The errors of [NodeBind]'s handlers. *)
Definition of_node (r : unit + NodeBind.HandleMgmtError) : HandleMgmtResult :=
  match r with
  | inl _ => inl tt
  | inr NodeBind.BadStructure => inr BadStructure
  | inr NodeBind.MessageNotPermitted => inr MessageNotPermitted
  | inr NodeBind.LinkGone => inr LinkClosed
  | inr NodeBind.UnknownTransaction => inr UnknownTransaction
  end.

(** [read_from_buf] of a header of [n] bytes. *)
Definition read_header (n : Z) (pkt : list Z) : option (list Z * list Z) :=
  if zlen pkt <? n then None else Some (take (Z.to_nat n) pkt, drop (Z.to_nat n) pkt).
Definition u16_at (i : nat) (hdr : list Z) : Z := from_be (take 2 (drop i hdr)).

(** ** Messages outside flows *)

(** The header is skipped twice. *)
Definition handle_report (pkt : list Z) : M HandleMgmtResult :=
  match read_header 2 pkt with
  | None => refused BadStructure
  | Some (hdr, pkt) =>
      let report_data_length := u16_at 0 hdr in
      _ ← assert (2 <=? zlen pkt);
      let body := drop 2 pkt in
      if report_data_length <=? zlen body
      then _ ← assert (utf8_valid (take (Z.to_nat report_data_length) body)); handled
      else handled
  end.

Definition handle_discard : M HandleMgmtResult := handled.
Definition handle_echo_request : M HandleMgmtResult := handled.

Definition handle_init_authentication_request (link_id : Z) (pkt : list Z) : M HandleMgmtResult :=
  match read_header 3 pkt with
  | None => refused BadStructure
  | Some (hdr, pkt) =>
      let is_bootstrap := negb (Z.land (nth 0 hdr 0) BOOTSTRAP_SUPPORT =? 0) in
      let data_len := u16_at 1 hdr in
      if is_bootstrap then
        if data_len =? 0 then refused BadStructure
        else if data_len <? 48 then refused BadStructure
        else if zlen pkt <? data_len then refused BadStructure
        else match read_header 48 pkt with
             | None => refused BadStructure
             | Some (b, _) => link_event link_id (ReceivedInitAuth true (Some (payload_of b)))
             end
      else link_event link_id (ReceivedInitAuth false None)
  end.

Definition handle_renew_authentication_request (link_id : Z) (pkt : list Z) : M HandleMgmtResult :=
  match read_header 2 pkt with
  | None => refused BadStructure
  | Some (hdr, pkt) =>
      if u16_at 0 hdr <? 48 then refused BadStructure
      else if zlen pkt <? u16_at 0 hdr then refused BadStructure
      else match read_header 48 pkt with
           | None => refused BadStructure
           | Some (b, _) => link_event link_id (ReceivedRenewAuthRequest (payload_of b))
           end
  end.

(** A blob of [blen] bytes in front of [pkt], which must be there and valid UTF-8. *)
Definition read_blob (blen : Z) (pkt : list Z) : option (list Z * list Z) :=
  if blen =? 0 then None
  else '(blob, pkt) ← read_header blen pkt; if utf8_valid blob then Some (blob, pkt) else None.

Definition handle_renew_authentication_response (link_id : Z) (pkt : list Z) : M HandleMgmtResult :=
  match read_header 51 pkt with
  | None => refused BadStructure
  | Some (hdr, pkt) =>
      let challenge := drop 3 hdr in
      let status := nth 0 hdr 0 in
      if status =? ResponseCode.Success then
        match read_blob (u16_at 1 hdr) pkt with
        | None => refused BadStructure
        | Some (blob, _) => link_event link_id (ReceivedRenewAuthResponse challenge (inl blob))
        end
      else link_event link_id (ReceivedRenewAuthResponse challenge (inr status))
  end.

Definition handle_terminate_link_or_docking_session (link_id : Z) (pkt : list Z) : M HandleMgmtResult :=
  match read_header 2 pkt with
  | None => refused BadStructure
  | Some (hdr, _) => link_event link_id (ReceivedTerminateLink (nth 0 hdr 0))
  end.

(** *** Hello *)

(** The [adjust_window_size] of the link's sender, if the size is not zero and the
    link is there. *)
Definition adjust_window (link_id window_size : Z) : M unit :=
  if window_size <? 1 then mret tt
  else
    p ← get_peer link_id;
    match p with
    | None => mret tt
    | Some p =>
        s ← lift (Tx.adjust_window_size (MgmtCore.zdpr_send (session p)) window_size);
        update_peer link_id (set_session (MgmtCore.set_send (session p) s))
    end.

Fixpoint process_window_size_tlv (link_id : Z) (tlv_value : list (@TlvValue TlvVisa)) : M HandleMgmtResult :=
  match tlv_value with
  | [] => handled
  | U16 window_size :: r => _ ← adjust_window link_id window_size; process_window_size_tlv link_id r
  | _ :: _ => refused BadStructure
  end.

Fixpoint process_a2a_dh_pubkey_tlv (link_id : Z) (tlv_value : list (@TlvValue TlvVisa)) : M HandleMgmtResult :=
  match tlv_value with
  | [] => handled
  | X25519PubKey pubkey :: r =>
      _ ← update_peer link_id (set_a2a_dh_pubkey (Some pubkey)); process_a2a_dh_pubkey_tlv link_id r
  | _ :: _ => refused BadStructure
  end.

Fixpoint process_hello_tlvs (link_id : Z) (tlv_data : list (Z * list (@TlvValue TlvVisa))) : M HandleMgmtResult :=
  match tlv_data with
  | [] => handled
  | (ty, v) :: r =>
      res ← (if ty =? WINDOW_SIZE then process_window_size_tlv link_id v
             else if ty =? A2A_DH_PUBKEY then process_a2a_dh_pubkey_tlv link_id v
             else handled);
      match res with inl _ => process_hello_tlvs link_id r | inr e => refused e end
  end.

Definition handle_hello_request (link_id : Z) (pkt : list Z) : M HandleMgmtResult :=
  mode ← gets ph_mode;
  if negb (bool_decide (mode = Node)) then refused MessageNotPermitted
  else
    tlv_data ← lift (parse_from_buf read_visa pkt);
    match tlv_data with
    | inr _ => refused BadStructure
    | inl tlv_data =>
        res ← process_hello_tlvs link_id (tlv_iter tlv_data);
        match res with inr e => refused e | inl _ => link_event link_id ReceivedHelloRequest end
    end.

(** The values of the types [AAA] and [OIDC_IDP]; [None] is a bad structure. *)
Fixpoint read_aaa (tlv_value : list (@TlvValue TlvVisa)) (aaa_address : option (list Z)) : option (option (list Z)) :=
  match tlv_value with
  | [] => Some aaa_address
  | v :: r =>
      match aaa_address, v with
      | Some _, _ => None
      | None, Ipv4Addr a => read_aaa r (Some (new_from_v4 a))
      | None, Ipv6Addr a => read_aaa r (Some a)
      | None, _ => None
      end
  end.
Fixpoint read_oidc_idps (tlv_value : list (@TlvValue TlvVisa)) (oidc_idps : list OidcIdpInfo) : option (list OidcIdpInfo) :=
  match tlv_value with
  | [] => Some oidc_idps
  | Str json :: r =>
      read_oidc_idps r (match idp_from_str json with Some idp => oidc_idps ++ [idp] | None => oidc_idps end)
  | _ :: _ => None
  end.

Fixpoint hello_response_tlvs (link_id : Z) (tlv_data : list (Z * list (@TlvValue TlvVisa)))
    (aaa_address : option (list Z)) (oidc_idps : list OidcIdpInfo)
    : M ((option (list Z) * list OidcIdpInfo) + HandleMgmtError) :=
  match tlv_data with
  | [] => mret (inl (aaa_address, oidc_idps))
  | (ty, v) :: r =>
      if (ty =? VERSION) || (ty =? POLICY_ID) then
        _ ← lift (unwrap (head v)); hello_response_tlvs link_id r aaa_address oidc_idps
      else if ty =? WINDOW_SIZE then
        res ← process_window_size_tlv link_id v;
        match res with inr e => mret (inr e) | inl _ => hello_response_tlvs link_id r aaa_address oidc_idps end
      else if ty =? AAA then
        match read_aaa v aaa_address with
        | None => mret (inr BadStructure)
        | Some a => hello_response_tlvs link_id r a oidc_idps
        end
      else if ty =? OIDC_IDP then
        match read_oidc_idps v oidc_idps with
        | None => mret (inr BadStructure)
        | Some l => hello_response_tlvs link_id r aaa_address l
        end
      else hello_response_tlvs link_id r aaa_address oidc_idps
  end.

Definition parse_hello_response (link_id : Z) (pkt : list Z) : M (LinkEvent + HandleMgmtError) :=
  match read_header 1 pkt with
  | None => mret (inr BadStructure)
  | Some (hdr, pkt) =>
      tlv_data ← lift (parse_from_buf read_visa pkt);
      match tlv_data with
      | inr _ => mret (inr BadStructure)
      | inl tlv_data =>
          r ← hello_response_tlvs link_id (tlv_iter tlv_data) None [];
          mret match r with
               | inr e => inr e
               | inl (aaa_address, oidc_idps) =>
                   inl (ReceivedHelloResponse (nth 0 hdr 0) aaa_address
                          (match oidc_idps with [] => None | l => Some l end))
               end
      end
  end.

Definition handle_hello_response (link_id : Z) (pkt : list Z) : M HandleMgmtResult :=
  r ← parse_hello_response link_id pkt;
  match r with inr e => refused e | inl event => link_event link_id event end.

(** *** Addresses *)

(** The size of an address, for a version there is. *)
Definition address_size (ip_version : Z) : option Z :=
  if ip_version =? Ipv4 then Some 4 else if ip_version =? Ipv6 then Some 16 else None.
Definition address_of (ip_version : Z) (b : list Z) : list Z := if ip_version =? Ipv4 then new_from_v4 b else b.
Fixpoint read_addrs (ip_version : Z) (n : nat) (pkt : list Z) : option (list (list Z)) :=
  match n with
  | O => Some []
  | S n =>
      size ← address_size ip_version;
      '(b, pkt) ← read_header size pkt;
      addrs ← read_addrs ip_version n pkt;
      Some (address_of ip_version b :: addrs)
  end.
(** [addr_count] of them, all there. *)
Definition read_addresses (ip_version addr_count : Z) (pkt : list Z) : option (list (list Z)) :=
  size ← address_size ip_version;
  if zlen pkt <? size * addr_count then None else read_addrs ip_version (Z.to_nat addr_count) pkt.

Definition parse_acquire_zpr_address_request (pkt : list Z) : option (option (list (list Z)) * list Z) :=
  '(hdr, pkt) ← read_header 4 pkt;
  '(blob, pkt) ← read_blob (u16_at 0 hdr) pkt;
  let addr_count := nth 3 hdr 0 in
  if 0 <? addr_count then
    addrs ← read_addresses (nth 2 hdr 0) addr_count pkt; Some (Some addrs, blob)
  else Some (None, blob).

Definition handle_acquire_zpr_address_request (link_id : Z) (pkt : list Z) : M HandleMgmtResult :=
  match parse_acquire_zpr_address_request pkt with
  | None => refused BadStructure
  | Some (addrs, blob) => link_event link_id (ReceivedAcquireZprAddressRequest addrs blob)
  end.

Definition parse_grant_zpr_address_request (pkt : list Z) : option (list (list Z) + Z) :=
  '(hdr, pkt) ← read_header 3 pkt;
  let status := nth 0 hdr 0 in
  if negb (status =? ResponseCode.Success) then Some (inr status)
  else addrs ← read_addresses (nth 1 hdr 0) (nth 2 hdr 0) pkt; Some (inl addrs).

Definition handle_grant_zpr_address_request (link_id : Z) (pkt : list Z) : M HandleMgmtResult :=
  match parse_grant_zpr_address_request pkt with
  | None | Some (inl []) => refused BadStructure
  | Some r => link_event link_id (ReceivedGrantZprAddressRequest r)
  end.

(** ** Messages of flows *)

(** The traffic classifier and the key that follows it; [None] is a bad structure. *)
Definition read_key (pkt : list Z) : option (option (list Z)) :=
  '(hdr, pkt) ← read_header 2 pkt;
  let key_len := u16_at 0 hdr in
  if key_len =? 0 then Some None
  else if zlen pkt <? key_len then None
  else if key_len =? X25519_KEY_LEN then Some (Some (take (Z.to_nat key_len) pkt)) else None.
Definition read_tc_key (pkt : list Z) : option (Ip5TupleTc * option (list Z)) :=
  '(hdr, pkt) ← read_header 1 pkt;
  if negb (nth 0 hdr 0 =? TCST_IP5TUPLE) then None
  else '(tc, pkt) ← deserialize pkt; key ← read_key pkt; Some (tc, key).

(** *** At an adapter ([mgmt/adapter.rs]) *)

Definition bind_egress_stream (dock_link_id txn_id : Z) (tc : Ip5TupleTc) (key : option (list Z)) : M unit :=
  let pep := DltPep_new derive_key tc (diffie_hellman <$> key) in
  d ← gets dlt;
  match dlt_insert d pep with
  | Some (tid, d') =>
      _ ← modify (set_dlt d'); send (BindEgressStreamSuccessResponse dock_link_id txn_id tid)
  | None => send (BindEgressStreamErrorResponse dock_link_id txn_id DltFullReason)
  end.

Definition adapter_unbind_stream (stream_id : Z) : M unit :=
  d ← gets dlt; d' ← lift (dlt_remove d stream_id); modify (set_dlt d').

(** An operation of the endpoint lookup table, whose pending entries hold handles of
    the transactions of the dock link [link_id]. *)
Definition on_flows {A} (link_id : Z)
    (f : @AdapterTables.Sys FlowPacket -> outcome (@AdapterTables.Sys FlowPacket * A)) : M A :=
  p ← get_peer link_id;
  p ← lift (unwrap p);
  e ← gets elt;
  '(s, a) ← lift (f (AdapterTables.mkSys (txn_mgr p) (elt_table e) (elt_pending e)));
  _ ← update_peer link_id (set_txn_mgr (AdapterTables.txns s));
  _ ← modify (set_elt (elt_make (AdapterTables.table s) (AdapterTables.pending s)));
  mret a.

(** The answer to a bind request: the result, and the packet that goes back to the
    fast path. *)
Definition bind_answer (link_id : Z) (h : TxnHandle) (stream_id : Z) (pkt : list Z)
    : M (HandleMgmtResult * option FlowPacket) :=
  match read_header 2 pkt with
  | None => mret (inr BadStructure, None)
  | Some (hdr, pkt) =>
      let status := nth 0 hdr 0 in
      let info_len := nth 1 hdr 0 in
      if status =? ResponseCode.Success then
        match read_tc_key pkt with
        | None => mret (inr BadStructure, None)
        | Some (tc, key) =>
            r ← on_flows link_id (fun s => AdapterTables.install_tether derive_key diffie_hellman s (th_id h) stream_id tc key);
            mret match r with
                 | inl packet => (inl tt, packet)
                 | inr AdapterTables.NoSuchTransaction => (inr UnknownTransaction, None)
                 end
        end
      else if status =? ResponseCode.Other then
        if zlen pkt <? info_len then mret (inr BadStructure, None)
        else if negb (utf8_valid (take (Z.to_nat info_len) pkt)) then mret (inr BadStructure, None)
        else
          r ← on_flows link_id (fun s => AdapterTables.deny_tether s (th_id h));
          mret match r with
               | inl _ => (inl tt, None)
               | inr AdapterTables.NoSuchTransaction => (inr UnknownTransaction, None)
               end
      else mret (inr BadStructure, None)
  end.

Definition handle_bind_actor_address_response (link_id txn_id stream_id : Z) (pkt : list Z)
    : M (HandleMgmtResult * option FlowPacket) :=
  p ← get_peer link_id;
  match p with
  | None => mret (inr LinkClosed, None)
  | Some _ =>
      h ← NodeBind.get_txn link_id txn_id;
      match h with
      | None => mret (inr UnknownTransaction, None)
      | Some h => r ← bind_answer link_id h stream_id pkt; _ ← drop_handle h; mret r
      end
  end.

Definition handle_bind_egress_stream_request (link_id txn_id : Z) (pkt : list Z) : M HandleMgmtResult :=
  match read_tc_key pkt with
  | None => refused BadStructure
  | Some (tc, key) =>
      if link_id =? 0 then handled
      else
        ty ← NodeBind.peer_type_by_id link_id;
        match ty with
        | TDock => _ ← bind_egress_stream link_id txn_id tc key; handled
        | _ => refused MessageNotPermitted
        end
  end.

Definition handle_unbind_indication (link_id stream_id : Z) : M HandleMgmtResult :=
  if link_id =? 0 then handled
  else
    p ← get_peer link_id;
    match p with
    | None => refused LinkClosed
    | Some p =>
        match NodeBind.unbind_side p link_id with
        | inl NodeBind.NodeSide => _ ← NodeBind.unbind_stream link_id stream_id; handled
        | inl NodeBind.AdapterSide => _ ← adapter_unbind_stream stream_id; handled
        | inr e => mret (of_node (inr e))
        end
    end.

Definition handle_stream_id_withdrawal (link_id stream_id : Z) : M HandleMgmtResult :=
  if link_id =? 0 then handled
  else
    p ← get_peer link_id;
    match p with
    | None => refused LinkClosed
    | Some p =>
        match NodeBind.unbind_side p link_id with
        | inl NodeBind.AdapterSide =>
            _ ← on_flows link_id (fun s => AdapterTables.remove_by_tether_id elt_iter s stream_id); handled
        | inl NodeBind.NodeSide => refused MessageNotPermitted
        | inr e => mret (of_node (inr e))
        end
    end.

(** ** A packet of a link ([handle_packet]) *)

Definition no_packet (m : M HandleMgmtResult) : M (HandleMgmtResult * option FlowPacket) :=
  r ← m; mret (r, None).

Definition handle_per_flow (link_id t stream_id : Z) (pkt : list Z) : M (HandleMgmtResult * option FlowPacket) :=
  let with_txn (f : Z -> list Z -> M (HandleMgmtResult * option FlowPacket)) :=
    match read_header 2 pkt with
    | None => no_packet (refused BadStructure)
    | Some (hdr, pkt) => f (u16_at 0 hdr) pkt
    end in
  let node (m : M (unit + NodeBind.HandleMgmtError)) := r ← m; mret (of_node r, None) in
  if t =? Zdp.TransitPacket then panic
  else if t =? Zdp.BindActorAddressRequest then
    with_txn (fun txn pkt => node (NodeBind.handle_bind_actor_address_request default_ft link_id txn pkt))
  else if t =? Zdp.BindActorAddressResponse then
    with_txn (fun txn pkt => handle_bind_actor_address_response link_id txn stream_id pkt)
  else if t =? Zdp.StreamIdRequest then
    with_txn (fun txn pkt => node (NodeBind.handle_stream_id_request link_id txn pkt))
  else if t =? Zdp.StreamIdResponse then
    with_txn (fun txn pkt => node (NodeBind.handle_next_hop_response utf8_valid link_id txn stream_id pkt))
  else if t =? Zdp.BindEgressStreamRequest then
    with_txn (fun txn pkt => no_packet (handle_bind_egress_stream_request link_id txn pkt))
  else if t =? Zdp.BindEgressStreamResponse then
    with_txn (fun txn pkt => node (NodeBind.handle_next_hop_response utf8_valid link_id txn stream_id pkt))
  else if t =? Zdp.UnbindEgressStreamIndication then no_packet (handle_unbind_indication link_id stream_id)
  else if t =? Zdp.StreamIdWithdrawal then no_packet (handle_stream_id_withdrawal link_id stream_id)
  else no_packet (refused (UnknownType t)).

Definition handle_non_flow (link_id t : Z) (pkt : list Z) : M HandleMgmtResult :=
  if t =? Zdp.Report then handle_report pkt
  else if t =? Zdp.Discard then handle_discard
  else if t =? Zdp.Echo then handle_echo_request
  else if t =? Zdp.KeyManagement then panic
  else if t =? Zdp.TerminateLinkOrDockingSession then handle_terminate_link_or_docking_session link_id pkt
  else if t =? Zdp.HelloRequest then handle_hello_request link_id pkt
  else if t =? Zdp.HelloResponse then handle_hello_response link_id pkt
  else if t =? Zdp.InitAuthenticationRequest then handle_init_authentication_request link_id pkt
  else if t =? Zdp.RenewAuthenticationRequest then handle_renew_authentication_request link_id pkt
  else if t =? Zdp.RenewAuthenticationResponse then handle_renew_authentication_response link_id pkt
  else if t =? Zdp.AcquireZprAddress then handle_acquire_zpr_address_request link_id pkt
  else if t =? Zdp.GrantZprAddress then handle_grant_zpr_address_request link_id pkt
  else refused (UnknownType t).

Definition handle_packet (link_id : Z) (pkt : list Z) : M (HandleMgmtResult * option FlowPacket) :=
  match Zdp.read_base pkt with
  | None => no_packet (refused BadStructure)
  | Some (base_hdr, pkt) =>
      match Zdp.read_mgmt pkt with
      | None => no_packet (refused BadStructure)
      | Some (_, pkt) =>
          if Zdp.is_per_flow (Zdp.packet_type base_hdr) then
            match read_header 4 pkt with
            | None => no_packet (refused BadStructure)
            | Some (hdr, pkt) => handle_per_flow link_id (Zdp.packet_type base_hdr) (from_be hdr) pkt
            end
          else no_packet (handle_non_flow link_id (Zdp.packet_type base_hdr) pkt)
      end
  end.

(** The processor of link [own]: packets of other links are dropped, an error is an
    event of the link. *)
Definition process_packet (own ingress_link_id : Z) (pkt : list Z) : M (option HandleMgmtError * option FlowPacket) :=
  if negb (ingress_link_id =? own) then mret (None, None)
  else
    '(r, packet) ← handle_packet ingress_link_id pkt;
    match r with
    | inl _ => mret (None, packet)
    | inr e =>
        _ ← LinkFsm.process_link_state_event VISA_SERVICE_DN env own EventError;
        mret (Some e, packet)
    end.

End handlers.
End Handlers.
