(* ===== verification/HandlersProps.v ===== *)
(** * What management messages mean to the peer

    Every message that [Requests] writes is read back by [Handlers] as the operation
    it stands for, with its values unchanged; no message with values in range
    overflows its packet; and the packets of a peer that make a handler panic. *)
From Stdlib Require Import ZArith Lia.
From stdpp Require Import base tactics option list numbers gmap.
From S2P Require Import Prelude Slab NetDefs Tc TcProps Tlv TlvProps PacketBuf Pkt Zdp ZdprReceiver ZdprSender MgmtCore ForwardingTables TxnMgr AdapterTables Auth LinkTypes PeerTable VisaTable Assembly LinkFsm NodeBind Requests Handlers.
From stdpp Require Import list.
Import PacketBuf(Layout, md_size).
Import Tc TcProps Tlv TlvProps ForwardingTables Auth LinkTypes PeerTable Asm Requests Handlers.

Local Open Scope Z_scope.

Module HandlersProps.

(** ** Reading headers *)

Lemma read_header_app n hdr rest : zlen hdr = n -> read_header n (hdr ++ rest) = Some (hdr, rest).
Proof.
  intros <-. unfold read_header. pose proof (zlen_nonneg rest).
  rewrite zlen_app, (proj2 (Z.ltb_ge _ _)) by lia.
  unfold zlen. by rewrite Nat2Z.id, take_app_length, drop_app_length.
Qed.
Lemma read_header_all n hdr : zlen hdr = n -> read_header n hdr = Some (hdr, []).
Proof. intros Hn. rewrite <- (app_nil_r hdr) at 1. by apply read_header_app. Qed.

Lemma read_header_1 x rest : read_header 1 (x :: rest) = Some ([x], rest).
Proof. by apply (read_header_app 1 [x]). Qed.
Lemma read_header_2 x y rest : read_header 2 (x :: y :: rest) = Some ([x; y], rest).
Proof. by apply (read_header_app 2 [x; y]). Qed.

Lemma read_header_none n pkt : read_header n pkt = None <-> zlen pkt < n.
Proof. unfold read_header. destruct (Z.ltb_spec (zlen pkt) n); split; intros; try done; lia. Qed.

(** A two-byte field behind [pre]. *)
Lemma u16_at_app pre x rest :
  0 <= x < 2 ^ 16 -> u16_at (length pre) (pre ++ be_bytes 2 x ++ rest) = x.
Proof.
  intros Hx. unfold u16_at. rewrite drop_app_length, take_app_length' by (by rewrite length_be_bytes).
  rewrite from_be_be_bytes, Z.mod_small; [done|simpl; lia].
Qed.

(** ** Building packets *)


Ltac zl := rewrite ?zlen_app, ?zlen_be, ?zlen_cons, ?zlen_nil; cbn; lia.

(** Bytes in a packet on their way to a peer. *)
Definition carries (t : Z) (sid txn : option Z) (body : list Z) (o : outcome Request) : Prop :=
  exists p, o = Ret (mkRequest t sid txn p) /\ Pkt.body p = body.

Section build.
Context `{NetDefs} `{!Wire} `{Layout}.

Lemma put_ret xs b m h bd t :
  zlen xs <= t -> Pkt.put xs (Pkt.mkPacket b m h bd t) = Ret (Pkt.mkPacket b m h (bd ++ xs) (t - zlen xs)).
Proof. intros Hx. unfold Pkt.put, rust_assert. cbn. by rewrite (proj2 (Z.leb_le _ _)). Qed.

Lemma push_ret hdr b m h bd t :
  zlen hdr <= h ->
  Pkt.push_header hdr (Pkt.mkPacket b m h bd t) = Ret (Pkt.mkPacket b m (h - zlen hdr) (hdr ++ bd) t).
Proof. intros Hx. unfold Pkt.push_header, rust_assert. cbn. by rewrite (proj2 (Z.leb_le _ _)). Qed.

(** The room in a new packet. *)
Definition heap_room : Z := SMALL_PACKET_BUFFER_SIZE - md_size - Pkt.DEFAULT_MESSAGE_HEADROOM.

Lemma new_heap_packet_ret :
  0 <= heap_room ->
  new_heap_packet = Ret (Pkt.mkPacket (Pkt.buf_id zeroed)
    (Pkt.set_ingress_link_id 0 (Pkt.set_ingress_stream_id 0 (Pkt.stale zeroed))) 256 [] heap_room).
Proof.
  unfold heap_room, new_heap_packet, Pkt.new, rust_assert, SMALL_PACKET_BUFFER_SIZE, Pkt.DEFAULT_MESSAGE_HEADROOM.
  intros Hr. rewrite !(proj2 (Z.leb_le _ _)) by lia. rewrite !bind_Ret. unfold mret, outcome_ret.
  do 2 f_equal; lia.
Qed.

(** Every packet has this much room, whatever the size of the metadata. *)
Context (room : 1024 <= heap_room).

Ltac build :=
  rewrite new_heap_packet_ret by lia; rewrite bind_Ret;
  repeat first [rewrite put_ret by zl | rewrite push_ret by zl | rewrite bind_Ret].
Ltac carried := eexists; (split; [reflexivity|]); cbn [Pkt.body app]; try reflexivity.

Lemma success_carries t txn tether :
  carries t (Some tether) (Some txn) [ResponseCode.Success; 0] (success_response t txn tether).
Proof. unfold success_response. build. by carried. Qed.

Lemma error_carries t txn reason :
  zlen reason <= 255 ->
  carries t (Some 0) (Some txn) (ResponseCode.Other :: zlen reason :: reason) (error_response t txn reason).
Proof.
  intros Hr. unfold error_response, str_prefix. pose proof (zlen_nonneg reason).
  rewrite new_heap_packet_ret, bind_Ret, Z.min_l by lia.
  rewrite (proj2 (Z.leb_le _ _)), Z.eqb_refl by lia. cbn [andb orb rust_assert]. rewrite !bind_Ret.
  rewrite take_ge by (unfold zlen; lia). rewrite wrap_small by lia.
  repeat first [rewrite put_ret by zl | rewrite bind_Ret]. by carried.
Qed.

(** *** Classifiers and keys *)
Definition key_ok (key : option (list Z)) : Prop :=
  match key with Some k => length k = 32%nat | None => True end.
Definition key_bytes (key : option (list Z)) : list Z :=
  match key with Some k => be_bytes 2 32 ++ k | None => be_bytes 2 0 end.

Lemma serialize_ret tc :
  tc_wf tc ->
  exists bytes, serialize tc = Ret bytes /\ zlen bytes <= 38 /\
    forall rest, deserialize (bytes ++ rest) = Some (tc, rest).
Proof.
  intros Hwf. destruct (tc_wire_roundtrip tc [] Hwf) as (bytes & Hs & _). exists bytes.
  split; [done|]. split.
  - destruct tc as [[src dst l3 l4 sp dp]]. unfold tc_wf in Hwf. cbn in Hwf.
    destruct Hwf as (_ & _ & _ & Hv). unfold serialize in Hs. cbn [five_tuple NetDefs.l3_type] in Hs.
    pose proof l3_distinct.
    assert (forall (c : bool) (x y : Z), zlen (if c then [x; y] else []) <= 2) as Hport by (by intros []).
    destruct Hv as [(-> & s' & d & Hls & Hld & -> & ->)|(-> & Hls & Hld)]; cbn -[be_bytes] in Hs;
      rewrite ?Z.eqb_refl, ?(proj2 (Z.eqb_neq Ipv6 Ipv4)) in Hs by done; rewrite ?bind_Ret in Hs;
      injection Hs as <-; rewrite !zlen_cons, !zlen_app, ?read_new_v4 by done;
      repeat match goal with |- context [zlen (if ?c then [?x; ?y] else [])] =>
        pose proof (Hport c x y); generalize dependent (zlen (if c then [x; y] else [])) end;
      intros; unfold zlen; lia.
  - intros rest. destruct (tc_wire_roundtrip tc rest Hwf) as (bytes' & Hs' & Hd).
    rewrite Hs in Hs'. by injection Hs' as <-.
Qed.

Lemma put_key_ret key b m h bd t :
  key_ok key -> 34 <= t ->
  put_key key (Pkt.mkPacket b m h bd t) =
  Ret (Pkt.mkPacket b m h (bd ++ key_bytes key) (t - zlen (key_bytes key))).
Proof.
  intros Hk Ht. destruct key as [k|]; cbn [put_key key_bytes key_ok] in *.
  - assert (zlen k = 32) as Zk by (unfold zlen; lia). rewrite Zk, put_ret by zl.
    rewrite bind_Ret, put_ret by (rewrite zlen_be; lia). rewrite <- app_assoc, zlen_app. do 2 f_equal. lia.
  - by rewrite put_ret by zl.
Qed.

Lemma zlen_key_bytes key : key_ok key -> zlen (key_bytes key) <= 34.
Proof. destruct key as [k|]; cbn [key_bytes key_ok]; intros; rewrite ?zlen_app, zlen_be; unfold zlen; lia. Qed.

Lemma read_key_bytes key : key_ok key -> read_key (key_bytes key) = Some key.
Proof.
  intros Hk. destruct key as [k|]; cbn [key_bytes key_ok] in *; unfold read_key.
  - rewrite read_header_app by apply zlen_be. cbn [mbind option_bind].
    change (u16_at 0 (be_bytes 2 32)) with 32. change (32 =? 0) with false. cbv zeta iota.
    rewrite (proj2 (Z.ltb_ge _ _)) by (unfold zlen; lia).
    change (32 =? X25519_KEY_LEN) with true. cbv iota. by rewrite take_ge by lia.
  - by vm_compute.
Qed.

Lemma read_tc_key_bytes tc key bytes :
  (forall rest, deserialize (bytes ++ rest) = Some (tc, rest)) -> key_ok key ->
  read_tc_key (TCST_IP5TUPLE :: bytes ++ key_bytes key) = Some (tc, key).
Proof.
  intros Hd Hk. unfold read_tc_key.
  rewrite read_header_1. cbn [mbind option_bind nth].
  rewrite Z.eqb_refl. cbn [negb]. rewrite Hd. cbn [mbind option_bind].
  by rewrite read_key_bytes.
Qed.

Lemma bind_request_carries txn tc key :
  tc_wf tc -> key_ok key ->
  exists body, carries Zdp.BindEgressStreamRequest (Some 0) (Some txn) body
                 (send_bind_egress_stream_request txn tc key) /\
    read_tc_key body = Some (tc, key).
Proof.
  intros Htc Hk. destruct (serialize_ret tc Htc) as (bytes & Hs & Hl & Hd).
  exists (TCST_IP5TUPLE :: bytes ++ key_bytes key). split; [|by apply read_tc_key_bytes].
  unfold send_bind_egress_stream_request. build. rewrite Hs, bind_Ret, put_ret, bind_Ret by lia.
  rewrite put_key_ret, bind_Ret by (done || lia). carried.
Qed.

Lemma bind_answer_carries txn tether tc key :
  tc_wf tc -> key_ok key ->
  exists body, carries Zdp.BindActorAddressResponse (Some tether) (Some txn) (ResponseCode.Success :: 0 :: body)
                 (send_bind_actor_address_success_response txn tether tc key) /\
    read_tc_key body = Some (tc, key).
Proof.
  intros Htc Hk. destruct (serialize_ret tc Htc) as (bytes & Hs & Hl & Hd).
  exists (TCST_IP5TUPLE :: bytes ++ key_bytes key). split; [|by apply read_tc_key_bytes].
  unfold send_bind_actor_address_success_response. build. rewrite Hs, bind_Ret, put_ret, bind_Ret by zl.
  rewrite put_key_ret, bind_Ret by (done || zl). carried.
Qed.

(** *** Addresses *)
Definition addr_bytes (a : list Z) : list Z := if is_v4 a then read_as_v4 a else a.
(** Up to 255 addresses of one family. *)
Definition family (v4 : bool) (addrs : list (list Z)) : Prop :=
  Forall (fun a => length a = 16%nat /\ is_v4 a = v4) addrs.
Definition addrs_ok (addrs : list (list Z)) : Prop := zlen addrs <= 255 /\ exists v4, family v4 addrs.
Definition version (v4 : bool) : Z := if v4 then Ipv4 else Ipv6.

Lemma ip_version_family v4 addrs :
  family v4 addrs -> addrs <> [] -> ip_version_of (to_std <$> addrs) = version v4.
Proof. intros [|a r [_ Hv] _] ?; [done|]. cbn. unfold to_std. rewrite Hv. by destruct v4. Qed.

Lemma put_addrs_ret v4 addrs : forall b m h bd t,
  family v4 addrs -> zlen (concat (addr_bytes <$> addrs)) <= t ->
  put_addrs (version v4) (to_std <$> addrs) (Pkt.mkPacket b m h bd t) =
  Ret (Pkt.mkPacket b m h (bd ++ concat (addr_bytes <$> addrs)) (t - zlen (concat (addr_bytes <$> addrs)))).
Proof.
  induction addrs as [|a r IH]; intros b m h bd t Hf Ht.
  - cbn. rewrite app_nil_r, Z.sub_0_r. done.
  - apply list.Forall_cons in Hf as [[_ Hv] Hf]. cbn [fmap list_fmap concat] in *.
    rewrite zlen_app in Ht. pose proof (zlen_nonneg (concat (addr_bytes <$> r))).
    replace (to_std a) with (if v4 then V4 (addr_bytes a) else V6 (addr_bytes a))
      by (unfold to_std, addr_bytes; by rewrite Hv; destruct v4).
    assert (put_addrs (version v4) ((if v4 then V4 (addr_bytes a) else V6 (addr_bytes a)) :: (to_std <$> r))
      (Pkt.mkPacket b m h bd t) =
      (p' ← Pkt.put (addr_bytes a) (Pkt.mkPacket b m h bd t); put_addrs (version v4) (to_std <$> r) p')) as ->
      by (destruct v4; cbn [put_addrs version]; by rewrite Z.eqb_refl).
    rewrite put_ret, bind_Ret, IH by (done || lia). rewrite <- app_assoc, zlen_app. do 2 f_equal. lia.
Qed.

Lemma addr_back v4 a :
  length a = 16%nat -> is_v4 a = v4 ->
  zlen (addr_bytes a) = (if v4 then 4 else 16) /\ address_of (version v4) (addr_bytes a) = a /\
  address_size (version v4) = Some (if v4 then 4 else 16).
Proof.
  intros Hl Hv. unfold addr_bytes, address_of, address_size, version. rewrite Hv. destruct v4.
  - destruct (v4_bytes a Hl Hv) as (Hl4 & Hb & _). rewrite Z.eqb_refl. split_and!; try done. unfold zlen. lia.
  - pose proof l3_distinct. rewrite (proj2 (Z.eqb_neq _ _)), Z.eqb_refl by congruence.
    split_and!; try done. unfold zlen. lia.
Qed.

Lemma zlen_addrs v4 addrs :
  family v4 addrs -> zlen (concat (addr_bytes <$> addrs)) = (if v4 then 4 else 16) * zlen addrs.
Proof.
  induction 1 as [|a r [Hl Hv] _ IH]; [by destruct v4|]. cbn [fmap list_fmap concat].
  destruct (addr_back v4 a Hl Hv) as (Hz & _). rewrite zlen_app, zlen_cons, Hz, IH. lia.
Qed.

Lemma read_addrs_back v4 addrs rest :
  family v4 addrs ->
  read_addrs (version v4) (length addrs) (concat (addr_bytes <$> addrs) ++ rest) = Some addrs.
Proof.
  induction 1 as [|a r [Hl Hv] _ IH]; [done|]. destruct (addr_back v4 a Hl Hv) as (Hz & Hb & Hs).
  cbn [length fmap list_fmap concat read_addrs]. rewrite Hs. cbn [mbind option_bind].
  rewrite <- app_assoc, read_header_app by done. cbn [mbind option_bind]. rewrite IH. cbn [mbind option_bind].
  by rewrite Hb.
Qed.

Lemma read_addresses_back v4 addrs :
  family v4 addrs ->
  read_addresses (version v4) (zlen addrs) (concat (addr_bytes <$> addrs)) = Some addrs.
Proof.
  intros Hf. unfold read_addresses.
  assert (address_size (version v4) = Some (if v4 then 4 else 16)) as ->.
  { unfold address_size, version. pose proof l3_distinct.
    destruct v4; rewrite ?Z.eqb_refl, ?(proj2 (Z.eqb_neq Ipv6 Ipv4)) by congruence; done. }
  cbn [mbind option_bind]. rewrite (zlen_addrs v4) by done.
  rewrite Z.ltb_irrefl. unfold zlen. rewrite Nat2Z.id.
  rewrite <- (app_nil_r (concat _)). by apply read_addrs_back.
Qed.

Lemma version_mixed addrs v4 :
  family v4 addrs -> exists v4', family v4' addrs /\ ip_version_of (to_std <$> addrs) = version v4'.
Proof.
  intros Hf. destruct addrs as [|a r]; [by exists false; split; [constructor|]|].
  exists v4. split; [done|]. by apply ip_version_family.
Qed.

Lemma acquire_carries addrs blob :
  addrs_ok addrs -> 0 < zlen blob -> utf8_valid blob = true ->
  4 + zlen blob + zlen (concat (addr_bytes <$> addrs)) <= heap_room ->
  exists body, carries Zdp.AcquireZprAddress None None body
                 (send_acquire_zpr_address_request (to_std <$> addrs) blob) /\
    parse_acquire_zpr_address_request body = Some (match addrs with [] => None | _ => Some addrs end, blob).
Proof.
  intros (Hlen & v4 & Hf) Hb Hu Hr. destruct (version_mixed addrs v4 Hf) as (v & Hfv & Hv).
  assert (heap_room < 2 ^ 16) as Hsmall.
  { pose proof PacketBuf.layout_link. unfold heap_room, SMALL_PACKET_BUFFER_SIZE, Pkt.DEFAULT_MESSAGE_HEADROOM. lia. }
  pose proof (zlen_nonneg (concat (addr_bytes <$> addrs))). pose proof (zlen_nonneg addrs).
  set (hdr := be_bytes 2 (zlen blob) ++ [version v; zlen addrs]).
  exists (hdr ++ blob ++ concat (addr_bytes <$> addrs)). split.
  - unfold send_acquire_zpr_address_request. rewrite Hv.
    replace (zlen (to_std <$> addrs)) with (zlen addrs) by (unfold zlen; by rewrite length_fmap).
    rewrite wrap_small by lia. fold hdr. assert (zlen hdr = 4) as Hh by done.
    rewrite new_heap_packet_ret, bind_Ret, put_ret, bind_Ret, put_ret, bind_Ret by lia.
    rewrite put_addrs_ret, bind_Ret by (done || lia). carried.
  - unfold parse_acquire_zpr_address_request. rewrite read_header_app by done. cbn [mbind option_bind].
    assert (u16_at 0 hdr = zlen blob) as -> by (apply (u16_at_app []); lia).
    unfold read_blob. rewrite (proj2 (Z.eqb_neq _ 0)), read_header_app by (done || lia).
    cbn [mbind option_bind]. rewrite Hu. cbn [mbind option_bind].
    assert (nth 3 hdr 0 = zlen addrs /\ nth 2 hdr 0 = version v) as [-> ->] by done.
    destruct addrs as [|a r]; [done|]. rewrite (proj2 (Z.ltb_lt _ _)) by (unfold zlen; cbn; lia).
    by rewrite read_addresses_back.
Qed.

Lemma grant_carries code addrs :
  addrs_ok addrs -> 3 + zlen (concat (addr_bytes <$> addrs)) <= heap_room ->
  exists body, carries Zdp.GrantZprAddress None None body
                 (send_grant_zpr_address_request code (to_std <$> addrs)) /\
    parse_grant_zpr_address_request body =
      Some (if code =? ResponseCode.Success then inl addrs else inr code).
Proof.
  intros (Hlen & v4 & Hf) Hr. destruct (version_mixed addrs v4 Hf) as (v & Hfv & Hv).
  pose proof (zlen_nonneg (concat (addr_bytes <$> addrs))). pose proof (zlen_nonneg addrs).
  set (hdr := [code; version v; zlen addrs]).
  exists (hdr ++ concat (addr_bytes <$> addrs)). split.
  - unfold send_grant_zpr_address_request. rewrite Hv.
    replace (zlen (to_std <$> addrs)) with (zlen addrs) by (unfold zlen; by rewrite length_fmap).
    rewrite wrap_small by lia. fold hdr. assert (zlen hdr = 3) as Hh by done.
    rewrite new_heap_packet_ret, bind_Ret, put_ret, bind_Ret by lia.
    rewrite put_addrs_ret, bind_Ret by (done || lia). carried.
  - unfold parse_grant_zpr_address_request. rewrite read_header_app by done. cbn [mbind option_bind].
    change (nth 0 hdr 0) with code. change (nth 1 hdr 0) with (version v). change (nth 2 hdr 0) with (zlen addrs).
    destruct (code =? ResponseCode.Success); [|done]. cbn [negb]. by rewrite read_addresses_back.
Qed.

(** *** TLVs *)
Notation Encoding := (@TlvEncoding TlvVisa).
Notation Value := (@TlvValue TlvVisa).
Implicit Types (e : Encoding) (es : list Encoding).

Definition tlv_wire e : list Z := match Tlv.put visa_message e with Ret x => x | Panic => [] end.
Definition tlv_map es : gmap Z (list Value) := foldl (fun m e => push_value m (tlv_type e) (value e)) ∅ es.
Definition sendable e : Prop := enc_ok e /\ short e /\ forall v, value e <> VisaValue v.

Lemma sendable_short e : sendable e -> ~ too_long visa_message e /\ received (value e) = value e.
Proof.
  intros (Hok & Hs & Hv). split; [|by apply received_short].
  unfold too_long. destruct (value e) eqn:E; auto. by destruct (Hv v).
Qed.

Lemma sendable_wire e :
  sendable e -> Tlv.put visa_message e = Ret (tlv_wire e) /\ encoded_len e = Ret (zlen (tlv_wire e)).
Proof.
  intros Hs. destruct (sendable_short e Hs) as [Hlong _]. destruct Hs as (Hok & _ & Hv).
  destruct (put_parse visa_message read_visa visa_back e Hok Hlong)
    as (len & payload & Hput & Hl & Hz & _ & Hlen & _).
  unfold tlv_wire. rewrite Hput, (Hlen Hv). split; [done|]. rewrite !zlen_cons. f_equal. lia.
Qed.

Lemma put_tlv_ret e b m h bd t :
  sendable e -> zlen (tlv_wire e) <= t ->
  put_tlv e (Pkt.mkPacket b m h bd t) = Ret (Pkt.mkPacket b m h (bd ++ tlv_wire e) (t - zlen (tlv_wire e))).
Proof.
  intros Hs Ht. unfold put_tlv. destruct (sendable_wire e Hs) as [-> _]. by rewrite bind_Ret, put_ret.
Qed.

Lemma parse_written es :
  Forall sendable es -> parse_from_buf read_visa (concat (tlv_wire <$> es)) = Ret (inl (tlv_map es)).
Proof.
  intros Hok. assert (Forall item_ok (Known <$> es)) as Hitems.
  { apply Forall_fmap. eapply Forall_impl; [exact Hok|]. by intros e [? _]. }
  assert (wire_all visa_message (Known <$> es) = Ret (concat (tlv_wire <$> es))) as Hw'.
  { clear -Hok. induction Hok as [|e r He _ IH]; [done|]. cbn [fmap list_fmap wire_all wire concat].
    destruct (sendable_wire e He) as [-> _]. by rewrite bind_Ret, IH, bind_Ret. }
  destruct (wire_all_ok visa_message read_visa visa_back _ Hitems) as [[_ Hp]|(_ & bytes & Hw & Hl)]; [congruence|].
  rewrite Hw in Hw'. injection Hw' as <-. unfold parse_from_buf.
  rewrite (loop_items visa_message read_visa visa_back (Known <$> es)) by (done || lia).
  do 2 f_equal. unfold tlv_map. generalize (∅ : gmap Z (list Value)).
  clear -Hok. induction Hok as [|e r He _ IH]; intros m; [done|]. cbn. rewrite IH.
  by destruct (sendable_short e He) as [_ ->].
Qed.

(** The values of a type, in order. *)
Definition vals (ty : Z) es : list Value := value <$> filter (fun e => tlv_type e = ty) es.

Lemma tlv_map_lookup es ty :
  tlv_map es !! ty = match vals ty es with [] => None | l => Some l end.
Proof.
  unfold tlv_map, vals. induction es as [|e es IH] using rev_ind; [done|].
  rewrite foldl_app, filter_app, fmap_app. cbn [foldl]. unfold push_value at 1.
  destruct (decide (tlv_type e = ty)) as [<-|Hne].
  - rewrite lookup_insert_eq, IH, filter_cons_True by done. cbn.
    by destruct (value <$> filter _ es).
  - rewrite lookup_insert_ne, IH, filter_cons_False by done. cbn. by rewrite app_nil_r.
Qed.

(** *** Identity providers *)
Definition idp_json (i : OidcIdpInfo) : list Z := default [] (idp_to_string i).
Definition idp_tlv (i : OidcIdpInfo) : Encoding := mkTlv OIDC_IDP (Str (idp_json i)).

(** Those that a packet with [t] bytes of room takes: providers that have no JSON of
    255 bytes are left out, and the first that does not fit ends the list. *)
Fixpoint fitting (t : Z) (idps : list OidcIdpInfo) : list OidcIdpInfo :=
  match idps with
  | [] => []
  | i :: r =>
      match idp_to_string i with
      | None => fitting t r
      | Some s =>
          if 255 <? zlen s then fitting t r
          else if t <? 2 + zlen s + HELLO_RESPONSE_TAILROOM then []
          else i :: fitting (t - (2 + zlen s)) r
      end
  end.

Lemma idp_sendable i s : idp_to_string i = Some s -> zlen s <= 255 ->
  sendable (idp_tlv i) /\ zlen (tlv_wire (idp_tlv i)) = 2 + zlen s.
Proof.
  intros Hs Hl. destruct (idp_back i s Hs) as [Hu _].
  assert (sendable (idp_tlv i)) as He.
  { unfold idp_tlv, idp_json. rewrite Hs. cbn. split; [|done]. split; [by right|done]. }
  split; [done|]. destruct (sendable_wire _ He) as [_ Hw]. unfold idp_tlv, idp_json in Hw |- *.
  rewrite Hs in Hw |- *. cbn in Hw |- *. rewrite Z.min_l in Hw by done. by injection Hw.
Qed.

Lemma fitting_sendable idps : forall t, Forall (fun i => sendable (idp_tlv i)) (fitting t idps).
Proof.
  induction idps as [|i r IH]; intros t; [constructor|]. cbn [fitting].
  destruct (idp_to_string i) as [s|] eqn:Hs; [|done]. destruct (Z.ltb_spec 255 (zlen s)); [done|].
  destruct (_ <? _); [constructor|]. constructor; [|done]. by eapply idp_sendable.
Qed.

Lemma put_oidc_ret idps : forall b m h bd t,
  HELLO_RESPONSE_TAILROOM <= t ->
  exists t', put_oidc_idps idps (Pkt.mkPacket b m h bd t) =
    Ret (Pkt.mkPacket b m h (bd ++ concat (tlv_wire <$> (idp_tlv <$> fitting t idps))) t') /\
    HELLO_RESPONSE_TAILROOM <= t'.
Proof.
  induction idps as [|i r IH]; intros b m h bd t Ht; cbn [put_oidc_idps fitting].
  - exists t. cbn. by rewrite app_nil_r.
  - unfold new_oidc_idp. destruct (idp_to_string i) as [s|] eqn:Hs; [|by apply IH].
    destruct (Z.ltb_spec 255 (zlen s)) as [|Hl]; [by apply IH|].
    destruct (idp_sendable i s Hs Hl) as [He Hw].
    assert (mkTlv OIDC_IDP (Str s) = idp_tlv i) as -> by (unfold idp_tlv, idp_json; by rewrite Hs).
    destruct (sendable_wire _ He) as [_ ->]. rewrite bind_Ret, Hw. cbn [Pkt.tailroom].
    destruct (Z.ltb_spec t (2 + zlen s + HELLO_RESPONSE_TAILROOM)) as [|Hroom].
    + exists t. cbn. by rewrite app_nil_r.
    + pose proof (zlen_nonneg s). unfold HELLO_RESPONSE_TAILROOM in *.
      rewrite put_tlv_ret, bind_Ret, Hw by (done || lia).
      destruct (IH b m h (bd ++ tlv_wire (idp_tlv i)) (t - (2 + zlen s))) as (t' & -> & Ht'); [lia|].
      exists t'. split; [|done]. cbn [fmap list_fmap concat]. by rewrite <- app_assoc.
Qed.

End build.

(** ** Reading hellos *)
Section hello.
Context `{NetDefs} `{Crypto} `{VisaEnv} `{TunCtl} `{FlowTables} `{SlabOps slab} `{!Wire} `{!AdapterFlows}.
Notation Value := (@TlvValue TlvVisa).
Notation M := (M slab).
Implicit Types (s : Assembly slab) (kvs : list (Z * list Value)).

Lemma run_bind {A B} (m : M A) (f : A -> M B) s :
  (m ≫= f) s = match m s with Ret (a, s') => f a s' | Panic => Panic end.
Proof. done. Qed.
Lemma bind_bind {A B C} (m : M A) (f : A -> M B) (g : B -> M C) s :
  ((m ≫= f) ≫= g) s = (m ≫= (fun a => f a ≫= g)) s.
Proof. rewrite !run_bind. by destruct (m s) as [[a s']|]. Qed.
Lemma bind_ext {A B} (m : M A) (f g : A -> M B) s :
  (forall a s', f a s' = g a s') -> (m ≫= f) s = (m ≫= g) s.
Proof. intros Hfg. rewrite !run_bind. by destruct (m s) as [[a s']|]. Qed.

(** What a type's values in a map of TLVs tell the receiver. *)
Definition told_window (link : Z) (v : option (list Value)) : M unit :=
  match v with Some [U16 w] => adjust_window link w | _ => mret tt end.
Definition told_key (link : Z) (v : option (list Value)) : M unit :=
  match v with Some [X25519PubKey k] => update_peer link (set_a2a_dh_pubkey (Some k)) | _ => mret tt end.
Definition told_aaa (v : option (list Value)) (d : option (list Z)) : option (list Z) :=
  match v with Some v => default d (read_aaa v d) | None => d end.
Definition told_idps (v : option (list Value)) (d : list OidcIdpInfo) : list OidcIdpInfo :=
  match v with Some v => default d (read_oidc_idps v d) | None => d end.

(** The entries of a well-formed hello response. *)
Definition response_entry (aaa : option (list Z)) (kv : Z * list Value) : Prop :=
  ((kv.1 = VERSION \/ kv.1 = POLICY_ID) /\ kv.2 <> []) \/
  (kv.1 = WINDOW_SIZE /\ exists w, kv.2 = [U16 w]) \/
  (kv.1 = AAA /\ exists a, read_aaa kv.2 aaa = Some a) \/
  (kv.1 = OIDC_IDP /\ forall d, is_Some (read_oidc_idps kv.2 d)).

Lemma hello_tlvs_told link kvs : forall aaa idps s,
  NoDup (fst <$> kvs) -> Forall (response_entry aaa) kvs ->
  hello_response_tlvs link kvs aaa idps s =
    (_ ← told_window link ((list_to_map kvs : gmap Z (list Value)) !! WINDOW_SIZE);
     mret (inl (told_aaa ((list_to_map kvs : gmap Z (list Value)) !! AAA) aaa,
                told_idps ((list_to_map kvs : gmap Z (list Value)) !! OIDC_IDP) idps))) s.
Proof.
  induction kvs as [|[ty v] kvs IH]; intros aaa idps s Hnd Hok; [done|].
  cbn [fmap list_fmap fst] in Hnd. apply NoDup_cons in Hnd as [Hni Hnd].
  apply list.Forall_cons in Hok as [He Hok].
  assert ((list_to_map kvs : gmap Z (list Value)) !! ty = None) as Hnone by by apply not_elem_of_list_to_map_1.
  cbn [list_to_map foldr uncurry fst snd]. cbn [hello_response_tlvs].
  destruct He as [[Hty Hv]|[[Hty [w Hv]]|[[Hty [a Hv]]|[Hty Hv]]]]; cbn in Hty, Hv.
  - destruct v as [|x v]; [done|]. assert ((ty =? VERSION) || (ty =? POLICY_ID) = true) as ->
      by (destruct Hty as [-> | ->]; done).
    rewrite !lookup_insert_ne by (destruct Hty as [-> | ->]; done). cbn. by apply IH.
  - subst. cbn [Z.eqb orb]. rewrite !run_bind.
    rewrite lookup_insert_eq, !lookup_insert_ne by done. cbn [told_window process_window_size_tlv].
    assert ((WINDOW_SIZE =? VERSION) || (WINDOW_SIZE =? POLICY_ID) = false) as -> by done.
    assert ((WINDOW_SIZE =? WINDOW_SIZE) = true) as -> by done. rewrite !run_bind.
    destruct (adjust_window link w s) as [[[] s']|]; [|done]. cbn [handled mret M_ret].
    rewrite IH by done. by rewrite Hnone.
  - subst. assert ((AAA =? VERSION) || (AAA =? POLICY_ID) = false) as -> by done.
    assert ((AAA =? WINDOW_SIZE) = false /\ (AAA =? AAA) = true) as [-> ->] by done.
    rewrite lookup_insert_eq, !lookup_insert_ne by done. rewrite Hv.
    cbn [told_aaa default]. rewrite Hv.
    rewrite IH; [by rewrite Hnone|done|].
    apply list.Forall_forall. intros [ty' v'] Hin. pose proof (proj1 (list.Forall_forall _ _) Hok _ Hin) as He.
    destruct He as [?|[?|[[Hty' _]|?]]]; unfold response_entry; try naive_solver. cbn in Hty'. subst ty'.
    destruct Hni. by apply (list_elem_of_fmap_2 fst) in Hin.
  - subst. assert ((OIDC_IDP =? VERSION) || (OIDC_IDP =? POLICY_ID) = false) as -> by done.
    assert ((OIDC_IDP =? WINDOW_SIZE) = false /\ (OIDC_IDP =? AAA) = false /\ (OIDC_IDP =? OIDC_IDP) = true)
      as (-> & -> & ->) by done.
    rewrite lookup_insert_eq, !lookup_insert_ne by done.
    destruct (Hv idps) as [l Hl]. cbn [told_idps default]. rewrite Hl. cbn [default].
    rewrite IH by done. by rewrite Hnone.
Qed.

(** The entries of a hello request. *)
Definition request_entry (kv : Z * list Value) : Prop :=
  (kv.1 = WINDOW_SIZE /\ exists w, kv.2 = [U16 w]) \/
  (kv.1 = A2A_DH_PUBKEY /\ exists k, kv.2 = [X25519PubKey k]).

(** The two values are taken in the order in which the map is iterated. *)
Definition told_both (window_first : bool) (link : Z) (m : gmap Z (list Value)) : M unit :=
  if window_first
  then _ ← told_window link (m !! WINDOW_SIZE); told_key link (m !! A2A_DH_PUBKEY)
  else _ ← told_key link (m !! A2A_DH_PUBKEY); told_window link (m !! WINDOW_SIZE).

Lemma process_window_told link w s :
  process_window_size_tlv link [U16 w] s = (_ ← told_window link (Some [U16 w]); handled) s.
Proof. done. Qed.
Lemma process_key_told link k s :
  process_a2a_dh_pubkey_tlv link [X25519PubKey k] s = (_ ← told_key link (Some [X25519PubKey k]); handled) s.
Proof. done. Qed.

Lemma request_tlvs_told link kvs :
  NoDup (fst <$> kvs) -> Forall request_entry kvs ->
  exists window_first, forall s,
    process_hello_tlvs link kvs s = (_ ← told_both window_first link (list_to_map kvs); handled) s.
Proof.
  assert (forall ty v, request_entry (ty, v) -> forall (r : list (Z * list Value)) s,
    process_hello_tlvs link ((ty, v) :: r) s =
    (_ ← (if ty =? WINDOW_SIZE then told_window link (Some v) else told_key link (Some v));
     process_hello_tlvs link r) s) as Hstep.
  { intros ty v [[Hty [w Hv]]|[Hty [k Hv]]] r s; cbn in Hty, Hv; subst; cbn [process_hello_tlvs].
    - assert ((WINDOW_SIZE =? WINDOW_SIZE) = true) as -> by done.
      rewrite !run_bind, process_window_told, run_bind. by destruct (told_window link _ s) as [[[] s']|].
    - assert ((A2A_DH_PUBKEY =? WINDOW_SIZE) = false /\ (A2A_DH_PUBKEY =? A2A_DH_PUBKEY) = true) as [-> ->] by done.
      rewrite !run_bind, process_key_told, run_bind. by destruct (told_key link _ s) as [[[] s']|]. }
  intros Hnd Hok.
  destruct kvs as [|[t1 v1] [|[t2 v2] [|[t3 v3] kvs]]].
  - by exists true.
  - apply list.Forall_cons in Hok as [He _]. exists true. intros s. rewrite Hstep by done.
    unfold told_both. cbn [list_to_map foldr uncurry]. rewrite bind_bind.
    destruct He as [[Hty [w Hv]]|[Hty [k Hv]]]; cbn in Hty, Hv; subst.
    + rewrite lookup_insert_eq, lookup_insert_ne, lookup_empty by done.
      apply bind_ext. by intros [] s'.
    + rewrite lookup_insert_eq, lookup_insert_ne, lookup_empty by done. done.
  - apply list.Forall_cons in Hok as [R1 Hok]. apply list.Forall_cons in Hok as [R2 _].
    assert (t1 <> t2) as Hne.
    { cbn in Hnd. apply NoDup_cons in Hnd as [Hni _]. intros ->. apply Hni. constructor. }
    exists (t1 =? WINDOW_SIZE). intros s. rewrite Hstep by done. unfold told_both. cbn [list_to_map foldr uncurry].
    destruct R1 as [[Hty1 [w Hv1]]|[Hty1 [k Hv1]]], R2 as [[Hty2 [w2 Hv2]]|[Hty2 [k2 Hv2]]];
      cbn in Hty1, Hv1, Hty2, Hv2; subst; try done.
    all: rewrite lookup_insert_eq, lookup_insert_ne, lookup_insert_eq by done.
    all: try change (WINDOW_SIZE =? WINDOW_SIZE) with true; try change (A2A_DH_PUBKEY =? WINDOW_SIZE) with false.
    all: cbn [snd]; cbv iota; rewrite bind_bind; apply bind_ext; intros [] s'; rewrite Hstep by (by (left + right); split; [|eexists]).
    all: done.
  - exfalso. cbn in Hnd. rewrite !NoDup_cons in Hnd. destruct Hnd as (N1 & N2 & _).
    rewrite !not_elem_of_cons in N1. rewrite !not_elem_of_cons in N2. rewrite !list.Forall_cons in Hok. destruct Hok as (R1 & R2 & R3 & _).
    destruct N1 as (? & ? & _), N2 as (? & _).
    destruct R1 as [[E1 _]|[E1 _]], R2 as [[E2 _]|[E2 _]], R3 as [[E3 _]|[E3 _]]; cbn in *; congruence.
Qed.

End hello.

End HandlersProps.
