(* ===== verification/HandlersThms.v ===== *)
(** * Management messages, from the sender's call to the receiver's operation

    The operation that each message stands for at the peer, and the theorems: a
    message with values in range is never too large for its packet and does just
    that operation; the packets that make a handler panic. *)
From Stdlib Require Import ZArith Lia.
From stdpp Require Import base tactics option list numbers gmap.
From S2P Require Import Prelude Slab NetDefs Tc TcProps Tlv TlvProps PacketBuf Pkt Zdp ZdprReceiver ZdprSender MgmtCore ForwardingTables TxnMgr AdapterTables Auth LinkTypes PeerTable PeerTableProps VisaTable Assembly LinkFsm LinkInv NodeBind Requests Handlers HandlersProps.
From stdpp Require Import list.
Import PacketBuf(Layout, md_size).
Import Tc TcProps Tlv TlvProps ForwardingTables Auth LinkTypes PeerTable Asm Requests Handlers HandlersProps.

Local Open Scope Z_scope.

Module HandlersThms.

#[local] Instance PeerType_eq_dec : EqDecision PeerType.
Proof. solve_decision. Defined.

Section meaning.
Context `{NetDefs} `{Crypto} `{VisaEnv} `{TunCtl} `{FlowTables} `{SlabOps slab} `{!Wire} `{!AdapterFlows} `{Layout}.
Context (VISA_SERVICE_DN : list Z) (default_ft : FiveTuple) (env : Env).
Context (tlv_iter : gmap Z (list (@TlvValue TlvVisa)) -> list (Z * list (@TlvValue TlvVisa))).
Context (tlv_iter_all : forall m, tlv_iter m ≡ₚ map_to_list m).
Context (room : 1024 <= heap_room).

Notation M := (M slab).
Notation Result := ((unit + HandleMgmtError) * option FlowPacket)%type.
Notation handle_packet := (handle_packet VISA_SERVICE_DN default_ft env tlv_iter).
Notation event := (link_event VISA_SERVICE_DN env).
Implicit Types (s : Assembly slab).

(** ** What the peer does with a message, by its values *)

(** The request of a peer of another type is not permitted. *)
Definition permitted (link : Z) (ty : PeerType) (m : M unit) : M Result :=
  if link =? 0 then mret (inl tt, None)
  else
    t ← NodeBind.peer_type_by_id link;
    if bool_decide (t = ty) then _ ← m; mret (inl tt, None) else mret (inr MessageNotPermitted, None).

(** An answer: to a transaction that is open. *)
Definition answered (link txn : Z) (m : TxnHandle -> M Result) : M Result :=
  p ← get_peer link;
  match p with
  | None => mret (inr LinkClosed, None)
  | Some _ =>
      h ← NodeBind.get_txn link txn;
      match h with
      | None => mret (inr UnknownTransaction, None)
      | Some h => r ← m h; _ ← drop_handle h; mret r
      end
  end.
Definition at_node (m : M (unit + NodeBind.InstallTetherError)) : M Result :=
  r ← m; mret (of_node (NodeBind.tether_error r), None).
Definition at_adapter (m : M (option FlowPacket + AdapterTables.InstallTetherError)) : M Result :=
  r ← m; mret match r with inl p => (inl tt, p) | inr _ => (inr UnknownTransaction, None) end.

Definition adopted_window (w : option Z) (link : Z) : M unit :=
  match w with Some w => adjust_window link (Z.min w 65535) | None => mret tt end.

(** The TLVs of a hello response and the identity providers that fit behind them. *)
Definition hello_head (w : option Z) : list (@TlvEncoding TlvVisa) :=
  [new_policy_id 0; new_version VERSION_STRING] ++
  match w with Some w => [new_window_size (Z.min w 65535)] | None => [] end.
Definition advertised (w : option Z) (idps : list OidcIdpInfo) : list OidcIdpInfo :=
  fitting (heap_room - zlen (concat (tlv_wire <$> hello_head w))) idps.

Definition received (window_first : bool) (link : Z) (w : option Z) (m : Msg) : M Result :=
  match m with
  | StreamIdRequest _ txn visa => permitted link TNode (NodeBind.request_stream link txn visa)
  | BindEgressStreamRequest _ txn tc key => permitted link TDock (bind_egress_stream link txn tc key)
  | StreamIdSuccessResponse _ txn tether | BindEgressStreamSuccessResponse _ txn tether =>
      answered link txn (fun h => at_node (NodeBind.install_tether link h tether))
  | StreamIdErrorResponse _ txn r | BindEgressStreamErrorResponse _ txn r =>
      answered link txn (fun h => at_node (NodeBind.deny_tether link h (reason_text r)))
  | BindActorAddressSuccessResponse _ txn tether tc key =>
      answered link txn (fun h => at_adapter
        (on_flows link (fun y => AdapterTables.install_tether derive_key diffie_hellman y (th_id h) tether tc key)))
  | BindActorAddressErrorResponse _ txn _ =>
      answered link txn (fun h => at_adapter
        (r ← on_flows link (fun y => AdapterTables.deny_tether y (th_id h));
         mret match r with inl _ => inl None | inr e => inr e end))
  | UnbindEgressStreamRequest _ stream => no_packet (handle_unbind_indication link stream)
  | StreamIdWithdrawal _ stream => no_packet (handle_stream_id_withdrawal link stream)
  | HelloRequest _ key =>
      mode ← gets ph_mode;
      if bool_decide (mode = Node) then
        _ ← (if window_first
             then _ ← adopted_window w link; update_peer link (set_a2a_dh_pubkey (Some key))
             else _ ← update_peer link (set_a2a_dh_pubkey (Some key)); adopted_window w link);
        no_packet (event link ReceivedHelloRequest)
      else mret (inr MessageNotPermitted, None)
  | HelloSuccessResponse _ idps aaa =>
      _ ← adopted_window w link;
      no_packet (event link (ReceivedHelloResponse ResponseCode.Success aaa
        (match advertised w idps with [] => None | l => Some l end)))
  | InitAuthenticationRequest _ p => no_packet (event link (ReceivedInitAuth true (Some p)))
  | RenewAuthenticationRequest _ p => no_packet (event link (ReceivedRenewAuthRequest p))
  | RenewAuthenticationResponse _ code challenge blob =>
      no_packet (event link (ReceivedRenewAuthResponse challenge
        (if code =? ResponseCode.Success then inl blob else inr code)))
  | AcquireZprAddressRequest _ addrs blob =>
      no_packet (event link (ReceivedAcquireZprAddressRequest
        (match addrs with [] => None | l => Some l end) blob))
  | GrantZprAddressRequest _ code addrs =>
      no_packet (event link (ReceivedGrantZprAddressRequest
        (if code =? ResponseCode.Success then inl addrs else inr code)))
  | TerminateLink _ reason => no_packet (event link (ReceivedTerminateLink reason))
  | EchoRequest _ => mret (inl tt, None)
  end.

(** ** Values in range *)
Definition u16 (x : Z) : Prop := 0 <= x < 2 ^ 16.
Notation u32 := PeerTableProps.u32.
Definition reason_ok (r : RejectReason) : Prop :=
  match r with PeerReason t => zlen t <= 255 /\ utf8_valid t = true | _ => True end.
Definition payload_ok (p : ZdpInitAuthenticationPayload) : Prop :=
  length (Auth.nonce p) = 8%nat /\ length (Auth.hmac p) = 32%nat /\ u64 (Auth.ctime p).
Definition msg_ok (m : Msg) : Prop :=
  match m with
  | StreamIdRequest _ txn visa => u16 txn /\ u64 visa
  | BindEgressStreamRequest _ txn tc key => u16 txn /\ tc_wf tc /\ key_ok key
  | StreamIdSuccessResponse _ txn tether | BindEgressStreamSuccessResponse _ txn tether => u16 txn /\ u32 tether
  | StreamIdErrorResponse _ txn r | BindEgressStreamErrorResponse _ txn r
  | BindActorAddressErrorResponse _ txn r => u16 txn /\ reason_ok r
  | BindActorAddressSuccessResponse _ txn tether tc key => u16 txn /\ u32 tether /\ tc_wf tc /\ key_ok key
  | UnbindEgressStreamRequest _ stream | StreamIdWithdrawal _ stream => u32 stream
  | HelloRequest _ key => length key = 32%nat
  | HelloSuccessResponse _ _ aaa =>
      match aaa with Some a => length a = 16%nat /\ bytes_ok a | None => True end
  | InitAuthenticationRequest _ p | RenewAuthenticationRequest _ p => payload_ok p
  | RenewAuthenticationResponse _ code challenge blob =>
      length challenge = 48%nat /\ 51 + zlen blob <= heap_room /\
      (code = ResponseCode.Success -> 0 < zlen blob /\ utf8_valid blob = true)
  | AcquireZprAddressRequest _ addrs blob =>
      addrs_ok addrs /\ 0 < zlen blob /\ utf8_valid blob = true /\
      4 + zlen blob + zlen (concat (addr_bytes <$> addrs)) <= heap_room
  | GrantZprAddressRequest _ code addrs =>
      addrs_ok addrs /\ 3 + zlen (concat (addr_bytes <$> addrs)) <= heap_room /\
      (code = ResponseCode.Success -> addrs <> [])
  | TerminateLink _ _ | EchoRequest _ => True
  end.

(** ** Packets and their headers *)

Lemma flow_packet link t x body :
  Zdp.is_per_flow t = true -> u32 x ->
  handle_packet link ([t; 0] ++ be_bytes 8 0 ++ be_bytes 4 x ++ body) = handle_per_flow default_ft link t x body.
Proof.
  intros Ht Hx. unfold handle_packet. cbn [app Zdp.read_base].
  change (be_bytes 8 0) with (Zdp.mgmt_bytes (Zdp.mkMgmt 0)). rewrite Zdp.read_mgmt_bytes by (unfold u64; lia).
  cbn [Zdp.packet_type]. rewrite Ht, read_header_app by apply zlen_be.
  by rewrite from_be_be_bytes, Z.mod_small.
Qed.

Lemma other_packet link t body :
  Zdp.is_per_flow t = false ->
  handle_packet link ([t; 0] ++ be_bytes 8 0 ++ body) =
  no_packet (handle_non_flow VISA_SERVICE_DN env tlv_iter link t body).
Proof.
  intros Ht. unfold handle_packet. cbn [app Zdp.read_base].
  change (be_bytes 8 0) with (Zdp.mgmt_bytes (Zdp.mkMgmt 0)). rewrite Zdp.read_mgmt_bytes by (unfold u64; lia).
  cbn [Zdp.packet_type]. by rewrite Ht.
Qed.

(** A message is understood as [m]. *)
Definition understood (link : Z) (o : outcome Request) (m : M Result) : Prop :=
  exists bs, (r ← o; packet_bytes r) = Ret bs /\ forall s, handle_packet link bs s = m s.

Lemma other_understood t body link o m :
  carries t None None body o -> Zdp.is_per_flow t = false -> t <> Zdp.KeyManagement ->
  (forall s, no_packet (handle_non_flow VISA_SERVICE_DN env tlv_iter link t body) s = m s) ->
  understood link o m.
Proof.
  intros (p & -> & Hb) Hf Hk Hm. exists ([t; 0] ++ be_bytes 8 0 ++ body). split.
  - rewrite bind_Ret. unfold packet_bytes, MgmtCore.mgmt_packet. cbn [rq_type rq_stream rq_txn rq_packet].
    by rewrite Hf, (proj2 (Z.eqb_neq _ _)), Hb by done.
  - intros s. by rewrite other_packet.
Qed.

Lemma flow_understood t x txn body link o m :
  carries t (Some x) txn body o -> Zdp.is_per_flow t = true -> u32 x ->
  (forall s, handle_per_flow default_ft link t x
     (match txn with Some n => be_bytes 2 n | None => [] end ++ body) s = m s) ->
  understood link o m.
Proof.
  intros (p & -> & Hb) Hf Hx Hm.
  exists ([t; 0] ++ be_bytes 8 0 ++ be_bytes 4 x ++ match txn with Some n => be_bytes 2 n | None => [] end ++ body).
  split.
  - rewrite bind_Ret. unfold packet_bytes, MgmtCore.mgmt_packet. cbn [rq_type rq_stream rq_txn rq_packet].
    assert (t =? Zdp.KeyManagement = false) as ->.
    { apply Z.eqb_neq. intros ->. by vm_compute in Hf. }
    by rewrite Hf, Hb.
  - intros s. by rewrite flow_packet.
Qed.

(** ** Flows *)

Lemma txn_read txn body : u16 txn ->
  read_header 2 (be_bytes 2 txn ++ body) = Some (be_bytes 2 txn, body) /\ u16_at 0 (be_bytes 2 txn) = txn.
Proof.
  intros Ht. split; [apply read_header_app, zlen_be|].
  rewrite <- (app_nil_r (be_bytes 2 txn)). by apply (u16_at_app [] txn []).
Qed.

(** Decides the tests of a packet's type. *)
Ltac dispatch :=
  unfold handle_per_flow, handle_non_flow;
  repeat match goal with
  | |- context [?a =? ?b] =>
      let r := eval vm_compute in (a =? b) in
      lazymatch r with true => change (a =? b) with true | false => change (a =? b) with false end
  end; cbv iota.

Lemma stream_id_request_understood link txn visa :
  u16 txn -> u64 visa ->
  understood link (send_stream_id_request txn visa) (permitted link TNode (NodeBind.request_stream link txn visa)).
Proof.
  intros Ht Hv. apply (flow_understood Zdp.StreamIdRequest 0 (Some txn) (be_bytes 8 visa)); [|done|done|].
  - unfold send_stream_id_request. rewrite new_heap_packet_ret, bind_Ret, push_ret, bind_Ret
      by (lia || (rewrite zlen_be; lia)). eexists. split; [done|]. cbn [Pkt.body]. by rewrite app_nil_r.
  - intros s. dispatch. destruct (txn_read txn (be_bytes 8 visa) Ht) as [-> ->].
    unfold NodeBind.handle_stream_id_request, permitted. rewrite (proj2 (Z.ltb_ge _ _)) by (rewrite zlen_be; lia).
    rewrite take_ge, from_be_be_bytes, Z.mod_small by (by rewrite ?length_be_bytes).
    destruct (link =? 0); [done|]. rewrite !run_bind. unfold NodeBind.peer_type_by_id. rewrite !run_bind.
    cbn [get_peer gets mret M_ret]. destruct (match PeerTable.get _ _ with Some _ => _ | None => _ end); try done.
    cbn [bool_decide]. rewrite (bool_decide_eq_true_2 (TNode = TNode)) by done. rewrite !run_bind.
    by destruct (NodeBind.request_stream link txn visa s) as [[[] s']|].
Qed.

Lemma bind_request_understood link txn tc key :
  u16 txn -> tc_wf tc -> key_ok key ->
  understood link (send_bind_egress_stream_request txn tc key)
    (permitted link TDock (bind_egress_stream link txn tc key)).
Proof.
  intros Ht Htc Hk. destruct (bind_request_carries room txn tc key Htc Hk) as (body & Hc & Hr).
  apply (flow_understood Zdp.BindEgressStreamRequest 0 (Some txn) body); [done|done|done|].
  intros s. dispatch. destruct (txn_read txn body Ht) as [-> ->].
  unfold handle_bind_egress_stream_request, permitted. rewrite Hr.
  destruct (link =? 0); [done|]. unfold no_packet. rewrite !run_bind. unfold NodeBind.peer_type_by_id.
  rewrite !run_bind. cbn [get_peer gets mret M_ret].
  destruct (match PeerTable.get _ _ with Some _ => _ | None => _ end); try done.
  rewrite (bool_decide_eq_true_2 (TDock = TDock)) by done. rewrite !run_bind.
  by destruct (bind_egress_stream link txn tc key s) as [[[] s']|].
Qed.

(** An adapter's request for a tether: the front of the packet that needs one. *)
Lemma actor_request_understood link txn l3 body :
  u16 txn ->
  understood link (send_bind_actor_address_request txn l3 body)
    (permitted link TAdapter (NodeBind.bind_actor_address default_ft link txn
       (take (Z.to_nat BIND_REQUEST_MAX_PAYLOAD_LENGTH) body))).
Proof.
  intros Ht. set (n := Z.min BIND_REQUEST_MAX_PAYLOAD_LENGTH (zlen body)).
  set (front := take (Z.to_nat BIND_REQUEST_MAX_PAYLOAD_LENGTH) body).
  assert (take (Z.to_nat n) body = front) as Hfront.
  { unfold front, n. destruct (Z.leb_spec BIND_REQUEST_MAX_PAYLOAD_LENGTH (zlen body)).
    - by rewrite Z.min_l.
    - rewrite Z.min_r by lia. rewrite !take_ge by (unfold zlen in *; lia). done. }
  assert (zlen front = n) as Hz.
  { unfold front, zlen. rewrite length_take. unfold n, zlen, BIND_REQUEST_MAX_PAYLOAD_LENGTH. lia. }
  assert (0 <= n <= 256) as Hn by (pose proof (zlen_nonneg body); unfold n, BIND_REQUEST_MAX_PAYLOAD_LENGTH; lia).
  set (hdr := [l3] ++ be_bytes 2 n). assert (zlen hdr = 3) as Hh by done.
  apply (flow_understood Zdp.BindActorAddressRequest 0 (Some txn) (hdr ++ front)); [|done|done|].
  - unfold send_bind_actor_address_request. fold n hdr. rewrite Hfront.
    rewrite new_heap_packet_ret, bind_Ret, push_ret, bind_Ret, put_ret, bind_Ret by lia.
    eexists. split; [done|]. cbn [Pkt.body]. by rewrite app_nil_r.
  - intros s. dispatch. destruct (txn_read txn (hdr ++ front) Ht) as [-> ->].
    unfold NodeBind.handle_bind_actor_address_request, permitted.
    rewrite (proj2 (Z.ltb_ge _ _)) by (rewrite zlen_app; pose proof (zlen_nonneg front); lia).
    assert (from_be (take 2 (drop 1 (hdr ++ front))) = n) as ->.
    { change (drop 1 (hdr ++ front)) with (be_bytes 2 n ++ front). rewrite take_app_length' by done.
      rewrite from_be_be_bytes, Z.mod_small; [done|]. simpl. lia. }
    change (drop 3 (hdr ++ front)) with front. cbv zeta. rewrite Hz, Z.ltb_irrefl.
    rewrite take_ge by (unfold zlen in Hz; lia).
    destruct (link =? 0); [done|]. rewrite !run_bind. unfold NodeBind.peer_type_by_id. rewrite !run_bind.
    cbn [get_peer gets mret M_ret]. destruct (match PeerTable.get _ _ with Some _ => _ | None => _ end); try done.
    rewrite (bool_decide_eq_true_2 (TAdapter = TAdapter)) by done. rewrite !run_bind.
    by destruct (NodeBind.bind_actor_address default_ft link txn front s) as [[[] s']|].
Qed.

(** *** Answers *)

Lemma reason_text_ok r : reason_ok r -> zlen (reason_text r) <= 255 /\ utf8_valid (reason_text r) = true.
Proof. destruct r; cbn [reason_ok reason_text]; intros; [by vm_compute..|done]. Qed.

(** A handler that looks the transaction up and lets it go when it is done. *)
Lemma next_hop_answered link txn x pkt (m : TxnHandle -> M (unit + NodeBind.InstallTetherError)) s :
  (forall h s, NodeBind.next_hop_answer utf8_valid link h x pkt s =
     (r ← m h; mret (NodeBind.tether_error r) : M _) s) ->
  (r ← NodeBind.handle_next_hop_response utf8_valid link txn x pkt; mret (of_node r, None) : M Result) s =
  answered link txn (fun h => at_node (m h)) s.
Proof.
  intros Hm. unfold NodeBind.handle_next_hop_response, answered. rewrite bind_bind. apply bind_ext.
  intros [p|] s1; [|done]. rewrite bind_bind. apply bind_ext. intros [h|] s2; [|done].
  unfold at_node. rewrite !run_bind, Hm, !run_bind. destruct (m h s2) as [[r s3]|]; [|done].
  cbn [mret M_ret]. rewrite !run_bind. by destruct (drop_handle h s3) as [[[] s4]|].
Qed.

Lemma success_understood t link txn tether :
  t = Zdp.StreamIdResponse \/ t = Zdp.BindEgressStreamResponse -> u16 txn -> u32 tether ->
  understood link (success_response t txn tether)
    (answered link txn (fun h => at_node (NodeBind.install_tether link h tether))).
Proof.
  intros Ht Hu Hx. apply (flow_understood t tether (Some txn) [ResponseCode.Success; 0]);
    [by apply success_carries|by destruct Ht as [-> | ->]|done|].
  intros s. destruct (txn_read txn [ResponseCode.Success; 0] Hu) as [E1 E2].
  destruct Ht as [-> | ->]; dispatch; rewrite E1, E2; by apply next_hop_answered.
Qed.

Lemma denied_understood t link txn r :
  t = Zdp.StreamIdResponse \/ t = Zdp.BindEgressStreamResponse -> u16 txn -> reason_ok r ->
  understood link (error_response t txn (reason_text r))
    (answered link txn (fun h => at_node (NodeBind.deny_tether link h (reason_text r)))).
Proof.
  intros Ht Hu Hr. destruct (reason_text_ok r Hr) as [Hl Hv].
  apply (flow_understood t 0 (Some txn) (ResponseCode.Other :: zlen (reason_text r) :: reason_text r));
    [by apply error_carries|by destruct Ht as [-> | ->]|done|].
  intros s. destruct (txn_read txn (ResponseCode.Other :: zlen (reason_text r) :: reason_text r) Hu) as [E1 E2].
  assert (forall h s, NodeBind.next_hop_answer utf8_valid link h 0
    (ResponseCode.Other :: zlen (reason_text r) :: reason_text r) s =
    (e ← NodeBind.deny_tether link h (reason_text r); mret (NodeBind.tether_error e) : M _) s) as Hd.
  { intros h s'. cbn [NodeBind.next_hop_answer].
    change (ResponseCode.Other =? LinkTypes.ResponseCode.Success) with false.
    change (ResponseCode.Other =? LinkTypes.ResponseCode.Other) with true. cbv iota.
    rewrite Z.ltb_irrefl, take_ge, Hv by (unfold zlen; lia). done. }
  destruct Ht as [-> | ->]; dispatch; rewrite E1, E2; by apply next_hop_answered.
Qed.

(** The adapter's answers. *)
Lemma bind_answered link txn x pkt m s :
  (forall h s, bind_answer link h x pkt s = m h s) ->
  handle_bind_actor_address_response link txn x pkt s = answered link txn m s.
Proof.
  intros Hm. unfold handle_bind_actor_address_response, answered. apply bind_ext.
  intros [p|] s1; [|done]. apply bind_ext. intros [h|] s2; [|done].
  by rewrite !run_bind, Hm.
Qed.

Lemma tether_understood link txn tether tc key :
  u16 txn -> u32 tether -> tc_wf tc -> key_ok key ->
  understood link (send_bind_actor_address_success_response txn tether tc key)
    (answered link txn (fun h => at_adapter
      (on_flows link (fun y => AdapterTables.install_tether derive_key diffie_hellman y (th_id h) tether tc key)))).
Proof.
  intros Hu Hx Htc Hk. destruct (bind_answer_carries room txn tether tc key Htc Hk) as (body & Hc & Hr).
  apply (flow_understood Zdp.BindActorAddressResponse tether (Some txn) (ResponseCode.Success :: 0 :: body));
    [done|done|done|].
  intros s. dispatch. destruct (txn_read txn (ResponseCode.Success :: 0 :: body) Hu) as [-> ->].
  apply bind_answered. intros h s'. unfold bind_answer. rewrite read_header_2.
  change (nth 0 [ResponseCode.Success; 0] 0 =? ResponseCode.Success) with true. cbv zeta iota. rewrite Hr.
  unfold at_adapter. apply bind_ext. by intros [p|[]] s1.
Qed.

Lemma refusal_understood link txn r :
  u16 txn -> reason_ok r ->
  understood link (send_bind_actor_address_error_response txn (reason_text r))
    (answered link txn (fun h => at_adapter
      (r ← on_flows link (fun y => AdapterTables.deny_tether y (th_id h));
       mret match r with inl _ => inl None | inr e => inr e end))).
Proof.
  intros Hu Hr. destruct (reason_text_ok r Hr) as [Hl Hv].
  apply (flow_understood Zdp.BindActorAddressResponse 0 (Some txn)
    (ResponseCode.Other :: zlen (reason_text r) :: reason_text r)); [by apply error_carries|done|done|].
  intros s. dispatch.
  destruct (txn_read txn (ResponseCode.Other :: zlen (reason_text r) :: reason_text r) Hu) as [-> ->].
  apply bind_answered. intros h s'. unfold bind_answer. rewrite read_header_2. cbv zeta. cbn [nth].
  change (ResponseCode.Other =? ResponseCode.Success) with false.
  change (ResponseCode.Other =? ResponseCode.Other) with true. cbv iota.
  rewrite Z.ltb_irrefl, take_ge, Hv by (unfold zlen; lia). cbn [negb].
  unfold at_adapter. rewrite bind_bind. apply bind_ext. by intros [[]|[]] s1.
Qed.

(** *** Indications *)
Lemma unbind_understood link x :
  u32 x -> understood link (send_unbind_egress_stream_request x) (no_packet (handle_unbind_indication link x)).
Proof.
  intros Hx. apply (flow_understood Zdp.UnbindEgressStreamIndication x None []); [|done|done|done].
  unfold send_unbind_egress_stream_request. rewrite new_heap_packet_ret, bind_Ret by lia. by eexists.
Qed.
Lemma withdrawal_understood link x :
  u32 x -> understood link (send_stream_id_withdrawal x) (no_packet (handle_stream_id_withdrawal link x)).
Proof.
  intros Hx. apply (flow_understood Zdp.StreamIdWithdrawal x None []); [|done|done|done].
  unfold send_stream_id_withdrawal. rewrite new_heap_packet_ret, bind_Ret by lia. by eexists.
Qed.

(** ** Events *)

Lemma zlen_challenge p : payload_ok p -> zlen (challenge_bytes p) = 48.
Proof. intros (Hn & Hh & _). unfold challenge_bytes. rewrite !zlen_app, zlen_be. unfold zlen. lia. Qed.
Lemma challenge_read p : payload_ok p -> payload_of (challenge_bytes p) = p.
Proof. intros (? & ? & ?). by apply payload_challenge. Qed.

Ltac build :=
  rewrite new_heap_packet_ret by lia; rewrite bind_Ret;
  repeat first [rewrite put_ret by zl | rewrite push_ret by zl | rewrite bind_Ret].

Lemma init_auth_understood link p :
  payload_ok p ->
  understood link (send_init_authentication_request 1 p) (no_packet (event link (ReceivedInitAuth true (Some p)))).
Proof.
  intros Hp. pose proof (zlen_challenge p Hp) as Hz. set (hdr := [1] ++ be_bytes 2 48).
  apply (other_understood Zdp.InitAuthenticationRequest (hdr ++ challenge_bytes p)); [|done|done|].
  - unfold send_init_authentication_request. fold hdr. assert (zlen hdr = 3) as Hh by done.
    rewrite new_heap_packet_ret, bind_Ret, put_ret, bind_Ret, put_ret, bind_Ret by lia. by eexists.
  - intros s. dispatch. unfold handle_init_authentication_request. rewrite read_header_app by done.
    change (u16_at 1 hdr) with 48. change (negb (Z.land (nth 0 hdr 0) BOOTSTRAP_SUPPORT =? 0)) with true.
    change (48 =? 0) with false. change (48 <? 48) with false. cbv zeta iota.
    rewrite Hz. change (48 <? 48) with false. cbv iota. by rewrite read_header_all, challenge_read.
Qed.

Lemma renew_auth_understood link p :
  payload_ok p ->
  understood link (send_renew_authentication_request p) (no_packet (event link (ReceivedRenewAuthRequest p))).
Proof.
  intros Hp. pose proof (zlen_challenge p Hp) as Hz. set (hdr := be_bytes 2 48).
  apply (other_understood Zdp.RenewAuthenticationRequest (hdr ++ challenge_bytes p)); [|done|done|].
  - unfold send_renew_authentication_request. fold hdr. assert (zlen hdr = 2) as Hh by done.
    rewrite new_heap_packet_ret, bind_Ret, put_ret, bind_Ret, put_ret, bind_Ret by lia. by eexists.
  - intros s. dispatch. unfold handle_renew_authentication_request. rewrite read_header_app by done.
    change (u16_at 0 hdr) with 48. change (48 <? 48) with false. cbv iota.
    rewrite Hz. change (48 <? 48) with false. cbv iota. by rewrite read_header_all, challenge_read.
Qed.

Lemma heap_room_small : heap_room < 2 ^ 16.
Proof.
  pose proof PacketBuf.layout_link. unfold heap_room, SMALL_PACKET_BUFFER_SIZE, Pkt.DEFAULT_MESSAGE_HEADROOM. lia.
Qed.

Lemma renewal_understood link code challenge blob :
  length challenge = 48%nat -> 51 + zlen blob <= heap_room ->
  (code = ResponseCode.Success -> 0 < zlen blob /\ utf8_valid blob = true) ->
  understood link (send_renew_authentication_response code challenge blob)
    (no_packet (event link (ReceivedRenewAuthResponse challenge
      (if code =? ResponseCode.Success then inl blob else inr code)))).
Proof.
  intros Hc Hr Hb. pose proof heap_room_small. pose proof (zlen_nonneg blob).
  set (hdr := [code] ++ be_bytes 2 (zlen blob) ++ challenge).
  assert (zlen hdr = 51) as Hh by (unfold hdr; rewrite !zlen_app, zlen_be; unfold zlen; rewrite Hc; done).
  apply (other_understood Zdp.RenewAuthenticationResponse (hdr ++ blob)); [|done|done|].
  - unfold send_renew_authentication_response. fold hdr.
    rewrite new_heap_packet_ret, bind_Ret, put_ret, bind_Ret, put_ret, bind_Ret by lia. by eexists.
  - intros s. dispatch. unfold handle_renew_authentication_response. rewrite read_header_app by done.
    change (nth 0 hdr 0) with code. change (drop 3 hdr) with challenge.
    assert (u16_at 1 hdr = zlen blob) as -> by (apply (u16_at_app [code]); lia). cbv zeta.
    destruct (Z.eqb_spec code ResponseCode.Success) as [Hs|]; [|done]. destruct (Hb Hs) as [Hpos Hu].
    unfold read_blob. rewrite (proj2 (Z.eqb_neq _ 0)), read_header_all by (done || lia).
    cbn [mbind option_bind]. by rewrite Hu.
Qed.

Lemma acquire_understood link addrs blob :
  addrs_ok addrs -> 0 < zlen blob -> utf8_valid blob = true ->
  4 + zlen blob + zlen (concat (addr_bytes <$> addrs)) <= heap_room ->
  understood link (send_acquire_zpr_address_request (to_std <$> addrs) blob)
    (no_packet (event link (ReceivedAcquireZprAddressRequest (match addrs with [] => None | l => Some l end) blob))).
Proof.
  intros Ha Hb Hu Hr. destruct (acquire_carries room addrs blob Ha Hb Hu Hr) as (body & Hc & Hp).
  apply (other_understood Zdp.AcquireZprAddress body); [done|done|done|].
  intros s. dispatch. unfold handle_acquire_zpr_address_request. by rewrite Hp.
Qed.

Lemma grant_understood link code addrs :
  addrs_ok addrs -> 3 + zlen (concat (addr_bytes <$> addrs)) <= heap_room ->
  (code = ResponseCode.Success -> addrs <> []) ->
  understood link (send_grant_zpr_address_request code (to_std <$> addrs))
    (no_packet (event link (ReceivedGrantZprAddressRequest
      (if code =? ResponseCode.Success then inl addrs else inr code)))).
Proof.
  intros Ha Hr Hne. destruct (grant_carries room code addrs Ha Hr) as (body & Hc & Hp).
  apply (other_understood Zdp.GrantZprAddress body); [done|done|done|].
  intros s. dispatch. unfold handle_grant_zpr_address_request. rewrite Hp.
  destruct (Z.eqb_spec code ResponseCode.Success) as [Hs|]; [|done].
  specialize (Hne Hs). by destruct addrs.
Qed.

Lemma terminate_understood link reason :
  understood link (send_terminate_link_or_docking_session reason)
    (no_packet (event link (ReceivedTerminateLink reason))).
Proof.
  apply (other_understood Zdp.TerminateLinkOrDockingSession [reason; 0]); [|done|done|done].
  unfold send_terminate_link_or_docking_session. build. by eexists.
Qed.

Lemma echo_understood link : understood link send_echo_request (mret (inl tt, None)).
Proof.
  apply (other_understood Zdp.Echo [0; 0]); [|done|done|done]. unfold send_echo_request. build. by eexists.
Qed.

(** ** Hellos *)
Definition window_ok (w : option Z) : Prop := match w with Some w => 0 <= w | None => True end.
Notation Encoding := (@TlvEncoding TlvVisa).
Definition window_tlv (w : option Z) : list Encoding :=
  match w with Some w => [new_window_size (Z.min w 65535)] | None => [] end.

Lemma window_sendable w : window_ok w -> Forall sendable (window_tlv w) /\ zlen (concat (tlv_wire <$> window_tlv w)) <= 4.
Proof.
  destruct w as [w|]; cbn [window_ok window_tlv]; intros Hw; [|by split; [constructor|]].
  split; [|by cbn]. constructor; [|constructor]. split; [|done]. split; [done|]. cbn. lia.
Qed.

Lemma put_window_ret w b m h bd t :
  window_ok w -> 4 <= t ->
  put_window_size_tlv w (Pkt.mkPacket b m h bd t) =
  Ret (Pkt.mkPacket b m h (bd ++ concat (tlv_wire <$> window_tlv w)) (t - zlen (concat (tlv_wire <$> window_tlv w)))).
Proof.
  intros Hw Ht. destruct (window_sendable w Hw) as [Hs Hl].
  destruct w as [w|]; cbn [put_window_size_tlv window_tlv fmap list_fmap concat] in *.
  - apply list.Forall_cons in Hs as [Hs _]. rewrite app_nil_r in *. by rewrite put_tlv_ret by (done || lia).
  - by rewrite app_nil_r, Z.sub_0_r.
Qed.

(** The map of what was written, and its iteration. *)
Lemma tlv_map_some (es : list Encoding) k v :
  tlv_map es !! k = Some v -> v = vals k es /\ exists e, e ∈ es /\ tlv_type e = k.
Proof.
  rewrite tlv_map_lookup. destruct (vals k es) as [|x l] eqn:Hv; [done|]. intros [= <-]. split; [done|].
  assert (x ∈ vals k es) as Hx by (rewrite Hv; constructor). unfold vals in Hx.
  apply list_elem_of_fmap in Hx as (e & _ & He). apply list_elem_of_filter in He as [Ht He]. by exists e.
Qed.

Lemma iter_facts m :
  NoDup (fst <$> tlv_iter m) /\ (list_to_map (tlv_iter m) : gmap Z (list (@TlvValue TlvVisa))) = m /\
  forall k v, (k, v) ∈ tlv_iter m -> m !! k = Some v.
Proof.
  pose proof (tlv_iter_all m) as Hp.
  assert (NoDup (fst <$> tlv_iter m)) as Hnd by (rewrite Hp; apply NoDup_fst_map_to_list).
  split; [done|]. split.
  - rewrite (list_to_map_proper _ _ Hnd Hp). apply list_to_map_to_list.
  - intros k v Hin. rewrite Hp in Hin. by apply elem_of_map_to_list.
Qed.

Lemma hello_request_understood link w key :
  window_ok w -> length key = 32%nat ->
  exists window_first, forall l, understood link (send_hello_request w key) (received window_first link w (HelloRequest l key)).
Proof.
  intros Hw Hk. destruct (window_sendable w Hw) as [Hs Hl].
  set (es := window_tlv w ++ [new_a2a_dh_pubkey key]).
  assert (sendable (new_a2a_dh_pubkey key)) as Hks by done.
  assert (zlen (tlv_wire (new_a2a_dh_pubkey key)) = 34) as Hkl by (change (zlen ([7; 32] ++ key) = 34); rewrite zlen_app; unfold zlen; rewrite Hk; done).
  assert (Forall sendable es) as Hes by (apply list.Forall_app; split; [done|by constructor]).
  destruct (iter_facts (tlv_map es)) as (Hnd & Hmap & Hin).
  assert (vals WINDOW_SIZE es = value <$> window_tlv w /\ vals A2A_DH_PUBKEY es = [X25519PubKey key]) as [Vw Vk]
    by (by destruct w).
  destruct (request_tlvs_told link (tlv_iter (tlv_map es)) Hnd) as [wf Hwf].
  { apply list.Forall_forall. intros [k v] Hkv. destruct (tlv_map_some es k v (Hin k v Hkv)) as (-> & e & He & <-).
    unfold es in He. apply elem_of_app in He as [He|He]; [left|right].
    - destruct w as [w|]; [|by apply not_elem_of_nil in He]. apply list_elem_of_singleton in He. subst e.
      cbn [fst snd]. split; [done|]. change (tlv_type _) with WINDOW_SIZE. rewrite Vw. by eexists.
    - apply list_elem_of_singleton in He. subst e. cbn [fst snd]. split; [done|].
      change (tlv_type _) with A2A_DH_PUBKEY. rewrite Vk. by eexists. }
  exists wf. intros l.
  apply (other_understood Zdp.HelloRequest (concat (tlv_wire <$> es))); [|done|done|].
  - unfold send_hello_request. rewrite new_heap_packet_ret, bind_Ret, put_window_ret, bind_Ret by (done || lia).
    rewrite put_tlv_ret, bind_Ret by (done || lia). eexists. split; [done|]. cbn [Pkt.body].
    unfold es. by rewrite fmap_app, concat_app; cbn; rewrite app_nil_r.
  - intros s. dispatch. unfold handle_hello_request, no_packet. cbn [received]. rewrite bind_bind.
    apply bind_ext. intros mode s1. destruct (bool_decide (mode = Node)); cbn [negb]; [|done].
    rewrite parse_written by done. rewrite !run_bind. unfold lift at 1. rewrite bind_Ret.
    rewrite !run_bind, Hwf, Hmap, !run_bind. unfold told_both. rewrite !tlv_map_lookup, Vw, Vk.
    assert (forall s, told_window link (match value <$> window_tlv w with [] => None | l => Some l end) s =
      adopted_window w link s) as Ew by (intros; by destruct w).
    destruct wf; rewrite !run_bind, ?Ew; cbn [told_key].
    + destruct (adopted_window w link s1) as [[[] s2]|]; [|done].
      by destruct (update_peer link (set_a2a_dh_pubkey (Some key)) s2) as [[[] s3]|].
    + destruct (update_peer link (set_a2a_dh_pubkey (Some key)) s1) as [[[] s2]|]; [|done]. rewrite Ew.
      by destruct (adopted_window w link s2) as [[[] s3]|].
Qed.

(** The TLVs of a hello response. *)
Definition aaa_tlv (aaa : option (list Z)) : list Encoding :=
  match aaa with Some a => [new_aaa (to_std a)] | None => [] end.
Definition response_tlvs (w : option Z) (idps : list OidcIdpInfo) (aaa : option (list Z)) : list Encoding :=
  hello_head w ++ (idp_tlv <$> advertised w idps) ++ aaa_tlv aaa.
Definition aaa_ok (aaa : option (list Z)) : Prop :=
  match aaa with Some a => length a = 16%nat /\ bytes_ok a | None => True end.

Lemma aaa_sendable a :
  aaa_ok (Some a) ->
  sendable (new_aaa (to_std a) : Encoding) /\ zlen (tlv_wire (new_aaa (to_std a) : Encoding)) <= 18 /\
  read_aaa [value (new_aaa (to_std a) : Encoding)] None = Some (Some a).
Proof.
  intros [Hl Hb]. unfold to_std. destruct (is_v4 a) eqn:Hv.
  - destruct (v4_bytes a Hl Hv) as (Hl4 & Hback & Hbytes). split_and!.
    + split; [|done]. split_and!; [by left|done|by apply Hbytes].
    + change (zlen ([AAA; 4] ++ read_as_v4 a) <= 18). rewrite zlen_app. unfold zlen. rewrite Hl4. done.
    + cbn. by rewrite Hback.
  - split_and!; [|change (zlen ([AAA; 16] ++ a) <= 18); rewrite zlen_app; unfold zlen; by rewrite Hl|done].
    split; [|done]. split; [by left|done].
Qed.

Lemma head_sendable w :
  window_ok w -> Forall sendable (hello_head w) /\ zlen (concat (tlv_wire <$> hello_head w)) <= 300.
Proof.
  intros Hw. destruct (window_sendable w Hw) as [Hs Hl], version_ok as [Hu Hv].
  assert (sendable (new_policy_id 0 : Encoding) /\ sendable (new_version VERSION_STRING : Encoding)) as [Hp Hver].
  { split; (split; [|done]). - split; [done|]. cbn. lia. - split; [by left|done]. }
  unfold hello_head. fold (window_tlv w). split.
  - apply list.Forall_app. split; [|done]. by repeat constructor.
  - rewrite fmap_app, concat_app, zlen_app. cbn [fmap list_fmap concat]. rewrite app_nil_r, zlen_app.
    destruct (sendable_wire _ Hver) as [_ Hlen]. cbn in Hlen. injection Hlen as Hlen. rewrite <- Hlen.
    change (zlen (tlv_wire (new_policy_id 0))) with 10. lia.
Qed.

Lemma vals_app ty (es es' : list Encoding) : vals ty (es ++ es') = vals ty es ++ vals ty es'.
Proof. unfold vals. by rewrite filter_app, fmap_app. Qed.
Lemma vals_idps ty l :
  vals ty (idp_tlv <$> l) = if ty =? OIDC_IDP then (fun i => Str (idp_json i)) <$> l else [].
Proof.
  unfold vals. induction l as [|i l IH]; [by destruct (_ =? _)|]. cbn [fmap list_fmap].
  rewrite filter_cons. cbn [idp_tlv tlv_type]. destruct (Z.eqb_spec ty OIDC_IDP) as [->|Hne].
  - rewrite decide_True by done. cbn. by rewrite IH.
  - rewrite decide_False by congruence. done.
Qed.

(** The values of each type that the receiver looks at. *)
Lemma response_vals w idps aaa :
  let es := response_tlvs w idps aaa in
  vals VERSION es <> [] /\ vals POLICY_ID es <> [] /\
  vals WINDOW_SIZE es = value <$> window_tlv w /\
  vals OIDC_IDP es = ((fun i => Str (idp_json i)) <$> advertised w idps) /\
  vals AAA es = value <$> aaa_tlv aaa.
Proof.
  cbn zeta. unfold response_tlvs, hello_head. fold (window_tlv w). rewrite !vals_app, !vals_idps.
  split_and!; try by destruct w, aaa.
  - destruct w, aaa; cbn; by rewrite ?app_nil_r.
Qed.

Lemma fitting_json idps : forall t, Forall (fun i => is_Some (idp_to_string i)) (fitting t idps).
Proof.
  induction idps as [|i r IH]; intros t; [constructor|]. cbn [fitting].
  destruct (idp_to_string i) as [s|] eqn:Hs; [|done]. destruct (_ <? _); [done|].
  destruct (_ <? _); [constructor|]. constructor; [by eexists|done].
Qed.

Lemma read_idps_back l : forall d,
  Forall (fun i => is_Some (idp_to_string i)) l ->
  read_oidc_idps ((fun i => Str (idp_json i)) <$> l) d = Some (d ++ l).
Proof.
  induction l as [|i l IH]; intros d Hl; [by rewrite app_nil_r|].
  apply list.Forall_cons in Hl as [[s Hs] Hl]. cbn [fmap list_fmap read_oidc_idps].
  assert (idp_json i = s) as -> by (unfold idp_json; by rewrite Hs). destruct (idp_back i s Hs) as [_ ->].
  rewrite IH by done. by rewrite <- app_assoc.
Qed.

Lemma response_entries w idps aaa :
  aaa_ok aaa -> Forall (response_entry None) (tlv_iter (tlv_map (response_tlvs w idps aaa))).
Proof.
  intros Ha. set (es := response_tlvs w idps aaa). destruct (iter_facts (tlv_map es)) as (_ & _ & Hin).
  destruct (response_vals w idps aaa) as (Vv & Vp & Vw & Vi & Va). fold es in Vv, Vp, Vw, Vi, Va.
  apply list.Forall_forall. intros [k v] Hkv.
  destruct (tlv_map_some es k v (Hin k v Hkv)) as (Hv & e & He & Ht). unfold response_entry. cbn [fst snd].
  unfold es, response_tlvs, hello_head in He. fold (window_tlv w) in He.
  rewrite !elem_of_app in He. destruct He as [[He|He]|[He|He]].
  - left. rewrite !elem_of_cons in He. destruct He as [->|[->|He]]; [| |by apply not_elem_of_nil in He];
      cbn in Ht; subst; auto.
  - right; left. destruct w as [w|]; [|by apply not_elem_of_nil in He].
    apply list_elem_of_singleton in He. subst e. cbn in Ht. subst k v. split; [done|]. rewrite Vw. by eexists.
  - right; right; right. apply list_elem_of_fmap in He as (i & -> & _). cbn in Ht. subst k v. split; [done|].
    intros d. rewrite Vi, read_idps_back by apply fitting_json. by eexists.
  - right; right; left. destruct aaa as [a|]; [|by apply not_elem_of_nil in He].
    apply list_elem_of_singleton in He. subst e. destruct (aaa_sendable a Ha) as (_ & _ & Hr).
    cbn in Ht. subst k v. split; [done|]. rewrite Va. by eexists.
Qed.

Lemma response_carries w idps aaa :
  window_ok w -> aaa_ok aaa ->
  carries Zdp.HelloResponse None None (ResponseCode.Success :: concat (tlv_wire <$> response_tlvs w idps aaa))
    (send_hello_success_response w 0 idps aaa) /\ Forall sendable (response_tlvs w idps aaa).
Proof.
  intros Hw Ha. destruct (window_sendable w Hw) as [Hws Hwl], (head_sendable w Hw) as [Hhs Hhl].
  unfold hello_head in Hhs. apply list.Forall_app in Hhs as [Hhs _].
  rewrite !list.Forall_cons in Hhs. destruct Hhs as (Hp & Hv & _). split.
  - unfold send_hello_success_response. rewrite new_heap_packet_ret, bind_Ret, push_ret, bind_Ret
      by (lia || zl).
    assert (zlen (concat (tlv_wire <$> hello_head w)) =
      zlen (tlv_wire (new_policy_id 0)) + zlen (tlv_wire (new_version VERSION_STRING)) +
      zlen (concat (tlv_wire <$> window_tlv w))) as Hsum.
    { unfold hello_head. fold (window_tlv w). rewrite fmap_app, concat_app, zlen_app. cbn [fmap list_fmap concat].
      rewrite app_nil_r, zlen_app. done. }
    pose proof (zlen_nonneg (tlv_wire (new_policy_id 0))).
    pose proof (zlen_nonneg (tlv_wire (new_version VERSION_STRING))).
    pose proof (zlen_nonneg (concat (tlv_wire <$> window_tlv w))).
    rewrite put_tlv_ret, bind_Ret, put_tlv_ret, bind_Ret by (done || lia).
    rewrite put_window_ret, bind_Ret by (done || lia).
    match goal with |- context [put_oidc_idps idps (Pkt.mkPacket ?b ?m ?h ?bd ?t)] =>
      replace t with (heap_room - zlen (concat (tlv_wire <$> hello_head w))) by lia;
      destruct (put_oidc_ret idps b m h bd (heap_room - zlen (concat (tlv_wire <$> hello_head w))))
        as (t' & -> & Ht') end; [unfold HELLO_RESPONSE_TAILROOM; lia|].
    rewrite bind_Ret. fold (advertised w idps).
    assert (forall f : Pkt.Packet -> outcome Request, forall b m h bd,
      (match aaa with Some a => put_tlv (new_aaa (to_std a)) (Pkt.mkPacket b m h bd t') |
         None => mret (Pkt.mkPacket b m h bd t') end ≫= f) =
      f (Pkt.mkPacket b m h (bd ++ concat (tlv_wire <$> aaa_tlv aaa))
           (t' - zlen (concat (tlv_wire <$> aaa_tlv aaa))))) as Ea.
    { intros f b m h bd. destruct aaa as [a|]; cbn [aaa_tlv fmap list_fmap concat].
      - destruct (aaa_sendable a Ha) as (Has & Hal & _). unfold HELLO_RESPONSE_TAILROOM in Ht'.
        rewrite app_nil_r, put_tlv_ret, bind_Ret by (done || lia). done.
      - by rewrite app_nil_r, Z.sub_0_r. }
    rewrite Ea. eexists. split; [done|]. cbn [Pkt.body app]. unfold response_tlvs, hello_head.
    fold (window_tlv w). rewrite !fmap_app, !concat_app. cbn [fmap list_fmap concat]. by rewrite <- !app_assoc.
  - unfold response_tlvs. apply list.Forall_app. split; [by apply head_sendable|].
    apply list.Forall_app. split; [apply Forall_fmap, fitting_sendable|].
    destruct aaa as [a|]; [|constructor]. constructor; [|constructor]. by apply aaa_sendable.
Qed.

Lemma hello_response_understood link w l idps aaa window_first :
  window_ok w -> aaa_ok aaa ->
  understood link (send_hello_success_response w 0 idps aaa)
    (received window_first link w (HelloSuccessResponse l idps aaa)).
Proof.
  intros Hw Ha. destruct (response_carries w idps aaa Hw Ha) as [Hc Hs].
  apply (other_understood _ _ link _ _ Hc); [done|done|]. intros s. dispatch.
  destruct (iter_facts (tlv_map (response_tlvs w idps aaa))) as (Hnd & Hmap & _).
  destruct (response_vals w idps aaa) as (_ & _ & Vw & Vi & Va).
  unfold handle_hello_response, parse_hello_response, no_packet. rewrite read_header_1.
  cbn [received nth]. rewrite parse_written by done. rewrite !run_bind. unfold lift at 1. rewrite bind_Ret.
  rewrite run_bind, hello_tlvs_told by (done || by apply response_entries).
  rewrite Hmap, run_bind, !tlv_map_lookup, Vw, Vi, Va.
  assert (told_window link (match value <$> window_tlv w with [] => None | l => Some l end) s =
    adopted_window w link s) as -> by (by destruct w).
  destruct (adopted_window w link s) as [[[] s1]|]; [|done]. cbn [mret M_ret].
  assert (told_aaa (match value <$> aaa_tlv aaa with [] => None | l => Some l end) None = aaa) as ->.
  { destruct aaa as [a|]; [|done]. destruct (aaa_sendable a Ha) as (_ & _ & Hr).
    cbn [aaa_tlv fmap list_fmap told_aaa]. by rewrite Hr. }
  assert (told_idps (match (fun i => Str (idp_json i)) <$> advertised w idps with [] => None | l => Some l end) [] =
    advertised w idps) as ->; [|by destruct (advertised w idps)].
  destruct (advertised w idps) as [|i r] eqn:Hadv; [done|].
  assert (Forall (fun i => is_Some (idp_to_string i)) (i :: r)) as Hj
    by (rewrite <- Hadv; apply fitting_json).
  pose proof (read_idps_back (i :: r) [] Hj) as Hr. cbn [fmap list_fmap told_idps] in Hr |- *. by rewrite Hr.
Qed.

(** ** Every message *)

(** C4. What a peer does with a management message is what the sender meant: when its
    values are in range, writing the message does not overflow its packet, and the
    bytes, handled at the other end of the link, are the operation the message
    stands for, with its values unchanged: a request of a node or a dock, the answer
    to an open transaction, an event of the link with the challenge, credential or
    addresses sent, or the window, the key and the identity providers of a hello. *)
Theorem messages_understood link w m :
  window_ok w -> msg_ok m ->
  exists bs window_first, message_bytes w m = Ret bs /\
    forall s, handle_packet link bs s = received window_first link w m s.
Proof.
  intros Hw Hm.
  enough (exists wf, understood link (request w m) (received wf link w m)) as (wf & bs & Hbs & Hh)
    by (by exists bs, wf).
  destruct m; cbn [msg_ok request] in *; 
    lazymatch goal with |- context [send_hello_request] => idtac | _ => exists true; cbn [received] end.
  - destruct Hm. by apply stream_id_request_understood.
  - destruct Hm as (? & ? & ?). by apply bind_request_understood.
  - destruct Hm. apply success_understood; [by right|done|done].
  - destruct Hm. apply denied_understood; [by right|done|done].
  - destruct Hm. apply success_understood; [by left|done|done].
  - destruct Hm. apply denied_understood; [by left|done|done].
  - destruct Hm as (? & ? & ? & ?). by apply tether_understood.
  - destruct Hm. by apply refusal_understood.
  - by apply unbind_understood.
  - by apply withdrawal_understood.
  - destruct (hello_request_understood link w pubkey Hw Hm) as (wf & Hwf). by exists wf.
  - by apply (hello_response_understood link w link0 idps aaa true).
  - by apply init_auth_understood.
  - by apply renew_auth_understood.
  - destruct Hm as (? & ? & ?). by apply renewal_understood.
  - destruct Hm as (? & ? & ? & ?). by apply acquire_understood.
  - destruct Hm as (? & ? & ?). by apply grant_understood.
  - apply terminate_understood.
  - apply echo_understood.
Qed.

(** ** The largest credential *)

Lemma put_overflows xs p : Pkt.tailroom p < zlen xs -> Pkt.put xs p = Panic.
Proof. intros Hx. unfold Pkt.put, rust_assert. by rewrite (proj2 (Z.leb_gt _ _)). Qed.

Lemma put_addrs_panics v4 addrs : forall b m h bd t,
  family v4 addrs -> 0 <= t < zlen (concat (addr_bytes <$> addrs)) ->
  put_addrs (version v4) (to_std <$> addrs) (Pkt.mkPacket b m h bd t) = Panic.
Proof.
  induction addrs as [|a r IH]; intros b m h bd t Hf Ht; [change (0 <= t < 0) in Ht; lia|].
  apply list.Forall_cons in Hf as [[_ Hv] Hf]. cbn [fmap list_fmap concat] in *. rewrite zlen_app in Ht.
  assert (forall p, put_addrs (version v4) (to_std a :: (to_std <$> r)) p =
    (p' ← Pkt.put (addr_bytes a) p; put_addrs (version v4) (to_std <$> r) p')) as ->.
  { intros p. unfold to_std at 1, addr_bytes. rewrite Hv.
    destruct v4; cbn [put_addrs version]; by rewrite Z.eqb_refl. }
  destruct (Z.leb_spec (zlen (addr_bytes a)) t).
  - rewrite put_ret, bind_Ret by done. apply IH; [done|]. lia.
  - rewrite put_overflows; [done|]. cbn. lia.
Qed.

(** How large a credential may be: an address request panics exactly when the
    credential and the addresses asked for exceed the packet, whose size is fixed.
    Nothing before the call bounds them. *)
Theorem acquire_overflows_iff v4 addrs blob :
  family v4 addrs ->
  send_acquire_zpr_address_request (to_std <$> addrs) blob = Panic <->
  heap_room < 4 + zlen blob + zlen (concat (addr_bytes <$> addrs)).
Proof.
  intros Hf. destruct (version_mixed addrs v4 Hf) as (v & Hfv & Hv).
  pose proof (zlen_nonneg (concat (addr_bytes <$> addrs))). pose proof (zlen_nonneg blob).
  unfold send_acquire_zpr_address_request. rewrite Hv.
  set (hdr := be_bytes 2 (zlen blob) ++ [version v; wrap 8 (zlen (to_std <$> addrs))]).
  assert (zlen hdr = 4) as Hh by done. rewrite new_heap_packet_ret, bind_Ret, put_ret, bind_Ret by lia.
  destruct (Z.leb_spec (4 + zlen blob) heap_room).
  2:{ rewrite put_overflows by (cbn [Pkt.tailroom]; lia). split; [lia|done]. }
  rewrite put_ret, bind_Ret by lia.
  destruct (Z.leb_spec (4 + zlen blob + zlen (concat (addr_bytes <$> addrs))) heap_room).
  - rewrite put_addrs_ret by (done || lia). split; [done|lia].
  - rewrite put_addrs_panics by (done || lia). split; [lia|done].
Qed.

(** ** Messages that do not fit their packets *)

(** Writing addresses: of the family announced, within the room that is left. *)
Lemma put_addrs_exact v4 addrs : forall b m h bd t, 0 <= t ->
  put_addrs (version v4) (to_std <$> addrs) (Pkt.mkPacket b m h bd t) =
  if forallb (fun a => Bool.eqb (is_v4 a) v4) addrs && (zlen (concat (addr_bytes <$> addrs)) <=? t)
  then Ret (Pkt.mkPacket b m h (bd ++ concat (addr_bytes <$> addrs)) (t - zlen (concat (addr_bytes <$> addrs))))
  else Panic.
Proof.
  assert ((version v4 =? Ipv4) = v4 /\ (version v4 =? Ipv6) = negb v4) as [E4 E6].
  { pose proof l3_distinct. unfold version. destruct v4; rewrite Z.eqb_refl, (proj2 (Z.eqb_neq _ _)) by congruence; done. }
  induction addrs as [|a r IH]; intros b m h bd t Ht.
  { cbn. rewrite (proj2 (Z.leb_le _ _)) by (unfold zlen; cbn; lia). by rewrite app_nil_r, Z.sub_0_r. }
  cbn [fmap list_fmap concat forallb]. pose proof (zlen_nonneg (concat (addr_bytes <$> r))).
  assert (forall p, put_addrs (version v4) (to_std a :: (to_std <$> r)) p =
    if Bool.eqb (is_v4 a) v4 then p' ← Pkt.put (addr_bytes a) p; put_addrs (version v4) (to_std <$> r) p' else Panic) as ->.
  { intros p. unfold to_std at 1, addr_bytes. destruct (is_v4 a); cbn [put_addrs]; rewrite ?E4, ?E6; by destruct v4. }
  destruct (Bool.eqb (is_v4 a) v4); [|done]. cbn [andb]. rewrite zlen_app.
  destruct (Z.leb_spec (zlen (addr_bytes a)) t) as [Hle|Hgt].
  - rewrite put_ret, bind_Ret, IH by (done || lia).
    destruct (forallb _ r); [|done]. cbn [andb].
    destruct (Z.leb_spec (zlen (concat (addr_bytes <$> r))) (t - zlen (addr_bytes a))).
    + rewrite (proj2 (Z.leb_le _ _)), <- app_assoc by lia. do 2 f_equal. lia.
    + by rewrite (proj2 (Z.leb_gt _ _)) by lia.
  - rewrite put_overflows by (cbn [Pkt.tailroom]; lia).
    by rewrite (proj2 (Z.leb_gt _ _)), andb_false_r by lia.
Qed.

(** Addresses of both families. *)
Definition mixed (addrs : list (list Z)) : Prop := exists a b, a ∈ addrs /\ b ∈ addrs /\ is_v4 a <> is_v4 b.

Lemma mixed_exact addrs :
  exists v4, ip_version_of (to_std <$> addrs) = version v4 /\
    (forallb (fun a => Bool.eqb (is_v4 a) v4) addrs = false <-> mixed addrs).
Proof.
  destruct addrs as [|a r].
  { exists false. split; [done|]. split; [done|]. intros (a & _ & Ha & _). by apply not_elem_of_nil in Ha. }
  exists (is_v4 a). split; [cbn; unfold to_std; by destruct (is_v4 a)|].
  rewrite <- not_true_iff_false, forallb_forall. split.
  - intros Hn. destruct (decide (Exists (fun b => is_v4 b <> is_v4 a) (a :: r))) as [Hx|Hx].
    + apply Exists_exists in Hx as (b & Hb & Hne). exists a, b. split_and!; [by left|done|congruence].
    + destruct Hn. intros b Hb%list_elem_of_In. apply eqb_true_iff. apply dec_stable. intros Hne.
      apply Hx, Exists_exists. eauto.
  - intros (b & c & Hb & Hc & Hne) Hall.
    apply list_elem_of_In, Hall, (proj1 (eqb_true_iff _ _)) in Hb. apply list_elem_of_In, Hall, (proj1 (eqb_true_iff _ _)) in Hc. congruence.
Qed.

(** A packet of type [t] outside flows is built unless [P]. *)
Definition built_unless (t : Z) (o : outcome Request) (P : Prop) : Prop :=
  (o = Panic /\ P) \/ ((exists p, o = Ret (mkRequest t None None p)) /\ ~ P).

Lemma acquire_built addrs blob :
  built_unless Zdp.AcquireZprAddress (send_acquire_zpr_address_request (to_std <$> addrs) blob)
    (mixed addrs \/ heap_room < 4 + zlen blob + zlen (concat (addr_bytes <$> addrs))).
Proof.
  destruct (mixed_exact addrs) as (v & Hv & Hm). pose proof (zlen_nonneg (concat (addr_bytes <$> addrs))).
  unfold send_acquire_zpr_address_request, built_unless. rewrite Hv.
  set (hdr := be_bytes 2 (zlen blob) ++ [version v; wrap 8 (zlen (to_std <$> addrs))]).
  assert (zlen hdr = 4) as Hh by done. rewrite new_heap_packet_ret, bind_Ret, put_ret, bind_Ret by lia.
  destruct (Z.leb_spec (4 + zlen blob) heap_room).
  2:{ rewrite put_overflows by (cbn [Pkt.tailroom]; lia). left. split; [done|]. right. lia. }
  rewrite put_ret, bind_Ret, put_addrs_exact by lia.
  destruct (forallb _ addrs) eqn:Ef; cbn [andb].
  - destruct (Z.leb_spec (zlen (concat (addr_bytes <$> addrs))) (heap_room - zlen hdr - zlen blob)).
    + right. split; [by eexists|]. intros [?%Hm|?]; [done|lia].
    + left. split; [done|]. right. lia.
  - left. split; [done|]. left. by apply Hm.
Qed.

Lemma grant_built code addrs :
  built_unless Zdp.GrantZprAddress (send_grant_zpr_address_request code (to_std <$> addrs))
    (mixed addrs \/ heap_room < 3 + zlen (concat (addr_bytes <$> addrs))).
Proof.
  destruct (mixed_exact addrs) as (v & Hv & Hm).
  unfold send_grant_zpr_address_request, built_unless. rewrite Hv.
  set (hdr := [code; version v; wrap 8 (zlen (to_std <$> addrs))]).
  assert (zlen hdr = 3) as Hh by done. rewrite new_heap_packet_ret, bind_Ret, put_ret, bind_Ret, put_addrs_exact by lia.
  destruct (forallb _ addrs) eqn:Ef; cbn [andb].
  - destruct (Z.leb_spec (zlen (concat (addr_bytes <$> addrs))) (heap_room - zlen hdr)).
    + right. split; [by eexists|]. intros [?%Hm|?]; [done|lia].
    + left. split; [done|]. right. lia.
  - left. split; [done|]. left. by apply Hm.
Qed.

Lemma renewal_built code challenge blob :
  length challenge = 48%nat ->
  built_unless Zdp.RenewAuthenticationResponse (send_renew_authentication_response code challenge blob)
    (heap_room < 51 + zlen blob).
Proof.
  intros Hc. unfold send_renew_authentication_response, built_unless.
  set (hdr := [code] ++ be_bytes 2 (zlen blob) ++ challenge).
  assert (zlen hdr = 51) as Hh by (unfold hdr; rewrite !zlen_app, zlen_be; unfold zlen; rewrite Hc; done).
  rewrite new_heap_packet_ret, bind_Ret, put_ret, bind_Ret by lia.
  destruct (Z.leb_spec (51 + zlen blob) heap_room).
  - rewrite put_ret, bind_Ret by lia. right. split; [by eexists|lia].
  - rewrite put_overflows by (cbn [Pkt.tailroom]; lia). by left.
Qed.

Lemma built_bytes t o P :
  built_unless t o P -> Zdp.is_per_flow t = false -> t <> Zdp.KeyManagement -> (o ≫= packet_bytes) = Panic <-> P.
Proof.
  intros [[-> HP]|[[p ->] HP]] Hf Hk; [done|]. rewrite bind_Ret. unfold packet_bytes, MgmtCore.mgmt_packet. cbn.
  rewrite Hf, (proj2 (Z.eqb_neq _ _)) by done. by split.
Qed.

(** What the Rust types fix of a link's message: the sizes of keys, challenges and
    addresses, and that a window is not negative. *)
Definition typed (w : option Z) (m : Msg) : Prop :=
  window_ok w /\
  match m with
  | HelloRequest _ key => length key = 32%nat
  | HelloSuccessResponse _ _ aaa => aaa_ok aaa
  | InitAuthenticationRequest _ p | RenewAuthenticationRequest _ p => payload_ok p
  | RenewAuthenticationResponse _ _ challenge _ => length challenge = 48%nat
  | UnbindEgressStreamRequest _ stream | StreamIdWithdrawal _ stream => u32 stream
  | _ => True
  end.

(** The messages of a link that cannot be written: addresses of both families, and
    credentials or addresses beyond the size of the packet. *)
Inductive unwritable : Msg -> Prop :=
| acquire_mixed l addrs blob : mixed addrs -> unwritable (AcquireZprAddressRequest l addrs blob)
| acquire_long l addrs blob : heap_room < 4 + zlen blob + zlen (concat (addr_bytes <$> addrs)) ->
    unwritable (AcquireZprAddressRequest l addrs blob)
| grant_mixed l code addrs : mixed addrs -> unwritable (GrantZprAddressRequest l code addrs)
| grant_long l code addrs : heap_room < 3 + zlen (concat (addr_bytes <$> addrs)) ->
    unwritable (GrantZprAddressRequest l code addrs)
| renewal_long l code challenge blob : heap_room < 51 + zlen blob ->
    unwritable (RenewAuthenticationResponse l code challenge blob).

Lemma written_iff w m :
  LinkInv.link_message m = true -> typed w m -> message_bytes w m = Panic <-> unwritable m.
Proof.
  intros Hl [Hw Ht].
  assert (forall o r, understood 0 o r -> ~ unwritable m -> (o ≫= packet_bytes) = Panic <-> unwritable m) as Hu
    by (intros o r (bs & Hbs & _) Hn; change (o ≫= packet_bytes) with (r0 ← o; packet_bytes r0); rewrite Hbs; by split).
  unfold message_bytes. destruct m; try discriminate Hl; cbn [typed request] in *.
  1: by eapply Hu; [by apply unbind_understood|inversion 1].
  1: by eapply Hu; [by apply withdrawal_understood|inversion 1].
  1: by destruct (hello_request_understood 0 w pubkey Hw Ht) as (wf & Hwf); eapply Hu; [apply (Hwf 0)|inversion 1].
  1: by eapply Hu; [by apply (hello_response_understood 0 w 0 idps aaa true)|inversion 1].
  1: by eapply Hu; [by apply init_auth_understood|inversion 1].
  1: by eapply Hu; [by apply renew_auth_understood|inversion 1].
  1: { rewrite (built_bytes _ _ _ (renewal_built _ _ blob Ht)) by done. split; [by constructor|by inversion 1]. }
  1: { rewrite (built_bytes _ _ _ (acquire_built _ blob)) by done.
       split; [intros [?|?]; [by apply acquire_mixed|by apply acquire_long]|inversion 1; auto]. }
  1: { rewrite (built_bytes _ _ _ (grant_built code _)) by done.
       split; [intros [?|?]; [by apply grant_mixed|by apply grant_long]|inversion 1; auto]. }
  1: by eapply Hu; [apply terminate_understood|inversion 1].
  1: by eapply Hu; [apply echo_understood|inversion 1].
Qed.

End meaning.
End HandlersThms.
