(* ===== verification/HandlersSafe.v ===== *)
(** * Links and management packets, with the packets they send

    An event of a link, and a packet outside flows, of any type and with any bytes,
    handled on any link: what they do, and the only ways in which they stop the program,
    the packets that the handlers write in turn included.  The events are covered by
    what [LinkHandlers] shows of the links, the packets by [HandlersThms]. *)
From Stdlib Require Import ZArith Lia.
From stdpp Require Import base tactics option list numbers gmap.
From S2P Require Import Prelude Slab NetDefs Tc Tlv TlvProps PacketBuf Pkt Zdp ZdprReceiver ZdprSender MgmtCore ForwardingTables TxnMgr AdapterTables Auth LinkTypes PeerTable PeerTableProps VisaTable AddressPool Assembly LinkFsm LinkInv LinkDrop LinkProtocol LinkHandlers LinkThms NodeBind Requests Handlers HandlersProps HandlersThms.
From stdpp Require Import list.
Import PacketBuf(Layout, md_size).
Import Tlv TlvProps Auth LinkTypes PeerTable PeerTableProps Asm LinkInv LinkDrop LinkProtocol LinkHandlers LinkThms Requests Handlers HandlersProps.

Local Open Scope Z_scope.

Module HandlersSafe.

(** ** Parsed TLVs *)
Section parsed.
Context {Visa : Type} (read_visa : list Z -> option Visa).

(** A type that is in the map has a value. *)
Definition inhabited_map (m : gmap Z (list (@TlvValue Visa))) : Prop := forall k v, m !! k = Some v -> v <> [].

Lemma push_inhabited m ty v : inhabited_map m -> inhabited_map (push_value m ty v).
Proof.
  intros Hm k v' Hk. unfold push_value in Hk. destruct (decide (k = ty)) as [->|Hne].
  - rewrite lookup_insert_eq in Hk. injection Hk as <-. by destruct (default [] _).
  - rewrite lookup_insert_ne in Hk by done. eauto.
Qed.

Lemma parse_inhabited buf m : parse_from_buf read_visa buf = Ret (inl m) -> inhabited_map m.
Proof.
  unfold parse_from_buf. assert (inhabited_map ∅) as He by (intros k v; by rewrite lookup_empty).
  revert He. generalize (∅ : gmap Z (list (@TlvValue Visa))). generalize (S (length buf)). intros fuel. revert buf.
  induction fuel as [|fuel IH]; intros buf m0 He Hp; [done|]. cbn [parse_loop] in Hp.
  destruct (negb (1 <=? zlen buf)); [by injection Hp as <-|].
  destruct (get_u8 buf) as [[ty buf1]|]; [|done]. rewrite bind_Ret in Hp.
  destruct (ty =? NULL); [by eapply IH|]. destruct (zlen buf1 <? 1); [done|].
  destruct (get_u8 buf1) as [[len buf2]|]; [|done]. rewrite bind_Ret in Hp.
  destruct (zlen buf2 <? len); [done|].
  destruct (parse_value read_visa ty len buf2) as [[[[v|] buf3]|e]|]; cbn in Hp; try done.
  - eapply IH; [|exact Hp]. by apply push_inhabited.
  - by eapply IH.
Qed.
End parsed.

Section safe.
Context `{NetDefs} `{Crypto} `{VisaEnv} `{TunCtl} `{FlowTables} `{Slab slab} `{!Wire} `{!AdapterFlows} `{Layout}.
Context (VISA_SERVICE_DN : list Z) (default_ft : FiveTuple) (env : Env) (room : 1024 <= heap_room).
Context (tlv_iter : gmap Z (list (@TlvValue TlvVisa)) -> list (Z * list (@TlvValue TlvVisa))).
Context (tlv_iter_all : forall m, tlv_iter m ≡ₚ map_to_list m).

Notation M := (M slab).
Notation Value := (@TlvValue TlvVisa).
Implicit Types (s : Assembly slab) (p : PeerState slab).
Notation event := (link_event VISA_SERVICE_DN env).
Notation lk p := (link_state_machine p).
Notation st p := (get_state (link_state_machine p)).
Notation ty p := (link_type (link_state_machine p)).

(** A report that is shown badly: its header is skipped a second time, and what is then
    taken for the text has to be there and to be UTF-8. *)
Definition bad_report (body : list Z) : Prop :=
  2 <= zlen body < 4 \/
  (4 <= zlen body /\ let n := from_be (take 2 body) in
   n <= zlen body - 4 /\ utf8_valid (take (Z.to_nat n) (drop 4 body)) = false).

Lemma report_same body s r s' : handle_report body s = Ret (r, s') -> s' = s.
Proof.
  unfold handle_report. destruct (read_header 2 body) as [[hdr b]|]; [|by intros [= _ <-]]. cbv zeta.
  unfold assert, lift, mbind, M_bind, rust_assert.
  destruct (2 <=? zlen b); [|done]. destruct (_ <=? _); [destruct (utf8_valid _)|]; try done; by intros [= _ <-].
Qed.

Lemma report_panics body s : handle_report body s = Panic <-> bad_report body.
Proof.
  unfold handle_report, bad_report, read_header. destruct (Z.ltb_spec (zlen body) 2) as [|Hl].
  { split; [done|]. intros [?|[? _]]; lia. }
  assert (u16_at 0 (take (Z.to_nat 2) body) = from_be (take 2 body)) as ->.
  { unfold u16_at. by rewrite drop_0, take_take. }
  change (Z.to_nat 2) with 2%nat. cbv zeta. unfold assert, lift, mbind, M_bind, rust_assert.
  assert (zlen (drop 2 body) = zlen body - 2) as -> by (unfold zlen in *; rewrite length_drop; lia).
  destruct (Z.leb_spec 2 (zlen body - 2)) as [Hl4|Hl4]; cbn.
  2:{ split; [|done]. intros _. left. lia. }
  rewrite drop_drop. cbn [Nat.add].
  assert (zlen (drop 4 body) = zlen body - 4) as -> by (unfold zlen in *; rewrite length_drop; lia).
  destruct (Z.leb_spec (from_be (take 2 body)) (zlen body - 4)) as [Hn|Hn]; cbn.
  - destruct (utf8_valid _) eqn:Hu; cbn; split; try done.
    + intros [?|(_ & _ & ?)]; [lia|done].
    + intros _. right. split_and!; done || lia.
  - split; [done|]. intros [?|(_ & ? & _)]; lia.
Qed.

Context (l : Z) (Hl : u32 l).

(** ** What is sent *)

(** A message that the step from [s] to [s'] sent. *)
Definition newly_sent s s' (m : Msg) : Prop := m ∈ drop (length (sent s)) (sent s').
(** It does not fit a packet, if its values have the sizes of their types. *)
Definition does_not_fit s' (m : Msg) : Prop :=
  HandlersThms.typed (window_of (peer_table s') (Requests.link_of m)) m -> HandlersThms.unwritable m.

Lemma sends_new s s' : sends s s' -> Forall (fun m => link_message m = true) (drop (length (sent s)) (sent s')).
Proof. intros (ms & -> & Hms). by rewrite drop_app_length. Qed.
Lemma sends_from s0 s s' : sent s = sent s0 -> sends s s' -> sends s0 s'.
Proof. unfold sends. by intros ->. Qed.

Lemma write_all_panics (t : PeerTable slab) ms :
  Forall (fun m => link_message m = true) ms -> write_all t ms = Panic ->
  exists m, m ∈ ms /\ (HandlersThms.typed (window_of t (Requests.link_of m)) m -> HandlersThms.unwritable m).
Proof.
  induction 1 as [|m r Hm _ IH]; [done|]. cbn [write_all].
  destruct (message_bytes _ m) as [bs|] eqn:Em.
  - rewrite bind_Ret. destruct (write_all t r); [done|]. intros _. destruct (IH eq_refl) as (x & Hx & Hu).
    exists x. split; [by right|done].
  - intros _. exists m. split; [by left|]. intros Ht.
    by apply (HandlersThms.written_iff VISA_SERVICE_DN (mkFT [] [] 0 0 0 0) env map_to_list (fun _ => reflexivity _) room _ m Hm Ht).
Qed.

(** A handler that keeps to a link's messages stops the program for its own reasons,
    or because one of its messages does not fit. *)
Lemma with_packets_spec {A} (m : M A) s (E : Prop) (Q : A -> Assembly slab -> Prop) :
  wpe E m s (fun a s' => sends s s' /\ Q a s') ->
  match with_packets m s with
  | Panic => E \/ exists a s' x, m s = Ret (a, s') /\ newly_sent s s' x /\ does_not_fit s' x
  | Ret (a, s') => Q a s'
  end.
Proof.
  unfold wpe, with_packets. destruct (m s) as [[a s']|]; cbn; [|by left]. intros [Hs HQ].
  destruct (write_all _ _) eqn:Ew; cbn; [done|]. right.
  destruct (write_all_panics _ _ (sends_new _ _ Hs) Ew) as (x & Hx & Hu). by exists a, s', x.
Qed.

(** What the events of a packet rest on: the link, if it is there, is in order. *)
Definition in_order s0 s : Prop :=
  (address_pool s = address_pool s0 /\ tun s = tun s0 /\ sent s = sent s0) /\
  forall p, get (peer_table s) l = Some p -> link_ok s p.

Lemma w_update_peer E s0 s f (Q : unit -> Assembly slab -> Prop) :
  in_order s0 s ->
  (forall p, link_state_machine (f p) = link_state_machine p /\ zdpr_recv (f p) = zdpr_recv p) ->
  (forall s', in_order s0 s' -> Q tt s') -> wpe E (update_peer l f) s Q.
Proof.
  intros [Hp Hok] Hf HQ. apply HQ. split; [done|]. intros p. cbn. rewrite get_update, decide_True by done.
  destruct (get (peer_table s) l) as [q|]; [|done]. intros [= <-]. destruct (Hok q eq_refl) as (He & Hc & Hi & Hr).
  destruct (Hf q) as [Hlk Hrx]. unfold link_ok, clock_ok, peer_inv. rewrite Hlk, Hrx. done.
Qed.

Lemma w_adjust E s0 s w : in_order s0 s -> wpe E (adjust_window l w) s (fun _ => in_order s0).
Proof.
  intros Hs. unfold adjust_window. destruct (Z.ltb_spec w 1) as [|Hw]; [by apply wpe_ret|].
  apply wpe_bind, wpe_get_peer. destruct (get (peer_table s) l) as [p|]; [|by apply wpe_ret].
  apply wpe_bind. unfold Tx.adjust_window_size, rust_assert. rewrite (proj2 (Z.leb_le _ _)) by lia.
  apply wpe_lift; [|done]. intros a _. by eapply w_update_peer.
Qed.

Lemma w_window_tlv E s0 v : forall s,
  in_order s0 s -> wpe E (process_window_size_tlv l v) s (fun _ => in_order s0).
Proof.
  induction v as [|x v IH]; intros s Hs; [by apply wpe_ret|]. destruct x; try by apply wpe_ret.
  cbn [process_window_size_tlv]. apply wpe_bind. eapply wpe_mono; [by eapply w_adjust|done|]. intros ? s' Hs'. by apply IH.
Qed.

Lemma w_key_tlv E s0 v : forall s,
  in_order s0 s -> wpe E (process_a2a_dh_pubkey_tlv l v) s (fun _ => in_order s0).
Proof.
  induction v as [|x v IH]; intros s Hs; [by apply wpe_ret|]. destruct x; try by apply wpe_ret.
  cbn [process_a2a_dh_pubkey_tlv]. apply wpe_bind. eapply w_update_peer; [done|done|]. intros s' Hs'. by apply IH.
Qed.

Lemma w_hello_tlvs E s0 (kvs : list (Z * list Value)) : forall s,
  in_order s0 s -> wpe E (process_hello_tlvs l kvs) s (fun _ => in_order s0).
Proof.
  induction kvs as [|[ty v] kvs IH]; intros s Hs; [by apply wpe_ret|]. cbn [process_hello_tlvs].
  apply wpe_bind. apply (wpe_mono E E _ _ (fun _ => in_order s0)); [|done|].
  - destruct (ty =? _); [by apply w_window_tlv|]. destruct (ty =? _); [by apply w_key_tlv|by apply wpe_ret].
  - intros [[]|e] s' Hs'; [by apply IH|by apply wpe_ret].
Qed.

Lemma w_response_tlvs E s0 (kvs : list (Z * list Value)) : forall aaa idps s,
  in_order s0 s -> Forall (fun kv => kv.2 <> []) kvs ->
  wpe E (hello_response_tlvs l kvs aaa idps) s (fun _ => in_order s0).
Proof.
  induction kvs as [|[ty v] kvs IH]; intros aaa idps s Hs Hne; [by apply wpe_ret|]. cbn [hello_response_tlvs].
  apply list.Forall_cons in Hne as [Hv Hne]. cbn in Hv.
  destruct (_ || _).
  - apply wpe_bind. destruct v as [|x v]; [done|]. apply wpe_lift; [|done]. intros _ _. by apply IH.
  - destruct (ty =? WINDOW_SIZE).
    + apply wpe_bind. eapply wpe_mono; [by apply w_window_tlv|done|].
      intros [[]|e] s' Hs'; [by apply IH|by apply wpe_ret].
    + destruct (ty =? AAA); [destruct (read_aaa v aaa); [by apply IH|by apply wpe_ret]|].
      destruct (ty =? OIDC_IDP); [destruct (read_oidc_idps v idps); [by apply IH|by apply wpe_ret]|by apply IH].
Qed.

Lemma order_sends s0 s : in_order s0 s -> sends s0 s.
Proof. intros [(_ & _ & Hse) _]. by apply sends_same. Qed.
#[local] Hint Resolve order_sends : core.

(** *** Events *)

Lemma settled_sends ev s p s' : settles l ev s p s' \/ (ev = CloseDone /\ gone l s s') -> sends s s'.
Proof. intros [(p' & ts' & n & Hat & _)|[_ Hg]]; [apply Hat|apply Hg]. Qed.

Lemma w_event s0 s ev :
  in_order s0 s -> event_ok ev -> wpe (trouble env l s ev) (event l ev) s (fun _ => sends s0).
Proof.
  intros [(_ & _ & Hp) Hok] Hev. unfold link_event. apply wpe_bind.
  apply (wpe_mono (trouble env l s ev) (trouble env l s ev) _ _ (fun _ => sends s0)); [|done|].
  - destruct (get (peer_table s) l) as [p|] eqn:Hg.
    + eapply wpe_mono; [eapply (settles_result VISA_SERVICE_DN env l s p ev); eauto|done|].
      intros r s' Hs. apply (sends_from s0 s); [done|exact (settled_sends ev s p s' Hs)].
    + unfold wpe, LinkFsm.process_link_state_event, LinkFsm.via_table, mbind, M_bind, get_peer, gets.
      rewrite Hg. by apply sends_same.
  - intros r s' Hs. by apply wpe_ret.
Qed.

(** The ways in which a packet of type [t] can stop the program. *)
Inductive fatal s (t : Z) (body : list Z) : Prop :=
| ReportTwice : t = Zdp.Report -> bad_report body -> fatal s t body
| KeysAsMessage : t = Zdp.KeyManagement -> fatal s t body
| PoolEmpty q : t = Zdp.HelloRequest -> address_pool s = Some q ->
    AddressPool.get_aaa_address q (pool_rnd env) = None -> fatal s t body
| CarrierRefused tn b : t = Zdp.GrantZprAddress \/ t = Zdp.TerminateLinkOrDockingSession ->
    tun_reaches (tun s) tn -> (tun_set_carrier tn b).1 = false -> fatal s t body.

(** An event that no device and no pool stands behind. *)
Lemma w_plain_event E s0 s ev :
  in_order s0 s -> event_ok ev -> sets_carrier ev = false ->
  ev <> Start -> ev <> ReceivedHelloRequest -> ev <> CloseDone ->
  wpe E (event l ev) s (fun _ => sends s0).
Proof.
  intros Hs Hok Hc H1' H2' H3'. eapply wpe_mono; [by eapply w_event| |done].
  intros Ht. exfalso. destruct Ht; congruence || by cbn in Hc.
Qed.

Lemma w_carrier_event s0 s t body ev :
  in_order s0 s -> sets_carrier ev = true ->
  t = Zdp.GrantZprAddress \/ t = Zdp.TerminateLinkOrDockingSession ->
  (forall e, ev = Timeout e -> False) -> ev <> ReceivedGrantZprAddressRequest (inl []) ->
  wpe (fatal s0 t body) (event l ev) s (fun _ => sends s0).
Proof.
  intros Hs Hc Ht Hn Hg. eapply wpe_mono; [eapply w_event; [done|]| |done].
  - by destruct ev.
  - intros Htr. destruct Htr; try (by cbn in Hc). destruct Hs as [(_ & Etn & _) _]. rewrite Etn in *. by eapply CarrierRefused.
Qed.

Lemma w_hello_request s0 body :
  bytes_ok body -> in_order s0 s0 ->
  wpe (fatal s0 Zdp.HelloRequest body) (handle_hello_request VISA_SERVICE_DN env tlv_iter l body) s0
    (fun _ => sends s0).
Proof.
  intros Hb Hs. unfold handle_hello_request. apply wpe_bind, wpe_gets.
  destruct (negb _); [by apply wpe_ret; eauto|]. apply wpe_bind.
  destruct (parse_total read_visa body Hb) as [r Hr]. rewrite Hr. apply wpe_lift; [|done]. intros ? [= <-].
  destruct r as [m|e]; [|by apply wpe_ret; eauto]. apply wpe_bind.
  eapply wpe_mono; [by apply (w_hello_tlvs _ s0)|done|]. intros [[]|e] s' Hs'; [|by apply wpe_ret; eauto].
  eapply wpe_mono; [by eapply w_event| |done]. intros Ht. destruct Hs' as [(Hpool & _ & _) _].
  inversion Ht; subst; try done. rewrite Hpool in *. by eapply PoolEmpty.
Qed.

Lemma w_hello_response E s0 body :
  bytes_ok body -> in_order s0 s0 ->
  wpe E (handle_hello_response VISA_SERVICE_DN env tlv_iter l body) s0 (fun _ => sends s0).
Proof.
  intros Hb Hs. unfold handle_hello_response. apply wpe_bind.
  apply (wpe_mono E E _ _ (fun r s' => in_order s0 s' /\
    match r with inl ev => exists c a i, ev = ReceivedHelloResponse c a i | inr _ => True end)); [|done|].
  - unfold parse_hello_response, read_header. destruct (_ <? _); [by apply wpe_ret; eauto|]. apply wpe_bind.
    destruct (parse_total read_visa (drop (Z.to_nat 1) body)) as [r Hr]; [by apply Forall_drop|].
    rewrite Hr. apply wpe_lift; [|done]. intros ? [= <-]. destruct r as [m|e]; [|by apply wpe_ret; eauto].
    apply wpe_bind. eapply wpe_mono; [apply (w_response_tlvs _ s0); [done|]|done|].
    + rewrite tlv_iter_all. apply list.Forall_forall. intros [k v] Hkv%elem_of_map_to_list.
      by eapply parse_inhabited.
    + intros [[a i]|e] s' Hs'; apply wpe_ret; [|done]. split; [done|]. by do 3 eexists.
  - intros [ev|e] s' [Hs' Hev]; [|by apply wpe_ret; eauto]. destruct Hev as (c & a & i & ->).
    by eapply w_plain_event.
Qed.

Lemma w_non_flow s t body :
  bytes_ok body -> in_order s s ->
  wpe (fatal s t body) (handle_non_flow VISA_SERVICE_DN env tlv_iter l t body) s (fun _ => sends s).
Proof.
  intros Hb Hs. unfold handle_non_flow.
  destruct (Z.eqb_spec t Zdp.Report) as [->|_].
  { pose proof (report_panics body s) as Hr. unfold wpe.
    destruct (handle_report body s) as [[r s']|] eqn:Er; [|apply ReportTwice; [done|by apply Hr]].
    by rewrite (report_same _ _ _ _ Er); eauto. }
  destruct (t =? Zdp.Discard); [by apply wpe_ret; eauto|]. destruct (t =? Zdp.Echo); [by apply wpe_ret; eauto|].
  destruct (Z.eqb_spec t Zdp.KeyManagement) as [->|_]; [by apply KeysAsMessage|].
  destruct (Z.eqb_spec t Zdp.TerminateLinkOrDockingSession) as [->|_].
  { unfold handle_terminate_link_or_docking_session. destruct (read_header 2 body) as [[hdr r]|]; [|by apply wpe_ret; eauto].
    eapply w_carrier_event; try done. by right. }
  destruct (Z.eqb_spec t Zdp.HelloRequest) as [->|_]; [by apply w_hello_request|].
  destruct (t =? Zdp.HelloResponse); [by apply w_hello_response|].
  destruct (t =? Zdp.InitAuthenticationRequest).
  { unfold handle_init_authentication_request. destruct (read_header 3 body) as [[hdr r]|]; [|by apply wpe_ret; eauto].
    destruct (negb _); [|by eapply w_plain_event].
    repeat (destruct (_ =? _) || destruct (_ <? _); [by apply wpe_ret; eauto|]).
    destruct (read_header 48 r) as [[b ?]|]; [by eapply w_plain_event|by apply wpe_ret; eauto]. }
  destruct (t =? Zdp.RenewAuthenticationRequest).
  { unfold handle_renew_authentication_request. destruct (read_header 2 body) as [[hdr r]|]; [|by apply wpe_ret; eauto].
    repeat (destruct (_ <? _); [by apply wpe_ret; eauto|]).
    destruct (read_header 48 r) as [[b ?]|]; [by eapply w_plain_event|by apply wpe_ret; eauto]. }
  destruct (t =? Zdp.RenewAuthenticationResponse).
  { unfold handle_renew_authentication_response. destruct (read_header 51 body) as [[hdr r]|]; [|by apply wpe_ret; eauto].
    destruct (_ =? _); [|by eapply w_plain_event].
    destruct (read_blob _ r) as [[b ?]|]; [by eapply w_plain_event|by apply wpe_ret; eauto]. }
  destruct (t =? Zdp.AcquireZprAddress).
  { unfold handle_acquire_zpr_address_request.
    destruct (parse_acquire_zpr_address_request body) as [[a b]|]; [by eapply w_plain_event|by apply wpe_ret; eauto]. }
  destruct (Z.eqb_spec t Zdp.GrantZprAddress) as [->|_]; [|by apply wpe_ret; eauto].
  unfold handle_grant_zpr_address_request.
  destruct (parse_grant_zpr_address_request body) as [[[|a r]|c]|]; try by apply wpe_ret; eauto.
  all: eapply w_carrier_event; try done; by left.
Qed.

(** C12. Whatever a peer sends outside flows, of any type and with any bytes, the program
    goes on, the packets it sends in return included, unless the packet is a report whose
    header, skipped twice, leaves no text or text that is not UTF-8; a hello when the
    address pool is exhausted; a grant or a termination when the TUN device, in its
    state or one that operations on it lead to, refuses its carrier; or a packet that
    makes a link send a message that does not fit: an address request or a grant of
    addresses of both families, or with credentials or addresses beyond the size of a
    packet, or a renewal with such a credential.  (Packets of key management go
    elsewhere before they get here.) *)
Theorem peers_stop_program_only_so pkt s hdr rest :
  bytes_ok pkt -> (forall p, get (peer_table s) l = Some p -> link_ok s p) ->
  Zdp.read_base pkt = Some (hdr, rest) -> Zdp.is_per_flow (Zdp.packet_type hdr) = false ->
  with_packets (handle_packet VISA_SERVICE_DN default_ft env tlv_iter l pkt) s = Panic ->
  fatal s (Zdp.packet_type hdr) (drop 8 rest) \/
  exists r s' m, handle_packet VISA_SERVICE_DN default_ft env tlv_iter l pkt s = Ret (r, s') /\
    newly_sent s s' m /\ does_not_fit s' m.
Proof.
  intros Hb Hok Hbase Hf Hpanic.
  assert (bytes_ok rest) as Hbr.
  { destruct pkt as [|a [|b r]]; try done. injection Hbase as _ <-. by do 2 apply Forall_inv_tail in Hb. }
  pose proof (with_packets_spec (handle_packet VISA_SERVICE_DN default_ft env tlv_iter l pkt) s
    (fatal s (Zdp.packet_type hdr) (drop 8 rest)) (fun _ _ => True)) as Hw.
  rewrite Hpanic in Hw. apply Hw. clear Hw Hpanic. unfold handle_packet. rewrite Hbase. unfold Zdp.read_mgmt.
  destruct (zlen rest <? 8); [apply wpe_ret; split; [by apply sends_same|done]|]. rewrite Hf. unfold no_packet.
  apply wpe_bind. eapply wpe_mono; [apply w_non_flow; [by apply Forall_drop|by split_and!]|done|].
  intros r s' Hs. by apply wpe_ret.
Qed.

(** C2. The handlers of a link implement the protocol of its table, the packets they
    send included: whatever the event and the state, the event leads to a state the
    table allows, on the same link of the same type, or it is the end of a close that
    removes the link; no other link changes; and the program stops only for a reason
    listed in [trouble], or because a message that the handler sends does not fit its
    packet. *)
Theorem link_follows_protocol s p ev :
  get (peer_table s) l = Some p -> link_ok s p -> event_ok ev ->
  match with_packets (LinkFsm.process_link_state_event VISA_SERVICE_DN env l ev) s with
  | Panic =>
      trouble env l s ev \/
      exists r s' m, LinkFsm.process_link_state_event VISA_SERVICE_DN env l ev s = Ret (r, s') /\
        newly_sent s s' m /\ does_not_fit s' m
  | Ret (_, s') =>
      match get (peer_table s') l with
      | Some p' => uid (lk p') = uid (lk p) /\ ty p' = ty p /\
          allowed (ty p) (st p) ev (st p') = true /\ link_ok s' p'
      | None => ev = CloseDone
      end /\
      forall j q', u32 j -> j <> l -> get (peer_table s') j = Some q' ->
        exists q, get (peer_table s) j = Some q /\ core q' = core q
  end.
Proof.
  intros Hp Hok Hev. apply (with_packets_spec _ s _ (fun (_ : unit + LinkStateError) s' => _)).
  eapply wpe_mono; [by apply (settles_result VISA_SERVICE_DN env l s p ev)|done|].
  intros r s' Hs. split; [exact (settled_sends ev s p s' Hs)|].
  destruct Hs as [(p' & ts' & n & Hat & [Hevo _ _ Hal _ _])|[-> Hg]].
  - destruct Hat as [Hp' Hfr _ _ _ _ _ _ _ He _ _ _]. rewrite Hp'. destruct Hok as (_ & _ & Hi). split.
    + split_and!; [apply Hevo|apply Hevo|done|]. split_and!; [done|by eapply evolve_clock|by apply Hevo].
    + intros j q' Hj Hne Hq'. rewrite Hfr in Hq' by done. by exists q'.
  - destruct Hg as [Hf Hg _ _ _ _]. rewrite Hg. split; [done|]. intros j q' _ _ Hq'. by apply Hf in Hq'.
Qed.

(** And such a report does stop it, from any link: the handler reads the header,
    skips its two bytes again, and takes the text that follows for UTF-8. *)
Theorem report_stops_program sn body s :
  u64 sn ->
  handle_packet VISA_SERVICE_DN default_ft env tlv_iter l
    (Zdp.base_bytes (Zdp.mkBase Zdp.Report 0) ++ Zdp.mgmt_bytes (Zdp.mkMgmt sn) ++ body) s = Panic <->
  bad_report body.
Proof.
  intros Hsn. unfold handle_packet. rewrite Zdp.read_base_bytes, Zdp.read_mgmt_bytes by done.
  rewrite <- (report_panics body s). unfold no_packet, mbind, M_bind.
  change (Zdp.is_per_flow (Zdp.packet_type _)) with false. cbv iota.
  unfold handle_non_flow. change (Zdp.packet_type _ =? Zdp.Report) with true. cbv iota.
  destruct (handle_report body s) as [[r s']|]; by split.
Qed.

End safe.
End HandlersSafe.
