(* ===== verification/HandlersExample.v ===== *)
(** * Management messages: concrete runs

    Messages and packets to which the theorems of [HandlersThms] and [HandlersSafe]
    apply, on a node with one docking session. *)
From Stdlib Require Import ZArith Lia.
From stdpp Require Import base tactics option list numbers gmap.
From S2P Require Import Prelude Slab NetDefs Tc TcProps Tlv TlvProps PacketBuf Pkt Zdp ZdprReceiver AdapterTables ForwardingTables TxnMgr Auth LinkTypes PeerTable PeerTableProps VisaTable VisaTableProps AddressPool Assembly NodeBindInv NodeBindExample LinkFsm LinkTasks LinkInv LinkProtocol LinkHandlers LinkRun LinkThms Requests Handlers HandlersProps HandlersThms HandlersSafe.
From stdpp Require Import list.
Import PacketBuf(Layout, md_size).
Import Tc TcProps Tlv TlvProps Auth LinkTypes PeerTable PeerTableProps VisaTableProps Asm LinkFsm LinkTasks LinkRun LinkThms Requests Handlers HandlersProps HandlersThms HandlersSafe.

Local Open Scope Z_scope.

Module HandlersExample.

#[local] Existing Instance iana.
#[local] Existing Instance PacketBuf.demo_layout.
#[local] Existing Instance Auth.toy_crypto.
#[local] Existing Instance toy_visas.
#[local] Existing Instance NodeBindExample.toy_tun.

(** An endpoint lookup table as its two maps, of packets as their bytes. *)
Definition map_flows : FlowTables.
Proof.
  refine {| Elt := (gmap FiveTuple (@AdapterTables.EltEntry (list Z)) * gmap Z FiveTuple)%type;
            elt_clear _ := Ret (∅, ∅); elt_ok _ := True |}.
  intros e _. by exists (∅, ∅).
Defined.
#[local] Existing Instance map_flows.
Definition map_adapter : AdapterFlows.
Proof.
  refine {| FlowPacket := list Z; elt_table e := e.1; elt_pending e := e.2; elt_make := pair;
            elt_iter := map_to_list; derive_key k := k; diffie_hellman k := k |}.
  done.
Defined.
#[local] Existing Instance map_adapter.

#[local] Instance idp_eq_dec : EqDecision OidcIdpInfo.
Proof. solve_decision. Defined.

(** One identity provider, whose JSON is a letter. *)
Definition provider : OidcIdpInfo := mkIdp [104; 116; 116; 112; 115] [112; 104] None [] false.
Definition demo_wire : Wire.
Proof.
  refine {| TCST_IP5TUPLE := 1;
            idp_to_string i := if decide (i = provider) then Some [65] else None;
            idp_from_str s := if decide (s = [65]) then Some provider else None;
            zeroed := Pkt.mkBuffer 0 (Pkt.mkMd (mkFT [] [] 0 0 0 0) 0 0 0 0 0);
            TlvVisa := list Z; visa_message v := v; read_visa := Some; VERSION_STRING := [49; 46; 48] |}.
  - done.
  - split; unfold is_byte; cbn; lia.
  - intros i s Hs. destruct (decide (i = provider)) as [->|]; [|done]. by injection Hs as <-.
  - intros a Hl Hv. apply bool_decide_eq_true in Hv. cbn [new_from_v4 read_as_v4 iana] in *.
    assert (take 12 a ++ drop 12 a = a) as Ha by apply take_drop. rewrite Hv in Ha.
    split; [rewrite length_drop; lia|]. split; [exact Ha|]. intros Hb. by apply Forall_drop.
  - split; [reflexivity|]. vm_compute. discriminate.
Defined.
#[local] Existing Instance demo_wire.


Notation asm := (Assembly FirstFit.table).
Definition run_to {A} (m : M FirstFit.table A) (s : asm) : asm :=
  match m s with Ret (_, s') => s' | Panic => s end.
Definition env : Env := mkEnv 100 100 (replicate 8 7) [] (fun _ => true) (Some (mkKm 1 1)) true.
Definition no_parse (l : list Z) : option (list Z * Z) := None.

(** ** Messages *)

Lemma demo_room : 1024 <= heap_room.
Proof. vm_compute. discriminate. Qed.

Definition hello : Msg := HelloSuccessResponse 1 [provider; mkIdp [] [] None [] false] (Some (new_from_v4 [10; 0; 0; 7])).
Definition request : Msg := AcquireZprAddressRequest 1 [new_from_v4 [10; 0; 0; 8]; new_from_v4 [10; 0; 0; 9]] [98; 108; 111; 98].
Definition no_ft : FiveTuple := mkFT [] [] 0 0 0 0.

Lemma messages_understood_witness :
  (exists bs window_first, message_bytes (Some 32) hello = Ret bs /\
    forall s : asm, handle_packet [] no_ft env map_to_list 3 bs s = received [] env window_first 3 (Some 32) hello s) /\
  (exists bs window_first, message_bytes None request = Ret bs /\
    forall s : asm, handle_packet [] no_ft env map_to_list 3 bs s = received [] env window_first 3 None request s).
Proof.
  split.
  - apply (messages_understood [] no_ft env map_to_list (fun m => reflexivity _) demo_room 3 (Some 32) hello).
    + unfold window_ok. lia.
    + split; [reflexivity|]. apply (bool_decide_unpack (Forall (fun b => 0 <= b < 256) _)). vm_compute. exact I.
  - apply (messages_understood [] no_ft env map_to_list (fun m => reflexivity _) demo_room 3 None request).
    + exact I.
    + split; [split; [vm_compute; discriminate|]|].
      * exists true. repeat constructor.
      * split; [vm_compute; reflexivity|]. split; [vm_compute; reflexivity|]. vm_compute. discriminate.
Defined.

Lemma acquire_overflows_iff_witness :
  send_acquire_zpr_address_request (to_std <$> [new_from_v4 [10; 0; 0; 8]]) (replicate 3785 65) = Panic.
Proof.
  apply (acquire_overflows_iff demo_room true [new_from_v4 [10; 0; 0; 8]] (replicate 3785 65)).
  - repeat constructor.
  - assert (zlen (replicate 3785 65) = 3785) as -> by (unfold zlen; by rewrite length_replicate).
    vm_compute. reflexivity.
Defined.

(** ** Packets at a node with a docking session *)
Definition start : asm :=
  mkAsm Node PeerTable.new VisaTable.VisaTable.new 1 None [] false None 0 [] true [] None None []
    (tt : Tun) (∅, ∅) ForwardingTables.dlt_new [] [] 0 false.
Definition booted : asm :=
  match boot Node [] 0 with Ret (t, u) => set_next_uid u (set_peers t start) | Panic => start end.
Definition adapter_address (k : Z) : list Z * Z := (replicate 16 k, 5000).
Definition docking : Step := STether (adapter_address 21) (adapter_address 9) NodeToAdapter true (replicate 32 3).
Definition docked : asm := run_to (run_step [] [] no_parse env docking) booted.

Lemma link_three : PeerTableProps.u32 3.
Proof. unfold PeerTableProps.u32. lia. Qed.

Definition returns {A} (o : outcome A) : bool := match o with Ret _ => true | Panic => false end.
Lemma session_reached : exists log, reach (slab:=FirstFit.table) [] [] no_parse log docked.
Proof.
  eexists. eapply reach_step with (env := env) (s := booted) (u := tt) (x := docking).
  - unfold booted. destruct (boot Node [] 0) as [[t u]|] eqn:E; [|by vm_compute in E].
    by eapply reach_start; [exact E|..].
  - exact I.
  - unfold docked, run_to. pose proof (eq_refl : returns (run_step [] [] no_parse env docking booted) = true) as Hret.
    destruct (run_step _ _ _ _ _ booted) as [[[] s']|]; done.
Qed.
Lemma session_ok p : get (peer_table docked) 3 = Some p -> link_ok docked p.
Proof.
  intros Hp. destruct session_reached as [log Hr]. destruct (reach_inv _ _ _ _ _ Hr) as [He _ Hi].
  destruct (Hi 3 p link_three Hp) as [Hc Hpi _ _ _]. by split_and!.
Qed.

(** An empty report, as [send_report] writes it. *)
Definition empty_report : list Z := [132; 0] ++ be_bytes 8 9 ++ [0; 0].

Lemma peers_stop_program_only_so_witness :
  with_packets (handle_packet [] no_ft env map_to_list 3 empty_report) docked = Panic /\
  (fatal env docked Zdp.Report [0; 0] \/
   exists r s' m, handle_packet [] no_ft env map_to_list 3 empty_report docked = Ret (r, s') /\
     newly_sent docked s' m /\ does_not_fit s' m).
Proof.
  assert (with_packets (handle_packet [] no_ft env map_to_list 3 empty_report) docked = Panic) as Hp by reflexivity.
  split; [exact Hp|].
  apply (peers_stop_program_only_so [] no_ft env demo_room map_to_list (fun m => reflexivity _) 3
    link_three empty_report docked (Zdp.mkBase 132 0) (be_bytes 8 9 ++ [0; 0])).
  - apply (bool_decide_unpack (Forall (fun b => 0 <= b < 256) empty_report)). vm_compute. exact I.
  - exact session_ok.
  - reflexivity.
  - reflexivity.
  - exact Hp.
Defined.

Lemma report_stops_program_witness :
  handle_packet [] no_ft env map_to_list 3 empty_report docked = Panic.
Proof.
  apply (report_stops_program [] no_ft env map_to_list 3 9 [0; 0] docked).
  - unfold u64. lia.
  - left. vm_compute. split; [discriminate|reflexivity].
Defined.

(** A peer that terminates the session. *)
Definition session : PeerState FirstFit.table := match get (peer_table docked) 3 with Some p => p | None => PeerTableProps.example_peer end.
Definition ended : M FirstFit.table (unit + LinkStateError) :=
  with_packets (process_link_state_event [] env 3 (ReceivedTerminateLink 0)).
Lemma link_follows_protocol_witness :
  returns (ended docked) = true /\
  match get (peer_table (run_to ended docked)) 3 with
  | Some p' => uid (link_state_machine p') = uid (link_state_machine session) /\
      LinkProtocol.allowed NodeToAdapter Keying (ReceivedTerminateLink 0) (get_state (link_state_machine p')) = true
  | None => False
  end.
Proof.
  assert (returns (ended docked) = true) as Hr by (vm_compute; reflexivity). split; [exact Hr|].
  assert (get (peer_table docked) 3 = Some session) as Hs by (vm_compute; reflexivity).
  pose proof (link_follows_protocol [] env demo_room 3 link_three docked session (ReceivedTerminateLink 0) Hs
    (session_ok session Hs) I) as Hf.
  fold ended in Hf. unfold run_to. destruct (ended docked) as [[r s']|]; [|discriminate Hr].
  destruct Hf as [Hf _]. destruct (get (peer_table s') 3) as [p'|]; [|discriminate Hf].
  destruct Hf as (E1 & _ & E3 & _). split; [exact E1|exact E3].
Defined.

End HandlersExample.
