(* ===== verification/VsConn.v ===== *)
(** * The connection to the visa service ([libnode2/src/vsconn.rs], [error.rs])

    The run loop that owns the connection and serves the commands of the rest of the
    node, one at a time, over a channel; the calls it makes to the visa service, with
    their timeouts; its pings; its reconnections.  The loop is a labelled transition
    system: a step is what one of its [await]s was waiting for.  What the visa service
    does is the argument [Server] of the steps that talk to it; the channels, timers and
    timeouts of [tokio] behave as documented: a channel of commands is first in first
    out and bounded, a [select!] takes any branch that is ready, the first one if it is
    [biased].

    Times are in milliseconds. *)
From Stdlib Require Import ZArith Lia.
From stdpp Require Import base tactics option list numbers strings.
From S2P Require Import Prelude Auth.
From stdpp Require Import list.

Local Open Scope Z_scope.

(** The types of the visa service's interface, which are those of the crate [zpr] and
    of code generated by Cap'n Proto: capabilities and the data of calls. *)
Class VsTypes := {
  Gate : Type;
  Handle : Type;
  VisaRequest : Type;
  ConnectRequest : Type;
  ReauthRequest : Type;
  Visa : Type;
  VisaOp : Type;
  VisaDecision : Type;
  Connection : Type;
  (** [SocketAddr::to_string] *)
  addr_to_string : list Z * Z -> list Z
}.

Module VsConn.

(** ** Data *)

Definition LIFECYCLE_EVENT_BUFFER_SIZE : nat := 64.
Definition VSAPI_PING_INTERVAL : Z := 5000.
Definition VSAPI_MAX_PING_FAILURES : Z := 2.
Definition PING_MIN_TIMEOUT : Z := 1000.
Definition DEFAULT_RPC_TIMEOUT : Z := 10000.
Definition DEFAULT_CONNECT_RPC_TIMEOUT : Z := 30000.

(** An address and port. *)
Notation SocketAddr := (list Z * Z)%type.

(** The codes of an [ApiResponseError] that this code names. *)
Inductive ErrorCode := OutOfSync | ParamError | InvalidOperation | Internal | OtherCode (n : Z).
Record ApiResponseError := mkApiError { code : ErrorCode; message : string }.

(** Errors that carry an error of another crate keep only their kind. *)
Inductive VSApiError :=
| ConnClosed
| RunLoopRestart
| CommandFailed (why : string)
| IoError
| CodedError (e : ApiResponseError)
| Capnp
| CapnpNotInSchema
| TLSError
| Timeout (name : string)
| VsapiTypeError.

(** [Result<A, VSApiError>] *)
Notation Result A := (A + VSApiError)%type.

Inductive StateFlag := NoState | HasState.
Record NodeConnect := mkNodeConnect { zpr_addr : list Z; nc_state : StateFlag; a2a_dh_pubkey : list Z }.
Record NodeOpen := mkNodeOpen { no_state : StateFlag }.

Inductive ConnectType := CtReset | CtReconnect.
Definition connect_type (s : StateFlag) : ConnectType :=
  match s with NoState => CtReset | HasState => CtReconnect end.

Inductive DisconnectReason := NodeShutdown | LinkError | OtherReason (n : Z).
Record DisconnectNotice := mkNotice { dn_zpr_addr : option (list Z); reason : DisconnectReason }.

(** The commands; the sender of a [oneshot] channel is a number that names it. *)
Inductive VS2Command `{VsTypes} :=
| Stop (deregister : bool)
| Restart
| Connect (req : NodeConnect) (resp_tx : nat)
| Open (req : NodeOpen) (resp_tx : nat)
| VisaRequestCmd (req : VisaRequest) (resp_tx : nat)
| RegisterVss (saddr : SocketAddr) (resp_tx : nat)
| AuthorizeConnect (req : ConnectRequest) (resp_tx : nat)
| Reauthorize (req : ReauthRequest) (resp_tx : nat)
| Reauthenticate (req : NodeConnect) (resp_tx : nat)
| NotifyDisconnect (req : DisconnectNotice) (resp_tx : nat)
| Ping (resp_tx : nat)
| VisaIdsRequest (resp_tx : nat)
| VisaByIdsRequest (ids : list Z) (resp_tx : nat).

Inductive VSConnLifecycleEvent :=
| RunLoopStarts
| ConnectedToVsApi (state : StateFlag)
| RunLoopExits.

(** What is sent on a [oneshot]. *)
Inductive Response `{VsTypes} :=
| RUnit (r : Result unit)
| RVisa (r : Result VisaDecision)
| RVss (r : Result (list VisaOp))
| RConnection (r : Result Connection)
| RIds (r : Result (list Z))
| RVisas (r : Result (list Visa)).

(** What the loop does that others see: a lifecycle event broadcast; an answer to a
    command; a command dropped, with the sender of its answer. *)
Inductive Out `{VsTypes} :=
| Lifecycle (e : VSConnLifecycleEvent)
| Respond (resp_tx : nat) (r : Response)
| Discard (resp_tx : nat).

(** ** Calls *)

(** What a call returns, and after how long: [None] where the call itself fails. *)
Record Rpc (A : Type) := mkRpc { took : Z; returned : option A }.
Arguments mkRpc {A} took returned.
Arguments took {A} _.
Arguments returned {A} _.

(** A message that is a union of a result and an error, as its reader finds it:
    unreadable, a union of neither, the result, or the error (if it can be parsed). *)
Inductive Message (A : Type) :=
| Unreadable
| NotInSchema
| OkMsg (a : A)
| ErrMsg (e : option ApiResponseError).
Arguments Unreadable {A}.
Arguments NotInSchema {A}.
Arguments OkMsg {A} a.
Arguments ErrMsg {A} e.

Inductive ChallengeAlg := RsaSha256Pkcs1v15 | OtherAlg (name : string).
(** A challenge; [None] for an algorithm that is not in the schema. *)
Record Challenge := mkChallenge { chal_bytes : list Z; alg : option ChallengeAlg }.

(** [pname] *)
Inductive ParamName := SUBSTRATE_ADDR | ZPR_ADDR | A2A_DH_PUBKEY.
Inductive ParamValue := PStr (s : list Z) | PIp (a : list Z) | PX25519 (k : list Z).
Record VSConnectRequest := mkConnectRequest {
  cr_cn : list Z; ctype : ConnectType; params : option (list (ParamName * ParamValue))
}.
Record ChallengeResponse := mkChallengeResponse { cr_challenge : list Z; cr_timestamp : Z; cr_bytes : list Z }.

(** The visa service, by what its methods answer.  An element that cannot be parsed
    is [None]. *)
Record Server `{VsTypes} := mkServer {
  srv_connect : VSConnectRequest -> Rpc (Message Gate);
  srv_challenge : Gate -> Rpc (option Challenge);
  srv_authenticate : Gate -> ChallengeResponse -> Rpc (Message Handle);
  srv_open : VSConnectRequest -> Rpc (Message Handle);
  srv_visa_request : Handle -> VisaRequest -> Rpc (Message VisaDecision);
  srv_authorize_connect : Handle -> ConnectRequest -> Rpc (Message (option Connection));
  srv_reauthorize : Handle -> ReauthRequest -> Rpc (Message (option Connection));
  srv_notify_disconnect : Handle -> DisconnectNotice -> Rpc (Message unit);
  srv_register_vss : Handle -> SocketAddr -> Rpc (Message (list (option VisaOp)));
  srv_ping : Handle -> Rpc (Message unit);
  srv_visa_ids : Handle -> Rpc (Message (list Z));
  srv_visa_by_ids : Handle -> list Z -> Rpc (Message (list (option Visa)))
}.

(** Code that takes time, and may fail. *)
Definition Timed (A : Type) : Type := Z -> Z * Result A.
#[global] Instance Timed_ret : MRet Timed := fun A a t => (t, inl a).
#[global] Instance Timed_bind : MBind Timed := fun A B f m t =>
  match m t with
  | (t', inl a) => f a t'
  | (t', inr e) => (t', inr e)
  end.
Definition lift {A} (r : Result A) : Timed A := fun t => (t, r).
Definition fail {A} (e : VSApiError) : Timed A := lift (inr e).
Definition now_ : Timed Z := fun t => (t, inl t).

(** [tokio::time::timeout] looks at the call before the clock. *)
Definition rpc_with_timeout {A} (name : string) (duration : Z) (fut : Rpc A) : Timed A := fun t =>
  if took fut <=? duration
  then (t + took fut, match returned fut with Some a => inl a | None => inr Capnp end)
  else (t + duration, inr (Timeout name)).

(** [get()?.get_res()?.which()?] and its branches. *)
Definition read_message {A} (m : Message A) : Timed A :=
  match m with
  | Unreadable => fail Capnp
  | NotInSchema => fail CapnpNotInSchema
  | OkMsg a => mret a
  | ErrMsg (Some e) => fail (CodedError e)
  | ErrMsg None => fail VsapiTypeError
  end.

Definition parsed {A} (o : option A) : Timed A :=
  match o with Some a => mret a | None => fail VsapiTypeError end.
Fixpoint parsed_all {A} (l : list (option A)) : Timed (list A) :=
  match l with
  | [] => mret []
  | o :: l => a ← parsed o; r ← parsed_all l; mret (a :: r)
  end.

(** ** The client *)

Section client.
Context `{VsTypes} `{Crypto}.

(** What a [VSConn] is created with: the node's name and key, its substrate address,
    the size of the channel of commands; and the argument of [run_with_reconnect].
    [unix_ts] reads the wall clock. *)
Context (node_cn node_private_key : list Z) (substrate_addr : SocketAddr)
        (buffer_size : nat) (reconnect_after : Z) (unix_ts : Z -> Z).

Definition sign_payload (timestamp : Z) (cn challenge_data private_key : list Z) : list Z :=
  sign_rsa_key private_key (be_bytes 8 timestamp ++ cn ++ challenge_data).

Definition substrate_addr_param : ParamName * ParamValue :=
  (SUBSTRATE_ADDR, PStr (addr_to_string substrate_addr)).

Definition do_connect (srv : Server) (req : NodeConnect) : Timed Handle :=
  let vs_cr := mkConnectRequest node_cn (connect_type (nc_state req))
    (Some [(ZPR_ADDR, PIp (zpr_addr req)); substrate_addr_param; (A2A_DH_PUBKEY, PX25519 (a2a_dh_pubkey req))]) in
  vs_request_response ← rpc_with_timeout "connect" DEFAULT_CONNECT_RPC_TIMEOUT (srv_connect srv vs_cr);
  vs_gate_svc ← read_message vs_request_response;
  gate_response ← rpc_with_timeout "challenge" DEFAULT_CONNECT_RPC_TIMEOUT (srv_challenge srv vs_gate_svc);
  match gate_response with
  | None => fail Capnp
  | Some challenge =>
      t ← now_;
      let timestamp := unix_ts t in
      match alg challenge with
      | None => fail CapnpNotInSchema
      | Some (OtherAlg name) => fail (CommandFailed ("unsupported challenge alg: " ++ name))
      | Some RsaSha256Pkcs1v15 =>
          let signed_payload := sign_payload timestamp node_cn (chal_bytes challenge) node_private_key in
          gate_response ← rpc_with_timeout "authenticate" DEFAULT_CONNECT_RPC_TIMEOUT
            (srv_authenticate srv vs_gate_svc
               (mkChallengeResponse (chal_bytes challenge) timestamp signed_payload));
          read_message gate_response
      end
  end.

Definition do_open (srv : Server) (oreq : NodeOpen) : Timed Handle :=
  let req := mkConnectRequest node_cn (connect_type (no_state oreq)) (Some [substrate_addr_param]) in
  r ← rpc_with_timeout "open" DEFAULT_CONNECT_RPC_TIMEOUT (srv_open srv req);
  read_message r.

Definition do_visa_request (srv : Server) (vs_h : Handle) (req : VisaRequest) : Timed VisaDecision :=
  r ← rpc_with_timeout "visa_request" DEFAULT_RPC_TIMEOUT (srv_visa_request srv vs_h req);
  read_message r.
Definition do_authorize_connect (srv : Server) (vs_h : Handle) (req : ConnectRequest) : Timed Connection :=
  r ← rpc_with_timeout "authorize_connect" DEFAULT_RPC_TIMEOUT (srv_authorize_connect srv vs_h req);
  conn ← read_message r;
  parsed conn.
Definition do_reauthorize (srv : Server) (vs_h : Handle) (req : ReauthRequest) : Timed Connection :=
  r ← rpc_with_timeout "reauthorize" DEFAULT_RPC_TIMEOUT (srv_reauthorize srv vs_h req);
  conn ← read_message r;
  parsed conn.
Definition do_notify_disconnect (srv : Server) (vs_h : Handle) (req : DisconnectNotice) : Timed unit :=
  r ← rpc_with_timeout "notify_disconnect" DEFAULT_RPC_TIMEOUT (srv_notify_disconnect srv vs_h req);
  read_message r.
Definition do_register_vss (srv : Server) (vs_h : Handle) (saddr : SocketAddr) : Timed (list VisaOp) :=
  r ← rpc_with_timeout "register_vss" DEFAULT_RPC_TIMEOUT (srv_register_vss srv vs_h saddr);
  ops ← read_message r;
  parsed_all ops.
Definition do_ping (srv : Server) (vs_h : Handle) (with_timeout : Z) : Timed unit :=
  r ← rpc_with_timeout "ping" with_timeout (srv_ping srv vs_h);
  read_message r.
Definition do_visa_ids_request (srv : Server) (vs_h : Handle) : Timed (list Z) :=
  r ← rpc_with_timeout "visa_ids_request" DEFAULT_RPC_TIMEOUT (srv_visa_ids srv vs_h);
  read_message r.
Definition do_visa_by_ids_request (srv : Server) (vs_h : Handle) (req : list Z) : Timed (list Visa) :=
  r ← rpc_with_timeout "visa_by_ids_request" DEFAULT_RPC_TIMEOUT (srv_visa_by_ids srv vs_h req);
  visas ← read_message r;
  parsed_all visas.

(** ** Commands

    [vs_handle] is the field of [VSCommandState] that changes. *)

Definition is_connected (vs_handle : option Handle) : bool := if vs_handle then true else false.

(** A command that needs the handle. *)
Definition with_handle {A} (vs_handle : option Handle) (f : Handle -> Timed A) : Timed A :=
  match vs_handle with
  | None => fail (CommandFailed "not connected to VS-API")
  | Some h => f h
  end.

Definition Handled : Type := Z * option Handle * list Out * Result unit.

(** A command that leaves the handle alone. *)
Definition respond {A} (tag : Result A -> Response) (vs_handle : option Handle) (resp_tx : nat)
    (m : Timed A) (t : Z) : Handled :=
  let (t', r) := m t in (t', vs_handle, [Respond resp_tx (tag r)], inl tt).

(** [Connect] and [Open]. *)
Definition handle_connect (vs_handle : option Handle) (resp_tx : nat) (state : StateFlag)
    (already : string) (m : Timed Handle) (t : Z) : Handled :=
  let (t', resp) := (if is_connected vs_handle then fail (CommandFailed already) else m) t in
  match resp with
  | inl h => (t', Some h, [Lifecycle (ConnectedToVsApi state); Respond resp_tx (RUnit (inl tt))], inl tt)
  | inr e => (t', vs_handle, [Respond resp_tx (RUnit (inr e))], inl tt)
  end.

Definition handle_reauthenticate (srv : Server) (vs_handle : option Handle) (req : NodeConnect)
    (resp_tx : nat) (t : Z) : Handled :=
  if is_connected vs_handle then
    match do_connect srv req t with
    | (t', inl h) => (t', Some h, [Respond resp_tx (RUnit (inl tt))], inl tt)
    | (t', inr e) => (t', vs_handle, [Respond resp_tx (RUnit (inr e))], inl tt)
    end
  else
    (t, vs_handle,
     [Respond resp_tx (RUnit (inr (CommandFailed "reauthenticate called but not connected to VS-API")))],
     inl tt).

(** [Stop]: an error of the visa service is only logged, even one that cannot be
    parsed; an error of the call is returned. *)
Definition deregister_self (srv : Server) (h : Handle) : Timed unit :=
  r ← rpc_with_timeout "notify_disconnect" DEFAULT_RPC_TIMEOUT
        (srv_notify_disconnect srv h (mkNotice None NodeShutdown));
  match r with
  | Unreadable => fail Capnp
  | NotInSchema => fail CapnpNotInSchema
  | OkMsg _ | ErrMsg _ => mret tt
  end.
Definition handle_stop (srv : Server) (vs_handle : option Handle) (deregister : bool) (t : Z) : Handled :=
  match vs_handle with
  | Some h =>
      if deregister then
        let (t', r) := deregister_self srv h t in (t', vs_handle, [], r)
      else (t, vs_handle, [], inl tt)
  | None => (t, vs_handle, [], inl tt)
  end.

Definition handle_command (srv : Server) (vs_handle : option Handle) (cmd : VS2Command) (t : Z) : Handled :=
  match cmd with
  | Stop deregister => handle_stop srv vs_handle deregister t
  | Restart => (t, vs_handle, [], inr RunLoopRestart)
  | Connect req resp_tx =>
      handle_connect vs_handle resp_tx (nc_state req)
        "connect called but already connected to VS-API" (do_connect srv req) t
  | Open req resp_tx =>
      handle_connect vs_handle resp_tx (no_state req)
        "open called but already connected to VS-API" (do_open srv req) t
  | VisaRequestCmd req resp_tx =>
      respond RVisa vs_handle resp_tx (with_handle vs_handle (fun h => do_visa_request srv h req)) t
  | RegisterVss saddr resp_tx =>
      respond RVss vs_handle resp_tx (with_handle vs_handle (fun h => do_register_vss srv h saddr)) t
  | AuthorizeConnect req resp_tx =>
      respond RConnection vs_handle resp_tx (with_handle vs_handle (fun h => do_authorize_connect srv h req)) t
  | Reauthorize req resp_tx =>
      respond RConnection vs_handle resp_tx (with_handle vs_handle (fun h => do_reauthorize srv h req)) t
  | Reauthenticate req resp_tx => handle_reauthenticate srv vs_handle req resp_tx t
  | NotifyDisconnect req resp_tx =>
      respond RUnit vs_handle resp_tx (with_handle vs_handle (fun h => do_notify_disconnect srv h req)) t
  | Ping resp_tx =>
      respond RUnit vs_handle resp_tx (with_handle vs_handle (fun h => do_ping srv h PING_MIN_TIMEOUT)) t
  | VisaIdsRequest resp_tx =>
      respond RIds vs_handle resp_tx (with_handle vs_handle (fun h => do_visa_ids_request srv h)) t
  | VisaByIdsRequest ids resp_tx =>
      respond RVisas vs_handle resp_tx (with_handle vs_handle (fun h => do_visa_by_ids_request srv h ids)) t
  end.

(** ** The run loop

    Where [run_with_reconnect] waits: for the TCP connection, for the TLS handshake,
    in the [select!] of the loop, for a command to be handled, for a ping, or for the
    delay before it dials again. *)
Inductive Phase :=
| Dialing
| Securing
| Running (vs_handle : option Handle) (ping_timeout ping_failures : Z)
| Handling (vs_handle : option Handle) (ping_timeout ping_failures : Z) (cmd : VS2Command)
| Pinging (vs_handle : Handle) (ping_failures : Z)
| Delaying (until : Z)
| Ended.

Record VSConn := mkConn { cmd_rx : list VS2Command; phase : Phase; now : Z }.

Definition launched : VSConn := mkConn [] Dialing 0.

(** What happens next: a command is put in the channel; time passes; the TCP
    connection is made or fails; the handshake (with [set_nodelay]) succeeds or
    fails; the receiver's branch of a [select!] is taken; the command is done; the
    timer of the pings fires; the ping is done; the delay is over. *)
Inductive Act :=
| Send (cmd : VS2Command)
| Pass (d : Z)
| Connected_ (ok : bool)
| Secured (ok : bool)
| Recv
| Done (srv : Server)
| PingDue
| Pong (srv : Server)
| Woken.

Definition resp_of (cmd : VS2Command) : list nat :=
  match cmd with
  | Stop _ | Restart => []
  | Connect _ i | Open _ i | VisaRequestCmd _ i | RegisterVss _ i | AuthorizeConnect _ i
  | Reauthorize _ i | Reauthenticate _ i | NotifyDisconnect _ i | Ping i | VisaIdsRequest i
  | VisaByIdsRequest _ i => [i]
  end.
Definition is_stop (cmd : VS2Command) : bool := match cmd with Stop _ => true | _ => false end.

(** A command that is dropped closes the channel of its answer. *)
Definition drop_cmd (cmd : VS2Command) : list Out := Discard <$> resp_of cmd.

(** [run_with_reconnect] returns, and the [VSConn] with the receiver is dropped. *)
Definition ended (s : VSConn) (outs : list Out) : VSConn * list Out :=
  (mkConn [] Ended (now s), outs ++ (cmd_rx s ≫= drop_cmd)).
(** [run] returned an error. *)
Definition failed (s : VSConn) (t : Z) (outs : list Out) : VSConn * list Out :=
  (mkConn (cmd_rx s) (Delaying (t + reconnect_after)) t, outs).

(** The channel takes a command while it has room; once the loop has ended it is
    closed. *)
Definition send_command (s : VSConn) (cmd : VS2Command) : option (VSConn + VSApiError) :=
  match phase s with
  | Ended => Some (inr ConnClosed)
  | _ => if (length (cmd_rx s) <? buffer_size)%nat
         then Some (inl (mkConn (cmd_rx s ++ [cmd]) (phase s) (now s))) else None
  end.

(** The receiver's branch. *)
Definition recv (s : VSConn) : option (VSConn * list Out) :=
  match cmd_rx s with
  | [] => None
  | cmd :: rest =>
      let s := mkConn rest (phase s) (now s) in
      match phase s with
      | Dialing =>
          Some (if is_stop cmd then ended s [Lifecycle RunLoopExits] else (s, drop_cmd cmd))
      | Running vs_handle ping_timeout ping_failures =>
          Some (mkConn rest (Handling vs_handle ping_timeout ping_failures cmd) (now s), [])
      | Delaying _ => Some (if is_stop cmd then ended s [] else (s, drop_cmd cmd))
      | _ => None
      end
  end.

(** The rest of that branch of the loop. *)
Definition command_done (srv : Server) (s : VSConn) (vs_handle : option Handle)
    (ping_timeout ping_failures : Z) (cmd : VS2Command) : VSConn * list Out :=
  let '(t, vs_handle, outs, r) := handle_command srv vs_handle cmd (now s) in
  match r with
  | inr _ => failed s t (outs ++ [Lifecycle RunLoopExits])
  | inl _ =>
      if is_stop cmd
      then ended (mkConn (cmd_rx s) (phase s) t) (outs ++ [Lifecycle RunLoopExits])
      else (mkConn (cmd_rx s) (Running vs_handle ping_timeout ping_failures) t, outs)
  end.

Definition ping_due (s : VSConn) (vs_handle : option Handle) (ping_failures : Z) : VSConn * list Out :=
  match vs_handle with
  | None => (mkConn (cmd_rx s) (Running None (now s + VSAPI_PING_INTERVAL) 0) (now s), [])
  | Some h => (mkConn (cmd_rx s) (Pinging h ping_failures) (now s), [])
  end.

Definition ping_done (srv : Server) (s : VSConn) (h : Handle) (ping_failures : Z) : VSConn * list Out :=
  let next_ping_timeout := PING_MIN_TIMEOUT + 1000 * ping_failures in
  match do_ping srv h next_ping_timeout (now s) with
  | (t, inl _) => (mkConn (cmd_rx s) (Running (Some h) (t + VSAPI_PING_INTERVAL) 0) t, [])
  | (t, inr _) =>
      let ping_failures := ping_failures + 1 in
      if VSAPI_MAX_PING_FAILURES <=? ping_failures
      then failed s t [Lifecycle RunLoopExits]
      else (mkConn (cmd_rx s) (Running (Some h) (t + 1000) ping_failures) t, [])
  end.

(** A step of [run_with_reconnect] and of those that use it; time passes in the waits
    that do not tell how long they took. *)
Definition step (a : Act) (s : VSConn) : option (VSConn * list Out) :=
  match a, phase s with
  | Send cmd, _ =>
      match send_command s cmd with Some (inl s') => Some (s', []) | _ => None end
  | Pass d, (Dialing | Securing | Running _ _ _ | Delaying _ | Ended) =>
      if 0 <=? d then Some (mkConn (cmd_rx s) (phase s) (now s + d), []) else None
  | Connected_ ok, Dialing =>
      Some (if ok then (mkConn (cmd_rx s) Securing (now s), []) else failed s (now s) [])
  | Secured ok, Securing =>
      Some (if ok
            then (mkConn (cmd_rx s) (Running None (now s + VSAPI_PING_INTERVAL) 0) (now s),
                  [Lifecycle RunLoopStarts])
            else failed s (now s) [])
  | Recv, _ => recv s
  | Done srv, Handling vs_handle ping_timeout ping_failures cmd =>
      Some (command_done srv s vs_handle ping_timeout ping_failures cmd)
  | PingDue, Running vs_handle ping_timeout ping_failures =>
      if ping_timeout <=? now s then Some (ping_due s vs_handle ping_failures) else None
  | Pong srv, Pinging h ping_failures => Some (ping_done srv s h ping_failures)
  | Woken, Delaying until =>
      match cmd_rx s with
      | [] => if until <=? now s then Some (mkConn [] Dialing (now s), []) else None
      | _ => None
      end
  | _, _ => None
  end.

Fixpoint run (acts : list Act) (s : VSConn) : option (VSConn * list Out) :=
  match acts with
  | [] => Some (s, [])
  | a :: acts =>
      '(s, outs) ← step a s;
      '(s, outs') ← run acts s;
      Some (s, outs ++ outs')
  end.

End client.

End VsConn.

(** * The connection to the visa service: its properties

    Commands are answered in order and exactly once; the lifecycle events tell the
    state of the connection; what ends the run loop; how soon silence is noticed. *)

Import VsConn.

Module VsConnProps.

Section props.
Context `{VsTypes} `{Crypto}.
Context (node_cn node_private_key : list Z) (substrate_addr : list Z * Z)
        (buffer_size : nat) (reconnect_after : Z) (unix_ts : Z -> Z).

Notation handle_command := (handle_command node_cn node_private_key substrate_addr unix_ts).
Notation command_done := (command_done node_cn node_private_key substrate_addr reconnect_after unix_ts).
Notation recv := (@recv _).
Notation step := (step node_cn node_private_key substrate_addr buffer_size reconnect_after unix_ts).
Notation run := (run node_cn node_private_key substrate_addr buffer_size reconnect_after unix_ts).

(** ** Observations *)

(** The commands resolved by an output, in order: answered or dropped. *)
Definition resolved (outs : list Out) : list nat :=
  outs ≫= fun o => match o with Respond i _ | Discard i => [i] | Lifecycle _ => [] end.
(** The lifecycle events. *)
Definition events (outs : list Out) : list VSConnLifecycleEvent :=
  outs ≫= fun o => match o with Lifecycle e => [e] | _ => [] end.
(** The commands sent. *)
Definition sent (acts : list Act) : list nat :=
  acts ≫= fun a => match a with Send cmd => resp_of cmd | _ => [] end.
(** The commands that wait, the one being handled first. *)
Definition handling (p : Phase) : list VS2Command :=
  match p with Handling _ _ _ cmd => [cmd] | _ => [] end.
Definition waiting (s : VSConn) : list nat := (handling (phase s) ++ cmd_rx s) ≫= resp_of.

Lemma resolved_app o1 o2 : resolved (o1 ++ o2) = resolved o1 ++ resolved o2.
Proof. apply bind_app. Qed.
Lemma events_app o1 o2 : events (o1 ++ o2) = events o1 ++ events o2.
Proof. apply bind_app. Qed.

Lemma resolved_drop cmd : resolved (drop_cmd cmd) = resp_of cmd.
Proof. by destruct cmd. Qed.
Lemma events_drop cmd : events (drop_cmd cmd) = [].
Proof. by destruct cmd. Qed.
Lemma resolved_drops l : resolved (l ≫= drop_cmd) = l ≫= resp_of.
Proof.
  induction l as [|c l IH]; [done|]. rewrite !bind_cons, resolved_app, resolved_drop. by f_equal.
Qed.
Lemma events_drops l : events (l ≫= drop_cmd) = [].
Proof. induction l as [|c l IH]; [done|]. by rewrite bind_cons, events_app, events_drop. Qed.

Lemma stop_resp (cmd : VS2Command) : is_stop cmd = true -> resp_of cmd = [].
Proof. by destruct cmd. Qed.

(** Induction over a run. *)
Lemma run_ind (P : list Act -> VSConn -> list Out -> Prop) s0 :
  P [] s0 [] ->
  (forall acts a s outs s' o, P acts s outs -> step a s = Some (s', o) -> P (acts ++ [a]) s' (outs ++ o)) ->
  forall acts s outs, run acts s0 = Some (s, outs) -> P acts s outs.
Proof.
  intros Hnil HS acts.
  enough (Hg : forall pre s1 o1, P pre s1 o1 -> forall s outs, run acts s1 = Some (s, outs) ->
    P (pre ++ acts) s (o1 ++ outs)) by (intros s outs Hr; exact (Hg [] s0 [] Hnil s outs Hr)).
  induction acts as [|a acts IH]; intros pre s1 o1 HP s outs Hr; simpl in Hr.
  - simplify_eq. by rewrite !app_nil_r.
  - destruct (step a s1) as [[s2 o2]|] eqn:Hs; simplify_option_eq.
    destruct (run acts s2) as [[s3 o3]|] eqn:Hr2; simplify_option_eq.
    rewrite cons_middle, !app_assoc. eapply IH; [|done]. by eapply HS.
Qed.

(** ** What handling a command answers *)

Ltac handled_inv Hh :=
  cbn in Hh; unfold handle_stop, handle_connect, handle_reauthenticate, respond in Hh;
  repeat case_match; simplify_eq.

Lemma handled_answers srv h cmd t t' h' outs r :
  handle_command srv h cmd t = (t', h', outs, r) -> resolved outs = resp_of cmd.
Proof. destruct cmd; intros Hh; handled_inv Hh; done. Qed.

Lemma handled_events srv h cmd t t' h' outs r :
  handle_command srv h cmd t = (t', h', outs, r) ->
  (events outs = [] /\ is_connected h' = is_connected h) \/
  (exists f, events outs = [ConnectedToVsApi f] /\ h = None /\ is_connected h' = true).
Proof.
  destruct cmd; intros Hh; handled_inv Hh; try (by left);
    right; eexists; split_and!; try done; destruct h; done.
Qed.

(** Only [Stop] and [Restart] fail. *)
Lemma handled_fails srv h cmd t t' h' outs e :
  handle_command srv h cmd t = (t', h', outs, inr e) ->
  cmd = Restart \/ is_stop cmd = true.
Proof. destruct cmd; intros Hh; handled_inv Hh; auto. Qed.

(** ** Steps *)

Ltac step_inv Hs :=
  unfold VsConn.step, VsConn.recv, VsConn.send_command, VsConn.command_done, VsConn.ping_due, VsConn.ping_done,
    VsConn.ended, VsConn.failed in Hs;
  repeat (case_match; simplify_eq).

Lemma step_answers a s s' o :
  step a s = Some (s', o) ->
  waiting s ++ sent [a] = resolved o ++ waiting s'.
Proof.
  intros Hs. unfold waiting, sent. destruct s as [q p t]. cbn.
  step_inv Hs; cbn; rewrite ?app_nil_r, ?bind_app, ?resolved_app, ?resolved_drops, ?resolved_drop, ?app_nil_r; try done.
  all: cbn in *; simplify_eq; cbn; rewrite ?app_nil_r; try done.
  all: try match goal with Hh : VsConn.handle_command _ _ _ _ _ _ _ _ = _ |- _ => apply handled_answers in Hh; rewrite ?Hh end.
  all: rewrite ?app_assoc, ?app_nil_r; try done.
  all: by match goal with Hs : is_stop _ = true |- _ => rewrite (stop_resp _ Hs) end.
Qed.

(** C20. Every command is resolved exactly once, and in the order in which the commands
    were sent: what was sent is what has been answered or dropped followed by what
    waits; and when the run loop has ended nothing waits any more. *)
Theorem commands_resolved_in_order acts s outs :
  run acts launched = Some (s, outs) ->
  sent acts = resolved outs ++ waiting s /\ (phase s = Ended -> resolved outs = sent acts).
Proof.
  intros Hr.
  assert (Hi : sent acts = resolved outs ++ waiting s /\ (phase s = Ended -> cmd_rx s = [])).
  { revert acts s outs Hr. apply run_ind; [done|]. intros acts a s outs s' o [IH IE] Hs. split.
    - unfold sent in *. rewrite bind_app, IH, resolved_app, <- !app_assoc. f_equal. by apply step_answers.
    - intros He. destruct s as [q p t]. step_inv Hs; cbn in *; simplify_eq; try done; by apply IE. }
  destruct Hi as [Hi He]. split; [done|]. intros Hp. rewrite Hi. unfold waiting.
  rewrite (He Hp), Hp. by rewrite app_nil_r.
Qed.

(** ** What the lifecycle events tell *)

(** Who follows the events knows one of these of the connection. *)
Inductive Watched := Down | Up | Ready | Over.

Definition watch (w : Watched) (e : VSConnLifecycleEvent) : option Watched :=
  match w, e with
  | Down, RunLoopStarts => Some Up
  | Down, RunLoopExits => Some Over
  | Up, ConnectedToVsApi _ => Some Ready
  | Up, RunLoopExits | Ready, RunLoopExits => Some Down
  | _, _ => None
  end.
Fixpoint watch_all (w : Watched) (es : list VSConnLifecycleEvent) : option Watched :=
  match es with [] => Some w | e :: es => w ← watch w e; watch_all w es end.

(** What the loop's own state is to such an observer. *)
Definition seen (h : option Handle) : Watched := if is_connected h then Ready else Up.
Definition tells (p : Phase) (w : Watched) : Prop :=
  match p with
  | Dialing | Securing | Delaying _ => w = Down
  | Running h _ _ | Handling h _ _ _ => w = seen h
  | Pinging _ _ => w = Ready
  | Ended => w = Down \/ w = Over
  end.

Lemma watch_all_app w es es' :
  watch_all w (es ++ es') = w' ← watch_all w es; watch_all w' es'.
Proof. revert w. induction es as [|e es IH]; intros w; [done|]. cbn. destruct (watch w e); cbn; auto. Qed.

Lemma watch_exits h : watch (seen h) RunLoopExits = Some Down.
Proof. by destruct h. Qed.

Lemma step_tells a s s' o w :
  step a s = Some (s', o) -> tells (phase s) w ->
  exists w', watch_all w (events o) = Some w' /\ tells (phase s') w'.
Proof.
  intros Hs Ht. destruct s as [q p t].
  step_inv Hs; cbn in *; simplify_eq; rewrite ?app_nil_r, ?events_app, ?events_drop, ?events_drops; cbn;
    subst; try (by eexists); rewrite ?app_nil_r.
  all: try match goal with Hh : VsConn.handle_command _ _ _ _ _ _ _ _ = _ |- _ =>
         apply handled_events in Hh as [[-> Hc]|(f & -> & -> & Hc)]; cbn; unfold seen in *; rewrite ?Hc end.
  all: try (by eexists); try (by eauto).
  all: repeat (case_match; cbn; try (by eauto)); cbn in Ht; subst; by eauto.
Qed.

(** C21. The lifecycle events tell the state of the connection: they are the events of
    a connection that is made, then perhaps authenticated once, then lost, over and
    over, ending with the loop; and at every moment an observer of the events knows
    whether the run loop runs and whether it holds a handle of the visa service. *)
Theorem lifecycle_tells_state acts s outs :
  run acts launched = Some (s, outs) ->
  exists w, watch_all Down (events outs) = Some w /\ tells (phase s) w.
Proof.
  revert acts s outs. apply run_ind; [by eexists|]. intros acts a s outs s' o (w & Hw & Ht) Hs.
  destruct (step_tells _ _ _ _ _ Hs Ht) as (w' & Hw' & Ht'). exists w'. split; [|done].
  by rewrite events_app, watch_all_app, Hw.
Qed.

(** ** What ends the loop *)

(** The visa service's answer to the farewell of a deregistering [Stop] arrives in
    time and is a union of the schema. *)
Definition farewell_answered (srv : Server) (h : Handle) : bool :=
  let r := srv_notify_disconnect srv h (mkNotice None NodeShutdown) in
  (took r <=? DEFAULT_RPC_TIMEOUT) &&
  match returned r with Some (OkMsg _) | Some (ErrMsg _) => true | _ => false end.

(** The step takes a [Stop] where that ends the loop. *)
Definition stops (a : Act) (s : VSConn) : Prop :=
  match a, phase s with
  | Recv, (Dialing | Delaying _) => exists d rest, cmd_rx s = Stop d :: rest
  | Done srv, Handling h _ _ (Stop d) =>
      d = false \/ h = None \/ exists h', h = Some h' /\ farewell_answered srv h' = true
  | _, _ => False
  end.

Lemma deregister_ok srv h t :
  (deregister_self srv h t).2 = inl tt <-> farewell_answered srv h = true.
Proof.
  unfold deregister_self, farewell_answered, rpc_with_timeout, mbind, Timed_bind.
  destruct (took _ <=? _); [destruct (returned _) as [[| | |]|]|]; done.
Qed.

Lemma stop_result srv h d t t' h' outs r :
  handle_command srv h (Stop d) t = (t', h', outs, r) ->
  outs = [] /\
  (r = inl tt <-> d = false \/ h = None \/ exists h', h = Some h' /\ farewell_answered srv h' = true).
Proof.
  cbn. unfold handle_stop. destruct h as [h|], d; intros Hh; simplify_eq; try (split; [done|]; by split; auto).
  pose proof (deregister_ok srv h t) as Hd. destruct (deregister_self srv h t) as [t1 r1]. simplify_eq.
  split; [done|]. cbn in Hd. rewrite Hd. split; [eauto|]. by intros [?|[?|(h' & [= <-] & ?)]].
Qed.

(** C35. Nothing but a [Stop] ends the run loop and its reconnections, and a [Stop] that
    is taken ends them, unless it is to deregister the node first and the visa service
    does not answer that within ten seconds with something readable: then the loop is
    not ended but dials again. *)
Theorem only_stop_ends a s s' outs :
  phase s <> Ended ->
  step a s = Some (s', outs) ->
  (phase s' = Ended <-> stops a s) /\
  (forall srv h pt f d, a = Done srv -> phase s = Handling h pt f (Stop d) -> phase s' <> Ended ->
     phase s' = Delaying (now s' + reconnect_after) /\ outs = [Lifecycle RunLoopExits]).
Proof.
  intros Hne Hs. unfold stops. destruct s as [q p t].
  destruct a as [cmd|d|ok|ok| |srv| |srv|]; try (step_inv Hs; cbn in *; simplify_eq; (split; [split|]); try (by intros); congruence).
  - step_inv Hs; cbn in *; simplify_eq; (split; [split|]; try (by intros)).
    all: try (intros _; match goal with Hc : is_stop ?c = true |- _ => destruct c; try done; by eauto end).
    all: intros (d & rest & Hc); simplify_eq; done.
  - destruct p; cbn in Hs; try done. unfold VsConn.command_done, ended, failed in Hs.
    destruct (handle_command srv vs_handle cmd t) as [[[t' h'] o] r] eqn:Hh. cbn in *. rewrite Hh in Hs.
    destruct cmd; try (destruct r; cbn in Hs; simplify_eq; (split; [split|]; by intros)).
    destruct (stop_result _ _ _ _ _ _ _ _ Hh) as [-> Hiff].
    destruct r as [[]|e]; cbn in Hs; simplify_eq; cbn.
    + split; [|by intros]. split; [|done]. intros _. by apply Hiff.
    + split; [|by intros]. split; [done|]. intros Hc. by apply Hiff in Hc.
Qed.

(** The handshake is not interrupted: no command is taken while it lasts. *)
Lemma handshake_not_interrupted s : phase s = Securing -> step Recv s = None.
Proof. intros Hp. cbn. unfold VsConn.recv. rewrite Hp. by destruct (cmd_rx s). Qed.

(** ** Silence is noticed *)

(** A visa service that does not answer pings well, within the longest wait for one. *)
Definition silent (srv : Server) : Prop :=
  forall h, 0 <= took (srv_ping srv h) /\
    ~ (took (srv_ping srv h) <= 2000 /\ returned (srv_ping srv h) = Some (OkMsg tt)).

(** Acts of a loop that has no commands to handle, whose timers fire when they are due,
    and whose visa service is silent. *)
Definition quiet (a : Act) (s : VSConn) : Prop :=
  match a with
  | Pass d => match phase s with Running _ pt _ => d = 0 \/ now s + d <= pt | _ => True end
  | PingDue => True
  | Pong srv => silent srv
  | _ => False
  end.

Fixpoint quiet_run (acts : list Act) (s s' : VSConn) (outs : list Out) : Prop :=
  match acts with
  | [] => s' = s /\ outs = []
  | a :: acts => quiet a s /\ exists s1 o1 o2, step a s = Some (s1, o1) /\ quiet_run acts s1 s' o2 /\ outs = o1 ++ o2
  end.

(** When, at the latest, the loop gives up. *)
Definition gives_up_by (s : VSConn) (deadline : Z) : Prop :=
  match phase s with
  | Running (Some _) pt f => (f = 0 /\ Z.max pt (now s) + 4000 <= deadline) \/ (f = 1 /\ Z.max pt (now s) + 2000 <= deadline)
  | Pinging _ f => (f = 0 /\ now s + 4000 <= deadline) \/ (f = 1 /\ now s + 2000 <= deadline)
  | _ => False
  end.
Definition gave_up (s : VSConn) (deadline : Z) : Prop :=
  exists u, phase s = Delaying u /\ u <= deadline + reconnect_after.

Lemma silent_ping srv h f t t' r :
  silent srv -> 0 <= f <= 1 -> do_ping srv h (PING_MIN_TIMEOUT + 1000 * f) t = (t', r) ->
  (exists e, r = inr e) /\ t <= t' <= t + 1000 + 1000 * f.
Proof.
  intros Hs Hf. unfold do_ping, rpc_with_timeout, mbind, Timed_bind. destruct (Hs h) as [Ht Hn].
  unfold PING_MIN_TIMEOUT. destruct (Z.leb_spec (took (srv_ping srv h)) (1000 + 1000 * f)).
  - destruct (returned (srv_ping srv h)) as [[| |[]|[]]|] eqn:Hr; cbn; unfold fail, lift, mret, Timed_ret; intros Hp; simplify_eq; try (by split; [eauto|lia]).
    exfalso. apply Hn. split; [lia|done].
  - intros Hp. simplify_eq. split; [eauto|lia].
Qed.

Lemma quiet_step a s s' o D :
  quiet a s -> step a s = Some (s', o) -> gives_up_by s D ->
  (gives_up_by s' D /\ o = []) \/ (gave_up s' D /\ o = [Lifecycle RunLoopExits]).
Proof.
  intros Hq Hs Hg. destruct s as [q p t]. destruct a as [cmd|d|ok|ok| |srv| |srv|]; try done.
  - left. destruct p as [| |[h|] pt f| | | |]; cbn in *; try done.
    destruct (Z.leb_spec 0 d); simplify_eq. cbn. split; [|done]. destruct Hq; lia.
  - left. destruct p as [| |[h|] pt f| | | |]; cbn in *; try done.
    destruct (Z.leb_spec pt t); simplify_eq. cbn. split; [|done]. lia.
  - destruct p as [| | | |h f| |]; cbn in *; try done. unfold VsConn.ping_done, failed in Hs. cbn in Hs.
    destruct (do_ping srv h _ t) as [t' r] eqn:Hp.
    destruct (silent_ping srv h f t t' r Hq ltac:(lia) Hp) as [[e ->] Hb].
    unfold VSAPI_MAX_PING_FAILURES in Hs. destruct (Z.leb_spec 2 (f + 1)); simplify_eq; [right|left].
    + split; [|done]. eexists; split; [done|]. lia.
    + cbn. split; [|done]. lia.
Qed.

Lemma quiet_after acts s s' o D : quiet_run acts s s' o -> gave_up s D -> gave_up s' D /\ o = [].
Proof.
  revert s o. induction acts as [|a acts IH]; intros s o; cbn; [by intros [-> ->]|].
  intros (Hq & s1 & o1 & o2 & Hs & Hr & ->) (u & Hp & Hu). destruct s as [q p t]. cbn in Hp. subst p.
  destruct a; try done; cbn in Hs; try done. destruct (0 <=? d); simplify_eq. cbn.
  apply (IH _ _ Hr). by exists u.
Qed.

(** C34. A visa service that has fallen silent is noticed: with a handle held, no commands
    to handle and the next ping due in five seconds or less, the loop keeps running for
    nine seconds at most before it announces its exit and starts the delay after which
    it dials again: two pings, the first given one second and the second two, a second
    apart. *)
Theorem silence_noticed acts s s' outs h pt :
  phase s = Running (Some h) pt 0 ->
  now s <= pt <= now s + VSAPI_PING_INTERVAL ->
  quiet_run acts s s' outs ->
  (now s' <= now s + 9000 /\ outs = [] /\
   match phase s' with Running (Some _) _ _ | Pinging _ _ => True | _ => False end) \/
  (outs = [Lifecycle RunLoopExits] /\
   exists until, phase s' = Delaying until /\ until <= now s + 9000 + reconnect_after).
Proof.
  unfold VSAPI_PING_INTERVAL. intros Hp Ht. set (D := now s + 9000).
  assert (Hg : gives_up_by s D) by (unfold gives_up_by; rewrite Hp; lia).
  clearbody D. clear Hp Ht. revert s outs Hg.
  induction acts as [|a acts IH]; intros s outs Hg; cbn.
  - intros [-> ->]. left. unfold gives_up_by in Hg. split; [|split; [done|]].
    + repeat case_match; try done; lia.
    + by repeat case_match.
  - intros (Hq & s1 & o1 & o2 & Hs & Hr & ->).
    destruct (quiet_step _ _ _ _ _ Hq Hs Hg) as [[Hg1 ->]|[Hg1 ->]]; [by apply (IH s1)|].
    destruct (quiet_after _ _ _ _ _ Hr Hg1) as [(u & Hu & Hb) ->]. right. eauto.
Qed.

End props.

End VsConnProps.
