(* ===== verification/VsWorker.v ===== *)
(** * The worker that keeps the node registered ([vs_worker.rs])

    The task that follows the lifecycle of the connection to the visa service: it waits
    for a run loop to start, authenticates the node, registers its visa support
    service, and begins again when the loop has been replaced.  It is modelled together
    with the run loop ([VsConn]), the channel of commands, the broadcast channel of
    lifecycle events with its bound, and whatever else sends commands; each step is one
    of the run loop's or of the worker's. *)
From Stdlib Require Import ZArith Lia.
From stdpp Require Import base tactics option list numbers strings gmap.
From S2P Require Import Prelude Auth VsConn.
From stdpp Require Import list.
Import VsConn.

Local Open Scope Z_scope.

Module VsWorker.

(** [config::VSCONN_RETRY_WAIT], also the delay of [run_with_reconnect] in [main.rs]. *)
Definition VSCONN_RETRY_WAIT : Z := 1000.

(** ** The receiver of a [tokio::sync::broadcast] channel

    As its documentation has it: the events that it has not read; of more than the
    channel holds, the oldest are lost, and it is told how many at its next read. *)
Record Receiver := mkReceiver { unread : list VSConnLifecycleEvent; skipped : nat }.

Definition broadcast (e : VSConnLifecycleEvent) (r : Receiver) : Receiver :=
  if (length (unread r) <? LIFECYCLE_EVENT_BUFFER_SIZE)%nat
  then mkReceiver (unread r ++ [e]) (skipped r)
  else mkReceiver (tail (unread r) ++ [e]) (S (skipped r)).

Inductive Received := Event (e : VSConnLifecycleEvent) | Lagged (n : nat) | Closed.

Definition receive (closed : bool) (r : Receiver) : option (Received * Receiver) :=
  match skipped r with
  | S _ => Some (Lagged (skipped r), mkReceiver (unread r) 0)
  | O => match unread r with
         | e :: rest => Some (Event e, mkReceiver rest 0)
         | [] => if closed then Some (Closed, r) else None
         end
  end.

Section worker.
Context `{VsTypes} `{Crypto}.
Context (node_cn node_private_key : list Z) (substrate_addr : SocketAddr)
        (buffer_size : nat) (unix_ts : Z -> Z).
(** The arguments of [launch], and the public key it derives. *)
Context (node_zpr_addr : list Z) (vss_addr : SocketAddr) (dh_pubkey : list Z).

(** ** The worker

    A call of a [VSConnHandle]: the command is yet to be put in the channel, or the
    answer is awaited. *)
Inductive Call := ToSend (cmd : VS2Command) (resp_tx : nat) | Awaiting (resp_rx : nat).

(** Where the worker waits: at the gate for a run loop to start, in the [select!] of
    the connect call with the lifecycle, for the adapters to be disconnected, for its
    registration, for the connect request of the visa service's adapter, for the
    farewell after a failed registration, for room for the restart command, or before
    the next attempt. *)
Inductive Pc :=
| AtGate
| Connecting (c : Call)
| Clearing
| Registering (c : Call)
| AtDeferred
| Deferring
| Notifying (c : Call)
| Restarting
| Sleeping (until : Z)
| Returned
| Panicked.

(** The effects on the rest of the node: [Assembly::disconnect_adapters] and
    [process_visaop]. *)
Inductive Effect := DisconnectAdapters | ProcessVisaOp (op : VisaOp).

(** The run loop, the receiver of its events, the answers that were sent ([None]
    where the sender was dropped), and the worker with its [state].  Two fields record
    the past: whether this run loop has had a registration accepted, and how many
    events the receiver has lost. *)
Record Sys := mkSys {
  conn : VSConn; lifecycle_rx : Receiver; answers : gmap nat (option Response); next_resp : nat;
  state : StateFlag; pc : Pc;
  enrolled : bool; lost : nat
}.

Definition launch : Sys := mkSys launched (mkReceiver [] 0) ∅ 0 NoState AtGate false 0.

(** *** The run loop seen by the others *)

Definition deliver1 (s : Sys) (o : Out) : Sys :=
  match o with
  | Lifecycle e =>
      mkSys (conn s) (broadcast e (lifecycle_rx s)) (answers s) (next_resp s) (state s) (pc s)
        (match e with RunLoopExits => false | _ => enrolled s end)
        (if (length (unread (lifecycle_rx s)) <? LIFECYCLE_EVENT_BUFFER_SIZE)%nat then lost s else S (lost s))
  | Respond i r =>
      mkSys (conn s) (lifecycle_rx s) (<[i := Some r]> (answers s)) (next_resp s) (state s) (pc s)
        (match r with RVss (inl _) => true | _ => enrolled s end) (lost s)
  | Discard i =>
      mkSys (conn s) (lifecycle_rx s) (<[i := None]> (answers s)) (next_resp s) (state s) (pc s)
        (enrolled s) (lost s)
  end.
Definition deliver (s : Sys) (outs : list Out) : Sys := foldl deliver1 s outs.

Definition set_conn (s : Sys) (c : VSConn) : Sys :=
  mkSys c (lifecycle_rx s) (answers s) (next_resp s) (state s) (pc s) (enrolled s) (lost s).

(** A step of the loop, or a command that another task sends.  The [oneshot] channels
    of others are the odd ones. *)
Definition conn_step (a : Act) (s : Sys) : option Sys :=
  match a with
  | Send cmd => if forallb Nat.odd (resp_of cmd) then
                  '(c, outs) ← VsConn.step node_cn node_private_key substrate_addr buffer_size VSCONN_RETRY_WAIT unix_ts a (conn s);
                  Some (deliver (set_conn s c) outs)
                else None
  | _ => '(c, outs) ← VsConn.step node_cn node_private_key substrate_addr buffer_size VSCONN_RETRY_WAIT unix_ts a (conn s);
         Some (deliver (set_conn s c) outs)
  end.

(** *** Steps of the worker *)

Definition goto (s : Sys) (p : Pc) : Sys :=
  mkSys (conn s) (lifecycle_rx s) (answers s) (next_resp s) (state s) p (enrolled s) (lost s).
Definition set_rx (s : Sys) (r : Receiver) : Sys :=
  mkSys (conn s) r (answers s) (next_resp s) (state s) (pc s) (enrolled s) (lost s).
Definition set_flag (s : Sys) (f : StateFlag) : Sys :=
  mkSys (conn s) (lifecycle_rx s) (answers s) (next_resp s) f (pc s) (enrolled s) (lost s).

(** A fresh channel for an answer: [oneshot::channel()]. *)
Definition call (s : Sys) (at_ : Call -> Pc) (mk : nat -> VS2Command) : Sys :=
  let i := (2 * next_resp s)%nat in
  mkSys (conn s) (lifecycle_rx s) (answers s) (S (next_resp s)) (state s) (at_ (ToSend (mk i) i))
    (enrolled s) (lost s).

Definition sleep (s : Sys) : Sys := goto s (Sleeping (now (conn s) + VSCONN_RETRY_WAIT)).

(** The top of the inner loop. *)
Definition begin_connect (s : Sys) : Sys :=
  call s Connecting (Connect (mkNodeConnect node_zpr_addr (state s) dh_pubkey)).

(** The [Err] branch of the registration. *)
Definition registration_failed (s : Sys) : Sys :=
  call s Notifying (NotifyDisconnect (mkNotice None LinkError)).

(** [if connected]: [register_vss] refuses port 0 itself. *)
Definition begin_register (s : Sys) : Sys :=
  if vss_addr.2 =? 0 then registration_failed s
  else call s Registering (RegisterVss vss_addr).

(** The result of a call whose answer is [r]: [None] of the inner option for
    [ConnClosed]. *)
Definition connect_result (s : Sys) (r : option Response) : Sys * list Effect :=
  match r with
  | Some (RUnit (inl _)) => (begin_register s, [])
  | Some (RUnit (inr (CodedError e))) =>
      match code e with
      | OutOfSync => (goto (set_flag s NoState) Clearing, [DisconnectAdapters])
      | _ => (sleep s, [])
      end
  | _ => (sleep s, [])
  end.

Definition register_result (s : Sys) (r : option Response) : Sys * list Effect :=
  match r with
  | Some (RVss (inl ops)) => (goto s AtDeferred, ProcessVisaOp <$> ops)
  | _ => (registration_failed s, [])
  end.

Definition call_result (s : Sys) (r : option Response) : option (Sys * list Effect) :=
  match pc s with
  | Connecting _ => Some (connect_result s r)
  | Registering _ => Some (register_result s r)
  | Notifying _ => Some (goto s Restarting, [])
  | _ => None
  end.

(** [wait_for_runloop_start], after which the inner loop begins. *)
Definition gate_event (s : Sys) (r : Received) : Sys :=
  match r with
  | Event RunLoopStarts => begin_connect s
  | Event _ | Lagged _ => s
  | Closed => begin_connect s
  end.
(** The lifecycle's branch of the [select!]. *)
Definition select_event (s : Sys) (r : Received) : Sys :=
  match r with
  | Event RunLoopExits => goto s AtGate
  | Event RunLoopStarts => sleep s
  | Event (ConnectedToVsApi _) => begin_register s
  | Lagged _ => sleep s
  | Closed => goto s Returned
  end.
Definition lifecycle_event (s : Sys) (r : Received) : option Sys :=
  match pc s with
  | AtGate => Some (gate_event s r)
  | Connecting _ => Some (select_event s r)
  | _ => None
  end.

(** The worker's steps: its command enters the channel, or finds it closed; an answer
    arrives; it reads the lifecycle; the adapters are disconnected; whether there is a
    deferred connect request; how that went; it wakes up. *)
Inductive WAct :=
| WSend
| WAnswer
| WEvent
| WCleared
| WTake (deferred : bool)
| WDeferred (ok : bool)
| WWake.

Definition is_ended (p : Phase) : bool := match p with Ended => true | _ => false end.

Definition worker_step (a : WAct) (s : Sys) : option (Sys * list Effect) :=
  match a, pc s with
  | WSend, (Connecting (ToSend cmd i) | Registering (ToSend cmd i) | Notifying (ToSend cmd i)) =>
      match send_command buffer_size (conn s) cmd with
      | None => None
      | Some (inl c) =>
          let w := match pc s with
                   | Connecting _ => Connecting (Awaiting i)
                   | Registering _ => Registering (Awaiting i)
                   | _ => Notifying (Awaiting i)
                   end in
          Some (goto (set_conn s c) w, [])
      | Some (inr _) => call_result s None
      end
  | WSend, Restarting =>
      match send_command buffer_size (conn s) Restart with
      | None => None
      | Some (inl c) => Some (goto (set_conn s c) AtGate, [])
      | Some (inr _) => Some (goto s AtGate, [])
      end
  | WAnswer, (Connecting (Awaiting i) | Registering (Awaiting i) | Notifying (Awaiting i)) =>
      match answers s !! i with
      | Some r => call_result s r
      | None => None
      end
  | WEvent, (AtGate | Connecting _) =>
      '(r, rx) ← receive (is_ended (phase (conn s))) (lifecycle_rx s);
      s' ← lifecycle_event (set_rx s rx) r;
      Some (s', [])
  | WCleared, Clearing => Some (sleep s, [])
  | WTake deferred, AtDeferred =>
      Some (if deferred then goto s Deferring else goto (set_flag s HasState) AtGate, [])
  | WDeferred ok, Deferring =>
      Some (if ok then goto (set_flag s HasState) AtGate else goto s Panicked, [])
  | WWake, Sleeping until => if until <=? now (conn s) then Some (begin_connect s, []) else None
  | _, _ => None
  end.

Inductive SysAct := C (a : Act) | W (a : WAct).

Definition sys_step (a : SysAct) (s : Sys) : option (Sys * list Effect) :=
  match a with
  | C a => s' ← conn_step a s; Some (s', [])
  | W a => worker_step a s
  end.

Fixpoint sys_run (acts : list SysAct) (s : Sys) : option (Sys * list Effect) :=
  match acts with
  | [] => Some (s, [])
  | a :: acts => '(s, e) ← sys_step a s; '(s, e') ← sys_run acts s; Some (s, e ++ e')
  end.

End worker.

End VsWorker.

(** * The worker that keeps the node registered: it is never left behind

    While the worker waits at its gate, a run loop that runs has accepted the node's
    registration, or the event that opens the gate is on its way, or the loop is about
    to be replaced. *)

Import VsConn VsConnProps VsWorker.

Module VsWorkerProps.

Section props.
Context `{VsTypes} `{Crypto}.
Context (node_cn node_private_key : list Z) (substrate_addr : list Z * Z)
        (buffer_size : nat) (unix_ts : Z -> Z).
Context (node_zpr_addr : list Z) (vss_addr : list Z * Z) (dh_pubkey : list Z).

Notation step := (step node_cn node_private_key substrate_addr buffer_size VSCONN_RETRY_WAIT unix_ts).
Notation conn_step := (conn_step node_cn node_private_key substrate_addr buffer_size unix_ts).
Notation worker_step := (worker_step buffer_size node_zpr_addr vss_addr dh_pubkey).
Notation sys_step := (sys_step node_cn node_private_key substrate_addr buffer_size unix_ts node_zpr_addr vss_addr dh_pubkey).
Notation sys_run := (sys_run node_cn node_private_key substrate_addr buffer_size unix_ts node_zpr_addr vss_addr dh_pubkey).

(** ** The run loop's session *)

(** The handle, while the loop runs. *)
Definition session (p : Phase) : option (option Handle) :=
  match p with
  | Running h _ _ | Handling h _ _ _ => Some h
  | Pinging h _ => Some (Some h)
  | _ => None
  end.
(** A command at which the session ends. *)
Definition leaves (cmd : VS2Command) : bool :=
  match cmd with Stop _ | Restart => true | _ => false end.
Definition doomed (c : VSConn) : bool := existsb leaves (handling (phase c) ++ cmd_rx c).

(** A registration accepted. *)
Definition accepted (o : Out) : bool := match o with Respond _ (RVss (inl _)) => true | _ => false end.

Lemma handled_accepted srv h cmd t t' h' outs r :
  handle_command node_cn node_private_key substrate_addr unix_ts srv h cmd t = (t', h', outs, r) ->
  existsb accepted outs = true -> is_connected h = true.
Proof.
  intros Hh Ha. destruct h as [h|]; [done|]. exfalso.
  destruct cmd; cbn in Hh; unfold handle_stop, handle_connect, handle_reauthenticate, respond in Hh;
    repeat case_match; simplify_eq; cbn in *; try done.
Qed.

Lemma existsb_accepted_drop cmd : existsb accepted (drop_cmd cmd) = false.
Proof. by destruct cmd. Qed.

Definition ready (p : Phase) : bool := match session p with Some h => is_connected h | None => false end.

Lemma handled_stays srv h cmd t t' h' outs r :
  handle_command node_cn node_private_key substrate_addr unix_ts srv h cmd t = (t', h', outs, inl r) ->
  is_stop cmd = false ->
  leaves cmd = false /\ RunLoopExits ∉ events outs /\
  (is_connected h = true \/ existsb accepted outs = true -> is_connected h' = true).
Proof.
  intros Hh Hs. split_and!.
  - by destruct cmd.
  - apply handled_events in Hh as [[-> _]|(f & -> & _)]; set_solver.
  - intros Hc. pose proof Hh as Hh2. apply handled_events in Hh2 as [[_ ->]|(f & _ & _ & ->)]; [|done].
    destruct Hc; [done|]. by eapply handled_accepted.
Qed.

(** A step after which the loop runs: it has just started, or it goes on. *)
Lemma step_session a c c' o :
  step a c = Some (c', o) -> session (phase c') <> None ->
  (session (phase c) = None /\ o = [Lifecycle RunLoopStarts]) \/
  (session (phase c) <> None /\ RunLoopExits ∉ events o /\ (doomed c = true -> doomed c' = true) /\
   (ready (phase c) = true \/ existsb accepted o = true -> ready (phase c') = true)).
Proof.
  intros Hs Hn. destruct c as [q p t].
  unfold VsConn.step, VsConn.recv, VsConn.send_command, VsConn.command_done, VsConn.ping_due, VsConn.ping_done,
    VsConn.ended, VsConn.failed in Hs.
  repeat (case_match; simplify_eq); cbn in *; simplify_eq; try done; try (by left); right.
  all: try (split_and!; [done|apply not_elem_of_nil| |by intros [?|?]]; unfold doomed; cbn;
       rewrite ?existsb_app; repeat (rewrite ?orb_true_iff); tauto).
  match goal with Hh : VsConn.handle_command _ _ _ _ _ _ _ _ = _ |- _ =>
    apply handled_stays in Hh as (Hl & He & Hc); [|done] end.
  split_and!; try done. unfold doomed. cbn. by rewrite Hl.
Qed.

Lemma existsb_accepted_drops l : existsb accepted (l ≫= drop_cmd) = false.
Proof. induction l as [|c l IH]; [done|]. by rewrite bind_cons, existsb_app, existsb_accepted_drop. Qed.

Lemma handled_leaves srv h cmd t t' h' outs r :
  handle_command node_cn node_private_key substrate_addr unix_ts srv h cmd t = (t', h', outs, r) ->
  is_stop cmd = true \/ (exists e, r = inr e) -> outs = [].
Proof.
  intros Hh Hc. assert (Hl : leaves cmd = true).
  { destruct Hc as [Hc|[e ->]]; [by destruct cmd|].
    apply handled_fails in Hh as [->|Hc]; [done|by destruct cmd]. }
  destruct cmd; try done; cbn in Hh; unfold handle_stop in Hh; repeat case_match; by simplify_eq.
Qed.

(** A step after which it does not: a session that was there has been announced to end. *)
Lemma step_leaves a c c' o :
  step a c = Some (c', o) -> session (phase c') = None ->
  existsb accepted o = false /\ (session (phase c) <> None -> RunLoopExits ∈ events o).
Proof.
  intros Hs Hn. destruct c as [q p t].
  unfold VsConn.step, VsConn.recv, VsConn.send_command, VsConn.command_done, VsConn.ping_due, VsConn.ping_done,
    VsConn.ended, VsConn.failed in Hs.
  repeat (case_match; simplify_eq); cbn in *; simplify_eq; try done.
  all: try match goal with Hh : VsConn.handle_command _ _ _ _ _ _ _ _ = _ |- _ =>
         apply handled_leaves in Hh; [|by eauto]; subst end.
  all: rewrite ?app_nil_l, ?existsb_app, ?existsb_accepted_drop, ?existsb_accepted_drops, ?events_app; cbn.
  all: split; [done|set_solver].
Qed.

(** ** Delivery *)

Lemma deliver_same s o :
  conn (deliver s o) = conn s /\ pc (deliver s o) = pc s /\ state (deliver s o) = state s /\
  next_resp (deliver s o) = next_resp s.
Proof.
  unfold deliver. revert s. induction o as [|o l IH]; intros s; [done|]. cbn.
  destruct (IH (deliver1 s o)) as (-> & -> & -> & ->). by destruct o.
Qed.

Lemma deliver_queue s o :
  lost (deliver s o) = 0%nat ->
  lost s = 0%nat /\ skipped (lifecycle_rx (deliver s o)) = skipped (lifecycle_rx s) /\
  unread (lifecycle_rx (deliver s o)) = unread (lifecycle_rx s) ++ events o.
Proof.
  unfold deliver. revert s. induction o as [|o l IH]; intros s; cbn; [by rewrite app_nil_r|].
  intros Hl. destruct (IH _ Hl) as (Hz & -> & ->). destruct o as [e| |]; try done.
  unfold deliver1, broadcast, lost, lifecycle_rx in *. destruct (_ <? _)%nat; [|done]. cbn. by rewrite <- app_assoc.
Qed.

Lemma deliver_answers s o i r :
  answers (deliver s o) !! i = Some r -> answers s !! i = Some r \/
  (i ∈ resolved o /\ (forall ops, r = Some (RVss (inl ops)) -> existsb accepted o = true)).
Proof.
  unfold deliver. revert s. induction o as [|o l IH]; intros s; cbn; [by left|].
  intros Hl. destruct (IH _ Hl) as [Ha|[Hi Ha]].
  - destruct o as [e|j x|j]; cbn in *; [by left| |]; destruct (decide (j = i)) as [->|Hne];
      try (rewrite lookup_insert_ne in Ha by done; by left); rewrite lookup_insert_eq in Ha; simplify_eq;
      right; (split; [set_solver|]); intros ops Hr; by simplify_eq.
  - right. split; [set_solver|]. intros ops Hr. rewrite (Ha ops Hr). apply orb_true_r.
Qed.

Lemma deliver_answers_other s o i : i ∉ resolved o -> answers (deliver s o) !! i = answers s !! i.
Proof.
  unfold deliver. revert s. induction o as [|o l IH]; intros s Hi; [done|]. cbn in *.
  rewrite IH by set_solver. destruct o; cbn in *; try done; by rewrite lookup_insert_ne by set_solver.
Qed.

Lemma no_exit_cons o l :
  RunLoopExits ∉ events (o :: l) <-> o <> Lifecycle RunLoopExits /\ RunLoopExits ∉ events l.
Proof.
  destruct o as [[]| |]; cbn; rewrite ?not_elem_of_cons; split; intros Hn; repeat split; try done; try apply Hn.
  all: by destruct Hn as [Hn _].
Qed.

Lemma deliver_enrolled s o :
  (enrolled (deliver s o) = true -> (enrolled s = true /\ RunLoopExits ∉ events o) \/ existsb accepted o = true) /\
  (RunLoopExits ∉ events o -> enrolled s = true \/ existsb accepted o = true -> enrolled (deliver s o) = true).
Proof.
  unfold deliver. revert s. induction o as [|o l IH]; intros s.
  { split; [left; split; [done|apply not_elem_of_nil]|]. by intros _ [?|?]. }
  rewrite no_exit_cons. cbn [foldl existsb]. destruct (IH (deliver1 s o)) as [IH1 IH2].
  assert (Hd : enrolled (deliver1 s o) = true <->
    (enrolled s = true /\ o <> Lifecycle RunLoopExits) \/ accepted o = true).
  { clear. destruct o as [[]|i []|]; cbn; try naive_solver. destruct r; naive_solver. }
  rewrite orb_true_iff. split; [tauto|].
  intros [Hn Hl] He. apply IH2; [done|]. tauto.
Qed.

(** ** The invariant *)

(** Nothing is wrong with the worker's waiting: a loop that runs has accepted the
    registration, or has announced its start, or will not run on. *)
Definition good (s : Sys) : Prop :=
  session (phase (conn s)) <> None ->
  enrolled s = true \/ RunLoopStarts ∈ unread (lifecycle_rx s) \/ doomed (conn s) = true.

(** The channels for answers that were made so far. *)
Definition old (n i : nat) : Prop := Nat.odd i = true \/ (i < 2 * n)%nat.
Definition unused (s : Sys) (i : nat) : Prop := answers s !! i = None /\ i ∉ waiting (conn s).
Definition pc_call (p : Pc) : option Call :=
  match p with Connecting c | Registering c | Notifying c => Some c | _ => None end.
Record ids_ok (s : Sys) : Prop := mkIds {
  ids_waiting : forall i, i ∈ waiting (conn s) -> old (next_resp s) i;
  ids_answers : forall i r, answers s !! i = Some r -> old (next_resp s) i;
  ids_call : forall cmd i, pc_call (pc s) = Some (ToSend cmd i) ->
    resp_of cmd = [i] /\ (i < 2 * next_resp s)%nat /\ Nat.odd i = false /\ unused s i
}.

Definition pc_ok (s : Sys) : Prop :=
  match pc s with
  | AtGate | AtDeferred | Deferring => good s
  | Registering (Awaiting i) => forall ops, answers s !! i = Some (Some (RVss (inl ops))) -> good s
  | Returned => phase (conn s) = Ended
  | _ => True
  end.

Record kept (s : Sys) : Prop := mkKept {
  k_skipped : skipped (lifecycle_rx s) = 0%nat;
  k_enrolled : enrolled s = true -> ready (phase (conn s)) = true;
  k_order : session (phase (conn s)) <> None ->
    forall q1 q2, unread (lifecycle_rx s) = q1 ++ RunLoopExits :: q2 -> RunLoopStarts ∈ q2;
  k_pc : pc_ok s
}.

Definition inv (s : Sys) : Prop := ids_ok s /\ (lost s = 0%nat -> kept s).

Lemma inv_launch : inv launch.
Proof.
  split; [|intros _]; split; cbn; try done.
  - intros i Hi. by apply not_elem_of_nil in Hi.
  - by intros Hn.
Qed.

(** *** Steps of the run loop *)

Lemma conn_step_inv a s s' :
  conn_step a s = Some s' ->
  exists c o, step a (conn s) = Some (c, o) /\ s' = deliver (set_conn s c) o /\
    (forall i, i ∈ sent [a] -> Nat.odd i = true).
Proof.
  intros Hs. assert (Hg : forall i, i ∈ sent [a] -> Nat.odd i = true).
  { destruct a as [cmd| | | | | | | |]; cbn; try (intros i Hi; by apply not_elem_of_nil in Hi).
    cbn in Hs. destruct (forallb Nat.odd (resp_of cmd)) eqn:Ho; [|done]. rewrite app_nil_r.
    intros i Hi. apply Is_true_true, forallb_True in Ho. apply Is_true_true.
    by eapply list.Forall_forall in Ho. }
  unfold VsWorker.conn_step in Hs.
  destruct a; try (destruct (forallb _ _); [|done]);
    destruct (VsConn.step _ _ _ _ _ _ _ _) as [[c o]|] eqn:Hc; simplify_option_eq; eauto.
Qed.

Lemma step_ended a c c' o : step a c = Some (c', o) -> phase c = Ended -> phase c' = Ended.
Proof.
  intros Hs Hp. destruct c as [q p t]. cbn in Hp. subst p. unfold VsConn.step in Hs.
  repeat (case_match; simplify_eq; try done). by destruct q.
Qed.

Lemma ids_step a s c o :
  step a (conn s) = Some (c, o) -> (forall i, i ∈ sent [a] -> Nat.odd i = true) ->
  ids_ok s -> ids_ok (deliver (set_conn s c) o).
Proof.
  intros Hs Ho Hi. apply step_answers in Hs.
  destruct (deliver_same (set_conn s c) o) as (Hc & Hp & _ & Hn).
  assert (Hw : forall i, i ∈ resolved o ++ waiting c -> i ∈ waiting (conn s) \/ Nat.odd i = true).
  { intros i Hin. rewrite <- Hs in Hin. apply elem_of_app in Hin as [?|?]; auto. }
  split; rewrite ?Hc, ?Hp, ?Hn; cbn.
  - intros i Hin. destruct (Hw i) as [?|?]; [apply elem_of_app; auto|by apply ids_waiting|by left].
  - intros i r Ha. apply deliver_answers in Ha as [Ha|[Ha _]]; [by eapply ids_answers|].
    destruct (Hw i) as [?|?]; [apply elem_of_app; auto|by apply ids_waiting|by left].
  - intros cmd i Hpc. destruct (ids_call s Hi cmd i Hpc) as (Hr & Hlt & Hodd & Hu & Hni).
    assert (Hno : i ∉ resolved o ++ waiting c) by (intros Hin; destruct (Hw i Hin); [done|congruence]).
    rewrite elem_of_app in Hno. split_and!; try done. split; rewrite ?Hc; [|tauto].
    rewrite deliver_answers_other by tauto. done.
Qed.

Lemma good_step a s c o :
  step a (conn s) = Some (c, o) -> lost (deliver (set_conn s c) o) = 0%nat -> 
  good s \/ existsb accepted o = true -> good (deliver (set_conn s c) o).
Proof.
  intros Hs Hl Hg. unfold good. destruct (deliver_same (set_conn s c) o) as (-> & _). cbn. intros Hn.
  destruct (deliver_queue _ _ Hl) as (_ & _ & ->). destruct (deliver_enrolled (set_conn s c) o) as [_ He].
  destruct (step_session _ _ _ _ Hs Hn) as [[_ ->]|(Hn1 & Hx & Hd & _)]; cbn in *.
  { right; left. apply elem_of_app; right. by apply list_elem_of_singleton. }
  destruct Hg as [Hg|Ha]; [|auto]. destruct (Hg Hn1) as [?|[?|?]]; [auto| |auto].
  right; left. apply elem_of_app; auto.
Qed.

Lemma split_queue (u e : list VSConnLifecycleEvent) q1 x q2 :
  u ++ e = q1 ++ x :: q2 ->
  (exists q3, u = q1 ++ x :: q3 /\ q2 = q3 ++ e) \/ x ∈ e.
Proof.
  revert q1. induction u as [|y u IH]; intros q1 Hq; cbn in Hq.
  - right. rewrite Hq. apply elem_of_app; right. apply elem_of_cons; auto.
  - destruct q1 as [|z q1]; injection Hq as -> Hq; [subst q2; left; by exists u|].
    destruct (IH _ Hq) as [(q3 & -> & ->)|?]; [left; by exists q3|by right].
Qed.

Lemma kept_step a s c o :
  step a (conn s) = Some (c, o) -> lost (deliver (set_conn s c) o) = 0%nat ->
  kept s -> kept (deliver (set_conn s c) o).
Proof.
  intros Hs Hl Hk. destruct (deliver_same (set_conn s c) o) as (Hc & Hp & _ & _).
  destruct (deliver_queue _ _ Hl) as (_ & Hsk & Hq). cbn in Hsk, Hq.
  split; rewrite ?Hc, ?Hsk, ?Hq; cbn.
  - apply Hk.
  - intros He. destruct (deliver_enrolled (set_conn s c) o) as [He1 _]. specialize (He1 He). cbn in He1.
    destruct (session (phase c)) eqn:Hn.
    + destruct (step_session _ _ _ _ Hs) as [[Hn1 ->]|(_ & _ & _ & Hr)]; [congruence| |].
      * destruct He1 as [[He1 _]|?]; [|done]. apply (k_enrolled s Hk) in He1. unfold ready in He1. by rewrite Hn1 in He1.
      * apply Hr. destruct He1 as [[He1 _]|?]; [left|by right]. by apply (k_enrolled s Hk).
    + destruct (step_leaves _ _ _ _ Hs Hn) as [Ha Hx]. exfalso.
      destruct He1 as [[He1 Hnx]|He1]; [|congruence]. apply (k_enrolled s Hk) in He1. unfold ready in He1.
      apply Hnx, Hx. by destruct (session (phase (conn s))).
  - intros Hn q1 q2 Hu. destruct (step_session _ _ _ _ Hs Hn) as [[_ ->]|(Hn1 & Hx & _)].
    + destruct (split_queue _ _ _ _ _ Hu) as [(q3 & _ & ->)|Hin].
      * apply elem_of_app; right. by apply list_elem_of_singleton.
      * by apply list_elem_of_singleton in Hin.
    + destruct (split_queue _ _ _ _ _ Hu) as [(q3 & Hu3 & ->)|Hin]; [|done].
      apply elem_of_app; left. by apply (k_order s Hk Hn1 q1).
  - unfold pc_ok. rewrite Hp, Hc. cbn. pose proof (k_pc s Hk) as Hpc. unfold pc_ok in Hpc.
    destruct (pc s) as [|?| |[|i]| | |?| | | |] eqn:Hpp; try done; try (apply (good_step _ _ _ _ Hs Hl); by left).
    + intros ops Ha. apply (good_step _ _ _ _ Hs Hl).
      apply deliver_answers in Ha as [Ha|[_ Ha]]; [left; by eapply Hpc|right; by eapply Ha].
    + by eapply step_ended.
Qed.

Lemma conn_inv a s s' : conn_step a s = Some s' -> inv s -> inv s'.
Proof.
  intros Hs [Hi Hk]. apply conn_step_inv in Hs as (c & o & Hs & -> & Ho). split; [by eapply ids_step|].
  intros Hl. apply (kept_step _ _ _ _ Hs Hl), Hk. by apply deliver_queue in Hl as [Hl _].
Qed.

(** *** Steps of the worker *)

(** A step that leaves the run loop alone. *)
Record aside (s s' : Sys) : Prop := mkAside {
  as_conn : conn s' = conn s;
  as_answers : answers s' = answers s;
  as_enrolled : enrolled s' = enrolled s;
  as_lost : lost s' = lost s;
  as_next : (next_resp s <= next_resp s')%nat;
  as_unread : exists pre, unread (lifecycle_rx s) = pre ++ unread (lifecycle_rx s');
  as_skipped : skipped (lifecycle_rx s) = 0%nat -> skipped (lifecycle_rx s') = 0%nat;
  as_call : forall cmd i, pc_call (pc s') = Some (ToSend cmd i) ->
    resp_of cmd = [i] /\ i = (2 * next_resp s)%nat /\ next_resp s' = S (next_resp s)
}.

Lemma inv_aside s s' : inv s -> aside s s' -> (lost s = 0%nat -> kept s -> pc_ok s') -> inv s'.
Proof.
  intros [Hi Hk] Ha Hpc.
  assert (Hold : forall i, old (next_resp s) i -> old (next_resp s') i).
  { intros i [?|?]; [by left|right]. pose proof (as_next _ _ Ha). lia. }
  split.
  - split; rewrite ?(as_conn _ _ Ha), ?(as_answers _ _ Ha).
    + intros i Hin. by apply Hold, ids_waiting.
    + intros i r Hr. by eapply Hold, ids_answers.
    + intros cmd i Hc. destruct (as_call _ _ Ha _ _ Hc) as (Hr & -> & Hn).
      assert (Hf : ~ old (next_resp s) (2 * next_resp s)%nat).
      { intros [Ho|?]; [|lia]. by rewrite Nat.odd_even in Ho. }
      split_and!; [done|lia|apply Nat.odd_even|split].
      * rewrite (as_answers _ _ Ha). apply eq_None_not_Some. intros [r Hr']. by eapply Hf, ids_answers.
      * rewrite (as_conn _ _ Ha). intros Hin. by apply Hf, ids_waiting.
  - rewrite (as_lost _ _ Ha). intros Hl. specialize (Hk Hl).
    split; rewrite ?(as_conn _ _ Ha), ?(as_enrolled _ _ Ha); [by apply (as_skipped _ _ Ha), Hk|apply Hk| |by apply Hpc].
    intros Hn q1 q2 Hu. destruct (as_unread _ _ Ha) as [pre Hpre].
    apply (k_order s Hk Hn (pre ++ q1)). by rewrite Hpre, Hu, app_assoc.
Qed.

Ltac aside :=
  split; cbn; try done; try lia; try (by exists []); try (by intros; repeat case_match; simplify_eq);
  try (intros; simplify_eq; by auto).

Lemma aside_goto s p : (forall cmd i, pc_call p <> Some (ToSend cmd i)) -> aside s (goto s p).
Proof. intros Hp. aside. intros cmd i Hc. by apply Hp in Hc. Qed.

Lemma aside_call s at_ mk :
  (forall c, pc_call (at_ c) = Some c) -> (forall i, resp_of (mk i) = [i]) -> aside s (call s at_ mk).
Proof. intros Hp Hm. aside. intros cmd i. rewrite Hp. intros [= <- <-]. by rewrite Hm. Qed.

(** The commands after which the worker waits without being wrong. *)
Definition calling (s s' : Sys) : Prop :=
  aside s s' /\ match pc s' with AtGate | AtDeferred | Deferring | Returned | Registering (Awaiting _) => False | _ => True end.

Lemma calling_inv s s' : inv s -> calling s s' -> inv s'.
Proof.
  intros Hi [Ha Hp]. apply (inv_aside s s' Hi Ha). intros _ _. unfold pc_ok.
  by destruct (pc s') as [|?| |[|]| | |?| | | |].
Qed.

Lemma calling_sleep s : calling s (sleep s).
Proof. split; [by apply aside_goto|done]. Qed.
Lemma calling_connect s : calling s (begin_connect node_zpr_addr dh_pubkey s).
Proof. split; [by apply aside_call|done]. Qed.
Lemma calling_failed s : calling s (registration_failed s).
Proof. split; [by apply aside_call|done]. Qed.
Lemma calling_register s : calling s (begin_register vss_addr s).
Proof. unfold begin_register. destruct (_ =? 0); [apply calling_failed|]. split; [by apply aside_call|done]. Qed.

(** A command of the worker's enters the channel. *)
Lemma inv_send s c cmd p :
  inv s -> send_command buffer_size (conn s) cmd = Some (inl c) ->
  (forall i, i ∈ resp_of cmd -> old (next_resp s) i) ->
  (forall cmd i, pc_call p <> Some (ToSend cmd i)) ->
  (lost s = 0%nat -> kept s -> pc_ok (goto (set_conn s c) p)) ->
  inv (goto (set_conn s c) p).
Proof.
  intros [Hi Hk] Hs Ho Hp Hpc.
  assert (Hc : phase c = phase (conn s) /\ cmd_rx c = cmd_rx (conn s) ++ [cmd]).
  { unfold send_command in Hs. repeat (case_match; simplify_eq); done. }
  destruct Hc as [Hph Hrx]. split.
  - split; cbn; [|apply Hi|intros ? ? Hc; by apply Hp in Hc].
    intros i Hin. unfold waiting in Hin. rewrite Hph, Hrx, app_assoc, bind_app in Hin.
    apply elem_of_app in Hin as [Hin|Hin]; [by apply ids_waiting|apply Ho]. cbn in Hin. by rewrite app_nil_r in Hin.
  - cbn. intros Hl. specialize (Hk Hl). split; cbn; rewrite ?Hph; try apply Hk. by apply Hpc.
Qed.

Lemma doomed_sent s c : 
  send_command buffer_size (conn s) Restart = Some (inl c) -> good (goto (set_conn s c) AtGate).
Proof.
  intros Hs Hn. right; right. cbn. unfold doomed.
  unfold send_command in Hs. repeat (case_match; simplify_eq); cbn; by rewrite ?existsb_app, ?orb_true_r.
Qed.

Lemma ended_good s : phase (conn s) = Ended -> good s.
Proof. intros Hp Hn. by rewrite Hp in Hn. Qed.

Lemma closed_ended (c : VSConn) cmd e : send_command buffer_size c cmd = Some (inr e) -> phase c = Ended.
Proof. unfold send_command. by repeat case_match. Qed.

(** The answer to a call arrives. *)
Lemma result_inv s r s' e :
  inv s ->
  (lost s = 0%nat -> kept s -> forall c ops, pc s = Registering c -> r = Some (RVss (inl ops)) -> good s) ->
  call_result vss_addr s r = Some (s', e) -> inv s'.
Proof.
  intros Hi Hg Hr. unfold call_result in Hr. destruct (pc s) as [|c| |c| | |c| | | |] eqn:Hpc; simplify_eq.
  - unfold connect_result in Hr. repeat case_match; simplify_eq;
      try (apply (calling_inv s _ Hi), calling_sleep); try (apply (calling_inv s _ Hi), calling_register).
    apply (calling_inv s _ Hi). split; [|done]. aside.
  - unfold register_result in Hr. repeat case_match; simplify_eq;
      try (apply (calling_inv s _ Hi), calling_failed).
    apply (inv_aside s _ Hi); [by apply aside_goto|]. intros Hl Hk. by eapply (Hg Hl Hk).
  - apply (calling_inv s _ Hi). split; [by apply aside_goto|done].
Qed.

(** The worker reads the lifecycle. *)
Lemma receive_cases b r rx x :
  skipped r = 0%nat -> receive b r = Some (x, rx) ->
  skipped rx = 0%nat /\ ((exists e, x = Event e /\ unread r = e :: unread rx) \/ (x = Closed /\ b = true /\ rx = r)).
Proof. intros Hs. unfold receive. rewrite Hs. intros Hr. repeat (case_match; simplify_eq); cbn; eauto 6. Qed.

Lemma receive_suffix b r rx x : receive b r = Some (x, rx) ->
  (exists pre, unread r = pre ++ unread rx) /\ (skipped r = 0%nat -> skipped rx = 0%nat).
Proof.
  unfold receive. intros Hr. repeat (case_match; simplify_eq); cbn; (split; [|done]).
  - by exists [].
  - by eexists [_].
  - by exists [].
Qed.

Lemma aside_rx b s x rx s' :
  receive b (lifecycle_rx s) = Some (x, rx) -> aside (set_rx s rx) s' -> aside s s'.
Proof.
  intros Hr Ha. destruct (receive_suffix _ _ _ _ Hr) as [[pre Hpre] Hsk]. destruct Ha; split; cbn in *; try done.
  - destruct as_unread0 as [pre' Hp']. exists (pre ++ pre'). by rewrite Hpre, Hp', app_assoc.
  - auto.
Qed.

Lemma lifecycle_inv s x rx s' :
  inv s -> receive (is_ended (phase (conn s))) (lifecycle_rx s) = Some (x, rx) ->
  lifecycle_event node_zpr_addr vss_addr dh_pubkey (set_rx s rx) x = Some s' -> inv s'.
Proof.
  intros Hi Hr He. assert (Hrx : forall s1, aside (set_rx s rx) s1 -> aside s s1) by (intros; by eapply aside_rx).
  assert (Hcall : forall s1, calling (set_rx s rx) s1 -> inv s1).
  { intros s1 [Ha Hp]. apply (calling_inv s _ Hi). split; auto. }
  unfold lifecycle_event, gate_event, select_event in He. cbn in He. destruct (pc s) as [|c| |c| | |c| | | |] eqn:Hpc; simplify_eq.
  - assert (Hstay : x <> Event RunLoopStarts -> x <> Closed -> inv (set_rx s rx)).
    { intros Hx Hx'. apply (inv_aside s _ Hi); [apply Hrx; split; cbn; try done; [by exists []|by rewrite Hpc]|].
      intros Hl Hk. pose proof (k_pc s Hk) as Hg. unfold pc_ok in *. cbn. rewrite Hpc in *. intros Hn.
      destruct (receive_cases _ _ _ _ (k_skipped s Hk) Hr) as [_ [(e & -> & Hu)|(-> & _)]]; [|done].
      destruct (Hg Hn) as [?|[Hin|?]]; [by left| |by right; right]. right; left. cbn.
      rewrite Hu in Hin. apply elem_of_cons in Hin as [<-|?]; [done|done]. }
    destruct x as [[]| |]; try (by apply Hstay); apply Hcall, calling_connect.
  - destruct x as [[]| |]; try (apply Hcall, calling_sleep); try (apply Hcall, calling_register).
    + apply (inv_aside s _ Hi); [apply Hrx; by apply aside_goto|]. intros Hl Hk Hn. right; left. cbn in *.
      destruct (receive_cases _ _ _ _ (k_skipped s Hk) Hr) as [_ [(e & [= <-] & Hu)|(? & _)]]; [|done].
      by apply (k_order s Hk Hn []).
    + apply (inv_aside s _ Hi); [apply Hrx; by apply aside_goto|]. intros Hl Hk. cbn.
      destruct (receive_cases _ _ _ _ (k_skipped s Hk) Hr) as [_ [(e & ? & Hu)|(_ & Hb & _)]]; [done|].
      by destruct (phase (conn s)).
Qed.

Lemma send_call_inv s c p cmd i :
  inv s -> pc_call (pc s) = Some (ToSend cmd i) -> send_command buffer_size (conn s) cmd = Some (inl c) ->
  pc_call p = Some (Awaiting i) -> inv (goto (set_conn s c) p).
Proof.
  intros Hi Hc Hs Hp. pose proof Hi as [Hids _]. destruct (ids_call s Hids _ _ Hc) as (Hr & Hlt & _ & Hu & _).
  apply (inv_send s c cmd p Hi Hs).
  - intros j. rewrite Hr. intros ->%list_elem_of_singleton. by right.
  - intros cmd' j. by rewrite Hp.
  - intros _ _. unfold pc_ok. cbn. destruct p; simplify_eq/=; try done. intros ops Ha. congruence.
Qed.

Lemma closed_call_inv s cmd s' e er :
  inv s -> send_command buffer_size (conn s) cmd = Some (inr er) -> call_result vss_addr s None = Some (s', e) -> inv s'.
Proof. intros Hi Hs. by apply result_inv. Qed.

Lemma call_answered_inv s i r s' e :
  inv s -> pc_call (pc s) = Some (Awaiting i) -> answers s !! i = Some r ->
  call_result vss_addr s r = Some (s', e) -> inv s'.
Proof.
  intros Hi Hc Ha. apply (result_inv s r s' e Hi). intros Hl Hk c ops Hpc ->.
  pose proof (k_pc s Hk) as Hg. unfold pc_ok in Hg. rewrite Hpc in *. cbn in Hc. simplify_eq. by eapply Hg.
Qed.

Ltac send_call Hpc :=
  match goal with c : Call |- _ => destruct c as [cmd i|]; [|done] end;
  destruct (send_command _ _ _) as [[c|er]|] eqn:Hc; simplify_eq;
  [eapply send_call_inv; rewrite ?Hpc; by eauto|by eapply closed_call_inv].
Ltac answer_call Hpc :=
  match goal with c : Call |- _ => destruct c as [|i]; [done|] end;
  destruct (answers _ !! _) as [r|] eqn:Ha; [|done];
  eapply call_answered_inv; rewrite ?Hpc; by eauto.
Ltac read_event :=
  match goal with Hs : context [receive ?b ?r] |- _ => destruct (receive b r) as [[x rx]|] eqn:Hr; [|done] end;
  simplify_option_eq; by eapply lifecycle_inv.

Lemma worker_inv a s s' e : worker_step a s = Some (s', e) -> inv s -> inv s'.
Proof.
  intros Hs Hi. unfold VsWorker.worker_step in Hs.
  destruct a as [| | | |d|ok|]; destruct (pc s) as [|c| |c| | |c| |u| |] eqn:Hpc; try done.
  1-3: send_call Hpc.
  - destruct (send_command _ _ _) as [[c|er]|] eqn:Hc; simplify_eq.
    + apply (inv_send s c Restart AtGate Hi Hc); [intros i Hin; by apply not_elem_of_nil in Hin|done|].
      intros _ _. by apply doomed_sent.
    + apply (inv_aside s _ Hi); [by apply aside_goto|]. intros _ _. by eapply ended_good, closed_ended.
  - answer_call Hpc.
  - answer_call Hpc.
  - answer_call Hpc.
  - read_event.
  - read_event.
  - simplify_eq. apply (calling_inv s _ Hi), calling_sleep.
  - apply (inv_aside s _ Hi); destruct d; simplify_eq; cbn; try (by apply aside_goto); try (by aside);
      intros _ Hk; pose proof (k_pc s Hk) as Hg; unfold pc_ok in *; by rewrite Hpc in Hg.
  - destruct ok; simplify_eq.
    + apply (inv_aside s _ Hi); [by aside|]. intros _ Hk. pose proof (k_pc s Hk) as Hg. unfold pc_ok in *. by rewrite Hpc in Hg.
    + apply (calling_inv s _ Hi). split; [by apply aside_goto|done].
  - destruct (_ <=? _); simplify_eq. apply (calling_inv s _ Hi), calling_connect.
Qed.

Lemma run_inv acts s s' eff : sys_run acts s = Some (s', eff) -> inv s -> inv s'.
Proof.
  revert s eff. induction acts as [|a acts IH]; intros s eff Hr Hi; cbn in Hr; [by simplify_eq|].
  destruct (sys_step a s) as [[s1 e1]|] eqn:Hs; [|done]. cbn in Hr.
  destruct (sys_run acts s1) as [[s2 e2]|] eqn:Hr2; [|done]. simplify_option_eq. apply (IH s1 _ Hr2).
  destruct a as [a|a]; cbn in Hs; [|by eapply worker_inv].
  destruct (conn_step a s) as [s3|] eqn:Hc; simplify_option_eq. by eapply conn_inv.
Qed.

(** C19. The worker is never left waiting for nothing: in every interleaving of the
    worker, the run loop and the other users of the connection in which the worker lost
    no lifecycle event to lag, while it waits at the gate for a run loop to start and a
    run loop runs, either that loop holds a handle and has had the node's registration
    accepted, or its start is still to be read, or a command that ends the loop is
    before it; and the worker returns only when the run loop is gone for good. *)
Theorem worker_never_wedged acts s eff :
  sys_run acts launch = Some (s, eff) ->
  lost s = 0%nat ->
  (forall h, pc s = AtGate -> session (phase (conn s)) = Some h ->
     (is_connected h = true /\ enrolled s = true) \/
     RunLoopStarts ∈ unread (lifecycle_rx s) \/ doomed (conn s) = true) /\
  (pc s = Returned -> phase (conn s) = Ended).
Proof.
  intros Hr Hl. destruct (run_inv _ _ _ _ Hr inv_launch) as [_ Hk]. specialize (Hk Hl).
  pose proof (k_pc s Hk) as Hp. unfold pc_ok in Hp. split; [|by intros Hpc; rewrite Hpc in Hp].
  intros h Hpc Hs. rewrite Hpc in Hp. destruct Hp as [He|?]; [by rewrite Hs| |by right].
  left. split; [|done]. pose proof (k_enrolled s Hk He) as Hrd. unfold ready in Hrd. by rewrite Hs in Hrd.
Qed.

End props.

End VsWorkerProps.
