(* ===== verification/Vss.v ===== *)
(** * The visa support service ([libnode2/src/vss.rs], [vss_worker.rs])

    The calls that the visa service makes to a node: a handler per call parses its
    arguments and hands a message over a channel to a worker, whose answer it turns
    into the call's result.  The handlers are written against the interface
    [VssHandler]; the worker on the shared state is its instance. *)
From Stdlib Require Import ZArith Lia.
From stdpp Require Import base tactics option list numbers gmap.
From S2P Require Import Prelude Slab NetDefs Tc ForwardingTables TxnMgr Auth LinkTypes PeerTable VisaTable AddressPool Assembly LinkFsm LinkTasks.
From stdpp Require Import list.
Import ForwardingTables Auth LinkTypes PeerTable Asm LinkFsm LinkTasks.

Local Open Scope Z_scope.

Module Vss.

(** The codes of the errors that are reported; their texts are left out. *)
Inductive Code := CodeParamError | CodeInvalidOperation | CodeInternal.

Record VssAck := mkAck { ok : bool; processed : Z; error : option Code }.

Inductive ListProcessingResponse := LAck (processed : Z) | LFailed (processed : Z) (e : Code).
Notation ApiResult := (unit + Code)%type.

(** The result of [launch_vss]'s accept loop for one connection: it ends the server
    when accepting or the handshake fails. *)
Inductive Accepted := AcceptFailed | HandshakeFailed | HandshakeOk (nodelay_ok : bool).
Definition accept_continues (a : Accepted) : bool :=
  match a with HandshakeOk _ => true | AcceptFailed | HandshakeFailed => false end.
(** The connections that are served before the server ends, if it does. *)
Fixpoint launch_vss (l : list Accepted) : nat * bool :=
  match l with
  | [] => (0%nat, true)
  | a :: l => if accept_continues a then let '(n, alive) := launch_vss l in (S n, alive) else (0%nat, false)
  end.

(** One handshake that fails ends the server, whatever was served before it and
    whoever would come after. *)
Lemma handshake_ends_server l1 l2 : (launch_vss (l1 ++ HandshakeFailed :: l2)).2 = false.
Proof. induction l1 as [|[| |b] l1 IH]; cbn; try done. destruct (launch_vss _). by cbn in *. Qed.

(** A client's data. *)
Record ClientData := mkClient { last_ping : option Z }.
Definition client_new : ClientData := mkClient None.
(** The call [ping]: answered here. *)
Definition ping (now : Z) (c : ClientData) : ApiResult * ClientData := (inl tt, mkClient (Some now)).

Section vss.
Context `{VisaEnv}.
(** Types of [zpr] that are only passed on. *)
Context (ServiceDescriptor Link : Type).

Inductive VSSMessage :=
| PushVisaOp (ops : list VisaOp)
| RevokeAuth (addrs : list (list Z))
| SetServices (services : list ServiceDescriptor)
| Configure (params : list Param)
| SetTopology (links : list Link)
| RequestAuthentication (addrs : list (list Z)).
Inductive VSSReply := ListReply (r : ListProcessingResponse) | ApiReply (r : ApiResult).

(** What the handlers rely on: a message sent to the worker is refused ([None]), or
    its answer never comes ([Some None]), or it is answered. *)
Class VssHandler (F : Type -> Type) := { handle_message : VSSMessage -> F (option (option VSSReply)) }.

Section handlers.
Context {F : Type -> Type} `{!MRet F} `{!MBind F} `{!VssHandler F}.

(** Arguments that are read one by one, [None] where one cannot be parsed. *)
Fixpoint parse_all {A} (items : list (option A)) : option (list A) :=
  match items with
  | [] => Some []
  | None :: _ => None
  | Some a :: r => match parse_all r with Some l => Some (a :: l) | None => None end
  end.

Definition build_ack_zero_with_error (e : Code) : VssAck := mkAck false 0 (Some e).

Definition handle_list_processing_result (r : option VSSReply) : VssAck :=
  match r with
  | Some (ListReply (LAck n)) => mkAck true n None
  | Some (ListReply (LFailed n e)) => mkAck (0 <? n) n (Some e)
  | _ => build_ack_zero_with_error CodeInternal
  end.

(** The calls with a list and an acknowledgement. *)
Definition list_call {A} (items : list (option A)) (mk : list A -> VSSMessage) : F VssAck :=
  match parse_all items with
  | None => mret (build_ack_zero_with_error CodeParamError)
  | Some [] => mret (build_ack_zero_with_error CodeInvalidOperation)
  | Some xs =>
      r ← handle_message (mk xs);
      mret match r with
           | None => build_ack_zero_with_error CodeInternal
           | Some r => handle_list_processing_result r
           end
  end.
Definition push_visa_op (ops : list (option VisaOp)) : F VssAck := list_call ops PushVisaOp.
Definition revoke_authentication (addrs : list (option (list Z))) : F VssAck := list_call addrs RevokeAuth.
Definition request_authentication (addrs : list (option (list Z))) : F VssAck :=
  list_call addrs RequestAuthentication.

Definition dispatch_and_recv_result (msg : VSSMessage) : F ApiResult :=
  r ← handle_message msg;
  mret match r with
       | Some (Some (ApiReply r)) => r
       | _ => inr CodeInternal
       end.

(** The calls with a list and a result. *)
Definition api_call {A} (items : list (option A)) (mk : list A -> VSSMessage) : F ApiResult :=
  match parse_all items with
  | None => mret (inr CodeParamError)
  | Some xs => dispatch_and_recv_result (mk xs)
  end.
Definition set_services (svcs : list (option ServiceDescriptor)) : F ApiResult := api_call svcs SetServices.
Definition configure (params : list (option Param)) : F ApiResult := api_call params Configure.
Definition set_topology (links : list (option Link)) : F ApiResult := api_call links SetTopology.

End handlers.

(** ** The worker *)

Section worker.
Context `{NetDefs} `{Crypto} `{TunCtl} `{FlowTables} `{SlabOps slab}.
Context (VISA_SERVICE_DN : list Z) (env : Env) (AAA_PREFIX : list Z)
        (parse : list Z -> option (list Z * Z))
        (update_services : list AuthService -> list ServiceDescriptor -> list AuthService).

Notation M := (Asm.M slab).

(** A message taken from the queue, by [launch]. *)
Definition process_message (msg : VSSMessage) : M VSSReply :=
  match msg with
  | PushVisaOp ops =>
      '(n, failed) ← push_visa_ops ops 0;
      mret (ListReply (if (failed : bool) then LFailed n CodeInternal else LAck n))
  | RevokeAuth addrs => n ← process_revoke_auth VISA_SERVICE_DN env addrs; mret (ListReply (LAck n))
  | RequestAuthentication addrs =>
      n ← process_request_authentication env addrs; mret (ListReply (LAck n))
  | SetServices services =>
      _ ← modify (fun s => set_vs_auth_services (update_services (vs_auth_services s) services) s);
      mret (ApiReply (inl tt))
  | Configure params =>
      r ← process_configuration AAA_PREFIX parse params;
      mret (ApiReply (match r with inl _ => inl tt | inr _ => inr CodeParamError end))
  | SetTopology _ => mret (ApiReply (inl tt))
  end.

(** The worker runs as long as the program: it takes every message and answers it. *)
#[export] Instance worker_handler : VssHandler M :=
  {| handle_message msg := r ← process_message msg; mret (Some (Some r)) |}.

(** ** What a push is acknowledged with *)

Notation push := (push_visa_op (F := M)).

(** The operations, done one after the other without an error. *)
Fixpoint applied (ops : list VisaOp) (s s' : Assembly slab) : Prop :=
  match ops with
  | [] => s' = s
  | op :: r => exists s1, process_visaop op s = Ret (inl tt, s1) /\ applied r s1 s'
  end.
(** The first that fails, if any, is the last that is tried. *)
Definition stopped_at (rest : list VisaOp) (s s' : Assembly slab) : Prop :=
  match rest with
  | [] => s' = s
  | op :: _ => exists e, process_visaop op s = Ret (inr e, s')
  end.

Lemma parse_all_length {A} (items : list (option A)) l : parse_all items = Some l -> length l = length items.
Proof.
  revert l. induction items as [|[a|] items IH]; intros l Hp; cbn in Hp; simplify_eq; [done|].
  destruct (parse_all items) as [l'|]; simplify_eq. cbn. f_equal. by apply IH.
Qed.

Lemma push_ops_split ops n s m failed s' :
  push_visa_ops ops n s = Ret ((m, failed), s') ->
  exists done rest s1, ops = done ++ rest /\ m = n + zlen done /\ applied done s s1 /\ stopped_at rest s1 s' /\
    (failed = true <-> rest <> []).
Proof.
  revert n s. induction ops as [|op ops IH]; intros n s Hp; cbn in Hp.
  - injection Hp as <- <- <-. exists [], [], s. rewrite zlen_nil, Z.add_0_r. done.
  - unfold mbind, M_bind in Hp. destruct (process_visaop op s) as [[[[]|e] s1]|] eqn:Ho; [| |done].
    + destruct (IH _ _ Hp) as (d & r & s2 & -> & -> & Ha & Hs & Hf).
      exists (op :: d), r, s2. rewrite zlen_cons. split_and!; try done; [lia|]. by exists s1.
    + injection Hp as <- <- <-. exists [], (op :: ops), s. rewrite zlen_nil, Z.add_0_r. split_and!; try done.
      by exists e.
Qed.

(** A push of visa operations that is acknowledged tells what was done: one that cannot
    be parsed or is empty changes nothing and is refused; of any other the operations
    are applied in order up to the first that fails; the number acknowledged is that of
    the operations applied, the acknowledgement is positive when at least one was, and
    carries an error exactly when not all were. *)
Theorem push_acked (items : list (option VisaOp)) (s s' : Assembly slab) (ack : VssAck) :
  push items s = Ret (ack, s') ->
  match parse_all items with
  | None | Some [] => s' = s /\ ok ack = false /\ processed ack = 0 /\ error ack <> None
  | Some ops =>
      exists done rest s1, ops = done ++ rest /\ applied done s s1 /\ stopped_at rest s1 s' /\
        processed ack = zlen done /\ (ok ack = true <-> done <> []) /\ (error ack = None <-> rest = [])
  end.
Proof.
  unfold push_visa_op, list_call. destruct (parse_all items) as [[|op ops]|].
  1, 3: by intros [= <- <-].
  cbn [handle_message worker_handler process_message]. unfold mbind, M_bind, mret, M_ret.
  destruct (push_visa_ops (op :: ops) 0 s) as [[[m failed] s2]|] eqn:Hp; [|done].
  intros [= <- <-]. destruct (push_ops_split _ _ _ _ _ _ Hp) as (d & r & s1 & Hops & -> & Ha & Hs & Hf).
  assert (Hr : failed = false <-> r = []) by (destruct failed, r; naive_solver). clear Hf.
  exists d, r, s1. pose proof (zlen_nonneg d). split_and!; try done.
  - by destruct failed.
  - destruct failed; cbn.
    + destruct d as [|op' d]; [done|]. rewrite zlen_cons. pose proof (zlen_nonneg d). split; [done|].
      intros _. apply Z.ltb_lt. lia.
    + split; [|done]. intros _ ->. cbn in Hops. subst r. naive_solver.
  - destruct failed; cbn; naive_solver.
Qed.

End worker.

End vss.

End Vss.
