(* ===== verification/VsExample.v ===== *)
(** * The connection to the visa service: examples

    Concrete runs: a node that connects, registers, is cut off by a visa service that
    falls silent, and registers again. *)
From Stdlib Require Import ZArith Lia.
From stdpp Require Import base tactics option list numbers strings gmap.
From S2P Require Import Prelude Auth VsConn VsWorker.
From stdpp Require Import list.
Import VsConn VsConnProps VsWorker VsWorkerProps.

Local Open Scope Z_scope.

Module VsExample.

#[local] Existing Instance Auth.toy_crypto.

Definition unit_types : VsTypes := {|
  Gate := unit; Handle := nat; VisaRequest := unit; ConnectRequest := unit; ReauthRequest := unit;
  Visa := unit; VisaOp := unit; VisaDecision := unit; Connection := unit; addr_to_string _ := []
|}.
#[local] Existing Instance unit_types.

(** Answers at once. *)
Definition at_once {A} (a : A) : Rpc A := mkRpc 0 (Some a).

(** A visa service that grants everything, and one that has gone. *)
Definition kind_server : Server := {|
  srv_connect _ := at_once (OkMsg tt);
  srv_challenge _ := at_once (Some (mkChallenge [1] (Some RsaSha256Pkcs1v15)));
  srv_authenticate _ _ := at_once (OkMsg 1%nat);
  srv_open _ := at_once (OkMsg 1%nat);
  srv_visa_request _ _ := at_once (OkMsg tt);
  srv_authorize_connect _ _ := at_once (OkMsg (Some tt));
  srv_reauthorize _ _ := at_once (OkMsg (Some tt));
  srv_notify_disconnect _ _ := at_once (OkMsg tt);
  srv_register_vss _ _ := at_once (OkMsg [Some tt]);
  srv_ping _ := at_once (OkMsg tt);
  srv_visa_ids _ := at_once (OkMsg []);
  srv_visa_by_ids _ _ := at_once (OkMsg [])
|}.
Definition gone {A} : Rpc A := mkRpc 100000 None.
Definition gone_server : Server := {|
  srv_connect _ := gone; srv_challenge _ := gone; srv_authenticate _ _ := gone; srv_open _ := gone;
  srv_visa_request _ _ := gone; srv_authorize_connect _ _ := gone; srv_reauthorize _ _ := gone;
  srv_notify_disconnect _ _ := gone; srv_register_vss _ _ := gone; srv_ping _ := gone;
  srv_visa_ids _ := gone; srv_visa_by_ids _ _ := gone
|}.

Notation run' := (run [110] [7] ([], 0) 16 1000 (fun _ => 0)).
Notation step' := (step [110] [7] ([], 0) 16 1000 (fun _ => 0)).
Definition node_connect : NodeConnect := mkNodeConnect [10] NoState [3].

(** A connection made, a command dropped while dialling, one served, one that waits
    when the loop is stopped. *)
Definition session_acts : list Act :=
  [Send (VsConn.Ping 5); Recv; Connected_ true; Secured true; Send (Connect node_connect 6); Recv;
   Send (Stop true); Send (VisaIdsRequest 7); Done kind_server; Recv; Done kind_server].
Definition session_outs : list Out :=
  [Discard 5; Lifecycle RunLoopStarts; Lifecycle (ConnectedToVsApi NoState); Respond 6 (RUnit (inl tt));
   Lifecycle RunLoopExits; Discard 7].

Example session_runs : run' session_acts launched = Some (mkConn [] Ended 0, session_outs).
Proof. vm_compute. reflexivity. Qed.

Lemma commands_resolved_in_order_witness :
  sent session_acts = [5; 6; 7]%nat /\ resolved session_outs = sent session_acts.
Proof.
  split; [reflexivity|].
  destruct (commands_resolved_in_order [110] [7] ([], 0) 16 1000 (fun _ => 0) session_acts
    (mkConn [] Ended 0) session_outs session_runs) as [_ He].
  apply He. reflexivity.
Defined.

Lemma lifecycle_tells_state_witness :
  exists w, watch_all Down [RunLoopStarts; ConnectedToVsApi NoState; RunLoopExits] = Some w /\ (w = Down \/ w = Over).
Proof.
  exact (lifecycle_tells_state [110] [7] ([], 0) 16 1000 (fun _ => 0) session_acts
    (mkConn [] Ended 0) session_outs session_runs).
Defined.

(** A node that is to deregister from a visa service that has gone does not stop. *)
Definition leaving : VSConn := mkConn [] (Handling (Some 1%nat) 5000 0 (Stop true)) 0.
Definition redials : VSConn := mkConn [] (Delaying 11000) 10000.

Lemma only_stop_ends_witness :
  step' (Done gone_server) leaving = Some (redials, [Lifecycle RunLoopExits]) /\
  ~ stops (Done gone_server) leaving.
Proof.
  split; [vm_compute; reflexivity|].
  destruct (only_stop_ends [110] [7] ([], 0) 16 1000 (fun _ => 0) (Done gone_server) leaving redials
    [Lifecycle RunLoopExits]) as [Hs _].
  - discriminate.
  - vm_compute. reflexivity.
  - intros Hc. apply Hs in Hc. discriminate.
Defined.

(** A visa service that has gone is noticed after nine seconds. *)
Definition connected : VSConn := mkConn [] (Running (Some 1%nat) 5000 0) 0.
Definition silent_acts : list Act :=
  [Pass 5000; PingDue; Pong gone_server; Pass 1000; PingDue; Pong gone_server].

Lemma gone_silent : silent gone_server.
Proof. intros h. cbn. split; [lia|]. intros [? _]. lia. Qed.

Lemma silence_noticed_witness :
  exists until, phase (mkConn [] (Delaying 10000) 9000) = Delaying until /\ until <= now connected + 9000 + 1000.
Proof.
  destruct (silence_noticed [110] [7] ([], 0) 16 1000 (fun _ => 0) silent_acts connected
    (mkConn [] (Delaying 10000) 9000) [Lifecycle RunLoopExits] 1%nat 5000) as [(_ & Ho & _)|[_ He]].
  - reflexivity.
  - cbn. unfold VSAPI_PING_INTERVAL. lia.
  - repeat (split; [try exact gone_silent; try (right; cbn; lia); exact I|
      eexists _, _, _; split; [vm_compute; reflexivity|split; [|reflexivity]]]); done.
  - discriminate.
  - exact He.
Defined.

(** The worker registers the node, the visa service falls silent, and the worker
    registers it with the next run loop. *)
Notation sys_run' := (sys_run [110] [7] ([], 0) 16 (fun _ => 0) [10] ([10], 8183) [3]).
Definition register_acts : list SysAct :=
  [C (Connected_ true); C (Secured true); W WEvent; W WSend; C Recv; C (Done kind_server); W WAnswer;
   W WSend; C Recv; C (Done kind_server); W WAnswer; W (WTake false)].
Definition worker_acts : list SysAct :=
  register_acts ++
  [C (Pass 5000); C PingDue; C (Pong gone_server); C (Pass 1000); C PingDue; C (Pong gone_server);
   C (Pass 1000); C Woken; W WEvent; W WEvent] ++ register_acts.

Definition summary (r : option (Sys * list Effect)) : option (Phase * Pc * bool * nat * list VSConnLifecycleEvent * list VS2Command) :=
  match r with
  | Some (s, _) => Some (phase (conn s), pc s, enrolled s, lost s, unread (lifecycle_rx s), cmd_rx (conn s))
  | None => None
  end.

Example worker_runs :
  summary (sys_run' worker_acts launch) = Some (Running (Some 1%nat) 15000 0, AtGate, true, 0%nat, [ConnectedToVsApi HasState], []).
Proof. vm_compute. reflexivity. Qed.

Lemma worker_never_wedged_witness :
  exists s eff, sys_run' worker_acts launch = Some (s, eff) /\
    session (phase (conn s)) = Some (Some 1%nat) /\ enrolled s = true.
Proof.
  destruct (sys_run' worker_acts launch) as [[s eff]|] eqn:Hr.
  2: { pose proof worker_runs as Hw. rewrite Hr in Hw. discriminate. }
  pose proof worker_runs as Hw. rewrite Hr in Hw. injection Hw as Hp Hpc He Hl Hu Hc.
  exists s, eff. split; [reflexivity|]. rewrite Hp. split; [reflexivity|].
  destruct (worker_never_wedged [110] [7] ([], 0) 16 (fun _ => 0) [10] ([10], 8183) [3] worker_acts s eff Hr Hl) as [Hw _].
  destruct (Hw (Some 1%nat) Hpc) as [[_ Hd]|[Hin|Hd]].
  - by rewrite Hp.
  - exact Hd.
  - exfalso. rewrite Hu in Hin. by apply list_elem_of_singleton in Hin.
  - exfalso. unfold doomed in Hd. rewrite Hp, Hc in Hd. discriminate.
Defined.

End VsExample.
